(* ===== verification/_CoqProject ===== *)
-Q . S2P
Prelude.v
Errno.v
Callout.v
Softclock.v
Wheel.v
Timeval.v
Sync.v
Limits.v
Proc0.v
Env.v
KernSubr.v
SockConv.v
Elf.v
SocketApi.v
Kevent.v
Prf.v
Route.v
RouteClean.v
RouteIoctl.v
Mbuf.v
TxRing.v
Pages.v
Kmem.v
Uaccess.v
Uma.v
Send.v
SendCopy.v
Rss.v
DpdkInit.v
Veth.v
Boot.v
Filter.v
Flow.v
Dispatch.v
Kni.v
Msg.v
MainLoop.v
Pcap.v
Config.v
Hooks.v
SysInit.v
SipHash.v
