(* ===== verification/Prelude.v ===== *)
(** * lazybsd: a verification development

    lazybsd runs the network stack of FreeBSD as a library in a process of Linux.  The
    C files of [bsd/lib] stand in for the parts of the FreeBSD kernel that the stack
    needs, and [src] has the other side: the calls of the host and the driver, which
    moves packets between the stack and a NIC with DPDK.  The code of the FreeBSD kernel
    itself, DPDK and the C library are not in the repository.

    ** The parts and their files

    - Prelude.v: machine integers with their wrap-around, the [outcome] monad
      ([Ok], [Panic], [Diverge]), [switch], and the shared lemmas and hints.
    - Errno.v: the error numbers of the stack and of the host
      ([src/lazybsd_errno.h], [src/lazybsd_errno.c]).
    - Callout.v, Softclock.v, Wheel.v: timers ([bsd/lib/lazybsd_kern_timeout.c]): what a
      client calls, the clock side, and the life of the wheel.
    - Timeval.v, Limits.v: interval timers, rate limits, accounting and credentials
      ([bsd/lib/lazybsd_patch.c]).
    - Env.v: the kernel environment ([bsd/lib/lazybsd_kern_environment.c]).
    - Boot.v, SysInit.v, Proc0.v: the start: the configuration and the first requests
      ([bsd/lib/lazybsd_freebsd.c]), the tasks, and the process of the stack
      ([bsd/lib/lazybsd_main.c]).
    - KernSubr.v: memory as bytes, hash tables, scatter/gather copies
      ([bsd/lib/lazybsd_kern_subr.c], [bsd/lib/lazybsd_patch.c]).
    - Pages.v, Kmem.v, Uaccess.v, Uma.v: memory: the pages of the stack ([src/lazybsd_memory.cc]),
      the regions and blocks of the kernel and the clocks ([src/lazybsd_host.c],
      [bsd/lib/lazybsd_patch.c]), strings and arrays from the application, the table of
      pages ([bsd/include/vm/uma_int.h]).
    - SockConv.v, SocketApi.v, Kevent.v: the socket calls ([bsd/lib/lazybsd_socket.c]), which
      convert between Linux and FreeBSD, and the kernel events
      ([bsd/lib/lazybsd_kevent.c]), over the routines of the stack.
    - Prf.v: formatted output ([bsd/lib/lazybsd_subr_prf.c]).
    - Sync.v: locks, sleeping and epochs ([bsd/lib/lazybsd_lock.c], [bsd/include/sys],
      [bsd/lib/lazybsd_kern_condvar.c], [bsd/lib/lazybsd_kern_synch.c],
      [bsd/lib/lazybsd_subr_epoch.c]).
    - Elf.v: relocation of modules ([bsd/lib/lazybsd_compat.c]).
    - Route.v, RouteClean.v, RouteIoctl.v: routing messages, the normal form of the
      addresses of a request, and the requests themselves ([bsd/lib/lazybsd_route.c]).
    - Veth.v, Mbuf.v: the network interface of a port, packet buffers and received packets
      ([bsd/lib/lazybsd_veth.c], [src/lazybsd_dpdk.cc]).
    - TxRing.v, Send.v, SendCopy.v: packets to send ([src/lazybsd_memory.cc],
      [src/lazybsd_dpdk.cc]), from the pages of the stack or, in a driver built without them, by copy.
    - Rss.v, Flow.v, Filter.v, Dispatch.v, Kni.v: which process, and whether the kernel of the
      host, gets a packet, and the packets to and from that kernel
      ([src/lazybsd_dpdk.cc]).
    - Msg.v: requests of other processes ([src/lazybsd_dpdk.cc], [src/lazybsd_msg.h]).
    - DpdkInit.v, MainLoop.v: the set-up of a process and its ports, and the loop that
      it spends its life in ([src/lazybsd_dpdk.cc]).
    - Pcap.v: packets dumped to files ([src/lazybsd_pcap.c]).
    - Config.v, Hooks.v: the configuration and the command line ([src/lazybsd_cfg.cc],
      [src/lazybsd_cmdline.cc]), what a program registers and what the environment sets.
    - SipHash.v: keyed hashes ([bsd/lib/lazybsd_crypto.c]).

    ** How they interact

    The main loop of the driver ticks the clock ([Softclock.lazybsd_hardclock]), drains the
    packets to send ([Send.tx_drain]), gives received packets to the stack
    ([Dispatch.process_packets], which looks into them with [Filter.protocol_filter] and
    ends in [Mbuf.lazybsd_veth_input]), passes packets on to the kernel of the host
    ([Kni.lazybsd_kni_process]) and answers messages ([Msg.process_msg_ring]).  It is
    written over the class [MainLoop.Driver]; [MainLoop.lazybsd_driver] is the driver made of
    these parts, and [MainLoop.lazybsd_driver_doc] shows the laws that the loop needs.  The
    stack sends through [Send.lazybsd_dpdk_if_send], whose packets point into the pages
    of Pages.v and are kept in the ring of TxRing.v until they are sent.  A program calls
    SocketApi.v, which converts with SockConv.v and reports errors with Errno.v, and
    Kevent.v, which shares its state.

    Before that, DpdkInit.v sets up the ports, and [Boot.lazybsd_freebsd_init] starts the
    kernel: it sets the environment of Env.v, takes memory with Kmem.v, which takes single
    pages from Pages.v, and runs the tasks of SysInit.v, of which [Proc0.proc0_init] is one.
    Veth.v then makes the interface of each port, with the features that DpdkInit.v
    negotiated with the NIC.  The
    operations have the names of the C functions; a C structure is a [Record], a global
    variable a field of the state that is passed along.  One thread runs the stack of a
    core and its locks do nothing (Sync.v shows for which programs that is right), so an operation
    is not interleaved with others.

    Code outside of the repository is a class: [SocketApi.Kernel] the routines of the
    stack, [SockConv.BsdHeaders] and [Route.RouteHeaders] what its headers define,
    [Mbuf.MbufKernel] its packet buffers, [Send.TxKernel] the NIC,
    [Dispatch.DispatchKernel] the rings, [Pages.Os] and [Kmem.HostMemory] the operating
    system, [Boot.BootKernel] and [Proc0.ProcKernel] what the start asks for.  A kernel that calls
    back ([Kevent.kprog]) is a tree of its calls; requests that are only made are a log.  What a theorem
    uses of them is a second class whose name ends in [Doc], or a named hypothesis of its section; each has an instance, which the
    witnesses use.

    ** What the theorems show

    - Timers: in every state that the calls and the ticks reach the wheel is well
      formed and no timer is missed; a tick returns; an armed timer fires once, in time,
      unless it is stopped.
    - Socket calls: each returns, and with arguments it accepts asks the stack once, with
      the translated arguments, reports its result, and leaves the stack and the memory
      as that request left them but for what it owes the caller; addresses survive the
      conversion and back; where an unchecked length goes wrong.
    - The kernel's helpers: copies move what they should and nothing else, searches and
      sorts are correct, counters are the sums they should be, credentials are freed
      by the last holder, timers do not drift by steps of up to an interval, initialisation
      runs each task once and in order, the format interpreter ends and prints formats of
      text, strings, characters and integers as asked for.
    - Routing messages: the addresses that are written are read back, but for those of
      length 0 and of IPv6, which the code changes; what is taken out lies inside of
      the message, and where the missing check of an IPv6 address goes wrong.  A
      request that is accepted is put into a normal form; every request is answered, and its
      blocks are freed once.
    - Packets: a received packet reaches the stack whole or is freed; a packet to send
      is described to the NIC segment by segment; the driver is a queue that accounts
      for every packet; the pages are exclusive; the ring frees an [mbuf] only when
      its slot is used again; a process gets the connections that hash to its queue;
      the filter is safe, but for one packet that it never finishes; every process gets
      a deep copy of an ARP packet, unless there is no memory or its ring is full; the driver to the kernel of the host is a queue; a packet
      sent by copy has the same data in as few segments as possible, or is given back when
      there is no memory; an isolated port gets the
      packets of its rules.
    - Processes: every queue of a port has one process; ports are started after DPDK granted
      their configuration and with offloads they have; a message whose lengths are in range is
      answered; the times that the main loop adds up
      are the time of the process, and one frame stops it.
    - Start and memory: the kernel starts with exactly its configuration, and its process
      is ready to run; regions of memory do not overlap and can be given back; an allocation
      that may wait does so until there is memory; the table of pages is a map.
    - Interfaces and events: an interface gets the addresses of its configuration, but for the
      masks of its virtual IPv6 addresses; each change
      is taken once and each event is delivered once, in order.
    - Configuration: no document can be loaded, how far each call gets, and what would be stored
      if one could.
    - Formats: the dumped packets of the last ten files are read back from them; modules are relocated as the ABI
      says.
    - Locks: where one thread would not wait for itself, locks that do nothing answer as
      locks.
    - Hashes: the stream gives the SipHash of the message; words stay words.

    Where the code does something else than it means to, the theorem states what it does
    and the doc comment says so.

    ** Fuel and bounds

    A C loop or recursion that is not structural takes fuel and gives [Diverge] without
    it.  For each there is a theorem with an amount that is enough: the length of the
    format for [kvprintf], of the chain for the packet loops, of the text for the
    parsers, twice the length of the frame for the filter, a bound computed from the
    state for a clock tick; the calls that run code of the user say [returns], for some
    amount of fuel and every larger one.  Tables have the sizes of the code: 512 slots in
    the transmit ring, 32 packets in a burst.  One port is modelled, because the ports
    share nothing.

    ** Not modelled

    - The stubs of the kernel, interrupts and files among them, that return a constant or panic.
    - Code that is compiled out in every build: the old routing requests, the first half of the timeout
      interface.  What a build can choose (the flow rules, the copy of a packet to send) is in
      Flow.v and SendCopy.v.
    - The clock in nanoseconds, which is computed in floating point.
    - The logger, which sets up a library of C++, and texts: what is printed is left out.

    ** Plan

    Every part with logic of its own has its file.  What could be added is detail: the structures that a
    port is set up with ([DpdkInit] keeps the calls and their order). *)

From Stdlib Require Export ZArith Lia.
From stdpp Require Export strings base numbers gmap fin_maps option list.
Open Scope Z_scope.

(** ** Machine integers

    An integer of the C code is a [Z]; a value of a [w]-bit type is kept in
    range by an explicit wrap-around at the operations that can overflow. *)

(** Truncation to an unsigned [w]-bit integer. *)
Definition uwrap (w z : Z) : Z := z mod 2 ^ w.

(** Truncation to a signed (two's complement) [w]-bit integer. *)
Definition swrap (w z : Z) : Z := (z + 2 ^ (w - 1)) mod 2 ^ w - 2 ^ (w - 1).

Abbreviation u8 := (uwrap 8).
Abbreviation u16 := (uwrap 16).
Abbreviation u32 := (uwrap 32).
Abbreviation u64 := (uwrap 64).
Abbreviation i8 := (swrap 8).
Abbreviation i16 := (swrap 16).
Abbreviation i32 := (swrap 32).
Abbreviation i64 := (swrap 64).

Definition INT_MAX : Z := 2147483647.
Definition INT_MIN : Z := -2147483648.
Definition UINT_MAX : Z := 4294967295.
Definition LONG_MAX : Z := 9223372036854775807.

(** [in_i32 z]: [z] is a value of the C type [int]; likewise the others. *)
Definition in_i32 (z : Z) : Prop := -2147483648 <= z < 2147483648.
Definition in_u32 (z : Z) : Prop := 0 <= z < 4294967296.
Definition in_i64 (z : Z) : Prop := -9223372036854775808 <= z < 9223372036854775808.
Definition in_u64 (z : Z) : Prop := 0 <= z < 18446744073709551616.

(** The C truth value of a condition. *)
Definition b2z (b : bool) : Z := if b then 1 else 0.

Section wrap_lemmas.
Implicit Types a b z : Z.

Lemma i32_range z : in_i32 (i32 z).
Proof.
  unfold in_i32, swrap. change (2 ^ (32 - 1)) with 2147483648.
  change (2 ^ 32) with 4294967296.
  pose proof (Z.mod_pos_bound (z + 2147483648) 4294967296). lia.
Qed.

Lemma i32_id z : in_i32 z -> i32 z = z.
Proof.
  unfold in_i32, swrap. change (2 ^ (32 - 1)) with 2147483648.
  change (2 ^ 32) with 4294967296. intros. rewrite Z.mod_small; lia.
Qed.

Lemma u32_range z : in_u32 (u32 z).
Proof. unfold in_u32, uwrap. apply Z.mod_pos_bound. lia. Qed.

Lemma u32_id z : in_u32 z -> u32 z = z.
Proof. unfold in_u32, uwrap. intros. apply Z.mod_small. lia. Qed.

Lemma i64_range z : in_i64 (i64 z).
Proof.
  unfold in_i64, swrap. change (2 ^ (64 - 1)) with 9223372036854775808.
  change (2 ^ 64) with 18446744073709551616.
  pose proof (Z.mod_pos_bound (z + 9223372036854775808) 18446744073709551616). lia.
Qed.

Lemma i64_id z : in_i64 z -> i64 z = z.
Proof.
  unfold in_i64, swrap. change (2 ^ (64 - 1)) with 9223372036854775808.
  change (2 ^ 64) with 18446744073709551616. intros. rewrite Z.mod_small; lia.
Qed.

Lemma u64_range z : in_u64 (u64 z).
Proof. unfold in_u64, uwrap. apply Z.mod_pos_bound. lia. Qed.

Lemma u64_id z : in_u64 z -> u64 z = z.
Proof. unfold in_u64, uwrap. intros. apply Z.mod_small. lia. Qed.

(** A wrapped value is congruent to the exact one. *)
Lemma i32_mod z : (i32 z) mod 4294967296 = z mod 4294967296.
Proof.
  unfold swrap. change (2 ^ (32 - 1)) with 2147483648.
  change (2 ^ 32) with 4294967296.
  rewrite Zminus_mod_idemp_l. f_equal. lia.
Qed.

Lemma i32_cong a b : a mod 4294967296 = b mod 4294967296 -> i32 a = i32 b.
Proof.
  unfold swrap. change (2 ^ (32 - 1)) with 2147483648.
  change (2 ^ 32) with 4294967296. intros H. f_equal.
  rewrite <- Zplus_mod_idemp_l, H, Zplus_mod_idemp_l. done.
Qed.

(** Two values of type [int] that are congruent modulo [2^32] are equal. *)
Lemma i32_eq_mod a b :
  in_i32 a -> in_i32 b -> a mod 4294967296 = b mod 4294967296 -> a = b.
Proof. intros Ha Hb H. rewrite <- (i32_id a), <- (i32_id b) by done. by apply i32_cong. Qed.

Lemma i32_add_l a b : i32 (i32 a + b) = i32 (a + b).
Proof. apply i32_cong. rewrite <- Zplus_mod_idemp_l, i32_mod, Zplus_mod_idemp_l. done. Qed.

Lemma i32_sub_l a b : i32 (i32 a - b) = i32 (a - b).
Proof. apply (i32_add_l a (- b)). Qed.

Lemma i32_sub_r a b : i32 (a - i32 b) = i32 (a - b).
Proof. apply i32_cong. rewrite <- Zminus_mod_idemp_r, i32_mod, Zminus_mod_idemp_r. done. Qed.

(** Distances on the circle of the values of [int]. *)
Lemma dist_zero a b : in_i32 a -> in_i32 b -> u32 (a - b) = 0 -> a = b.
Proof.
  intros Ha Hb Hd. apply i32_eq_mod; [done..|]. unfold uwrap in Hd.
  change (2 ^ 32) with 4294967296 in Hd.
  replace a with (a - b + b) by lia. by rewrite <- Zplus_mod_idemp_l, Hd.
Qed.

Lemma dist_same a : u32 (a - a) = 0.
Proof. by rewrite Z.sub_diag. Qed.

Lemma dist_succ a b : u32 (a - b) <> 0 -> u32 (a - i32 (b + 1)) = u32 (a - b) - 1.
Proof.
  unfold uwrap. change (2 ^ 32) with 4294967296. intros Hd.
  rewrite <- Zminus_mod_idemp_r, i32_mod, Zminus_mod_idemp_r.
  replace (a - (b + 1)) with (a - b - 1) by lia. rewrite <- Zminus_mod_idemp_l.
  pose proof (Z.mod_pos_bound (a - b) 4294967296). rewrite Z.mod_small; lia.
Qed.

Lemma dist_succ_l a b : u32 (a - b) < 4294967295 -> u32 (i32 (a + 1) - b) = u32 (a - b) + 1.
Proof.
  unfold uwrap. change (2 ^ 32) with 4294967296. intros Hd.
  rewrite <- Zminus_mod_idemp_l, i32_mod, Zminus_mod_idemp_l.
  replace (a + 1 - b) with (a - b + 1) by lia. rewrite <- Zplus_mod_idemp_l.
  pose proof (Z.mod_pos_bound (a - b) 4294967296). rewrite Z.mod_small; lia.
Qed.
End wrap_lemmas.

(** Hints: the ranges and the no-overflow cases of the wrap-around. *)
Create HintDb cint discriminated.
#[export] Hint Resolve i32_range u32_range i64_range u64_range : cint.
Create Rewrite HintDb cwrap.
#[export] Hint Rewrite i32_add_l i32_sub_l i32_sub_r : cwrap.

Lemma b2z_true b : b2z b = 1 <-> b = true.
Proof. destruct b; simpl; split; done. Qed.

Lemma b2z_range b : 0 <= b2z b <= 1.
Proof. destruct b; simpl; lia. Qed.

(** ** Automation shared by the components *)

(** Turn boolean tests on integers into arithmetic facts. *)
Ltac zbool :=
  repeat match goal with
  | H : (_ && _)%bool = true |- _ => apply andb_prop in H; destruct H
  | H : (_ || _)%bool = false |- _ => apply orb_false_elim in H; destruct H
  | H : (_ =? _) = true |- _ => apply Z.eqb_eq in H
  | H : (_ =? _) = false |- _ => apply Z.eqb_neq in H
  | H : (_ <? _) = true |- _ => apply Z.ltb_lt in H
  | H : (_ <? _) = false |- _ => apply Z.ltb_ge in H
  | H : (_ <=? _) = true |- _ => apply Z.leb_le in H
  | H : (_ <=? _) = false |- _ => apply Z.leb_gt in H
  | H : bool_decide _ = true |- _ => apply bool_decide_eq_true in H
  | H : bool_decide _ = false |- _ => apply bool_decide_eq_false in H
  end.

(** Case analysis on every test the goal branches on. *)
Ltac split_ifs :=
  repeat match goal with
  | |- context [if ?b then _ else _] => destruct b eqn:?
  end.

(** ** Outcomes

    A routine of the kernel returns a value, stops the program ([panic], or the
    dereference of a NULL pointer), or does not return. *)
Inductive outcome (A : Type) : Type :=
| Ok (a : A)
| Panic
| Diverge.
Arguments Ok {A} a.
Arguments Panic {A}.
Arguments Diverge {A}.

#[export] Instance outcome_ret : MRet outcome := fun A a => Ok a.
#[export] Instance outcome_bind : MBind outcome := fun A B f m =>
  match m with Ok a => f a | Panic => Panic | Diverge => Diverge end.

Lemma outcome_bind_Ok {A B} (f : A -> outcome B) (m : outcome A) b :
  (m ≫= f) = Ok b <-> exists a, m = Ok a /\ f a = Ok b.
Proof.
  destruct m; simpl; split; try done.
  - intros ?; eauto.
  - by intros (? & [= ->] & ?).
  - by intros (? & ? & ?).
  - by intros (? & ? & ?).
Qed.

(** A routine with fuel returns [a]: some amount of fuel is enough for it, and
    more fuel changes nothing. *)
Definition returns {A} (run : nat -> outcome A) (a : A) : Prop :=
  exists n, forall m, (n <= m)%nat -> run m = Ok a.

Lemma returns_inj {A} (run : nat -> outcome A) a b : returns run a -> returns run b -> a = b.
Proof.
  intros [n Hn] [m Hm]. specialize (Hn (Nat.max n m)). specialize (Hm (Nat.max n m)).
  rewrite Hn in Hm by lia. by injection Hm as ->; [|lia].
Qed.

(** ** [switch]

    A C [switch] whose cases all return (or store) a value: the cases in source
    order, then [default]. *)
Fixpoint switch {A} (e : Z) (cases : list (Z * A)) (default : A) : A :=
  match cases with
  | [] => default
  | (k, v) :: rest => if e =? k then v else switch e rest default
  end.

Lemma switch_in {A} (cases : list (Z * A)) e v d :
  NoDup cases.*1 -> (e, v) ∈ cases -> switch e cases d = v.
Proof.
  induction cases as [|[k w] rest IH]; simpl; intros Hnd Hin; [set_solver|].
  apply NoDup_cons in Hnd as [Hk Hnd].
  apply elem_of_cons in Hin as [[= -> ->]|Hin]; [by rewrite Z.eqb_refl|].
  destruct (Z.eqb_spec e k) as [->|]; [|by apply IH].
  destruct Hk. apply list_elem_of_fmap. by exists (k, v).
Qed.

Lemma switch_default {A} (cases : list (Z * A)) e d :
  e ∉ cases.*1 -> switch e cases d = d.
Proof.
  induction cases as [|[k w] rest IH]; simpl; intros Hin; [done|].
  destruct (Z.eqb_spec e k) as [->|]; [set_solver|]. apply IH. set_solver.
Qed.

Lemma switch_cases {A} (cases : list (Z * A)) e d :
  (exists v, (e, v) ∈ cases /\ switch e cases d = v) \/
  (e ∉ cases.*1 /\ switch e cases d = d).
Proof.
  induction cases as [|[k w] rest IH]; simpl; [right; set_solver|].
  destruct (Z.eqb_spec e k) as [->|Hne].
  - left. exists w. set_solver.
  - destruct IH as [(v & Hin & Hv)|[Hin Hv]]; [left; exists v; set_solver|right; set_solver].
Qed.

(** ** Lists *)

(** The element after the first occurrence of [x]. *)
Fixpoint next_of `{EqDecision A} (x : A) (l : list A) : option A :=
  match l with
  | [] => None
  | y :: l' => if decide (y = x) then head l' else next_of x l'
  end.

(** [l] without the occurrences of [x]. *)
Definition remove_of `{EqDecision A} (x : A) (l : list A) : list A :=
  filter (fun y => y <> x) l.

Section list_lemmas.
Context {A : Type} `{EqDecision A}.
Implicit Types (x y : A) (l : list A).

Lemma next_of_split x l1 l2 : x ∉ l1 -> next_of x (l1 ++ x :: l2) = head l2.
Proof.
  induction l1 as [|y l1 IH]; simpl; intros Hx.
  - by rewrite decide_True.
  - rewrite decide_False by set_solver. apply IH. set_solver.
Qed.

Lemma elem_of_remove_of x y l : y ∈ remove_of x l <-> y ∈ l /\ y <> x.
Proof. unfold remove_of. rewrite list_elem_of_filter. tauto. Qed.

Lemma NoDup_remove_of x l : NoDup l -> NoDup (remove_of x l).
Proof. intros Hl. unfold remove_of. by apply NoDup_filter. Qed.

Lemma remove_of_not_in x l : x ∉ l -> remove_of x l = l.
Proof.
  unfold remove_of. induction l as [|y l IH]; intros Hx; [done|].
  rewrite filter_cons, decide_True by set_solver. f_equal. apply IH. set_solver.
Qed.

Lemma remove_of_app x l1 l2 : remove_of x (l1 ++ l2) = remove_of x l1 ++ remove_of x l2.
Proof. apply filter_app. Qed.

Lemma remove_of_cons_eq x l : remove_of x (x :: l) = remove_of x l.
Proof. unfold remove_of. rewrite filter_cons, decide_False by auto. done. Qed.

Lemma remove_of_cons_ne x y l : y <> x -> remove_of x (y :: l) = y :: remove_of x l.
Proof. intros. unfold remove_of. rewrite filter_cons, decide_True by auto. done. Qed.
End list_lemmas.

Lemma filter_ext_in {A} (P Q : A -> Prop) `{forall x, Decision (P x)} `{forall x, Decision (Q x)}
    (l : list A) :
  (forall x, x ∈ l -> P x <-> Q x) -> filter P l = filter Q l.
Proof.
  induction l as [|x l IH]; intros HPQ; [done|].
  rewrite !filter_cons. rewrite IH by set_solver.
  destruct (HPQ x) as [H1 H2]; [set_solver|].
  by repeat case_decide; try tauto.
Qed.

Lemma length_filter_remove_of {A} `{EqDecision A} (P : A -> Prop) `{forall x, Decision (P x)}
    (x : A) (l : list A) :
  NoDup l -> x ∈ l ->
  length (filter P l) = (length (filter P (remove_of x l)) + if decide (P x) then 1 else 0)%nat.
Proof.
  intros Hnd Hx. apply list_elem_of_split in Hx as (l1 & l2 & ->).
  apply NoDup_app in Hnd as (_ & Hd & [Hx2 _]%NoDup_cons).
  rewrite remove_of_app, remove_of_cons_eq, !remove_of_not_in by set_solver.
  rewrite !filter_app, filter_cons, !length_app. case_decide; simpl; lia.
Qed.

Lemma length_filter_remove_of_le {A} `{EqDecision A} (P : A -> Prop) `{forall x, Decision (P x)}
    (x : A) (l : list A) :
  (length (filter P (remove_of x l)) <= length (filter P l))%nat.
Proof.
  induction l as [|y l IH]; [done|]. destruct (decide (y = x)) as [->|].
  - rewrite remove_of_cons_eq, filter_cons. case_decide; simpl; lia.
  - rewrite remove_of_cons_ne, !filter_cons by done. case_decide; simpl; lia.
Qed.
