(* ===== verification/Errno.v ===== *)
(** * Errno: error numbers of the stack and of the host

    [src/lazybsd_errno.h] numbers the errors of the FreeBSD stack
    ([LAZYBSD_*]); [lazybsd_os_errno] of [src/lazybsd_errno.c] stores in the
    thread-local [lazybsd_errno] the error number of the Linux host that has the
    same name.  The host's numbers are those of its C library's [<errno.h>]. *)
From S2P Require Import Prelude.

(** ** The stack's numbers ([lazybsd_errno.h]) *)

Definition LAZYBSD_EPERM : Z := 1.
Definition LAZYBSD_ENOENT : Z := 2.
Definition LAZYBSD_ESRCH : Z := 3.
Definition LAZYBSD_EINTR : Z := 4.
Definition LAZYBSD_EIO : Z := 5.
Definition LAZYBSD_ENXIO : Z := 6.
Definition LAZYBSD_E2BIG : Z := 7.
Definition LAZYBSD_ENOEXEC : Z := 8.
Definition LAZYBSD_EBADF : Z := 9.
Definition LAZYBSD_ECHILD : Z := 10.
Definition LAZYBSD_EDEADLK : Z := 11.
Definition LAZYBSD_ENOMEM : Z := 12.
Definition LAZYBSD_EACCES : Z := 13.
Definition LAZYBSD_EFAULT : Z := 14.
Definition LAZYBSD_ENOTBLK : Z := 15.
Definition LAZYBSD_EBUSY : Z := 16.
Definition LAZYBSD_EEXIST : Z := 17.
Definition LAZYBSD_EXDEV : Z := 18.
Definition LAZYBSD_ENODEV : Z := 19.
Definition LAZYBSD_ENOTDIR : Z := 20.
Definition LAZYBSD_EISDIR : Z := 21.
Definition LAZYBSD_EINVAL : Z := 22.
Definition LAZYBSD_ENFILE : Z := 23.
Definition LAZYBSD_EMFILE : Z := 24.
Definition LAZYBSD_ENOTTY : Z := 25.
Definition LAZYBSD_ETXTBSY : Z := 26.
Definition LAZYBSD_EFBIG : Z := 27.
Definition LAZYBSD_ENOSPC : Z := 28.
Definition LAZYBSD_ESPIPE : Z := 29.
Definition LAZYBSD_EROFS : Z := 30.
Definition LAZYBSD_EMLINK : Z := 31.
Definition LAZYBSD_EPIPE : Z := 32.
Definition LAZYBSD_EDOM : Z := 33.
Definition LAZYBSD_ERANGE : Z := 34.
Definition LAZYBSD_EAGAIN : Z := 35.
Definition LAZYBSD_EWOULDBLOCK : Z := LAZYBSD_EAGAIN.
Definition LAZYBSD_EINPROGRESS : Z := 36.
Definition LAZYBSD_EALREADY : Z := 37.
Definition LAZYBSD_ENOTSOCK : Z := 38.
Definition LAZYBSD_EDESTADDRREQ : Z := 39.
Definition LAZYBSD_EMSGSIZE : Z := 40.
Definition LAZYBSD_EPROTOTYPE : Z := 41.
Definition LAZYBSD_ENOPROTOOPT : Z := 42.
Definition LAZYBSD_EPROTONOSUPPORT : Z := 43.
Definition LAZYBSD_ESOCKTNOSUPPORT : Z := 44.
Definition LAZYBSD_EOPNOTSUPP : Z := 45.
Definition LAZYBSD_ENOTSUP : Z := LAZYBSD_EOPNOTSUPP.
Definition LAZYBSD_EPFNOSUPPORT : Z := 46.
Definition LAZYBSD_EAFNOSUPPORT : Z := 47.
Definition LAZYBSD_EADDRINUSE : Z := 48.
Definition LAZYBSD_EADDRNOTAVAIL : Z := 49.
Definition LAZYBSD_ENETDOWN : Z := 50.
Definition LAZYBSD_ENETUNREACH : Z := 51.
Definition LAZYBSD_ENETRESET : Z := 52.
Definition LAZYBSD_ECONNABORTED : Z := 53.
Definition LAZYBSD_ECONNRESET : Z := 54.
Definition LAZYBSD_ENOBUFS : Z := 55.
Definition LAZYBSD_EISCONN : Z := 56.
Definition LAZYBSD_ENOTCONN : Z := 57.
Definition LAZYBSD_ESHUTDOWN : Z := 58.
Definition LAZYBSD_ETOOMANYREFS : Z := 59.
Definition LAZYBSD_ETIMEDOUT : Z := 60.
Definition LAZYBSD_ECONNREFUSED : Z := 61.
Definition LAZYBSD_ELOOP : Z := 62.
Definition LAZYBSD_ENAMETOOLONG : Z := 63.
Definition LAZYBSD_EHOSTDOWN : Z := 64.
Definition LAZYBSD_EHOSTUNREACH : Z := 65.
Definition LAZYBSD_ENOTEMPTY : Z := 66.
Definition LAZYBSD_EPROCLIM : Z := 67.
Definition LAZYBSD_EUSERS : Z := 68.
Definition LAZYBSD_EDQUOT : Z := 69.
Definition LAZYBSD_ESTALE : Z := 70.
Definition LAZYBSD_EREMOTE : Z := 71.
Definition LAZYBSD_EBADRPC : Z := 72.
Definition LAZYBSD_ERPCMISMATCH : Z := 73.
Definition LAZYBSD_EPROGUNAVAIL : Z := 74.
Definition LAZYBSD_EPROGMISMATCH : Z := 75.
Definition LAZYBSD_EPROCUNAVAIL : Z := 76.
Definition LAZYBSD_ENOLCK : Z := 77.
Definition LAZYBSD_ENOSYS : Z := 78.
Definition LAZYBSD_EFTYPE : Z := 79.
Definition LAZYBSD_EAUTH : Z := 80.
Definition LAZYBSD_ENEEDAUTH : Z := 81.
Definition LAZYBSD_EIDRM : Z := 82.
Definition LAZYBSD_ENOMSG : Z := 83.
Definition LAZYBSD_EOVERFLOW : Z := 84.
Definition LAZYBSD_ECANCELED : Z := 85.
Definition LAZYBSD_EILSEQ : Z := 86.
Definition LAZYBSD_ENOATTR : Z := 87.
Definition LAZYBSD_EDOOFUS : Z := 88.
Definition LAZYBSD_EBADMSG : Z := 89.
Definition LAZYBSD_EMULTIHOP : Z := 90.
Definition LAZYBSD_ENOLINK : Z := 91.
Definition LAZYBSD_EPROTO : Z := 92.
Definition LAZYBSD_ENOTCAPABLE : Z := 93.
Definition LAZYBSD_ECAPMODE : Z := 94.
Definition LAZYBSD_ENOTRECOVERABLE : Z := 95.
Definition LAZYBSD_EOWNERDEAD : Z := 96.

(** ** The host's numbers ([<errno.h>] on Linux) *)
Module Host.
Definition EPERM : Z := 1.
Definition ENOENT : Z := 2.
Definition ESRCH : Z := 3.
Definition EINTR : Z := 4.
Definition EIO : Z := 5.
Definition ENXIO : Z := 6.
Definition E2BIG : Z := 7.
Definition ENOEXEC : Z := 8.
Definition EBADF : Z := 9.
Definition ECHILD : Z := 10.
Definition EDEADLK : Z := 35.
Definition ENOMEM : Z := 12.
Definition EACCES : Z := 13.
Definition EFAULT : Z := 14.
Definition ENOTBLK : Z := 15.
Definition EBUSY : Z := 16.
Definition EEXIST : Z := 17.
Definition EXDEV : Z := 18.
Definition ENODEV : Z := 19.
Definition ENOTDIR : Z := 20.
Definition EISDIR : Z := 21.
Definition EINVAL : Z := 22.
Definition ENFILE : Z := 23.
Definition EMFILE : Z := 24.
Definition ENOTTY : Z := 25.
Definition ETXTBSY : Z := 26.
Definition EFBIG : Z := 27.
Definition ENOSPC : Z := 28.
Definition ESPIPE : Z := 29.
Definition EROFS : Z := 30.
Definition EMLINK : Z := 31.
Definition EPIPE : Z := 32.
Definition EDOM : Z := 33.
Definition ERANGE : Z := 34.
Definition EWOULDBLOCK : Z := 11.
Definition EINPROGRESS : Z := 115.
Definition EALREADY : Z := 114.
Definition ENOTSOCK : Z := 88.
Definition EDESTADDRREQ : Z := 89.
Definition EMSGSIZE : Z := 90.
Definition EPROTOTYPE : Z := 91.
Definition ENOPROTOOPT : Z := 92.
Definition EPROTONOSUPPORT : Z := 93.
Definition ESOCKTNOSUPPORT : Z := 94.
Definition ENOTSUP : Z := 95.
Definition EPFNOSUPPORT : Z := 96.
Definition EAFNOSUPPORT : Z := 97.
Definition EADDRINUSE : Z := 98.
Definition EADDRNOTAVAIL : Z := 99.
Definition ENETDOWN : Z := 100.
Definition ENETUNREACH : Z := 101.
Definition ENETRESET : Z := 102.
Definition ECONNABORTED : Z := 103.
Definition ECONNRESET : Z := 104.
Definition ENOBUFS : Z := 105.
Definition EISCONN : Z := 106.
Definition ENOTCONN : Z := 107.
Definition ESHUTDOWN : Z := 108.
Definition ETOOMANYREFS : Z := 109.
Definition ETIMEDOUT : Z := 110.
Definition ECONNREFUSED : Z := 111.
Definition ELOOP : Z := 40.
Definition ENAMETOOLONG : Z := 36.
Definition EHOSTDOWN : Z := 112.
Definition EHOSTUNREACH : Z := 113.
Definition ENOTEMPTY : Z := 39.
Definition EUSERS : Z := 87.
Definition EDQUOT : Z := 122.
Definition ESTALE : Z := 116.
Definition EREMOTE : Z := 66.
Definition ENOLCK : Z := 37.
Definition ENOSYS : Z := 38.
Definition EIDRM : Z := 43.
Definition ENOMSG : Z := 42.
Definition EOVERFLOW : Z := 75.
Definition ECANCELED : Z := 125.
Definition EILSEQ : Z := 84.
Definition EBADMSG : Z := 74.
Definition EMULTIHOP : Z := 72.
Definition ENOLINK : Z := 67.
Definition EPROTO : Z := 71.
End Host.

(** ** The translation ([lazybsd_errno.c])

    The cases of the [switch], in the order of the source; [default] keeps the
    number. *)
Definition os_errno_cases : list (Z * Z) := [
  (LAZYBSD_EPERM, Host.EPERM);
  (LAZYBSD_ENOENT, Host.ENOENT);
  (LAZYBSD_ESRCH, Host.ESRCH);
  (LAZYBSD_EINTR, Host.EINTR);
  (LAZYBSD_EIO, Host.EIO);
  (LAZYBSD_ENXIO, Host.ENXIO);
  (LAZYBSD_E2BIG, Host.E2BIG);
  (LAZYBSD_ENOEXEC, Host.ENOEXEC);
  (LAZYBSD_EBADF, Host.EBADF);
  (LAZYBSD_ECHILD, Host.ECHILD);
  (LAZYBSD_EDEADLK, Host.EDEADLK);
  (LAZYBSD_ENOMEM, Host.ENOMEM);
  (LAZYBSD_EACCES, Host.EACCES);
  (LAZYBSD_EFAULT, Host.EFAULT);
  (LAZYBSD_ENOTBLK, Host.ENOTBLK);
  (LAZYBSD_EBUSY, Host.EBUSY);
  (LAZYBSD_EEXIST, Host.EEXIST);
  (LAZYBSD_EXDEV, Host.EXDEV);
  (LAZYBSD_ENODEV, Host.ENODEV);
  (LAZYBSD_ENOTDIR, Host.ENOTDIR);
  (LAZYBSD_EISDIR, Host.EISDIR);
  (LAZYBSD_EINVAL, Host.EINVAL);
  (LAZYBSD_ENFILE, Host.ENFILE);
  (LAZYBSD_EMFILE, Host.EMFILE);
  (LAZYBSD_ENOTTY, Host.ENOTTY);
  (LAZYBSD_ETXTBSY, Host.ETXTBSY);
  (LAZYBSD_EFBIG, Host.EFBIG);
  (LAZYBSD_ENOSPC, Host.ENOSPC);
  (LAZYBSD_ESPIPE, Host.ESPIPE);
  (LAZYBSD_EROFS, Host.EROFS);
  (LAZYBSD_EMLINK, Host.EMLINK);
  (LAZYBSD_EPIPE, Host.EPIPE);
  (LAZYBSD_EDOM, Host.EDOM);
  (LAZYBSD_ERANGE, Host.ERANGE);
  (LAZYBSD_EWOULDBLOCK, Host.EWOULDBLOCK);
  (LAZYBSD_EINPROGRESS, Host.EINPROGRESS);
  (LAZYBSD_EALREADY, Host.EALREADY);
  (LAZYBSD_ENOTSOCK, Host.ENOTSOCK);
  (LAZYBSD_EDESTADDRREQ, Host.EDESTADDRREQ);
  (LAZYBSD_EMSGSIZE, Host.EMSGSIZE);
  (LAZYBSD_EPROTOTYPE, Host.EPROTOTYPE);
  (LAZYBSD_ENOPROTOOPT, Host.ENOPROTOOPT);
  (LAZYBSD_EPROTONOSUPPORT, Host.EPROTONOSUPPORT);
  (LAZYBSD_ESOCKTNOSUPPORT, Host.ESOCKTNOSUPPORT);
  (LAZYBSD_ENOTSUP, Host.ENOTSUP);
  (LAZYBSD_EPFNOSUPPORT, Host.EPFNOSUPPORT);
  (LAZYBSD_EAFNOSUPPORT, Host.EAFNOSUPPORT);
  (LAZYBSD_EADDRINUSE, Host.EADDRINUSE);
  (LAZYBSD_EADDRNOTAVAIL, Host.EADDRNOTAVAIL);
  (LAZYBSD_ENETDOWN, Host.ENETDOWN);
  (LAZYBSD_ENETUNREACH, Host.ENETUNREACH);
  (LAZYBSD_ENETRESET, Host.ENETRESET);
  (LAZYBSD_ECONNABORTED, Host.ECONNABORTED);
  (LAZYBSD_ECONNRESET, Host.ECONNRESET);
  (LAZYBSD_ENOBUFS, Host.ENOBUFS);
  (LAZYBSD_EISCONN, Host.EISCONN);
  (LAZYBSD_ENOTCONN, Host.ENOTCONN);
  (LAZYBSD_ESHUTDOWN, Host.ESHUTDOWN);
  (LAZYBSD_ETOOMANYREFS, Host.ETOOMANYREFS);
  (LAZYBSD_ETIMEDOUT, Host.ETIMEDOUT);
  (LAZYBSD_ECONNREFUSED, Host.ECONNREFUSED);
  (LAZYBSD_ELOOP, Host.ELOOP);
  (LAZYBSD_ENAMETOOLONG, Host.ENAMETOOLONG);
  (LAZYBSD_EHOSTDOWN, Host.EHOSTDOWN);
  (LAZYBSD_EHOSTUNREACH, Host.EHOSTUNREACH);
  (LAZYBSD_ENOTEMPTY, Host.ENOTEMPTY);
  (LAZYBSD_EUSERS, Host.EUSERS);
  (LAZYBSD_EDQUOT, Host.EDQUOT);
  (LAZYBSD_ESTALE, Host.ESTALE);
  (LAZYBSD_EREMOTE, Host.EREMOTE);
  (LAZYBSD_ENOLCK, Host.ENOLCK);
  (LAZYBSD_ENOSYS, Host.ENOSYS);
  (LAZYBSD_EIDRM, Host.EIDRM);
  (LAZYBSD_ENOMSG, Host.ENOMSG);
  (LAZYBSD_EOVERFLOW, Host.EOVERFLOW);
  (LAZYBSD_ECANCELED, Host.ECANCELED);
  (LAZYBSD_EILSEQ, Host.EILSEQ);
  (LAZYBSD_EBADMSG, Host.EBADMSG);
  (LAZYBSD_EMULTIHOP, Host.EMULTIHOP);
  (LAZYBSD_ENOLINK, Host.ENOLINK);
  (LAZYBSD_EPROTO, Host.EPROTO)
].

(** [lazybsd_os_errno error]: the value stored in [lazybsd_errno]. *)
Definition lazybsd_os_errno (error : Z) : Z := switch error os_errno_cases error.


(** ** Facts *)

(** The stack's errors the [switch] names. *)
Definition os_errno_named (e : Z) : Prop := e ∈ os_errno_cases.*1.

Lemma os_errno_keys_NoDup : NoDup os_errno_cases.*1.
Proof. apply (bool_decide_unpack _). vm_compute. exact I. Qed.

Lemma os_errno_values_NoDup : NoDup os_errno_cases.*2.
Proof. apply (bool_decide_unpack _). vm_compute. exact I. Qed.

Lemma os_errno_lookup e h : (e, h) ∈ os_errno_cases -> lazybsd_os_errno e = h.
Proof. apply switch_in, os_errno_keys_NoDup. Qed.

Lemma os_errno_unnamed e : ~ os_errno_named e -> lazybsd_os_errno e = e.
Proof. intros H. by apply switch_default. Qed.

Lemma os_errno_named_inj e1 e2 :
  os_errno_named e1 -> os_errno_named e2 ->
  lazybsd_os_errno e1 = lazybsd_os_errno e2 -> e1 = e2.
Proof.
  intros H1 H2 Heq.
  apply list_elem_of_fmap in H1 as ([k1 h1] & -> & Hin1).
  apply list_elem_of_fmap in H2 as ([k2 h2] & -> & Hin2). simpl in *.
  rewrite (os_errno_lookup _ _ Hin1), (os_errno_lookup _ _ Hin2) in Heq. subst h2.
  apply list_elem_of_lookup in Hin1 as [i Hi], Hin2 as [j Hj].
  assert (i = j) as ->.
  { eapply NoDup_lookup; [apply os_errno_values_NoDup| |];
      rewrite list_lookup_fmap; [rewrite Hi|rewrite Hj]; done. }
  congruence.
Qed.

(** The codes of the stack, 1 to 96, that the [switch] does not name and whose
    number is the host's code of another error. *)
Definition os_errno_misread : list Z := [67; 72; 74; 75; 87; 88; 93; 94; 95; 96].

(** Translation to the host's errors loses nothing between the errors the
    [switch] names: distinct ones stay distinct.  An error it does not name keeps
    its number, and for exactly ten codes of the stack that number is the host's
    number of another, named error, so that the application misreads it. *)
Theorem os_errno_injective e1 e2 :
  os_errno_named e1 -> 1 <= e2 <= 96 -> e1 <> e2 ->
  lazybsd_os_errno e1 = lazybsd_os_errno e2 <->
  ~ os_errno_named e2 /\ e2 ∈ os_errno_misread /\ lazybsd_os_errno e1 = e2.
Proof.
  intros H1 He2 Hne. split.
  - intros Heq.
    destruct (decide (os_errno_named e2)) as [H2|H2];
      [by destruct Hne; apply os_errno_named_inj|].
    rewrite (os_errno_unnamed e2 H2) in Heq. split; [done|]. split; [|done].
    assert (Forall (fun e => bool_decide (e ∈ os_errno_cases.*1) ||
      negb (bool_decide (e ∈ os_errno_cases.*2)) || bool_decide (e ∈ os_errno_misread) = true)
      (seqZ 1 96)) as Hall.
    { apply (bool_decide_unpack _). vm_compute. exact I. }
    rewrite Forall_forall in Hall. specialize (Hall e2). rewrite elem_of_seqZ in Hall.
    apply list_elem_of_fmap in H1 as ([k h] & Hk & Hin). cbn [fst] in Hk. subst k.
    rewrite (os_errno_lookup _ _ Hin) in Heq. subst h.
    rewrite (bool_decide_eq_false_2 _ H2) in Hall.
    rewrite (bool_decide_eq_true_2 (e2 ∈ os_errno_cases.*2)) in Hall
      by (by apply (list_elem_of_fmap_2 snd _ _ Hin)).
    specialize (Hall ltac:(lia)). simpl in Hall. by zbool.
  - intros (H2 & _ & Heq). by rewrite Heq, os_errno_unnamed.
Qed.

Lemma os_errno_injective_witness :
  lazybsd_os_errno LAZYBSD_EOPNOTSUPP = lazybsd_os_errno 95.
Proof.
  apply (os_errno_injective LAZYBSD_EOPNOTSUPP 95).
  - unfold os_errno_named. apply (bool_decide_unpack _). vm_compute. exact I.
  - lia.
  - discriminate.
  - split; [|split].
    + unfold os_errno_named. apply (bool_decide_unpack _). vm_compute. exact I.
    + unfold os_errno_misread. apply (bool_decide_unpack _). vm_compute. exact I.
    + reflexivity.
Defined.
