(* ===== verification/Callout.v ===== *)
(** * Callout: the timer wheel of [bsd/lib/lazybsd_kern_timeout.c]

    The data of the callout wheel and the operations a client calls:
    [callout_init], [_callout_init_lock], [callout_reset_tick_on] and
    [_callout_stop_safe].  [Softclock.v] models the clock side.

    The stack runs on one thread per core and its mutexes are the no-ops of
    [bsd/include/sys/mutex.h] ([CC_LOCK], [CC_UNLOCK], [mtx_owned] is 1), so an
    operation runs without interleaving.  [struct callout_cpu cc_cpu] is a single
    global: [CC_CPU(cpu)] ignores [cpu].  The intrusive lists of [sys/queue.h] are
    sequences of callout pointers.  The bits of [c_iflags] and [c_flags] are
    fields of type [bool].  Signed arithmetic on [ticks] wraps at 32 bits. *)
From S2P Require Import Prelude.

(** ** Data *)

(** A [struct callout *]; a function pointer (of [c_func] or a drain). *)
Abbreviation ptr := positive.
Abbreviation fn := positive.

(** [struct lock_object *]: NULL, [&Giant.lock_object] or another lock. *)
Inductive lock_object : Type :=
| NULL_lock
| Giant
| Lock (l : positive).
#[export] Instance lock_object_eq_dec : EqDecision lock_object.
Proof. solve_decision. Defined.

(** The pointer tests of the code: [o == c], [lock != NULL], [drain == NULL]. *)
Definition is_ptr (o : option ptr) (c : ptr) : bool :=
  match o with Some x => Pos.eqb x c | None => false end.
Definition lock_nonnull (l : lock_object) : bool :=
  match l with NULL_lock => false | _ => true end.
Definition is_NULL {A} (o : option A) : bool :=
  match o with Some _ => false | None => true end.

(** The bits of [c_iflags]. *)
Record iflags : Type := {
  CALLOUT_LOCAL_ALLOC : bool;
  CALLOUT_PENDING : bool;
  CALLOUT_RETURNUNLOCKED : bool;
  CALLOUT_SHAREDLOCK : bool;
  CALLOUT_DFRMIGRATION : bool;
  CALLOUT_PROCESSED : bool;
  CALLOUT_DIRECT : bool
}.

(** [c_iflags = 0]. *)
Definition iflags0 : iflags :=
  {| CALLOUT_LOCAL_ALLOC := false; CALLOUT_PENDING := false;
     CALLOUT_RETURNUNLOCKED := false; CALLOUT_SHAREDLOCK := false;
     CALLOUT_DFRMIGRATION := false; CALLOUT_PROCESSED := false;
     CALLOUT_DIRECT := false |}.

(** [struct callout]; [c_active] is the bit [CALLOUT_ACTIVE] of [c_flags]. *)
Record callout : Type := {
  c_lock : lock_object;
  c_iflags : iflags;
  c_active : bool;
  c_func : option fn;
  c_arg : Z;
  c_time : Z;
  c_cpu : Z
}.

(** A callout whose memory is all zero ([bzero]). *)
Definition callout0 : callout :=
  {| c_lock := NULL_lock; c_iflags := iflags0; c_active := false; c_func := None;
     c_arg := 0; c_time := 0; c_cpu := 0 |}.

(** [struct cc_exec]. *)
Record cc_exec : Type := {
  cc_curr : option ptr;
  cc_drain : option fn;
  cc_cancel : bool;
  cc_waiting : bool
}.

(** A call of a callout function, as the client observes it: which callout, the
    function and argument, the time the callout was due and the value of [ticks]. *)
Record firing : Type := {
  f_callout : ptr; f_func : fn; f_arg : Z; f_due : Z; f_ticks : Z
}.

(** [struct callout_cpu], the globals of the file, the callouts in memory, and
    (not in the program) the calls made so far, latest first. *)
Record state : Type := {
  cc_exec0 : cc_exec;
  cc_exec1 : cc_exec;
  cc_next : option ptr;
  cc_callwheel : list (list ptr);
  cc_expireq : list ptr;
  cc_callfree : list ptr;
  cc_softticks : Z;
  cc_bucket : Z;
  cc_inited : bool;
  callwheelmask : Z;
  co : gmap ptr callout;
  ticks : Z;
  fired : list firing
}.

Definition set_exec0 (v : cc_exec) (st : state) : state :=
  {| cc_exec0 := v;
     cc_exec1 := cc_exec1 st;
     cc_next := cc_next st;
     cc_callwheel := cc_callwheel st;
     cc_expireq := cc_expireq st;
     cc_callfree := cc_callfree st;
     cc_softticks := cc_softticks st;
     cc_bucket := cc_bucket st;
     cc_inited := cc_inited st;
     callwheelmask := callwheelmask st;
     co := co st;
     ticks := ticks st;
     fired := fired st |}.
Definition set_exec1 (v : cc_exec) (st : state) : state :=
  {| cc_exec0 := cc_exec0 st;
     cc_exec1 := v;
     cc_next := cc_next st;
     cc_callwheel := cc_callwheel st;
     cc_expireq := cc_expireq st;
     cc_callfree := cc_callfree st;
     cc_softticks := cc_softticks st;
     cc_bucket := cc_bucket st;
     cc_inited := cc_inited st;
     callwheelmask := callwheelmask st;
     co := co st;
     ticks := ticks st;
     fired := fired st |}.
Definition set_next (v : option ptr) (st : state) : state :=
  {| cc_exec0 := cc_exec0 st;
     cc_exec1 := cc_exec1 st;
     cc_next := v;
     cc_callwheel := cc_callwheel st;
     cc_expireq := cc_expireq st;
     cc_callfree := cc_callfree st;
     cc_softticks := cc_softticks st;
     cc_bucket := cc_bucket st;
     cc_inited := cc_inited st;
     callwheelmask := callwheelmask st;
     co := co st;
     ticks := ticks st;
     fired := fired st |}.
Definition set_callwheel (v : list (list ptr)) (st : state) : state :=
  {| cc_exec0 := cc_exec0 st;
     cc_exec1 := cc_exec1 st;
     cc_next := cc_next st;
     cc_callwheel := v;
     cc_expireq := cc_expireq st;
     cc_callfree := cc_callfree st;
     cc_softticks := cc_softticks st;
     cc_bucket := cc_bucket st;
     cc_inited := cc_inited st;
     callwheelmask := callwheelmask st;
     co := co st;
     ticks := ticks st;
     fired := fired st |}.
Definition set_expireq (v : list ptr) (st : state) : state :=
  {| cc_exec0 := cc_exec0 st;
     cc_exec1 := cc_exec1 st;
     cc_next := cc_next st;
     cc_callwheel := cc_callwheel st;
     cc_expireq := v;
     cc_callfree := cc_callfree st;
     cc_softticks := cc_softticks st;
     cc_bucket := cc_bucket st;
     cc_inited := cc_inited st;
     callwheelmask := callwheelmask st;
     co := co st;
     ticks := ticks st;
     fired := fired st |}.
Definition set_callfree (v : list ptr) (st : state) : state :=
  {| cc_exec0 := cc_exec0 st;
     cc_exec1 := cc_exec1 st;
     cc_next := cc_next st;
     cc_callwheel := cc_callwheel st;
     cc_expireq := cc_expireq st;
     cc_callfree := v;
     cc_softticks := cc_softticks st;
     cc_bucket := cc_bucket st;
     cc_inited := cc_inited st;
     callwheelmask := callwheelmask st;
     co := co st;
     ticks := ticks st;
     fired := fired st |}.
Definition set_softticks (v : Z) (st : state) : state :=
  {| cc_exec0 := cc_exec0 st;
     cc_exec1 := cc_exec1 st;
     cc_next := cc_next st;
     cc_callwheel := cc_callwheel st;
     cc_expireq := cc_expireq st;
     cc_callfree := cc_callfree st;
     cc_softticks := v;
     cc_bucket := cc_bucket st;
     cc_inited := cc_inited st;
     callwheelmask := callwheelmask st;
     co := co st;
     ticks := ticks st;
     fired := fired st |}.
Definition set_bucket (v : Z) (st : state) : state :=
  {| cc_exec0 := cc_exec0 st;
     cc_exec1 := cc_exec1 st;
     cc_next := cc_next st;
     cc_callwheel := cc_callwheel st;
     cc_expireq := cc_expireq st;
     cc_callfree := cc_callfree st;
     cc_softticks := cc_softticks st;
     cc_bucket := v;
     cc_inited := cc_inited st;
     callwheelmask := callwheelmask st;
     co := co st;
     ticks := ticks st;
     fired := fired st |}.
Definition set_co (v : gmap ptr callout) (st : state) : state :=
  {| cc_exec0 := cc_exec0 st;
     cc_exec1 := cc_exec1 st;
     cc_next := cc_next st;
     cc_callwheel := cc_callwheel st;
     cc_expireq := cc_expireq st;
     cc_callfree := cc_callfree st;
     cc_softticks := cc_softticks st;
     cc_bucket := cc_bucket st;
     cc_inited := cc_inited st;
     callwheelmask := callwheelmask st;
     co := v;
     ticks := ticks st;
     fired := fired st |}.
Definition set_ticks (v : Z) (st : state) : state :=
  {| cc_exec0 := cc_exec0 st;
     cc_exec1 := cc_exec1 st;
     cc_next := cc_next st;
     cc_callwheel := cc_callwheel st;
     cc_expireq := cc_expireq st;
     cc_callfree := cc_callfree st;
     cc_softticks := cc_softticks st;
     cc_bucket := cc_bucket st;
     cc_inited := cc_inited st;
     callwheelmask := callwheelmask st;
     co := co st;
     ticks := v;
     fired := fired st |}.
Definition set_fired (v : list firing) (st : state) : state :=
  {| cc_exec0 := cc_exec0 st;
     cc_exec1 := cc_exec1 st;
     cc_next := cc_next st;
     cc_callwheel := cc_callwheel st;
     cc_expireq := cc_expireq st;
     cc_callfree := cc_callfree st;
     cc_softticks := cc_softticks st;
     cc_bucket := cc_bucket st;
     cc_inited := cc_inited st;
     callwheelmask := callwheelmask st;
     co := co st;
     ticks := ticks st;
     fired := v |}.

(** [cc_exec_entity[dir]]: entry 1 is the direct one. *)
Definition exec_entity (st : state) (direct : bool) : cc_exec :=
  if direct then cc_exec1 st else cc_exec0 st.
Definition set_exec (direct : bool) (e : cc_exec) (st : state) : state :=
  if direct then set_exec1 e st else set_exec0 e st.

(** The callout at a pointer. *)
Definition co_get (st : state) (c : ptr) : callout := default callout0 (co st !! c).
Definition co_put (c : ptr) (k : callout) (st : state) : state :=
  set_co (<[c := k]> (co st)) st.

(** Field updates of a callout. *)
Definition with_iflags (f : iflags) (k : callout) : callout :=
  {| c_lock := c_lock k; c_iflags := f; c_active := c_active k; c_func := c_func k;
     c_arg := c_arg k; c_time := c_time k; c_cpu := c_cpu k |}.
Definition with_active (b : bool) (k : callout) : callout :=
  {| c_lock := c_lock k; c_iflags := c_iflags k; c_active := b; c_func := c_func k;
     c_arg := c_arg k; c_time := c_time k; c_cpu := c_cpu k |}.
Definition with_func (f : option fn) (k : callout) : callout :=
  {| c_lock := c_lock k; c_iflags := c_iflags k; c_active := c_active k; c_func := f;
     c_arg := c_arg k; c_time := c_time k; c_cpu := c_cpu k |}.

(** Bit updates of [c_iflags]. *)
Definition with_PENDING (b : bool) (f : iflags) : iflags :=
  {| CALLOUT_LOCAL_ALLOC := CALLOUT_LOCAL_ALLOC f; CALLOUT_PENDING := b;
     CALLOUT_RETURNUNLOCKED := CALLOUT_RETURNUNLOCKED f;
     CALLOUT_SHAREDLOCK := CALLOUT_SHAREDLOCK f;
     CALLOUT_DFRMIGRATION := CALLOUT_DFRMIGRATION f;
     CALLOUT_PROCESSED := CALLOUT_PROCESSED f; CALLOUT_DIRECT := CALLOUT_DIRECT f |}.
Definition with_DFRMIGRATION (b : bool) (f : iflags) : iflags :=
  {| CALLOUT_LOCAL_ALLOC := CALLOUT_LOCAL_ALLOC f; CALLOUT_PENDING := CALLOUT_PENDING f;
     CALLOUT_RETURNUNLOCKED := CALLOUT_RETURNUNLOCKED f;
     CALLOUT_SHAREDLOCK := CALLOUT_SHAREDLOCK f; CALLOUT_DFRMIGRATION := b;
     CALLOUT_PROCESSED := CALLOUT_PROCESSED f; CALLOUT_DIRECT := CALLOUT_DIRECT f |}.

(** Shorthands for the bits the code tests most. *)
Definition pending (st : state) (c : ptr) : bool := CALLOUT_PENDING (c_iflags (co_get st c)).
Definition callout_migrating (k : callout) : bool := CALLOUT_DFRMIGRATION (c_iflags k).

(** ** The wheel's lists ([sys/queue.h]) *)

(** [&cc->cc_callwheel[b]]. *)
Definition bucket_list (st : state) (b : Z) : list ptr :=
  default [] (cc_callwheel st !! Z.to_nat b).

(** The list an element is linked in. *)
Definition list_holding (c : ptr) (wheel : list (list ptr)) : list ptr :=
  default [] (snd <$> list_find (fun l => c ∈ l) wheel).

(** [LIST_NEXT(c, c_links.le)], [LIST_REMOVE(c, c_links.le)]. *)
Definition LIST_NEXT (st : state) (c : ptr) : option ptr :=
  next_of c (list_holding c (cc_callwheel st)).
Definition LIST_REMOVE (c : ptr) (st : state) : state :=
  set_callwheel (remove_of c <$> cc_callwheel st) st.

(** [TAILQ_REMOVE(&cc->cc_expireq, c, c_links.tqe)]. *)
Definition TAILQ_REMOVE (c : ptr) (st : state) : state :=
  set_expireq (remove_of c (cc_expireq st)) st.

(** ** Operations *)

Definition cc_cce_cleanup (direct : bool) (st : state) : state :=
  set_exec direct
    {| cc_curr := None; cc_drain := cc_drain (exec_entity st direct);
       cc_cancel := false; cc_waiting := false |} st.

Definition cc_cce_migrating (st : state) (direct : bool) : bool := false.

Definition callout_get_bucket (mask to_ticks : Z) : Z := Z.land (u32 to_ticks) mask.

Definition callout_cc_add (c : ptr) (to_ticks : Z) (func : option fn) (arg : Z)
    (direct_exec : bool) (st : state) : state :=
  let k := co_get st c in
  let f := c_iflags k in
  let f' := {| CALLOUT_LOCAL_ALLOC := CALLOUT_LOCAL_ALLOC f; CALLOUT_PENDING := true;
               CALLOUT_RETURNUNLOCKED := CALLOUT_RETURNUNLOCKED f;
               CALLOUT_SHAREDLOCK := CALLOUT_SHAREDLOCK f;
               CALLOUT_DFRMIGRATION := CALLOUT_DFRMIGRATION f;
               CALLOUT_PROCESSED := false;
               CALLOUT_DIRECT := CALLOUT_DIRECT f || direct_exec |} in
  let time := i32 (ticks st + to_ticks) in
  let k' := {| c_lock := c_lock k; c_iflags := f'; c_active := true; c_func := func;
               c_arg := arg; c_time := time; c_cpu := c_cpu k |} in
  let st := co_put c k' st in
  let bucket := callout_get_bucket (callwheelmask st) time in
  let st := set_callwheel (<[Z.to_nat bucket := c :: bucket_list st bucket]> (cc_callwheel st)) st in
  if cc_bucket st =? bucket then set_next (Some c) st else st.

Definition callout_cc_del (c : ptr) (st : state) : state :=
  if negb (CALLOUT_LOCAL_ALLOC (c_iflags (co_get st c))) then st else
  let st := co_put c (with_func None (co_get st c)) st in
  set_callfree (c :: cc_callfree st) st.

(** Unlink a pending callout: the code the two operations below share. *)
Definition callout_unlink (c : ptr) (st : state) : state :=
  if negb (CALLOUT_PROCESSED (c_iflags (co_get st c))) then
    let st := if decide (cc_next st = Some c) then set_next (LIST_NEXT st c) st else st in
    LIST_REMOVE c st
  else TAILQ_REMOVE c st.

(** Clear [CALLOUT_PENDING] and [CALLOUT_ACTIVE]. *)
Definition clear_pending (c : ptr) (st : state) : state :=
  let k := co_get st c in
  co_put c (with_active false (with_iflags (with_PENDING false (c_iflags k)) k)) st.

Section Operations.
  (** [MAXCPU] of [machine/param.h]. *)
  Context (MAXCPU : Z).

Definition callout_reset_tick_on (c : ptr) (to_ticks : Z) (ftn : option fn) (arg cpu : Z)
    (C_DIRECT_EXEC : bool) (st : state) : outcome (Z * state) :=
  if negb (cpu =? -1) && ((MAXCPU <=? cpu) || negb (cc_inited st)) then Panic else
  let direct := C_DIRECT_EXEC in
  let e := exec_entity st direct in
  let is_curr := is_ptr (cc_curr e) c in
  (* being run: with a lock it can still be cancelled if it has not started *)
  let do_cancel := is_curr && lock_nonnull (c_lock (co_get st c))
                   && negb (cc_cancel e) in
  let st := if do_cancel then
              set_exec direct {| cc_curr := cc_curr e; cc_drain := cc_drain e;
                                 cc_cancel := true; cc_waiting := cc_waiting e |} st
            else st in
  let cancelled := b2z do_cancel in
  if is_curr && cc_waiting e then Ok (cancelled, st) else
  let '(cancelled, st) :=
    if pending st c then (1, clear_pending c (callout_unlink c st)) else (cancelled, st) in
  let to_ticks := if to_ticks <=? 0 then 1 else to_ticks in
  Ok (cancelled, callout_cc_add c to_ticks ftn arg C_DIRECT_EXEC st).

Definition _callout_stop_safe (c : ptr) (CS_DRAIN CS_EXECUTING : bool) (drain : option fn)
    (st : state) : outcome (Z * state) :=
  let use_lock := negb CS_DRAIN && lock_nonnull (c_lock (co_get st c)) in
  let direct := CALLOUT_DIRECT (c_iflags (co_get st c)) in
  (* again: *)
  let k := co_get st c in
  let not_on_a_list := callout_migrating k && CALLOUT_PENDING (c_iflags k) && c_active k in
  let st := if not_on_a_list then clear_pending c st else st in
  let e := exec_entity st direct in
  let is_curr := is_ptr (cc_curr e) c in
  let st := if is_curr then co_put c (with_active false (co_get st c)) st else st in
  let clear_migration st :=
    let k := co_get st c in
    co_put c (with_iflags (with_DFRMIGRATION false (c_iflags k)) k) st in
  let set_drain st :=
    match drain with
    | Some d => set_exec direct {| cc_curr := cc_curr e; cc_drain := Some d;
                                   cc_cancel := cc_cancel e; cc_waiting := cc_waiting e |} st
    | None => st
    end in
  let finish cancelled st :=
    if negb (pending st c) then
      Ok (if is_ptr (cc_curr (exec_entity st direct)) c then cancelled else -1, st)
    else
      let st := clear_pending c st in
      let st := if not_on_a_list then st else callout_unlink c st in
      Ok (cancelled, callout_cc_del c st) in
  if is_curr then
    if CS_DRAIN then
      (* while (cc_exec_curr(cc, direct) == c): the sleep queue calls are no-ops
         and nothing else runs, so the loop is never left *)
      Diverge
    else if use_lock && negb (cc_cancel e) && is_NULL drain then
      let st := set_exec direct {| cc_curr := cc_curr e; cc_drain := cc_drain e;
                                   cc_cancel := true; cc_waiting := cc_waiting e |} st in
      Ok (1, if callout_migrating (co_get st c) then clear_migration st else st)
    else if callout_migrating (co_get st c) then
      Ok (b2z CS_EXECUTING, set_drain (clear_migration st))
    else finish (b2z CS_EXECUTING) (set_drain st)
  else finish 1 st.

(** [timeout_cpu] is 0: the stack has one [struct callout_cpu]. *)
Definition callout_init (timeout_cpu : Z) (c : ptr) (mpsafe : bool) (st : state) : state :=
  let f := if mpsafe then
             {| CALLOUT_LOCAL_ALLOC := false; CALLOUT_PENDING := false;
                CALLOUT_RETURNUNLOCKED := true; CALLOUT_SHAREDLOCK := false;
                CALLOUT_DFRMIGRATION := false; CALLOUT_PROCESSED := false;
                CALLOUT_DIRECT := false |}
           else iflags0 in
  co_put c {| c_lock := if mpsafe then NULL_lock else Giant; c_iflags := f;
              c_active := false; c_func := None; c_arg := 0; c_time := 0;
              c_cpu := timeout_cpu |} st.

Definition _callout_init_lock (timeout_cpu : Z) (c : ptr) (lock : lock_object)
    (RETURNUNLOCKED SHAREDLOCK : bool) (st : state) : state :=
  let f := {| CALLOUT_LOCAL_ALLOC := false; CALLOUT_PENDING := false;
              CALLOUT_RETURNUNLOCKED := RETURNUNLOCKED; CALLOUT_SHAREDLOCK := SHAREDLOCK;
              CALLOUT_DFRMIGRATION := false; CALLOUT_PROCESSED := false;
              CALLOUT_DIRECT := false |} in
  co_put c {| c_lock := lock; c_iflags := f; c_active := false; c_func := None;
              c_arg := 0; c_time := 0; c_cpu := timeout_cpu |} st.

End Operations.

(** ** Invariant *)

(** The bucket a callout's time selects. *)
Definition bucket_of (st : state) (c : ptr) : Z :=
  callout_get_bucket (callwheelmask st) (c_time (co_get st c)).

(** The callout can be called: [softclock_call_cc] unlocks [c_lock] after the
    call unless [CALLOUT_RETURNUNLOCKED] is set. *)
Definition runnable (k : callout) : Prop :=
  c_lock k <> NULL_lock \/ CALLOUT_RETURNUNLOCKED (c_iflags k) = true.

(** What a pending callout looks like. *)
Record armed (k : callout) : Prop := {
  armed_active : c_active k = true;
  armed_local : CALLOUT_LOCAL_ALLOC (c_iflags k) = false;
  armed_func : is_Some (c_func k);
  armed_runnable : runnable k;
  armed_time : in_i32 (c_time k)
}.

(** The two execution entities: [softclock] runs every callout in the direct one,
    nobody waits, and a locked callout being run can no longer be cancelled. *)
Definition execs_ok (st : state) : Prop :=
  cc_curr (cc_exec0 st) = None /\ cc_waiting (cc_exec0 st) = false /\
  cc_waiting (cc_exec1 st) = false /\
  forall c, cc_curr (cc_exec1 st) = Some c -> c_lock (co_get st c) <> NULL_lock ->
    cc_cancel (cc_exec1 st) = true.

(** The well-formed states of the wheel. *)
Record wf (st : state) : Prop := {
  wf_mask : exists n, 0 <= n <= 31 /\ callwheelmask st = 2 ^ n - 1 /\
              Z.of_nat (length (cc_callwheel st)) = 2 ^ n;
  wf_bucket : forall i l, cc_callwheel st !! i = Some l ->
                NoDup l /\ forall c, c ∈ l <-> pending st c = true /\ Z.to_nat (bucket_of st c) = i;
  wf_armed : forall c, pending st c = true -> armed (co_get st c);
  wf_flags : forall c, CALLOUT_DFRMIGRATION (c_iflags (co_get st c)) = false /\
                       CALLOUT_PROCESSED (c_iflags (co_get st c)) = false;
  wf_next : forall c, cc_next st = Some c -> pending st c = true /\ bucket_of st c = cc_bucket st;
  wf_exec : execs_ok st;
  wf_ticks : in_i32 (ticks st)
}.

(** The ticks from [base] to now. *)
Definition lag (base : Z) (st : state) : Z := u32 (ticks st - base).

(** No pending callout is due before the tick [base]: each is due at most
    [INT_MAX] ticks from now.  A callout missed by the clock has a time just
    before [base], a distance near [2^32]. *)
Definition timely (base : Z) (st : state) : Prop :=
  forall c, pending st c = true -> u32 (c_time (co_get st c) - base) <= lag base st + INT_MAX.

(** The callouts of the bucket of [cur] that are due at [cur]. *)
Definition is_due (cur : Z) (st : state) (c : ptr) : bool := c_time (co_get st c) =? cur.
Definition scanned (cur : Z) (st : state) : list ptr :=
  bucket_list st (callout_get_bucket (callwheelmask st) cur).
Definition due_count (cur : Z) (st : state) : nat :=
  length (filter (fun c => is_due cur st c = true) (scanned cur st)).

(** While [softclock] scans the bucket of [cur]: the callouts due at [cur] are
    at or after [cc_next]. *)
Definition scan (cur : Z) (st : state) : Prop :=
  cc_bucket st = callout_get_bucket (callwheelmask st) cur /\
  exists pre suf, scanned cur st = pre ++ suf /\ head suf = cc_next st /\
    forall c, c ∈ pre -> is_due cur st c = false.

(** ** Lemmas on the state *)

Lemma is_ptr_true o c : is_ptr o c = true <-> o = Some c.
Proof. destruct o; simpl; [rewrite Pos.eqb_eq; naive_solver|done]. Qed.

Lemma lock_nonnull_true l : lock_nonnull l = true <-> l <> NULL_lock.
Proof. by destruct l. Qed.

Lemma co_get_put c c' k st :
  co_get (co_put c k st) c' = if decide (c = c') then k else co_get st c'.
Proof. unfold co_get, co_put; simpl. rewrite lookup_insert. by case_decide. Qed.

Lemma co_get_put_eq c k st : co_get (co_put c k st) c = k.
Proof. rewrite co_get_put. by rewrite decide_True. Qed.

Lemma co_get_put_ne c c' k st : c <> c' -> co_get (co_put c k st) c' = co_get st c'.
Proof. intros. rewrite co_get_put. by rewrite decide_False. Qed.

Lemma bucket_range n t : 0 <= n <= 31 -> 0 <= callout_get_bucket (2 ^ n - 1) t < 2 ^ n.
Proof.
  intros Hn. unfold callout_get_bucket. 
  replace (2 ^ n - 1) with (Z.ones n) by (rewrite Z.ones_equiv; lia).
  rewrite Z.land_ones by lia. apply Z.mod_pos_bound. lia.
Qed.

Lemma wf_bucket_lt st t : wf st ->
  (Z.to_nat (callout_get_bucket (callwheelmask st) t) < length (cc_callwheel st))%nat.
Proof.
  intros [(n & Hn & -> & Hlen) _ _ _ _ _ _].
  pose proof (bucket_range n t Hn). lia.
Qed.

(** The bucket of a time is a list of the wheel. *)
Lemma wf_lookup st t : wf st ->
  cc_callwheel st !! Z.to_nat (callout_get_bucket (callwheelmask st) t) =
  Some (bucket_list st (callout_get_bucket (callwheelmask st) t)).
Proof.
  intros Hwf. unfold bucket_list.
  destruct (lookup_lt_is_Some_2 _ _ (wf_bucket_lt st t Hwf)) as [l Hl]. by rewrite Hl.
Qed.

Lemma bucket_inj st t1 t2 : wf st ->
  Z.to_nat (callout_get_bucket (callwheelmask st) t1) =
  Z.to_nat (callout_get_bucket (callwheelmask st) t2) <->
  callout_get_bucket (callwheelmask st) t1 = callout_get_bucket (callwheelmask st) t2.
Proof.
  intros [(n & Hn & -> & Hlen) _ _ _ _ _ _].
  pose proof (bucket_range n t1 Hn). pose proof (bucket_range n t2 Hn). lia.
Qed.

(** Membership in a bucket. *)
Lemma wf_bucket_in st t c : wf st ->
  c ∈ bucket_list st (callout_get_bucket (callwheelmask st) t) <->
  pending st c = true /\ bucket_of st c = callout_get_bucket (callwheelmask st) t.
Proof.
  intros Hwf. rewrite (proj2 (wf_bucket st Hwf _ _ (wf_lookup st t Hwf))).
  unfold bucket_of. by rewrite bucket_inj.
Qed.

Lemma wf_bucket_NoDup st t : wf st ->
  NoDup (bucket_list st (callout_get_bucket (callwheelmask st) t)).
Proof. intros Hwf. apply (wf_bucket st Hwf _ _ (wf_lookup st t Hwf)). Qed.

(** An element of a bucket is linked in that bucket only. *)
Lemma LIST_NEXT_split st t c l1 l2 : wf st ->
  bucket_list st (callout_get_bucket (callwheelmask st) t) = l1 ++ c :: l2 ->
  LIST_NEXT st c = head l2.
Proof.
  intros Hwf Hl. pose proof (wf_lookup st t Hwf) as Hlk.
  pose proof (wf_bucket_NoDup st t Hwf) as Hnd. rewrite Hl in *.
  assert (list_holding c (cc_callwheel st) = l1 ++ c :: l2) as Heq.
  { unfold list_holding.
    destruct (list_find _ _) as [[i l]|] eqn:Hf; simpl.
    - apply list_find_Some in Hf as (Hi & Hin & _).
      apply (wf_bucket st Hwf _ _ Hi) in Hin as [Hp Hb].
      destruct (wf_bucket st Hwf _ _ Hlk) as [_ Hj].
      destruct (proj1 (Hj c)) as [_ Hb']; [set_solver|].
      rewrite Hb in Hb'. subst i. congruence.
    - apply list_find_None in Hf. rewrite Forall_forall in Hf.
      destruct (Hf (l1 ++ c :: l2)); [by eapply list_elem_of_lookup_2|set_solver]. }
  unfold LIST_NEXT. rewrite Heq. apply next_of_split.
  apply NoDup_app in Hnd as (_ & Hd & _). intros Hc. apply (Hd c Hc). set_solver.
Qed.

(** ** Transitions

    The parts of the state the clock does not change during an operation. *)
Record frame (st st' : state) : Prop := {
  fr_ticks : ticks st' = ticks st;
  fr_softticks : cc_softticks st' = cc_softticks st;
  fr_mask : callwheelmask st' = callwheelmask st;
  fr_bucket : cc_bucket st' = cc_bucket st;
  fr_inited : cc_inited st' = cc_inited st;
  fr_fired : fired st' = fired st
}.

(** [c] has been unlinked. *)
Record removed (c : ptr) (st st' : state) : Prop := {
  rm_frame : frame st st';
  rm_wheel : cc_callwheel st' = remove_of c <$> cc_callwheel st;
  rm_next : cc_next st' = if decide (cc_next st = Some c) then LIST_NEXT st c else cc_next st;
  rm_other : forall c', c' <> c -> co_get st' c' = co_get st c';
  rm_self : pending st' c = false;
  rm_flags : CALLOUT_DFRMIGRATION (c_iflags (co_get st' c)) = false /\
             CALLOUT_PROCESSED (c_iflags (co_get st' c)) = false;
  rm_execs : execs_ok st'
}.

(** Nothing the wheel depends on has changed. *)
Record same_core (st st' : state) : Prop := {
  sc_frame : frame st st';
  sc_wheel : cc_callwheel st' = cc_callwheel st;
  sc_next : cc_next st' = cc_next st;
  sc_pending : forall c, pending st' c = pending st c;
  sc_co : forall c, pending st c = true -> co_get st' c = co_get st c;
  sc_flags : forall c, CALLOUT_DFRMIGRATION (c_iflags (co_get st' c)) = false /\
                       CALLOUT_PROCESSED (c_iflags (co_get st' c)) = false;
  sc_execs : execs_ok st'
}.

(** What a client's operation preserves; [cur] is a tick at most [2^31] ago. *)
Record evolves (st st' : state) : Prop := {
  ev_wf : wf st';
  ev_frame : frame st st';
  ev_timely : forall base, lag base st < 2 ^ 31 -> timely base st -> timely base st';
  ev_scan : forall cur, in_i32 cur -> lag cur st < 2 ^ 31 -> scan cur st -> scan cur st';
  ev_due : forall cur, in_i32 cur -> lag cur st < 2 ^ 31 ->
             (due_count cur st' <= due_count cur st)%nat
}.

Lemma frame_refl st : frame st st.
Proof. by constructor. Qed.

Lemma frame_trans st1 st2 st3 : frame st1 st2 -> frame st2 st3 -> frame st1 st3.
Proof. intros [] []. constructor; congruence. Qed.

Lemma evolves_refl st : wf st -> evolves st st.
Proof. intros. constructor; auto using frame_refl. Qed.

Lemma frame_lag base st st' : frame st st' -> lag base st' = lag base st.
Proof. intros [Ht _ _ _ _ _]. unfold lag. by rewrite Ht. Qed.

Lemma evolves_trans st1 st2 st3 : evolves st1 st2 -> evolves st2 st3 -> evolves st1 st3.
Proof.
  intros [W1 F1 T1 S1 D1] [W2 F2 T2 S2 D2].
  constructor; [done|by eapply frame_trans| | |].
  - intros base Hl HT. apply T2; [by rewrite (frame_lag _ _ _ F1)|auto].
  - intros cur Hc Hl HS. apply S2; [done|by rewrite (frame_lag _ _ _ F1)|auto].
  - intros cur Hc Hl. etrans; [apply D2; [done|by rewrite (frame_lag _ _ _ F1)]|by apply D1].
Qed.

Section removed_lemmas.
Context (c : ptr) (st st' : state).
Context (Hwf : wf st) (R : removed c st st').

Lemma removed_pending c' :
  pending st' c' = true <-> c' <> c /\ pending st c' = true.
Proof.
  destruct (decide (c' = c)) as [->|Hne].
  - rewrite (rm_self _ _ _ R). naive_solver.
  - unfold pending. rewrite (rm_other _ _ _ R c' Hne). naive_solver.
Qed.

Lemma removed_bucket_of c' : c' <> c -> bucket_of st' c' = bucket_of st c'.
Proof.
  intros. unfold bucket_of.
  by rewrite (fr_mask _ _ (rm_frame _ _ _ R)), (rm_other _ _ _ R).
Qed.

Lemma removed_bucket_list b : bucket_list st' b = remove_of c (bucket_list st b).
Proof.
  unfold bucket_list. rewrite (rm_wheel _ _ _ R), list_lookup_fmap.
  by destruct (cc_callwheel st !! Z.to_nat b).
Qed.

Lemma removed_scanned cur : scanned cur st' = remove_of c (scanned cur st).
Proof.
  unfold scanned. by rewrite removed_bucket_list, (fr_mask _ _ (rm_frame _ _ _ R)).
Qed.

Lemma removed_next_ok c' : cc_next st' = Some c' ->
  pending st' c' = true /\ bucket_of st' c' = cc_bucket st'.
Proof.
  rewrite (rm_next _ _ _ R), (fr_bucket _ _ (rm_frame _ _ _ R)).
  destruct (decide (cc_next st = Some c)) as [Hc|Hc]; intros Hn.
  - destruct (wf_next st Hwf c Hc) as [Hp Hb].
    assert (c ∈ bucket_list st (bucket_of st c)) as Hin by (by apply wf_bucket_in).
    pose proof (wf_bucket_NoDup st (c_time (co_get st c)) Hwf) as Hnd.
    apply list_elem_of_split in Hin as (l1 & l2 & Hl).
    rewrite (LIST_NEXT_split st _ c l1 l2 Hwf Hl) in Hn.
    destruct l2 as [|x l2]; [done|]. injection Hn as ->.
    assert (c' ∈ bucket_list st (bucket_of st c)) as Hin' by (rewrite Hl; set_solver).
    apply wf_bucket_in in Hin' as [Hp' Hb']; [|done].
    fold (bucket_of st c) in Hnd. rewrite Hl in Hnd.
    assert (c' <> c). { apply NoDup_app in Hnd as (_ & _ & Hnd). apply NoDup_cons in Hnd. set_solver. }
    rewrite removed_pending, removed_bucket_of by done. fold (bucket_of st c) in Hb'. by rewrite Hb', Hb.
  - destruct (wf_next st Hwf c' Hn). assert (c' <> c) by congruence.
    by rewrite removed_pending, removed_bucket_of.
Qed.

Lemma removed_wf : wf st'.
Proof.
  pose proof (rm_frame _ _ _ R) as F. constructor.
  - destruct (wf_mask st Hwf) as (n & Hn & Hm & Hl). exists n.
    rewrite (fr_mask _ _ F), (rm_wheel _ _ _ R), length_fmap. auto.
  - intros i l. rewrite (rm_wheel _ _ _ R), list_lookup_fmap, fmap_Some.
    intros (l0 & Hl0 & ->). destruct (wf_bucket st Hwf _ _ Hl0) as [Hnd Hin].
    split; [by apply NoDup_remove_of|]. intros c'. rewrite elem_of_remove_of, Hin, removed_pending.
    split; intros (? & ?); destruct_and?; rewrite ?removed_bucket_of in * by done; naive_solver.
  - intros c' [Hne Hp]%removed_pending. rewrite (rm_other _ _ _ R) by done. by apply wf_armed.
  - intros c'. destruct (decide (c' = c)) as [->|]; [apply R|].
    rewrite (rm_other _ _ _ R) by done. by apply wf_flags.
  - apply removed_next_ok.
  - apply R.
  - rewrite (fr_ticks _ _ F). apply Hwf.
Qed.

Lemma removed_timely base : timely base st -> timely base st'.
Proof.
  intros HT c' [Hne Hp]%removed_pending.
  rewrite (frame_lag _ _ _ (rm_frame _ _ _ R)), (rm_other _ _ _ R) by done. by apply HT.
Qed.

Lemma removed_is_due cur c' : c' <> c -> is_due cur st' c' = is_due cur st c'.
Proof. intros. unfold is_due. by rewrite (rm_other _ _ _ R). Qed.

Lemma removed_scan cur : scan cur st -> scan cur st'.
Proof.
  intros (Hb & pre & suf & Hsc & Hn & Hpre).
  pose proof (wf_bucket_NoDup st cur Hwf) as Hnd. unfold scanned in Hsc. rewrite Hsc in Hnd.
  split; [by rewrite (fr_mask _ _ (rm_frame _ _ _ R)), (fr_bucket _ _ (rm_frame _ _ _ R))|].
  exists (remove_of c pre), (remove_of c suf).
  rewrite removed_scanned. unfold scanned. rewrite Hsc, remove_of_app.
  split; [done|]. split.
  - rewrite (rm_next _ _ _ R). destruct suf as [|x suf]; simpl in Hn.
    + rewrite <- Hn. by rewrite decide_False.
    + rewrite <- Hn. apply NoDup_app in Hnd as (_ & _ & [Hx Hnd]%NoDup_cons).
      destruct (decide (x = c)) as [->|Hne].
      * rewrite decide_True, remove_of_cons_eq, remove_of_not_in by done.
        symmetry. by eapply LIST_NEXT_split.
      * rewrite decide_False, remove_of_cons_ne by congruence. done.
  - intros c' [Hc' Hne]%elem_of_remove_of. rewrite removed_is_due by done. auto.
Qed.

Lemma removed_due cur :
  due_count cur st' =
  length (filter (fun c' => is_due cur st c' = true) (remove_of c (scanned cur st))).
Proof.
  unfold due_count. rewrite removed_scanned. f_equal.
  apply filter_ext_in. intros c' [_ Hne]%elem_of_remove_of. by rewrite removed_is_due.
Qed.
End removed_lemmas.

(** Unlinking a callout is an evolution, and it loses the callout's due time. *)
Lemma removed_evolves c st st' : wf st -> removed c st st' -> evolves st st'.
Proof.
  intros Hwf R. constructor.
  - by eapply removed_wf.
  - apply R.
  - intros base _. by apply (removed_timely c).
  - intros cur _ _. by apply (removed_scan c).
  - intros cur _ _. rewrite (removed_due c _ _ R). apply length_filter_remove_of_le.
Qed.

Lemma same_core_evolves st st' : wf st -> same_core st st' -> evolves st st'.
Proof.
  intros Hwf [F Hwheel Hnext Hp Hco Hfl Hex].
  assert (forall c, pending st c = true -> bucket_of st' c = bucket_of st c) as Hbo.
  { intros c Hc. unfold bucket_of. by rewrite (fr_mask _ _ F), Hco. }
  assert (forall cur, scanned cur st' = scanned cur st) as Hsc.
  { intros. unfold scanned, bucket_list. by rewrite (fr_mask _ _ F), Hwheel. }
  assert (forall cur c, c ∈ scanned cur st -> is_due cur st' c = is_due cur st c) as Hdue.
  { intros cur c [Hc _]%wf_bucket_in; [|done]. unfold is_due. by rewrite Hco. }
  constructor.
  - constructor.
    + rewrite (fr_mask _ _ F), Hwheel. apply Hwf.
    + rewrite Hwheel. intros i l Hl. destruct (wf_bucket st Hwf _ _ Hl) as [Hnd Hin].
      split; [done|]. intros c. rewrite Hin, Hp. split; intros [Hc ?]; rewrite ?Hbo in *; auto.
    + intros c. rewrite Hp. intros Hc. rewrite Hco by done. by apply wf_armed.
    + done.
    + intros c. rewrite Hnext, (fr_bucket _ _ F), Hp. intros Hc.
      destruct (wf_next st Hwf c Hc). by rewrite Hbo.
    + done.
    + rewrite (fr_ticks _ _ F). apply Hwf.
  - done.
  - intros base _ HT c. rewrite Hp. intros Hc.
    rewrite (frame_lag _ _ _ F), Hco by done. by apply HT.
  - intros cur _ _ (Hb & pre & suf & Hs & Hn & Hpre). split.
    { by rewrite (fr_mask _ _ F), (fr_bucket _ _ F). }
    exists pre, suf. rewrite Hsc, Hnext. split_and!; [done..|].
    intros c Hc. rewrite Hdue by (rewrite Hs; set_solver). auto.
  - intros cur _ _. unfold due_count. rewrite Hsc.
    by rewrite (filter_ext_in _ (fun c => is_due cur st c = true))
      by (intros c Hc; by rewrite Hdue).
Qed.

(** [c], not pending before, has been put on the wheel for [n] ticks from now. *)
Record added (c : ptr) (n : Z) (st st' : state) : Prop := {
  ad_frame : frame st st';
  ad_time : c_time (co_get st' c) = i32 (ticks st + n);
  ad_wheel : cc_callwheel st' =
    <[Z.to_nat (bucket_of st' c) := c :: bucket_list st (bucket_of st' c)]> (cc_callwheel st);
  ad_next : cc_next st' = if cc_bucket st =? bucket_of st' c then Some c else cc_next st;
  ad_other : forall c', c' <> c -> co_get st' c' = co_get st c';
  ad_pending : pending st' c = true;
  ad_armed : armed (co_get st' c);
  ad_flags : CALLOUT_DFRMIGRATION (c_iflags (co_get st' c)) = false /\
             CALLOUT_PROCESSED (c_iflags (co_get st' c)) = false;
  ad_execs : execs_ok st'
}.

(** A time [n] ticks from now is not a tick [cur] that is not in the future. *)
Lemma future_tick t cur n :
  in_i32 cur -> u32 (t - cur) < 2 ^ 31 -> 1 <= n <= INT_MAX -> i32 (t + n) <> cur.
Proof.
  intros Hcur Hlag Hn Heq.
  assert ((t + n) mod 4294967296 = cur mod 4294967296) as Hm by (by rewrite <- Heq, i32_mod).
  assert ((t - cur + n) mod 4294967296 = 0) as H0.
  { replace (t - cur + n) with (t + n - cur) by lia.
    rewrite Zminus_mod, Hm, Z.sub_diag. done. }
  rewrite <- Zplus_mod_idemp_l in H0. unfold uwrap, INT_MAX in *.
  change (2 ^ 32) with 4294967296 in Hlag. change (2 ^ 31) with 2147483648 in Hlag.
  pose proof (Z.mod_pos_bound (t - cur) 4294967296).
  rewrite Z.mod_small in H0; lia.
Qed.

(** The distance of a time [n] ticks from now. *)
Lemma future_dist t base n :
  u32 (t - base) < 2 ^ 31 -> 1 <= n <= INT_MAX ->
  u32 (i32 (t + n) - base) = u32 (t - base) + n.
Proof.
  intros Hlag Hn. unfold uwrap, INT_MAX in *.
  change (2 ^ 32) with 4294967296 in *. change (2 ^ 31) with 2147483648 in *.
  rewrite <- Zminus_mod_idemp_l, i32_mod, Zminus_mod_idemp_l.
  replace (t + n - base) with (t - base + n) by lia.
  rewrite <- Zplus_mod_idemp_l. pose proof (Z.mod_pos_bound (t - base) 4294967296).
  rewrite Z.mod_small; lia.
Qed.

Section added_lemmas.
Context (c : ptr) (n : Z) (st st' : state).
Context (Hwf : wf st) (Hc : pending st c = false) (Hn : 1 <= n <= INT_MAX).
Context (A : added c n st st').

Lemma added_pending c' : pending st' c' = true <-> c' = c \/ pending st c' = true.
Proof.
  destruct (decide (c' = c)) as [->|Hne].
  - rewrite (ad_pending _ _ _ _ A). naive_solver.
  - unfold pending. rewrite (ad_other _ _ _ _ A c' Hne). naive_solver.
Qed.

Lemma added_bucket_of c' : c' <> c -> bucket_of st' c' = bucket_of st c'.
Proof.
  intros. unfold bucket_of.
  by rewrite (fr_mask _ _ (ad_frame _ _ _ _ A)), (ad_other _ _ _ _ A).
Qed.

Lemma added_mask_bucket : bucket_of st' c =
  callout_get_bucket (callwheelmask st) (c_time (co_get st' c)).
Proof. unfold bucket_of. by rewrite (fr_mask _ _ (ad_frame _ _ _ _ A)). Qed.

(** The lists of the wheel after the insertion. *)
Lemma added_bucket_list t :
  let b := callout_get_bucket (callwheelmask st) t in
  bucket_list st' b = if decide (b = bucket_of st' c) then c :: bucket_list st b
                      else bucket_list st b.
Proof.
  cbn zeta. unfold bucket_list at 1. rewrite (ad_wheel _ _ _ _ A).
  rewrite added_mask_bucket. case_decide as Hb.
  - rewrite Hb. rewrite list_lookup_insert_eq by (by apply wf_bucket_lt). done.
  - rewrite list_lookup_insert_ne; [done|].
    intros Heq. apply Hb. symmetry. by apply bucket_inj in Heq.
Qed.

Lemma added_wf : wf st'.
Proof.
  pose proof (ad_frame _ _ _ _ A) as F. constructor.
  - destruct (wf_mask st Hwf) as (k & Hk & Hm & Hl). exists k.
    rewrite (fr_mask _ _ F), (ad_wheel _ _ _ _ A), length_insert. auto.
  - intros i l. rewrite (ad_wheel _ _ _ _ A), added_mask_bucket. intros Hl.
    rewrite list_lookup_insert in Hl. case_decide as Hi.
    + destruct Hi as [<- _]. injection Hl as <-. split.
      * apply NoDup_cons. split; [|by apply wf_bucket_NoDup].
        intros [Hp _]%wf_bucket_in; [|done]. congruence.
      * intros c'. rewrite elem_of_cons, wf_bucket_in, added_pending by done.
        destruct (decide (c' = c)) as [->|Hne].
        { rewrite added_mask_bucket. naive_solver. }
        rewrite added_bucket_of by done. unfold bucket_of.
        rewrite bucket_inj by done. naive_solver.
    + destruct (wf_bucket st Hwf _ _ Hl) as [Hnd Hin]. split; [done|].
      intros c'. rewrite Hin, added_pending.
      destruct (decide (c' = c)) as [->|Hne].
      * rewrite added_mask_bucket. split; [intros [Hp _]; congruence|]. intros [_ Hb].
        destruct Hi. split; [done|by apply wf_bucket_lt].
      * rewrite added_bucket_of by done. naive_solver.
  - intros c' [->|Hp]%added_pending; [apply A|].
    destruct (decide (c' = c)) as [->|]; [apply A|].
    rewrite (ad_other _ _ _ _ A) by done. by apply wf_armed.
  - intros c'. destruct (decide (c' = c)) as [->|]; [apply A|].
    rewrite (ad_other _ _ _ _ A) by done. by apply wf_flags.
  - intros c'. rewrite (ad_next _ _ _ _ A), (fr_bucket _ _ F), added_pending.
    destruct (Z.eqb_spec (cc_bucket st) (bucket_of st' c)) as [Hb|Hb].
    + intros [= <-]. auto.
    + intros Hx. destruct (wf_next st Hwf _ Hx). assert (c' <> c) by congruence.
      rewrite added_bucket_of by done. auto.
  - apply A.
  - rewrite (fr_ticks _ _ F). apply Hwf.
Qed.

Lemma added_timely base : lag base st < 2 ^ 31 -> timely base st -> timely base st'.
Proof.
  intros Hlag HT c' Hp. rewrite (frame_lag _ _ _ (ad_frame _ _ _ _ A)).
  destruct (decide (c' = c)) as [->|Hne].
  - rewrite (ad_time _ _ _ _ A), future_dist by done. unfold lag. lia.
  - rewrite (ad_other _ _ _ _ A) by done. apply HT.
    apply added_pending in Hp as [|]; done.
Qed.

Lemma added_is_due cur c' : in_i32 cur -> lag cur st < 2 ^ 31 -> pending st' c' = true ->
  is_due cur st' c' = (if decide (c' = c) then false else is_due cur st c').
Proof.
  intros Hcur Hlag Hp. unfold is_due. case_decide as Hcc.
  - subst c'. rewrite (ad_time _ _ _ _ A). apply Z.eqb_neq. by apply future_tick.
  - by rewrite (ad_other _ _ _ _ A).
Qed.

Lemma added_scanned cur : scanned cur st' =
  if decide (callout_get_bucket (callwheelmask st) cur = bucket_of st' c)
  then c :: scanned cur st else scanned cur st.
Proof.
  unfold scanned. rewrite (fr_mask _ _ (ad_frame _ _ _ _ A)). apply added_bucket_list.
Qed.

Lemma added_scan cur : in_i32 cur -> lag cur st < 2 ^ 31 -> scan cur st -> scan cur st'.
Proof.
  intros Hcur Hlag (Hb & pre & suf & Hs & Hx & Hpre).
  pose proof (ad_frame _ _ _ _ A) as F.
  split; [by rewrite (fr_mask _ _ F), (fr_bucket _ _ F)|].
  rewrite added_scanned, (ad_next _ _ _ _ A), <- Hb. case_decide as Hcb.
  - exists [], (c :: scanned cur st). rewrite Hcb, Z.eqb_refl. split_and!; [done..|set_solver].
  - exists pre, suf. rewrite (proj2 (Z.eqb_neq _ _)) by done. split_and!; [done..|].
    intros c' Hc'. assert (pending st c' = true) as Hp'.
    { assert (c' ∈ scanned cur st) as Hin by (rewrite Hs; set_solver).
      by apply wf_bucket_in in Hin as [? _]. }
    rewrite added_is_due; [|done..|rewrite added_pending; auto].
    case_decide; [done|auto].
Qed.

Lemma added_due cur : in_i32 cur -> lag cur st < 2 ^ 31 ->
  due_count cur st' = due_count cur st.
Proof.
  intros Hcur Hlag. unfold due_count. f_equal.
  assert (forall c', c' ∈ scanned cur st ->
    is_due cur st' c' = true <-> is_due cur st c' = true) as Hd.
  { intros c' [Hp _]%wf_bucket_in; [|done].
    rewrite added_is_due; [|done..|rewrite added_pending; auto].
    case_decide; [congruence|done]. }
  rewrite added_scanned. case_decide.
  - rewrite filter_cons, decide_False.
    + by apply filter_ext_in.
    + rewrite added_is_due; [|done..|rewrite added_pending; auto]. by rewrite decide_True.
  - by apply filter_ext_in.
Qed.

Lemma added_evolves : evolves st st'.
Proof.
  constructor.
  - apply added_wf.
  - apply A.
  - apply added_timely.
  - apply added_scan.
  - intros cur ? ?. by rewrite added_due.
Qed.
End added_lemmas.

(** ** The operations on well-formed states *)

Lemma execs_ok_lock st st' :
  cc_exec0 st' = cc_exec0 st -> cc_exec1 st' = cc_exec1 st ->
  (forall c, c_lock (co_get st' c) = c_lock (co_get st c)) ->
  execs_ok st -> execs_ok st'.
Proof.
  unfold execs_ok. intros -> -> Hl (? & ? & ? & H). split_and!; try done.
  intros c. rewrite Hl. apply H.
Qed.

(** [st1] is [st] up to the callout [c] and the execution entities. *)
Record only_touched (c : ptr) (st st1 : state) : Prop := {
  ot_frame : frame st st1;
  ot_wheel : cc_callwheel st1 = cc_callwheel st;
  ot_next : cc_next st1 = cc_next st;
  ot_other : forall c', c' <> c -> co_get st1 c' = co_get st c';
  ot_flags : CALLOUT_DFRMIGRATION (c_iflags (co_get st1 c)) = false /\
             CALLOUT_PROCESSED (c_iflags (co_get st1 c)) = false;
  ot_execs : execs_ok st1
}.

Lemma only_touched_refl st c : wf st -> only_touched c st st.
Proof. intros Hwf. constructor; [apply frame_refl|done..|apply Hwf|apply Hwf]. Qed.

(** Clearing the flags of a callout and unlinking it, in the order of
    [_callout_stop_safe]. *)
Lemma unlink_removed_from st st1 c : only_touched c st st1 ->
  removed c st (callout_unlink c (clear_pending c st1)).
Proof.
  intros [F Hw Hn Ho [Hf1 Hf2] Hex].
  set (st2 := clear_pending c st1).
  assert (Hc2 : co_get st2 c = with_active false (with_iflags
            (with_PENDING false (c_iflags (co_get st1 c))) (co_get st1 c)))
    by apply co_get_put_eq.
  unfold callout_unlink. rewrite Hc2. simpl. rewrite Hf2. simpl.
  set (st3 := if decide (cc_next st2 = Some c) then set_next (LIST_NEXT st2 c) st2 else st2).
  assert (Hco : forall c', co_get (LIST_REMOVE c st3) c' = co_get st2 c').
  { intros c'. subst st3. by destruct (decide _). }
  constructor.
  - apply (frame_trans _ _ _ F). subst st3. by destruct (decide _).
  - subst st3. rewrite <- Hw. by destruct (decide _).
  - subst st3. simpl. rewrite <- Hn. unfold LIST_NEXT. rewrite <- Hw. by destruct (decide _).
  - intros c' Hne. rewrite Hco. subst st2. unfold clear_pending.
    rewrite co_get_put_ne by done. by apply Ho.
  - unfold pending. by rewrite Hco, Hc2.
  - rewrite Hco, Hc2. done.
  - apply (execs_ok_lock st1); [subst st3; by destruct (decide _)..| |done].
    intros c'. rewrite Hco. subst st2. unfold clear_pending. rewrite co_get_put.
    by destruct (decide (c = c')) as [<-|].
Qed.

(** The order of [callout_reset_tick_on]. *)
Lemma clear_pending_unlink st c :
  callout_unlink c (clear_pending c st) = clear_pending c (callout_unlink c st).
Proof.
  unfold callout_unlink. unfold clear_pending at 1. rewrite co_get_put_eq. simpl.
  destruct (CALLOUT_PROCESSED _); simpl; [done|].
  by destruct (decide (cc_next st = Some c)).
Qed.

Lemma unlink_removed st c : wf st ->
  removed c st (clear_pending c (callout_unlink c st)).
Proof.
  intros. rewrite <- clear_pending_unlink. by apply unlink_removed_from, only_touched_refl.
Qed.

Lemma cc_add_added st c n f a d : wf st ->
  CALLOUT_LOCAL_ALLOC (c_iflags (co_get st c)) = false ->
  runnable (co_get st c) -> is_Some f ->
  added c n st (callout_cc_add c n f a d st).
Proof.
  intros Hwf Hla Hrun Hf.
  set (st' := callout_cc_add c n f a d st).
  assert (Hco : co_get st' c = {| c_lock := c_lock (co_get st c);
    c_iflags := {| CALLOUT_LOCAL_ALLOC := CALLOUT_LOCAL_ALLOC (c_iflags (co_get st c));
      CALLOUT_PENDING := true;
      CALLOUT_RETURNUNLOCKED := CALLOUT_RETURNUNLOCKED (c_iflags (co_get st c));
      CALLOUT_SHAREDLOCK := CALLOUT_SHAREDLOCK (c_iflags (co_get st c));
      CALLOUT_DFRMIGRATION := CALLOUT_DFRMIGRATION (c_iflags (co_get st c));
      CALLOUT_PROCESSED := false;
      CALLOUT_DIRECT := CALLOUT_DIRECT (c_iflags (co_get st c)) || d |};
    c_active := true; c_func := f; c_arg := a; c_time := i32 (ticks st + n);
    c_cpu := c_cpu (co_get st c) |}).
  { subst st'. unfold callout_cc_add. simpl.
    destruct (_ =? _); apply co_get_put_eq. }
  assert (Hmask : callwheelmask st' = callwheelmask st).
  { subst st'. unfold callout_cc_add. simpl. by destruct (_ =? _). }
  assert (Hother : forall c', c' <> c -> co_get st' c' = co_get st c').
  { intros c' Hne. subst st'. unfold callout_cc_add. simpl.
    by destruct (_ =? _); apply co_get_put_ne. }
  assert (Hb : bucket_of st' c = callout_get_bucket (callwheelmask st) (i32 (ticks st + n))).
  { unfold bucket_of. by rewrite Hco, Hmask. }
  constructor.
  - subst st'. unfold callout_cc_add. simpl. by destruct (_ =? _).
  - by rewrite Hco.
  - rewrite Hb. subst st'. unfold callout_cc_add. simpl. by destruct (_ =? _).
  - rewrite Hb. subst st'. unfold callout_cc_add. simpl. by destruct (_ =? _).
  - done.
  - unfold pending. by rewrite Hco.
  - rewrite Hco. constructor; simpl; auto. apply i32_range.
  - rewrite Hco. simpl. split; [apply Hwf|done].
  - apply (execs_ok_lock st); [| | |apply Hwf].
    + subst st'. unfold callout_cc_add. simpl. by destruct (_ =? _).
    + subst st'. unfold callout_cc_add. simpl. by destruct (_ =? _).
    + intros c'. destruct (decide (c' = c)) as [->|]; [by rewrite Hco|by rewrite Hother].
Qed.

(** The fields [callout_cc_add] stores. *)
Lemma cc_add_fields st c n f a d :
  c_func (co_get (callout_cc_add c n f a d st) c) = f /\
  c_arg (co_get (callout_cc_add c n f a d st) c) = a.
Proof.
  unfold callout_cc_add. simpl.
  destruct (_ =? _); unfold co_get, co_put; simpl; by rewrite lookup_insert_eq.
Qed.

(** ** The client's calls *)

(** A call of the callout interface. *)
Inductive api_call : Type :=
| ApiReset (c : ptr) (to_ticks : Z) (ftn : option fn) (arg cpu : Z) (C_DIRECT_EXEC : bool)
| ApiStop (c : ptr) (CS_DRAIN CS_EXECUTING : bool) (drain : option fn)
| ApiInit (c : ptr) (mpsafe : bool)
| ApiInitLock (c : ptr) (lock : lock_object) (RETURNUNLOCKED SHAREDLOCK : bool).

Section Client.
  Context (MAXCPU : Z).

Definition api_step (a : api_call) (st : state) : outcome state :=
  match a with
  | ApiReset c n f arg cpu d =>
      r ← callout_reset_tick_on MAXCPU c n f arg cpu d st; Ok (snd r)
  | ApiStop c dr ex drain => r ← _callout_stop_safe c dr ex drain st; Ok (snd r)
  | ApiInit c mpsafe => Ok (callout_init 0 c mpsafe st)
  | ApiInitLock c l ru sh => Ok (_callout_init_lock 0 c l ru sh st)
  end.

(** The interface's rules: a callout is armed with a function, on a valid cpu,
    after it was initialised; it is not initialised while it is pending or being
    run; a direct callout does not drain itself. *)
Definition api_ok (a : api_call) (st : state) : Prop :=
  match a with
  | ApiReset c n f _ cpu _ =>
      (cpu = -1 \/ cpu < MAXCPU /\ cc_inited st = true) /\ n <= INT_MAX /\ is_Some f /\
      CALLOUT_LOCAL_ALLOC (c_iflags (co_get st c)) = false /\ runnable (co_get st c)
  | ApiStop c dr _ _ =>
      dr = true -> CALLOUT_DIRECT (c_iflags (co_get st c)) = true ->
      cc_curr (cc_exec1 st) <> Some c
  | ApiInit c _ | ApiInitLock c _ _ _ =>
      pending st c = false /\ cc_curr (cc_exec1 st) <> Some c
  end.

Lemma api_ok_cpu st c n f a cpu d : api_ok (ApiReset c n f a cpu d) st ->
  negb (cpu =? -1) && ((MAXCPU <=? cpu) || negb (cc_inited st)) = false.
Proof.
  intros [[->|[Hlt ->]] _]; [done|].
  rewrite (proj2 (Z.leb_gt _ _)) by done. by rewrite andb_false_r.
Qed.

(** Arming a callout: the value returned tells whether it was pending. *)
Lemma reset_spec st c n f a cpu d :
  wf st -> api_ok (ApiReset c n f a cpu d) st ->
  exists st', callout_reset_tick_on MAXCPU c n f a cpu d st = Ok (b2z (pending st c), st') /\
    evolves st st' /\ pending st' c = true /\
    c_time (co_get st' c) = i32 (ticks st + Z.max 1 n) /\
    c_func (co_get st' c) = f /\ c_arg (co_get st' c) = a /\
    forall c', c' <> c -> co_get st' c' = co_get st c'.
Proof.
  intros Hwf Hok. pose proof (api_ok_cpu _ _ _ _ _ _ _ Hok) as Hcpu.
  destruct Hok as (_ & Hn & Hf & Hla & Hrun).
  unfold callout_reset_tick_on. rewrite Hcpu.
  destruct (wf_exec st Hwf) as (He0 & Hw0 & Hw1 & Hcan).
  set (do_cancel := _ && _ && _).
  assert (do_cancel = false) as ->.
  { subst do_cancel. apply not_true_iff_false. intros Hd.
    apply andb_prop in Hd as [Hd Hc2]. apply andb_prop in Hd as [Hd Hc1].
    apply is_ptr_true in Hd. apply lock_nonnull_true in Hc1. destruct d; simpl in *; [|congruence].
    rewrite (Hcan c) in Hc2 by done. done. }
  assert (cc_waiting (exec_entity st d) = false) as -> by (by destruct d).
  rewrite andb_false_r. simpl.
  replace (if n <=? 0 then 1 else n) with (Z.max 1 n)
    by (destruct (Z.leb_spec n 0); lia).
  assert (1 <= Z.max 1 n <= INT_MAX) as Hn' by (unfold INT_MAX in *; lia).
  destruct (pending st c) eqn:Hp; simpl.
  - pose proof (unlink_removed st c Hwf) as R.
    set (st1 := clear_pending c (callout_unlink c st)) in *.
    pose proof (removed_evolves c st st1 Hwf R) as E1.
    assert (co_get st1 c = with_active false (with_iflags (with_PENDING false
              (c_iflags (co_get st c))) (co_get st c))) as Hc1.
    { subst st1. unfold clear_pending. rewrite co_get_put_eq. unfold callout_unlink.
      destruct (wf_flags st Hwf c) as [_ ->]. simpl. by destruct (decide _). }
    assert (added c (Z.max 1 n) st1 (callout_cc_add c (Z.max 1 n) f a d st1)) as A.
    { apply cc_add_added; [by apply E1|rewrite Hc1; done| |done]. rewrite Hc1. exact Hrun. }
    eexists. split; [done|]. split_and!.
    + eapply evolves_trans; [exact E1|]. apply (added_evolves c (Z.max 1 n)); [by apply E1|apply R|done|exact A].
    + apply A.
    + rewrite (ad_time _ _ _ _ A). by rewrite (fr_ticks _ _ (rm_frame _ _ _ R)).
    + apply cc_add_fields.
    + apply cc_add_fields.
    + intros c' Hne. rewrite (ad_other _ _ _ _ A) by done. by apply R.
  - pose proof (cc_add_added st c (Z.max 1 n) f a d Hwf Hla Hrun Hf) as A.
    eexists. split; [done|]. split_and!.
    + by apply (added_evolves c (Z.max 1 n)).
    + apply A.
    + apply A.
    + apply cc_add_fields.
    + apply cc_add_fields.
    + apply A.
Qed.

(** The callout [_callout_stop_safe] sees as being run: a direct one only. *)
Definition seen_running (st : state) (c : ptr) : bool :=
  CALLOUT_DIRECT (c_iflags (co_get st c)) && is_ptr (cc_curr (cc_exec1 st)) c.

Lemma seen_running_curr st c : wf st ->
  is_ptr (cc_curr (exec_entity st (CALLOUT_DIRECT (c_iflags (co_get st c))))) c =
  seen_running st c.
Proof.
  intros Hwf. unfold seen_running. destruct (wf_exec st Hwf) as [He _].
  destruct (CALLOUT_DIRECT _); simpl; [done|]. by rewrite He.
Qed.

(** The last lines of [_callout_stop_safe]: take the callout off the wheel. *)
Lemma stop_unlink_evolves st st1 c : wf st -> only_touched c st st1 ->
  CALLOUT_LOCAL_ALLOC (c_iflags (co_get st1 c)) = false ->
  callout_cc_del c (callout_unlink c (clear_pending c st1)) =
    callout_unlink c (clear_pending c st1) /\
  evolves st (callout_unlink c (clear_pending c st1)).
Proof.
  intros Hwf Hot Hla. pose proof (unlink_removed_from st st1 c Hot) as R. split.
  - unfold callout_cc_del.
    assert (co_get (callout_unlink c (clear_pending c st1)) c = with_active false (with_iflags
            (with_PENDING false (c_iflags (co_get st1 c))) (co_get st1 c))) as ->.
    { unfold callout_unlink. unfold clear_pending at 1. rewrite co_get_put_eq. simpl.
      destruct (CALLOUT_PROCESSED _); simpl; [apply co_get_put_eq|].
      destruct (decide _); apply co_get_put_eq. }
    simpl. by rewrite Hla.
  - by eapply removed_evolves.
Qed.

Lemma only_touched_idle_evolves st st1 c : wf st -> only_touched c st st1 ->
  pending st c = false -> pending st1 c = false -> evolves st st1.
Proof.
  intros Hwf [F Hw Hn Ho Hf Hex] Hp Hp1. apply same_core_evolves; [done|].
  constructor; try done.
  - intros c'. destruct (decide (c' = c)) as [->|]; [congruence|].
    unfold pending. by rewrite Ho.
  - intros c' Hp'. apply Ho. congruence.
  - intros c'. destruct (decide (c' = c)) as [->|]; [done|]. rewrite Ho by done. apply Hwf.
Qed.
End Client.

Section Client2.
  Context (MAXCPU : Z).

(** Stopping a callout takes it off the wheel.  The value is -1 when it was
    neither pending nor seen running. *)
Lemma stop_spec st c dr ex drain :
  wf st -> api_ok MAXCPU (ApiStop c dr ex drain) st ->
  exists st', _callout_stop_safe c dr ex drain st =
      Ok (if seen_running st c then b2z ex else if pending st c then 1 else -1, st') /\
    evolves st st' /\ pending st' c = false /\
    forall c', c' <> c -> co_get st' c' = co_get st c'.
Proof.
  intros Hwf Hok. unfold _callout_stop_safe.
  destruct (wf_flags st Hwf c) as [Hm Hpr].
  assert (callout_migrating (co_get st c) = false) as Hmig by done.
  rewrite Hmig. cbn [andb].
  rewrite !seen_running_curr by done.
  set (direct := CALLOUT_DIRECT (c_iflags (co_get st c))).
  destruct (seen_running st c) eqn:Hrun.
  - (* seen running: the direct entity *)
    pose proof Hrun as Hrun'. unfold seen_running in Hrun'. fold direct in Hrun'.
    destruct direct eqn:Hdir; [|done]. simpl in Hrun'. apply is_ptr_true in Hrun'.
    subst direct.
    assert (dr = false) as -> by (destruct dr; [by destruct (Hok eq_refl Hdir)|done]).
    destruct (wf_exec st Hwf) as (He0 & Hw0 & Hw1 & Hcan). simpl.
    assert (lock_nonnull (c_lock (co_get st c)) && negb (cc_cancel (cc_exec1 st))
            = false) as ->.
    { apply not_true_iff_false. intros [Hl Hc]%andb_prop. apply lock_nonnull_true in Hl.
      by rewrite (Hcan c) in Hc. }
    cbn [andb]. unfold callout_migrating. rewrite co_get_put_eq. simpl. rewrite Hm.
    set (st1 := co_put c (with_active false (co_get st c)) st).
    set (st2 := match drain with Some d => _ | None => st1 end).
    assert (Hco : forall c', co_get st2 c' = co_get st1 c') by (intros; by subst st2; destruct drain).
    assert (Hc2 : co_get st2 c = with_active false (co_get st c))
      by (rewrite Hco; apply co_get_put_eq).
    assert (only_touched c st st2) as Hot.
    { constructor.
      - subst st2. by destruct drain.
      - subst st2. by destruct drain.
      - subst st2. by destruct drain.
      - intros c' Hne. rewrite Hco. by apply co_get_put_ne.
      - by rewrite Hc2.
      - assert (forall c', c_lock (co_get st2 c') = c_lock (co_get st c')) as Hl.
        { intros c'. rewrite Hco. subst st1. rewrite co_get_put. by destruct (decide _) as [<-|]. }
        unfold execs_ok. subst st2. destruct drain as [d|]; simpl; split_and!; try done;
          intros c'; rewrite Hl; apply Hcan. }
    assert (pending st2 c = pending st c) as Hp2 by (unfold pending; by rewrite Hc2).
    rewrite Hp2. destruct (pending st c) eqn:Hp; simpl.
    + destruct (stop_unlink_evolves st st2 c Hwf Hot) as [-> E].
      { rewrite Hc2. simpl. by apply armed_local, wf_armed. }
      eexists. split; [done|]. split_and!; [done| |].
      * apply (rm_self _ _ _ (unlink_removed_from st st2 c Hot)).
      * apply (rm_other _ _ _ (unlink_removed_from st st2 c Hot)).
    + eexists. rewrite (proj2 (is_ptr_true _ _)).
      2: { subst st2. by destruct drain. }
      split; [done|]. split_and!; [by eapply only_touched_idle_evolves|done|apply Hot].
  - destruct (pending st c) eqn:Hp; simpl.
    + destruct (stop_unlink_evolves st st c Hwf (only_touched_refl st c Hwf)) as [-> E].
      { by apply armed_local, wf_armed. }
      pose proof (unlink_removed_from st st c (only_touched_refl st c Hwf)) as R.
      eexists. split; [done|]. split_and!; [done|apply R|apply R].
    + exists st. subst direct. rewrite seen_running_curr, Hrun by done.
      split_and!; [done|by apply evolves_refl|done|done].
Qed.

(** Initialising a callout that is neither pending nor being run. *)
Lemma init_evolves st c k :
  wf st -> pending st c = false -> cc_curr (cc_exec1 st) <> Some c ->
  CALLOUT_PENDING (c_iflags k) = false -> CALLOUT_DFRMIGRATION (c_iflags k) = false ->
  CALLOUT_PROCESSED (c_iflags k) = false ->
  evolves st (co_put c k st).
Proof.
  intros Hwf Hp Hcurr Hk1 Hk2 Hk3. eapply (only_touched_idle_evolves _ _ c); [done| |done|].
  - constructor; [by constructor|done|done| | |].
    + intros c' Hne. by apply co_get_put_ne.
    + by rewrite co_get_put_eq.
    + destruct (wf_exec st Hwf) as (? & ? & ? & Hcan). split_and!; [done..|].
      intros c' Hc'. simpl in Hc'. rewrite co_get_put_ne by congruence. by apply Hcan.
  - unfold pending. by rewrite co_get_put_eq.
Qed.

(** Every call that follows the interface's rules returns, and evolves the state. *)
Lemma api_evolves a st : wf st -> api_ok MAXCPU a st ->
  exists st', api_step MAXCPU a st = Ok st' /\ evolves st st'.
Proof.
  intros Hwf Hok. destruct a as [c n f arg cpu d|c dr ex drain|c mpsafe|c l ru sh].
  - destruct (reset_spec MAXCPU st c n f arg cpu d Hwf Hok) as (st' & Heq & E & _).
    exists st'. simpl. by rewrite Heq.
  - destruct (stop_spec st c dr ex drain Hwf Hok) as (st' & Heq & E & _).
    exists st'. simpl. by rewrite Heq.
  - destruct Hok. eexists. split; [done|]. by apply init_evolves; destruct mpsafe.
  - destruct Hok. eexists. split; [done|]. by apply init_evolves.
Qed.

(** A sequence of calls, as a client or a callout function makes them. *)
Fixpoint run_calls (l : list api_call) (st : state) : outcome state :=
  match l with
  | [] => Ok st
  | a :: l' => st' ← api_step MAXCPU a st; run_calls l' st'
  end.

(** Each call of the sequence follows the interface's rules. *)
Fixpoint calls_ok (l : list api_call) (st : state) : Prop :=
  match l with
  | [] => True
  | a :: l' => api_ok MAXCPU a st /\ forall st', api_step MAXCPU a st = Ok st' -> calls_ok l' st'
  end.

Lemma run_calls_evolves l st : wf st -> calls_ok l st ->
  exists st', run_calls l st = Ok st' /\ evolves st st'.
Proof.
  revert st. induction l as [|a l IH]; intros st Hwf Hok.
  - exists st. split; [done|by apply evolves_refl].
  - destruct Hok as [Ha Hl]. destruct (api_evolves a st Hwf Ha) as (st1 & Heq & E1).
    destruct (IH st1) as (st2 & Heq2 & E2); [apply E1|by apply Hl|].
    exists st2. simpl. rewrite Heq. split; [done|by eapply evolves_trans].
Qed.
End Client2.

(** ** The callouts a sequence of calls leaves alone *)

Definition call_target (a : api_call) : ptr :=
  match a with
  | ApiReset c _ _ _ _ _ | ApiStop c _ _ _ | ApiInit c _ | ApiInitLock c _ _ _ => c
  end.

Lemma api_step_other MAXCPU a st st' c : wf st -> api_ok MAXCPU a st ->
  api_step MAXCPU a st = Ok st' -> call_target a <> c -> co_get st' c = co_get st c.
Proof.
  intros Hwf Hok Hst Hne. destruct a as [c1 n f arg cpu d|c1 dr ex drain|c1 mpsafe|c1 l ru sh];
    simpl in *.
  - destruct (reset_spec MAXCPU st c1 n f arg cpu d Hwf Hok) as (s & Heq & _ & _ & _ & _ & _ & Ho).
    rewrite Heq in Hst. injection Hst as <-. by apply Ho.
  - destruct (stop_spec MAXCPU st c1 dr ex drain Hwf Hok) as (s & Heq & _ & _ & Ho).
    rewrite Heq in Hst. injection Hst as <-. by apply Ho.
  - injection Hst as <-. by apply co_get_put_ne.
  - injection Hst as <-. by apply co_get_put_ne.
Qed.

Lemma run_calls_other MAXCPU l st st' c : wf st -> calls_ok MAXCPU l st ->
  run_calls MAXCPU l st = Ok st' -> Forall (fun a => call_target a <> c) l ->
  co_get st' c = co_get st c.
Proof.
  revert st. induction l as [|a l IH]; intros st Hwf Hok Hrun Hl.
  - by injection Hrun as <-.
  - destruct Hok as [Ha Hok]. apply Forall_cons in Hl as [Hne Hl].
    destruct (api_evolves MAXCPU a st Hwf Ha) as (st1 & Heq & E). simpl in Hrun.
    rewrite Heq in Hrun. simpl in Hrun.
    rewrite (IH st1) by (auto; apply E). by eapply api_step_other.
Qed.

(** The calls keep the callout being run. *)
Lemma api_step_curr MAXCPU a st st' : api_step MAXCPU a st = Ok st' ->
  cc_curr (cc_exec1 st') = cc_curr (cc_exec1 st).
Proof.
  destruct a as [c n f arg cpu d|c dr ex drain|c mpsafe|c l ru sh]; simpl;
    [| |by intros [= <-]|by intros [= <-]].
  - unfold callout_reset_tick_on, callout_cc_add, clear_pending, callout_unlink.
    intros H. destruct d; repeat case_match; simplify_eq/=; repeat case_match; done.
  - unfold _callout_stop_safe, clear_pending, callout_unlink, callout_cc_del.
    intros H. destruct (CALLOUT_DIRECT _); repeat case_match; simplify_eq/=; done.
Qed.

Lemma run_calls_curr MAXCPU l st st' : run_calls MAXCPU l st = Ok st' ->
  cc_curr (cc_exec1 st') = cc_curr (cc_exec1 st).
Proof.
  revert st. induction l as [|a l IH]; intros st Hrun; simpl in Hrun; [by injection Hrun as <-|].
  apply outcome_bind_Ok in Hrun as (st1 & Ha & Hl). rewrite (IH st1 Hl).
  by apply (api_step_curr MAXCPU a).
Qed.

