(* ===== verification/Softclock.v ===== *)
(** * Softclock: the clock side of [bsd/lib/lazybsd_kern_timeout.c]

    [softclock_call_cc], [softclock], [callout_tick] and [lazybsd_hardclock] on
    the state of [Callout.v].  A callout function is code of another component:
    the parameter [handler] gives, for a function, its argument and the state it
    is called in, the calls of the callout interface it makes. *)
From S2P Require Import Prelude Callout.

Section Clock.
  Context (MAXCPU : Z).
  Context (handler : fn -> Z -> state -> list api_call).

(** [c_func(c_arg)], [drain(c_arg)]. *)
Definition call_fn (f : fn) (arg : Z) (st : state) : outcome state :=
  run_calls MAXCPU (handler f arg st) st.

Definition with_exec (direct : bool) (g : cc_exec -> cc_exec) (st : state) : state :=
  set_exec direct (g (exec_entity st direct)) st.

(** [softclock_call_cc]: the part up to the label [skip].  [lc_lock] and
    [lc_unlock] of the mutex and rwlock classes are empty functions
    ([bsd/lib/lazybsd_lock.c]); without a lock [class] is NULL. *)
Definition softclock_run (k : callout) (c : ptr) (direct : bool) (st : state) : outcome state :=
  let has_lock := lock_nonnull (c_lock k) in
  if has_lock && cc_cancel (exec_entity st direct) then Ok st else
  let st := if has_lock then
      with_exec direct (fun e => {| cc_curr := cc_curr e; cc_drain := cc_drain e;
                                    cc_cancel := true; cc_waiting := cc_waiting e |}) st
    else st in
  match c_func k with
  | None => Panic
  | Some f =>
      let st := set_fired ({| f_callout := c; f_func := f; f_arg := c_arg k;
                              f_due := c_time k; f_ticks := ticks st |} :: fired st) st in
      st ← call_fn f (c_arg k) st;
      if negb (CALLOUT_RETURNUNLOCKED (c_iflags k)) && negb has_lock then Panic else Ok st
  end.

(** [softclock_call_cc]: from the label [skip]. *)
Definition softclock_skip (k : callout) (c : ptr) (direct : bool) (st : state) : outcome state :=
  let st := with_exec direct (fun e => {| cc_curr := None; cc_drain := cc_drain e;
              cc_cancel := cc_cancel e; cc_waiting := cc_waiting e |}) st in
  st ← match cc_drain (exec_entity st direct) with
       | Some drain =>
           call_fn drain (c_arg k)
             (with_exec direct (fun e => {| cc_curr := cc_curr e; cc_drain := None;
                cc_cancel := cc_cancel e; cc_waiting := cc_waiting e |}) st)
       | None => Ok st
       end;
  st ← (if cc_waiting (exec_entity st direct) then
          let st := if cc_cce_migrating st direct then
              let st := cc_cce_cleanup direct st in
              co_put c (with_iflags (with_DFRMIGRATION false (c_iflags (co_get st c))) (co_get st c)) st
            else st in
          Ok (with_exec direct (fun e => {| cc_curr := cc_curr e; cc_drain := cc_drain e;
                cc_cancel := cc_cancel e; cc_waiting := false |}) st)
        else if cc_cce_migrating st direct then Panic
        else Ok st);
  Ok (if CALLOUT_LOCAL_ALLOC (c_iflags k) then callout_cc_del c st else st).

Definition softclock_call_cc (c : ptr) (direct : bool) (st : state) : outcome state :=
  let k := co_get st c in
  let f := if CALLOUT_LOCAL_ALLOC (c_iflags k) then
      {| CALLOUT_LOCAL_ALLOC := true; CALLOUT_PENDING := false;
         CALLOUT_RETURNUNLOCKED := false; CALLOUT_SHAREDLOCK := false;
         CALLOUT_DFRMIGRATION := false; CALLOUT_PROCESSED := false;
         CALLOUT_DIRECT := false |}
    else with_PENDING false (c_iflags k) in
  let st := co_put c (with_iflags f k) st in
  let st := with_exec direct (fun e => {| cc_curr := Some c; cc_drain := None;
              cc_cancel := false; cc_waiting := cc_waiting e |}) st in
  st ← softclock_run k c direct st;
  softclock_skip k c direct st.

(** The inner loop of [softclock]: the callouts of the bucket of [curticks],
    from [c] on. *)
Fixpoint softclock_bucket (fuel : nat) (curticks : Z) (c : option ptr) (st : state)
    : outcome state :=
  match c with
  | None => Ok st
  | Some c =>
      match fuel with
      | O => Diverge
      | S fuel =>
          if negb (c_time (co_get st c) =? curticks) then
            softclock_bucket fuel curticks (LIST_NEXT st c) st
          else
            let st := set_next (LIST_NEXT st c) st in
            let st := set_bucket (callout_get_bucket (callwheelmask st) curticks) st in
            let st := LIST_REMOVE c st in
            st ← softclock_call_cc c true st;
            softclock_bucket fuel curticks (cc_next st) (set_next None st)
      end
  end.

Fixpoint softclock (fuel : nat) (st : state) : outcome state :=
  if cc_softticks st =? ticks st then Ok st else
  match fuel with
  | O => Diverge
  | S fuel =>
      let curticks := cc_softticks st in
      let st := set_softticks (i32 (curticks + 1)) st in
      let sc := bucket_list st (callout_get_bucket (callwheelmask st) curticks) in
      st ← softclock_bucket fuel curticks (head sc) st;
      softclock fuel st
  end.

(** The loop of [callout_tick]: skip the empty buckets. *)
Fixpoint callout_tick_scan (fuel : nat) (st : state) : outcome (bool * state) :=
  if negb (i32 (cc_softticks st - ticks st) <? 0) then Ok (false, st) else
  match bucket_list st (callout_get_bucket (callwheelmask st) (cc_softticks st)) with
  | _ :: _ => Ok (true, st)
  | [] =>
      match fuel with
      | O => Diverge
      | S fuel => callout_tick_scan fuel (set_softticks (i32 (cc_softticks st + 1)) st)
      end
  end.

Definition callout_tick (fuel : nat) (st : state) : outcome state :=
  r ← callout_tick_scan fuel st;
  let '(need_softclock, st) := r in
  if (need_softclock : bool) then softclock fuel st else Ok st.

(** [tc_ticktock] and [cpu_tick_calibration] are the timecounter's. *)
Definition lazybsd_hardclock (fuel : nat) (st : state) : outcome state :=
  callout_tick fuel (set_ticks (i32 (ticks st + 1)) st).

End Clock.

(** ** Changes of the state the wheel does not depend on *)

Lemma wf_set_fired l st : wf st -> wf (set_fired l st).
Proof. intros []. by constructor. Qed.

Lemma wf_set_next_None st : wf st -> wf (set_next None st).
Proof. intros []. by constructor. Qed.

Lemma wf_set_softticks t st : wf st -> wf (set_softticks t st).
Proof. intros []. by constructor. Qed.

Lemma wf_set_ticks t st : in_i32 t -> wf st -> wf (set_ticks t st).
Proof. intros ? []. by constructor. Qed.

(** A change of the direct execution entity that keeps [execs_ok]. *)
Lemma with_exec_evolves g st : wf st -> cc_waiting (g (cc_exec1 st)) = false ->
  (forall c, cc_curr (g (cc_exec1 st)) = Some c -> c_lock (co_get st c) <> NULL_lock ->
    cc_cancel (g (cc_exec1 st)) = true) ->
  evolves st (with_exec true g st).
Proof.
  intros Hwf Hw Hc. apply same_core_evolves; [done|].
  destruct (wf_exec st Hwf) as (? & ? & ? & ?). constructor; try done. apply Hwf.
Qed.

(** ** Running one callout *)

(** The call of a due callout, as the log records it. *)
Definition firing_of (st : state) (c : ptr) : firing :=
  {| f_callout := c; f_func := default 1%positive (c_func (co_get st c));
     f_arg := c_arg (co_get st c); f_due := c_time (co_get st c); f_ticks := ticks st |}.

(** A callout after it has been called: it is no longer pending. *)
Definition done_callout (k : callout) : callout :=
  with_iflags (with_PENDING false (c_iflags k)) k.

Section ClockProofs.
  Context (MAXCPU : Z).
  Context (handler : fn -> Z -> state -> list api_call).
  (** The callout functions follow the rules of the interface. *)
  Context (handler_ok : forall f arg st, wf st -> calls_ok MAXCPU (handler f arg st) st).

(** No callout function arms, stops or initialises [c]. *)
Definition avoids (c : ptr) : Prop :=
  forall f arg st, Forall (fun a => call_target a <> c) (handler f arg st).

(** What running the due callout [c] does to the state [st] before it. *)
Record ran (c : ptr) (st st' : state) : Prop := {
  rn_wf : wf st';
  rn_ticks : ticks st' = ticks st;
  rn_softticks : cc_softticks st' = cc_softticks st;
  rn_mask : callwheelmask st' = callwheelmask st;
  rn_inited : cc_inited st' = cc_inited st;
  rn_curr : cc_curr (cc_exec1 st') = None;
  rn_timely : forall base, lag base st < 2 ^ 31 -> timely base st -> timely base st';
  rn_fired : fired st' = firing_of st c :: fired st;
  rn_other : forall c', avoids c' ->
    co_get st' c' = if decide (c' = c) then done_callout (co_get st c) else co_get st c'
}.

Lemma call_fn_ok f arg st : wf st ->
  exists st', call_fn MAXCPU handler f arg st = Ok st' /\ evolves st st' /\
    cc_curr (cc_exec1 st') = cc_curr (cc_exec1 st) /\
    forall c, avoids c -> co_get st' c = co_get st c.
Proof.
  intros Hwf. destruct (run_calls_evolves MAXCPU (handler f arg st) st Hwf) as (st' & Heq & E);
    [by apply handler_ok|].
  exists st'. split; [done|]. split; [done|]. split.
  - by eapply run_calls_curr.
  - intros c Hc. eapply run_calls_other; [done| |done|apply Hc]. by apply handler_ok.
Qed.

(** The end of [softclock_call_cc], after the callout function has returned. *)
Lemma softclock_skip_ok k c st : wf st -> CALLOUT_LOCAL_ALLOC (c_iflags k) = false ->
  exists st', softclock_skip MAXCPU handler k c true st = Ok st' /\ evolves st st' /\
    cc_curr (cc_exec1 st') = None /\ forall c', avoids c' -> co_get st' c' = co_get st c'.
Proof.
  intros Hwf Hla. unfold softclock_skip. rewrite Hla.
  set (st1 := with_exec true _ st).
  assert (evolves st st1) as E1.
  { apply with_exec_evolves; [done| |done]. simpl. apply (wf_exec st Hwf). }
  assert (forall st2, wf st2 -> cc_waiting (cc_exec1 st2) = false) as Hnw.
  { intros st2 Hwf2. apply (wf_exec st2 Hwf2). }
  destruct (cc_drain (exec_entity st1 true)) as [d|].
  - set (st2 := with_exec true _ st1).
    assert (evolves st1 st2) as E2.
    { apply with_exec_evolves; [apply E1| |done]. simpl. apply (wf_exec st Hwf). }
    destruct (call_fn_ok d (c_arg k) st2) as (st3 & Heq & E3 & Hcurr & Ho); [apply E2|].
    exists st3. rewrite Heq. simpl. rewrite (Hnw st3) by apply E3.
    split_and!; [done| |by rewrite Hcurr|by intros; rewrite Ho].
    eapply evolves_trans; [exact E1|]. by eapply evolves_trans.
  - exists st1. simpl. rewrite (Hnw st Hwf). by split_and!.
Qed.

(** Up to [skip], a callout that can be called is called. *)
Lemma softclock_run_eq k c f st : c_func k = Some f -> runnable k ->
  cc_cancel (cc_exec1 st) = false ->
  softclock_run MAXCPU handler k c true st =
  call_fn MAXCPU handler f (c_arg k)
    (set_fired ({| f_callout := c; f_func := f; f_arg := c_arg k; f_due := c_time k;
                   f_ticks := ticks st |} :: fired st)
      (with_exec true (fun e => {| cc_curr := cc_curr e; cc_drain := cc_drain e;
         cc_cancel := lock_nonnull (c_lock k); cc_waiting := cc_waiting e |}) st)).
Proof.
  intros Hf Hrun Hc. unfold softclock_run. simpl. rewrite Hc, Hf, andb_false_r.
  assert (negb (CALLOUT_RETURNUNLOCKED (c_iflags k)) && negb (lock_nonnull (c_lock k)) = false)
    as ->.
  { destruct Hrun as [Hl| ->]; [|done]. by rewrite (proj2 (lock_nonnull_true _) Hl), andb_false_r. }
  unfold with_exec, set_exec. simpl. destruct (lock_nonnull (c_lock k)).
  - by destruct (call_fn _ _ _ _ _).
  - replace (set_exec1 _ st) with st by (destruct st as [? []]; simpl in *; by subst).
    by destruct (call_fn _ _ _ _ _).
Qed.

(** The iteration of [softclock] that runs the due callout [c]. *)
Definition fire (cur : Z) (c : ptr) (st : state) : outcome state :=
  softclock_call_cc MAXCPU handler c true
    (LIST_REMOVE c (set_bucket (callout_get_bucket (callwheelmask st) cur)
       (set_next (LIST_NEXT st c) st))).

(** The state in which the callout function is called, but for the log: the
    callout is off the wheel. *)
Definition running (cur : Z) (c : ptr) (st : state) : state :=
  with_exec true (fun e => {| cc_curr := Some c; cc_drain := None;
      cc_cancel := lock_nonnull (c_lock (co_get st c)); cc_waiting := cc_waiting e |})
    (co_put c (done_callout (co_get st c))
      (LIST_REMOVE c (set_bucket (callout_get_bucket (callwheelmask st) cur)
         (set_next (LIST_NEXT st c) st)))).

(** The scan of the bucket of [cur] reaches [c]. *)
Definition at_callout (cur : Z) (c : ptr) (st : state) : state :=
  set_next (Some c) (set_bucket (callout_get_bucket (callwheelmask st) cur) st).

Lemma at_callout_wf cur c st : wf st -> c ∈ scanned cur st -> wf (at_callout cur c st).
Proof.
  intros Hwf Hc. apply wf_bucket_in in Hc as [Hp Hb]; [|done]. destruct Hwf.
  constructor; try done. intros c' [= <-]. by split.
Qed.

Lemma running_co cur c c' st :
  co_get (running cur c st) c' = if decide (c' = c) then done_callout (co_get st c) else co_get st c'.
Proof.
  change (co_get (running cur c st) c') with
    (co_get (co_put c (done_callout (co_get st c)) st) c').
  rewrite co_get_put. by repeat case_decide.
Qed.

Lemma running_removed cur c st : wf st -> c ∈ scanned cur st ->
  removed c (at_callout cur c st) (running cur c st).
Proof.
  intros Hwf Hc. apply wf_bucket_in in Hc as [Hp Hb]; [|done].
  destruct (wf_exec st Hwf) as (? & ? & ? & ?).
  constructor.
  - done.
  - done.
  - simpl. by rewrite decide_True.
  - intros c' Hne. by rewrite running_co, decide_False.
  - unfold pending. by rewrite running_co, decide_True.
  - rewrite running_co, decide_True by done. apply (wf_flags st Hwf c).
  - split_and!; [done..|]. intros c' [= <-].
    rewrite running_co, decide_True by done. apply lock_nonnull_true.
Qed.

(** Running the first due callout of a bucket: it is called once, and the scan
    goes on with fewer due callouts. *)
Lemma fire_ok cur c st l1 l2 : wf st -> in_i32 cur -> lag cur st < 2 ^ 31 ->
  scanned cur st = l1 ++ c :: l2 -> (forall c', c' ∈ l1 -> is_due cur st c' = false) ->
  is_due cur st c = true ->
  exists st', fire cur c st = Ok st' /\ ran c st st' /\ scan cur st' /\
    (due_count cur st' < due_count cur st)%nat.
Proof.
  intros Hwf Hcur Hlag Hl Hl1 Hdue.
  assert (c ∈ scanned cur st) as Hin by (rewrite Hl; set_solver).
  pose proof (at_callout_wf cur c st Hwf Hin) as HwfA.
  pose proof (running_removed cur c st Hwf Hin) as R.
  pose proof Hin as Hin'. apply wf_bucket_in in Hin' as [Hp Hb]; [|done].
  pose proof (wf_armed st Hwf c Hp) as [_ Hla [f Hf] Hrun _].
  pose proof (removed_evolves c _ _ HwfA R) as [E1wf E1fr E1t E1s E1d].
  assert (scan cur (running cur c st)) as Hsc.
  { apply E1s; [done..|]. split; [done|]. exists l1, (c :: l2). by split_and!. }
  set (st1 := set_fired (firing_of st c :: fired st) (running cur c st)).
  assert (wf st1) as Hwf1 by (by apply wf_set_fired).
  destruct (call_fn_ok f (c_arg (co_get st c)) st1 Hwf1) as (st2 & Hst2 & E2 & Hcurr2 & Ho2).
  destruct (softclock_skip_ok (co_get st c) c st2) as (st3 & Hst3 & E3 & Hcurr3 & Ho3);
    [apply E2|done|].
  pose proof (evolves_trans _ _ _ E2 E3) as [E4wf E4fr E4t E4s E4d].
  exists st3. split; [|split; [|split]].
  - unfold fire, softclock_call_cc. cbn zeta.
    change (co_get (LIST_REMOVE c _) c) with (co_get st c). rewrite Hla.
    rewrite (softclock_run_eq _ _ f) by done.
    replace (set_fired _ _) with st1 by (unfold st1, firing_of; by rewrite Hf).
    by rewrite Hst2.
  - constructor; try (by etrans; [apply E4fr|]); try done.
    + intros base Hb1 Ht. apply E4t; [done|]. apply (E1t base Hb1 Ht).
    + intros c' Hav. rewrite Ho3, Ho2 by done. apply running_co.
  - by apply E4s.
  - eapply Nat.le_lt_trans; [by apply E4d|].
    change (due_count cur st1) with (due_count cur (running cur c st)).
    rewrite (removed_due c _ _ R).
    unfold due_count. rewrite (length_filter_remove_of _ c (scanned cur st)).
    + rewrite decide_True, Nat.add_1_r by done. by apply Nat.lt_succ_r, Nat.eq_le_incl.
    + by apply wf_bucket_NoDup.
    + done.
Qed.

(** ** The log *)

(** Between [st] and [st'], [c] was called once, as [st] had it, if [b], and
    was left alone otherwise; [new] is what the log has gained. *)
Definition log_entry (b : bool) (c : ptr) (st st' : state) (new : list firing) : Prop :=
  filter (fun f => f_callout f = c) new = (if b then [firing_of st c] else []) /\
  co_get st' c = if b then done_callout (co_get st c) else co_get st c.

Lemma log_entry_trans b1 b2 c st1 st2 st3 new1 new2 :
  log_entry b1 c st1 st2 new1 -> log_entry b2 c st2 st3 new2 ->
  (b1 = true -> b2 = false) -> ticks st2 = ticks st1 ->
  log_entry (b1 || b2) c st1 st3 (new2 ++ new1).
Proof.
  intros [L1 C1] [L2 C2] Hb Ht. unfold log_entry. rewrite filter_app, L1, L2, C2.
  destruct b1; [by rewrite Hb|]. destruct b2; [|done].
  simpl. unfold firing_of. by rewrite C1, Ht.
Qed.

Definition fires_at (cur : Z) (st : state) (c : ptr) : bool := pending st c && is_due cur st c.

Lemma done_not_pending st c k : co_get st c = done_callout k -> pending st c = false.
Proof. unfold pending. by intros ->. Qed.

Lemma fires_at_co cur st st' c : co_get st' c = co_get st c ->
  fires_at cur st' c = fires_at cur st c.
Proof. unfold fires_at, pending, is_due. by intros ->. Qed.

(** What a pass over the bucket of [cur] does. *)
Record swept (cur : Z) (st st' : state) : Prop := {
  sw_wf : wf st';
  sw_ticks : ticks st' = ticks st;
  sw_softticks : cc_softticks st' = cc_softticks st;
  sw_mask : callwheelmask st' = callwheelmask st;
  sw_inited : cc_inited st' = cc_inited st;
  sw_curr : cc_curr (cc_exec1 st) = None -> cc_curr (cc_exec1 st') = None;
  sw_timely : forall base, lag base st < 2 ^ 31 -> timely base st -> timely base st';
  sw_done : forall c, c ∈ scanned cur st' -> is_due cur st' c = false;
  sw_log : exists new, fired st' = new ++ fired st /\
    Forall (fun f => f_due f = cur /\ f_ticks f = ticks st) new /\
    forall c, avoids c -> log_entry (fires_at cur st c) c st st' new
}.

Lemma swept_refl cur st : wf st -> (forall c, c ∈ scanned cur st -> is_due cur st c = false) ->
  swept cur st st.
Proof.
  intros Hwf Hd. constructor; try done. exists []. split_and!; [done..|].
  intros c _. assert (fires_at cur st c = false) as Hf.
  { unfold fires_at. destruct (pending st c) eqn:Hp; [|done].
    destruct (is_due cur st c) eqn:Hdue; [|done].
    rewrite Hd in Hdue; [done|]. apply wf_bucket_in; [done|]. split; [done|].
    unfold is_due in Hdue. zbool. unfold bucket_of. by subst. }
  by rewrite Hf.
Qed.

(** One callout run, then the rest of the pass. *)
Lemma ran_swept cur c st st1 st2 : is_due cur st c = true -> pending st c = true ->
  ran c st st1 -> swept cur (set_next None st1) st2 -> swept cur st st2.
Proof.
  intros Hdue Hp [Rwf Rt Rs Rm Ri Rc Rty Rf Ro] [W T S M I C Ty D (new & Hn & Hall & Hlog)].
  simpl in *. constructor; try done; try (by etrans).
  - intros _. by apply C.
  - intros base Hb Ht. apply Ty; [unfold lag in *; simpl; by rewrite Rt|]. by apply (Rty base).
  - exists (new ++ [firing_of st c]). split_and!.
    + rewrite Hn, Rf. by rewrite <- app_assoc.
    + apply Forall_app. split.
      * eapply Forall_impl; [exact Hall|]. intros f [? ->]. by rewrite Rt.
      * apply Forall_singleton. unfold is_due in Hdue. by zbool.
    + intros c' Hav.
      assert (log_entry (bool_decide (c' = c)) c' st st1 [firing_of st c]) as L1.
      { unfold log_entry. rewrite Ro by done. rewrite filter_cons.
        case_bool_decide; simplify_eq/=; rewrite ?decide_True, ?decide_False by done; done. }
      assert (fires_at cur st c' = bool_decide (c' = c) || fires_at cur (set_next None st1) c')
        as ->.
      { case_bool_decide as Hc; simpl.
        - subst c'. unfold fires_at. by rewrite Hp, Hdue.
        - symmetry. apply fires_at_co. etrans; [by apply Ro|]. by rewrite decide_False. }
      eapply log_entry_trans; [exact L1|by apply Hlog| |done].
      intros Hc. apply bool_decide_eq_true in Hc. subst c'. unfold fires_at.
      rewrite (done_not_pending _ _ (co_get st c)); [done|]. etrans; [by apply Ro|].
      by rewrite decide_True.
Qed.

(** The inner loop of [softclock] ends after a pass over the bucket. *)
Lemma softclock_bucket_ok cur : in_i32 cur -> forall d st pre suf,
  due_count cur st = d -> wf st -> lag cur st < 2 ^ 31 -> scanned cur st = pre ++ suf ->
  (forall c, c ∈ pre -> is_due cur st c = false) ->
  exists n st', (forall m, (n <= m)%nat ->
      softclock_bucket MAXCPU handler m cur (head suf) st = Ok st') /\ swept cur st st'.
Proof.
  intros Hcur d. induction d as [d IHd] using lt_wf_ind. intros st pre suf Hd Hwf Hlag.
  revert pre. induction suf as [|c suf IH]; intros pre Hsc Hpre.
  - exists O, st. split; [by destruct m|]. apply swept_refl; [done|].
    intros c. rewrite Hsc, app_nil_r. auto.
  - assert (LIST_NEXT st c = head suf) as Hnext by (by eapply LIST_NEXT_split).
    destruct (is_due cur st c) eqn:Hdue.
    + destruct (fire_ok cur c st pre suf) as (st1 & Hst1 & R & (Hb & pre1 & suf1 & Hs1 & Hn1 & Hp1) & Hlt);
        [done..|].
      assert (c ∈ scanned cur st) as Hin by (rewrite Hsc; set_solver).
      apply wf_bucket_in in Hin as [Hp _]; [|done].
      destruct (IHd (due_count cur st1)) with (st := set_next None st1) (pre := pre1) (suf := suf1)
        as (n & st2 & Hst2 & W); [lia|done|by apply wf_set_next_None, R| |done|done|].
      { unfold lag in *; simpl. by rewrite (rn_ticks _ _ _ R). }
      exists (S n), st2. split; [|by eapply ran_swept].
      intros [|m] Hm; [lia|]. simpl. unfold is_due in Hdue. rewrite Hdue. cbn [negb].
      unfold fire in Hst1.
      change (callwheelmask (set_next _ st)) with (callwheelmask st).
      rewrite Hst1. cbn [mbind outcome_bind]. rewrite <- Hn1. apply Hst2. lia.
    + destruct (IH (pre ++ [c])) as (n & st2 & Hst2 & W).
      { by rewrite <- app_assoc. }
      { intros c' [?| ->%list_elem_of_singleton]%elem_of_app; auto. }
      exists (S n), st2. split; [|done].
      intros [|m] Hm; [lia|]. simpl. unfold is_due in Hdue. rewrite Hdue, Hnext. apply Hst2. lia.
Qed.

(** ** The clock catching up with [ticks] *)

(** The callouts due before [ticks], counted from [cc_softticks]. *)
Definition overdue (st : state) (c : ptr) : bool :=
  pending st c && (u32 (c_time (co_get st c) - cc_softticks st) <? lag (cc_softticks st) st).

Lemma overdue_co st st' c : co_get st' c = co_get st c ->
  cc_softticks st' = cc_softticks st -> ticks st' = ticks st -> overdue st' c = overdue st c.
Proof. unfold overdue, pending, lag. by intros -> -> ->. Qed.

(** The clock has caught up: what [softclock] (or [callout_tick]) does. *)
Record clocked (st st' : state) : Prop := {
  ck_wf : wf st';
  ck_ticks : ticks st' = ticks st;
  ck_softticks : cc_softticks st' = ticks st;
  ck_mask : callwheelmask st' = callwheelmask st;
  ck_inited : cc_inited st' = cc_inited st;
  ck_curr : cc_curr (cc_exec1 st) = None -> cc_curr (cc_exec1 st') = None;
  ck_timely : timely (ticks st) st';
  ck_log : exists new, fired st' = new ++ fired st /\
    Forall (fun f => f_ticks f = ticks st /\
                     1 <= u32 (ticks st - f_due f) <= lag (cc_softticks st) st) new /\
    forall c, avoids c -> log_entry (overdue st c) c st st' new
}.

(** The hypotheses under which the clock catches up. *)
Record behind (st : state) : Prop := {
  bh_wf : wf st;
  bh_softticks : in_i32 (cc_softticks st);
  bh_lag : lag (cc_softticks st) st < 2 ^ 31;
  bh_timely : timely (cc_softticks st) st
}.

Lemma clocked_refl st : behind st -> cc_softticks st = ticks st -> clocked st st.
Proof.
  intros [W I L T] Heq. constructor; try done; [by rewrite <- Heq|].
  exists []. split_and!; [done..|]. intros c _.
  assert (overdue st c = false) as ->; [|done].
  unfold overdue, lag. rewrite Heq, dist_same. apply andb_false_iff. right.
  apply Z.ltb_ge. apply u32_range.
Qed.

(** After a pass over the bucket of the tick [cc_softticks], nothing is due at it. *)
Lemma timely_next st cur : wf st -> in_i32 cur -> u32 (ticks st - cur) <> 0 -> timely cur st ->
  (forall c, c ∈ scanned cur st -> is_due cur st c = false) -> timely (i32 (cur + 1)) st.
Proof.
  intros Hwf Hcur Hlag HT Hd c Hp. unfold lag. rewrite (dist_succ (ticks st)) by done.
  specialize (HT c Hp). unfold lag in HT.
  assert (u32 (c_time (co_get st c) - cur) <> 0) as Hne.
  { intros Hz. apply dist_zero in Hz; [|by apply armed_time, wf_armed|done].
    assert (is_due cur st c = false) as Hf; [|unfold is_due in Hf; by zbool].
    apply Hd, wf_bucket_in; [done|]. split; [done|]. unfold bucket_of. by rewrite Hz. }
  rewrite dist_succ by done. lia.
Qed.

(** The tick [cc_softticks] splits what is overdue. *)
Lemma overdue_split st st1 cur c : in_i32 cur -> wf st -> cc_softticks st = cur ->
  u32 (ticks st - cur) <> 0 -> ticks st1 = ticks st -> cc_softticks st1 = i32 (cur + 1) ->
  co_get st1 c = (if fires_at cur st c then done_callout (co_get st c) else co_get st c) ->
  overdue st c = fires_at cur st c || overdue st1 c /\
  (fires_at cur st c = true -> overdue st1 c = false).
Proof.
  intros Hcur Hwf Hs Hlag Ht Hs1 Hco. unfold overdue at 1 2 3. rewrite Hs.
  destruct (fires_at cur st c) eqn:Hf.
  - rewrite (done_not_pending _ _ _ Hco). split; [|done]. simpl.
    unfold fires_at, is_due in Hf. zbool. rewrite H, H0, dist_same.
    apply Z.ltb_lt. unfold lag. pose proof (u32_range (ticks st - cur)). unfold in_u32 in *. lia.
  - split; [|done]. simpl. unfold pending. rewrite Hco. fold (pending st c).
    destruct (pending st c) eqn:Hp; [|done]. simpl. unfold lag. rewrite Ht, Hs1.
    assert (u32 (c_time (co_get st c) - cur) <> 0) as Hne.
    { intros Hz. apply dist_zero in Hz; [|by apply armed_time, wf_armed|done].
      unfold fires_at, is_due in Hf. rewrite Hp, Hz, Z.eqb_refl in Hf. done. }
    rewrite !dist_succ by done.
    destruct (Z.ltb_spec (u32 (c_time (co_get st c) - cur)) (u32 (ticks st - cur)));
      symmetry; [apply Z.ltb_lt|apply Z.ltb_ge]; lia.
Qed.

(** After the pass over the bucket of a tick the clock is one tick less behind. *)
Lemma tick_behind st st1 : behind st -> u32 (ticks st - cc_softticks st) <> 0 ->
  swept (cc_softticks st) (set_softticks (i32 (cc_softticks st + 1)) st) st1 ->
  behind st1 /\ lag (cc_softticks st1) st1 = lag (cc_softticks st) st - 1.
Proof.
  intros [W I L T] Hlag SW. set (cur := cc_softticks st) in *.
  assert (ticks st1 = ticks st) as T1 by apply SW.
  assert (cc_softticks st1 = i32 (cur + 1)) as S1 by apply SW.
  assert (lag (i32 (cur + 1)) st1 = lag cur st - 1) as Hlag1.
  { unfold lag. by rewrite T1, dist_succ. }
  split; [|by rewrite S1]. constructor; [apply SW| | |]; rewrite S1.
  - apply i32_range.
  - rewrite Hlag1. lia.
  - apply timely_next; [apply SW|done|by rewrite T1| |apply SW].
    apply (sw_timely _ _ _ SW); [exact L|exact T].
Qed.

(** A tick of the clock followed by the rest. *)
Lemma tick_clocked st st1 st2 :
  behind st -> u32 (ticks st - cc_softticks st) <> 0 ->
  swept (cc_softticks st) (set_softticks (i32 (cc_softticks st + 1)) st) st1 ->
  clocked st1 st2 -> clocked st st2.
Proof.
  intros B Hlag SW [W2 T2 S2 M2 I2 C2 Ty2 (new2 & Hn2 & Ha2 & Hl2)].
  destruct (tick_behind _ _ B Hlag SW) as [_ Hlag1].
  destruct SW as [W1 T1 S1 M1 I1 C1 Ty1 D1 (new1 & Hn1 & Ha1 & Hl1)]. simpl in *.
  constructor; try (by etrans); try done.
  - auto.
  - by rewrite <- T1.
  - exists (new2 ++ new1). split_and!.
    + by rewrite Hn2, Hn1, app_assoc.
    + apply Forall_app. split; (eapply Forall_impl; [eassumption|]); intros f; cbv beta.
      * rewrite Hlag1, T1. lia.
      * intros [-> ->]. split; [done|]. unfold lag.
        pose proof (u32_range (ticks st - cc_softticks st)). unfold in_u32 in *. lia.
    + intros c Hav. pose proof (Hl1 c Hav) as L1. pose proof (Hl2 c Hav) as L2.
      destruct (overdue_split st st1 (cc_softticks st) c) as [-> Hex];
        try apply B; try done; [apply L1|].
      by eapply log_entry_trans.
Qed.

(** [softclock] returns when it has caught up. *)
Lemma softclock_ok : forall L st, lag (cc_softticks st) st = Z.of_nat L -> behind st ->
  exists n st', (forall m, (n <= m)%nat -> softclock MAXCPU handler m st = Ok st') /\
    clocked st st'.
Proof.
  induction L as [|L IH]; intros st HL B.
  - exists O, st. assert (cc_softticks st = ticks st) as Heq.
    { symmetry. apply dist_zero; [apply B|apply B|exact HL]. }
    split; [|by apply clocked_refl].
    intros m _. destruct m; simpl; by rewrite Heq, Z.eqb_refl.
  - set (cur := cc_softticks st). set (st0 := set_softticks (i32 (cur + 1)) st).
    assert (u32 (ticks st - cur) <> 0) as Hne by (unfold lag in HL; subst cur; lia).
    destruct (softclock_bucket_ok cur (bh_softticks st B) _ st0 [] (scanned cur st0) eq_refl)
      as (n1 & st1 & Hst1 & SW); [apply wf_set_softticks, B|apply B|done|set_solver|].
    destruct (tick_behind _ _ B Hne SW) as [B1 Hlag1].
    destruct (IH st1) as (n2 & st2 & Hst2 & CK); [lia|done|].
    exists (S (Nat.max n1 n2)), st2. split; [|by eapply tick_clocked].
    intros [|m] Hm; [lia|]. simpl. fold cur.
    destruct (Z.eqb_spec cur (ticks st)) as [He|_]; [by rewrite <- He, dist_same in Hne|].
    change (bucket_list st _) with (scanned cur st0).
    rewrite Hst1 by lia. cbn [mbind outcome_bind]. apply Hst2. lia.
Qed.

(** [(cc_softticks - ticks) < 0]. *)
Lemma tick_test st : behind st ->
  (i32 (cc_softticks st - ticks st) <? 0) = negb (cc_softticks st =? ticks st).
Proof.
  intros [W I L T]. pose proof (u32_range (ticks st - cc_softticks st)) as Hr.
  assert (i32 (cc_softticks st - ticks st) = - lag (cc_softticks st) st) as ->.
  { rewrite <- (i32_id (- lag (cc_softticks st) st)).
    - apply i32_cong. unfold lag, uwrap. change (2 ^ 32) with 4294967296.
      rewrite <- Z.sub_0_l, Zminus_mod_idemp_r. f_equal. lia.
    - change (2 ^ 31) with 2147483648 in L. unfold in_i32, in_u32, lag in *. lia. }
  destruct (Z.eqb_spec (cc_softticks st) (ticks st)) as [He|Hne]; simpl.
  - unfold lag. by rewrite He, dist_same.
  - apply Z.ltb_lt. unfold in_u32, lag in *.
    assert (u32 (ticks st - cc_softticks st) <> 0); [|lia].
    intros Hz. apply Hne. symmetry. apply dist_zero; [apply W|done|done].
Qed.

(** An empty bucket is skipped. *)
Lemma empty_swept cur st : wf st -> scanned cur st = [] -> swept cur st st.
Proof. intros Hwf Hsc. apply swept_refl; [done|]. intros c. rewrite Hsc. set_solver. Qed.

Lemma callout_tick_scan_ok : forall L st, lag (cc_softticks st) st = Z.of_nat L -> behind st ->
  exists n b st1, (forall m, (n <= m)%nat -> callout_tick_scan m st = Ok (b, st1)) /\
    behind st1 /\ (b = false -> cc_softticks st1 = ticks st1) /\
    forall st2, clocked st1 st2 -> clocked st st2.
Proof.
  induction L as [|L IH]; intros st HL B.
  - exists O, false, st. assert (cc_softticks st = ticks st) as Heq.
    { symmetry. apply dist_zero; [apply B|apply B|exact HL]. }
    split_and!; try done. intros m _. pose proof (tick_test st B) as Ht.
    rewrite Heq, Z.eqb_refl in Ht. destruct m; simpl; by rewrite Heq, Ht.
  - assert (u32 (ticks st - cc_softticks st) <> 0) as Hne by (unfold lag in HL; lia).
    assert ((i32 (cc_softticks st - ticks st) <? 0) = true) as Ht.
    { rewrite (tick_test st B). destruct (Z.eqb_spec (cc_softticks st) (ticks st)) as [He|]; [|done].
      by rewrite He, dist_same in Hne. }
    destruct (scanned (cc_softticks st) st) as [|c l] eqn:Hsc; unfold scanned in Hsc.
    + set (st0 := set_softticks (i32 (cc_softticks st + 1)) st).
      assert (swept (cc_softticks st) st0 st0) as SW
        by (apply empty_swept; [apply wf_set_softticks, B|done]).
      destruct (tick_behind _ _ B Hne SW) as [B1 Hlag1].
      destruct (IH st0) as (n & b & st1 & Hst1 & B2 & Hb & Hc); [lia|done|].
      exists (S n), b, st1. split_and!; [|done|done|].
      * intros [|m] Hm; [lia|]. simpl. rewrite Ht, Hsc. apply Hst1. lia.
      * intros st2 CK. eapply tick_clocked; [done..|]. by apply Hc.
    + exists O, true, st. split_and!; try done.
      intros m _. destruct m; simpl; by rewrite Ht, Hsc.
Qed.

(** [callout_tick] returns when the clock has caught up. *)
Lemma callout_tick_ok st : behind st ->
  exists st', returns (fun n => callout_tick MAXCPU handler n st) st' /\ clocked st st'.
Proof.
  intros B.
  destruct (callout_tick_scan_ok (Z.to_nat (lag (cc_softticks st) st)) st)
    as (n1 & b & st1 & Hst1 & B1 & Hb & Hc); [|done|].
  { rewrite Z2Nat.id; [done|]. apply u32_range. }
  destruct b.
  - destruct (softclock_ok (Z.to_nat (lag (cc_softticks st1) st1)) st1)
      as (n2 & st2 & Hst2 & CK); [|done|].
    { rewrite Z2Nat.id; [done|]. apply u32_range. }
    exists st2. split; [|by apply Hc]. exists (Nat.max n1 n2). intros m Hm.
    unfold callout_tick. rewrite Hst1 by lia. cbn. apply Hst2. lia.
  - exists st1. split; [|apply Hc, clocked_refl; auto].
    exists n1. intros m Hm. unfold callout_tick. by rewrite Hst1.
Qed.

(** ** Between two clock ticks *)

(** The clock has caught up, nothing pending is late, and every call made so far
    was made exactly one tick after the time the callout was due at. *)
Record rest (st : state) : Prop := {
  rs_wf : wf st;
  rs_softticks : cc_softticks st = ticks st;
  rs_timely : timely (ticks st) st;
  rs_curr : cc_curr (cc_exec1 st) = None;
  rs_fired : Forall (fun f => f_ticks f = i32 (f_due f + 1) /\ in_i32 (f_ticks f)) (fired st)
}.

Lemma rest_dist st c : rest st -> pending st c = true ->
  0 <= u32 (c_time (co_get st c) - ticks st) <= INT_MAX.
Proof.
  intros R Hp. pose proof (rs_timely st R c Hp) as HT. unfold lag in HT.
  rewrite dist_same in HT. split; [apply u32_range|lia].
Qed.

Lemma rest_api a st st' : rest st -> api_ok MAXCPU a st -> api_step MAXCPU a st = Ok st' -> rest st'.
Proof.
  intros [W S T C F] Hok Hst. pose proof (api_step_curr MAXCPU a st st' Hst) as Hc.
  destruct (api_evolves MAXCPU a st W Hok) as (s & Hs & [W' Fr Ti _ _]).
  rewrite Hst in Hs. injection Hs as <-. destruct Fr as [Ft Fs Fm Fb Fi Ff].
  constructor; [done|congruence| |by rewrite Hc|by rewrite Ff].
  rewrite Ft. apply Ti; [|done]. unfold lag. by rewrite dist_same.
Qed.

(** The state [lazybsd_hardclock] hands to [callout_tick]. *)
Definition ticked (st : state) : state := set_ticks (i32 (ticks st + 1)) st.

Lemma ticked_behind st : rest st -> behind (ticked st) /\ lag (cc_softticks st) (ticked st) = 1.
Proof.
  intros [W S T C F].
  assert (lag (ticks st) (ticked st) = 1) as Hl.
  { unfold lag, ticked; simpl. rewrite dist_succ_l; rewrite dist_same; lia. }
  split; [|by rewrite S]. constructor; simpl.
  - apply wf_set_ticks; [apply i32_range|done].
  - rewrite S. apply W.
  - rewrite S, Hl. lia.
  - rewrite S. intros c Hp. rewrite Hl. specialize (T c Hp). unfold lag in T.
    rewrite dist_same in T. change (co_get (ticked st) c) with (co_get st c). lia.
Qed.

(** The callouts the next clock tick calls. *)
Lemma ticked_overdue st c : rest st ->
  overdue (ticked st) c = pending st c && (c_time (co_get st c) =? ticks st).
Proof.
  intros R. unfold overdue. change (cc_softticks (ticked st)) with (cc_softticks st).
  rewrite (proj2 (ticked_behind st R)).
  change (pending (ticked st) c) with (pending st c).
  change (co_get (ticked st) c) with (co_get st c). rewrite (rs_softticks st R).
  destruct (pending st c) eqn:Hp; [|done]. simpl.
  pose proof (rest_dist st c R Hp).
  destruct (Z.eqb_spec (c_time (co_get st c)) (ticks st)) as [->|Hne].
  - by rewrite dist_same.
  - apply Z.ltb_ge. assert (u32 (c_time (co_get st c) - ticks st) <> 0); [|lia].
    intros Hz. apply Hne, dist_zero; [apply armed_time, wf_armed; [apply R|done]|apply R|done].
Qed.

(** What a clock tick does. *)
Record clock_spec (st st' : state) : Prop := {
  cl_rest : rest st';
  cl_ticks : ticks st' = i32 (ticks st + 1);
  cl_mask : callwheelmask st' = callwheelmask st;
  cl_inited : cc_inited st' = cc_inited st;
  cl_log : exists new, fired st' = new ++ fired st /\
    forall c, avoids c ->
      log_entry (pending st c && (c_time (co_get st c) =? ticks st)) c (ticked st) st' new
}.

Lemma hardclock_ok st : rest st ->
  exists st', returns (fun n => lazybsd_hardclock MAXCPU handler n st) st' /\ clock_spec st st'.
Proof.
  intros R. destruct (ticked_behind st R) as [B Hlag].
  destruct (callout_tick_ok (ticked st) B) as (st' & Hret & [W T S M I C Ty (new & Hn & Ha & Hl)]).
  exists st'. split; [exact Hret|]. simpl in *.
  constructor; try done.
  - constructor; [done|congruence|by rewrite T|apply C, R|].
    rewrite Hn. apply Forall_app. split; [|apply R].
    eapply Forall_impl; [exact Ha|]. intros f [Hft Hd]. cbv beta.
    split; [|rewrite Hft; apply i32_range].
    rewrite Hft. rewrite Hlag in Hd.
    apply i32_cong. assert (u32 (i32 (ticks st + 1) - f_due f) = 1) as Hd1 by lia.
    unfold uwrap in Hd1. change (2 ^ 32) with 4294967296 in Hd1.
    rewrite <- Zminus_mod_idemp_l, i32_mod, Zminus_mod_idemp_l in Hd1.
    replace (ticks st + 1) with (f_due f + (ticks st + 1 - f_due f)) by lia.
    by rewrite <- Zplus_mod_idemp_r, Hd1.
  - exists new. split; [done|]. intros c Hav. rewrite <- ticked_overdue by done. by apply Hl.
Qed.
End ClockProofs.
