(* ===== verification/Wheel.v ===== *)
(** * Wheel: the life of the timer wheel

    The start of the wheel ([callout_callwheel_init], [callout_cpu_init]), its
    statistics ([sysctl_kern_callout_stat]), and what a client can rely on: the
    theorems about every state that the calls of the interface and the ticks of
    the clock reach. *)
From S2P Require Import Prelude Callout Softclock.

(** ** Start *)

Definition set_inited (v : bool) (st : state) : state :=
  {| cc_exec0 := cc_exec0 st; cc_exec1 := cc_exec1 st; cc_next := cc_next st;
     cc_callwheel := cc_callwheel st; cc_expireq := cc_expireq st;
     cc_callfree := cc_callfree st; cc_softticks := cc_softticks st;
     cc_bucket := cc_bucket st; cc_inited := v; callwheelmask := callwheelmask st;
     co := co st; ticks := ticks st; fired := fired st |}.
Definition set_mask (v : Z) (st : state) : state :=
  {| cc_exec0 := cc_exec0 st; cc_exec1 := cc_exec1 st; cc_next := cc_next st;
     cc_callwheel := cc_callwheel st; cc_expireq := cc_expireq st;
     cc_callfree := cc_callfree st; cc_softticks := cc_softticks st;
     cc_bucket := cc_bucket st; cc_inited := cc_inited st; callwheelmask := v;
     co := co st; ticks := ticks st; fired := fired st |}.

Definition exec_zero : cc_exec :=
  {| cc_curr := None; cc_drain := None; cc_cancel := false; cc_waiting := false |}.

(** The memory of the program before the start: [cc_cpu] and [ticks] are zero. *)
Definition state_zero (mem : gmap ptr callout) : state :=
  {| cc_exec0 := exec_zero; cc_exec1 := exec_zero; cc_next := None; cc_callwheel := [];
     cc_expireq := []; cc_callfree := []; cc_softticks := 0; cc_bucket := 0;
     cc_inited := false; callwheelmask := 0; co := mem; ticks := 0; fired := [] |}.

(** [memset(CC_CPU(0), 0, sizeof(cc_cpu));]: [ticks] is a variable of its own. *)
Definition memset_cc_cpu (st : state) : state :=
  {| cc_exec0 := exec_zero; cc_exec1 := exec_zero; cc_next := None; cc_callwheel := [];
     cc_expireq := []; cc_callfree := []; cc_softticks := 0; cc_bucket := 0;
     cc_inited := false; callwheelmask := callwheelmask st; co := co st; ticks := ticks st;
     fired := fired st |}.

Definition iflags_local : iflags :=
  {| CALLOUT_LOCAL_ALLOC := true; CALLOUT_PENDING := false; CALLOUT_RETURNUNLOCKED := false;
     CALLOUT_SHAREDLOCK := false; CALLOUT_DFRMIGRATION := false; CALLOUT_PROCESSED := false;
     CALLOUT_DIRECT := false |}.

(** The loop of [callout_cpu_init] over [cc_callout]. *)
Definition callout_cpu_free (cpu : Z) (c : ptr) (st : state) : state :=
  let st := callout_init cpu c false st in
  let st := co_put c (with_iflags iflags_local (co_get st c)) st in
  set_callfree (c :: cc_callfree st) st.

Definition callout_cpu_init (callwheelsize cpu : Z) (cc_callout : option (list ptr))
    (st : state) : state :=
  let st := set_callfree [] st in
  let st := set_inited true st in
  let st := set_callwheel (replicate (Z.to_nat callwheelsize) []) st in
  let st := set_expireq [] st in
  let st := cc_cce_cleanup true (cc_cce_cleanup false st) in
  match cc_callout with
  | None => st
  | Some l => foldl (fun st c => callout_cpu_free cpu c st) st l
  end.

Section Start.
  (** [fls] of [libkern.h]; [maxproc], [maxfiles] and the cpu of [PCPU_GET]. *)
  Context (fls : Z -> Z) (maxproc maxfiles cpuid : Z).

(** [kern_ncallout]: the value of the tunable ["kern.ncallout"], if set;
    [malloc_callouts] gives the addresses of the elements of [cc_callout]. *)
Definition ncallout (kern_ncallout : option Z) : Z :=
  default (Z.min (i32 (16 + maxproc + maxfiles)) 18508) kern_ncallout.

Definition callwheelsize (kern_ncallout : option Z) : Z :=
  u32 (Z.shiftl 1 (fls (ncallout kern_ncallout))).

Definition callout_callwheel_init (kern_ncallout : option Z) (malloc_callouts : nat -> ptr)
    (st : state) : state :=
  let st := memset_cc_cpu st in
  let size := callwheelsize kern_ncallout in
  let st := set_mask (u32 (size - 1)) st in
  callout_cpu_init size cpuid
    (Some (malloc_callouts <$> seq 0 (Z.to_nat (ncallout kern_ncallout)))) st.
End Start.

(** [callout_reset_on] is the macro of [sys/callout.h]. *)
Definition callout_schedule_on {A} (callout_reset_on : ptr -> Z -> option fn -> Z -> Z -> A)
    (c : ptr) (to_ticks cpu : Z) (st : state) : A :=
  callout_reset_on c to_ticks (c_func (co_get st c)) (c_arg (co_get st c)) cpu.

Definition callout_schedule {A} (callout_reset_on : ptr -> Z -> option fn -> Z -> Z -> A)
    (c : ptr) (to_ticks : Z) (st : state) : A :=
  callout_reset_on c to_ticks (c_func (co_get st c)) (c_arg (co_get st c))
    (c_cpu (co_get st c)).

(** ** Statistics

    The accumulators of [sysctl_kern_callout_stat]; the histograms as counts per
    index. *)
Record stat : Type := {
  s_count : Z; s_maxc : Z; s_st : Z; s_maxt : Z; s_ct : gmap Z Z; s_ccpbk : gmap Z Z
}.
Definition stat0 : stat :=
  {| s_count := 0; s_maxc := 0; s_st := 0; s_maxt := 0; s_ct := ∅; s_ccpbk := ∅ |}.

(** [h[i]++] and [h[i]]. *)
Definition bump (i : Z) (h : gmap Z Z) : gmap Z Z := <[i := default 0 (h !! i) + 1]> h.
Definition hist (h : gmap Z Z) (i : Z) : Z := default 0 (h !! i).

Section Stat.
  (** [fls] and [flsl] of [libkern.h]; the tick rate. *)
  Context (fls flsl : Z -> Z) (hz : Z).

(** [sizeof(long) >= sizeof(sbintime_t)] on the 64-bit targets of the stack. *)
Definition flssbt (sbt : Z) : Z := flsl (i64 (sbt + Z.shiftr (u64 sbt) 1)).

Definition stat_callout (now time : Z) (s : stat) : stat :=
  let tick := i32 (time - now) in
  let tick := if tick <? 0 then 0 else tick in
  {| s_count := s_count s; s_maxc := s_maxc s;
     s_st := i32 (s_st s + i32 (tick * (1000 `quot` hz)));
     s_maxt := if s_maxt s <? tick then tick else s_maxt s;
     s_ct := bump (flssbt tick) (s_ct s); s_ccpbk := s_ccpbk s |}.

Definition stat_bucket (st : state) (s : stat) (sc : list ptr) : stat :=
  let s := foldl (fun s c => stat_callout (ticks st) (c_time (co_get st c)) s) s sc in
  let c := Z.of_nat (length sc) in
  {| s_count := s_count s + c; s_maxc := if s_maxc s <? c then c else s_maxc s;
     s_st := s_st s; s_maxt := s_maxt s; s_ct := s_ct s;
     s_ccpbk := bump (fls (c + c `quot` 2)) (s_ccpbk s) |}.

Definition stat_wheel (st : state) : stat := foldl (stat_bucket st) stat0 (cc_callwheel st).

(** [for (i = 0, t = 0; i < n && t < half; i++) t += h[i];] *)
Fixpoint stat_median (n : nat) (h : gmap Z Z) (half i t : Z) : Z :=
  match n with
  | O => i
  | S n => if t <? half then stat_median n h half (i + 1) (t + hist h i) else i
  end.

(** The figures printed: [None] of the average time is not printable. *)
Record report : Type := {
  r_count : Z; r_medc : Z; r_medt : Z; r_avg_ms : Z; r_maxt : Z; r_maxc : Z;
  r_lines : list (Z * Z * Z)
}.

Fixpoint stat_lines (n : nat) (i tcum : Z) (ct : gmap Z Z) : list (Z * Z * Z) :=
  match n with
  | O => []
  | S n => if hist ct i =? 0 then stat_lines n (i + 1) tcum ct
           else (i, hist ct i, tcum + hist ct i) :: stat_lines n (i + 1) (tcum + hist ct i) ct
  end.

(** [error] and [newptr] come from [sysctl_handle_int]: nothing is reported
    unless the variable is written.  [st / count] traps when [count] is 0. *)
Definition sysctl_kern_callout_stat (error : Z) (newptr : bool) (st : state)
    : outcome (Z * option report) :=
  if negb (error =? 0) || negb newptr then Ok (error, None) else
  let s := stat_wheel st in
  let half := s_count s `quot` 2 in
  let i := stat_median 64 (s_ct s) half 0 0 in
  let medt := if 2 <=? i then Z.shiftl 1 (i - 2) else 0 in
  let j := stat_median 32 (s_ccpbk s) half 0 0 in
  let medc := if 2 <=? j then Z.shiftl 1 (j - 2) else 0 in
  if s_count s =? 0 then Panic else
  Ok (error, Some {| r_count := s_count s; r_medc := medc; r_medt := medt;
       r_avg_ms := s_st s `quot` s_count s; r_maxt := s_maxt s; r_maxc := s_maxc s;
       r_lines := stat_lines 64 0 0 (s_ct s) |}).
End Stat.

(** ** The wheel at the start *)

(** Before the start [ticks], a static, is zero, and no callout has run. *)
Definition starting (st : state) : Prop := ticks st = 0 /\ fired st = [].

Lemma memset_starting v st : starting st -> set_mask v (memset_cc_cpu st) = set_mask v (state_zero (co st)).
Proof. intros [Ht Hf]. unfold set_mask, memset_cc_cpu. cbn. by rewrite Ht, Hf. Qed.

(** The documented value of [fls]: the index of the last bit set, from 1. *)
Definition fls_spec (fls : Z -> Z) : Prop :=
  fls 0 = 0 /\ forall n, 0 < n < 2 ^ 31 -> fls n = Z.log2 n + 1.

Lemma rest_evolves st st' : rest st -> evolves st st' ->
  cc_curr (cc_exec1 st') = cc_curr (cc_exec1 st) -> rest st'.
Proof.
  intros [W S T C F] [W' [Ft Fs Fm Fb Fi Ff] Ti _ _] Hc.
  constructor; [done|congruence| |by rewrite Hc|by rewrite Ff].
  rewrite Ft. apply Ti; [|done]. unfold lag. by rewrite dist_same.
Qed.

Lemma rest_set_callfree l st : rest st -> rest (set_callfree l st).
Proof. intros [[] ? ? ? ?]. by constructor. Qed.

(** Nothing is armed, and the wheel is at rest. *)
Definition idle (st : state) : Prop := rest st /\ forall c, pending st c = false.

Lemma callout_cpu_free_idle cpu c st : idle st -> idle (callout_cpu_free cpu c st).
Proof.
  intros [R Hp]. unfold callout_cpu_free. set (st1 := callout_init cpu c false st).
  assert (forall k st0, idle st0 -> CALLOUT_PENDING (c_iflags k) = false ->
    CALLOUT_DFRMIGRATION (c_iflags k) = false -> CALLOUT_PROCESSED (c_iflags k) = false ->
    idle (co_put c k st0)) as Hput.
  { intros k st0 [R0 Hp0] H1 H2 H3. split.
    - apply (rest_evolves st0); [done| |done].
      apply init_evolves; [apply R0|done| |done..]. by rewrite (rs_curr _ R0).
    - intros c'. unfold pending. rewrite co_get_put. case_decide; [done|apply Hp0]. }
  assert (idle st1) as I1 by (by apply Hput).
  destruct (Hput (with_iflags iflags_local (co_get st1 c)) st1) as [R2 Hp2]; try done.
  split; [by apply rest_set_callfree|done].
Qed.

(** The callouts of the program's memory have never been armed. *)
Definition unarmed (mem : gmap ptr callout) : Prop :=
  forall c k, mem !! c = Some k -> c_iflags k = iflags0.

Lemma callout_cpu_init_idle cpu k l mem : 0 <= k <= 31 -> unarmed mem ->
  idle (callout_cpu_init (2 ^ k) cpu l (set_mask (2 ^ k - 1) (state_zero mem))).
Proof.
  intros Hk Hmem. unfold callout_cpu_init. set (st := cc_cce_cleanup true _).
  assert (forall c, c_iflags (co_get st c) = iflags0) as Hfl.
  { intros c. unfold co_get. simpl. destruct (mem !! c) as [x|] eqn:Hx; [by apply (Hmem c)|done]. }
  assert (forall c, pending st c = false) as Hp by (intros c; unfold pending; by rewrite Hfl).
  assert (idle st) as I.
  { split; [|done]. constructor; [|done| |done|constructor].
    - constructor.
      + exists k. split_and!; [lia|lia|done|]. simpl. rewrite length_replicate. lia.
      + simpl. intros i l' Hl. apply lookup_replicate in Hl as [-> _].
        split; [constructor|]. intros c. rewrite Hp. set_solver.
      + intros c. by rewrite Hp.
      + intros c. by rewrite Hfl.
      + done.
      + done.
      + done.
    - intros c. by rewrite Hp. }
  destruct l as [l|]; [|done]. clearbody st. clear Hfl Hp. revert st I.
  induction l as [|c l IH]; intros st I; [done|]. simpl. by apply IH, callout_cpu_free_idle.
Qed.

(** The number of buckets: the next power of two above the number of callouts. *)
Lemma next_pow2 fls n : fls_spec fls -> 1 <= n < 2 ^ 30 ->
  1 <= fls n <= 30 /\ n < 2 ^ fls n <= 2 * n.
Proof.
  intros [_ Hf] Hn. rewrite Hf by lia.
  pose proof (Z.log2_spec n). pose proof (Z.log2_nonneg n).
  assert (Z.log2 n < 30) by (apply Z.log2_lt_pow2; lia).
  rewrite Z.pow_add_r by lia. rewrite Z.pow_succ_r in H by lia. lia.
Qed.

(** What the preallocation does not change, and the free list it builds. *)
Lemma callout_cpu_free_fields cpu l : forall st,
  let st' := foldl (fun st c => callout_cpu_free cpu c st) st l in
  cc_callwheel st' = cc_callwheel st /\ callwheelmask st' = callwheelmask st /\
  cc_callfree st' = reverse l ++ cc_callfree st.
Proof.
  induction l as [|c l IH]; intros st; [done|].
  destruct (IH (callout_cpu_free cpu c st)) as (H1 & H2 & H3). simpl. rewrite H1, H2, H3.
  split_and!; [done..|]. by rewrite reverse_cons, <- app_assoc.
Qed.

(** The size fits, and the mask is one less. *)
Lemma callwheelsize_pow2 fls maxproc maxfiles kern_ncallout n :
  fls_spec fls -> ncallout maxproc maxfiles kern_ncallout = n -> 1 <= n < 2 ^ 30 ->
  callwheelsize fls maxproc maxfiles kern_ncallout = 2 ^ fls n /\
  u32 (2 ^ fls n - 1) = 2 ^ fls n - 1.
Proof.
  intros Hfls Hn Hr. destruct (next_pow2 fls n Hfls Hr) as [Hk Hp].
  pose proof (Z.pow_le_mono_r 2 (fls n) 30). change (2 ^ 30) with 1073741824 in *.
  unfold callwheelsize. rewrite Hn, Z.shiftl_1_l.
  split; apply u32_id; unfold in_u32; lia.
Qed.

Lemma callwheel_boot_idle fls maxproc maxfiles cpuid kern_ncallout malloc_callouts st n :
  fls_spec fls -> ncallout maxproc maxfiles kern_ncallout = n -> 1 <= n < 2 ^ 30 ->
  unarmed (co st) -> starting st ->
  idle (callout_callwheel_init fls maxproc maxfiles cpuid kern_ncallout malloc_callouts st).
Proof.
  intros Hfls Hn Hr Hmem Hst. unfold callout_callwheel_init. rewrite (memset_starting _ _ Hst).
  destruct (callwheelsize_pow2 fls _ _ _ n Hfls Hn Hr) as [-> ->].
  destruct (next_pow2 fls n Hfls Hr) as [Hk _]. by apply callout_cpu_init_idle; [lia|].
Qed.

(** At its start the wheel is well formed and empty, at rest with the clock,
    and its size is the power of two that [callout_callwheel_init] announces: the
    next one above [ncallout], with the mask that selects a bucket. *)
Theorem callwheel_init_idle fls maxproc maxfiles cpuid kern_ncallout malloc_callouts st n :
  fls_spec fls -> ncallout maxproc maxfiles kern_ncallout = n -> 1 <= n < 2 ^ 30 ->
  unarmed (co st) -> starting st ->
  let st' := callout_callwheel_init fls maxproc maxfiles cpuid kern_ncallout malloc_callouts st in
  let size := callwheelsize fls maxproc maxfiles kern_ncallout in
  idle st' /\ n < size <= 2 * n /\ (exists k, size = 2 ^ k) /\
  Z.of_nat (length (cc_callwheel st')) = size /\ callwheelmask st' = size - 1 /\
  length (cc_callfree st') = Z.to_nat n.
Proof.
  intros Hfls Hn Hr Hmem Hst st' size.
  destruct (next_pow2 fls n Hfls Hr) as [Hk Hp].
  destruct (callwheelsize_pow2 fls _ _ _ n Hfls Hn Hr) as [Hsize Hmask].
  fold size in Hsize. rewrite <- Hsize in Hmask.
  assert (idle st') as I by (by eapply callwheel_boot_idle).
  destruct (callout_cpu_free_fields cpuid (malloc_callouts <$> seq 0 (Z.to_nat n))
    (cc_cce_cleanup true (cc_cce_cleanup false (set_expireq []
      (set_callwheel (replicate (Z.to_nat size) []) (set_inited true (set_callfree []
        (set_mask (size - 1) (state_zero (co st)))))))))) as (Hw & Hm & Hf).
  assert (st' = foldl (fun st c => callout_cpu_free cpuid c st)
    (cc_cce_cleanup true (cc_cce_cleanup false (set_expireq []
      (set_callwheel (replicate (Z.to_nat size) []) (set_inited true (set_callfree []
        (set_mask (size - 1) (state_zero (co st)))))))))
    (malloc_callouts <$> seq 0 (Z.to_nat n))) as Heq.
  { subst st'. unfold callout_callwheel_init. fold size. by rewrite (memset_starting _ _ Hst), Hmask, Hn. }
  rewrite Heq in *. rewrite Hw, Hm, Hf. split_and!; [done|lia|lia|by exists (fls n)| |done|].
  - simpl. rewrite length_replicate, Hsize. lia.
  - simpl. by rewrite length_app, length_reverse, length_fmap, length_seq, Nat.add_0_r.
Qed.

(** [fls] as [libkern] computes it. *)
Definition fls_log2 (n : Z) : Z := if n <=? 0 then 0 else Z.log2 n + 1.
Lemma fls_log2_spec : fls_spec fls_log2.
Proof.
  split; [done|]. intros n Hn. unfold fls_log2.
  by rewrite (proj2 (Z.leb_gt n 0)) by lia.
Qed.

(** The wheel of the witnesses: 5 callouts requested, 8 buckets. *)
Definition boot : state := callout_callwheel_init fls_log2 100 100 0 (Some 5)
  (fun i => Pos.of_succ_nat (100 + i)) (state_zero ∅).

Lemma callwheel_init_idle_witness : callwheelsize fls_log2 100 100 (Some 5) = 8 /\ idle boot.
Proof.
  split; [reflexivity|].
  apply (callwheel_init_idle fls_log2 100 100 0 (Some 5)
    (fun i => Pos.of_succ_nat (100 + i)) (state_zero ∅) 5);
    [apply fls_log2_spec|reflexivity|lia|intros c k Hk; discriminate Hk|done].
Defined.

(** ** What a client can rely on *)

Section Client.
  Context (MAXCPU : Z).
  Context (handler : fn -> Z -> state -> list api_call).
  Context (fls : Z -> Z).

(** The states the program reaches: from the start of the wheel, by the calls of
    the interface that follow its rules, and by the ticks of the clock.  Nothing else
    writes [ticks]: the value that [init_param1] of FreeBSD may give it, which
    [proc0_init] of [lazybsd_main.c] calls, is not a step. *)
Inductive reachable : state -> Prop :=
| reachable_boot maxproc maxfiles cpuid kern_ncallout malloc_callouts st n :
    ncallout maxproc maxfiles kern_ncallout = n -> 1 <= n < 2 ^ 30 -> unarmed (co st) ->
    starting st ->
    reachable (callout_callwheel_init fls maxproc maxfiles cpuid kern_ncallout malloc_callouts st)
| reachable_api a st st' :
    reachable st -> api_ok MAXCPU a st -> api_step MAXCPU a st = Ok st' -> reachable st'
| reachable_tick st st' :
    reachable st -> returns (fun n => lazybsd_hardclock MAXCPU handler n st) st' ->
    reachable st'.

(** [k] ticks of the clock, with no call of the interface in between but those
    of the callout functions. *)
Inductive hardclocks : nat -> state -> state -> Prop :=
| hardclocks_0 st : hardclocks 0 st st
| hardclocks_S k st st1 st2 :
    returns (fun n => lazybsd_hardclock MAXCPU handler n st) st1 ->
    hardclocks k st1 st2 -> hardclocks (S k) st st2.

  Context (fls_ok : fls_spec fls).
  Context (handler_ok : forall f arg st, wf st -> calls_ok MAXCPU (handler f arg st) st).

Lemma hardclock_spec st st' : rest st ->
  returns (fun n => lazybsd_hardclock MAXCPU handler n st) st' -> clock_spec handler st st'.
Proof.
  intros R Hret. destruct (hardclock_ok MAXCPU handler handler_ok st R) as (s & Hs & Hc).
  by rewrite (returns_inj _ _ _ Hret Hs).
Qed.

Lemma reachable_rest st : reachable st -> rest st.
Proof.
  induction 1 as [? ? ? ? ? ? n Hn Hr Hm|a st st' _ IH Hok Hst|st st' _ IH Hret].
  - by eapply callwheel_boot_idle.
  - by eapply rest_api.
  - by apply (hardclock_spec st st' IH Hret).
Qed.

(** The calls of [c] in the log. *)
Definition firings_of (c : ptr) (st : state) : list firing :=
  filter (fun f => f_callout f = c) (fired st).

Lemma hardclock_log st st' c : clock_spec handler st st' -> avoids handler c ->
  (pending st c && (c_time (co_get st c) =? ticks st) = true ->
     firings_of c st' = firing_of (ticked st) c :: firings_of c st /\ pending st' c = false) /\
  (pending st c && (c_time (co_get st c) =? ticks st) = false ->
     firings_of c st' = firings_of c st /\ co_get st' c = co_get st c).
Proof.
  intros [_ _ _ _ (new & Hn & Hl)] Hav. destruct (Hl c Hav) as [L C].
  unfold firings_of. rewrite Hn, filter_app, L. change (co_get (ticked st) c) with (co_get st c) in C.
  split; intros Hb; rewrite Hb in *; [|done].
  split; [done|]. by apply (done_not_pending _ _ (co_get st c)).
Qed.

(** A callout that is not pending is not called. *)
Lemma hardclocks_idle k st st' c : rest st -> avoids handler c -> pending st c = false ->
  hardclocks k st st' -> firings_of c st' = firings_of c st /\ pending st' c = false.
Proof.
  intros R Hav Hp H. induction H as [|k st st1 st2 Hret _ IH]; [done|].
  pose proof (hardclock_spec st st1 R Hret) as CS.
  destruct (hardclock_log st st1 c CS Hav) as [_ Hno].
  rewrite Hp in Hno. destruct Hno as [Hf Hc]; [done|].
  destruct IH as [Hf2 Hp2]; [apply CS| |].
  - unfold pending. by rewrite Hc.
  - by rewrite Hf2.
Qed.

(** A pending callout is called by the tick that follows its time, and not again. *)
Lemma hardclocks_fires k st st' c : rest st -> avoids handler c -> pending st c = true ->
  hardclocks k st st' ->
  let d := u32 (c_time (co_get st c) - ticks st) in
  firings_of c st' =
    (if Z.of_nat k <=? d then []
     else [{| f_callout := c; f_func := default 1%positive (c_func (co_get st c));
              f_arg := c_arg (co_get st c); f_due := c_time (co_get st c);
              f_ticks := i32 (c_time (co_get st c) + 1) |}]) ++ firings_of c st /\
  pending st' c = (Z.of_nat k <=? d).
Proof.
  intros R Hav Hp H. induction H as [st|k st st1 st2 Hret H IH]; intros d.
  - pose proof (rest_dist st c R Hp). rewrite (proj2 (Z.leb_le _ _)) by (subst d; simpl; lia). done.
  - pose proof (hardclock_spec st st1 R Hret) as CS.
    destruct (hardclock_log st st1 c CS Hav) as [Hyes Hno]. rewrite Hp in *. cbn [andb] in *.
    destruct (Z.eqb_spec (c_time (co_get st c)) (ticks st)) as [Hd|Hd].
    + destruct Hyes as [Hf Hp1]; [done|].
      destruct (hardclocks_idle k st1 st2 c) as [Hf2 Hp2]; [apply CS|done..|].
      assert (d = 0) as -> by (subst d; by rewrite Hd, dist_same).
      rewrite Hf2, Hf, Hp2. rewrite (proj2 (Z.leb_gt _ _)) by lia. split; [|done].
      unfold firing_of. simpl. by rewrite <- Hd.
    + destruct Hno as [Hf Hc]; [done|].
      assert (u32 (c_time (co_get st c) - ticks st) <> 0) as Hne.
      { intros Hz. apply Hd, dist_zero; [apply armed_time, wf_armed; [apply R|done]|apply R|done]. }
      destruct IH as [Hf2 Hp2]; [apply CS|unfold pending; by rewrite Hc|].
      rewrite Hc, (cl_ticks _ _ _ CS), dist_succ in Hf2 by done.
      rewrite Hc, (cl_ticks _ _ _ CS), dist_succ in Hp2 by done.
      fold d in Hf2, Hp2. rewrite Hf2, Hp2, Hf.
      replace (Z.of_nat k <=? d - 1) with (Z.of_nat (S k) <=? d); [done|].
      destruct (Z.leb_spec (Z.of_nat (S k)) d), (Z.leb_spec (Z.of_nat k) (d - 1)); lia.
Qed.

(** C1. In every state the program reaches the wheel is well formed, no pending
    callout has been missed (each is due between now and [INT_MAX] ticks from
    now), the clock has caught up, and every callout function called so far was
    called exactly one tick after the time its callout was armed for. *)
Theorem no_callout_missed st : reachable st ->
  wf st /\ cc_softticks st = ticks st /\
  (forall c, pending st c = true -> 0 <= u32 (c_time (co_get st c) - ticks st) <= INT_MAX) /\
  (forall f, f ∈ fired st -> f_ticks f = i32 (f_due f + 1)).
Proof.
  intros R%reachable_rest. split_and!; [apply R|apply R| |].
  - intros c. by apply rest_dist.
  - intros f Hf. pose proof (rs_fired st R) as HF. rewrite Forall_forall in HF. by apply HF.
Qed.

(** C5. A tick of the clock always returns: the inner loop of [softclock] over a
    bucket ends although the callout functions arm and stop callouts, its outer
    loop and the loop of [callout_tick] reach [ticks]. *)
Theorem hardclock_returns st : reachable st ->
  exists st', returns (fun n => lazybsd_hardclock MAXCPU handler n st) st' /\
    reachable st' /\ ticks st' = i32 (ticks st + 1).
Proof.
  intros R. pose proof (reachable_rest st R) as Hr.
  destruct (hardclock_ok MAXCPU handler handler_ok st Hr) as (st' & Hret & CS).
  exists st'. split; [done|]. split; [by eapply reachable_tick|apply CS].
Qed.

(** C7. [callout_reset_tick_on] tells whether the callout was pending and replaces
    its deadline; then, as long as nobody else touches the callout, it is called
    once, with the function and argument given, by the tick after the [to_ticks]-th
    ([to_ticks] at least 1), and never again. *)
Theorem callout_reset_fires_once st c n f arg cpu d : reachable st ->
  api_ok MAXCPU (ApiReset c n (Some f) arg cpu d) st -> avoids handler c ->
  exists st1, callout_reset_tick_on MAXCPU c n (Some f) arg cpu d st =
      Ok (b2z (pending st c), st1) /\
    forall k st2, hardclocks k st1 st2 ->
      let due := i32 (ticks st + Z.max 1 n) in
      firings_of c st2 =
        (if Z.of_nat k <=? Z.max 1 n then []
         else [{| f_callout := c; f_func := f; f_arg := arg; f_due := due;
                  f_ticks := i32 (due + 1) |}]) ++ firings_of c st /\
      pending st2 c = (Z.of_nat k <=? Z.max 1 n).
Proof.
  intros R Hok Hav. pose proof (reachable_rest st R) as Hr.
  destruct (reset_spec MAXCPU st c n (Some f) arg cpu d) as (st1 & Hst1 & E & Hp & Ht & Hf & Ha & _);
    [apply Hr|done|].
  exists st1. split; [done|]. intros k st2 H due.
  assert (rest st1) as R1.
  { apply (rest_api MAXCPU (ApiReset c n (Some f) arg cpu d) st); [done..|]. simpl. by rewrite Hst1. }
  destruct (hardclocks_fires k st1 st2 c R1 Hav Hp H) as [Hlog Hpend].
  destruct E as [_ [Ft _ _ _ _ Ff] _ _ _]. rewrite Ht, Ft, Hf, Ha in *.
  assert (u32 (i32 (ticks st + Z.max 1 n) - ticks st) = Z.max 1 n) as Hd.
  { destruct Hok as (_ & Hn & _). rewrite future_dist; rewrite ?dist_same; unfold INT_MAX in *; lia. }
  rewrite Hd in *. split; [|done]. rewrite Hlog. unfold firings_of. by rewrite Ff.
Qed.

(** C27. [_callout_stop_safe] returns 1 for a pending callout and -1 for one that is
    not pending; afterwards the callout is not called however long the clock
    runs, and no other callout has changed. *)
Theorem callout_stop_never_fires st c CS_EXECUTING drain : reachable st -> avoids handler c ->
  exists st1, _callout_stop_safe c false CS_EXECUTING drain st =
      Ok (if pending st c then 1 else -1, st1) /\
    (forall c', c' <> c -> co_get st1 c' = co_get st c') /\
    forall k st2, hardclocks k st1 st2 -> firings_of c st2 = firings_of c st.
Proof.
  intros R Hav. pose proof (reachable_rest st R) as Hr.
  destruct (stop_spec MAXCPU st c false CS_EXECUTING drain) as (st1 & Hst1 & E & Hp & Ho);
    [apply Hr|done|].
  assert (seen_running st c = false) as Hs.
  { unfold seen_running. rewrite (rs_curr st Hr). simpl. apply andb_false_r. }
  rewrite Hs in Hst1. exists st1. split; [done|]. split; [done|]. intros k st2 H.
  assert (rest st1) as R1.
  { apply (rest_api MAXCPU (ApiStop c false CS_EXECUTING drain) st); [done..|]. simpl. by rewrite Hst1. }
  destruct (hardclocks_idle k st1 st2 c R1 Hav Hp H) as [Hlog _]. rewrite Hlog.
  unfold firings_of. by rewrite (fr_fired _ _ (ev_frame _ _ E)).
Qed.
End Client.

(** [softclock_call_cc] is running [c]. *)
Definition executing (st : state) (c : ptr) : bool := is_ptr (cc_curr (cc_exec1 st)) c.

(** A callout function that stops its own callout: for a callout armed without
    [C_DIRECT_EXEC], [_callout_stop_safe] answers -1, the value meant for a callout
    that is neither scheduled nor executing, although [cc_curr] is the callout:
    [softclock] runs it in the direct entity and the stop looks at the other
    one.  A callout armed with [C_DIRECT_EXEC] is seen: 1 if [CS_EXECUTING]. *)
Theorem callout_stop_executing MAXCPU st c CS_EXECUTING drain :
  wf st -> executing st c = true -> pending st c = false ->
  api_ok MAXCPU (ApiStop c false CS_EXECUTING drain) st ->
  exists st1, _callout_stop_safe c false CS_EXECUTING drain st =
    Ok (if CALLOUT_DIRECT (c_iflags (co_get st c)) then b2z CS_EXECUTING else -1, st1).
Proof.
  intros Hwf Hc Hp Hok.
  destruct (stop_spec MAXCPU st c false CS_EXECUTING drain) as (st1 & Hst1 & _); [done..|].
  exists st1. rewrite Hst1, Hp. unfold seen_running. unfold executing in Hc.
  by rewrite Hc, andb_true_r.
Qed.

(** *** Witnesses: callout 7 is armed for 3 ticks; callout 9 is periodic. *)

(** A callout function that arms callout 9 again, 2 ticks later. *)
Definition periodic (f : fn) (arg : Z) (st : state) : list api_call :=
  let k := co_get st 9%positive in
  if negb (CALLOUT_LOCAL_ALLOC (c_iflags k)) && lock_nonnull (c_lock k)
  then [ApiReset 9 2 (Some f) arg (-1) false] else [].

Lemma periodic_ok f arg st : wf st -> calls_ok 64 (periodic f arg st) st.
Proof.
  intros _. unfold periodic.
  destruct (CALLOUT_LOCAL_ALLOC _) eqn:Hl; simpl; [done|].
  destruct (lock_nonnull _) eqn:Hn; simpl; [|done].
  split; [|done]. split; [by left|]. split; [done|]. split; [by eexists|]. split; [done|].
  left. by apply lock_nonnull_true.
Qed.

Lemma periodic_avoids c : c <> 9%positive -> avoids periodic c.
Proof.
  intros Hc f arg st. unfold periodic. destruct (_ && _); constructor; [|constructor].
  simpl. congruence.
Qed.

(** Callouts 7 and 9 are initialised, 9 is armed. *)
Definition demo_calls : list api_call :=
  [ApiInitLock 7 (Lock 1) false false; ApiInit 9 false; ApiReset 9 2 (Some 5%positive) 0 (-1) false].
Definition demo : state :=
  match run_calls 64 demo_calls boot with Ok st => st | _ => boot end.

Lemma demo_reachable : reachable 64 periodic fls_log2 demo.
Proof.
  assert (reachable 64 periodic fls_log2 boot) as R0.
  { eapply (reachable_boot _ _ _ 100 100 0 (Some 5) _ (state_zero ∅) 5);
      [reflexivity|lia|intros c k Hk; discriminate Hk|done]. }
  assert (exists s1, api_step 64 (ApiInitLock 7 (Lock 1) false false) boot = Ok s1 /\
    exists s2, api_step 64 (ApiInit 9 false) s1 = Ok s2 /\
    api_step 64 (ApiReset 9 2 (Some 5%positive) 0 (-1) false) s2 = Ok demo /\
    pending s1 9 = false /\ cc_curr (cc_exec1 s1) = None /\
    c_lock (co_get s2 9) = Giant /\ CALLOUT_LOCAL_ALLOC (c_iflags (co_get s2 9)) = false)
    as (s1 & H1 & s2 & H2 & H3 & Hp & Hc & Hl & Hf).
  { eexists. split; [reflexivity|]. eexists. split; [reflexivity|]. by vm_compute. }
  eapply reachable_api; [|shelve|exact H3].
  Unshelve.
  - eapply reachable_api; [|shelve|exact H2].
    Unshelve.
    + eapply reachable_api; [exact R0| |exact H1]. split; by vm_compute.
    + split; [done|]. by rewrite Hc.
  - split; [by left|]. split; [done|]. split; [by eexists|]. split; [done|].
    left. by rewrite Hl.
Qed.

Lemma demo_reset_ok : api_ok 64 (ApiReset 7 3 (Some 4%positive) 11 (-1) false) demo.
Proof.
  split; [by left|]. split; [done|]. split; [by eexists|]. split; [by vm_compute|].
  left. by vm_compute.
Qed.

Lemma no_callout_missed_witness : pending demo 9 = true /\ wf demo.
Proof.
  split; [by vm_compute|].
  apply (no_callout_missed 64 periodic fls_log2 fls_log2_spec periodic_ok demo demo_reachable).
Defined.

Lemma hardclock_returns_witness : exists st',
  returns (fun n => lazybsd_hardclock 64 periodic n demo) st' /\ ticks st' = 1.
Proof.
  destruct (hardclock_returns 64 periodic fls_log2 fls_log2_spec periodic_ok demo demo_reachable)
    as (st' & Hret & _ & Ht).
  exists st'. split; [exact Hret|exact Ht].
Defined.

Lemma callout_reset_fires_once_witness :
  lazybsd_hardclock 64 periodic 9 demo = lazybsd_hardclock 64 periodic 10 demo /\
  exists st1, callout_reset_tick_on 64 7 3 (Some 4%positive) 11 (-1) false demo = Ok (0, st1) /\
    forall st2, hardclocks 64 periodic 4 st1 st2 ->
      firings_of 7 st2 = [{| f_callout := 7; f_func := 4; f_arg := 11; f_due := 3; f_ticks := 4 |}].
Proof.
  split; [by vm_compute|].
  destruct (callout_reset_fires_once 64 periodic fls_log2 fls_log2_spec periodic_ok demo 7 3 4 11
    (-1) false demo_reachable demo_reset_ok (periodic_avoids 7 ltac:(discriminate)))
    as (st1 & Hst1 & Hk).
  exists st1. split; [exact Hst1|]. intros st2 H. exact (proj1 (Hk _ st2 H)).
Defined.

Lemma callout_stop_never_fires_witness :
  exists st1, _callout_stop_safe 7 false false None demo = Ok (-1, st1) /\
    forall k st2, hardclocks 64 periodic k st1 st2 -> firings_of 7 st2 = [].
Proof.
  destruct (callout_stop_never_fires 64 periodic fls_log2 fls_log2_spec periodic_ok demo 7 false
    None demo_reachable (periodic_avoids 7 ltac:(discriminate))) as (st1 & Hst1 & _ & Hk).
  exists st1. split; [exact Hst1|exact Hk].
Defined.

(** Callout 7 is being run by [softclock], with its lock held. *)
Definition demo_exec : cc_exec :=
  {| cc_curr := Some 7%positive; cc_drain := None; cc_cancel := true; cc_waiting := false |}.
Definition demo_running : state := with_exec true (fun _ => demo_exec) demo.

Lemma demo_running_wf : wf demo_running.
Proof.
  apply with_exec_evolves; [|done|done].
  apply (reachable_rest _ _ _ fls_log2_spec periodic_ok _ demo_reachable).
Qed.

Lemma callout_stop_executing_witness :
  exists st1, _callout_stop_safe 7 false true None demo_running = Ok (-1, st1).
Proof.
  apply (callout_stop_executing 64 demo_running 7 true None demo_running_wf);
    [reflexivity|reflexivity|intros H; discriminate H].
Defined.

(** ** The statistics *)

(** The sum of the first [n] entries of a histogram, from [i]. *)
Fixpoint hist_sum (n : nat) (i : Z) (h : gmap Z Z) : Z :=
  match n with O => 0 | S n => hist h i + hist_sum n (i + 1) h end.

Lemma hist_bump i j h : hist (bump i h) j = hist h j + (if decide (i = j) then 1 else 0).
Proof. unfold hist, bump. rewrite lookup_insert. case_decide; [by subst|lia]. Qed.

Lemma hist_sum_bump n i j h :
  hist_sum n i (bump j h) = hist_sum n i h + (if decide (i <= j < i + Z.of_nat n) then 1 else 0).
Proof.
  revert i. induction n as [|n IH]; intros i; cbn [hist_sum]; [rewrite decide_False by lia; lia|].
  rewrite hist_bump, IH. repeat case_decide; lia.
Qed.

Lemma hist_sum_empty n i : hist_sum n i ∅ = 0.
Proof. revert i. induction n as [|n IH]; intros i; simpl; [done|]. by rewrite IH. Qed.

(** The lines of the distribution account for the entries of the histogram. *)
Definition lines_total (l : list (Z * Z * Z)) : Z := foldr (fun x t => x.1.2 + t) 0 l.

Lemma stat_lines_total n i tcum ct : lines_total (stat_lines n i tcum ct) = hist_sum n i ct.
Proof.
  revert i tcum. induction n as [|n IH]; intros i tcum; [done|]. simpl.
  destruct (Z.eqb_spec (hist ct i) 0) as [->|]; simpl; by rewrite IH.
Qed.

Lemma concat_in {A} (l : list (list A)) x : x ∈ concat l <-> exists i k, l !! i = Some k /\ x ∈ k.
Proof.
  rewrite list_elem_of_In, in_concat. split.
  - intros (k & Hk%list_elem_of_In & Hx%list_elem_of_In).
    apply list_elem_of_lookup in Hk as [i Hi]. eauto.
  - intros (i & k & Hi & Hx). exists k. rewrite <- !list_elem_of_In. split; [|done].
    by eapply list_elem_of_lookup_2.
Qed.

Section StatProofs.
  Context (fls flsl : Z -> Z) (hz : Z).
  Context (flsl_ok : flsl 0 = 0 /\ forall n, 0 < n < 2 ^ 63 -> flsl n = Z.log2 n + 1).

Lemma flssbt_range tick : 0 <= tick < 2 ^ 31 -> 0 <= flssbt flsl tick < 64.
Proof.
  intros Ht. destruct flsl_ok as [H0 Hf]. unfold flssbt.
  change (2 ^ 31) with 2147483648 in Ht.
  rewrite u64_id by (unfold in_u64; lia). rewrite Z.shiftr_div_pow2 by lia.
  change (2 ^ 1) with 2. pose proof (Z.div_pos tick 2). pose proof (Z.div_le_upper_bound tick 2 tick).
  rewrite i64_id by (unfold in_i64; lia).
  destruct (Z.eq_dec tick 0) as [->|]; [change (0 + 0 / 2) with 0; rewrite H0; lia|].
  rewrite Hf by lia. pose proof (Z.log2_nonneg (tick + tick / 2)).
  assert (Z.log2 (tick + tick / 2) < 33) by (apply Z.log2_lt_pow2; lia). lia.
Qed.

Lemma stat_callouts_spec now (time : ptr -> Z) l : forall s,
  let s' := foldl (fun s c => stat_callout flsl hz now (time c) s) s l in
  s_count s' = s_count s /\ s_maxc s' = s_maxc s /\
  hist_sum 64 0 (s_ct s') = hist_sum 64 0 (s_ct s) + Z.of_nat (length l).
Proof.
  induction l as [|c l IH]; intros s; cbn [foldl length]; [lia|].
  destruct (IH (stat_callout flsl hz now (time c) s)) as (-> & -> & ->).
  split_and!; [done..|]. cbn [s_ct stat_callout].
  rewrite hist_sum_bump. pose proof (i32_range (time c - now)) as Hr. unfold in_i32 in Hr.
  rewrite decide_True; [lia|]. change (0 + Z.of_nat 64) with 64. apply flssbt_range.
  change (2 ^ 31) with 2147483648.
  destruct (Z.ltb_spec (i32 (time c - now)) 0); lia.
Qed.

Lemma stat_buckets_spec st w : forall s,
  let s' := foldl (stat_bucket fls flsl hz st) s w in
  s_count s' = s_count s + Z.of_nat (length (concat w)) /\
  hist_sum 64 0 (s_ct s') = hist_sum 64 0 (s_ct s) + Z.of_nat (length (concat w)) /\
  s_maxc s <= s_maxc s' /\ forall l, l ∈ w -> Z.of_nat (length l) <= s_maxc s'.
Proof.
  induction w as [|l w IH]; intros s; cbn [foldl concat]; [set_solver by lia|].
  destruct (stat_callouts_spec (ticks st) (fun c => c_time (co_get st c)) l s) as (Hc & Hm & Hh).
  destruct (IH (stat_bucket fls flsl hz st s l)) as (-> & -> & Hm1 & Hm2).
  cbn [stat_bucket s_count s_maxc s_ct] in *. rewrite Hc, Hm, Hh, length_app in *.
  destruct (Z.ltb_spec (s_maxc s) (Z.of_nat (length l))); split_and!; try lia;
    intros l' [->|]%elem_of_cons; auto; lia.
Qed.

(** The callouts of the wheel are the pending ones, each once. *)
Lemma wheel_pending st : wf st ->
  NoDup (concat (cc_callwheel st)) /\ forall c, c ∈ concat (cc_callwheel st) <-> pending st c = true.
Proof.
  intros Hwf. split.
  - assert (forall w n, (forall i l, w !! i = Some l -> cc_callwheel st !! (n + i)%nat = Some l) ->
      NoDup (concat w)) as H.
    { induction w as [|l w IH]; intros n Hw; [constructor|]. cbn [concat].
      apply NoDup_app. split_and!.
      - apply (wf_bucket st Hwf (n + 0)). by apply (Hw O).
      - intros c Hc (i & l' & Hl' & Hc')%concat_in.
        apply (wf_bucket st Hwf (n + 0) l) in Hc as [_ Hb1]; [|by apply (Hw O)].
        apply (wf_bucket st Hwf (n + S i) l') in Hc' as [_ Hb2]; [|by apply Hw]. lia.
      - apply (IH (S n)). intros i l' Hl'. rewrite Nat.add_succ_comm. by apply Hw. }
    by apply (H _ O).
  - intros c. rewrite concat_in. split.
    + intros (i & l & Hl & Hc). by apply (wf_bucket st Hwf i l Hl) in Hc as [? _].
    + intros Hp. eexists _, _. split; [apply (wf_lookup st (c_time (co_get st c)) Hwf)|].
      by apply wf_bucket_in.
Qed.

(** Writing [kern.callout_stat] reports the pending callouts: the count is their
    number, the lines of the distribution add up to it and no bucket is longer
    than the maximum; but with no callout pending, the average [st / count]
    divides by zero. *)
Theorem callout_stat_spec st error newptr : wf st ->
  exists l, NoDup l /\ (forall c, c ∈ l <-> pending st c = true) /\
    match sysctl_kern_callout_stat fls flsl hz error newptr st with
    | Ok (e, None) => e = error /\ (error <> 0 \/ newptr = false)
    | Ok (e, Some r) => error = 0 /\ newptr = true /\ e = 0 /\
        r_count r = Z.of_nat (length l) /\ lines_total (r_lines r) = r_count r /\ l <> [] /\
        forall b, b ∈ cc_callwheel st -> Z.of_nat (length b) <= r_maxc r
    | Panic => error = 0 /\ newptr = true /\ l = []
    | Diverge => False
    end.
Proof.
  intros Hwf. exists (concat (cc_callwheel st)). destruct (wheel_pending st Hwf) as [Hnd Hin].
  split; [done|]. split; [done|]. unfold sysctl_kern_callout_stat.
  destruct (Z.eqb_spec error 0) as [->|]; cbn [negb orb]; [|auto].
  destruct newptr; cbn [negb]; [|auto]. cbv zeta.
  destruct (stat_buckets_spec st (cc_callwheel st) stat0) as (Hc & Hh & _ & Hm).
  fold (stat_wheel fls flsl hz st) in *. change (s_ct stat0) with (∅ : gmap Z Z) in Hh.
  change (s_count stat0) with 0 in Hc. rewrite hist_sum_empty in Hh.
  destruct (Z.eqb_spec (s_count (stat_wheel fls flsl hz st)) 0) as [Hz|Hz].
  - split_and!; [done..|]. apply length_zero_iff_nil. lia.
  - cbn [r_count r_lines r_maxc]. rewrite stat_lines_total, Hc, Hh. split_and!; try done.
    intros Hnil. rewrite Hnil in Hc. change (length []) with O in Hc. lia.
Qed.
End StatProofs.

Lemma flsl_log2_spec : fls_log2 0 = 0 /\ forall n, 0 < n < 2 ^ 63 -> fls_log2 n = Z.log2 n + 1.
Proof.
  split; [done|]. intros n Hn. unfold fls_log2. by rewrite (proj2 (Z.leb_gt n 0)) by lia.
Qed.

Lemma callout_stat_spec_witness :
  sysctl_kern_callout_stat fls_log2 fls_log2 100 0 true demo =
    Ok (0, Some {| r_count := 1; r_medc := 0; r_medt := 0; r_avg_ms := 20; r_maxt := 2;
                   r_maxc := 1; r_lines := [(2, 1, 1)] |}) /\
  exists l, NoDup l /\ forall c, c ∈ l <-> pending demo c = true.
Proof.
  split; [by vm_compute|].
  destruct (callout_stat_spec fls_log2 fls_log2 100
    flsl_log2_spec demo 0 true) as (l & Hnd & Hl & _).
  { apply (reachable_rest _ _ _ fls_log2_spec periodic_ok _ demo_reachable). }
  exists l. split; assumption.
Defined.
