(* ===== verification/Timeval.v ===== *)
(** * Timeval: the time arithmetic of [bsd/lib/lazybsd_patch.c]

    Interval timers ([itimerfix], [itimerdecr]), the sums and differences of
    [struct timeval], the two rate limiters and the conversion to clock ticks.
    [long] has 64 bits; its arithmetic wraps. *)
From S2P Require Import Prelude Errno.

(** ** Data and operations *)

Record timeval : Type := { tv_sec : Z; tv_usec : Z }.
Record itimerval : Type := { it_interval : timeval; it_value : timeval }.

(** [tick]: the microseconds of a clock tick, an [int]. *)
Definition itimerfix (tick : Z) (tv : timeval) : Z * timeval :=
  if (tv_sec tv <? 0) || (tv_usec tv <? 0) || (1000000 <=? tv_usec tv) then (LAZYBSD_EINVAL, tv) else
  if (tv_sec tv =? 0) && negb (tv_usec tv =? 0) && (tv_usec tv <? tick)
  then (0, {| tv_sec := tv_sec tv; tv_usec := tick |}) else (0, tv).

Section Macros.
  (** [timevalisset(tv)] and [timevalcmp(t, u, >=)] of [sys/time.h]. *)
  Context (timevalisset : timeval -> bool) (timevalcmp_ge : timeval -> timeval -> bool).

Definition set_value (v : timeval) (itp : itimerval) : itimerval :=
  {| it_interval := it_interval itp; it_value := v |}.

(** From the label [expire]. *)
Definition itimer_expire (itp : itimerval) (usec : Z) : Z * itimerval :=
  if timevalisset (it_interval itp) then
    let v := it_interval itp in
    let v := {| tv_sec := tv_sec v; tv_usec := i64 (tv_usec v - usec) |} in
    let v := if tv_usec v <? 0
             then {| tv_sec := i64 (tv_sec v - 1); tv_usec := i64 (tv_usec v + 1000000) |} else v in
    (0, set_value v itp)
  else (0, set_value {| tv_sec := tv_sec (it_value itp); tv_usec := 0 |} itp).

Definition itimerdecr (itp : itimerval) (usec : Z) : Z * itimerval :=
  let v := it_value itp in
  if (tv_usec v <? usec) && (tv_sec v =? 0)
  then itimer_expire itp (i32 (usec - tv_usec v))
  else
    let v := if tv_usec v <? usec
             then {| tv_sec := i64 (tv_sec v - 1); tv_usec := i64 (tv_usec v + 1000000) |} else v in
    let v := {| tv_sec := tv_sec v; tv_usec := i64 (tv_usec v - usec) |} in
    let itp := set_value v itp in
    if timevalisset v then (1, itp) else itimer_expire itp 0.

Definition timevalfix (t : timeval) : timeval :=
  let t := if tv_usec t <? 0
           then {| tv_sec := i64 (tv_sec t - 1); tv_usec := i64 (tv_usec t + 1000000) |} else t in
  if 1000000 <=? tv_usec t
  then {| tv_sec := i64 (tv_sec t + 1); tv_usec := i64 (tv_usec t - 1000000) |} else t.

Definition timevaladd (t1 t2 : timeval) : timeval :=
  timevalfix {| tv_sec := i64 (tv_sec t1 + tv_sec t2); tv_usec := i64 (tv_usec t1 + tv_usec t2) |}.

Definition timevalsub (t1 t2 : timeval) : timeval :=
  timevalfix {| tv_sec := i64 (tv_sec t1 - tv_sec t2); tv_usec := i64 (tv_usec t1 - tv_usec t2) |}.

(** [now] is the answer of [getmicrouptime]; the result is the value returned and
    the new [*lasttime]. *)
Definition ratecheck (now lasttime mininterval : timeval) : bool * timeval :=
  let delta := timevalsub now lasttime in
  if timevalcmp_ge delta mininterval || ((tv_sec lasttime =? 0) && (tv_usec lasttime =? 0))
  then (true, now) else (false, lasttime).

End Macros.

(** [ticks] and [hz] are globals; the result is the value returned, the new
    [lasttime->tv_sec] and the new [*curpps]. *)
Definition ppsratecheck (ticks hz last_sec curpps maxpps : Z) : bool * Z * Z :=
  if (last_sec =? 0) || (u32 hz <=? u32 (ticks - last_sec))
  then (negb (maxpps =? 0), ticks, 1)
  else (let c := i32 (curpps + 1) in ((maxpps <? 0) || (c <? maxpps), last_sec, c)).

(** [hz] and [tick] are globals. *)
Definition tvtohz (hz tick : Z) (tv : timeval) : Z :=
  let sec := if tv_usec tv <? 0 then i64 (tv_sec tv - 1) else tv_sec tv in
  let usec := if tv_usec tv <? 0 then i64 (tv_usec tv + 1000000) else tv_usec tv in
  let ticks :=
    if sec <? 0 then 1
    else if sec <=? LONG_MAX / 1000000 then
      u64 (u64 (u64 (i64 (sec * 1000000)) + u64 usec + u64 (i32 (tick - 1))) / u64 tick + 1)
    else if sec <=? LONG_MAX / hz then
      u64 (u64 (i64 (sec * hz)) + u64 (u64 usec + u64 (i32 (tick - 1))) / u64 tick + 1)
    else LONG_MAX in
  let ticks := if INT_MAX <? ticks then INT_MAX else ticks in
  i32 ticks.

(** ** Times in microseconds *)

Definition us (t : timeval) : Z := tv_sec t * 1000000 + tv_usec t.

(** The documented behaviour of the macros of [sys/time.h]. *)
Definition timevalisset_spec (timevalisset : timeval -> bool) : Prop :=
  forall t, timevalisset t = negb ((tv_sec t =? 0) && (tv_usec t =? 0)).
Definition timevalcmp_spec (timevalcmp_ge : timeval -> timeval -> bool) : Prop :=
  forall t u, 0 <= tv_usec t < 1000000 -> 0 <= tv_usec u < 1000000 ->
    timevalcmp_ge t u = (us u <=? us t).

(** A normalised time whose arithmetic does not overflow. *)
Definition normal (t : timeval) : Prop :=
  0 <= tv_usec t < 1000000 /\ - 2 ^ 61 <= tv_sec t < 2 ^ 61.

(** The overflow-free range of [long], for [rewrite ... by]. *)
Ltac long := unfold in_i64, in_i32; lia.

(** A simplification of the wrap-arounds that do not overflow. *)
Ltac nowrap :=
  change (2 ^ 61) with 2305843009213693952 in *;
  repeat match goal with
  | |- context [i64 ?z] => rewrite (i64_id z) by long
  | H : context [i64 ?z] |- _ => rewrite (i64_id z) in H by long
  | |- context [i32 ?z] => rewrite (i32_id z) by long
  | H : context [i32 ?z] |- _ => rewrite (i32_id z) in H by long
  end.

Lemma timevalfix_us s u :
  - 2 ^ 62 <= s < 2 ^ 62 -> -1000000 <= u < 2000000 ->
  let t := timevalfix {| tv_sec := s; tv_usec := u |} in
  us t = s * 1000000 + u /\ 0 <= tv_usec t < 1000000.
Proof.
  intros Hs Hu. change (2 ^ 62) with 4611686018427387904 in Hs. unfold timevalfix, us. simpl.
  destruct (Z.ltb_spec u 0); simpl; nowrap.
  - destruct (Z.leb_spec 1000000 (u + 1000000)); simpl; nowrap; lia.
  - destruct (Z.leb_spec 1000000 u); simpl; nowrap; lia.
Qed.

(** ** Sums and differences *)

(** Adding and subtracting normalised times is exact to the microsecond, and the
    result is normalised again (a negative difference keeps [tv_usec] positive). *)
Theorem timeval_arith t1 t2 : normal t1 -> normal t2 ->
  (us (timevaladd t1 t2) = us t1 + us t2 /\ 0 <= tv_usec (timevaladd t1 t2) < 1000000) /\
  (us (timevalsub t1 t2) = us t1 - us t2 /\ 0 <= tv_usec (timevalsub t1 t2) < 1000000).
Proof.
  intros [H1 H1'] [H2 H2']. unfold timevaladd, timevalsub. nowrap.
  split.
  - destruct (timevalfix_us (tv_sec t1 + tv_sec t2) (tv_usec t1 + tv_usec t2)) as [-> ?]; [lia..|].
    unfold us. lia.
  - destruct (timevalfix_us (tv_sec t1 - tv_sec t2) (tv_usec t1 - tv_usec t2)) as [-> ?]; [lia..|].
    unfold us. lia.
Qed.

Lemma timeval_arith_witness :
  timevalsub {| tv_sec := 5; tv_usec := 100 |} {| tv_sec := 2; tv_usec := 999999 |} =
    {| tv_sec := 2; tv_usec := 101 |} /\
  us (timevaladd {| tv_sec := 5; tv_usec := 100 |} {| tv_sec := 2; tv_usec := 999999 |}) = 8000099.
Proof.
  split; [reflexivity|].
  apply (timeval_arith {| tv_sec := 5; tv_usec := 100 |} {| tv_sec := 2; tv_usec := 999999 |});
    repeat split; simpl; lia.
Defined.

(** ** Conversion to ticks *)

(** The ticks that cover [n] microseconds. *)
Lemma ceil_div n t : 0 <= n -> 1 <= t -> 0 <= (n + (t - 1)) / t <= n.
Proof.
  intros Hn Ht. split; [apply Z.div_pos; lia|].
  destruct (Z.eq_dec n 0) as [->|]; [rewrite Z.div_small; lia|].
  apply Z.div_le_upper_bound; [lia|]. nia.
Qed.

Lemma clip_ticks n : 0 <= n -> i32 (if INT_MAX <? n then INT_MAX else n) = Z.min INT_MAX n.
Proof.
  intros Hn. unfold INT_MAX. destruct (Z.ltb_spec 2147483647 n); rewrite i32_id by long; lia.
Qed.

(** [tvtohz] when nothing overflows. *)
Lemma tvtohz_eq hz tick tv : 1 <= hz -> 1 <= tick -> hz * tick = 1000000 ->
  0 <= tv_usec tv < 1000000 -> in_i64 (tv_sec tv) ->
  tvtohz hz tick tv =
    if tv_sec tv <? 0 then 1 else Z.min INT_MAX ((us tv + (tick - 1)) / tick + 1).
Proof.
  intros Hhz Htick Hm Hu Hs. unfold tvtohz. cbv zeta. unfold in_i64 in Hs.
  rewrite (proj2 (Z.ltb_ge (tv_usec tv) 0)) by lia.
  assert (tick <= 1000000 /\ hz <= 1000000) as [Ht1 Hh1] by nia.
  destruct (Z.ltb_spec (tv_sec tv) 0) as [|Hs0]; [reflexivity|].
  pose proof (ceil_div (us tv) tick) as Hc. unfold us in *.
  rewrite (u64_id tick), (u64_id (tv_usec tv)), (i32_id (tick - 1)), (u64_id (tick - 1))
    by (unfold in_u64, in_i32; lia).
  change (LONG_MAX / 1000000) with 9223372036854.
  destruct (Z.leb_spec (tv_sec tv) 9223372036854) as [Hb|Hb].
  - rewrite (i64_id (tv_sec tv * 1000000)) by long.
    rewrite (u64_id (tv_sec tv * 1000000)) by (unfold in_u64; lia).
    rewrite (u64_id (_ + _ + _)) by (unfold in_u64; lia).
    rewrite <- Z.add_assoc. rewrite Z.add_assoc.
    rewrite (u64_id (_ / tick + 1)) by (unfold in_u64; lia). apply clip_ticks. lia.
  - assert (9223372036854 < (tv_sec tv * 1000000 + tv_usec tv + (tick - 1)) / tick) as Hbig.
    { apply Z.lt_le_trans with (tv_sec tv); [done|]. apply Z.div_le_lower_bound; nia. }
    unfold INT_MAX. rewrite (Z.min_l 2147483647) by lia.
    destruct (Z.leb_spec (tv_sec tv) (LONG_MAX / hz)) as [Hh|Hh]; [|reflexivity].
    assert (tv_sec tv * hz <= LONG_MAX) as Hl.
    { pose proof (Z.mul_div_le LONG_MAX hz). nia. }
    unfold LONG_MAX in Hl. rewrite (i64_id (tv_sec tv * hz)) by (unfold in_i64; nia).
    rewrite (u64_id (tv_sec tv * hz)) by (unfold in_u64; nia).
    rewrite (u64_id (tv_usec tv + _)) by (unfold in_u64; lia).
    pose proof (ceil_div (tv_usec tv) tick).
    rewrite (u64_id (_ + 1)) by (unfold in_u64; nia).
    rewrite (proj2 (Z.ltb_lt 2147483647 _)) by nia. reflexivity.
Qed.

(** [tvtohz] counts enough ticks: the interval is over after one tick less than
    it returns (the extra one is for the tick in progress), no smaller number
    would do, a negative interval gives 1 and a long one is clipped at [INT_MAX];
    no arithmetic overflows, for any [tv_sec]. *)
Theorem tvtohz_covers hz tick tv : 1 <= hz -> 1 <= tick -> hz * tick = 1000000 ->
  0 <= tv_usec tv < 1000000 -> in_i64 (tv_sec tv) ->
  let n := tvtohz hz tick tv in
  1 <= n <= INT_MAX /\ (tv_sec tv < 0 -> n = 1) /\
  (0 <= tv_sec tv -> n < INT_MAX -> (n - 2) * tick < us tv <= (n - 1) * tick) /\
  (0 <= tv_sec tv -> n = INT_MAX -> (INT_MAX - 2) * tick < us tv).
Proof.
  intros Hhz Htick Hm Hu Hs n. subst n. rewrite tvtohz_eq by done.
  destruct (Z.ltb_spec (tv_sec tv) 0); [unfold INT_MAX; lia|].
  assert (0 <= us tv) as H0 by (unfold us; lia).
  pose proof (ceil_div (us tv) tick H0 Htick) as Hc.
  pose proof (Z.div_mod (us tv + (tick - 1)) tick) as Hd.
  pose proof (Z.mod_pos_bound (us tv + (tick - 1)) tick) as Hr.
  set (q := (us tv + (tick - 1)) / tick) in *.
  unfold INT_MAX. split_and!; try lia; intros; nia.
Qed.

Lemma tvtohz_covers_witness :
  tvtohz 100 10000 {| tv_sec := 1; tv_usec := 1 |} = 102 /\
  (102 - 2) * 10000 < us {| tv_sec := 1; tv_usec := 1 |} <= (102 - 1) * 10000.
Proof.
  split; [reflexivity|].
  apply (tvtohz_covers 100 10000 {| tv_sec := 1; tv_usec := 1 |});
    first [reflexivity | unfold in_i64; simpl; lia | discriminate].
Defined.

(** ** Interval timers *)

Section Itimer.
  Context (timevalisset : timeval -> bool).
  Context (isset_ok : timevalisset_spec timevalisset).

(** A timer whose times are normalised and not negative. *)
Definition timer_ok (itp : itimerval) : Prop :=
  normal (it_interval itp) /\ 0 <= us (it_interval itp) /\
  normal (it_value itp) /\ 0 <= us (it_value itp).

Lemma isset_us t : normal t -> timevalisset t = negb (us t =? 0).
Proof.
  intros [Hu _]. rewrite isset_ok. unfold us.
  destruct (Z.eqb_spec (tv_sec t) 0), (Z.eqb_spec (tv_usec t) 0),
    (Z.eqb_spec (tv_sec t * 1000000 + tv_usec t) 0); simpl; lia.
Qed.

(** The reload: the interval less what the timer is late. *)
Lemma itimer_expire_spec itp late : timer_ok itp -> 0 <= late < 1000000 ->
  tv_sec (it_value itp) = 0 ->
  exists v, itimer_expire timevalisset itp late = (0, set_value v itp) /\
    us v = (if us (it_interval itp) =? 0 then 0 else us (it_interval itp) - late) /\
    0 <= tv_usec v < 1000000.
Proof.
  intros [[Hi Hi'] [Hi0 _]] Hl Hs. unfold itimer_expire. rewrite (isset_us _ (conj Hi Hi')).
  destruct (Z.eqb_spec (us (it_interval itp)) 0) as [Hz|Hz]; simpl.
  - eexists. split; [done|]. unfold us. simpl. lia.
  - unfold us in *. nowrap.
    destruct (Z.ltb_spec (tv_usec (it_interval itp) - late) 0); simpl; nowrap;
      eexists; (split; [done|]); simpl; lia.
Qed.

(** [itimerdecr] on each branch. *)
Lemma itimerdecr_spec itp usec : timer_ok itp -> 0 < usec < 1000000 ->
  exists v, itimerdecr timevalisset itp usec = (b2z (usec <? us (it_value itp)), set_value v itp) /\
    us v = (if usec <? us (it_value itp) then us (it_value itp) - usec
            else if us (it_interval itp) =? 0 then 0
            else us (it_interval itp) - (usec - us (it_value itp))) /\
    0 <= tv_usec v < 1000000.
Proof.
  intros Hok Hu. pose proof Hok as (_ & _ & [Hv Hv'] & Hv0). unfold itimerdecr.
  assert (0 <= tv_sec (it_value itp)) as Hs by (unfold us in Hv0; lia).
  assert (us (it_value itp) = tv_sec (it_value itp) * 1000000 + tv_usec (it_value itp)) as Hus by done.
  destruct (Z.ltb_spec (tv_usec (it_value itp)) usec) as [Hlt|Hge]; cbn [andb].
  - destruct (Z.eqb_spec (tv_sec (it_value itp)) 0) as [Hz|Hz].
    + rewrite (proj2 (Z.ltb_ge usec _)) by lia. nowrap.
      replace (us (it_value itp)) with (tv_usec (it_value itp)) by lia.
      apply itimer_expire_spec; [done|lia|done].
    + rewrite (proj2 (Z.ltb_lt usec _)) by lia. cbn [tv_sec tv_usec]. nowrap.
      rewrite isset_ok. cbn [tv_sec tv_usec].
      rewrite (proj2 (Z.eqb_neq (tv_usec _ + 1000000 - usec) 0)) by lia. rewrite andb_false_r.
      eexists. split; [done|]. unfold us at 1. simpl. lia.
  - nowrap. rewrite isset_ok. cbn [tv_sec tv_usec].
    destruct (Z.ltb_spec usec (us (it_value itp))) as [Hus1|Hus1].
    + replace ((tv_sec (it_value itp) =? 0) && (tv_usec (it_value itp) - usec =? 0)) with false.
      * eexists. split; [done|]. unfold us at 1. simpl. lia.
      * destruct (Z.eqb_spec (tv_sec (it_value itp)) 0), (Z.eqb_spec (tv_usec (it_value itp) - usec) 0);
          simpl; lia.
    + assert (tv_sec (it_value itp) = 0) as Hz by lia.
      assert (tv_usec (it_value itp) - usec = 0) as Hz' by lia. rewrite Hz, Hz'. simpl.
      set (itp' := set_value _ itp).
      destruct (itimer_expire_spec itp' 0) as (v & Hr & Hv1 & Hv2); [|lia|done|].
      { destruct Hok as (? & ? & _ & _). subst itp'. split_and!; try done; simpl; unfold us; simpl; lia. }
      exists v. rewrite Hr. split; [done|]. split; [|done]. rewrite Hv1. subst itp'. simpl.
      destruct (_ =? 0); lia.
Qed.

(** A timer decremented by [steps] in turn; how many times it expired. *)
Fixpoint itimer_run (steps : list Z) (itp : itimerval) : Z * itimerval :=
  match steps with
  | [] => (0, itp)
  | usec :: steps =>
      let '(r, itp) := itimerdecr timevalisset itp usec in
      let '(e, itp) := itimer_run steps itp in
      (e + (1 - r), itp)
  end.
Definition elapsed (steps : list Z) : Z := foldr Z.add 0 steps.

(** C30. A periodic timer does not drift.  It is decremented by any steps, each of at least a
    microsecond, below a second and at most as long as the interval.  At each
    moment the time left plus the time decremented is the first delay plus one interval
    per expiry, exactly, so the expiries fall on the multiples of the interval;
    the time left stays positive, normalised and at most one interval (or the
    first delay).  (A step longer than the interval can leave a time below zero:
    [itimer_long_step].) *)
Theorem itimer_no_drift steps itp : timer_ok itp ->
  Forall (fun usec => 0 < usec < 1000000 /\ usec <= us (it_interval itp)) steps -> 0 < us (it_value itp) ->
  let e := fst (itimer_run steps itp) in
  let itp' := snd (itimer_run steps itp) in
  us (it_value itp') + elapsed steps = us (it_value itp) + e * us (it_interval itp) /\
  0 < us (it_value itp') <= Z.max (us (it_value itp)) (us (it_interval itp)) /\
  0 <= tv_usec (it_value itp') < 1000000 /\ it_interval itp' = it_interval itp.
Proof.
  revert itp. induction steps as [|usec steps IH]; intros itp Hok Hu Hv.
  - simpl. destruct Hok as (_ & _ & [? _] & _). split_and!; try lia; done.
  - apply Forall_cons in Hu as [[Hu Hi] Hus].
    cbn [itimer_run]. destruct (itimerdecr_spec itp usec Hok Hu) as (v & -> & Hv1 & Hv2).
    rewrite (proj2 (Z.eqb_neq (us (it_interval itp)) 0)) in Hv1 by lia.
    assert (0 < us v <= Z.max (us (it_value itp)) (us (it_interval itp))) as Hb
      by (destruct (Z.ltb_spec usec (us (it_value itp))); lia).
    assert (timer_ok (set_value v itp)) as Hok'.
    { destruct Hok as (H1 & H2 & H3 & H4). split_and!; try done; simpl; try lia.
      - split; [done|]. destruct H1 as [H1 H1'], H3 as [H3 H3']. unfold us in *. lia. }
    specialize (IH (set_value v itp) Hok' Hus). simpl in IH.
    destruct (itimer_run steps (set_value v itp)) as [e itp']. cbn [fst snd] in *.
    destruct IH as (IH1 & IH2 & IH3 & IH4); [lia|].
    cbn [elapsed foldr]. fold (elapsed steps). split_and!; try done; try lia.
    destruct (Z.ltb_spec usec (us (it_value itp))); unfold b2z; nia.
Qed.

(** A step longer than the interval and the time left: the next expiry is in the past. *)
Lemma itimer_long_step itp usec : timer_ok itp -> 0 < us (it_interval itp) -> 0 < usec < 1000000 ->
  us (it_value itp) + us (it_interval itp) < usec ->
  (itimerdecr timevalisset itp usec).1 = 0 /\ us (it_value (itimerdecr timevalisset itp usec).2) < 0.
Proof.
  intros Hok Hi Hu Hl. destruct (itimerdecr_spec itp usec Hok Hu) as (v & -> & Hv & _).
  assert (0 <= us (it_value itp)) by apply Hok. rewrite (proj2 (Z.ltb_ge usec _)) in * by lia.
  rewrite (proj2 (Z.eqb_neq (us (it_interval itp)) 0)) in Hv by lia. cbn. split; [done|lia].
Qed.
End Itimer.

(** The macros of [sys/time.h], for the witnesses. *)
Definition isset (t : timeval) : bool := negb ((tv_sec t =? 0) && (tv_usec t =? 0)).
Definition cmp_ge (t u : timeval) : bool :=
  if tv_sec t =? tv_sec u then tv_usec u <=? tv_usec t else tv_sec u <=? tv_sec t.

Lemma isset_spec : timevalisset_spec isset.
Proof. done. Qed.

Lemma cmp_ge_spec : timevalcmp_spec cmp_ge.
Proof.
  intros t u Ht Hu. unfold cmp_ge, us.
  destruct (Z.eqb_spec (tv_sec t) (tv_sec u)) as [->|];
    apply Bool.eq_iff_eq_true; rewrite !Z.leb_le; lia.
Qed.

Definition demo_itimer : itimerval :=
  {| it_interval := {| tv_sec := 1; tv_usec := 0 |};
     it_value := {| tv_sec := 0; tv_usec := 700000 |} |}.

Definition demo_steps : list Z := [300000; 300000; 1; 999999; 400000; 100000].
Lemma itimer_no_drift_witness :
  fst (itimer_run isset demo_steps demo_itimer) = 2 /\
  us (it_value (snd (itimer_run isset demo_steps demo_itimer))) + elapsed demo_steps =
    us (it_value demo_itimer) + fst (itimer_run isset demo_steps demo_itimer) * us (it_interval demo_itimer).
Proof.
  split; [vm_compute; reflexivity|].
  apply (itimer_no_drift isset isset_spec demo_steps demo_itimer);
    [unfold timer_ok, normal, us; simpl; lia| |unfold us; simpl; lia].
  repeat (constructor; [unfold us; simpl; lia|]). constructor.
Defined.

(** ** Rate limits *)

Section Ratecheck.
  Context (timevalcmp_ge : timeval -> timeval -> bool).
  Context (cmp_ok : timevalcmp_spec timevalcmp_ge).

(** The times at which a sequence of calls of [ratecheck] answers 1. *)
Fixpoint ratecheck_run (nows : list timeval) (lasttime mininterval : timeval) : list timeval :=
  match nows with
  | [] => []
  | now :: nows =>
      let '(rv, lasttime) := ratecheck timevalcmp_ge now lasttime mininterval in
      (if rv then [now] else []) ++ ratecheck_run nows lasttime mininterval
  end.

Lemma ratecheck_spec now last min : normal now -> normal last -> normal min ->
  ratecheck timevalcmp_ge now last min =
    if (us min <=? us now - us last) || (us last =? 0) then (true, now) else (false, last).
Proof.
  intros [Hn Hn'] [Hl Hl'] [Hm Hm']. unfold ratecheck.
  assert (us (timevalsub now last) = us now - us last /\ 0 <= tv_usec (timevalsub now last) < 1000000)
    as [Hd Hd'].
  { unfold timevalsub. nowrap.
    destruct (timevalfix_us (tv_sec now - tv_sec last) (tv_usec now - tv_usec last)) as [-> ?]; [lia..|].
    unfold us. lia. }
  rewrite (cmp_ok _ _ Hd' Hm), Hd.
  replace ((tv_sec last =? 0) && (tv_usec last =? 0)) with (us last =? 0); [done|].
  unfold us. destruct (Z.eqb_spec (tv_sec last) 0), (Z.eqb_spec (tv_usec last) 0),
    (Z.eqb_spec (tv_sec last * 1000000 + tv_usec last) 0); simpl; lia.
Qed.

Lemma ratecheck_run_spaced nows min : normal min -> forall last, normal last -> us last <> 0 ->
  Forall (fun t => normal t /\ 0 < us t) nows ->
  forall i a b, (last :: ratecheck_run nows last min) !! i = Some a ->
    (last :: ratecheck_run nows last min) !! S i = Some b -> us min <= us b - us a.
Proof.
  intros Hm. induction nows as [|now nows IH]; intros last Hl Hz Hall i a b Ha Hb; [done|].
  apply Forall_cons in Hall as [[Hn Hp] Hall]. cbn [ratecheck_run] in Ha, Hb.
  rewrite ratecheck_spec in Ha, Hb by done.
  rewrite (proj2 (Z.eqb_neq (us last) 0)) in Ha, Hb by done. rewrite orb_false_r in Ha, Hb.
  destruct (Z.leb_spec (us min) (us now - us last)) as [Hle|_].
  - destruct i as [|i]; [|by apply (IH now Hn ltac:(lia) Hall i a b)].
    injection Ha as <-. by injection Hb as <-.
  - by apply (IH last Hl Hz Hall i a b).
Qed.

(** [ratecheck] lets through the first event of all, then only events at least
    [mininterval] after the last one it let through; an event that far is always
    let through. *)
Theorem ratecheck_spacing nows now last min : normal last -> normal min -> normal now ->
  Forall (fun t => normal t /\ 0 < us t) nows ->
  (fst (ratecheck timevalcmp_ge now last min) = true <->
     us last = 0 \/ us min <= us now - us last) /\
  forall i a b, ratecheck_run nows {| tv_sec := 0; tv_usec := 0 |} min !! i = Some a ->
    ratecheck_run nows {| tv_sec := 0; tv_usec := 0 |} min !! S i = Some b ->
    us min <= us b - us a.
Proof.
  intros Hl Hm Hn Hall. split.
  - rewrite ratecheck_spec by done.
    destruct (Z.leb_spec (us min) (us now - us last)), (Z.eqb_spec (us last) 0); simpl; intuition lia.
  - destruct nows as [|t nows]; [done|]. apply Forall_cons in Hall as [[Ht Hp] Hall].
    cbn [ratecheck_run]. rewrite ratecheck_spec by (try done; unfold normal; simpl; lia).
    change (us {| tv_sec := 0; tv_usec := 0 |} =? 0) with true. rewrite orb_true_r.
    intros i a b Ha Hb. apply (ratecheck_run_spaced nows min Hm t Ht ltac:(lia) Hall i a b Ha Hb).
Qed.
End Ratecheck.

Lemma ratecheck_spacing_witness :
  let t s := {| tv_sec := s; tv_usec := 500000 |} in
  ratecheck_run cmp_ge [t 3; t 4; t 5; t 9] {| tv_sec := 0; tv_usec := 0 |}
    {| tv_sec := 2; tv_usec := 0 |} = [t 3; t 5; t 9] /\
  2000000 <= us (t 9) - us (t 5).
Proof.
  split; [reflexivity|].
  apply (ratecheck_spacing cmp_ge cmp_ge_spec
    [{| tv_sec := 3; tv_usec := 500000 |}; {| tv_sec := 4; tv_usec := 500000 |};
     {| tv_sec := 5; tv_usec := 500000 |}; {| tv_sec := 9; tv_usec := 500000 |}]
    {| tv_sec := 3; tv_usec := 500000 |} {| tv_sec := 3; tv_usec := 500000 |}
    {| tv_sec := 2; tv_usec := 0 |}) with (i := 1%nat);
    try reflexivity; repeat constructor; unfold normal, us; simpl; lia.
Defined.

(** The answers of [ppsratecheck] to events at the given ticks. *)
Fixpoint pps_run (hz maxpps : Z) (ts : list Z) (last_sec curpps : Z) : list bool :=
  match ts with
  | [] => []
  | t :: ts =>
      let '(rv, last_sec, curpps) := ppsratecheck t hz last_sec curpps maxpps in
      rv :: pps_run hz maxpps ts last_sec curpps
  end.

(** How many answers are 1. *)
Definition passed (l : list bool) : Z := Z.of_nat (length (filter (fun b => b = true) l)).

Lemma pps_run_window hz maxpps t0 ts : t0 <> 0 -> in_i32 hz -> 0 < hz ->
  Forall (fun t => u32 (t - t0) < hz) ts -> forall c, 1 <= c -> c + Z.of_nat (length ts) < 2 ^ 31 ->
  passed (pps_run hz maxpps ts t0 c) =
    if maxpps <? 0 then Z.of_nat (length ts)
    else Z.min (Z.of_nat (length ts)) (Z.max 0 (maxpps - 1 - c)).
Proof.
  intros Ht0 Hhz Hp Hall. change (2 ^ 31) with 2147483648. unfold in_i32 in Hhz.
  induction Hall as [|t ts Ht Hall IH]; intros c Hc Hlen.
  - simpl. destruct (maxpps <? 0); unfold passed; simpl; lia.
  - cbn [length] in *. cbn [pps_run]. unfold ppsratecheck.
    rewrite (proj2 (Z.eqb_neq t0 0)) by done. rewrite (u32_id hz) by (unfold in_u32; lia).
    rewrite (proj2 (Z.leb_gt hz _)) by done. cbn [orb]. rewrite i32_id by (unfold in_i32; lia).
    unfold passed in *. rewrite filter_cons. specialize (IH (c + 1) ltac:(lia) ltac:(lia)).
    destruct (Z.ltb_spec maxpps 0); cbn [orb].
    + rewrite decide_True by done. cbn [length]. lia.
    + destruct (Z.ltb_spec (c + 1) maxpps).
      * rewrite decide_True by done. cbn [length]. lia.
      * rewrite decide_False by done. lia.
Qed.

(** Of the events within one second of ticks (the first of which opens the
    window) [ppsratecheck] lets through none if [maxpps] is 0, all if it is
    negative, and otherwise [maxpps - 1], not [maxpps], except that the first one
    always passes. *)
Theorem ppsratecheck_window hz maxpps t0 ts c : t0 <> 0 -> in_i32 hz -> 0 < hz ->
  Forall (fun t => u32 (t - t0) < hz) ts -> Z.of_nat (length ts) < 2 ^ 31 - 1 ->
  passed (pps_run hz maxpps (t0 :: ts) 0 c) =
    if maxpps =? 0 then 0
    else if maxpps <? 0 then Z.of_nat (S (length ts))
    else Z.min (Z.of_nat (S (length ts))) (Z.max 1 (maxpps - 1)).
Proof.
  intros Ht0 Hhz Hp Hall Hlen. cbn [pps_run]. unfold ppsratecheck at 1. cbn [Z.eqb orb].
  pose proof (pps_run_window hz maxpps t0 ts Ht0 Hhz Hp Hall 1 ltac:(lia) ltac:(lia)) as Hw.
  unfold passed in *. rewrite filter_cons.
  destruct (Z.eqb_spec maxpps 0) as [->|]; cbn [negb].
  - rewrite decide_False by done. cbn in Hw. lia.
  - rewrite decide_True by done. cbn [length]. destruct (Z.ltb_spec maxpps 0); lia.
Qed.

Lemma ppsratecheck_window_witness :
  pps_run 100 3 [7; 8; 9; 10] 0 0 = [true; true; false; false] /\
  passed (pps_run 100 3 [7; 8; 9; 10] 0 0) = 2.
Proof.
  split; [reflexivity|].
  apply (ppsratecheck_window 100 3 7 [8; 9; 10] 0);
    [lia|unfold in_i32; lia|lia|repeat constructor|reflexivity].
Defined.
