(* ===== verification/Sync.v ===== *)
(** * Sync: locks, sleeping and epochs without threads

    One thread runs the stack of a core.  The locks of the kernel ([bsd/lib/lazybsd_lock.c],
    [bsd/include/sys/mutex.h], [rwlock.h], [sx.h]) are therefore set up and then do nothing: to take
    one always succeeds.  Condition variables ([bsd/lib/lazybsd_kern_condvar.c]), sleep
    ([bsd/lib/lazybsd_kern_synch.c]) and epochs ([bsd/lib/lazybsd_subr_epoch.c]) do not wait either.

    [alone] is what locking(9) says about the locks for one thread; the file shows for which programs the
    code answers the same. *)
From S2P Require Import Prelude.

(** ** Setting up *)

(** The options and flags of the headers. *)
Class LockHeaders := {
  RW_DUPOK : Z; RW_NOPROFILE : Z; RW_NOWITNESS : Z; RW_QUIET : Z; RW_RECURSE : Z;
  RM_NOWITNESS : Z; RM_RECURSE : Z;
  SX_DUPOK : Z; SX_NOPROFILE : Z; SX_NOWITNESS : Z; SX_QUIET : Z; SX_RECURSE : Z; SX_NEW : Z;
  MTX_DEF : Z; MTX_RECURSE : Z; MTX_DUPOK : Z;
  LO_UPGRADABLE : Z; LO_SLEEPABLE : Z; LO_DUPOK : Z; LO_NOPROFILE : Z; LO_WITNESS : Z; LO_RECURSABLE : Z; LO_QUIET : Z; LO_NEW : Z }.

Inductive lock_class := lock_class_mtx_sleep | lock_class_rw | lock_class_rm | lock_class_sx.

(** What [lock_init] of the kernel is called with; a lock is its address. *)
Record lock_object := LockObject { lo_class : lock_class; lo_name : string; lo_type : option string; lo_flags : Z }.
Abbreviation locks := (gmap Z lock_object).

Definition L (A : Type) : Type := locks -> A * locks.
#[export] Instance L_ret : MRet L := fun A a s => (a, s).
#[export] Instance L_bind : MBind L := fun A B f m s => let '(a, s) := m s in f a s.

Section Init.
Context `{LockHeaders}.

Definition lock_init (lo : Z) (class : lock_class) (name : string) (type : option string) (flags : Z) : L unit :=
  fun s => ((), <[lo := LockObject class name type flags]> s).

(** [if (opts & bit) flags |= flag] *)
Definition any (opts bit : Z) : bool := negb (Z.land opts bit =? 0).
Definition or_if (c : bool) (flag flags : Z) : Z := if c then Z.lor flags flag else flags.

Definition lazybsd_mtx_init (lo : Z) (name : string) (type : option string) (opts : Z) : L unit :=
  lock_init lo lock_class_mtx_sleep name type opts.
Definition mtx_init (m : Z) (name : string) (type : option string) (opts : Z) : L unit := lazybsd_mtx_init m name type opts.
Definition mtx_sysinit (ma_mtx : Z) (ma_desc : string) (ma_opts : Z) : L unit := mtx_init ma_mtx ma_desc None ma_opts.

Definition lazybsd_rw_init_flags (lo : Z) (name : string) (opts : Z) : L unit :=
  let flags := LO_UPGRADABLE in
  let flags := or_if (any opts RW_DUPOK) LO_DUPOK flags in
  let flags := or_if (any opts RW_NOPROFILE) LO_NOPROFILE flags in
  let flags := or_if (negb (any opts RW_NOWITNESS)) LO_WITNESS flags in
  let flags := or_if (any opts RW_RECURSE) LO_RECURSABLE flags in
  let flags := or_if (any opts RW_QUIET) LO_QUIET flags in
  lock_init lo lock_class_rw name None flags.
Definition rw_init_flags (rw : Z) (name : string) (opts : Z) : L unit := lazybsd_rw_init_flags rw name opts.
Definition rw_init (rw : Z) (name : string) : L unit := rw_init_flags rw name 0.
Definition rw_sysinit (ra_rw : Z) (ra_desc : string) : L unit := rw_init ra_rw ra_desc.

Definition rm_init_flags (rm : Z) (name : string) (opts : Z) : L unit :=
  let liflags := 0 in
  let liflags := or_if (negb (any opts RM_NOWITNESS)) LO_WITNESS liflags in
  let liflags := or_if (any opts RM_RECURSE) LO_RECURSABLE liflags in
  lock_init rm lock_class_rm name None liflags.
Definition rm_init (rm : Z) (name : string) : L unit := rm_init_flags rm name 0.
Definition rm_sysinit (ra_rm : Z) (ra_desc : string) : L unit := rm_init ra_rm ra_desc.

Definition sx_init_flags (sx : Z) (description : string) (opts : Z) : L unit :=
  let flags := Z.lor LO_SLEEPABLE LO_UPGRADABLE in
  let flags := or_if (any opts SX_DUPOK) LO_DUPOK flags in
  let flags := or_if (any opts SX_NOPROFILE) LO_NOPROFILE flags in
  let flags := or_if (negb (any opts SX_NOWITNESS)) LO_WITNESS flags in
  let flags := or_if (any opts SX_RECURSE) LO_RECURSABLE flags in
  let flags := or_if (any opts SX_QUIET) LO_QUIET flags in
  let flags := or_if (any opts SX_NEW) LO_NEW flags in
  lock_init sx lock_class_sx description None flags.
Definition sx_sysinit (sa_sx : Z) (sa_desc : string) : L unit := sx_init_flags sa_sx sa_desc 0.

(** [Giant] and the lock of the process. *)
Definition mutex_init (Giant p_mtx : Z) : L unit :=
  _ ← mtx_init Giant "Giant" None (Z.lor MTX_DEF MTX_RECURSE);
  mtx_init p_mtx "process lock" None (Z.lor MTX_DEF MTX_DUPOK).
End Init.

(** ** Taking and giving back *)

Definition nothing : L Z := fun s => (0, s).
Definition one : L Z := fun s => (1, s).

(** [mtx_lock] and the others of [mutex.h]; spin locks are the same. *)
Definition mtx_lock (m : Z) : L Z := nothing.
Definition mtx_unlock (m : Z) : L Z := nothing.
Definition mtx_trylock (m : Z) : L Z := one.
Definition mtx_owned (m : Z) : L Z := one.
Definition mtx_destroy (m : Z) : L Z := nothing.

Definition _rw_wlock (rw : Z) : L Z := nothing.
Definition _rw_try_wlock (rw : Z) : L Z := one.
Definition _rw_wunlock (rw : Z) : L Z := nothing.
Definition _rw_rlock (rw : Z) : L Z := nothing.
Definition _rw_try_rlock (rw : Z) : L Z := one.
Definition _rw_runlock (rw : Z) : L Z := nothing.
Definition _rw_try_upgrade (rw : Z) : L Z := one.
Definition _rw_downgrade (rw : Z) : L Z := nothing.
Definition rw_wowned (rw : Z) : L Z := one.
Definition __rw_wlock_hard (rw : Z) : L Z := nothing.
Definition __rw_wunlock_hard (rw : Z) : L Z := nothing.
Definition _rw_destroy (rw : Z) : L Z := nothing.

Definition _rm_wlock (rm : Z) : L Z := nothing.
Definition _rm_wunlock (rm : Z) : L Z := nothing.
Definition _rm_rlock (rm trylock : Z) : L Z := one.
Definition _rm_runlock (rm : Z) : L Z := nothing.
Definition rm_wowned (rm : Z) : L Z := one.
Definition rm_destroy (rm : Z) : L Z := nothing.

Definition _sx_xlock (sx opts : Z) : L Z := nothing.
Definition _sx_slock (sx opts : Z) : L Z := nothing.
Definition _sx_xunlock (sx : Z) : L Z := nothing.
Definition _sx_sunlock (sx : Z) : L Z := nothing.
Definition sx_try_slock_ (sx : Z) : L Z := one.
Definition sx_try_xlock_ (sx : Z) : L Z := one.
Definition sx_try_upgrade_ (sx : Z) : L Z := one.
Definition sx_downgrade_ (sx : Z) : L Z := nothing.
Definition _sx_xlock_hard (sx : Z) : L Z := one.
Definition _sx_xunlock_hard (sx : Z) : L Z := nothing.
Definition sx_destroy (sx : Z) : L Z := nothing.

(** ** Sleeping

    [EPERM] is that of FreeBSD. *)
Definition EPERM : Z := 1.
Definition _cv_wait (cvp lock : Z) : L Z := nothing.
Definition _cv_wait_unlock (cvp lock : Z) : L Z := nothing.
Definition _cv_wait_sig (cvp lock : Z) : L Z := nothing.
Definition _cv_timedwait (cvp lock timo : Z) : L Z := nothing.
Definition _cv_timedwait_sig (cvp lock timo : Z) : L Z := nothing.
Definition _cv_timedwait_sig_sbt (cvp lock sbt pr flags : Z) : L Z := nothing.
Definition cv_signal (cvp : Z) : L Z := nothing.
Definition cv_broadcastpri (cvp pri : Z) : L Z := nothing.

Definition _sleep (chan lock priority sbt pr flags : Z) : L Z := mret EPERM.
Definition msleep_spin_sbt (chan mtx sbt pr flags : Z) : L Z := nothing.
Definition pause_sbt (pause_wchan sbt pr flags : Z) : L Z := _sleep pause_wchan 0 0 sbt pr flags.
Definition wakeup (chan : Z) : L Z := nothing.
Definition wakeup_one (chan : Z) : L Z := nothing.
Definition wakeup_any (ident : Z) : L Z := nothing.
Definition kern_yield (prio : Z) : L Z := nothing.

(** ** Programs that use locks *)

Inductive lock_op :=
| MtxLock (l : Z) | MtxUnlock (l : Z) | MtxTrylock (l : Z) | MtxOwned (l : Z)
| RwWlock (l : Z) | RwTryWlock (l : Z) | RwWunlock (l : Z) | RwRlock (l : Z) | RwTryRlock (l : Z) | RwRunlock (l : Z)
| RwTryUpgrade (l : Z) | RwDowngrade (l : Z) | RwWowned (l : Z)
| RmWlock (l : Z) | RmWunlock (l : Z) | RmTryRlock (l : Z) | RmRunlock (l : Z) | RmWowned (l : Z)
| SxXlock (l : Z) | SxXunlock (l : Z) | SxSlock (l : Z) | SxSunlock (l : Z) | SxTryXlock (l : Z) | SxTrySlock (l : Z)
| SxTryUpgrade (l : Z) | SxDowngrade (l : Z).

Definition exec (o : lock_op) : L Z :=
  match o with
  | MtxLock l => mtx_lock l | MtxUnlock l => mtx_unlock l | MtxTrylock l => mtx_trylock l | MtxOwned l => mtx_owned l
  | RwWlock l => _rw_wlock l | RwTryWlock l => _rw_try_wlock l | RwWunlock l => _rw_wunlock l
  | RwRlock l => _rw_rlock l | RwTryRlock l => _rw_try_rlock l | RwRunlock l => _rw_runlock l
  | RwTryUpgrade l => _rw_try_upgrade l | RwDowngrade l => _rw_downgrade l | RwWowned l => rw_wowned l
  | RmWlock l => _rm_wlock l | RmWunlock l => _rm_wunlock l | RmTryRlock l => _rm_rlock l 1
  | RmRunlock l => _rm_runlock l | RmWowned l => rm_wowned l
  | SxXlock l => _sx_xlock l 0 | SxXunlock l => _sx_xunlock l | SxSlock l => _sx_slock l 0 | SxSunlock l => _sx_sunlock l
  | SxTryXlock l => sx_try_xlock_ l | SxTrySlock l => sx_try_slock_ l
  | SxTryUpgrade l => sx_try_upgrade_ l | SxDowngrade l => sx_downgrade_ l
  end.

(** A program goes on with the answer. *)
Inductive prog (A : Type) := Ret (a : A) | Op (o : lock_op) (k : Z -> prog A).
Arguments Ret {A} _.
Arguments Op {A} _ _.

Fixpoint run {A} (p : prog A) : L A := match p with Ret a => mret a | Op o k => r ← exec o; run (k r) end.

(** ** Locks for one thread

    A lock is held exclusively, once and [n] times more if it may recurse, or shared by [n + 1] holders, who are
    all the same thread.  [None]: the thread would wait for itself, or gives back what it does not have. *)
Inductive held := Free | Excl (n : nat) | Shared (n : nat).
Inductive action := TakeX | GiveX | TryX | TakeS | GiveS | TryS | Upgrade | Downgrade | Owned.

Definition meaning (o : lock_op) : Z * action :=
  match o with
  | MtxLock l => (l, TakeX) | MtxUnlock l => (l, GiveX) | MtxTrylock l => (l, TryX) | MtxOwned l => (l, Owned)
  | RwWlock l => (l, TakeX) | RwTryWlock l => (l, TryX) | RwWunlock l => (l, GiveX)
  | RwRlock l => (l, TakeS) | RwTryRlock l => (l, TryS) | RwRunlock l => (l, GiveS)
  | RwTryUpgrade l => (l, Upgrade) | RwDowngrade l => (l, Downgrade) | RwWowned l => (l, Owned)
  | RmWlock l => (l, TakeX) | RmWunlock l => (l, GiveX) | RmTryRlock l => (l, TryS) | RmRunlock l => (l, GiveS) | RmWowned l => (l, Owned)
  | SxXlock l => (l, TakeX) | SxXunlock l => (l, GiveX) | SxSlock l => (l, TakeS) | SxSunlock l => (l, GiveS)
  | SxTryXlock l => (l, TryX) | SxTrySlock l => (l, TryS) | SxTryUpgrade l => (l, Upgrade) | SxDowngrade l => (l, Downgrade)
  end.

Definition give (n : nat) (c : nat -> held) : held := match n with O => Free | S n => c n end.

Definition act (recursable : bool) (a : action) (h : held) : option (Z * held) :=
  match a, h with
  | TakeX, Free => Some (0, Excl 0)
  | TakeX, Excl n => if recursable then Some (0, Excl (S n)) else None
  | TakeX, Shared _ => None
  | GiveX, Excl n => Some (0, give n Excl)
  | GiveX, _ => None
  | TryX, Free => Some (1, Excl 0)
  | TryX, Excl n => Some (if recursable then (1, Excl (S n)) else (0, h))
  | TryX, Shared _ => Some (0, h)
  | TakeS, Free => Some (0, Shared 0)
  | TakeS, Shared n => Some (0, Shared (S n))
  | TakeS, Excl _ => None
  | GiveS, Shared n => Some (0, give n Shared)
  | GiveS, _ => None
  | TryS, Free => Some (1, Shared 0)
  | TryS, Shared n => Some (1, Shared (S n))
  | TryS, Excl _ => Some (0, h)
  | Upgrade, Shared O => Some (1, Excl 0)
  | Upgrade, Shared (S _) => Some (0, h)
  | Upgrade, _ => None
  | Downgrade, Excl O => Some (0, Shared 0)
  | Downgrade, _ => None
  | Owned, Excl _ => Some (1, h)
  | Owned, _ => Some (0, h)
  end.

(** Attempts and questions, which have an answer. *)
Definition asks (a : action) : bool := match a with TryX | TryS | Upgrade | Owned => true | _ => false end.

(** [alone p s v s']: the thread runs [p] to its end with [v], every lock it tries is granted and it asks
    only about locks that it has. *)
Inductive alone {A} (recursable : Z -> bool) : prog A -> (Z -> held) -> A -> (Z -> held) -> Prop :=
| alone_ret a s : alone recursable (Ret a) s a s
| alone_op o k l a r h s v s' :
    meaning o = (l, a) -> act (recursable l) a (s l) = Some (r, h) -> (asks a = true -> r = 1) ->
    alone recursable (k r) (fun x => if x =? l then h else s x) v s' -> alone recursable (Op o k) s v s'.

Lemma exec_state o s : (exec o s).2 = s.
Proof. by destruct o. Qed.

Lemma exec_answer o s l a b r h h' : meaning o = (l, a) -> act b a h = Some (r, h') -> (asks a = true -> r = 1) -> (exec o s).1 = r.
Proof.
  intros Hm Ha Hr.
  assert ((exec o s).1 = if asks a then 1 else 0) as -> by (by destruct o; cbn in Hm; injection Hm as <- <-).
  destruct (asks a) eqn:E; [by rewrite Hr|]. destruct a, h as [|n|n]; try done; cbn in Ha; repeat case_match; naive_solver.
Qed.

(** Locks need not do anything for one thread.  A program that one thread can run to its end with the locks of
    locking(9), that is granted what it tries for and asks only about locks that it holds, ends with the same
    result here, and leaves the locks as they were set up. *)
Theorem locks_refine {A} recursable (p : prog A) h v h' s : alone recursable p h v h' -> run p s = (v, s).
Proof.
  induction 1 as [a h|o k l a r x h v h' Hm Ha Hr _ IH]; [done|]. cbn [run]. unfold mbind, L_bind.
  pose proof (exec_answer o s l a _ _ _ _ Hm Ha Hr) as E1. pose proof (exec_state o s) as E2.
  destruct (exec o s) as [r' s']. cbn in E1, E2. subst. exact IH.
Qed.

(** A lock that is taken, downgraded and given back; a second one inside of it that is tried for. *)
Definition example_prog : prog Z :=
  Op (SxXlock 1) (fun _ => Op (MtxTrylock 2) (fun r => Op (SxDowngrade 1) (fun _ => Op (MtxUnlock 2) (fun _ => Op (SxSunlock 1) (fun _ => Ret (r + 10)))))).
Lemma locks_refine_witness : run example_prog ∅ = (11, ∅).
Proof.
  apply (locks_refine (fun _ => false) example_prog (fun _ => Free) 11 (fun x => if x =? 1 then Free else if x =? 2 then Free else if x =? 1 then Shared 0 else if x =? 2 then Excl 0 else if x =? 1 then Excl 0 else Free)).
  repeat (eapply alone_op; [reflexivity|reflexivity|done|]). apply alone_ret.
Defined.

(** To try for a lock that one holds, which fails, succeeds here. *)
Example try_again : act false TryX (Shared 0) = Some (0, Shared 0) /\ (exec (SxTryXlock 1) ∅).1 = 1.
Proof. done. Qed.

(** ** The flags of locks *)
Section Flags.
Context `{LockHeaders}.
(** The flags are bits of their own. *)
Definition lock_flags : list Z := [LO_UPGRADABLE; LO_SLEEPABLE; LO_DUPOK; LO_NOPROFILE; LO_WITNESS; LO_RECURSABLE; LO_QUIET; LO_NEW].
Context (doc_nonzero : Forall (fun f => f <> 0) lock_flags)
  (doc_apart : forall i j f g, lock_flags !! i = Some f -> lock_flags !! j = Some g -> i <> j -> Z.land f g = 0).

Lemma any_or_same c f flags : f <> 0 -> any (or_if c f flags) f = c || any flags f.
Proof.
  intros Hf. unfold any, or_if. destruct c; cbn [orb]; [|done]. rewrite Z.land_lor_distr_l, Z.land_diag.
  apply negb_true_iff, Z.eqb_neq. intros E. apply Z.lor_eq_0_iff in E as [_ E]. done.
Qed.
Lemma any_or_other c f g flags : Z.land f g = 0 -> any (or_if c f flags) g = any flags g.
Proof. intros E. unfold any, or_if. destruct c; [|done]. by rewrite Z.land_lor_distr_l, E, Z.lor_0_r. Qed.

Ltac flag_bits :=
  pose proof doc_nonzero as Hnz; unfold lock_flags in Hnz; rewrite !Forall_cons in Hnz; destruct_and!;
  repeat match goal with
  | |- context [any (or_if ?c ?f ?fl) ?f] => rewrite (any_or_same c f fl) by done
  | |- context [any (or_if ?c ?f ?fl) ?g] =>
      let find x := lazymatch x with LO_UPGRADABLE => constr:(0%nat) | LO_SLEEPABLE => constr:(1%nat) | LO_DUPOK => constr:(2%nat)
        | LO_NOPROFILE => constr:(3%nat) | LO_WITNESS => constr:(4%nat) | LO_RECURSABLE => constr:(5%nat) | LO_QUIET => constr:(6%nat) | LO_NEW => constr:(7%nat) end in
      let i := find f in let j := find g in
      rewrite (any_or_other c f g fl) by (by apply (doc_apart i j))
  end.

Lemma sx_bits flags : Z.lor LO_SLEEPABLE LO_UPGRADABLE = flags ->
  any flags LO_DUPOK = false /\ any flags LO_NOPROFILE = false /\ any flags LO_WITNESS = false /\ any flags LO_RECURSABLE = false /\
  any flags LO_QUIET = false /\ any flags LO_NEW = false.
Proof.
  intros <-. unfold any. rewrite !Z.land_lor_distr_l.
  rewrite (doc_apart 1 2), (doc_apart 0 2), (doc_apart 1 3), (doc_apart 0 3), (doc_apart 1 4), (doc_apart 0 4),
    (doc_apart 1 5), (doc_apart 0 5), (doc_apart 1 6), (doc_apart 0 6), (doc_apart 1 7), (doc_apart 0 7) by done. done.
Qed.

(** An [sx] lock gets the flags of its options, and is watched unless that is refused. *)
Lemma sx_init_flags_spec sx description opts s : exists flags,
  sx_init_flags sx description opts s = ((), <[sx := LockObject lock_class_sx description None flags]> s) /\
  any flags LO_DUPOK = any opts SX_DUPOK /\ any flags LO_NOPROFILE = any opts SX_NOPROFILE /\
  any flags LO_WITNESS = negb (any opts SX_NOWITNESS) /\ any flags LO_RECURSABLE = any opts SX_RECURSE /\
  any flags LO_QUIET = any opts SX_QUIET /\ any flags LO_NEW = any opts SX_NEW.
Proof.
  destruct (sx_bits _ eq_refl) as (B1 & B2 & B3 & B4 & B5 & B6).
  eexists. split; [reflexivity|]. flag_bits. rewrite ?B1, ?B2, ?B3, ?B4, ?B5, ?B6, ?orb_false_r. done.
Qed.

(** A mutex keeps its options as flags, whatever they mean as flags. *)
Lemma mtx_keeps_options m name opts s : mtx_init m name None opts s = ((), <[m := LockObject lock_class_mtx_sleep name None opts]> s).
Proof. done. Qed.
End Flags.

#[export] Instance freebsd_lock_headers : LockHeaders := {|
  RW_DUPOK := 1; RW_NOPROFILE := 2; RW_NOWITNESS := 4; RW_QUIET := 8; RW_RECURSE := 16;
  RM_NOWITNESS := 1; RM_RECURSE := 2;
  SX_DUPOK := 1; SX_NOPROFILE := 2; SX_NOWITNESS := 4; SX_QUIET := 8; SX_RECURSE := 32; SX_NEW := 64;
  MTX_DEF := 0; MTX_RECURSE := 4; MTX_DUPOK := 0x400000;
  LO_UPGRADABLE := 0x200000; LO_SLEEPABLE := 0x100000; LO_DUPOK := 0x400000; LO_NOPROFILE := 0x10000000; LO_WITNESS := 0x20000;
  LO_RECURSABLE := 0x80000; LO_QUIET := 0x40000; LO_NEW := 0x2000000 |}.

(** With the numbers of FreeBSD [Giant], which is asked to be recursive, is not marked so. *)
Example giant_not_recursable :
  (fun lo => (any (lo_flags lo) LO_RECURSABLE, any (lo_flags lo) LO_WITNESS)) <$> (mutex_init 1 2 ∅).2 !! 1 = Some (false, false).
Proof. by vm_compute. Qed.

(** ** Epochs

    [epoch_call] calls its function at once; entering and leaving a section and waiting do nothing, and there
    is one epoch. *)
Section Epoch.
Context {W : Type}.
Definition _epoch_enter_preempt (w : W) : W := w.
Definition _epoch_exit_preempt (w : W) : W := w.
Definition epoch_wait_preempt (w : W) : W := w.
Definition epoch_call (callback : W -> W) (w : W) : W := callback w.
Definition epoch_drain_callbacks (w : W) : W := w.

Inductive epoch_op := Enter | Exit | Call (f : W -> W) | Work (f : W -> W).
Definition epoch_step (w : W) (o : epoch_op) : W :=
  match o with
  | Enter => _epoch_enter_preempt w | Exit => _epoch_exit_preempt w | Call f => epoch_call f w | Work f => f w
  end.

(** epoch(9): what is called inside of sections is done when the last is left. *)
Definition deferred (s : nat * list (W -> W) * W) (o : epoch_op) : nat * list (W -> W) * W :=
  let '(depth, l, w) := s in
  match o with
  | Enter => (S depth, l, w)
  | Exit => match depth with 1%nat => (0%nat, [], foldl (fun w f => f w) w l) | _ => (pred depth, l, w) end
  | Call f => if (depth =? 0)%nat then (depth, l, f w) else (depth, l ++ [f], w)
  | Work f => (depth, l, f w)
  end.

(** Outside of sections the two agree. *)
Lemma epoch_outside l : Forall (fun o => match o with Call _ | Work _ => True | _ => False end) l -> forall w,
  foldl deferred (0%nat, [], w) l = (0%nat, [], foldl epoch_step w l).
Proof.
  induction 1 as [|o l Ho _ IH]; intros w; [done|]. cbn [foldl]. by destruct o; try done; rewrite <- IH.
Qed.
End Epoch.

(** Inside of a section a block is freed before its last use. *)
Example freed_too_early :
  let l := [Enter; Call (fun w => w ++ ["free"%string]); Work (fun w => w ++ ["use"%string]); Exit] in
  foldl epoch_step [] l = ["free"; "use"]%string /\ (foldl deferred (0%nat, [], []) l).2 = ["use"; "free"]%string.
Proof. done. Qed.
