(* ===== verification/Limits.v ===== *)
(** * Limits: accounting and credentials of [bsd/lib/lazybsd_patch.c]

    The per-user counters ([chglimit] and its callers, [chgsbsize]), the resource
    limits of a process ([lim_*]), credentials ([crget], [crhold], [crfree]) and
    the group search [groupmember].  Counters are 64-bit [long]s; [rlim_t] is
    compared as an unsigned 64-bit integer with the [u_long] that
    [atomic_fetchadd_long] returns. *)
From S2P Require Import Prelude.

(** ** Operations *)

(** [struct uidinfo], the counters. *)
Record uidinfo : Type := {
  ui_sbsize : Z; ui_proccnt : Z; ui_ptscnt : Z; ui_kqcnt : Z; ui_umtxcnt : Z
}.

(** The value returned and the new [*limit]. *)
Definition chglimit (limit diff max : Z) : Z * Z :=
  if (0 <? diff) && negb (max =? 0) then
    if u64 max <? u64 (u64 limit + u64 diff)
    then (0, i64 (i64 (limit + diff) - diff))
    else (1, i64 (limit + diff))
  else (1, i64 (limit + diff)).

Definition chgproccnt (uip : uidinfo) (diff max : Z) : Z * uidinfo :=
  let '(rv, l) := chglimit (ui_proccnt uip) diff max in
  (rv, {| ui_sbsize := ui_sbsize uip; ui_proccnt := l; ui_ptscnt := ui_ptscnt uip;
          ui_kqcnt := ui_kqcnt uip; ui_umtxcnt := ui_umtxcnt uip |}).

Definition chgptscnt (uip : uidinfo) (diff max : Z) : Z * uidinfo :=
  let '(rv, l) := chglimit (ui_ptscnt uip) diff max in
  (rv, {| ui_sbsize := ui_sbsize uip; ui_proccnt := ui_proccnt uip; ui_ptscnt := l;
          ui_kqcnt := ui_kqcnt uip; ui_umtxcnt := ui_umtxcnt uip |}).

Definition chgkqcnt (uip : uidinfo) (diff max : Z) : Z * uidinfo :=
  let '(rv, l) := chglimit (ui_kqcnt uip) diff max in
  (rv, {| ui_sbsize := ui_sbsize uip; ui_proccnt := ui_proccnt uip;
          ui_ptscnt := ui_ptscnt uip; ui_kqcnt := l; ui_umtxcnt := ui_umtxcnt uip |}).

Definition chgumtxcnt (uip : uidinfo) (diff max : Z) : Z * uidinfo :=
  let '(rv, l) := chglimit (ui_umtxcnt uip) diff max in
  (rv, {| ui_sbsize := ui_sbsize uip; ui_proccnt := ui_proccnt uip;
          ui_ptscnt := ui_ptscnt uip; ui_kqcnt := ui_kqcnt uip; ui_umtxcnt := l |}).

Definition with_sbsize (l : Z) (uip : uidinfo) : uidinfo :=
  {| ui_sbsize := l; ui_proccnt := ui_proccnt uip; ui_ptscnt := ui_ptscnt uip;
     ui_kqcnt := ui_kqcnt uip; ui_umtxcnt := ui_umtxcnt uip |}.

(** The value returned, the user and the new [*hiwat]. *)
Definition chgsbsize (uip : uidinfo) (hiwat to max : Z) : Z * uidinfo * Z :=
  let diff := i32 (u32 (to - hiwat)) in
  if (0 <? diff) && (max =? 0) then (0, uip, hiwat) else
  let '(rv, l) := chglimit (ui_sbsize uip) diff max in
  (rv, with_sbsize l uip, if negb (rv =? 0) then to else hiwat).

(** [struct rlimit]; [pl_rlimit] of a process's [struct plimit]. *)
Record rlimit : Type := { rlim_cur : Z; rlim_max : Z }.

Section Limits.
  (** [p_sysent->sv_fixlimit], if there is one. *)
  Context (sv_fixlimit : option (rlimit -> Z -> rlimit)).

Definition lim_rlimit (pl_rlimit : list rlimit) (which : nat) : outcome rlimit :=
  match pl_rlimit !! which with
  | None => Panic
  | Some rl => Ok (match sv_fixlimit with Some fix_ => fix_ rl (Z.of_nat which) | None => rl end)
  end.

Definition lim_rlimit_proc (pl_rlimit : list rlimit) (which : nat) : outcome rlimit :=
  match pl_rlimit !! which with
  | None => Panic
  | Some rl => Ok (match sv_fixlimit with Some fix_ => fix_ rl (Z.of_nat which) | None => rl end)
  end.

Definition lim_cur (pl_rlimit : list rlimit) (which : nat) : outcome Z :=
  rl ← lim_rlimit pl_rlimit which; Ok (rlim_cur rl).

Definition lim_cur_proc (pl_rlimit : list rlimit) (which : nat) : outcome Z :=
  rl ← lim_rlimit_proc pl_rlimit which; Ok (rlim_cur rl).
End Limits.

(** Credentials in memory, by address: their reference counts.  A [malloc] with
    [M_WAITOK] does not fail; [cr] is the address it returns. *)
Abbreviation creds := (gmap positive Z).

Section Refcount.
  (** [refcount_acquire] and [refcount_release] of [sys/refcount.h]: the new count,
      and whether the last reference was given up. *)
  Context (refcount_acquire : Z -> Z) (refcount_release : Z -> Z * bool).

Definition crget (cr : positive) (m : creds) : creds := <[cr := 1]> m.

(** A credential that is not in memory is a dangling pointer. *)
Definition crhold (cr : positive) (m : creds) : outcome creds :=
  match m !! cr with
  | None => Panic
  | Some n => Ok (<[cr := refcount_acquire n]> m)
  end.

Definition crfree (cr : positive) (m : creds) : outcome creds :=
  match m !! cr with
  | None => Panic
  | Some n => let '(n', last) := refcount_release n in
              Ok (if last : bool then delete cr m else <[cr := n']> m)
  end.

(** [lim_alloc] and [lim_hold], the same on [struct plimit]. *)
Definition lim_alloc (limp : positive) (m : creds) : creds := <[limp := 1]> m.
Definition lim_hold (limp : positive) (m : creds) : outcome creds :=
  match m !! limp with
  | None => Panic
  | Some n => Ok (<[limp := refcount_acquire n]> m)
  end.
End Refcount.

(** [cr_groups] and [cr_ngroups]; a read outside of the array stops the program. *)
Record ucred : Type := { cr_groups : list Z; cr_ngroups : Z }.

Definition group_at (cred : ucred) (i : Z) : outcome Z :=
  if i <? 0 then Panic else
  match cr_groups cred !! Z.to_nat i with Some g => Ok g | None => Panic end.

Fixpoint groupmember_search (fuel : nat) (gid : Z) (cred : ucred) (l h : Z) : outcome Z :=
  if negb (l <? h) then Ok l else
  match fuel with
  | O => Diverge
  | S fuel =>
      let m := i32 (l + Z.quot (i32 (h - l)) 2) in
      g ← group_at cred m;
      if g <? gid then groupmember_search fuel gid cred (i32 (m + 1)) h
      else groupmember_search fuel gid cred l m
  end.

Definition groupmember (fuel : nat) (gid : Z) (cred : ucred) : outcome Z :=
  g0 ← group_at cred 0;
  if g0 =? gid then Ok 1 else
  l ← groupmember_search fuel gid cred 1 (cr_ngroups cred);
  if l <? cr_ngroups cred then g ← group_at cred l; Ok (b2z (g =? gid)) else Ok 0.

(** ** Counters *)

Lemma u64_of_i64_sum limit diff : in_i64 limit -> in_i64 diff -> in_i64 (limit + diff) ->
  u64 (u64 limit + u64 diff) = u64 (limit + diff).
Proof. intros. unfold uwrap. by rewrite <- Zplus_mod. Qed.

Lemma chglimit_eq limit diff max : 0 <= limit -> in_i32 diff -> limit + diff < 2 ^ 63 ->
  0 <= max < 2 ^ 63 ->
  chglimit limit diff max =
    if (diff <=? 0) || (max =? 0) || (limit + diff <=? max) then (1, limit + diff) else (0, limit).
Proof.
  change (2 ^ 63) with 9223372036854775808. intros Hl Hd Hs Hm. unfold in_i32 in Hd.
  unfold chglimit.
  assert (i64 (limit + diff) = limit + diff) as Hi by (apply i64_id; unfold in_i64; lia).
  destruct (Z.ltb_spec 0 diff), (Z.leb_spec diff 0); try lia; cbn [andb orb]; [|by rewrite Hi].
  destruct (Z.eqb_spec max 0); cbn [negb orb]; [by rewrite Hi|].
  rewrite u64_of_i64_sum by (unfold in_i64; lia). rewrite !u64_id by (unfold in_u64; lia).
  rewrite Hi, i64_id by (unfold in_i64; lia).
  destruct (Z.ltb_spec max (limit + diff)), (Z.leb_spec (limit + diff) max);
    try lia; f_equal; lia.
Qed.

(** ** Socket buffers *)

(** The sockets of a user: the [hiwat] of each buffer. *)
Definition total (bufs : gmap positive Z) : Z := map_fold (fun _ => Z.add) 0 bufs.

Lemma total_insert bufs b v : total (<[b := v]> bufs) = total bufs - default 0 (bufs !! b) + v.
Proof.
  assert (forall m k x, m !! k = None -> total (<[k := x]> m) = x + total m) as Hins.
  { intros m k x Hk. apply map_fold_insert_L; [intros; lia|done]. }
  rewrite <- insert_delete_eq, Hins by apply lookup_delete_eq.
  destruct (bufs !! b) as [w|] eqn:Hb; simpl.
  - rewrite <- (insert_delete_id bufs b w Hb) at 2. rewrite Hins by apply lookup_delete_eq. lia.
  - rewrite delete_id by done. lia.
Qed.

(** A sequence of changes of buffer sizes; [max] is the user's limit. *)
Fixpoint sb_run (l : list (positive * Z)) (max : Z) (s : uidinfo * gmap positive Z)
    : uidinfo * gmap positive Z :=
  match l with
  | [] => s
  | (b, to) :: l =>
      let '(_, uip, hiwat) := chgsbsize (fst s) (default 0 (snd s !! b)) to max in
      sb_run l max (uip, <[b := hiwat]> (snd s))
  end.

(** The account of a user is right: the sum of the buffers, each below 2 GB. *)
Definition sb_ok (s : uidinfo * gmap positive Z) : Prop :=
  ui_sbsize (fst s) = total (snd s) /\ 0 <= total (snd s) /\
  map_Forall (fun _ v => 0 <= v < 2 ^ 31) (snd s).

Lemma total_bound bufs : map_Forall (fun _ v => 0 <= v < 2 ^ 31) bufs ->
  forall b v, bufs !! b = Some v -> v <= total bufs.
Proof.
  induction bufs as [|k x m Hk IH] using map_ind; intros Hall b v Hb; [done|].
  apply map_Forall_insert in Hall as [Hx Hall]; [|done].
  assert (0 <= total m) as Hp.
  { clear -Hall. induction m as [|k x m Hk IH] using map_ind; [done|].
    apply map_Forall_insert in Hall as [Hx Hall]; [|done]. rewrite total_insert, Hk. simpl.
    specialize (IH Hall). lia. }
  rewrite total_insert, Hk. simpl.
  destruct (decide (b = k)) as [->|Hne].
  - rewrite lookup_insert_eq in Hb. injection Hb as ->. lia.
  - rewrite lookup_insert_ne in Hb by done. specialize (IH Hall b v Hb). lia.
Qed.

(** One change. *)
Lemma chgsbsize_spec s b to max : sb_ok s -> 0 <= to < 2 ^ 31 -> 0 <= max < 2 ^ 63 ->
  total (snd s) < 2 ^ 62 ->
  let h := default 0 (snd s !! b) in
  let granted := (to <=? h) || negb (max =? 0) && (ui_sbsize (fst s) + (to - h) <=? max) in
  chgsbsize (fst s) h to max =
    if granted then (1, with_sbsize (ui_sbsize (fst s) + (to - h)) (fst s), to)
    else (0, fst s, h).
Proof.
  intros (Hs & H0 & Hall) Hto Hmax Htot h granted. change (2 ^ 31) with 2147483648 in *.
  change (2 ^ 62) with 4611686018427387904 in *.
  assert (0 <= h < 2147483648 /\ h <= total (snd s)) as [Hh Hht].
  { subst h. destruct (snd s !! b) as [v|] eqn:Hb; simpl; [|lia].
    split; [by apply (map_Forall_lookup_1 _ _ _ _ Hall Hb)|].
    by apply (total_bound (snd s) Hall b). }
  unfold chgsbsize. assert (i32 (u32 (to - h)) = to - h) as ->.
  { rewrite <- (i32_id (to - h)) at 2 by (unfold in_i32; lia). apply i32_cong.
    unfold uwrap. by rewrite Zmod_mod. }
  subst granted. destruct (Z.ltb_spec 0 (to - h)), (Z.leb_spec to h); try lia; cbn [andb orb].
  - destruct (Z.eqb_spec max 0) as [|Hm]; cbn [negb andb]; [done|].
    rewrite chglimit_eq by (unfold in_i32; change (2 ^ 63) with 9223372036854775808; lia).
    rewrite (proj2 (Z.leb_gt (to - h) 0)), (proj2 (Z.eqb_neq max 0)) by lia. cbn [orb].
    destruct (_ <=? max); [done|]. cbn. f_equal. f_equal. by destruct (fst s).
  - rewrite chglimit_eq by (unfold in_i32; change (2 ^ 63) with 9223372036854775808; lia).
    rewrite (proj2 (Z.leb_le (to - h) 0)) by lia. done.
Qed.

Lemma sb_step s b to max : sb_ok s -> 0 <= to < 2 ^ 31 -> 0 <= max < 2 ^ 63 ->
  total (snd s) < 2 ^ 62 ->
  let '(_, uip, hiwat) := chgsbsize (fst s) (default 0 (snd s !! b)) to max in
  let s' := (uip, <[b := hiwat]> (snd s)) in
  sb_ok s' /\ total (snd s') <= Z.max max (total (snd s)).
Proof.
  intros Hok Hto Hmax Htot. rewrite (chgsbsize_spec s b to max Hok Hto Hmax Htot).
  destruct Hok as (Hs & H0 & Hall). set (h := default 0 (snd s !! b)).
  assert (0 <= h < 2 ^ 31 /\ h <= total (snd s)) as [Hh Hht].
  { subst h. destruct (snd s !! b) as [v|] eqn:Hb; simpl; [|lia].
    split; [by apply (map_Forall_lookup_1 _ _ _ _ Hall Hb)|].
    by apply (total_bound (snd s) Hall b). }
  destruct (_ || _) eqn:Hg; cbn [fst snd].
  - unfold sb_ok. cbn [fst snd with_sbsize ui_sbsize]. rewrite total_insert. fold h.
    split_and!; try lia. by apply map_Forall_insert_2.
  - unfold sb_ok. cbn [fst snd]. rewrite total_insert. fold h. split_and!; try lia.
    by apply map_Forall_insert_2.
Qed.

(** The socket buffer account of a user is right after any sequence of changes,
    granted or refused: [ui_sbsize] is the sum of the buffers' sizes, and it is
    above the user's limit only if it was so at the start (buffers and requests
    below 2 GB, where [chgsbsize]'s 32-bit difference is exact). *)
Theorem chgsbsize_accounts l max s : sb_ok s -> 0 <= max < 2 ^ 62 -> total (snd s) < 2 ^ 62 ->
  Forall (fun x => 0 <= snd x < 2 ^ 31) l ->
  let s' := sb_run l max s in
  sb_ok s' /\ total (snd s') <= Z.max max (total (snd s)).
Proof.
  intros Hok Hmax Htot Hl. revert s Hok Htot.
  induction Hl as [|[b to] l Hto Hl IH]; intros s Hok Htot; [cbn; split; [done|lia]|].
  cbn [sb_run]. pose proof (sb_step s b to max Hok Hto ltac:(lia) Htot) as Hstep.
  destruct (chgsbsize _ _ _ _) as [[rv uip] hiwat]. cbn zeta in Hstep. destruct Hstep as [Hok' Ht'].
  destruct (IH (uip, <[b := hiwat]> (snd s)) Hok' ltac:(lia)) as [H1 H2]. split; [done|]. lia.
Qed.

Definition demo_user : uidinfo * gmap positive Z :=
  ({| ui_sbsize := 0; ui_proccnt := 0; ui_ptscnt := 0; ui_kqcnt := 0; ui_umtxcnt := 0 |}, ∅).

Lemma chgsbsize_accounts_witness :
  ui_sbsize (fst (sb_run [(1%positive, 600); (2%positive, 500); (2%positive, 300); (1%positive, 100)]
    1000 demo_user)) = 400 /\
  total (snd (sb_run [(1%positive, 600); (2%positive, 500); (2%positive, 300); (1%positive, 100)]
    1000 demo_user)) <= 1000.
Proof.
  split; [vm_compute; reflexivity|].
  apply (chgsbsize_accounts
    [(1%positive, 600); (2%positive, 500); (2%positive, 300); (1%positive, 100)] 1000 demo_user).
  - split; [reflexivity|]. split; [vm_compute; discriminate|apply map_Forall_empty].
  - lia.
  - reflexivity.
  - repeat constructor; simpl; lia.
Defined.

(** ** Groups *)

(** The groups of a credential: the supplemental ones, from index 1, are sorted. *)
Definition cred_ok (cred : ucred) : Prop :=
  cr_ngroups cred = Z.of_nat (length (cr_groups cred)) /\ 1 <= cr_ngroups cred < 2 ^ 31 /\
  forall i j gi gj, (1 <= i < j)%nat -> cr_groups cred !! i = Some gi ->
    cr_groups cred !! j = Some gj -> gi <= gj.

Lemma group_at_Some cred i : cred_ok cred -> 0 <= i < cr_ngroups cred ->
  exists g, group_at cred i = Ok g /\ cr_groups cred !! Z.to_nat i = Some g.
Proof.
  intros (Hn & _ & _) Hi. unfold group_at. rewrite (proj2 (Z.ltb_ge i 0)) by lia.
  destruct (lookup_lt_is_Some_2 (cr_groups cred) (Z.to_nat i)) as [g Hg]; [lia|].
  exists g. by rewrite Hg.
Qed.

(** The search ends on the first supplemental group that is not below [gid], and
    never reads outside of the array. *)
Lemma groupmember_search_ok gid cred : cred_ok cred ->
  forall n l h, h - l <= Z.of_nat n -> 1 <= l <= h -> h <= cr_ngroups cred ->
  (forall i g, (1 <= i)%nat -> Z.of_nat i < l -> cr_groups cred !! i = Some g -> g < gid) ->
  (forall i g, h <= Z.of_nat i -> cr_groups cred !! i = Some g -> gid <= g) ->
  exists r, (forall m, (n <= m)%nat -> groupmember_search m gid cred l h = Ok r) /\ l <= r <= h /\
    (forall i g, (1 <= i)%nat -> Z.of_nat i < r -> cr_groups cred !! i = Some g -> g < gid) /\
    (forall i g, r <= Z.of_nat i -> cr_groups cred !! i = Some g -> gid <= g).
Proof.
  intros Hok n. pose proof Hok as (Hn & Hb & Hsorted). change (2 ^ 31) with 2147483648 in Hb.
  induction n as [|n IH]; intros l h Hd Hl Hh Hlo Hhi.
  { exists l. split; [|split_and!; auto; try lia; intros; apply (Hhi i); [lia|done]].
    intros m _. destruct m; simpl; by rewrite (proj2 (Z.ltb_ge l h)) by lia. }
  destruct (Z.ltb_spec l h) as [Hlt|Hge].
  2: { exists l. split; [|split_and!; auto; try lia; intros; apply (Hhi i); [lia|done]].
       intros m _. destruct m; simpl; by rewrite (proj2 (Z.ltb_ge l h)) by lia. }
  set (mid := l + (h - l) / 2).
  assert (l <= mid < h) as Hmid.
  { subst mid. pose proof (Z.div_pos (h - l) 2). pose proof (Z.div_lt_upper_bound (h - l) 2 (h - l)). lia. }
  assert (i32 (l + Z.quot (i32 (h - l)) 2) = mid) as Hm.
  { subst mid. rewrite (i32_id (h - l)) by (unfold in_i32; lia).
    rewrite Z.quot_div_nonneg by lia. apply i32_id. unfold in_i32. lia. }
  destruct (group_at_Some cred mid Hok) as (g & Hg & Hgl); [lia|].
  assert (forall m, (S n <= m)%nat -> groupmember_search m gid cred l h =
    if g <? gid then groupmember_search (Nat.pred m) gid cred (mid + 1) h
    else groupmember_search (Nat.pred m) gid cred l mid) as Hstep.
  { intros [|m] Hle; [lia|]. simpl. rewrite (proj2 (Z.ltb_lt l h)) by lia. cbn [negb].
    rewrite Hm, Hg. cbn [mbind outcome_bind]. by rewrite (i32_id (mid + 1)) by (unfold in_i32; lia). }
  destruct (Z.ltb_spec g gid) as [Hlg|Hlg].
  - destruct (IH (mid + 1) h) as (r & Hr & Hrb & Hr1 & Hr2); try lia; try done.
    { intros i gi Hi Hi' Hgi. destruct (decide (i = Z.to_nat mid)) as [->|]; [congruence|].
      enough (gi <= g) by lia. apply (Hsorted i (Z.to_nat mid)); [lia|done|done]. }
    exists r. split; [|split_and!; auto; lia].
    intros m Hle. rewrite Hstep by lia. apply Hr. lia.
  - destruct (IH l mid) as (r & Hr & Hrb & Hr1 & Hr2); try lia; try done.
    { intros i gi Hi Hgi. destruct (decide (i = Z.to_nat mid)) as [->|]; [congruence|].
      enough (g <= gi) by lia. apply (Hsorted (Z.to_nat mid) i); [lia|done|done]. }
    exists r. split; [|split_and!; auto; lia].
    intros m Hle. rewrite Hstep by lia. apply Hr. lia.
Qed.

(** [groupmember] returns, reads only inside of the array, and answers 1 exactly
    for the primary group and the supplemental groups. *)
Theorem groupmember_correct gid cred : cred_ok cred ->
  exists r, returns (fun n => groupmember n gid cred) r /\
    r = b2z (bool_decide (gid ∈ cr_groups cred)).
Proof.
  intros Hok. pose proof Hok as (Hn & Hb & _).
  destruct (group_at_Some cred 0 Hok) as (g0 & Hg0 & Hl0); [lia|].
  destruct (groupmember_search_ok gid cred Hok (Z.to_nat (cr_ngroups cred)) 1 (cr_ngroups cred))
    as (r & Hr & Hrb & Hlo & Hhi); try lia.
  { intros i g Hi Hg. apply lookup_lt_Some in Hg. lia. }
  exists (b2z (bool_decide (gid ∈ cr_groups cred))). split; [|done].
  exists (Z.to_nat (cr_ngroups cred)). intros m Hm. unfold groupmember.
  rewrite Hg0. cbn [mbind outcome_bind].
  destruct (Z.eqb_spec g0 gid) as [->|Hne].
  { rewrite bool_decide_eq_true_2; [done|by eapply list_elem_of_lookup_2]. }
  rewrite Hr by done. cbn [mbind outcome_bind].
  (* any group equal to [gid] is at the index found *)
  assert (forall i, cr_groups cred !! i = Some gid -> r <= Z.of_nat i) as Hin.
  { intros i Hi. destruct i as [|i]; [change (Z.to_nat 0) with O in Hl0; congruence|].
    apply Z.nlt_ge. intros Hlt. specialize (Hlo (S i) gid ltac:(lia) Hlt Hi). lia. }
  destruct (Z.ltb_spec r (cr_ngroups cred)) as [Hlt|Hge].
  - destruct (group_at_Some cred r Hok) as (g & -> & Hgl); [lia|]. cbn [mbind outcome_bind].
    f_equal. f_equal. apply Bool.eq_iff_eq_true. rewrite Z.eqb_eq, bool_decide_eq_true. split.
    + intros <-. by eapply list_elem_of_lookup_2.
    + intros [i Hi]%list_elem_of_lookup. pose proof (Hin i Hi).
      specialize (Hhi (Z.to_nat r) g ltac:(lia) Hgl).
      destruct (decide (i = Z.to_nat r)) as [->|]; [congruence|].
      destruct Hok as (_ & _ & Hs).
      specialize (Hs (Z.to_nat r) i g gid ltac:(lia) Hgl Hi). lia.
  - rewrite bool_decide_eq_false_2; [done|]. intros [i Hi]%list_elem_of_lookup.
    pose proof (Hin i Hi). apply lookup_lt_Some in Hi. lia.
Qed.

Definition demo_cred : ucred := {| cr_groups := [20; 3; 5; 9; 14]; cr_ngroups := 5 |}.

Lemma groupmember_correct_witness :
  groupmember 5 9 demo_cred = Ok 1 /\ groupmember 5 10 demo_cred = Ok 0 /\
  exists r, returns (fun n => groupmember n 9 demo_cred) r /\
    r = b2z (bool_decide (9 ∈ cr_groups demo_cred)).
Proof.
  split; [reflexivity|]. split; [reflexivity|].
  apply (groupmember_correct 9 demo_cred). split; [reflexivity|]. split; [simpl; lia|].
  intros i j gi gj Hij Hi Hj. simpl in Hi, Hj.
  destruct i as [|[|[|[|[|i]]]]], j as [|[|[|[|[|j]]]]]; simpl in Hi, Hj; try lia;
    try discriminate; injection Hi as <-; injection Hj as <-; lia.
Defined.

(** ** Credentials *)

(** The uses of a credential. *)
Inductive cred_op : Type := CrHold | CrFree.

Section Creds.
  Context (refcount_acquire : Z -> Z) (refcount_release : Z -> Z * bool).
  (** Documented in refcount(9), for counts that do not overflow. *)
  Context (acquire_ok : forall n, 0 < n < 2 ^ 31 -> refcount_acquire n = n + 1).
  Context (release_ok : forall n, 0 < n < 2 ^ 31 -> refcount_release n = (n - 1, n =? 1)).

Fixpoint cred_run (l : list cred_op) (cr : positive) (m : creds) : outcome creds :=
  match l with
  | [] => Ok m
  | CrHold :: l => m ← crhold refcount_acquire cr m; cred_run l cr m
  | CrFree :: l => m ← crfree refcount_release cr m; cred_run l cr m
  end.

(** The holders after some uses, of [n] at first. *)
Definition holders (n : Z) (l : list cred_op) : Z :=
  foldl (fun n o => match o with CrHold => n + 1 | CrFree => n - 1 end) n l.

Lemma cred_run_count l : forall cr m n, m !! cr = Some n -> 0 < n ->
  n + Z.of_nat (length l) < 2 ^ 31 ->
  (forall k, (k < length l)%nat ->
     0 < holders n (take k l)) ->
  exists m', cred_run l cr m = Ok m' /\
    let r := holders n l in
    m' !! cr = (if r =? 0 then None else Some r) /\
    forall c, c <> cr -> m' !! c = m !! c.
Proof.
  induction l as [|o l IH]; intros cr m n Hm Hn Hlen Hk.
  - exists m. cbn. rewrite (proj2 (Z.eqb_neq n 0)) by lia. done.
  - cbn [length] in *. destruct o; unfold holders; cbn [cred_run foldl].
    + unfold crhold. rewrite Hm. cbn [mbind outcome_bind]. rewrite acquire_ok by lia.
      destruct (IH cr (<[cr := n + 1]> m) (n + 1)) as (m' & H1 & H2 & H3);
        [by rewrite lookup_insert_eq|lia|lia| |].
      { intros k Hkl. apply (Hk (S k)). lia. }
      exists m'. split; [done|]. split; [done|]. intros c Hc. rewrite H3 by done.
      by rewrite lookup_insert_ne.
    + unfold crfree. rewrite Hm. rewrite release_ok by lia.
      destruct (Z.eqb_spec n 1) as [->|Hne]; cbn [mbind outcome_bind].
      * destruct l as [|o l].
        -- exists (delete cr m). cbn. split; [done|]. split; [apply lookup_delete_eq|].
           intros c Hc. by rewrite lookup_delete_ne.
        -- specialize (Hk 1%nat ltac:(cbn; lia)). cbn in Hk. lia.
      * destruct (IH cr (<[cr := n - 1]> m) (n - 1)) as (m' & H1 & H2 & H3);
          [by rewrite lookup_insert_eq|lia|lia| |].
        { intros k Hkl. apply (Hk (S k)). lia. }
        exists m'. split; [done|]. split; [done|]. intros c Hc. rewrite H3 by done.
        by rewrite lookup_insert_ne.
Qed.

(** A credential from [crget] whose holders each free it once stays in memory as
    long as there is a holder, is freed by the last one, is never used after
    that, and no other credential is touched. *)
Theorem cred_lifetime l cr m : Z.of_nat (length l) < 2 ^ 31 - 1 ->
  (forall k, (k < length l)%nat -> 0 < holders 1 (take k l)) ->
  exists m', cred_run l cr (crget cr m) = Ok m' /\
    (is_Some (m' !! cr) <-> holders 1 l <> 0) /\ forall c, c <> cr -> m' !! c = m !! c.
Proof.
  intros Hlen Hk.
  destruct (cred_run_count l cr (crget cr m) 1) as (m' & H1 & H2 & H3);
    [apply lookup_insert_eq|lia|lia|done|].
  exists m'. split; [done|]. split.
  - rewrite H2. destruct (Z.eqb_spec (holders 1 l) 0) as [Hz|Hz].
    + split; [by intros [? ?]|done].
    + split; [done|by eexists].
  - intros c Hc. rewrite H3 by done. unfold crget. by rewrite lookup_insert_ne.
Qed.
End Creds.

Lemma cred_lifetime_witness :
  cred_run (fun n => n + 1) (fun n => (n - 1, n =? 1)) [CrHold; CrFree; CrFree] 1 (crget 1 ∅) = Ok ∅ /\
  exists m', cred_run (fun n => n + 1) (fun n => (n - 1, n =? 1)) [CrHold; CrFree] 1 (crget 1 ∅) = Ok m' /\
    is_Some (m' !! 1%positive).
Proof.
  split; [reflexivity|].
  destruct (cred_lifetime (fun n => n + 1) (fun n => (n - 1, n =? 1)) (fun n _ => eq_refl)
    (fun n _ => eq_refl) [CrHold; CrFree] 1 ∅) as (m' & H1 & H2 & _).
  - simpl. lia.
  - intros k Hk. destruct k as [|[|k]]; [reflexivity|reflexivity|simpl in Hk; lia].
  - exists m'. split; [exact H1|]. apply H2. discriminate.
Defined.
