(* ===== verification/Proc0.v ===== *)
(** * Proc0: the process and the thread of the stack, [proc0_init] of [bsd/lib/lazybsd_main.c]

    The stack runs as one process with one thread.  The task [proc0_init] gives them their flags and
    priorities, their callouts ([Callout]), a credential that they share and the limits of their
    resources ([Limits]).  Parts of the function that are not compiled are left out. *)
From S2P Require Import Prelude Callout Limits.

(** What the headers of FreeBSD define. *)
Class ProcHeaders := {
  P_MAGIC : Z; P_SYSTEM : Z; P_INMEM : Z; PRS_NORMAL : Z; NZERO : Z; PID_MAX : Z; TDS_RUNNING : Z; PRI_TIMESHARE : Z;
  PUSER : Z; PVM : Z; TDF_INMEM : Z; TDP_KTHREAD : Z; RLIM_INFINITY : Z; RLIM_NLIMITS : nat;
  RLIMIT_NOFILE : nat; RLIMIT_NPROC : nat; RLIMIT_DATA : nat; RLIMIT_STACK : nat; RLIMIT_RSS : nat; RLIMIT_MEMLOCK : nat }.

(** The variables that [init_param1] and [init_param2] set from the environment and the size of the memory. *)
Record params := Params { maxfiles : Z; maxproc : Z; dfldsiz : Z; maxdsiz : Z; dflssiz : Z; maxssiz : Z }.

(** The fields of [proc0], [thread0] and of the credential that are set; a pointer to a structure of the program
    is its address, NULL is 0. *)
Record proc := Proc {
  p_magic : Z; p_sysent : Z; p_flag : Z; p_state : Z; p_klist : Z; p_nice : Z; p_peers : Z; p_leader : Z; p_comm : string;
  p_ucred : positive; p_fd : Z; p_fdtol : Z; p_limit : positive; p_cpulimit : Z }.
Record thread := Thread {
  td_tid : Z; td_state : Z; td_pri_class : Z; td_user_pri : Z; td_base_user_pri : Z; td_priority : Z; td_base_pri : Z;
  td_oncpu : Z; td_flags : Z; td_proc : Z; td_name : string; td_ucred : positive }.
Record cred := Cred { cr_ngroups : Z; cr_uidinfo : Z; cr_ruidinfo : Z; cr_prison : Z }.

(** What the code uses of the rest of the kernel: the addresses of variables and of new structures. *)
Class ProcKernel := {
  init_params : Z -> params;
  proc0 : Z; null_sysvec : Z; uid0 : Z; prison0 : Z;
  knlist_alloc : Z; fdinit : Z; new_cred : positive; new_plimit : positive;
  p_itcallout : ptr; p_limco : ptr; td_slpcallout : ptr; p_mtx : positive;
  PAGE_SHIFT : Z }.

(** The references to credentials and limits, the callouts, and the events that were announced. *)
Record world := World { creds_of : creds; plimits_of : creds; callouts : Callout.state; announced : list string }.

Section Proc0.
Context `{ProcHeaders} `{ProcKernel} (refcount_acquire : Z -> Z).

(** [uifind] of [bsd/lib/lazybsd_patch.c]: every user is the same. *)
Definition uifind (uid : Z) : Z := uid0.

(** [vm_free_count] of [bsd/lib/lazybsd_patch.c]; nothing sets the count of the first domain. *)
Definition vm_free_count (vmd_free_count : Z) : Z := u32 vmd_free_count.

(** [pl_rlimit[which].rlim_cur = cur, pl_rlimit[which].rlim_max = max] *)
Definition set_limit (which : nat) (cur max : Z) (l : list rlimit) : outcome (list rlimit) :=
  if (which <? length l)%nat then Ok (<[which := {| rlim_cur := cur; rlim_max := max |}]> l) else Panic.

(** The limits of the process. *)
Definition proc0_limits (k : params) (vmd_free_count : Z) : outcome (list rlimit) :=
  let l := replicate RLIM_NLIMITS {| rlim_cur := RLIM_INFINITY; rlim_max := RLIM_INFINITY |} in
  l ← set_limit RLIMIT_NOFILE (maxfiles k) (maxfiles k) l;
  l ← set_limit RLIMIT_NPROC (maxproc k) (maxproc k) l;
  l ← set_limit RLIMIT_DATA (dfldsiz k) (maxdsiz k) l;
  l ← set_limit RLIMIT_STACK (dflssiz k) (maxssiz k) l;
  let pageablemem := u64 (Z.shiftl (vm_free_count vmd_free_count) PAGE_SHIFT) in
  l ← set_limit RLIMIT_RSS pageablemem pageablemem l;
  set_limit RLIMIT_MEMLOCK (pageablemem / 3) pageablemem l.

Definition proc0_init (physmem vmd_free_count : Z) (w : world) : outcome (proc * thread * cred * list rlimit * world) :=
  let k := init_params physmem in
  let c := callout_init 0 p_itcallout true (callouts w) in
  let c := _callout_init_lock 0 p_limco (Lock p_mtx) false false c in
  let c := callout_init 0 td_slpcallout true c in
  let crs := crget new_cred (creds_of w) in
  let cr := Cred 1 (uifind 0) (uifind 0) prison0 in
  crs ← crhold refcount_acquire new_cred crs;
  let lims := lim_alloc new_plimit (plimits_of w) in
  l ← proc0_limits k vmd_free_count;
  Ok (Proc P_MAGIC null_sysvec (Z.lor P_SYSTEM P_INMEM) PRS_NORMAL knlist_alloc NZERO 0 proc0 "kernel" new_cred fdinit 0 new_plimit RLIM_INFINITY,
      Thread (PID_MAX + 1) TDS_RUNNING PRI_TIMESHARE PUSER PUSER PVM PUSER 0 (Z.lor TDF_INMEM TDP_KTHREAD) proc0 "swapper" new_cred,
      cr, l, World crs lims c (announced w ++ ["process_init"; "thread_init"; "process_ctor"; "thread_ctor"]%string)).

(** Documented in refcount(9). *)
Context (acquire_ok : forall n, 0 < n < 2 ^ 31 -> refcount_acquire n = n + 1).
(** The numbers of the resources are different, and smaller than their count. *)
Definition resources : list nat := [RLIMIT_NOFILE; RLIMIT_NPROC; RLIMIT_DATA; RLIMIT_STACK; RLIMIT_RSS; RLIMIT_MEMLOCK].
Context (doc_resources : NoDup resources /\ Forall (fun r => (r < RLIM_NLIMITS)%nat) resources).

Lemma set_limit_run which cur max l : (which < length l)%nat -> set_limit which cur max l = Ok (<[which := {| rlim_cur := cur; rlim_max := max |}]> l).
Proof. intros Hw. unfold set_limit. by rewrite (proj2 (Nat.ltb_lt _ _) Hw). Qed.

Definition rl (cur max : Z) : rlimit := {| rlim_cur := cur; rlim_max := max |}.
(** The limit of a resource. *)
Definition limit_of (k : params) (pageablemem : Z) (which : nat) : rlimit :=
  if decide (which = RLIMIT_NOFILE) then rl (maxfiles k) (maxfiles k)
  else if decide (which = RLIMIT_NPROC) then rl (maxproc k) (maxproc k)
  else if decide (which = RLIMIT_DATA) then rl (dfldsiz k) (maxdsiz k)
  else if decide (which = RLIMIT_STACK) then rl (dflssiz k) (maxssiz k)
  else if decide (which = RLIMIT_RSS) then rl pageablemem pageablemem
  else if decide (which = RLIMIT_MEMLOCK) then rl (pageablemem / 3) pageablemem
  else rl RLIM_INFINITY RLIM_INFINITY.

Lemma limits_run k v : exists l, proc0_limits k v = Ok l /\
  forall which, (which < RLIM_NLIMITS)%nat -> l !! which = Some (limit_of k (u64 (Z.shiftl (vm_free_count v) PAGE_SHIFT)) which).
Proof.
  pose proof doc_resources as [Hn Hf]. clear doc_resources. unfold resources in Hn, Hf.
  repeat (apply NoDup_cons in Hn as [? Hn]; apply Forall_cons in Hf as [? Hf]). rewrite !not_elem_of_cons in *. destruct_and!.
  unfold proc0_limits.
  do 6 (rewrite set_limit_run by (rewrite ?length_insert, length_replicate; assumption); cbn [mbind outcome_bind]).
  eexists. split; [reflexivity|]. intros which Hw. unfold limit_of.
  repeat (case_decide; [subst which;
    repeat first [rewrite list_lookup_insert_eq by (rewrite ?length_insert, length_replicate; done); done | rewrite list_lookup_insert_ne by congruence]|]).
  rewrite !list_lookup_insert_ne by congruence. by rewrite lookup_replicate_2.
Qed.

(** The process of the stack is ready to run.  [proc0_init] ends; every resource has a limit, that of the table, with a
    current value no greater than the maximum; the process and the thread hold the only two references to one
    credential; and the callouts of both can be called. *)
Theorem proc0_ready physmem v w :
  let k := init_params physmem in
  let pageablemem := u64 (Z.shiftl (vm_free_count v) PAGE_SHIFT) in
  dfldsiz k <= maxdsiz k -> dflssiz k <= maxssiz k -> p_itcallout <> p_limco -> p_itcallout <> td_slpcallout -> p_limco <> td_slpcallout ->
  exists p td cr l w', proc0_init physmem v w = Ok (p, td, cr, l, w') /\
    (forall which, (which < RLIM_NLIMITS)%nat ->
       lim_rlimit_proc None l which = Ok (limit_of k pageablemem which) /\
       rlim_cur (limit_of k pageablemem which) <= rlim_max (limit_of k pageablemem which)) /\
    p_ucred p = td_ucred td /\ creds_of w' !! p_ucred p = Some 2 /\ plimits_of w' !! p_limit p = Some 1 /\ td_proc td = p_leader p /\
    (forall c, c ∈ [p_itcallout; p_limco; td_slpcallout] -> runnable (co_get (callouts w') c) /\ pending (callouts w') c = false).
Proof.
  intros k pageablemem Hd Hs C1 C2 C3. destruct (limits_run k v) as (l & El & Hl).
  unfold proc0_init, crget, crhold. rewrite lookup_insert_eq. cbn [mbind outcome_bind]. fold k. rewrite El. cbn [mbind outcome_bind].
  eexists _, _, _, _, _. split; [reflexivity|]. cbn [p_ucred td_ucred creds_of plimits_of p_limit td_proc p_leader callouts].
  split_and!; try done.
  - intros which Hw. unfold lim_rlimit_proc. rewrite (Hl which Hw). split; [done|]. fold pageablemem.
    assert (0 <= pageablemem) by apply u64_range. unfold limit_of. repeat case_decide; cbn; try lia. Z.div_mod_to_equations. lia.
  - rewrite lookup_insert_eq. by rewrite acquire_ok.
  - unfold lim_alloc. by rewrite lookup_insert_eq.
  - intros c Hc. rewrite !elem_of_cons, elem_of_nil in Hc. unfold callout_init, _callout_init_lock, runnable, pending, co_get, co_put, set_co. cbn [co].
    destruct Hc as [->|[->|[->|[]]]]; rewrite ?lookup_insert_ne, ?lookup_insert_eq by congruence; cbn; auto.
Qed.
End Proc0.

(** ** Example: the numbers of FreeBSD; no page is free. *)
#[export] Instance example_proc_headers : ProcHeaders := {|
  P_MAGIC := 0xbeefface; P_SYSTEM := 0x200; P_INMEM := 0x10000000; PRS_NORMAL := 1; NZERO := 0; PID_MAX := 99999;
  TDS_RUNNING := 4; PRI_TIMESHARE := 3; PUSER := 120; PVM := 84; TDF_INMEM := 4; TDP_KTHREAD := 0x200000;
  RLIM_INFINITY := 2 ^ 63 - 1; RLIM_NLIMITS := 15; RLIMIT_NOFILE := 8; RLIMIT_NPROC := 7; RLIMIT_DATA := 2; RLIMIT_STACK := 3;
  RLIMIT_RSS := 5; RLIMIT_MEMLOCK := 6 |}.
#[export] Instance example_proc_kernel : ProcKernel := {|
  init_params m := Params 1024 64 (2 ^ 27) (2 ^ 35) (2 ^ 23) (2 ^ 29);
  proc0 := 0x1000; null_sysvec := 0x2000; uid0 := 0x3000; prison0 := 0x4000; knlist_alloc := 0x5000; fdinit := 0x6000;
  new_cred := 1%positive; new_plimit := 2%positive; p_itcallout := 10%positive; p_limco := 11%positive; td_slpcallout := 12%positive;
  p_mtx := 20%positive; PAGE_SHIFT := 12 |}.
Definition idle_exec : cc_exec := {| cc_curr := None; cc_drain := None; cc_cancel := false; cc_waiting := false |}.
Definition example_world : world := World ∅ ∅
  {| cc_exec0 := idle_exec; cc_exec1 := idle_exec; cc_next := None; cc_callwheel := []; cc_expireq := []; cc_callfree := []; cc_softticks := 0;
     cc_bucket := 0; cc_inited := true; callwheelmask := 0; co := ∅; ticks := 0; fired := [] |} [].

Lemma proc0_ready_witness : exists p td cr l w', proc0_init Z.succ 0 0 example_world = Ok (p, td, cr, l, w') /\
  lim_cur_proc None l RLIMIT_RSS = Ok 0 /\ lim_cur_proc None l RLIMIT_DATA = Ok (2 ^ 27) /\ creds_of w' !! td_ucred td = Some 2.
Proof.
  destruct (proc0_ready Z.succ ltac:(done) ltac:(split; [by apply (bool_decide_unpack _); vm_compute|repeat constructor]) 0 0 example_world)
    as (p & td & cr & l & w' & E & Hl & Hc & H2 & _); [cbn; lia|cbn; lia|done|done|done|].
  exists p, td, cr, l, w'. split; [exact E|]. split; [|split].
  - unfold lim_cur_proc. destruct (Hl RLIMIT_RSS ltac:(by apply Nat.ltb_lt)) as [-> _]. done.
  - unfold lim_cur_proc. destruct (Hl RLIMIT_DATA ltac:(by apply Nat.ltb_lt)) as [-> _]. done.
  - rewrite <- Hc. exact H2.
Defined.
