(* ===== verification/Env.v ===== *)
(** * Env: the kernel environment of [bsd/lib/lazybsd_kern_environment.c]

    [kern_getenv] and [kern_setenv] are the host's [getenv] and [setenv]
    ([src/lazybsd_host.c]); the static environment ([kern_envp], [md_envp]) and the
    dynamic one are searched by [kenv_acquire], for [getenv_array].

    A C string is the list of its characters before the NUL; a pointer into a
    string is the part of the string from there on.  A block of memory with several
    strings is the list of its bytes, NULs included, and a pointer into it the rest
    of the block: reading beyond its end is [Panic]. *)
From S2P Require Import Prelude.

Abbreviation cstr := (list Z).

(** Character constants. *)
Definition ch_tab : Z := 9.
Definition ch_space : Z := 32.
Definition ch_comma : Z := 44.
Definition ch_eq : Z := 61.
Definition ch_T : Z := 84.
Definition ch_t : Z := 116.
Definition ch_G : Z := 71.
Definition ch_g : Z := 103.
Definition ch_M : Z := 77.
Definition ch_m : Z := 109.
Definition ch_K : Z := 75.
Definition ch_k : Z := 107.

(** The character at an index of a string; its NUL is at [length s]. *)
Definition at_ (s : cstr) (i : nat) : Z := default 0 (s !! i).

(** [strncmp(a, b, n) == 0] of the C library. *)
Fixpoint strncmp_eq (a b : cstr) (n : nat) : bool :=
  match n with
  | O => true
  | S n => (at_ a 0 =? at_ b 0) && ((at_ a 0 =? 0) || strncmp_eq (tail a) (tail b) n)
  end.

(** ** The host's environment *)

Abbreviation hostenv := (gmap cstr cstr).

Definition kern_getenv (env : hostenv) (name : cstr) : option cstr := env !! name.

(** [setenv(name, value, 1)] of the C library: -1 for a name that is empty or has
    an equals sign. *)
Definition kern_setenv (env : hostenv) (name value : cstr) : Z * hostenv :=
  if bool_decide (name = []) || bool_decide (ch_eq ∈ name) then (-1, env)
  else (0, <[name := value]> env).

Definition testenv (env : hostenv) (name : cstr) : Z :=
  match kern_getenv env name with Some _ => 1 | None => 0 end.

Section Strings.
  (** [strlcpy(data, tmp, size)]: the string left in [data]. *)
  Context (strlcpy : cstr -> cstr -> Z -> cstr).

Definition getenv_string (env : hostenv) (name data : cstr) (size : Z) : Z * cstr :=
  match kern_getenv env name with
  | Some tmp => (1, strlcpy data tmp size)
  | None => (0, data)
  end.
End Strings.

(** ** Numbers *)

Section Numbers.
  (** [strtoq(s, &end, 0)] of [libkern]: the value and [end]. *)
  Context (strtoq : cstr -> Z * cstr).

(** The cases fall through: a suffix multiplies once for itself and once for
    each smaller one. *)
Definition quad_suffix (c iv : Z) : option Z :=
  let k iv := i64 (iv * 1024) in
  if (c =? ch_t) || (c =? ch_T) then Some (k (k (k (k iv))))
  else if (c =? ch_g) || (c =? ch_G) then Some (k (k (k iv)))
  else if (c =? ch_m) || (c =? ch_M) then Some (k (k iv))
  else if (c =? ch_k) || (c =? ch_K) then Some (k iv)
  else if c =? 0 then Some iv
  else None.

Definition getenv_quad (env : hostenv) (name : cstr) (data : Z) : Z * Z :=
  match kern_getenv env name with
  | None => (0, data)
  | Some value =>
      let '(iv, vtp) := strtoq value in
      if bool_decide (vtp = value) || (negb (at_ vtp 0 =? 0) && negb (at_ vtp 1 =? 0))
      then (0, data)
      else match quad_suffix (at_ vtp 0) iv with
           | Some iv => (1, iv)
           | None => (0, data)
           end
  end.

(** The callers store the low bits of the value: [cast] is the conversion to the
    type of [*data].  [tmp] starts with whatever is on the stack. *)
Definition getenv_cast (cast : Z -> Z) (env : hostenv) (name : cstr) (data : Z) : Z * Z :=
  let '(rval, tmp) := getenv_quad env name 0 in
  (rval, if negb (rval =? 0) then cast tmp else data).
Definition getenv_int : hostenv -> cstr -> Z -> Z * Z := getenv_cast i32.
Definition getenv_uint : hostenv -> cstr -> Z -> Z * Z := getenv_cast u32.
Definition getenv_long : hostenv -> cstr -> Z -> Z * Z := getenv_cast i64.
Definition getenv_ulong : hostenv -> cstr -> Z -> Z * Z := getenv_cast u64.

(** *** Arrays *)

(** The shift of a suffix, and whether it is a character to skip. *)
Definition array_suffix (c : Z) : option (Z * bool) :=
  if (c =? ch_t) || (c =? ch_T) then Some (40, true)
  else if (c =? ch_g) || (c =? ch_G) then Some (30, true)
  else if (c =? ch_m) || (c =? ch_M) then Some (20, true)
  else if (c =? ch_k) || (c =? ch_K) then Some (10, true)
  else if (c =? ch_space) || (c =? ch_tab) || (c =? ch_comma) || (c =? 0) then Some (0, false)
  else None.

(** The loop that skips tabs, commas and spaces. *)
Fixpoint skip_separators (s : cstr) : cstr :=
  match s with
  | c :: s' => if (c =? ch_tab) || (c =? ch_comma) || (c =? ch_space) then skip_separators s' else s
  | [] => s
  end.

(** What is stored for a value of a given [type_size]; [None] is [goto error]. *)
Definition array_store (type_size : Z) (allow_signed : bool) (value : Z) : option Z :=
  if type_size =? 1 then
    if (if allow_signed then (value <? -128) || (127 <? value) else (value <? 0) || (255 <? value))
    then None else Some (u8 value)
  else if type_size =? 2 then
    if (if allow_signed then (value <? -32768) || (32767 <? value)
        else (value <? 0) || (65535 <? value))
    then None else Some (u16 value)
  else if type_size =? 4 then
    if (if allow_signed then (value <? INT_MIN) || (INT_MAX <? value) else UINT_MAX <? value)
    then None else Some (u32 value)
  else if type_size =? 8 then Some (u64 value)
  else None.

(** One iteration: the element stored, and the text after it. *)
Definition array_item (type_size : Z) (allow_signed : bool) (ptr : cstr) : option (Z * cstr) :=
  let '(value, end_) := strtoq ptr in
  if (value <? 0) && negb allow_signed then None else
  if bool_decide (ptr = end_) then None else
  match array_suffix (at_ end_ 0) with
  | None => None
  | Some (shift, skip) =>
      let end_ := if skip : bool then tail end_ else end_ in
      let end_ := skip_separators end_ in
      let old := value in
      let value := i64 (Z.shiftl value shift) in
      if negb (Z.shiftr value shift =? old) then None else
      v ← array_store type_size allow_signed value; Some (v, end_)
  end.

(** The loop, with the elements stored so far, latest first. *)
Fixpoint array_loop (fuel : nat) (type_size : Z) (allow_signed : bool) (size : Z) (ptr : cstr)
    (pdata : list Z) : outcome (bool * list Z) :=
  match ptr with
  | [] => Ok (true, pdata)
  | _ :: _ =>
      match fuel with
      | O => Diverge
      | S fuel =>
          match array_item type_size allow_signed ptr with
          | None => Ok (false, pdata)
          | Some (v, ptr) =>
              if size <=? Z.of_nat (length pdata) then Ok (false, pdata)
              else array_loop fuel type_size allow_signed size ptr (v :: pdata)
          end
      end
  end.

(** The value returned, the elements stored in [pdata] and the new [*psize]. *)
Definition getenv_array (fuel : nat) (kenv_acquire : cstr -> outcome (option cstr)) (name : cstr)
    (size psize type_size : Z) (allow_signed : bool) : outcome (Z * list Z * Z) :=
  buf ← kenv_acquire name;
  match buf with
  | None => Ok (0, [], psize)
  | Some buf =>
      if type_size =? 0 then Panic else
      r ← array_loop fuel type_size allow_signed (Z.quot size type_size) buf [];
      let '(done_, pdata) := r in
      if done_ : bool then
        let n := Z.of_nat (length pdata) in
        Ok (b2z (negb (n =? 0)), reverse pdata, i32 (n * type_size))
      else Ok (0, reverse pdata, psize)
  end.
End Numbers.

(** ** The kernel's own environments *)

(** Memory from a pointer on. *)
Abbreviation mem := (list Z).

(** The string at a pointer; [None] if it is not terminated. *)
Fixpoint str_at (cp : mem) : option cstr :=
  match cp with
  | [] => None
  | c :: cp => if c =? 0 then Some [] else s ← str_at cp; Some (c :: s)
  end.

(** The loop of [kernenv_next], and the [cp++] after it. *)
Fixpoint skip_string (cp : mem) : outcome mem :=
  match cp with
  | [] => Panic
  | c :: cp => if c =? 0 then Ok cp else skip_string cp
  end.

Definition kernenv_next (cp : option mem) : outcome (option mem) :=
  match cp with
  | None => Ok None
  | Some cp =>
      cp ← skip_string cp;
      match cp with
      | [] => Panic
      | c :: _ => Ok (if c =? 0 then None else Some cp)
      end
  end.

(** The inner loop of [_getenv_static_from], to the first equals sign or NUL: the
    characters passed, and [ep]. *)
Fixpoint skip_name (cp : mem) : outcome (cstr * mem) :=
  match cp with
  | [] => Panic
  | c :: cp' =>
      if (c =? ch_eq) || (c =? 0) then Ok ([], cp)
      else r ← skip_name cp'; let '(s, ep) := r in Ok (c :: s, ep)
  end.

Fixpoint _getenv_static_from (fuel : nat) (chkenv : option mem) (name : cstr)
    : outcome (option mem) :=
  match chkenv with
  | None => Ok None
  | Some cp =>
      match fuel with
      | O => Diverge
      | S fuel =>
          r ← skip_name cp;
          let '(s, ep) := r in
          let len := length s in
          if (at_ ep 0 =? ch_eq) && (strncmp_eq name cp len && (at_ name len =? 0))
          then Ok (Some (tail ep))
          else next ← kernenv_next (Some cp); _getenv_static_from fuel next name
      end
  end.

(** The index and the value's pointer. *)
Fixpoint _getenv_dynamic_locked (kenvp : list cstr) (i : nat) (name : cstr) : option (nat * cstr) :=
  match kenvp with
  | [] => None
  | cp :: kenvp =>
      let len := length name in
      if strncmp_eq cp name len && (at_ cp len =? ch_eq) then Some (i, drop (S len) cp)
      else _getenv_dynamic_locked kenvp (S i) name
  end.

(** The environments of the kernel. *)
Record kenv : Type := {
  kern_envp : option mem; md_envp : option mem; kenvp : list cstr; dynamic_kenv : bool
}.

(** As the program starts; no code assigns them. *)
Definition kenv_start : kenv :=
  {| kern_envp := None; md_envp := None; kenvp := []; dynamic_kenv := false |}.

Definition _getenv_static (fuel : nat) (k : kenv) (name : cstr) : outcome (option mem) :=
  val ← _getenv_static_from fuel (md_envp k) name;
  match val with
  | Some v => Ok (Some v)
  | None => _getenv_static_from fuel (kern_envp k) name
  end.

Definition kenv_acquire (fuel : nat) (k : kenv) (name : cstr) : outcome (option cstr) :=
  if dynamic_kenv k then Ok (snd <$> _getenv_dynamic_locked (kenvp k) 0 name)
  else v ← _getenv_static fuel k name;
       match v with
       | None => Ok None
       | Some cp => match str_at cp with Some s => Ok (Some s) | None => Panic end
       end.

(** ** Numbers *)

(** A C string has no NUL. *)
Definition no_nul (s : cstr) : Prop := Forall (fun c => c <> 0) s.

(** What [strtoq] is documented to do with its input: [end] is a part of it. *)
Definition strtoq_spec (strtoq : cstr -> Z * cstr) : Prop :=
  forall s, suffix (snd (strtoq s)) s.

Lemma at_0 s : no_nul s -> (at_ s 0 =? 0) = bool_decide (s = []).
Proof.
  intros Hs. destruct s as [|c s]; [done|]. apply Forall_cons in Hs as [Hc _].
  rewrite bool_decide_eq_false_2 by done. by apply Z.eqb_neq.
Qed.

Lemma at_1 s : no_nul s -> (at_ s 1 =? 0) = bool_decide (length s <= 1)%nat.
Proof.
  intros Hs. destruct s as [|c [|d s]]; [done..|].
  apply Forall_cons in Hs as [_ [Hd _]%Forall_cons].
  rewrite bool_decide_eq_false_2 by (simpl; lia). by apply Z.eqb_neq.
Qed.

Lemma i64_mod z : (i64 z) mod 2 ^ 64 = z mod 2 ^ 64.
Proof. unfold swrap. rewrite Zminus_mod_idemp_l. f_equal. lia. Qed.

Lemma i64_cong a b : a mod 2 ^ 64 = b mod 2 ^ 64 -> i64 a = i64 b.
Proof.
  unfold swrap. intros H. f_equal. rewrite <- Zplus_mod_idemp_l, H, Zplus_mod_idemp_l. done.
Qed.

Lemma i64_mul_l a b : i64 (i64 a * b) = i64 (a * b).
Proof. apply i64_cong. rewrite <- Zmult_mod_idemp_l, i64_mod, Zmult_mod_idemp_l. done. Qed.

(** Narrowing a [quad_t]. *)
Lemma mod_i64 w z : 0 <= w <= 64 -> (i64 z) mod 2 ^ w = z mod 2 ^ w.
Proof.
  intros Hw. assert (2 ^ 64 = 2 ^ w * 2 ^ (64 - w)) as Hp by (rewrite <- Z.pow_add_r by lia; f_equal; lia).
  assert (forall a b, a mod 2 ^ 64 = b mod 2 ^ 64 -> a mod 2 ^ w = b mod 2 ^ w) as H.
  { intros a b Hab. rewrite (Z.div_mod a (2 ^ 64)), (Z.div_mod b (2 ^ 64)), Hab by lia.
    rewrite Hp, <- !Z.mul_assoc, !(Z.mul_comm (2 ^ w)), !(Z.add_comm (_ * 2 ^ w)).
    by rewrite !Z.mod_add by (apply Z.pow_nonzero; lia). }
  apply H, i64_mod.
Qed.

Lemma cast_i64 z : i32 (i64 z) = i32 z /\ u32 (i64 z) = u32 z /\ i64 (i64 z) = i64 z /\
  u64 (i64 z) = u64 z.
Proof.
  split_and!.
  - apply i32_cong. apply (mod_i64 32). lia.
  - apply (mod_i64 32). lia.
  - apply i64_cong, i64_mod.
  - apply (mod_i64 64). lia.
Qed.

(** The power of 1024 that what follows the number stands for. *)
Definition quad_power (end_ : cstr) : option Z :=
  match end_ with
  | [] => Some 0
  | [c] => if bool_decide (c ∈ [ch_k; ch_K]) then Some 1
           else if bool_decide (c ∈ [ch_m; ch_M]) then Some 2
           else if bool_decide (c ∈ [ch_g; ch_G]) then Some 3
           else if bool_decide (c ∈ [ch_t; ch_T]) then Some 4 else None
  | _ => None
  end.

Lemma quad_suffix_char c iv : c <> 0 ->
  quad_suffix c iv = (fun k => i64 (iv * 1024 ^ k)) <$> quad_power [c].
Proof.
  intros Hc. unfold quad_suffix, quad_power.
  assert (forall x y, bool_decide (c ∈ [x; y]) = (c =? x) || (c =? y)) as Hin.
  { intros x y. apply Bool.eq_iff_eq_true.
    rewrite bool_decide_eq_true, orb_true_iff, !Z.eqb_eq. set_solver. }
  rewrite !Hin. rewrite (proj2 (Z.eqb_neq c 0)) by done.
  destruct ((c =? ch_t) || (c =? ch_T)) eqn:Ht.
  { assert (c = ch_t \/ c = ch_T) as [-> | ->] by (unfold ch_t, ch_T in *; lia);
      cbn -[Z.mul Z.pow]; f_equal; rewrite (i64_mul_l (iv * 1024)), ?(i64_mul_l (iv * 1024 * 1024)),
        ?(i64_mul_l (iv * 1024 * 1024 * 1024)); f_equal; ring. }
  destruct ((c =? ch_g) || (c =? ch_G)) eqn:Hg.
  { assert (c = ch_g \/ c = ch_G) as [-> | ->] by (unfold ch_g, ch_G in *; lia);
      cbn -[Z.mul Z.pow]; f_equal; rewrite (i64_mul_l (iv * 1024)), ?(i64_mul_l (iv * 1024 * 1024)),
        ?(i64_mul_l (iv * 1024 * 1024 * 1024)); f_equal; ring. }
  destruct ((c =? ch_m) || (c =? ch_M)) eqn:Hm.
  { assert (c = ch_m \/ c = ch_M) as [-> | ->] by (unfold ch_m, ch_M in *; lia);
      cbn -[Z.mul Z.pow]; f_equal; rewrite (i64_mul_l (iv * 1024)), ?(i64_mul_l (iv * 1024 * 1024)),
        ?(i64_mul_l (iv * 1024 * 1024 * 1024)); f_equal; ring. }
  destruct ((c =? ch_k) || (c =? ch_K)) eqn:Hk; cbn -[Z.mul Z.pow]; done.
Qed.

Section NumberProofs.
  Context (strtoq : cstr -> Z * cstr).
  Context (strtoq_ok : strtoq_spec strtoq).

(** The value of a variable, as the number it stands for. *)
Definition quad_value (value : cstr) : option Z :=
  let '(iv, end_) := strtoq value in
  if bool_decide (end_ = value) then None else (fun k => iv * 1024 ^ k) <$> quad_power end_.

Lemma getenv_quad_spec env name value data : env !! name = Some value -> no_nul value ->
  (forall iv end_, strtoq value = (iv, end_) -> in_i64 iv) ->
  getenv_quad strtoq env name data =
    match quad_value value with Some z => (1, i64 z) | None => (0, data) end.
Proof.
  intros Hv Hn Hiv. unfold getenv_quad, kern_getenv, quad_value. rewrite Hv.
  pose proof (strtoq_ok value) as Hs. destruct (strtoq value) as [iv end_] eqn:He.
  specialize (Hiv iv end_ eq_refl). simpl in Hs.
  assert (no_nul end_) as Hne.
  { destruct Hs as [p ->]. unfold no_nul in Hn. by apply Forall_app in Hn as [_ Hn]. }
  case_bool_decide as Heq; [done|]. rewrite (at_0 end_ Hne), (at_1 end_ Hne). cbn [orb].
  destruct end_ as [|c [|d e]].
  - cbn -[Z.mul Z.pow]. by rewrite Z.pow_0_r, Z.mul_1_r, i64_id.
  - apply Forall_cons in Hne as [Hc _].
    rewrite bool_decide_eq_false_2, bool_decide_eq_true_2 by (done || simpl; lia).
    cbn [negb andb]. change (at_ [c] 0) with c. rewrite quad_suffix_char by done.
    by destruct (quad_power [c]).
  - by rewrite !bool_decide_eq_false_2 by (done || simpl; lia).
Qed.

(** A variable set with [kern_setenv] reads back as the number it starts with,
    times 1024 per step of its one-letter suffix (k, m, g, t), reduced to the
    type that was asked for; if there is no number, a longer rest or another
    letter the call fails and [*data] keeps its value. *)
Theorem getenv_number_spec env env' name value data :
  kern_setenv env name value = (0, env') -> no_nul value ->
  (forall iv end_, strtoq value = (iv, end_) -> in_i64 iv) ->
  match quad_value value with
  | Some z =>
      getenv_quad strtoq env' name data = (1, i64 z) /\
      getenv_int strtoq env' name data = (1, i32 z) /\
      getenv_uint strtoq env' name data = (1, u32 z) /\
      getenv_long strtoq env' name data = (1, i64 z) /\
      getenv_ulong strtoq env' name data = (1, u64 z)
  | None =>
      getenv_quad strtoq env' name data = (0, data) /\
      getenv_int strtoq env' name data = (0, data) /\
      getenv_uint strtoq env' name data = (0, data) /\
      getenv_long strtoq env' name data = (0, data) /\
      getenv_ulong strtoq env' name data = (0, data)
  end.
Proof.
  intros Hset Hn Hiv. assert (env' !! name = Some value) as Hv.
  { unfold kern_setenv in Hset. destruct (_ || _); [discriminate|]. injection Hset as <-.
    apply lookup_insert_eq. }
  pose proof (fun d => getenv_quad_spec env' name value d Hv Hn Hiv) as Hq.
  unfold getenv_int, getenv_uint, getenv_long, getenv_ulong, getenv_cast. rewrite !Hq.
  destruct (quad_value value) as [z|]; [|done].
  destruct (cast_i64 z) as (H1 & H2 & H3 & H4). cbn [negb Z.eqb]. by rewrite H1, H2, H3, H4.
Qed.
End NumberProofs.

(** A [strtoq] for the witnesses: decimal digits. *)
Fixpoint strtoq_dec (acc : Z) (s : cstr) : Z * cstr :=
  match s with
  | c :: s' => if (48 <=? c) && (c <=? 57) then strtoq_dec (i64 (acc * 10 + (c - 48))) s' else (acc, s)
  | [] => (acc, s)
  end.

Lemma strtoq_dec_spec : strtoq_spec (strtoq_dec 0).
Proof.
  intros s. generalize 0. induction s as [|c s IH]; intros acc; simpl; [done|].
  destruct (_ && _); [|done]. by apply suffix_cons_r.
Qed.

(** ["TCP"] set to ["12m"]. *)
Lemma getenv_number_spec_witness :
  let env' := <[[84; 67; 80] := [49; 50; 109]]> (∅ : hostenv) in
  quad_value (strtoq_dec 0) [49; 50; 109] = Some 12582912 /\
  getenv_int (strtoq_dec 0) env' [84; 67; 80] 7 = (1, 12582912).
Proof.
  split; [reflexivity|].
  apply (getenv_number_spec (strtoq_dec 0) strtoq_dec_spec ∅
    (<[[84; 67; 80] := [49; 50; 109]]> (∅ : hostenv)) [84; 67; 80] [49; 50; 109] 7).
  - reflexivity.
  - repeat constructor; discriminate.
  - intros iv end_ H. injection H as <- <-. unfold in_i64. vm_compute. split; congruence.
Defined.

(** ** The kernel's own environments *)

(** The name and the value of an entry [name=value]. *)
Fixpoint split_eq (e : cstr) : option (cstr * cstr) :=
  match e with
  | [] => None
  | c :: e => if c =? ch_eq then Some ([], e)
              else r ← split_eq e; let '(s, v) := r in Some (c :: s, v)
  end.

(** The value of the first entry for a name. *)
Fixpoint env_find (l : list cstr) (name : cstr) : option cstr :=
  match l with
  | [] => None
  | e :: l => match split_eq e with
              | Some (s, v) => if bool_decide (s = name) then Some v else env_find l name
              | None => env_find l name
              end
  end.

(** The block of memory of an environment: the entries, terminated, and an empty
    string. *)
Definition env_block (l : list cstr) : mem := concat ((fun e => e ++ [0]) <$> l) ++ [0].

Definition entry_ok (e : cstr) : Prop := e <> [] /\ no_nul e.

Lemma strncmp_prefix s : no_nul s -> forall a r,
  strncmp_eq a (s ++ r) (length s) = bool_decide (take (length s) a = s).
Proof.
  induction 1 as [|c s Hc Hs IH]; intros a r; [done|]. cbn [length strncmp_eq app].
  change (at_ (c :: s ++ r) 0) with c. destruct a as [|d a].
  - change (at_ [] 0) with 0. rewrite (proj2 (Z.eqb_neq 0 c)) by done.
    by rewrite bool_decide_eq_false_2.
  - change (at_ (d :: a) 0) with d. cbn [tail take]. rewrite IH.
    destruct (Z.eqb_spec d c) as [->|Hd]; cbn [andb].
    + rewrite (proj2 (Z.eqb_neq c 0)) by done. cbn [orb].
      apply bool_decide_ext. split; [by intros ->|congruence].
    + symmetry. apply bool_decide_eq_false_2. congruence.
Qed.

(** The comparison of [_getenv_static_from]: the whole names are equal. *)
Lemma name_matches s name r : no_nul s -> no_nul name ->
  strncmp_eq name (s ++ r) (length s) && (at_ name (length s) =? 0) = bool_decide (s = name).
Proof.
  intros Hs Hn. rewrite strncmp_prefix by done. apply Bool.eq_iff_eq_true.
  rewrite andb_true_iff, !bool_decide_eq_true, Z.eqb_eq. split.
  - intros [Ht Ha]. unfold at_ in Ha. destruct (name !! length s) as [c|] eqn:Hc; simpl in Ha.
    + subst c. apply list_elem_of_lookup_2 in Hc. unfold no_nul in Hn. rewrite Forall_forall in Hn.
      by destruct (Hn 0).
    + apply lookup_ge_None in Hc. by rewrite <- Ht, take_ge.
  - intros ->. rewrite firstn_all. split; [done|]. unfold at_. by rewrite lookup_ge_None_2.
Qed.

Lemma skip_name_split e r : no_nul e ->
  match split_eq e with
  | Some (s, v) => skip_name (e ++ 0 :: r) = Ok (s, ch_eq :: v ++ 0 :: r) /\ e = s ++ ch_eq :: v
  | None => skip_name (e ++ 0 :: r) = Ok (e, 0 :: r)
  end.
Proof.
  induction 1 as [|c e Hc He IH]; [done|]. cbn [split_eq skip_name app].
  rewrite (proj2 (Z.eqb_neq c 0)), orb_false_r by done.
  destruct (Z.eqb_spec c ch_eq) as [->|Hq]; [done|].
  destruct (split_eq e) as [[s v]|]; cbn.
  - destruct IH as [-> ->]. done.
  - by rewrite IH.
Qed.

Lemma skip_string_ok e r : no_nul e -> skip_string (e ++ 0 :: r) = Ok r.
Proof.
  induction 1 as [|c e Hc He IH]; [done|]. cbn. by rewrite (proj2 (Z.eqb_neq c 0)).
Qed.

Lemma str_at_ok e r : no_nul e -> str_at (e ++ 0 :: r) = Some e.
Proof.
  induction 1 as [|c e Hc He IH]; [done|]. cbn. rewrite (proj2 (Z.eqb_neq c 0)) by done.
  by rewrite IH.
Qed.

Lemma env_block_cons e l : env_block (e :: l) = e ++ 0 :: env_block l.
Proof. unfold env_block. cbn. by rewrite <- !app_assoc. Qed.

Lemma kernenv_next_ok e l : no_nul e -> Forall entry_ok l ->
  kernenv_next (Some (env_block (e :: l))) =
    Ok (if bool_decide (l = []) then None else Some (env_block l)).
Proof.
  intros He Hl. unfold kernenv_next. rewrite env_block_cons, skip_string_ok by done. cbn.
  destruct Hl as [|e' l [Hne Hn'] Hl]; [done|]. rewrite env_block_cons.
  destruct e' as [|c e']; [done|]. apply Forall_cons in Hn' as [Hc _]. cbn.
  by rewrite (proj2 (Z.eqb_neq c 0)).
Qed.

(** The search finds the first entry, in at most as many steps as there are. *)
Lemma getenv_static_from_ok name l : no_nul name -> Forall entry_ok l -> l <> [] ->
  exists p, (forall m, (length l < m)%nat ->
      _getenv_static_from m (Some (env_block l)) name = Ok p) /\
    match env_find l name with
    | Some v => exists r, p = Some (v ++ 0 :: r) /\ no_nul v
    | None => p = None
    end.
Proof.
  intros Hn Hl. induction Hl as [|e l [Hne He] Hl IH]; [done|]. intros _.
  pose proof (skip_name_split e (env_block l) He) as Hs.
  assert (forall m s ep, (length (e :: l) < m)%nat -> skip_name (e ++ 0 :: env_block l) = Ok (s, ep) ->
    _getenv_static_from m (Some (env_block (e :: l))) name =
      if (at_ ep 0 =? ch_eq) && (strncmp_eq name (e ++ 0 :: env_block l) (length s) &&
         (at_ name (length s) =? 0))
      then Ok (Some (tail ep))
      else _getenv_static_from (Nat.pred m) (if bool_decide (l = []) then None else Some (env_block l)) name)
    as Hstep.
  { intros [|m] s ep Hm Heq; [simpl in Hm; lia|]. cbn [_getenv_static_from].
    rewrite kernenv_next_ok by done. rewrite env_block_cons, Heq. cbn. by destruct (_ && _). }
  assert (exists p, (forall m, (length l < m)%nat ->
      _getenv_static_from m (if bool_decide (l = []) then None else Some (env_block l)) name = Ok p) /\
    match env_find l name with
    | Some v => exists r, p = Some (v ++ 0 :: r) /\ no_nul v
    | None => p = None
    end) as (p & Hp & Hfind).
  { case_bool_decide as Hnil; [|by apply IH]. subst l. exists None. split; [|done]. by intros [|m]. }
  cbn [env_find]. destruct (split_eq e) as [[s v]|].
  - destruct Hs as [Hs ->]. pose proof (proj1 (proj1 (Forall_app _ _ _) He)) as Hsn.
    pose proof (Forall_inv_tail (proj2 (proj1 (Forall_app _ _ _) He))) as Hvn.
    destruct (bool_decide_reflect (s = name)) as [Heq|Heq].
    + exists (Some (v ++ 0 :: env_block l)). split; [|by exists (env_block l)].
      intros m Hm. rewrite (Hstep m _ _ Hm Hs). rewrite <- app_assoc.
      rewrite name_matches, bool_decide_eq_true_2 by done. done.
    + exists p. split; [|done]. intros m Hm. rewrite (Hstep m _ _ Hm Hs). rewrite <- app_assoc.
      rewrite name_matches, bool_decide_eq_false_2 by done. rewrite andb_false_r.
      apply Hp. simpl in Hm. lia.
  - exists p. split; [|done]. intros m Hm. rewrite (Hstep m _ _ Hm Hs). apply Hp. simpl in Hm. lia.
Qed.

Lemma split_eq_prefix e name v : ch_eq ∉ name ->
  split_eq e = Some (name, v) <-> e = name ++ ch_eq :: v.
Proof.
  revert name. induction e as [|c e IH]; intros name Hn.
  - split; [done|]. by destruct name.
  - cbn. destruct (Z.eqb_spec c ch_eq) as [->|Hc].
    + split; [by intros [= <- <-]|]. destruct name as [|d name]; [intros [= Hx]; by subst|].
      intros [= Hx _]. set_solver.
    + destruct name as [|d name].
      * split; [|intros Hx; by injection Hx]. destruct (split_eq e) as [[s w]|]; discriminate.
      * rewrite elem_of_cons in Hn.
        specialize (IH name ltac:(tauto)). destruct (split_eq e) as [[s w]|]; cbn.
        -- split; [intros [= <- <- <-]; f_equal; by apply IH|].
           intros [= <- He]. apply IH in He. congruence.
        -- split; [discriminate|]. intros [= <- He]. by apply IH in He.
Qed.

Lemma getenv_dynamic_ok name l : no_nul name -> ch_eq ∉ name -> Forall entry_ok l -> forall i,
  snd <$> _getenv_dynamic_locked l i name = env_find l name.
Proof.
  intros Hn Hq Hl. induction Hl as [|e l [Hne He] Hl IH]; intros i; [done|].
  cbn [_getenv_dynamic_locked env_find].
  rewrite <- (app_nil_r name) at 1. rewrite strncmp_prefix by done.
  destruct (split_eq e) as [[s v]|] eqn:Hs.
  - case_bool_decide as Ht; cbn [andb].
    + unfold at_. destruct (e !! length name) as [c|] eqn:Hc.
      * change (default 0 (Some c)) with c. destruct (Z.eqb_spec c ch_eq) as [->|Hce].
        -- assert (e = name ++ ch_eq :: drop (S (length name)) e) as Hsplit.
           { rewrite <- Ht at 1. by rewrite take_drop_middle. }
           apply split_eq_prefix in Hsplit; [|done]. rewrite Hs in Hsplit. injection Hsplit as -> ->.
           by rewrite bool_decide_eq_true_2.
        -- rewrite bool_decide_eq_false_2; [apply IH|]. intros ->.
           apply split_eq_prefix in Hs; [|done]. subst e.
           rewrite list_lookup_middle in Hc by done. congruence.
      * rewrite bool_decide_eq_false_2; [apply IH|]. intros ->.
        apply split_eq_prefix in Hs; [|done]. subst e.
        by rewrite list_lookup_middle in Hc.
    + rewrite bool_decide_eq_false_2; [apply IH|]. intros ->.
      apply split_eq_prefix in Hs; [|done]. subst e. by rewrite take_app_length in Ht.
  - assert (bool_decide (take (length name) e = name) && (at_ e (length name) =? ch_eq) = false) as ->;
      [|apply IH].
    apply not_true_iff_false. intros [Ht Ha]%andb_prop. apply bool_decide_eq_true in Ht.
    apply Z.eqb_eq in Ha. unfold at_ in Ha.
    destruct (e !! length name) as [c|] eqn:Hc; [|done]. simpl in Ha. subst c.
    assert (e = name ++ ch_eq :: drop (S (length name)) e) as Hsplit.
    { rewrite <- Ht at 1. by rewrite take_drop_middle. }
    apply split_eq_prefix in Hsplit; [congruence|done].
Qed.

(** An environment in memory: absent, or a block with at least one entry. *)
Definition static_env (envp : option mem) (l : list cstr) : Prop :=
  Forall entry_ok l /\
  match envp with None => l = [] | Some cp => l <> [] /\ cp = env_block l end.

Lemma static_from_ok envp l name : static_env envp l -> no_nul name ->
  exists p, (forall m, (length l < m)%nat -> _getenv_static_from m envp name = Ok p) /\
    match env_find l name with
    | Some v => exists r, p = Some (v ++ 0 :: r) /\ no_nul v
    | None => p = None
    end.
Proof.
  intros [Hl Henv] Hn. destruct envp as [cp|].
  - destruct Henv as [Hne ->]. by apply getenv_static_from_ok.
  - subst l. exists None. split; [by intros [|m]|done].
Qed.

(** [kenv_acquire] finds the value of the first entry of a name, whether the
    environment is the static one (the machine-dependent block before the
    configured one) or the dynamic one, and never reads beyond a block; in the
    environments the program starts with there is nothing to find. *)
Theorem kenv_acquire_finds k md kern name : no_nul name -> ch_eq ∉ name ->
  static_env (md_envp k) md -> static_env (kern_envp k) kern -> Forall entry_ok (kenvp k) ->
  returns (fun n => kenv_acquire n k name)
    (if dynamic_kenv k then env_find (kenvp k) name
     else match env_find md name with Some v => Some v | None => env_find kern name end) /\
  returns (fun n => kenv_acquire n kenv_start name) None.
Proof.
  intros Hn Hq Hmd Hk Hd. split; [|by exists O; intros [|m] _].
  unfold kenv_acquire, _getenv_static. destruct (dynamic_kenv k).
  { exists O. intros m _. by rewrite getenv_dynamic_ok. }
  destruct (static_from_ok (md_envp k) md name Hmd Hn) as (p & Hp & Hf).
  destruct (static_from_ok (kern_envp k) kern name Hk Hn) as (p' & Hp' & Hf').
  exists (S (Nat.max (length md) (length kern))). intros m Hm.
  rewrite Hp, Hp' by lia. cbn [mbind outcome_bind].
  destruct (env_find md name) as [v|].
  - destruct Hf as (r & -> & Hv). cbn [mbind outcome_bind]. by rewrite str_at_ok.
  - subst p. cbn [mbind outcome_bind]. destruct (env_find kern name) as [v|].
    + destruct Hf' as (r & -> & Hv). cbn. by rewrite str_at_ok.
    + by subst p'.
Qed.

(** ["a=1"] in the machine-dependent block, ["b=2"] and ["a=3"] in the other. *)
Definition demo_kenv : kenv :=
  {| kern_envp := Some [98; 61; 50; 0; 97; 61; 51; 0; 0]; md_envp := Some [97; 61; 49; 0; 0];
     kenvp := []; dynamic_kenv := false |}.

Lemma kenv_acquire_finds_witness :
  kenv_acquire 3 demo_kenv [97] = Ok (Some [49]) /\
  returns (fun n => kenv_acquire n demo_kenv [97]) (Some [49]).
Proof.
  split; [reflexivity|].
  apply (kenv_acquire_finds demo_kenv [[97; 61; 49]] [[98; 61; 50]; [97; 61; 51]] [97]).
  - repeat constructor; discriminate.
  - rewrite list_elem_of_singleton. discriminate.
  - split; [repeat constructor; discriminate|]. split; [discriminate|reflexivity].
  - split; [repeat constructor; discriminate|]. split; [discriminate|reflexivity].
  - constructor.
Defined.

(** ** Arrays of integers *)

(** The values a type holds. *)
Definition fits (type_size : Z) (allow_signed : bool) (x : Z) : Prop :=
  if allow_signed then - 2 ^ (8 * type_size - 1) <= x < 2 ^ (8 * type_size - 1)
  else 0 <= x < 2 ^ (8 * type_size).

(** The rest of a number: its multiplier, and what follows. *)
Inductive multiplier : cstr -> Z -> cstr -> Prop :=
| mult_letter c k s : quad_power [c] = Some k -> multiplier (c :: s) (1024 ^ k) s
| mult_sep c s : c ∈ [ch_space; ch_tab; ch_comma] -> multiplier (c :: s) 1 (c :: s)
| mult_end : multiplier [] 1 [].

Section ArrayGrammar.
  Context (strtoq : cstr -> Z * cstr) (type_size : Z) (allow_signed : bool).

(** One element of an array: a number, perhaps a letter, then separators. *)
Inductive element : cstr -> Z -> cstr -> Prop :=
| element_intro s iv e m rest :
    strtoq s = (iv, e) -> e <> s -> (allow_signed = false -> 0 <= iv) -> multiplier e m rest ->
    in_i64 (iv * m) -> fits type_size allow_signed (iv * m) ->
    element s (uwrap (8 * type_size) (iv * m)) (skip_separators rest).

(** A text that is a sequence of elements, as they are stored. *)
Inductive array_text : cstr -> list Z -> Prop :=
| array_nil : array_text [] []
| array_cons s v s' l : s <> [] -> element s v s' -> array_text s' l -> array_text s (v :: l).
End ArrayGrammar.

(** The overflow check by shifting back. *)
Lemma shift_check x s : 0 <= s <= 40 -> in_i64 x ->
  negb (Z.shiftr (i64 (Z.shiftl x s)) s =? x) = negb (bool_decide (in_i64 (x * 2 ^ s))) /\
  (in_i64 (x * 2 ^ s) -> i64 (Z.shiftl x s) = x * 2 ^ s).
Proof.
  intros Hs Hx. rewrite Z.shiftl_mul_pow2, Z.shiftr_div_pow2 by lia.
  assert (0 < 2 ^ s <= 2 ^ 40) as Hp by (split; [apply Z.pow_pos_nonneg; lia|apply Z.pow_le_mono_r; lia]).
  split; [|apply i64_id]. f_equal. apply Bool.eq_iff_eq_true.
  rewrite Z.eqb_eq, bool_decide_eq_true. split.
  - intros Hd. pose proof (i64_range (x * 2 ^ s)) as Hr.
    assert (x * 2 ^ s <= i64 (x * 2 ^ s) < x * 2 ^ s + 2 ^ s) as Hb.
    { pose proof (Z.div_mod (i64 (x * 2 ^ s)) (2 ^ s)). pose proof (Z.mod_pos_bound (i64 (x * 2 ^ s)) (2 ^ s)). nia. }
    assert (i64 (x * 2 ^ s) = x * 2 ^ s); [|by congruence].
    pose proof (i64_mod (x * 2 ^ s)) as Hm.
    assert ((i64 (x * 2 ^ s) - x * 2 ^ s) mod 2 ^ 64 = 0) as Hz.
    { rewrite Zminus_mod, Hm, Z.sub_diag. done. }
    change (2 ^ 40) with 1099511627776 in Hp. change (2 ^ 64) with 18446744073709551616 in Hz.
    rewrite Z.mod_small in Hz; lia.
  - intros Hi. rewrite i64_id by done. apply Z.div_mul. lia.
Qed.

Lemma skip_separators_suffix s : suffix (skip_separators s) s.
Proof.
  induction s as [|c s IH]; simpl; [done|]. destruct (_ || _); [by apply suffix_cons_r|done].
Qed.

Lemma array_store_spec ts sg v : ts ∈ [1; 2; 4; 8] -> in_i64 v -> (sg = false -> 0 <= v) ->
  (fits ts sg v -> array_store ts sg v = Some (uwrap (8 * ts) v)) /\
  (~ fits ts sg v -> array_store ts sg v = None).
Proof.
  intros Hts Hv Hsg. unfold array_store, fits, INT_MIN, INT_MAX, UINT_MAX, in_i64 in *.
  rewrite !elem_of_cons, elem_of_nil in Hts.
  destruct Hts as [->|[->|[->|[->|[]]]]]; cbn [Z.eqb Pos.eqb];
    destruct sg; try specialize (Hsg eq_refl); split; intros Hf; split_ifs; try done;
    exfalso; lia.
Qed.

(** The suffix of an element, as the code reads it. *)
Lemma array_suffix_spec e : no_nul e ->
  match array_suffix (at_ e 0) with
  | Some (sh, sk) => 0 <= sh <= 40 /\
      multiplier e (2 ^ sh) (if sk : bool then tail e else e) /\
      forall m rest, multiplier e m rest -> m = 2 ^ sh /\ rest = (if sk : bool then tail e else e)
  | None => forall m rest, ~ multiplier e m rest
  end.
Proof.
  intros He. destruct e as [|c e].
  { cbn. split; [lia|]. split; [constructor|]. intros m rest H. by inversion H. }
  apply Forall_cons in He as [Hc _]. change (at_ (c :: e) 0) with c. unfold array_suffix.
  rewrite (proj2 (Z.eqb_neq c 0)), orb_false_r by done. cbn [tail].
  assert (forall x y, ((c =? x) || (c =? y)) = bool_decide (c ∈ [x; y])) as Hin.
  { intros x y. apply Bool.eq_iff_eq_true.
    rewrite bool_decide_eq_true, orb_true_iff, !Z.eqb_eq. set_solver. }
  assert (forall m rest, multiplier (c :: e) m rest ->
    (exists k, quad_power [c] = Some k /\ m = 1024 ^ k /\ rest = e) \/
    (c ∈ [ch_space; ch_tab; ch_comma] /\ m = 1 /\ rest = c :: e)) as Hinv.
  { intros m rest H. inversion H; subst; eauto. }
  destruct ((c =? ch_t) || (c =? ch_T)) eqn:Ht;
    [|destruct ((c =? ch_g) || (c =? ch_G)) eqn:Hg;
      [|destruct ((c =? ch_m) || (c =? ch_M)) eqn:Hm;
        [|destruct ((c =? ch_k) || (c =? ch_K)) eqn:Hk;
          [|destruct ((c =? ch_space) || (c =? ch_tab) || (c =? ch_comma)) eqn:Hs]]]].
  5: { split; [lia|]. assert (c ∈ [ch_space; ch_tab; ch_comma]) as Hcs.
       { rewrite !orb_true_iff, !Z.eqb_eq in Hs. set_solver. }
       split; [by constructor|]. intros m rest [(k & Hq & _)|(_ & -> & ->)]%Hinv; [|done].
       exfalso. unfold quad_power in Hq. rewrite <- !Hin, Ht, Hg, Hm, Hk in Hq. discriminate. }
  5: { intros m rest [(k & Hq & _)|(Hcs & _)]%Hinv.
       - unfold quad_power in Hq. rewrite <- !Hin, Ht, Hg, Hm, Hk in Hq. discriminate.
       - rewrite !orb_false_iff, !Z.eqb_neq in Hs. set_solver. }
  all: match goal with H : _ = true |- _ => apply orb_prop in H as [->%Z.eqb_eq| ->%Z.eqb_eq] end;
    (split; [lia|]; split;
     [first [(apply (mult_letter _ 4 e); reflexivity)|(apply (mult_letter _ 3 e); reflexivity)
            |(apply (mult_letter _ 2 e); reflexivity)|(apply (mult_letter _ 1 e); reflexivity)]|];
     intros m rest [(k & Hq & -> & ->)|(Hcs & _)]%Hinv;
     [vm_compute in Hq; injection Hq as <-; by split
     |exfalso; rewrite !elem_of_cons, elem_of_nil in Hcs;
      destruct Hcs as [Hcs|[Hcs|[Hcs|[]]]]; discriminate Hcs]).
Qed.

Section ArrayProofs.
  Context (strtoq : cstr -> Z * cstr) (ts : Z) (sg : bool).
  Context (strtoq_ok : strtoq_spec strtoq) (strtoq_range : forall s, in_i64 (fst (strtoq s))).
  Context (ts_ok : ts ∈ [1; 2; 4; 8]).

Lemma array_item_spec s : no_nul s ->
  match array_item strtoq ts sg s with
  | Some (v, s') => element strtoq ts sg s v s'
  | None => forall v s', ~ element strtoq ts sg s v s'
  end.
Proof.
  intros Hs. unfold array_item. pose proof (strtoq_ok s) as Hsuf. pose proof (strtoq_range s) as Hr.
  destruct (strtoq s) as [iv e] eqn:Hst. simpl in Hsuf, Hr.
  assert (no_nul e) as He.
  { destruct Hsuf as [p ->]. unfold no_nul in Hs. by apply Forall_app in Hs as [_ Hs]. }
  destruct (Z.ltb_spec iv 0) as [Hneg|Hpos]; destruct sg eqn:Hsg; cbn [negb andb].
  2: { intros v s' H. inversion H as [? iv' e' ? ? Hst' _ Hn]. rewrite Hst in Hst'.
       injection Hst' as <- <-. specialize (Hn eq_refl). lia. }
  all: case_bool_decide as Hne;
    [intros v s' H; inversion H as [? iv' e' ? ? Hst' Hne']; rewrite Hst in Hst';
     injection Hst' as <- <-; congruence|].
  all: pose proof (array_suffix_spec e He) as Hsfx;
    destruct (array_suffix (at_ e 0)) as [[sh sk]|];
    [|intros v s' H; inversion H as [? iv' e' m' rest' Hst' _ _ Hmul]; rewrite Hst in Hst';
      injection Hst' as <- <-; by apply (Hsfx m' rest')].
  all: destruct Hsfx as (Hsh & Hmul & Huniq);
    destruct (shift_check iv sh Hsh Hr) as [-> Hshift];
    case_bool_decide as Hin; cbn [negb];
    [|intros v s' H; inversion H as [? iv' e' m' rest' Hst' _ _ Hmul' Hin' _]; rewrite Hst in Hst';
      injection Hst' as <- <-; apply Huniq in Hmul' as [-> _]; done].
  all: rewrite Hshift by done;
    match goal with |- context [array_store ts ?b] =>
      destruct (array_store_spec ts b (iv * 2 ^ sh) ts_ok Hin) as [Hfit Hnfit]; [intros; nia|] end.
  all: match type of Hfit with ?F -> _ =>
    assert (F \/ ~ F) as [HF|HF] by (unfold fits; lia) end;
    [rewrite Hfit by done; cbn; econstructor; eauto; congruence
    |rewrite Hnfit by done; cbn; intros v s' H;
     inversion H as [? iv' e' m' rest' Hst' _ _ Hmul' _ HF']; rewrite Hst in Hst';
     injection Hst' as <- <-; apply Huniq in Hmul' as [-> _]; done].
Qed.

Lemma element_shorter s v s' : element strtoq ts sg s v s' ->
  (length s' < length s)%nat /\ suffix s' s.
Proof.
  intros H. inversion H as [? iv e m rest Hst Hne Hsg Hmul]. subst.
  pose proof (strtoq_ok s) as Hsuf. rewrite Hst in Hsuf. simpl in Hsuf.
  assert (suffix rest e) as Hr by (inversion Hmul; subst; [by apply suffix_cons_r|done|done]).
  pose proof (skip_separators_suffix rest) as Hsk.
  assert (suffix (skip_separators rest) s) by (etrans; [exact Hsk|]; by etrans).
  split; [|done]. apply suffix_length in Hr, Hsk. destruct Hsuf as [p ->].
  destruct p as [|c p]; [done|]. rewrite length_app. simpl. lia.
Qed.

Lemma element_fun s v1 s1 v2 s2 : no_nul s -> element strtoq ts sg s v1 s1 ->
  element strtoq ts sg s v2 s2 -> v1 = v2 /\ s1 = s2.
Proof.
  intros Hs H1 H2. inversion H1 as [? iv e m rest Hst _ _ Hm]; subst.
  inversion H2 as [? iv2 e2 m2 rest2 Hst2 _ _ Hm2]; subst. rewrite Hst in Hst2.
  injection Hst2 as <- <-. pose proof (strtoq_ok s) as Hsuf. rewrite Hst in Hsuf. simpl in Hsuf.
  assert (no_nul e) as He.
  { destruct Hsuf as [p ->]. unfold no_nul in Hs. by apply Forall_app in Hs as [_ Hs]. }
  pose proof (array_suffix_spec e He) as Hx.
  destruct (array_suffix (at_ e 0)) as [[sh sk]|]; [|by destruct (Hx m rest)].
  destruct Hx as (_ & _ & Hu). destruct (Hu _ _ Hm) as [-> ->], (Hu _ _ Hm2) as [-> ->]. done.
Qed.

(** The loop stores the elements of a text, up to the size of the buffer. *)
Lemma array_loop_spec size : forall n s acc, (length s <= n)%nat -> no_nul s ->
  exists b out, (forall m, (n <= m)%nat -> array_loop strtoq m ts sg size s acc = Ok (b, out)) /\
    (forall l, array_text strtoq ts sg s l -> (l = [] \/ Z.of_nat (length acc + length l) <= size) ->
       b = true /\ out = reverse l ++ acc) /\
    (b = true -> exists l, array_text strtoq ts sg s l /\ out = reverse l ++ acc /\
       (l = [] \/ Z.of_nat (length acc + length l) <= size)).
Proof.
  induction n as [|n IH]; intros s acc Hlen Hs.
  { destruct s; [|simpl in Hlen; lia]. exists true, acc. split_and!.
    - by intros [|m].
    - intros l H _. inversion H; subst; done.
    - intros _. exists []. split_and!; [constructor|done|by left]. }
  destruct s as [|c s0] eqn:Hseq.
  { exists true, acc. split_and!.
    - by intros [|m].
    - intros l H _. inversion H; subst; done.
    - intros _. exists []. split_and!; [constructor|done|by left]. }
  rewrite <- Hseq in *. assert (s <> []) as Hne by (by subst).
  assert (forall m, (S n <= m)%nat -> array_loop strtoq m ts sg size s acc =
    match array_item strtoq ts sg s with
    | None => Ok (false, acc)
    | Some (v, p) => if size <=? Z.of_nat (length acc) then Ok (false, acc)
                     else array_loop strtoq (Nat.pred m) ts sg size p (v :: acc)
    end) as Hstep.
  { intros [|m] Hm; [lia|]. by subst s. }
  pose proof (array_item_spec s Hs) as Hitem.
  destruct (array_item strtoq ts sg s) as [[v s']|].
  - destruct (Z.leb_spec size (Z.of_nat (length acc))) as [Hfull|Hroom].
    + exists false, acc. split_and!; [by intros; rewrite Hstep| |done].
      intros l H [->|Hl]; inversion H; subst; simpl in *; try done; lia.
    + destruct (element_shorter s v s' Hitem) as [Hsh [p Hp]].
      destruct (IH s' (v :: acc)) as (b & out & Hrun & H1 & H2); [lia| |].
      { unfold no_nul in *. rewrite Hp in Hs. by apply Forall_app in Hs as [_ Hs]. }
      exists b, out. split_and!.
      * intros m Hm. rewrite Hstep by done. apply Hrun. lia.
      * intros l H Hl. inversion H as [|? v2 s2 l2 _ Hel Hrest]; subst l; [done|].
        destruct (element_fun s v s' v2 s2 Hs Hitem Hel) as [<- <-].
        destruct Hl as [Hl|Hl]; [done|]. destruct (H1 l2 Hrest) as [-> ->].
        { right. simpl in *. lia. }
        split; [done|]. by rewrite reverse_cons, <- app_assoc.
      * intros Hb. destruct (H2 Hb) as (l & Hl & -> & Hlen'). exists (v :: l). split_and!.
        -- by econstructor.
        -- by rewrite reverse_cons, <- app_assoc.
        -- right. simpl in *. destruct Hlen' as [->|]; simpl; lia.
  - exists false, acc. split_and!; [by intros; rewrite Hstep| |done].
    intros l H _. inversion H as [|? v2 s2 l2 _ Hel _]; subst; [done|]. by destruct (Hitem v2 s2).
Qed.

(** [getenv_array] reads exactly the sequences of numbers, each in the range of
    the element type after its suffix is applied, that fit in the buffer: it
    answers 1 with their elements and their size in bytes for a non-empty one and
    0 for any other text; it always returns. *)
Theorem getenv_array_reads kenv_acquire name buf size psize :
  (forall n, kenv_acquire n name = Ok (Some buf)) -> no_nul buf -> 0 <= size < 2 ^ 31 ->
  exists rv l ps,
    returns (fun n => getenv_array strtoq n (kenv_acquire n) name size psize ts sg) (rv, l, ps) /\
    (rv = 0 \/ rv = 1) /\
    forall l', l' <> [] /\ array_text strtoq ts sg buf l' /\
        Z.of_nat (length l') <= Z.quot size ts <->
      rv = 1 /\ l = l' /\ ps = Z.of_nat (length l') * ts /\ l' <> [].
Proof.
  intros Hacq Hn Hsize.
  assert (1 <= ts <= 8) as Hts.
  { pose proof ts_ok as H. rewrite !elem_of_cons, elem_of_nil in H. intuition lia. }
  destruct (array_loop_spec (Z.quot size ts) (length buf) buf [] (Nat.le_refl _) Hn)
    as (b & out & Hrun & H1 & H2).
  assert (forall m, (length buf <= m)%nat ->
    getenv_array strtoq m (kenv_acquire m) name size psize ts sg =
      Ok (if b then (b2z (negb (Z.of_nat (length out) =? 0)), reverse out,
                     i32 (Z.of_nat (length out) * ts))
          else (0, reverse out, psize))) as Hga.
  { intros m Hm. unfold getenv_array. rewrite Hacq. cbn [mbind outcome_bind].
    rewrite (proj2 (Z.eqb_neq ts 0)) by lia. rewrite Hrun by done. cbn [mbind outcome_bind].
    by destruct b. }
  destruct b.
  - destruct (H2 eq_refl) as (l & Hl & Ho & Hfit). rewrite app_nil_r in Ho. subst out.
    exists (b2z (negb (Z.of_nat (length l) =? 0))), l, (i32 (Z.of_nat (length l) * ts)).
    rewrite length_reverse, reverse_involutive in Hga.
    split; [by exists (length buf)|].
    split; [unfold b2z; destruct (negb _); auto|]. intros l'. split.
    + intros (Hne & Hl' & Hlen). destruct (H1 l' Hl') as [_ Ho]; [by right|].
      rewrite app_nil_r in Ho. apply (f_equal reverse) in Ho. rewrite !reverse_involutive in Ho.
      subst l'. rewrite (proj2 (Z.eqb_neq _ 0)) by (destruct l; simpl; [done|lia]).
      split_and!; [done|done| |done]. apply i32_id.
      pose proof (Z.mul_quot_le size ts). unfold in_i32. change (2 ^ 31) with 2147483648 in *. nia.
    + intros (Hrv & <- & _ & Hne). split_and!; [done|done|].
      destruct Hfit as [|Hfit]; [done|]. exact Hfit.
  - exists 0, (reverse out), psize. split; [by exists (length buf)|]. split; [by left|].
    intros l'. split.
    + intros (Hne & Hl' & Hlen). destruct (H1 l' Hl') as [Hf _]; [by right|discriminate Hf].
    + intros (Hf & _). discriminate Hf.
Qed.
End ArrayProofs.

Lemma strtoq_dec_range s : in_i64 (fst (strtoq_dec 0 s)).
Proof.
  assert (forall acc, in_i64 acc -> in_i64 (fst (strtoq_dec acc s))) as H.
  { induction s as [|c s IH]; intros acc Ha; [done|]. simpl. destruct (_ && _); [|done].
    apply IH, i64_range. }
  apply H. unfold in_i64. lia.
Qed.

(** ["1k,7 300"] as an array of 16-bit integers. *)
Lemma getenv_array_reads_witness :
  getenv_array (strtoq_dec 0) 9 (fun _ => Ok (Some [49; 107; 44; 55; 32; 51; 48; 48])) [97] 8 0 2 false
    = Ok (1, [1024; 7; 300], 6) /\
  exists rv l ps, returns (fun n => getenv_array (strtoq_dec 0) n
      (fun _ => Ok (Some [49; 107; 44; 55; 32; 51; 48; 48])) [97] 8 0 2 false) (rv, l, ps).
Proof.
  split; [reflexivity|].
  destruct (getenv_array_reads (strtoq_dec 0) 2 false strtoq_dec_spec strtoq_dec_range
    ltac:(set_solver) (fun _ _ => Ok (Some [49; 107; 44; 55; 32; 51; 48; 48])) [97]
    [49; 107; 44; 55; 32; 51; 48; 48] 8 0) as (rv & l & ps & H & _).
  - reflexivity.
  - repeat constructor; discriminate.
  - lia.
  - exists rv, l, ps. exact H.
Defined.
