(* ===== verification/KernSubr.v ===== *)
(** * KernSubr: [bsd/lib/lazybsd_kern_subr.c]

    The sizes of hash tables ([hashinit_flags], [phashinit_flags]) and the
    scatter/gather copy ([copyinuio], [uiomove]).  Memory is a map from addresses to
    bytes; [copyin] and [copyout] of [bsd/lib/lazybsd_patch.c] are [memcpy] and
    always succeed, since the stack and its user share one address space. *)
From S2P Require Import Prelude Errno.

(** ** Memory *)

Abbreviation memory := (gmap Z Z).

Definition rd (m : memory) (a : Z) : Z := default 0 (m !! a).

(** [bcopy(src, dst, n)]: the source is read before the copy. *)
Definition bcopy (src dst n : Z) (m : memory) : memory :=
  foldr (fun i m' => <[dst + i := rd m (src + i)]> m') m (seqZ 0 n).

(** [memcpy]; the value is the error code. *)
Definition copyin (uaddr kaddr len : Z) (m : memory) : Z * memory := (0, bcopy uaddr kaddr len m).
Definition copyout (kaddr uaddr len : Z) (m : memory) : Z * memory := (0, bcopy kaddr uaddr len m).

(** ** Hash tables *)

(** [for (hashsize = 1; hashsize <= elements; hashsize <<= 1) continue;] *)
Fixpoint hashsize_loop (fuel : nat) (hashsize elements : Z) : outcome Z :=
  if negb (hashsize <=? elements) then Ok hashsize else
  match fuel with
  | O => Diverge
  | S fuel => hashsize_loop fuel (i64 (Z.shiftl hashsize 1)) elements
  end.

Section Hash.
  (** Whether [malloc] with the given number of bytes finds memory, and the size
      of a list head. *)
  Context (malloc_ok : Z -> bool) (sizeof_head : Z).

(** The table, a list of empty lists, and [*hashmask]; [None] is NULL. *)
Definition hashinit_flags {A} (fuel : nat) (elements hashmask : Z)
    : outcome (option (list (list A)) * Z) :=
  if elements <=? 0 then Panic else
  hashsize ← hashsize_loop fuel 1 elements;
  let hashsize := Z.shiftr hashsize 1 in
  Ok (if malloc_ok (u64 (u64 hashsize * sizeof_head))
      then (Some (replicate (Z.to_nat hashsize) []), u64 (hashsize - 1))
      else (None, hashmask)).

Definition primes : list Z :=
  [1; 13; 31; 61; 127; 251; 509; 761; 1021; 1531;
   2039; 2557; 3067; 3583; 4093; 4603; 5119; 5623; 6143;
   6653; 7159; 7673; 8191; 12281; 16381; 24571; 32749].

Definition NPRIMES : nat := length primes.

(** The loop, from [i] with [hashsize]: the final [i]. *)
Fixpoint prime_loop (fuel : nat) (i : nat) (hashsize elements : Z) : outcome nat :=
  if negb (hashsize <=? elements) then Ok i else
  match fuel with
  | O => Diverge
  | S fuel =>
      let i := S i in
      if Nat.eqb i NPRIMES then Ok i else
      match primes !! i with
      | Some hashsize => prime_loop fuel i hashsize elements
      | None => Panic
      end
  end.

Definition phashinit_flags {A} (fuel : nat) (elements nentries : Z)
    : outcome (option (list (list A)) * Z) :=
  match primes !! 1%nat with
  | None => Panic
  | Some hashsize =>
      i ← prime_loop fuel 1 hashsize elements;
      match primes !! (i - 1)%nat with
      | None => Panic
      | Some hashsize =>
          Ok (if malloc_ok (u64 (u64 hashsize * sizeof_head))
              then (Some (replicate (Z.to_nat hashsize) []), u64 hashsize)
              else (None, nentries))
      end
  end.
End Hash.

(** ** Scatter/gather *)

Record iovec : Type := { iov_base : Z; iov_len : Z }.
Inductive uio_seg : Type := UIO_USERSPACE | UIO_SYSSPACE | UIO_NOCOPY.
Inductive uio_dir : Type := UIO_READ | UIO_WRITE.

(** [struct uio]; [uio_iov] is the array from the current element on. *)
Record uio : Type := {
  uio_iov : list iovec; uio_iovcnt : Z; uio_offset : Z; uio_resid : Z;
  uio_segflg : uio_seg; uio_rw : uio_dir
}.

(** The copy of one piece. *)
Definition uio_copy (u : uio) (cp base cnt : Z) (m : memory) : Z * memory :=
  match uio_segflg u, uio_rw u with
  | UIO_USERSPACE, UIO_READ => copyout cp base cnt m
  | UIO_USERSPACE, UIO_WRITE => copyin base cp cnt m
  | UIO_SYSSPACE, UIO_READ => (0, bcopy cp base cnt m)
  | UIO_SYSSPACE, UIO_WRITE => (0, bcopy base cp cnt m)
  | UIO_NOCOPY, _ => (0, m)
  end.

(** After a piece of [cnt] bytes of the element [iov]. *)
Definition uio_advance (u : uio) (iov : iovec) (rest : list iovec) (cnt : Z) : uio :=
  {| uio_iov := {| iov_base := u64 (iov_base iov + cnt); iov_len := u64 (iov_len iov - cnt) |} :: rest;
     uio_iovcnt := uio_iovcnt u; uio_offset := i64 (uio_offset u + cnt);
     uio_resid := i64 (uio_resid u - cnt); uio_segflg := uio_segflg u; uio_rw := uio_rw u |}.

Definition uio_next (u : uio) (rest : list iovec) : uio :=
  {| uio_iov := rest; uio_iovcnt := i32 (uio_iovcnt u - 1); uio_offset := uio_offset u;
     uio_resid := uio_resid u; uio_segflg := uio_segflg u; uio_rw := uio_rw u |}.

(** An access beyond the array of elements stops the program. *)
Fixpoint uiomove (fuel : nat) (cp n : Z) (u : uio) (m : memory) : outcome (Z * uio * memory) :=
  if negb ((0 <? n) && negb (uio_resid u =? 0)) then Ok (0, u, m) else
  match fuel with
  | O => Diverge
  | S fuel =>
      match uio_iov u with
      | [] => Panic
      | iov :: rest =>
          let cnt := u32 (iov_len iov) in
          if cnt =? 0 then uiomove fuel cp n (uio_next u rest) m else
          let cnt := if n <? cnt then n else cnt in
          let '(error, m) := uio_copy u cp (iov_base iov) cnt m in
          if negb (error =? 0) then Ok (error, u, m) else
          uiomove fuel (u64 (cp + cnt)) (i32 (n - cnt)) (uio_advance u iov rest cnt) m
      end
  end.

(** The loop of [copyinuio] over the elements: the total length. *)
Fixpoint uio_total (iov : list iovec) (resid : Z) : option Z :=
  match iov with
  | [] => Some resid
  | v :: iov => if u64 (INT_MAX - resid) <? iov_len v then None
                else uio_total iov (i64 (resid + iov_len v))
  end.

Section Copyinuio.
  (** [UIO_MAXIOV] of [sys/uio.h]; [iov] is the array at [iovp], copied in. *)
  Context (UIO_MAXIOV : Z).

(** [uio_rw] is left to the caller; [malloc] with [M_WAITOK] does not fail. *)
Definition copyinuio (iov : list iovec) (iovcnt : Z) (rw : uio_dir) : Z * option uio :=
  if UIO_MAXIOV <? iovcnt then (LAZYBSD_EINVAL, None) else
  match uio_total iov 0 with
  | None => (LAZYBSD_EINVAL, None)
  | Some resid =>
      (0, Some {| uio_iov := iov; uio_iovcnt := i32 iovcnt; uio_offset := -1; uio_resid := resid;
                  uio_segflg := UIO_USERSPACE; uio_rw := rw |})
  end.
End Copyinuio.

(** ** Hash sizes *)

Lemma hashsize_loop_ok elements : 0 < elements < 2 ^ 31 -> forall k j,
  0 <= j -> 2 ^ j <= 2 * elements -> (j > 0 -> 2 ^ (j - 1) <= elements) ->
  2 ^ (j + Z.of_nat k) > elements ->
  exists r, (forall m, (k <= m)%nat -> hashsize_loop m (2 ^ j) elements = Ok (2 ^ r)) /\
    0 < r /\ 2 ^ (r - 1) <= elements < 2 ^ r.
Proof.
  change (2 ^ 31) with 2147483648. intros He k.
  induction k as [|k IH]; intros j Hj Hle Hlo Hk.
  - rewrite Z.add_0_r in Hk. exists j. split.
    + intros m _. destruct m; simpl; by rewrite (proj2 (Z.leb_gt _ _)) by lia.
    + assert (j <> 0) by (intros ->; simpl in Hk; lia). split; [lia|]. split; [apply Hlo; lia|lia].
  - destruct (Z.leb_spec (2 ^ j) elements) as [Hc|Hc].
    + destruct (IH (j + 1)) as (r & Hr & Hb).
      * lia.
      * rewrite Z.pow_add_r by lia. lia.
      * intros _. by replace (j + 1 - 1) with j by lia.
      * replace (j + 1 + Z.of_nat k) with (j + Z.of_nat (S k)) by lia. done.
      * exists r. split; [|done]. intros [|m] Hm; [lia|]. simpl.
        rewrite (proj2 (Z.leb_le _ _)) by done. cbn [negb].
        rewrite Z.shiftl_mul_pow2, <- Z.pow_add_r by lia.
        rewrite i64_id; [apply Hr; lia|]. unfold in_i64.
        rewrite Z.pow_add_r by lia. lia.
    + exists j. split.
      * intros m _. destruct m; simpl; by rewrite (proj2 (Z.leb_gt _ _)) by lia.
      * assert (j <> 0) by (intros ->; simpl in Hc; lia). split; [lia|]. split; [apply Hlo; lia|lia].
Qed.

Lemma prime_loop_ok elements : forall k i p, (i + k = NPRIMES)%nat -> (0 < k)%nat ->
  primes !! i = Some p -> (forall q, primes !! (i - 1)%nat = Some q -> q <= elements) ->
  exists r, (forall m, (k <= m)%nat -> prime_loop m i p elements = Ok r) /\ (i <= r <= NPRIMES)%nat /\
    (forall q, primes !! (r - 1)%nat = Some q -> q <= elements) /\
    (forall q, primes !! r = Some q -> elements < q).
Proof.
  intros k. induction k as [|k IH]; intros i p Hi Hk Hp Hlo; [lia|].
  destruct (Z.leb_spec p elements) as [Hc|Hc].
  - destruct (decide (S i = NPRIMES)) as [Hend|Hend].
    + exists (S i). split; [|split_and!; try lia].
      * intros [|m] Hm; [lia|]. cbn [prime_loop]. rewrite (proj2 (Z.leb_le _ _)) by done.
        cbn [negb]. by rewrite (proj2 (Nat.eqb_eq _ _) Hend).
      * intros q Hq. simpl in Hq. rewrite Nat.sub_0_r in Hq. congruence.
      * intros q Hq. apply lookup_lt_Some in Hq. fold NPRIMES in Hq. lia.
    + destruct (lookup_lt_is_Some_2 primes (S i)) as [p' Hp']; [fold NPRIMES; lia|].
      destruct (IH (S i) p') as (r & Hr & Hb & H1 & H2); [lia|lia|done| |].
      { intros q Hq. simpl in Hq. rewrite Nat.sub_0_r in Hq. congruence. }
      exists r. split; [|split_and!; try done; lia].
      intros [|m] Hm; [lia|]. cbn [prime_loop]. rewrite (proj2 (Z.leb_le _ _)) by done.
      cbn [negb]. rewrite (proj2 (Nat.eqb_neq _ _) Hend), Hp'. apply Hr. lia.
  - exists i. split; [|split_and!; try lia; try done].
    + intros m _. destruct m; simpl; by rewrite (proj2 (Z.leb_gt _ _)) by done.
    + intros q Hq. congruence.
Qed.

(** [d] divides [p] for some [d] between 2 and [p - 1]. *)
Definition divisible (p : Z) : bool :=
  existsb (fun d => p mod d =? 0) (seqZ 2 (Z.sqrt p - 1)).

Lemma primes_checked : Forall (fun p => divisible p = false) (tail primes).
Proof. repeat constructor; vm_compute; reflexivity. Qed.

Lemma not_divisible_prime p : 4 <= p -> divisible p = false ->
  forall d, 1 < d < p -> p mod d <> 0.
Proof.
  intros Hp Hdiv d Hd Hm.
  assert (forall e, 1 < e -> e * e <= p -> p mod e <> 0) as Hsmall.
  { intros e He Hle Hz. unfold divisible in Hdiv. apply not_true_iff_false in Hdiv. apply Hdiv.
    apply existsb_exists. exists e. split; [|by apply Z.eqb_eq].
    apply list_elem_of_In, elem_of_seqZ.
    assert (e <= Z.sqrt p) by (apply Z.sqrt_le_square; lia). lia. }
  pose proof (Z.div_mod p d ltac:(lia)) as Hdm. rewrite Hm, Z.add_0_r in Hdm.
  destruct (Z.le_gt_cases (d * d) p) as [Hle|Hgt]; [apply (Hsmall d); [lia|lia|done]|].
  assert (1 < p / d) as Hq by nia.
  apply (Hsmall (p / d) Hq); [nia|].
  rewrite Hdm at 1. by rewrite Z.mod_mul by lia.
Qed.

(** The table of primes, in increasing order. *)
Lemma primes_sorted i j p q : (i < j)%nat -> primes !! i = Some p -> primes !! j = Some q -> p < q.
Proof.
  assert (forall l, forallb (fun x => forallb (fun y => Z.ltb x.2 y.2 || Nat.leb y.1 x.1) l) l = true ->
    forall a b, a ∈ l -> b ∈ l -> (a.1 < b.1)%nat -> a.2 < b.2) as H.
  { intros l Hl a b Ha Hb Hab. rewrite forallb_forall in Hl.
    specialize (Hl a (proj1 (list_elem_of_In _ _) Ha)). rewrite forallb_forall in Hl.
    specialize (Hl b (proj1 (list_elem_of_In _ _) Hb)).
    apply orb_prop in Hl as [Hl|Hl]; [by apply Z.ltb_lt|apply Nat.leb_le in Hl; lia]. }
  intros Hij Hp Hq.
  apply (H (imap pair primes)) with (a := (i, p)) (b := (j, q)); [vm_compute; reflexivity| | |done].
  - apply list_elem_of_lookup. exists i. by rewrite list_lookup_imap, Hp.
  - apply list_elem_of_lookup. exists j. by rewrite list_lookup_imap, Hq.
Qed.

Lemma prime_at k p : primes !! S k = Some p -> 13 <= p /\ forall d, 1 < d < p -> p mod d <> 0.
Proof.
  intros Hp. assert (13 <= p) as Hge.
  { destruct k as [|k]; [injection Hp as <-; lia|].
    pose proof (primes_sorted 1 (S (S k)) 13 p ltac:(lia) eq_refl Hp). lia. }
  split; [done|]. apply not_divisible_prime; [lia|].
  assert (p ∈ tail primes) as Hin by (by apply list_elem_of_lookup_2 with k).
  pose proof primes_checked as Hf. rewrite Forall_forall in Hf. by apply Hf.
Qed.

(** The hash tables have the sizes announced: [hashinit_flags] gives the largest
    power of two not above [elements], with the mask that selects a bucket, and
    [phashinit_flags] the largest entry of its table not above [elements], which is a
    prime number (or 1, for fewer than 13 elements); the buckets are empty, and a
    failed allocation gives NULL and leaves the mask alone. *)
Theorem hash_sizes malloc_ok sizeof_head elements old : 0 < elements < 2 ^ 31 ->
  (exists k, 2 ^ k <= elements < 2 ^ (k + 1) /\
     returns (fun n => hashinit_flags (A := unit) malloc_ok sizeof_head n elements old)
       (if malloc_ok (u64 (2 ^ k * sizeof_head))
        then (Some (replicate (Z.to_nat (2 ^ k)) []), 2 ^ k - 1) else (None, old))) /\
  (exists p, p ∈ primes /\ p <= elements /\ (forall q, q ∈ primes -> q <= elements -> q <= p) /\
     (p = 1 \/ forall d, 1 < d < p -> p mod d <> 0) /\
     returns (fun n => phashinit_flags (A := unit) malloc_ok sizeof_head n elements old)
       (if malloc_ok (u64 (p * sizeof_head))
        then (Some (replicate (Z.to_nat p) []), p) else (None, old))).
Proof.
  intros He. split.
  - destruct (hashsize_loop_ok elements He 31 0) as (r & Hr & Hr0 & Hb);
      [lia|change (2 ^ 0) with 1; lia|lia|change (0 + Z.of_nat 31) with 31; lia|].
    change (2 ^ 31) with 2147483648 in He.
    assert (2 ^ r = 2 * 2 ^ (r - 1)) as Hp.
    { rewrite <- Z.pow_succ_r by lia. f_equal. lia. }
    exists (r - 1). split; [by replace (r - 1 + 1) with r by lia|].
    exists 31%nat. intros m Hm. unfold hashinit_flags. rewrite (proj2 (Z.leb_gt elements 0)) by lia.
    change (hashsize_loop m 1 elements) with (hashsize_loop m (2 ^ 0) elements).
    rewrite Hr by done. cbn [mbind outcome_bind].
    assert (Z.shiftr (2 ^ r) 1 = 2 ^ (r - 1)) as Hsh.
    { rewrite Z.shiftr_div_pow2 by lia. rewrite Hp. change (2 ^ 1) with 2. rewrite Z.mul_comm.
      apply Z.div_mul. lia. }
    rewrite Hsh. assert (0 < 2 ^ (r - 1)) by (apply Z.pow_pos_nonneg; lia).
    by rewrite (u64_id (2 ^ (r - 1))), (u64_id (2 ^ (r - 1) - 1)) by (unfold in_u64; lia).
  - destruct (prime_loop_ok elements (NPRIMES - 1) 1 13) as (r & Hr & Hb & H1 & H2);
      [done|unfold NPRIMES; simpl; lia|done|intros q [= <-]; lia|].
    destruct (lookup_lt_is_Some_2 primes (r - 1)) as [p Hp]; [fold NPRIMES; lia|].
    exists p. split; [by eapply list_elem_of_lookup_2|]. split; [by apply H1|]. split; [|split].
    + intros q [j Hj]%list_elem_of_lookup Hq.
      destruct (decide (j = (r - 1)%nat)) as [->|Hne]; [rewrite Hp in Hj; injection Hj as ->; lia|].
      destruct (decide (j < r - 1)%nat) as [Hlt|Hge].
      { pose proof (primes_sorted j (r - 1) q p Hlt Hj Hp). lia. }
      assert (r < NPRIMES)%nat as Hrn by (apply lookup_lt_Some in Hj; unfold NPRIMES; lia).
      destruct (lookup_lt_is_Some_2 primes r Hrn) as [p' Hp']. specialize (H2 p' Hp').
      destruct (decide (j = r)) as [->|]; [rewrite Hp' in Hj; injection Hj as ->; lia|].
      pose proof (primes_sorted r j p' q ltac:(lia) Hp' Hj). lia.
    + destruct (r - 1)%nat as [|k] eqn:Hk; [injection Hp as <-; by left|].
      right. by apply (prime_at k).
    + exists (NPRIMES - 1)%nat. intros m Hm. unfold phashinit_flags. cbn [lookup list_lookup primes].
      rewrite Hr by done. cbn [mbind outcome_bind]. rewrite Hp.
      specialize (H1 p Hp). change (2 ^ 31) with 2147483648 in He.
      assert (0 <= p) as Hp0.
      { destruct (r - 1)%nat as [|k]; [injection Hp as <-; lia|].
        pose proof (proj1 (prime_at k p Hp)). lia. }
      by rewrite (u64_id p) by (unfold in_u64; lia).
Qed.

Lemma hash_sizes_witness :
  hashinit_flags (A := unit) (fun _ => true) 8 32 20 0 = Ok (Some (replicate 16 []), 15) /\
  exists p, p ∈ primes /\ p <= 100.
Proof.
  split; [reflexivity|].
  destruct (hash_sizes (fun _ => true) 8 100 0) as [_ (p & Hp & Hle & _)]; [lia|].
  exists p. split; assumption.
Defined.

(** ** Scatter/gather *)

Lemma rd_insert m a b v : rd (<[a := v]> m) b = if decide (b = a) then v else rd m b.
Proof. unfold rd. rewrite lookup_insert. by repeat case_decide; subst. Qed.

(** What [bcopy] leaves in memory. *)
Lemma rd_bcopy src dst n m a : 0 <= n ->
  rd (bcopy src dst n m) a =
    if decide (dst <= a < dst + n) then rd m (src + (a - dst)) else rd m a.
Proof.
  intros Hn. unfold bcopy.
  assert (forall l, rd (foldr (fun i m' => <[dst + i := rd m (src + i)]> m') m l) a =
    if decide (a - dst ∈ l) then rd m (src + (a - dst)) else rd m a) as H.
  { induction l as [|i l IH]; [done|]. cbn [foldr].
    rewrite rd_insert, IH.
    assert (a - dst ∈ i :: l <-> a = dst + i \/ a - dst ∈ l) as Hin.
    { rewrite elem_of_cons. split; (intros [|]; [left; lia|by right]). }
    destruct (decide (a = dst + i)) as [Ha|Ha], (decide (a - dst ∈ i :: l)) as [Hl|Hl],
      (decide (a - dst ∈ l)); try tauto; f_equal; lia. }
  rewrite H. destruct (decide (dst <= a < dst + n)).
  - rewrite decide_True; [done|]. apply elem_of_seqZ. lia.
  - rewrite decide_False; [done|]. rewrite elem_of_seqZ. lia.
Qed.

(** The user addresses an array of elements stands for, in order. *)
Definition iov_addrs (iov : list iovec) : list Z :=
  concat ((fun v => seqZ (iov_base v) (iov_len v)) <$> iov).

Definition iov_total (iov : list iovec) : Z := foldr (fun v t => iov_len v + t) 0 iov.

(** An element inside of the address space. *)
Definition iovec_ok (v : iovec) : Prop :=
  0 <= iov_base v /\ 0 <= iov_len v /\ iov_base v + iov_len v < 2 ^ 64.

(** Bytes have moved between the buffer at [cp] and the addresses [l], and nothing
    else has changed. *)
Definition moved (dir : uio_dir) (cp : Z) (l : list Z) (m m' : memory) : Prop :=
  match dir with
  | UIO_READ =>
      (forall i a, l !! i = Some a -> rd m' a = rd m (cp + Z.of_nat i)) /\
      (forall a, a ∉ l -> rd m' a = rd m a)
  | UIO_WRITE =>
      (forall i a, l !! i = Some a -> rd m' (cp + Z.of_nat i) = rd m a) /\
      (forall a, ~ cp <= a < cp + Z.of_nat (length l) -> rd m' a = rd m a)
  end.

(** The buffer is apart from the addresses. *)
Definition apart (cp n : Z) (l : list Z) : Prop := forall a, a ∈ l -> ~ cp <= a < cp + n.

Lemma moved_nil dir cp m : moved dir cp [] m m.
Proof. by destruct dir. Qed.

Lemma moved_app dir cp l1 l2 m m1 m2 : NoDup (l1 ++ l2) ->
  apart cp (Z.of_nat (length (l1 ++ l2))) (l1 ++ l2) ->
  moved dir cp l1 m m1 -> moved dir (cp + Z.of_nat (length l1)) l2 m1 m2 ->
  moved dir cp (l1 ++ l2) m m2.
Proof.
  intros Hnd Hap H1 H2. rewrite length_app in *. apply NoDup_app in Hnd as (_ & Hd & _).
  assert (forall i a, (l1 ++ l2) !! i = Some a -> a ∈ l1 ++ l2) as Hin
    by (intros; by eapply list_elem_of_lookup_2).
  assert (forall i a, (l1 ++ l2) !! i = Some a ->
    l1 !! i = Some a \/ (length l1 <= i)%nat /\ l2 !! (i - length l1)%nat = Some a) as Hsplit.
  { intros i a. rewrite lookup_app_Some. tauto. }
  destruct dir; destruct H1 as [H1 H1'], H2 as [H2 H2']; split.
  - intros i a Hi. destruct (Hsplit i a Hi) as [Ha|[Hle Ha]].
    + rewrite H2' by (apply Hd; by eapply list_elem_of_lookup_2). by apply H1.
    + rewrite (H2 _ _ Ha). replace (cp + Z.of_nat (length l1) + Z.of_nat (i - length l1))
        with (cp + Z.of_nat i) by lia.
      apply H1'. intros Hc. apply (Hap (cp + Z.of_nat i)); [set_solver|].
      apply lookup_lt_Some in Hi. rewrite length_app in Hi. lia.
  - intros a Ha. rewrite H2', H1' by set_solver. done.
  - intros i a Hi. destruct (Hsplit i a Hi) as [Ha|[Hle Ha]].
    + apply lookup_lt_Some in Ha as Hlt. rewrite H2' by lia. by apply H1.
    + replace (cp + Z.of_nat i) with (cp + Z.of_nat (length l1) + Z.of_nat (i - length l1)) by lia.
      rewrite (H2 _ _ Ha). apply H1'. intros Hc. apply (Hap a); [by eapply Hin|]. lia.
  - intros a Ha. rewrite length_app in Ha. rewrite H2', H1' by lia. done.
Qed.

Lemma seqZ_length_nat b n : 0 <= n -> Z.of_nat (length (seqZ b n)) = n.
Proof. intros. rewrite length_seqZ. lia. Qed.

(** The copy of one piece moves its bytes. *)
Lemma uio_copy_moved u cp base cnt m : 0 <= cnt -> uio_segflg u <> UIO_NOCOPY ->
  apart cp cnt (seqZ base cnt) ->
  exists m', uio_copy u cp base cnt m = (0, m') /\ moved (uio_rw u) cp (seqZ base cnt) m m'.
Proof.
  intros Hc Hseg Hap.
  assert (moved UIO_READ cp (seqZ base cnt) m (bcopy cp base cnt m)) as HR.
  { split.
    - intros i a Hi. apply lookup_seqZ in Hi as [-> Hi]. rewrite rd_bcopy, decide_True by lia.
      f_equal. lia.
    - intros a Ha. rewrite rd_bcopy, decide_False by (done || (intros ?; apply Ha, elem_of_seqZ; lia)).
      done. }
  assert (moved UIO_WRITE cp (seqZ base cnt) m (bcopy base cp cnt m)) as HW.
  { split.
    - intros i a Hi. apply lookup_seqZ in Hi as [-> Hi]. rewrite rd_bcopy, decide_True by lia.
      f_equal. lia.
    - intros a Ha. rewrite seqZ_length_nat in Ha by done. rewrite rd_bcopy by done.
      by rewrite decide_False. }
  unfold uio_copy, copyin, copyout. destruct (uio_segflg u), (uio_rw u); try done; by eexists.
Qed.

(** A well-formed [struct uio]: what [copyinuio] builds. *)
Record uio_ok (u : uio) : Prop := {
  uo_iov : Forall iovec_ok (uio_iov u);
  uo_resid : uio_resid u = iov_total (uio_iov u);
  uo_bound : iov_total (uio_iov u) <= INT_MAX;
  uo_offset : -1 <= uio_offset u < 2 ^ 62
}.

Lemma iov_total_nonneg iov : Forall iovec_ok iov -> 0 <= iov_total iov.
Proof. induction 1 as [|v iov [_ [? _]] _ IH]; simpl; lia. Qed.

Lemma length_iov_addrs iov : Forall iovec_ok iov ->
  Z.of_nat (length (iov_addrs iov)) = iov_total iov.
Proof.
  induction 1 as [|v iov [_ [? _]] _ IH]; [done|].
  unfold iov_addrs in *. cbn. rewrite length_app, Nat2Z.inj_add, IH, seqZ_length_nat; done.
Qed.

Lemma seqZ_split b k n : 0 <= k <= n -> seqZ b n = seqZ b k ++ seqZ (b + k) (n - k).
Proof.
  intros H. replace n with (k + (n - k)) at 1 by lia. rewrite seqZ_app by lia. done.
Qed.

(** [copyinuio] accepts exactly the arrays of at most [UIO_MAXIOV] elements whose
    lengths add up to at most [INT_MAX], without overflow, and then describes
    them: all of the elements, their exact total, offset -1; otherwise [EINVAL]. *)
Theorem copyinuio_spec UIO_MAXIOV iov iovcnt rw e r :
  Forall iovec_ok iov -> 0 < UIO_MAXIOV < 2 ^ 31 -> iovcnt = Z.of_nat (length iov) ->
  copyinuio UIO_MAXIOV iov iovcnt rw = (e, r) ->
  match r with
  | Some u => e = 0 /\ iovcnt <= UIO_MAXIOV /\ uio_ok u /\ uio_iov u = iov /\
      uio_iovcnt u = iovcnt /\ uio_offset u = -1 /\ uio_segflg u = UIO_USERSPACE
  | None => e = LAZYBSD_EINVAL /\ (UIO_MAXIOV < iovcnt \/ INT_MAX < iov_total iov)
  end.
Proof.
  change (2 ^ 31) with 2147483648. intros Hiov Hmax Hcnt Hr. revert Hr. unfold copyinuio.
  destruct (Z.ltb_spec UIO_MAXIOV iovcnt); [intros [= <- <-]; auto|].
  assert (forall l acc, Forall iovec_ok l -> 0 <= acc <= INT_MAX ->
    uio_total l acc = if decide (acc + iov_total l <= INT_MAX) then Some (acc + iov_total l) else None) as H1.
  { induction l as [|v l IH]; intros acc Hl Ha; cbn [uio_total iov_total foldr].
    - rewrite Z.add_0_r, decide_True by lia. done.
    - apply Forall_cons in Hl as [(Hb & Hn & Hv) Hl]. pose proof (iov_total_nonneg l Hl) as Ht.
      unfold iov_total in *. unfold INT_MAX in *. rewrite u64_id by (unfold in_u64; lia).
      destruct (Z.ltb_spec (2147483647 - acc) (iov_len v)); [by rewrite decide_False by lia|].
      rewrite i64_id by (unfold in_i64; lia). rewrite IH by (done || lia).
      by rewrite Z.add_assoc. }
  rewrite H1 by (done || unfold INT_MAX; lia). rewrite Z.add_0_l. case_decide as Hle; intros [= <- <-].
  - split_and!; try done. cbn. apply i32_id. unfold in_i32. lia.
  - split; [done|]. right. lia.
Qed.

Definition demo_iov : list iovec :=
  [{| iov_base := 4096; iov_len := 3 |}; {| iov_base := 8192; iov_len := 2 |}].

Definition demo_uio : uio :=
  {| uio_iov := demo_iov; uio_iovcnt := 2; uio_offset := -1; uio_resid := 5;
     uio_segflg := UIO_USERSPACE; uio_rw := UIO_READ |}.

Lemma demo_iov_ok : Forall iovec_ok demo_iov.
Proof. repeat constructor; simpl; lia. Qed.

Lemma demo_uio_ok : uio_ok demo_uio.
Proof. constructor; [apply demo_iov_ok|done|done|done]. Qed.

Lemma copyinuio_spec_witness :
  copyinuio 1024 demo_iov 2 UIO_READ = (0, Some demo_uio) /\ uio_ok demo_uio.
Proof.
  assert (copyinuio 1024 demo_iov 2 UIO_READ = (0, Some demo_uio)) as H by (vm_compute; reflexivity).
  split; [exact H|].
  apply (copyinuio_spec 1024 demo_iov 2 UIO_READ 0 (Some demo_uio) demo_iov_ok); [lia|reflexivity|exact H].
Defined.

(** What a call of [uiomove] for [k] bytes leaves. *)
Record uiomoved (cp k : Z) (u u' : uio) (m m' : memory) : Prop := {
  um_ok : uio_ok u';
  um_resid : uio_resid u' = uio_resid u - k;
  um_offset : uio_offset u' = uio_offset u + k;
  um_left : iov_addrs (uio_iov u') = drop (Z.to_nat k) (iov_addrs (uio_iov u));
  um_moved : moved (uio_rw u) cp (take (Z.to_nat k) (iov_addrs (uio_iov u))) m m';
  um_kind : uio_segflg u' = uio_segflg u /\ uio_rw u' = uio_rw u
}.

Lemma uiomoved_0 cp u m : uio_ok u -> uiomoved cp 0 u u m m.
Proof. intros. constructor; try done; try lia. apply moved_nil. Qed.

(** An empty element is skipped. *)
Lemma uiomoved_next cp k u rest v u' m m' : uio_iov u = v :: rest -> iov_len v = 0 ->
  uiomoved cp k (uio_next u rest) u' m m' -> uiomoved cp k u u' m m'.
Proof.
  intros Hu Hz [H1 H2 H3 H4 H5 H6].
  assert (iov_addrs (uio_iov u) = iov_addrs rest) as Ha.
  { rewrite Hu. unfold iov_addrs. cbn. by rewrite Hz. }
  constructor; try done; rewrite Ha; done.
Qed.

(** The addresses of the element in progress. *)
Lemma uio_advance_addrs u v rest cnt : iovec_ok v -> 0 <= cnt <= iov_len v ->
  iov_addrs (v :: rest) =
    seqZ (iov_base v) cnt ++ iov_addrs (uio_iov (uio_advance u v rest cnt)).
Proof.
  intros (Hb & Hl & Hv) Hc. change (2 ^ 64) with 18446744073709551616 in Hv.
  assert (iov_base v + cnt < 18446744073709551616) by lia.
  unfold iov_addrs. cbn. rewrite (u64_id (iov_len v - cnt)) by (unfold in_u64; lia).
  rewrite (u64_id (iov_base v + cnt)) by (unfold in_u64; lia).
  rewrite app_assoc. f_equal. rewrite <- seqZ_split by lia. done.
Qed.

Lemma uio_advance_ok u v rest cnt : uio_ok u -> uio_iov u = v :: rest ->
  0 <= cnt <= iov_len v -> uio_offset u + iov_total (uio_iov u) < 2 ^ 62 ->
  uio_ok (uio_advance u v rest cnt) /\
  uio_resid (uio_advance u v rest cnt) = uio_resid u - cnt /\
  uio_offset (uio_advance u v rest cnt) = uio_offset u + cnt.
Proof.
  intros [Ho1 Ho2 Ho3 Ho4] Hu Hc Hoff. rewrite Hu in *. apply Forall_cons in Ho1 as [Hv Hrest].
  pose proof Hv as (Hb & Hl & Hbl). pose proof (iov_total_nonneg rest Hrest) as Htr.
  assert (iov_total (v :: rest) = iov_len v + iov_total rest) as Ht by done.
  change (2 ^ 62) with 4611686018427387904 in *. unfold INT_MAX in *.
  change (2 ^ 64) with 18446744073709551616 in Hbl.
  assert (u64 (iov_base v + cnt) = iov_base v + cnt) as Eb by (apply u64_id; unfold in_u64; lia).
  assert (u64 (iov_len v - cnt) = iov_len v - cnt) as El by (apply u64_id; unfold in_u64; lia).
  assert (i64 (uio_resid u - cnt) = uio_resid u - cnt) as Er by (apply i64_id; unfold in_i64; lia).
  assert (i64 (uio_offset u + cnt) = uio_offset u + cnt) as Eo by (apply i64_id; unfold in_i64; lia).
  split; [|by split]. constructor; cbn; rewrite ?Eb, ?El, ?Er, ?Eo.
  - constructor; [|done]. unfold iovec_ok. cbn. change (2 ^ 64) with 18446744073709551616. lia.
  - fold (iov_total rest). lia.
  - fold (iov_total rest). unfold INT_MAX. lia.
  - change (2 ^ 62) with 4611686018427387904. lia.
Qed.

(** A piece, then the rest. *)
Lemma uiomoved_advance cp cnt k u rest v u' m m1 m' : uio_iov u = v :: rest ->
  0 <= cnt <= iov_len v -> 0 <= k -> uio_ok u -> uio_offset u + iov_total (uio_iov u) < 2 ^ 62 ->
  NoDup (iov_addrs (uio_iov u)) -> apart cp (cnt + k) (iov_addrs (uio_iov u)) ->
  moved (uio_rw u) cp (seqZ (iov_base v) cnt) m m1 ->
  uiomoved (cp + cnt) k (uio_advance u v rest cnt) u' m1 m' ->
  uiomoved cp (cnt + k) u u' m m'.
Proof.
  intros Hu Hc Hk Hok Hoff Hnd Hap Hm [H1 H2 H3 H4 H5 [H6 H7]].
  destruct (uio_advance_ok u v rest cnt Hok Hu Hc Hoff) as (_ & Hr & Ho).
  assert (iovec_ok v) as Hv.
  { pose proof (uo_iov u Hok) as Hf. rewrite Hu in Hf. by apply Forall_cons in Hf as [? _]. }
  pose proof (uio_advance_addrs u v rest cnt Hv Hc) as Ha. rewrite <- Hu in Ha.
  set (mid := uio_advance u v rest cnt) in *.
  assert (Z.to_nat (cnt + k) = length (seqZ (iov_base v) cnt) + Z.to_nat k)%nat as Hsum
    by (rewrite length_seqZ; lia).
  constructor; rewrite ?Hsum, ?Ha.
  - done.
  - lia.
  - lia.
  - rewrite H4. by rewrite <- drop_drop, drop_app_length.
  - rewrite take_app_add. apply (moved_app _ _ _ _ m m1 m').
    + rewrite Ha in Hnd. rewrite <- take_app_add.
      rewrite <- (take_drop (length (seqZ (iov_base v) cnt) + Z.to_nat k)) in Hnd.
      by apply NoDup_app in Hnd as (Hnd & _).
    + intros a Hin Hca. apply (Hap a).
      * rewrite Ha. rewrite <- take_app_add in Hin. apply elem_of_take in Hin as (i & Hi & _).
        by eapply list_elem_of_lookup_2.
      * rewrite length_app, length_take in Hca. rewrite length_seqZ in Hca. lia.
    + done.
    + rewrite seqZ_length_nat by lia. exact H5.
  - done.
Qed.

(** C29. [uiomove] moves [min n uio_resid] bytes between the buffer and the addresses of
    the elements, in order and across element boundaries: for [UIO_READ] the
    addresses get the bytes of the buffer, for [UIO_WRITE] the buffer gets theirs,
    and no other byte changes; the [struct uio] then describes what is left, and
    the call returns 0 within [n] plus the number of elements iterations. *)
Theorem uiomove_moves cp n u m : uio_ok u -> uio_segflg u <> UIO_NOCOPY ->
  uio_offset u + iov_total (uio_iov u) < 2 ^ 62 ->
  0 <= n < 2 ^ 31 -> 0 <= cp -> cp + n < 2 ^ 64 ->
  NoDup (iov_addrs (uio_iov u)) -> apart cp n (iov_addrs (uio_iov u)) ->
  exists u' m', (forall f, (length (uio_iov u) + Z.to_nat n <= f)%nat ->
      uiomove f cp n u m = Ok (0, u', m')) /\
    uiomoved cp (Z.min n (uio_resid u)) u u' m m'.
Proof.
  change (2 ^ 31) with 2147483648. change (2 ^ 64) with 18446744073709551616.
  remember (length (uio_iov u) + Z.to_nat n)%nat as w eqn:Hw. revert cp n u m Hw.
  induction w as [w IH] using lt_wf_ind. intros cp n u m Hw Hok Hseg Hoff Hn Hcp Hcn Hnd Hap.
  pose proof Hok as [Ho1 Ho2 Ho3 Ho4]. pose proof (iov_total_nonneg _ Ho1) as Ht.
  unfold INT_MAX in Ho3. rewrite <- Ho2 in Ho3, Ht.
  destruct ((0 <? n) && negb (uio_resid u =? 0)) eqn:Hgo.
  2: { exists u, m. split; [intros f _; destruct f; simpl; by rewrite Hgo|].
       replace (Z.min n (uio_resid u)) with 0; [by apply uiomoved_0|]. lia. }
  assert (0 < n /\ uio_resid u <> 0) as [Hn0 Hr0] by lia.
  destruct (uio_iov u) as [|v rest] eqn:Hu; [simpl in Ho2; lia|].
  assert (forall f, (w <= f)%nat -> uiomove f cp n u m =
    if u32 (iov_len v) =? 0 then uiomove (Nat.pred f) cp n (uio_next u rest) m else
    let cnt := if n <? u32 (iov_len v) then n else u32 (iov_len v) in
    let '(error, m) := uio_copy u cp (iov_base v) cnt m in
    if negb (error =? 0) then Ok (error, u, m) else
    uiomove (Nat.pred f) (u64 (cp + cnt)) (i32 (n - cnt)) (uio_advance u v rest cnt) m) as Hstep.
  { intros [|f] Hf; [simpl in Hw; lia|]. cbn [uiomove]. rewrite Hgo. cbn [negb]. by rewrite Hu. }
  apply Forall_cons in Ho1 as [Hv Hrest]. pose proof Hv as (Hb & Hl & Hbl).
  pose proof (iov_total_nonneg rest Hrest) as Htr.
  assert (iov_total (v :: rest) = iov_len v + iov_total rest) as Htot by done.
  assert (u32 (iov_len v) = iov_len v) as Hcnt by (apply u32_id; unfold in_u32; lia).
  rewrite Hcnt in Hstep. cbn [length] in Hw.
  destruct (Z.eqb_spec (iov_len v) 0) as [Hz|Hz].
  - assert (iov_addrs (v :: rest) = iov_addrs rest) as Ha by (unfold iov_addrs; cbn; by rewrite Hz).
    assert (uio_ok (uio_next u rest)) as Nok
      by (constructor; try done; cbn; fold (iov_total rest); unfold INT_MAX; lia).
    assert (uio_offset (uio_next u rest) + iov_total (uio_iov (uio_next u rest)) < 2 ^ 62) as Noff
      by (cbn; fold (iov_total rest); lia).
    rewrite Ha in Hnd, Hap.
    destruct (IH (length rest + Z.to_nat n)%nat ltac:(lia) cp n (uio_next u rest) m eq_refl Nok Hseg
      Noff Hn Hcp Hcn Hnd Hap) as (u' & m' & Hrun & Hmv).
    exists u', m'. split; [intros f Hf; rewrite Hstep by lia; apply Hrun; cbn; lia|].
    eapply uiomoved_next; [exact Hu|exact Hz|exact Hmv].
  - set (cnt := if n <? iov_len v then n else iov_len v) in *.
    assert (cnt = Z.min n (iov_len v)) as Hc by (subst cnt; destruct (Z.ltb_spec n (iov_len v)); lia).
    destruct (uio_copy_moved u cp (iov_base v) cnt m) as (m1 & Hcopy & Hm1); [lia|done| |].
    { intros a Hin Hca. apply elem_of_seqZ in Hin. apply (Hap a); [|lia].
      unfold iov_addrs. cbn. apply elem_of_app. left. apply elem_of_seqZ. lia. }
    cbv zeta in Hstep. rewrite Hcopy in Hstep. cbn [Z.eqb negb] in Hstep.
    rewrite (u64_id (cp + cnt)), (i32_id (n - cnt)) in Hstep by (unfold in_u64, in_i32; lia).
    destruct (uio_advance_ok u v rest cnt Hok Hu ltac:(lia)) as (Aok & Ar & Ao); [by rewrite Hu|].
    pose proof (uio_advance_addrs u v rest cnt Hv ltac:(lia)) as Aa.
    assert (Z.min n (uio_resid u) = cnt + Z.min (n - cnt) (uio_resid (uio_advance u v rest cnt))) as Hmin
      by lia.
    assert (uio_offset (uio_advance u v rest cnt) + iov_total (uio_iov (uio_advance u v rest cnt))
      < 2 ^ 62) as Aoff by (rewrite Ao, <- (uo_resid _ Aok), Ar; lia).
    assert (NoDup (iov_addrs (uio_iov (uio_advance u v rest cnt)))) as And
      by (rewrite Aa in Hnd; by apply NoDup_app in Hnd as (_ & _ & ?)).
    assert (apart (cp + cnt) (n - cnt) (iov_addrs (uio_iov (uio_advance u v rest cnt)))) as Aap.
    { intros a Hin Hca. apply (Hap a); [|lia]. rewrite Aa. apply elem_of_app. by right. }
    destruct (IH (S (length rest) + Z.to_nat (n - cnt))%nat ltac:(lia) (cp + cnt) (n - cnt)
      (uio_advance u v rest cnt) m1 eq_refl Aok Hseg Aoff ltac:(lia) ltac:(lia) ltac:(lia) And Aap)
      as (u' & m' & Hrun & Hmv).
    exists u', m'. split; [intros f Hf; rewrite Hstep by lia; apply Hrun; lia|].
    rewrite Hmin. pose proof (iov_total_nonneg _ (uo_iov _ Aok)) as Hpos.
    rewrite <- (uo_resid _ Aok) in Hpos.
    eapply uiomoved_advance; [exact Hu|lia|lia|done|by rewrite Hu|by rewrite Hu| |done|done].
    rewrite Hu, <- Hmin. intros a Hin Hca. apply (Hap a Hin). lia.
Qed.

(** Four bytes at 100. *)
Definition demo_mem : memory := <[100 := 11]> (<[101 := 22]> (<[102 := 33]> (<[103 := 44]> ∅))).

Lemma uiomove_moves_witness : exists u' m', uiomove 9 100 4 demo_uio demo_mem = Ok (0, u', m') /\
  uio_resid u' = 1 /\ uio_offset u' = 3 /\ rd m' 4096 = 11 /\ rd m' 8192 = 44.
Proof.
  destruct (uiomove_moves 100 4 demo_uio demo_mem) as (u' & m' & Hrun & [_ Hr Ho _ Hm _]).
  - apply demo_uio_ok.
  - discriminate.
  - reflexivity.
  - lia.
  - lia.
  - reflexivity.
  - apply (bool_decide_unpack _). vm_compute. exact I.
  - assert (Forall (fun a => ~ 100 <= a < 100 + 4) [4096; 4097; 4098; 8192; 8193]) as Hf
      by (repeat (apply Forall_cons; split; [lia|]); constructor).
    rewrite Forall_forall in Hf. exact Hf.
  - exists u', m'. split; [apply Hrun; vm_compute; lia|]. split; [exact Hr|]. split; [exact Ho|].
    destruct Hm as [Hm _]. split; [exact (Hm 0%nat 4096 eq_refl)|exact (Hm 3%nat 8192 eq_refl)].
Defined.
