(* ===== verification/SockConv.v ===== *)
(** * SockConv: the conversions of [bsd/lib/lazybsd_socket.c]

    An application of the Linux host passes Linux numbers and structures to the
    socket calls; the stack wants those of FreeBSD.  This file models the first
    half of [lazybsd_socket.c]: the tables of [ioctl] requests and socket options,
    the socket addresses, and the message headers with their ancillary data.
    Structures that the code reads through pointers which may be equal
    ([linux_sockaddr] and [sockaddr], [linux_cmsghdr] and [cmsghdr]) are bytes of
    the memory of [KernSubr]; [linux_msghdr] and [msghdr] are records.

    What the headers of FreeBSD define (its constants, the layout of its
    structures, its [CMSG_*] macros) is the class [BsdHeaders]; the documented
    facts the theorems use are the class [BsdHeadersDoc]. *)
From S2P Require Import Prelude Errno KernSubr.

(** The constants of the FreeBSD headers the tables name. *)
Inductive bsd_const : Type :=
| TIOCEXCL | TIOCNXCL | TIOCSCTTY | TIOCGPGRP | TIOCSPGRP | TIOCOUTQ | TIOCSTI | TIOCGWINSZ
| TIOCSWINSZ | TIOCMGET | TIOCMBIS | TIOCMBIC | TIOCMSET | FIONREAD | TIOCCONS | TIOCPKT
| FIONBIO | TIOCNOTTY | TIOCSETD | TIOCGETD | TIOCSBRK | TIOCCBRK | TIOCGSID | FIONCLEX
| FIOCLEX | FIOASYNC | TIOCPKT_DATA | TIOCPKT_FLUSHREAD | TIOCPKT_FLUSHWRITE | TIOCPKT_STOP
| TIOCPKT_START | TIOCPKT_NOSTOP | TIOCPKT_DOSTOP | TIOCPKT_IOCTL | SIOCGIFCONF | SIOCGIFFLAGS
| SIOCSIFFLAGS | SIOCGIFADDR | SIOCSIFADDR | SIOCGIFDSTADDR | SIOCSIFDSTADDR | SIOCGIFBRDADDR
| SIOCSIFBRDADDR | SIOCGIFNETMASK | SIOCSIFNETMASK | SIOCGIFMETRIC | SIOCSIFMETRIC
| SIOCGIFMTU | SIOCSIFMTU | SIOCSIFNAME | SIOCADDMULTI | SIOCDELMULTI | SIOCGIFINDEX
| SIOCDIFADDR | SO_DEBUG | SO_REUSEADDR | SO_ERROR | SO_DONTROUTE | SO_BROADCAST | SO_SNDBUF
| SO_RCVBUF | SO_KEEPALIVE | SO_OOBINLINE | SO_LINGER | SO_REUSEPORT | SO_RCVLOWAT
| SO_SNDLOWAT | SO_RCVTIMEO | SO_SNDTIMEO | SO_ACCEPTCONN | SO_PROTOCOL | IP_TOS | IP_TTL
| IP_HDRINCL | IP_OPTIONS | IP_MULTICAST_IF | IP_MULTICAST_TTL | IP_MULTICAST_LOOP
| IP_ADD_MEMBERSHIP | IP_DROP_MEMBERSHIP | IP_RECVTTL | IP_RECVTOS | IP_BINDANY | IP_MINTTL
| IPV6_V6ONLY | IPV6_RECVPKTINFO | IPV6_BINDANY | TCP_NODELAY | TCP_MAXSEG | TCP_KEEPIDLE
| TCP_KEEPINTVL | TCP_KEEPCNT | TCP_INFO | TCP_MD5SIG.
#[export] Instance bsd_const_eq_dec : EqDecision bsd_const.
Proof. solve_decision. Defined.

(** The numbers of Linux. *)
Definition LINUX_TIOCEXCL : Z := 21516.
Definition LINUX_TIOCNXCL : Z := 21517.
Definition LINUX_TIOCSCTTY : Z := 21518.
Definition LINUX_TIOCGPGRP : Z := 21519.
Definition LINUX_TIOCSPGRP : Z := 21520.
Definition LINUX_TIOCOUTQ : Z := 21521.
Definition LINUX_TIOCSTI : Z := 21522.
Definition LINUX_TIOCGWINSZ : Z := 21523.
Definition LINUX_TIOCSWINSZ : Z := 21524.
Definition LINUX_TIOCMGET : Z := 21525.
Definition LINUX_TIOCMBIS : Z := 21526.
Definition LINUX_TIOCMBIC : Z := 21527.
Definition LINUX_TIOCMSET : Z := 21528.
Definition LINUX_FIONREAD : Z := 21531.
Definition LINUX_TIOCCONS : Z := 21533.
Definition LINUX_TIOCPKT : Z := 21536.
Definition LINUX_FIONBIO : Z := 21537.
Definition LINUX_TIOCNOTTY : Z := 21538.
Definition LINUX_TIOCSETD : Z := 21539.
Definition LINUX_TIOCGETD : Z := 21540.
Definition LINUX_TIOCSBRK : Z := 21543.
Definition LINUX_TIOCCBRK : Z := 21544.
Definition LINUX_TIOCGSID : Z := 21545.
Definition LINUX_FIONCLEX : Z := 21584.
Definition LINUX_FIOCLEX : Z := 21585.
Definition LINUX_FIOASYNC : Z := 21586.
Definition LINUX_TIOCPKT_DATA : Z := 0.
Definition LINUX_TIOCPKT_FLUSHREAD : Z := 1.
Definition LINUX_TIOCPKT_FLUSHWRITE : Z := 2.
Definition LINUX_TIOCPKT_STOP : Z := 4.
Definition LINUX_TIOCPKT_START : Z := 8.
Definition LINUX_TIOCPKT_NOSTOP : Z := 16.
Definition LINUX_TIOCPKT_DOSTOP : Z := 32.
Definition LINUX_TIOCPKT_IOCTL : Z := 64.
Definition LINUX_SIOCGIFCONF : Z := 35090.
Definition LINUX_SIOCGIFFLAGS : Z := 35091.
Definition LINUX_SIOCSIFFLAGS : Z := 35092.
Definition LINUX_SIOCGIFADDR : Z := 35093.
Definition LINUX_SIOCSIFADDR : Z := 35094.
Definition LINUX_SIOCGIFDSTADDR : Z := 35095.
Definition LINUX_SIOCSIFDSTADDR : Z := 35096.
Definition LINUX_SIOCGIFBRDADDR : Z := 35097.
Definition LINUX_SIOCSIFBRDADDR : Z := 35098.
Definition LINUX_SIOCGIFNETMASK : Z := 35099.
Definition LINUX_SIOCSIFNETMASK : Z := 35100.
Definition LINUX_SIOCGIFMETRIC : Z := 35101.
Definition LINUX_SIOCSIFMETRIC : Z := 35102.
Definition LINUX_SIOCGIFMTU : Z := 35105.
Definition LINUX_SIOCSIFMTU : Z := 35106.
Definition LINUX_SIOCSIFNAME : Z := 35107.
Definition LINUX_SIOCADDMULTI : Z := 35121.
Definition LINUX_SIOCDELMULTI : Z := 35122.
Definition LINUX_SIOCGIFINDEX : Z := 35123.
Definition LINUX_SIOCDIFADDR : Z := 35126.
Definition LINUX_SO_DEBUG : Z := 1.
Definition LINUX_SO_REUSEADDR : Z := 2.
Definition LINUX_SO_ERROR : Z := 4.
Definition LINUX_SO_DONTROUTE : Z := 5.
Definition LINUX_SO_BROADCAST : Z := 6.
Definition LINUX_SO_SNDBUF : Z := 7.
Definition LINUX_SO_RCVBUF : Z := 8.
Definition LINUX_SO_KEEPALIVE : Z := 9.
Definition LINUX_SO_OOBINLINE : Z := 10.
Definition LINUX_SO_LINGER : Z := 13.
Definition LINUX_SO_REUSEPORT : Z := 15.
Definition LINUX_SO_RCVLOWAT : Z := 18.
Definition LINUX_SO_SNDLOWAT : Z := 19.
Definition LINUX_SO_RCVTIMEO : Z := 20.
Definition LINUX_SO_SNDTIMEO : Z := 21.
Definition LINUX_SO_ACCEPTCONN : Z := 30.
Definition LINUX_SO_PROTOCOL : Z := 38.
Definition LINUX_IP_TOS : Z := 1.
Definition LINUX_IP_TTL : Z := 2.
Definition LINUX_IP_HDRINCL : Z := 3.
Definition LINUX_IP_OPTIONS : Z := 4.
Definition LINUX_IP_MULTICAST_IF : Z := 32.
Definition LINUX_IP_MULTICAST_TTL : Z := 33.
Definition LINUX_IP_MULTICAST_LOOP : Z := 34.
Definition LINUX_IP_ADD_MEMBERSHIP : Z := 35.
Definition LINUX_IP_DROP_MEMBERSHIP : Z := 36.
Definition LINUX_IP_RECVTTL : Z := 12.
Definition LINUX_IP_RECVTOS : Z := 13.
Definition LINUX_IP_TRANSPARENT : Z := 19.
Definition LINUX_IP_MINTTL : Z := 21.
Definition LINUX_IPV6_V6ONLY : Z := 26.
Definition LINUX_IPV6_RECVPKTINFO : Z := 49.
Definition LINUX_IPV6_TRANSPARENT : Z := 75.
Definition LINUX_TCP_NODELAY : Z := 1.
Definition LINUX_TCP_MAXSEG : Z := 2.
Definition LINUX_TCP_KEEPIDLE : Z := 4.
Definition LINUX_TCP_KEEPINTVL : Z := 5.
Definition LINUX_TCP_KEEPCNT : Z := 6.
Definition LINUX_TCP_INFO : Z := 11.
Definition LINUX_TCP_MD5SIG : Z := 14.
Definition LINUX_SOL_SOCKET : Z := 1.

(** ** Memory access *)

(** The little-endian unsigned number in the [n] bytes at [a]. *)
Fixpoint load (n : nat) (m : memory) (a : Z) : Z :=
  match n with
  | O => 0
  | S n => u8 (rd m a) + 256 * load n m (a + 1)
  end.

Fixpoint store (n : nat) (m : memory) (a v : Z) : memory :=
  match n with
  | O => m
  | S n => store n (<[a := u8 v]> m) (a + 1) (Z.shiftr v 8)
  end.

(** [memcpy] and [bcopy] with a [size_t] length: no object is larger than
    [PTRDIFF_MAX] bytes, so that such a copy faults. *)
Definition memcpy (dst src n : Z) (m : memory) : outcome memory :=
  if LONG_MAX <? n then Panic else Ok (bcopy src dst n m).

(** ** The headers of FreeBSD *)

(** [struct msghdr] *)
Record msghdr := Msghdr {
  msg_name : Z; msg_namelen : Z; msg_iov : list iovec; msg_iovlen : Z;
  msg_control : Z; msg_controllen : Z; msg_flags : Z }.

Class BsdHeaders := {
  bsd : bsd_const -> Z;  (** the values of the constants *)
  SOL_SOCKET : Z;
  IPPROTO_IP : Z;
  IPPROTO_IPV6 : Z;
  IPPROTO_TCP : Z;
  AF_INET6 : Z;
  sa_len : Z;       (** the offsets in [struct sockaddr] *)
  sa_family : Z;
  sa_data : Z;
  ALIGN : Z -> Z;   (** the macro [_ALIGN] *)
  sizeof_cmsghdr : Z;
  cmsg_len : Z;     (** the offsets in [struct cmsghdr] *)
  cmsg_level : Z;
  cmsg_type : Z;
  CMSG_DATA : Z -> Z;
  CMSG_LEN : Z -> Z;
  CMSG_FIRSTHDR : msghdr -> Z;
  CMSG_NXTHDR : memory -> msghdr -> Z -> Z }.

(** ** The tables

    The cases of each [switch], in the order of the source. *)
Section Tables.
Context `{BsdHeaders}.

Definition linux2freebsd_ioctl_cases : list (Z * bsd_const) :=
  [
   (LINUX_TIOCEXCL, TIOCEXCL);
   (LINUX_TIOCNXCL, TIOCNXCL);
   (LINUX_TIOCSCTTY, TIOCSCTTY);
   (LINUX_TIOCGPGRP, TIOCGPGRP);
   (LINUX_TIOCSPGRP, TIOCSPGRP);
   (LINUX_TIOCOUTQ, TIOCOUTQ);
   (LINUX_TIOCSTI, TIOCSTI);
   (LINUX_TIOCGWINSZ, TIOCGWINSZ);
   (LINUX_TIOCSWINSZ, TIOCSWINSZ);
   (LINUX_TIOCMGET, TIOCMGET);
   (LINUX_TIOCMBIS, TIOCMBIS);
   (LINUX_TIOCMBIC, TIOCMBIC);
   (LINUX_TIOCMSET, TIOCMSET);
   (LINUX_FIONREAD, FIONREAD);
   (LINUX_TIOCCONS, TIOCCONS);
   (LINUX_TIOCPKT, TIOCPKT);
   (LINUX_FIONBIO, FIONBIO);
   (LINUX_TIOCNOTTY, TIOCNOTTY);
   (LINUX_TIOCSETD, TIOCSETD);
   (LINUX_TIOCGETD, TIOCGETD);
   (LINUX_TIOCSBRK, TIOCSBRK);
   (LINUX_TIOCCBRK, TIOCCBRK);
   (LINUX_TIOCGSID, TIOCGSID);
   (LINUX_FIONCLEX, FIONCLEX);
   (LINUX_FIOCLEX, FIOCLEX);
   (LINUX_FIOASYNC, FIOASYNC);
   (LINUX_TIOCPKT_DATA, TIOCPKT_DATA);
   (LINUX_TIOCPKT_FLUSHREAD, TIOCPKT_FLUSHREAD);
   (LINUX_TIOCPKT_FLUSHWRITE, TIOCPKT_FLUSHWRITE);
   (LINUX_TIOCPKT_STOP, TIOCPKT_STOP);
   (LINUX_TIOCPKT_START, TIOCPKT_START);
   (LINUX_TIOCPKT_NOSTOP, TIOCPKT_NOSTOP);
   (LINUX_TIOCPKT_DOSTOP, TIOCPKT_DOSTOP);
   (LINUX_TIOCPKT_IOCTL, TIOCPKT_IOCTL);
   (LINUX_SIOCGIFCONF, SIOCGIFCONF);
   (LINUX_SIOCGIFFLAGS, SIOCGIFFLAGS);
   (LINUX_SIOCSIFFLAGS, SIOCSIFFLAGS);
   (LINUX_SIOCGIFADDR, SIOCGIFADDR);
   (LINUX_SIOCSIFADDR, SIOCSIFADDR);
   (LINUX_SIOCGIFDSTADDR, SIOCGIFDSTADDR);
   (LINUX_SIOCSIFDSTADDR, SIOCSIFDSTADDR);
   (LINUX_SIOCGIFBRDADDR, SIOCGIFBRDADDR);
   (LINUX_SIOCSIFBRDADDR, SIOCSIFBRDADDR);
   (LINUX_SIOCGIFNETMASK, SIOCGIFNETMASK);
   (LINUX_SIOCSIFNETMASK, SIOCSIFNETMASK);
   (LINUX_SIOCGIFMETRIC, SIOCGIFMETRIC);
   (LINUX_SIOCSIFMETRIC, SIOCSIFMETRIC);
   (LINUX_SIOCGIFMTU, SIOCGIFMTU);
   (LINUX_SIOCSIFMTU, SIOCSIFMTU);
   (LINUX_SIOCSIFNAME, SIOCSIFNAME);
   (LINUX_SIOCADDMULTI, SIOCADDMULTI);
   (LINUX_SIOCDELMULTI, SIOCDELMULTI);
   (LINUX_SIOCGIFINDEX, SIOCGIFINDEX);
   (LINUX_SIOCDIFADDR, SIOCDIFADDR)].

Definition linux2freebsd_ioctl (request : Z) : Z :=
  switch request (prod_map id bsd <$> linux2freebsd_ioctl_cases) (-1).

Definition so_opt_convert_cases : list (Z * bsd_const) :=
  [
   (LINUX_SO_DEBUG, SO_DEBUG);
   (LINUX_SO_REUSEADDR, SO_REUSEADDR);
   (LINUX_SO_ERROR, SO_ERROR);
   (LINUX_SO_DONTROUTE, SO_DONTROUTE);
   (LINUX_SO_BROADCAST, SO_BROADCAST);
   (LINUX_SO_SNDBUF, SO_SNDBUF);
   (LINUX_SO_RCVBUF, SO_RCVBUF);
   (LINUX_SO_KEEPALIVE, SO_KEEPALIVE);
   (LINUX_SO_OOBINLINE, SO_OOBINLINE);
   (LINUX_SO_LINGER, SO_LINGER);
   (LINUX_SO_REUSEPORT, SO_REUSEPORT);
   (LINUX_SO_RCVLOWAT, SO_RCVLOWAT);
   (LINUX_SO_SNDLOWAT, SO_SNDLOWAT);
   (LINUX_SO_RCVTIMEO, SO_RCVTIMEO);
   (LINUX_SO_SNDTIMEO, SO_SNDTIMEO);
   (LINUX_SO_ACCEPTCONN, SO_ACCEPTCONN);
   (LINUX_SO_PROTOCOL, SO_PROTOCOL)].

Definition so_opt_convert (optname : Z) : Z :=
  switch optname (prod_map id bsd <$> so_opt_convert_cases) (-1).

Definition ip_opt_convert_cases : list (Z * bsd_const) :=
  [
   (LINUX_IP_TOS, IP_TOS);
   (LINUX_IP_TTL, IP_TTL);
   (LINUX_IP_HDRINCL, IP_HDRINCL);
   (LINUX_IP_OPTIONS, IP_OPTIONS);
   (LINUX_IP_MULTICAST_IF, IP_MULTICAST_IF);
   (LINUX_IP_MULTICAST_TTL, IP_MULTICAST_TTL);
   (LINUX_IP_MULTICAST_LOOP, IP_MULTICAST_LOOP);
   (LINUX_IP_ADD_MEMBERSHIP, IP_ADD_MEMBERSHIP);
   (LINUX_IP_DROP_MEMBERSHIP, IP_DROP_MEMBERSHIP);
   (LINUX_IP_RECVTTL, IP_RECVTTL);
   (LINUX_IP_RECVTOS, IP_RECVTOS);
   (LINUX_IP_TRANSPARENT, IP_BINDANY);
   (LINUX_IP_MINTTL, IP_MINTTL)].

Definition ip_opt_convert (optname : Z) : Z :=
  switch optname (prod_map id bsd <$> ip_opt_convert_cases) optname.

Definition ip6_opt_convert_cases : list (Z * bsd_const) :=
  [
   (LINUX_IPV6_V6ONLY, IPV6_V6ONLY);
   (LINUX_IPV6_RECVPKTINFO, IPV6_RECVPKTINFO);
   (LINUX_IPV6_TRANSPARENT, IPV6_BINDANY)].

Definition ip6_opt_convert (optname : Z) : Z :=
  switch optname (prod_map id bsd <$> ip6_opt_convert_cases) optname.

Definition tcp_opt_convert_cases : list (Z * bsd_const) :=
  [
   (LINUX_TCP_NODELAY, TCP_NODELAY);
   (LINUX_TCP_MAXSEG, TCP_MAXSEG);
   (LINUX_TCP_KEEPIDLE, TCP_KEEPIDLE);
   (LINUX_TCP_KEEPINTVL, TCP_KEEPINTVL);
   (LINUX_TCP_KEEPCNT, TCP_KEEPCNT);
   (LINUX_TCP_INFO, TCP_INFO);
   (LINUX_TCP_MD5SIG, TCP_MD5SIG)].

Definition tcp_opt_convert (optname : Z) : Z :=
  switch optname (prod_map id bsd <$> tcp_opt_convert_cases) (-1).

Definition linux2freebsd_opt (level optname : Z) : Z :=
  if level =? SOL_SOCKET then so_opt_convert optname
  else if level =? IPPROTO_IP then ip_opt_convert optname
  else if level =? IPPROTO_IPV6 then ip6_opt_convert optname
  else if level =? IPPROTO_TCP then tcp_opt_convert optname
  else -1.
End Tables.

(** ** Socket addresses

    [struct linux_sockaddr]: a [short] family, then the data. *)
Definition linux_sa_family : Z := 0.
Definition linux_sa_data : Z := 2.
Definition sizeof_linux_sa_family : Z := 2.
Definition LINUX_AF_INET6 : Z := 10.

Section Conversions.
Context `{BsdHeaders}.

Definition linux2freebsd_sockaddr (linux_addr addrlen freebsd_addr : Z) (m : memory)
    : outcome memory :=
  if (linux_addr =? 0) || (freebsd_addr =? 0) then Ok m else
  let fam := i16 (load 2 m (linux_addr + linux_sa_family)) in
  let m := store 1 m (freebsd_addr + sa_family)
             (if fam =? LINUX_AF_INET6 then AF_INET6 else fam) in
  let m := store 1 m (freebsd_addr + sa_len) addrlen in
  if negb (linux_addr + linux_sa_data =? freebsd_addr + sa_data)
  then memcpy (freebsd_addr + sa_data) (linux_addr + linux_sa_data)
         (u64 (addrlen - sizeof_linux_sa_family)) m
  else Ok m.

Definition freebsd2linux_sockaddr (linux_addr freebsd_addr : Z) (m : memory) : outcome memory :=
  if (linux_addr =? 0) || (freebsd_addr =? 0) then Ok m else
  m ← (if negb (linux_addr + linux_sa_data =? freebsd_addr + sa_data)
       then memcpy (linux_addr + linux_sa_data) (freebsd_addr + sa_data)
              (u64 (load 1 m (freebsd_addr + sa_len) - sizeof_linux_sa_family)) m
       else Ok m);
  let fam := load 1 m (freebsd_addr + sa_family) in
  Ok (store 2 m (linux_addr + linux_sa_family)
        (if fam =? AF_INET6 then LINUX_AF_INET6 else fam)).

(** ** Ancillary data

    [struct linux_cmsghdr]: a [size_t] length, the level and the type. *)
Definition linux_cmsg_len : Z := 0.
Definition linux_cmsg_level : Z := 8.
Definition linux_cmsg_type : Z := 12.
Definition sizeof_linux_cmsghdr : Z := 16.

Definition LINUX_CMSG_DATA (cmsg : Z) : Z := cmsg + ALIGN sizeof_linux_cmsghdr.
Definition LINUX_CMSG_LEN (l : Z) : Z := u64 (ALIGN sizeof_linux_cmsghdr + l).

(** [struct linux_msghdr] has the fields of [struct msghdr]. *)
Definition LINUX_CMSG_FIRSTHDR (mhdr : msghdr) : Z :=
  if sizeof_linux_cmsghdr <=? msg_controllen mhdr then msg_control mhdr else 0.

Definition LINUX_CMSG_NXTHDR (m : memory) (mhdr : msghdr) (cmsg : Z) : Z :=
  if cmsg =? 0 then LINUX_CMSG_FIRSTHDR mhdr
  else
    let next := u64 (cmsg + ALIGN (load 8 m (cmsg + linux_cmsg_len))) in
    if msg_control mhdr + msg_controllen mhdr <? u64 (next + ALIGN sizeof_linux_cmsghdr)
    then 0 else next.

(** One turn of the loop of [freebsd2linux_cmsghdr]. *)
Definition freebsd2linux_cmsg_step (linux_cmsg freebsd_cmsg : Z) (m : memory) : outcome memory :=
  let freebsd_optval := CMSG_DATA freebsd_cmsg in
  let linux_optval := LINUX_CMSG_DATA linux_cmsg in
  let m := store 4 m (linux_cmsg + linux_cmsg_type) (load 4 m (freebsd_cmsg + cmsg_type)) in
  let m := store 4 m (linux_cmsg + linux_cmsg_level) (load 4 m (freebsd_cmsg + cmsg_level)) in
  let m := store 8 m (linux_cmsg + linux_cmsg_len)
             (LINUX_CMSG_LEN (u64 (load 4 m (freebsd_cmsg + cmsg_len) - ALIGN sizeof_cmsghdr))) in
  let copy m := memcpy linux_optval freebsd_optval
    (u64 (load 8 m (linux_cmsg + linux_cmsg_len) - sizeof_linux_cmsghdr)) m in
  if i32 (load 4 m (linux_cmsg + linux_cmsg_level)) =? IPPROTO_IP then
    let type := i32 (load 4 m (linux_cmsg + linux_cmsg_type)) in
    if type =? bsd IP_RECVTOS then
      let m := store 4 m (linux_cmsg + linux_cmsg_type) LINUX_IP_TOS in
      Ok (store 1 m linux_optval (load 1 m freebsd_optval))
    else if type =? bsd IP_RECVTTL then
      let m := store 8 m (linux_cmsg + linux_cmsg_len) (LINUX_CMSG_LEN 4) in
      let m := store 4 m (linux_cmsg + linux_cmsg_type) LINUX_IP_TTL in
      Ok (store 4 m linux_optval (load 1 m freebsd_optval))
    else copy m
  else copy m.

Fixpoint freebsd2linux_cmsg_loop (fuel : nat) (linux_msg freebsd_msg : msghdr)
    (linux_cmsg freebsd_cmsg : Z) (m : memory) : outcome memory :=
  if (freebsd_cmsg =? 0) || (linux_cmsg =? 0) then Ok m else
  match fuel with
  | O => Diverge
  | S fuel =>
      m ← freebsd2linux_cmsg_step linux_cmsg freebsd_cmsg m;
      freebsd2linux_cmsg_loop fuel linux_msg freebsd_msg
        (LINUX_CMSG_NXTHDR m linux_msg linux_cmsg) (CMSG_NXTHDR m freebsd_msg freebsd_cmsg) m
  end.

Definition freebsd2linux_cmsghdr (fuel : nat) (linux_msg freebsd_msg : msghdr) (m : memory)
    : outcome (Z * memory) :=
  m ← freebsd2linux_cmsg_loop fuel linux_msg freebsd_msg
        (LINUX_CMSG_FIRSTHDR linux_msg) (CMSG_FIRSTHDR freebsd_msg) m;
  Ok (0, m).

(** One turn of the loop of [linux2freebsd_cmsg]. *)
Definition linux2freebsd_cmsg_step (linux_cmsg freebsd_cmsg : Z) (m : memory) : outcome memory :=
  let freebsd_optval := CMSG_DATA freebsd_cmsg in
  let linux_optval := LINUX_CMSG_DATA linux_cmsg in
  let m := store 4 m (freebsd_cmsg + cmsg_type) (load 4 m (linux_cmsg + linux_cmsg_type)) in
  let m := store 4 m (freebsd_cmsg + cmsg_level) (load 4 m (linux_cmsg + linux_cmsg_level)) in
  let m := store 4 m (freebsd_cmsg + cmsg_len)
             (CMSG_LEN (u64 (load 8 m (linux_cmsg + linux_cmsg_len) - ALIGN sizeof_linux_cmsghdr))) in
  let copy m := memcpy freebsd_optval linux_optval
    (u64 (load 8 m (linux_cmsg + linux_cmsg_len) - sizeof_linux_cmsghdr)) m in
  if i32 (load 4 m (linux_cmsg + linux_cmsg_level)) =? IPPROTO_IP then
    let type := i32 (load 4 m (linux_cmsg + linux_cmsg_type)) in
    if type =? LINUX_IP_TOS then
      let m := store 4 m (freebsd_cmsg + cmsg_type) (bsd IP_TOS) in
      let m := store 4 m (freebsd_cmsg + cmsg_len) (CMSG_LEN 1) in
      let len := load 8 m (linux_cmsg + linux_cmsg_len) in
      Ok (if len =? LINUX_CMSG_LEN 4 then store 1 m freebsd_optval (load 4 m linux_optval)
          else if len =? LINUX_CMSG_LEN 1 then store 1 m freebsd_optval (load 1 m linux_optval)
          else m)
    else if type =? LINUX_IP_TTL then
      let m := store 4 m (freebsd_cmsg + cmsg_type) (bsd IP_TTL) in
      let m := store 4 m (freebsd_cmsg + cmsg_len) (CMSG_LEN 1) in
      Ok (store 1 m freebsd_optval (load 4 m linux_optval))
    else copy m
  else copy m.

Fixpoint linux2freebsd_cmsg_loop (fuel : nat) (linux_msg freebsd_msg : msghdr)
    (linux_cmsg freebsd_cmsg : Z) (m : memory) : outcome memory :=
  if (freebsd_cmsg =? 0) || (linux_cmsg =? 0) then Ok m else
  match fuel with
  | O => Diverge
  | S fuel =>
      m ← linux2freebsd_cmsg_step linux_cmsg freebsd_cmsg m;
      linux2freebsd_cmsg_loop fuel linux_msg freebsd_msg
        (LINUX_CMSG_NXTHDR m linux_msg linux_cmsg) (CMSG_NXTHDR m freebsd_msg freebsd_cmsg) m
  end.

Definition linux2freebsd_cmsg (fuel : nat) (linux_msg freebsd_msg : msghdr) (m : memory)
    : outcome (Z * memory) :=
  m ← linux2freebsd_cmsg_loop fuel linux_msg freebsd_msg
        (LINUX_CMSG_FIRSTHDR linux_msg) (CMSG_FIRSTHDR freebsd_msg) m;
  Ok (0, m).

(** ** Message headers

    [None] is the NULL pointer; the value is the code returned, the header
    written and the memory. *)
Definition freebsd2linux_msghdr (fuel : nat) (linux_msg freebsd_msg : option msghdr)
    (send_flag : bool) (m : memory) : outcome (Z * option msghdr * memory) :=
  match linux_msg, freebsd_msg with
  | Some l, Some f =>
      '(l, m) ←
        (if negb (msg_name l =? 0) && negb (msg_name f =? 0) && negb send_flag
         then m ← freebsd2linux_sockaddr (msg_name f) (msg_name f) m;
              Ok (Msghdr (msg_name f) (msg_namelen f) (msg_iov l) (msg_iovlen l)
                    (msg_control l) (msg_controllen l) (msg_flags l), m)
         else Ok (l, m));
      let l := Msghdr (msg_name l) (msg_namelen l) (msg_iov f) (msg_iovlen f)
                 (msg_control l) (msg_controllen l) (msg_flags l) in
      '(l, m) ←
        (if negb (msg_control f =? 0) && negb (msg_control l =? 0) && negb send_flag
         then '(_, m) ← freebsd2linux_cmsghdr fuel l f m;
              Ok (Msghdr (msg_name l) (msg_namelen l) (msg_iov l) (msg_iovlen l)
                    (msg_control l) (msg_controllen f) (msg_flags l), m)
         else Ok (l, m));
      Ok (0, Some (Msghdr (msg_name l) (msg_namelen l) (msg_iov l) (msg_iovlen l)
                     (msg_control l) (msg_controllen l) (msg_flags f)), m)
  | _, _ => Ok (-1, linux_msg, m)
  end.

Definition linux2freebsd_msghdr (fuel : nat) (linux_msg freebsd_msg : option msghdr)
    (send_flag : bool) (m : memory) : outcome (Z * option msghdr * memory) :=
  match linux_msg, freebsd_msg with
  | Some l, Some f =>
      '(name, m) ←
        (if negb (msg_name l =? 0) && negb (msg_name f =? 0) && send_flag
         then m ← linux2freebsd_sockaddr (msg_name l) (msg_namelen l) (msg_name f) m;
              Ok (msg_name f, m)
         else Ok (msg_name l, m));
      let f := Msghdr name (msg_namelen l) (msg_iov l) (msg_iovlen l)
                 (msg_control f) (msg_controllen l) (msg_flags f) in
      if negb (msg_control l =? 0) && send_flag then
        '(ret, m) ← linux2freebsd_cmsg fuel l f m;
        if ret <? 0 then Ok (ret, Some f, m)
        else Ok (0, Some (Msghdr name (msg_namelen l) (msg_iov l) (msg_iovlen l)
                            (msg_control f) (msg_controllen l) (msg_flags l)), m)
      else
        Ok (0, Some (Msghdr name (msg_namelen l) (msg_iov l) (msg_iovlen l)
                       (msg_control l) (msg_controllen l) (msg_flags l)), m)
  | _, _ => Ok (-1, freebsd_msg, m)
  end.
End Conversions.

(** ** What the headers of FreeBSD document

    [AF_INET6] is 28 ([AF_INET6_FREEBSD] of [lazybsd_socket.h]); [struct sockaddr]
    is a length byte, a family byte and the data; [struct cmsghdr] is a four-byte
    length, the level and the type; [cmsg_data] starts 16 bytes into both kinds
    of ancillary header (the comment in [freebsd2linux_cmsghdr]). *)
Class BsdHeadersDoc `{BsdHeaders} : Prop := {
  doc_AF_INET6 : AF_INET6 = 28;
  doc_sa_len : sa_len = 0;
  doc_sa_family : sa_family = 1;
  doc_sa_data : sa_data = 2;
  doc_ALIGN : forall n, 0 <= n -> ALIGN n = 8 * ((n + 7) / 8);
  doc_sizeof_cmsghdr : sizeof_cmsghdr = 12;
  doc_cmsg_len : cmsg_len = 0;
  doc_cmsg_level : cmsg_level = 4;
  doc_cmsg_type : cmsg_type = 8;
  doc_CMSG_DATA : forall c, CMSG_DATA c = c + 16;
  doc_CMSG_LEN : forall l, CMSG_LEN l = u64 (16 + l);
  doc_IPPROTO_IP : IPPROTO_IP = 0 }.

(** ** Facts about memory *)

Lemma u8_range z : 0 <= u8 z < 256.
Proof. unfold uwrap. apply Z.mod_pos_bound. lia. Qed.

Lemma u8_id z : 0 <= z < 256 -> u8 z = z.
Proof. intros. unfold uwrap. by apply Z.mod_small. Qed.

Lemma load_range n m a : 0 <= load n m a < 256 ^ Z.of_nat n.
Proof.
  revert a. induction n as [|n IH]; intros a; [simpl; lia|].
  cbn [load]. rewrite Nat2Z.inj_succ, Z.pow_succ_r by lia.
  pose proof (u8_range (rd m a)). specialize (IH (a + 1)). lia.
Qed.

Lemma load_ext n m m' a :
  (forall b, a <= b < a + Z.of_nat n -> rd m b = rd m' b) -> load n m a = load n m' a.
Proof.
  revert a. induction n as [|n IH]; intros a Heq; [done|].
  cbn [load]. rewrite Heq by lia. f_equal. f_equal. apply IH. intros b Hb. apply Heq. lia.
Qed.

Lemma rd_store_out n m a v b :
  ~ (a <= b < a + Z.of_nat n) -> rd (store n m a v) b = rd m b.
Proof.
  revert m a v. induction n as [|n IH]; intros m a v Hb; [done|].
  cbn [store]. rewrite IH by lia. rewrite rd_insert, decide_False by lia. done.
Qed.

Lemma load_store_sep n k m a b v :
  a + Z.of_nat n <= b \/ b + Z.of_nat k <= a -> load n (store k m b v) a = load n m a.
Proof. intros Hs. apply load_ext. intros c Hc. apply rd_store_out. lia. Qed.

Lemma load_store n m a v : load n (store n m a v) a = v mod 256 ^ Z.of_nat n.
Proof.
  revert m a v. induction n as [|n IH]; intros m a v.
  - simpl. by rewrite Z.mod_1_r.
  - cbn [load store]. rewrite rd_store_out by lia. rewrite rd_insert, decide_True by done.
    rewrite IH, (u8_id (u8 v)) by apply u8_range.
    rewrite Z.shiftr_div_pow2 by lia. unfold uwrap. change (2 ^ 8) with 256.
    rewrite Nat2Z.inj_succ, Z.pow_succ_r, Z.rem_mul_r by lia. done.
Qed.

(** The low half of a number that fits in it. *)
Lemma load_4_of_8 m a : load 8 m a < 2 ^ 32 -> load 4 m a = load 8 m a.
Proof.
  intros Hlt. cbn [load] in *.
  repeat match goal with |- context [rd m ?b] =>
    lazymatch goal with H : 0 <= u8 (rd m b) < 256 |- _ => fail
    | _ => pose proof (u8_range (rd m b)) end end.
  repeat match goal with H : context [rd m ?b] |- _ =>
    lazymatch goal with H : 0 <= u8 (rd m b) < 256 |- _ => fail
    | _ => pose proof (u8_range (rd m b)) end end.
  change (2 ^ 32) with 4294967296 in *. lia.
Qed.

Lemma load_1 m a : load 1 m a = u8 (rd m a).
Proof. cbn [load]. lia. Qed.

Lemma memcpy_Ok dst src n m : n <= LONG_MAX -> memcpy dst src n m = Ok (bcopy src dst n m).
Proof. intros. unfold memcpy. destruct (Z.ltb_spec LONG_MAX n); [lia|done]. Qed.

(** Resolve the reads of a memory after separate writes. *)
Ltac mem_step :=
  first [ rewrite load_store | rewrite load_store_sep by lia
        | rewrite rd_store_out by lia ].

(** ** The tables *)

Section TableFacts.
Context `{BsdHeaders}.

(** The table of a level, and whether an option outside of it is rejected. *)
Definition level_table (level : Z) : option (list (Z * bsd_const) * bool) :=
  if level =? SOL_SOCKET then Some (so_opt_convert_cases, true)
  else if level =? IPPROTO_IP then Some (ip_opt_convert_cases, false)
  else if level =? IPPROTO_IPV6 then Some (ip6_opt_convert_cases, false)
  else if level =? IPPROTO_TCP then Some (tcp_opt_convert_cases, true)
  else None.

Lemma opt_of_table level :
  match level_table level with
  | Some (t, strict) => forall o,
      linux2freebsd_opt level o = switch o (prod_map id bsd <$> t) (if strict then -1 else o)
  | None => forall o, linux2freebsd_opt level o = -1
  end.
Proof. unfold level_table, linux2freebsd_opt. by split_ifs. Qed.

Lemma level_table_NoDup level t strict :
  level_table level = Some (t, strict) -> NoDup t.*1.
Proof.
  unfold level_table. split_ifs; intros [= <- <-]; apply (bool_decide_unpack _);
    vm_compute; exact I.
Qed.

Lemma table_keys {A} (f : A -> Z) (t : list (Z * A)) : (prod_map id f <$> t).*1 = t.*1.
Proof. rewrite <- list_fmap_compose. by apply list_fmap_ext. Qed.

Lemma switch_table (t : list (Z * bsd_const)) o c d :
  NoDup t.*1 -> (o, c) ∈ t -> switch o (prod_map id bsd <$> t) d = bsd c.
Proof.
  intros Hnd Hin. apply switch_in; [by rewrite table_keys|].
  apply list_elem_of_fmap. by exists (o, c).
Qed.

(** The option tables.  Where the constants of FreeBSD in a level's table
    differ from each other, an option the table names is translated to the constant
    of FreeBSD of the same meaning, distinct options to distinct constants.  An
    option that the table does not name is rejected at the levels [SOL_SOCKET] and
    [IPPROTO_TCP]; at [IPPROTO_IP] and [IPPROTO_IPV6] it is kept, and then it is
    read as a named option exactly when its Linux number is the FreeBSD number of
    that option.  Other levels reject every option. *)
Theorem linux2freebsd_opt_translates level :
  match level_table level with
  | Some (t, strict) =>
      NoDup (bsd <$> t.*2) ->
      (forall o c, (o, c) ∈ t -> linux2freebsd_opt level o = bsd c) /\
      (forall o1 o2, o1 ∈ t.*1 -> o2 ∈ t.*1 ->
         linux2freebsd_opt level o1 = linux2freebsd_opt level o2 -> o1 = o2) /\
      (forall o, o ∉ t.*1 -> linux2freebsd_opt level o = if strict then -1 else o) /\
      (strict = false -> forall o1 c o2, (o1, c) ∈ t -> o2 ∉ t.*1 ->
         linux2freebsd_opt level o2 = linux2freebsd_opt level o1 <-> o2 = bsd c)
  | None => forall o, linux2freebsd_opt level o = -1
  end.
Proof.
  pose proof (opt_of_table level) as Hopt.
  destruct (level_table level) as [[t strict]|] eqn:Ht; [|done].
  apply level_table_NoDup in Ht as Hnd. intros Hval.
  assert (forall o c, (o, c) ∈ t -> linux2freebsd_opt level o = bsd c) as Hin.
  { intros o c Hoc. rewrite Hopt. by apply switch_table. }
  assert (forall o, o ∉ t.*1 -> linux2freebsd_opt level o = if strict then -1 else o) as Hout.
  { intros o Ho. rewrite Hopt. apply switch_default. by rewrite table_keys. }
  split_and!; try done.
  - intros o1 o2 H1 H2 Heq.
    apply list_elem_of_fmap in H1 as ([k1 c1] & -> & H1), H2 as ([k2 c2] & -> & H2).
    cbn [fst] in *. rewrite (Hin _ _ H1), (Hin _ _ H2) in Heq.
    apply list_elem_of_lookup in H1 as [i Hi], H2 as [j Hj].
    assert (i = j) as ->; [|congruence].
    apply (NoDup_lookup _ i j (bsd c1) Hval); rewrite !list_lookup_fmap; [by rewrite Hi|].
    rewrite Hj. simpl. by rewrite Heq.
  - intros -> o1 c o2 H1 H2. by rewrite (Hin _ _ H1), (Hout _ H2).
Qed.

(** The same for the requests of [ioctl]. *)
Lemma linux2freebsd_ioctl_table request c :
  (request, c) ∈ linux2freebsd_ioctl_cases -> linux2freebsd_ioctl request = bsd c.
Proof. apply switch_table. apply (bool_decide_unpack _). vm_compute. exact I. Qed.

Lemma linux2freebsd_ioctl_unknown request :
  request ∉ linux2freebsd_ioctl_cases.*1 -> linux2freebsd_ioctl request = -1.
Proof. intros Hr. apply switch_default. by rewrite table_keys. Qed.
End TableFacts.

(** ** Socket addresses *)
Section SockaddrFacts.
Context `{BsdHeadersDoc}.

(** Two objects of [n] bytes are the same one, or do not overlap. *)
Definition same_or_apart (a b n : Z) : Prop := a = b \/ a + n <= b \/ b + n <= a.

(** The family number of the other system. *)
Definition bsd_family (fam : Z) : Z := if fam =? LINUX_AF_INET6 then AF_INET6 else fam.

Lemma linux2freebsd_sockaddr_spec la len fa m :
  la <> 0 -> fa <> 0 -> 2 <= len < 2 ^ 32 -> same_or_apart la fa len ->
  exists m', linux2freebsd_sockaddr la len fa m = Ok m' /\
    load 1 m' fa = u8 len /\
    load 1 m' (fa + 1) = u8 (bsd_family (i16 (load 2 m la))) /\
    (forall i, 2 <= i < len -> rd m' (fa + i) = rd m (la + i)) /\
    (forall a, ~ (fa <= a < fa + len) -> rd m' a = rd m a).
Proof.
  intros Hla Hfa Hlen Hap. unfold linux2freebsd_sockaddr.
  rewrite (proj2 (Z.eqb_neq la 0) Hla), (proj2 (Z.eqb_neq fa 0) Hfa). cbn [orb].
  unfold linux_sa_family, linux_sa_data, sizeof_linux_sa_family.
  rewrite doc_sa_len, doc_sa_family, doc_sa_data, !Z.add_0_r. fold (bsd_family (i16 (load 2 m la))).
  set (m1 := store 1 (store 1 m (fa + 1) _) fa len).
  assert (forall a, a <> fa -> a <> fa + 1 -> rd m1 a = rd m a) as Hm1.
  { intros a H1 H2. unfold m1. rewrite !rd_store_out by (simpl; lia). done. }
  assert (load 1 m1 fa = u8 len) as L1 by apply load_store.
  assert (load 1 m1 (fa + 1) = u8 (bsd_family (i16 (load 2 m la)))) as L2.
  { unfold m1. rewrite load_store_sep by lia. apply load_store. }
  change (2 ^ 32) with 4294967296 in Hlen.
  destruct (Z.eqb_spec (la + 2) (fa + 2)) as [Heq|Hne]; cbn [negb].
  - assert (la = fa) as -> by lia. exists m1. split_and!; [done..| |].
    + intros i Hi. apply Hm1; lia.
    + intros a Ha. apply Hm1; lia.
  - assert (la <> fa) by lia. destruct Hap as [|Hap]; [done|].
    rewrite u64_id by (unfold in_u64; lia). rewrite memcpy_Ok by (unfold LONG_MAX; lia).
    eexists. split; [done|]. rewrite !load_1 in *. split_and!.
    + rewrite rd_bcopy, decide_False by lia. done.
    + rewrite rd_bcopy, decide_False by lia. done.
    + intros i Hi. rewrite rd_bcopy, decide_True by lia. rewrite Hm1 by lia. f_equal. lia.
    + intros a Ha. rewrite rd_bcopy, decide_False by lia. apply Hm1; lia.
Qed.

Lemma freebsd2linux_sockaddr_spec la fa m len :
  la <> 0 -> fa <> 0 -> load 1 m fa = len -> 2 <= len -> same_or_apart la fa len ->
  exists m', freebsd2linux_sockaddr la fa m = Ok m' /\
    load 2 m' la = (let f := load 1 m (fa + 1) in if f =? AF_INET6 then LINUX_AF_INET6 else f) /\
    (forall i, 2 <= i < len -> rd m' (la + i) = rd m (fa + i)) /\
    (forall a, ~ (la <= a < la + len) -> rd m' a = rd m a).
Proof.
  intros Hla Hfa Hl Hlen Hap. unfold freebsd2linux_sockaddr.
  rewrite (proj2 (Z.eqb_neq la 0) Hla), (proj2 (Z.eqb_neq fa 0) Hfa). cbn [orb].
  unfold linux_sa_family, linux_sa_data, sizeof_linux_sa_family.
  rewrite doc_sa_len, doc_sa_family, doc_sa_data, !Z.add_0_r, Hl.
  pose proof (load_range 1 m fa) as Hr. change (256 ^ Z.of_nat 1) with 256 in Hr.
  set (g := fun f : Z => if f =? AF_INET6 then LINUX_AF_INET6 else f).
  assert (forall m', load 2 (store 2 m' la (g (load 1 m' (fa + 1)))) la = g (load 1 m' (fa + 1)))
    as Hfam.
  { intros m'. rewrite load_store. apply Z.mod_small.
    pose proof (load_range 1 m' (fa + 1)) as Hr'. change (256 ^ Z.of_nat 1) with 256 in Hr'.
    change (256 ^ Z.of_nat 2) with 65536. unfold g, LINUX_AF_INET6. split_ifs; lia. }
  destruct (Z.eqb_spec (la + 2) (fa + 2)) as [Heq|Hne]; cbn [negb mbind outcome_bind].
  - assert (la = fa) as -> by lia. fold (g (load 1 m (fa + 1))). eexists.
    split_and!; [done|apply Hfam|..].
    + intros i Hi. apply rd_store_out. lia.
    + intros a Ha. apply rd_store_out. lia.
  - assert (la <> fa) by lia. destruct Hap as [|Hap]; [done|].
    rewrite u64_id by (unfold in_u64; lia). rewrite memcpy_Ok by (unfold LONG_MAX; lia).
    cbn [mbind outcome_bind]. set (m1 := bcopy _ _ _ m).
    assert (load 1 m1 (fa + 1) = load 1 m (fa + 1)) as Hf.
    { rewrite !load_1. unfold m1. rewrite rd_bcopy, decide_False by lia. done. }
    fold (g (load 1 m1 (fa + 1))). eexists. split_and!; [done|by rewrite Hfam, Hf|..].
    + intros i Hi. rewrite rd_store_out by lia. unfold m1. rewrite rd_bcopy, decide_True by lia.
      f_equal. lia.
    + intros a Ha. rewrite rd_store_out by lia. unfold m1. rewrite rd_bcopy, decide_False by lia.
      done.
Qed.

Lemma bsd_family_back f :
  0 <= f < 256 -> f <> 28 ->
  (if u8 (bsd_family f) =? AF_INET6 then LINUX_AF_INET6 else u8 (bsd_family f)) = f.
Proof.
  intros Hf H28. unfold bsd_family, LINUX_AF_INET6. rewrite doc_AF_INET6.
  destruct (Z.eqb_spec f 10) as [->|].
  - by rewrite u8_id by lia.
  - rewrite u8_id by lia. by rewrite (proj2 (Z.eqb_neq f 28)).
Qed.

Lemma i16_low2 z : 0 <= z < 32768 -> i16 z = z.
Proof.
  intros. unfold swrap. change (2 ^ (16 - 1)) with 32768. change (2 ^ 16) with 65536.
  rewrite Z.mod_small; lia.
Qed.

(** C31. A socket address survives the two conversions.  For a length between 2
    and 255 the FreeBSD form has this length, the family of the same meaning and the
    same data; converting it back, to a buffer of the user or in place, gives the
    bytes the user passed.  Each conversion writes the [addrlen] bytes of its target
    and no other, even when source and target are the same object. *)
Theorem sockaddr_roundtrip la len fa ba m :
  la <> 0 -> fa <> 0 -> ba <> 0 -> 2 <= len < 256 ->
  same_or_apart la fa len -> same_or_apart ba fa len ->
  load 2 m la < 256 -> load 2 m la <> 28 ->
  exists m1 m2,
    linux2freebsd_sockaddr la len fa m = Ok m1 /\
    freebsd2linux_sockaddr ba fa m1 = Ok m2 /\
    load 1 m1 fa = len /\
    load 1 m1 (fa + 1) = bsd_family (load 2 m la) /\
    load 2 m2 ba = load 2 m la /\
    (forall i, 2 <= i < len -> rd m1 (fa + i) = rd m (la + i) /\ rd m2 (ba + i) = rd m (la + i)) /\
    (forall a, ~ (fa <= a < fa + len) -> rd m1 a = rd m a) /\
    (forall a, ~ (ba <= a < ba + len) -> rd m2 a = rd m1 a).
Proof.
  intros Hla Hfa Hba Hlen Hap1 Hap2 Hf H28.
  pose proof (load_range 2 m la) as Hr.
  destruct (linux2freebsd_sockaddr_spec la len fa m) as (m1 & E1 & L1 & F1 & D1 & O1);
    [done..|lia|done|].
  rewrite u8_id in L1 by lia. rewrite i16_low2 in F1 by lia.
  destruct (freebsd2linux_sockaddr_spec ba fa m1 len) as (m2 & E2 & F2 & D2 & O2);
    [done..|lia|done|].
  exists m1, m2. split_and!; try done.
  - rewrite F1. apply u8_id. unfold bsd_family, LINUX_AF_INET6. rewrite doc_AF_INET6.
    split_ifs; lia.
  - rewrite F2. cbv zeta. rewrite F1. apply bsd_family_back; lia.
  - intros i Hi. rewrite D2, D1 by lia. done.
Qed.

Lemma lookup_bcopy_in src dst n m a :
  dst <= a < dst + n -> bcopy src dst n m !! a = Some (rd m (src + (a - dst))).
Proof.
  intros Ha. unfold bcopy.
  assert (a - dst ∈ seqZ 0 n) as Hin by (apply elem_of_seqZ; lia). revert Hin.
  generalize (seqZ 0 n). intros l. induction l as [|i l IH]; [set_solver|].
  intros Hin. cbn [foldr]. rewrite lookup_insert. case_decide as Hd; [do 2 f_equal; lia|].
  apply IH. apply elem_of_cons in Hin as [|]; [lia|done].
Qed.

(** The bounds that [linux2freebsd_sockaddr] leaves to its callers.  Its
    target is a [sockaddr_storage] of 128 bytes, and the length comes from the user
    and is not checked: the conversion faults for a length below 2, and writes
    outside of the storage for a length above 128. *)
Theorem sockaddr_storage_bounds la len fa m :
  la <> 0 -> fa <> 0 -> la <> fa -> 0 <= len < 2 ^ 32 ->
  (linux2freebsd_sockaddr la len fa m = Panic <-> len < 2) /\
  ((exists m0 m', linux2freebsd_sockaddr la len fa m0 = Ok m' /\
      exists a, ~ (fa <= a < fa + 128) /\ m' !! a <> m0 !! a) <-> 128 < len).
Proof.
  change (2 ^ 32) with 4294967296. intros Hla Hfa Hne Hlen.
  assert (forall m0, exists m1, linux2freebsd_sockaddr la len fa m0 =
    (if len <? 2 then Panic else Ok (bcopy (la + 2) (fa + 2) (len - 2) m1)) /\
    (forall a, ~ (fa <= a < fa + 2) -> m1 !! a = m0 !! a)) as Hform.
  { intros m0. unfold linux2freebsd_sockaddr.
    rewrite (proj2 (Z.eqb_neq la 0) Hla), (proj2 (Z.eqb_neq fa 0) Hfa). cbn [orb].
    unfold linux_sa_data, sizeof_linux_sa_family.
    assert (la + 2 =? fa + 2 = false) as Hd by (apply Z.eqb_neq; lia).
    rewrite doc_sa_len, doc_sa_family, doc_sa_data, Hd.
    cbn [negb]. eexists. split; [unfold memcpy; destruct (Z.ltb_spec len 2)|].
    - unfold uwrap, LONG_MAX. change (2 ^ 64) with 18446744073709551616.
      rewrite <- (Z_mod_plus_full _ 1), Z.mod_small by lia.
      destruct (Z.ltb_spec 9223372036854775807 (len - 2 + 1 * 18446744073709551616)); [done|lia].
    - rewrite u64_id by (unfold in_u64; lia). unfold LONG_MAX.
      destruct (Z.ltb_spec 9223372036854775807 (len - 2)); [lia|done].
    - intros a Ha. cbn [store]. rewrite !lookup_insert. repeat case_decide; [lia..|done]. }
  split.
  - destruct (Hform m) as (m1 & -> & _). destruct (Z.ltb_spec len 2); split; (done || lia).
  - split.
    + intros (m0 & m' & HE & a & Ha & Hd). destruct (Hform m0) as (m1 & HE' & Hm1).
      rewrite HE' in HE. destruct (Z.ltb_spec len 2); [done|]. injection HE as <-.
      destruct (decide (128 < len)); [done|]. destruct Hd. rewrite <- Hm1 by lia.
      unfold bcopy. assert (forall i, i ∈ seqZ 0 (len - 2) -> a <> fa + 2 + i) as Hs.
      { intros i Hi%elem_of_seqZ. lia. }
      revert Hs. generalize (seqZ 0 (len - 2)). intros l.
      generalize (rd m1). intros g.
      induction l as [|i l IH]; intros Hs; [done|]. cbn [foldr].
      rewrite lookup_insert_ne by (symmetry; apply Hs; set_solver). apply IH. set_solver.
    + intros Hbig. destruct (Hform ∅) as (m1 & HE & Hm1).
      destruct (Z.ltb_spec len 2); [lia|]. exists ∅. eexists. split; [done|].
      exists (fa + 128). split; [lia|]. rewrite lookup_bcopy_in by lia. by rewrite lookup_empty.
Qed.
End SockaddrFacts.

(** ** Ancillary data *)
Section CmsgFacts.
Context `{BsdHeadersDoc}.

(** The kinds of ancillary data the two directions treat apart. *)
Definition recv_kind (level type : Z) : option bool :=
  if negb (i32 level =? IPPROTO_IP) then None
  else if i32 type =? bsd IP_RECVTOS then Some false
  else if i32 type =? bsd IP_RECVTTL then Some true
  else None.

Lemma ALIGN_16 : ALIGN 16 = 16.
Proof. by rewrite doc_ALIGN by lia. Qed.

Lemma linux_cmsg_len_u64 n : 16 <= n < 2 ^ 32 -> LINUX_CMSG_LEN (u64 (n - ALIGN sizeof_cmsghdr)) = n.
Proof.
  change (2 ^ 32) with 4294967296. intros Hn. unfold LINUX_CMSG_LEN, sizeof_linux_cmsghdr.
  rewrite doc_sizeof_cmsghdr, ALIGN_16, doc_ALIGN by lia. change (8 * ((12 + 7) / 8)) with 16.
  rewrite (u64_id (n - 16)) by (unfold in_u64; lia). rewrite u64_id by (unfold in_u64; lia). lia.
Qed.

Lemma load_4_mod_8 n m a : load n m a mod 256 ^ Z.of_nat n = load n m a.
Proof. apply Z.mod_small, load_range. Qed.

(** The three assignments of the header, both headers at [c]: the Linux header of
    the same message. *)
Lemma cmsg_header_in_place c m :
  16 <= load 4 m c ->
  let m1 := store 4 m (c + 12) (load 4 m (c + 8)) in
  let m2 := store 4 m1 (c + 8) (load 4 m1 (c + 4)) in
  let m3 := store 8 m2 c (LINUX_CMSG_LEN (u64 (load 4 m2 c - ALIGN sizeof_cmsghdr))) in
  load 8 m3 c = load 4 m c /\ load 4 m3 (c + 8) = load 4 m (c + 4) /\
  load 4 m3 (c + 12) = load 4 m (c + 8) /\
  (forall a, ~ (c <= a < c + 16) -> rd m3 a = rd m a).
Proof.
  intros H16 m1 m2 m3. pose proof (load_range 4 m c) as Rlen.
  change (256 ^ Z.of_nat 4) with 4294967296 in Rlen.
  assert (load 4 m1 (c + 4) = load 4 m (c + 4) /\ load 4 m2 c = load 4 m c) as [E1 E2].
  { unfold m2, m1. rewrite !load_store_sep by lia. done. }
  split_and!.
  - unfold m3. rewrite load_store, E2, linux_cmsg_len_u64 by lia.
    apply Z.mod_small. change (256 ^ Z.of_nat 8) with 18446744073709551616. lia.
  - unfold m3, m2. rewrite load_store_sep, load_store, E1 by lia. apply load_4_mod_8.
  - unfold m3, m2, m1. rewrite !load_store_sep, load_store by lia. apply load_4_mod_8.
  - intros a Ha. unfold m3, m2, m1. rewrite !rd_store_out by lia. done.
Qed.

(** Ancillary data received in place.  [recvmsg] gives the stack the user's
    own buffer, so that the two headers of a message share their 16 bytes and the
    order of the assignments matters.  Starting from a FreeBSD header (length,
    level, type at the bytes 0, 4, 8), the conversion leaves the Linux header
    (length, level, type at the bytes 0, 8, 12) of the same message: the level and
    the payload of a message that is not about IP are kept, [IP_RECVTOS] becomes
    [IP_TOS], and [IP_RECVTTL] becomes [IP_TTL] with its byte widened to an [int] and
    the length that goes with it.  Nothing outside of the message's header and, for
    a TTL, the four bytes of its value is written, and the four low bytes of the
    length are those the walk over the FreeBSD headers goes on with. *)
Theorem cmsg_recv_in_place c m len level type :
  load 4 m (c + cmsg_len) = len -> load 4 m (c + cmsg_level) = level ->
  load 4 m (c + cmsg_type) = type -> 16 <= len -> bsd IP_RECVTOS <> bsd IP_RECVTTL ->
  exists m', freebsd2linux_cmsg_step c c m = Ok m' /\
    load 4 m' (c + linux_cmsg_level) = level /\
    load 8 m' (c + linux_cmsg_len) = (if decide (recv_kind level type = Some true) then 20 else len) /\
    load 4 m' (c + linux_cmsg_type) =
      match recv_kind level type with
      | Some false => LINUX_IP_TOS
      | Some true => LINUX_IP_TTL
      | None => type
      end /\
    load 4 m' (c + cmsg_len) = load 8 m' (c + linux_cmsg_len) /\
    (recv_kind level type = Some true -> load 4 m' (LINUX_CMSG_DATA c) = load 1 m (CMSG_DATA c)) /\
    (forall a, ~ (c <= a < c + (if decide (recv_kind level type = Some true) then 20 else 16)) ->
       load 1 m' a = load 1 m a).
Proof.
  intros Hlen Hlev Hty H16 Hne.
  pose proof (load_range 4 m (c + cmsg_len)) as Rlen. rewrite Hlen in Rlen.
  change (256 ^ Z.of_nat 4) with 4294967296 in Rlen.
  unfold freebsd2linux_cmsg_step, LINUX_CMSG_DATA, sizeof_linux_cmsghdr, linux_cmsg_level,
    linux_cmsg_len, linux_cmsg_type.
  rewrite ALIGN_16, doc_CMSG_DATA. rewrite doc_cmsg_len, doc_cmsg_level, doc_cmsg_type in *.
  rewrite Z.add_0_r in *.
  rewrite <- Hlen in H16. pose proof (cmsg_header_in_place c m H16) as Hdr. cbv zeta in Hdr.
  set (m3 := store 8 _ c _) in *. clearbody m3. destruct Hdr as (L3 & V3 & T3 & O3).
  rewrite Hlen, Hlev, Hty in *.
  assert (forall m' n, load 8 m' c = n -> n < 4294967296 -> load 4 m' c = load 8 m' c) as L48.
  { intros m' n Hn Hb. apply load_4_of_8. change (2 ^ 32) with 4294967296. lia. }
  assert (exists m', memcpy (c + 16) (c + 16) (u64 (load 8 m3 c - 16)) m3 = Ok m' /\
    forall a, rd m' a = rd m3 a) as (mc & Ec & Oc).
  { rewrite L3, u64_id by (unfold in_u64; lia). rewrite memcpy_Ok by (unfold LONG_MAX; lia).
    eexists. split; [done|]. intros a. rewrite rd_bcopy by lia. case_decide; [f_equal; lia|done]. }
  rewrite V3, T3. unfold recv_kind.
  assert (forall n a, load n mc a = load n m3 a) as Lc.
  { intros n a. apply load_ext. intros b _. apply Oc. }
  destruct (Z.eqb_spec (i32 level) IPPROTO_IP); cbn [negb];
    [destruct (Z.eqb_spec (i32 type) (bsd IP_RECVTOS));
       [|destruct (Z.eqb_spec (i32 type) (bsd IP_RECVTTL))]|].
  - rewrite !decide_False by done.
    assert (load 1 m3 (c + 16) = load 1 m (c + 16)) as Hv by (rewrite !load_1, O3 by lia; done).
    eexists. split; [done|]. rewrite !load_store_sep by lia. rewrite V3, L3.
    split_and!; try done.
    + by rewrite load_store.
    + rewrite !load_store_sep, (L48 m3 len) by (done || lia). done.
    + intros a Ha. destruct (decide (a = c + 16)) as [->|].
      * rewrite load_store, load_store_sep, Hv by lia. rewrite <- Hv. apply (load_4_mod_8 1).
      * rewrite !load_1, !rd_store_out, O3 by (simpl; lia). done.
  - rewrite !decide_True by done.
    assert (LINUX_CMSG_LEN 4 = 20) as E20.
    { unfold LINUX_CMSG_LEN, sizeof_linux_cmsghdr. by rewrite ALIGN_16. }
    set (m4 := store 8 m3 c _). set (m5 := store 4 m4 (c + 12) _).
    assert (load 8 m5 c = 20) as L5.
    { unfold m5, m4. rewrite load_store_sep, load_store, E20 by lia. done. }
    eexists. split; [done|]. rewrite !load_store_sep by lia.
    assert (load 4 m5 (c + 8) = level) as ->
      by (unfold m5, m4; rewrite !load_store_sep by lia; done).
    split_and!; try done.
    + unfold m5. by rewrite load_store.
    + rewrite ?load_store_sep, (L48 m5 20) by (done || lia). done.
    + intros _. rewrite load_store. unfold m5, m4. rewrite !load_store_sep by lia.
      rewrite (load_1 m3), O3, <- load_1 by lia. pose proof (load_range 1 m (c + 16)) as Hr.
      change (256 ^ Z.of_nat 1) with 256 in Hr. apply Z.mod_small.
      change (256 ^ Z.of_nat 4) with 4294967296. lia.
    + intros a Ha. unfold m5, m4. rewrite !load_1, !rd_store_out, O3 by (simpl; lia). done.
  - rewrite !decide_False by done. exists mc. rewrite !Lc. split_and!; try done.
    + rewrite (L48 m3 len) by (done || lia). done.
    + intros a Ha. rewrite Lc, !load_1, O3 by lia. done.
  - rewrite !decide_False by done. exists mc. rewrite !Lc. split_and!; try done.
    + rewrite (L48 m3 len) by (done || lia). done.
    + intros a Ha. rewrite Lc, !load_1, O3 by lia. done.
Qed.

(** Writing the FreeBSD header [fc] and its value changes nothing of the Linux
    message at [lc]. *)
Lemma cmsg_header_apart lc fc m (t l n : Z) :
  lc + 20 <= fc \/ fc + 20 <= lc ->
  let m3 := store 4 (store 4 (store 4 m (fc + 8) t) (fc + 4) l) fc n in
  load 8 m3 lc = load 8 m lc /\ load 4 m3 (lc + 8) = load 4 m (lc + 8) /\
  load 4 m3 (lc + 12) = load 4 m (lc + 12) /\
  load 4 m3 (lc + 16) = load 4 m (lc + 16) /\ load 1 m3 (lc + 16) = load 1 m (lc + 16) /\
  load 4 m3 (fc + 8) = u32 t /\ load 4 m3 (fc + 4) = u32 l /\ load 4 m3 fc = u32 n /\
  (forall a, ~ (fc <= a < fc + 12) -> rd m3 a = rd m a).
Proof.
  intros Hap m3. unfold m3.
  split_and!; [rewrite !load_store_sep by lia; done..| | | |].
  - rewrite !load_store_sep, load_store by lia. done.
  - rewrite !load_store_sep, load_store by lia. done.
  - apply load_store.
  - intros a Ha. rewrite !rd_store_out by lia. done.
Qed.

Lemma load_1_of_4 m a : load 4 m a mod 256 = load 1 m a.
Proof.
  rewrite load_1. change (load 4 m a) with (u8 (rd m a) + 256 * load 3 m (a + 1)).
  rewrite (Z.mul_comm 256), Z_mod_plus_full. apply Z.mod_small, u8_range.
Qed.

(** A message of one byte, the low byte of the four (or the byte) at [lc + 16]. *)
Lemma cmsg_short_value lc fc m3 bt k :
  lc + 20 <= fc \/ fc + 20 <= lc -> k = 4%nat \/ k = 1%nat ->
  let m4 := store 4 (store 4 m3 (fc + 8) bt) fc (u64 (16 + 1)) in
  let m' := store 1 m4 (fc + 16) (load k m4 (lc + 16)) in
  (load 4 m4 (fc + 4) = load 4 m3 (fc + 4) /\ load 4 m4 (fc + 8) = u32 bt /\ load 4 m4 fc = 17 /\
   forall a, ~ (fc <= a < fc + 12) -> rd m4 a = rd m3 a) /\
  (load 4 m' (fc + 4) = load 4 m3 (fc + 4) /\ load 4 m' (fc + 8) = u32 bt /\ load 4 m' fc = 17 /\
   load 1 m' (fc + 16) = load 1 m3 (lc + 16) /\
   forall a, ~ (fc <= a < fc + 17) -> rd m' a = rd m3 a).
Proof.
  intros Hap Hk m4 m'.
  assert (load 4 m4 (fc + 4) = load 4 m3 (fc + 4) /\ load 4 m4 (fc + 8) = u32 bt /\
    load 4 m4 fc = 17 /\ forall a, ~ (fc <= a < fc + 12) -> rd m4 a = rd m3 a) as Hm4.
  { unfold m4. split_and!.
    - rewrite !load_store_sep by lia. done.
    - rewrite load_store_sep, load_store by lia. done.
    - by rewrite load_store.
    - intros a Ha. rewrite !rd_store_out by lia. done. }
  split; [done|]. destruct Hm4 as (E1 & E2 & E3 & Hout). unfold m'. clearbody m4.
  rewrite !(load_store_sep 4 1) by lia. split_and!; try done.
  - rewrite load_store.
    assert (load 1 m4 (lc + 16) = load 1 m3 (lc + 16)) as <-.
    { apply load_ext. intros b Hb. apply Hout. lia. }
    destruct Hk as [-> | ->]; [apply load_1_of_4|apply (load_4_mod_8 1)].
  - intros a Ha. rewrite rd_store_out by lia. apply Hout. lia.
Qed.

Lemma u32_i32 z : in_u32 z -> u32 (i32 z) = z.
Proof.
  intros Hz. unfold uwrap. change (2 ^ 32) with 4294967296. rewrite i32_mod.
  by apply Z.mod_small.
Qed.

(** The payload of [len - 16] bytes, copied with the C arithmetic of [size_t]. *)
Lemma cmsg_payload lc fc m3 len :
  0 <= len < 2147483648 -> lc + Z.max 20 len <= fc \/ fc + Z.max 20 len <= lc ->
  if len <? 16 then memcpy (fc + 16) (lc + 16) (u64 (len - 16)) m3 = Panic
  else exists m', memcpy (fc + 16) (lc + 16) (u64 (len - 16)) m3 = Ok m' /\
    load 4 m' (fc + 4) = load 4 m3 (fc + 4) /\ load 4 m' (fc + 8) = load 4 m3 (fc + 8) /\
    load 4 m' fc = load 4 m3 fc /\
    (forall i, 0 <= i < len - 16 -> rd m' (fc + 16 + i) = rd m3 (lc + 16 + i)) /\
    (forall a, ~ (fc <= a < fc + len) -> rd m' a = rd m3 a).
Proof.
  intros Hlen Hap. destruct (Z.ltb_spec len 16).
  - unfold memcpy, uwrap, LONG_MAX. change (2 ^ 64) with 18446744073709551616.
    rewrite <- (Z_mod_plus_full _ 1), Z.mod_small by lia.
    by rewrite (proj2 (Z.ltb_lt _ _)) by lia.
  - rewrite u64_id by (unfold in_u64; lia). rewrite memcpy_Ok by (unfold LONG_MAX; lia).
    assert (forall a, ~ (fc + 16 <= a < fc + len) ->
      rd (bcopy (lc + 16) (fc + 16) (len - 16) m3) a = rd m3 a) as Hout.
    { intros a Ha. rewrite rd_bcopy, decide_False by lia. done. }
    eexists. split; [done|].
    split_and!; try (apply load_ext; intros b Hb; apply Hout; lia).
    + intros i Hi. rewrite rd_bcopy, decide_True by lia. f_equal. lia.
    + intros a Ha. apply Hout. lia.
Qed.

(** Ancillary data sent.  From a Linux header and its payload in the user's
    buffer the conversion makes, in a separate buffer, the FreeBSD header of the same
    level: [IP_TOS], given as an [int] or as a byte, and [IP_TTL], given as an [int],
    become a message of one byte with its low byte as the value; any other message
    keeps its type and its payload, and its length is adjusted to the FreeBSD
    header.  A length below 16 of such other messages faults. *)
Theorem cmsg_send lc fc m len level type :
  load 8 m (lc + linux_cmsg_len) = len -> load 4 m (lc + linux_cmsg_level) = level ->
  load 4 m (lc + linux_cmsg_type) = type -> len < 2 ^ 31 ->
  lc + Z.max 20 len <= fc \/ fc + Z.max 20 len <= lc ->
  let tos := (i32 level =? 0) && (i32 type =? LINUX_IP_TOS) in
  let ttl := (i32 level =? 0) && (i32 type =? LINUX_IP_TTL) in
  if negb (tos || ttl) && (len <? 16) then linux2freebsd_cmsg_step lc fc m = Panic
  else exists m', linux2freebsd_cmsg_step lc fc m = Ok m' /\
    load 4 m' (fc + cmsg_level) = level /\
    load 4 m' (fc + cmsg_type) =
      u32 (if tos then bsd IP_TOS else if ttl then bsd IP_TTL else i32 type) /\
    load 4 m' (fc + cmsg_len) = (if tos || ttl then 17 else len) /\
    (ttl = true \/ tos = true /\ (len = 17 \/ len = 20) ->
       load 1 m' (CMSG_DATA fc) = load 1 m (LINUX_CMSG_DATA lc)) /\
    (tos = false -> ttl = false -> forall i, 0 <= i < len - 16 ->
       rd m' (CMSG_DATA fc + i) = rd m (LINUX_CMSG_DATA lc + i)) /\
    (forall a, ~ (fc <= a < fc + Z.max 17 len) -> rd m' a = rd m a).
Proof.
  intros Hlen Hlev Hty Hmax Hap tos ttl.
  pose proof (load_range 8 m (lc + linux_cmsg_len)) as Rlen. rewrite Hlen in Rlen.
  pose proof (load_range 4 m (lc + linux_cmsg_level)) as Rlev. rewrite Hlev in Rlev.
  pose proof (load_range 4 m (lc + linux_cmsg_type)) as Rty. rewrite Hty in Rty.
  change (256 ^ Z.of_nat 8) with 18446744073709551616 in Rlen.
  change (256 ^ Z.of_nat 4) with 4294967296 in *. change (2 ^ 31) with 2147483648 in Hmax.
  unfold linux2freebsd_cmsg_step, LINUX_CMSG_DATA, LINUX_CMSG_LEN, sizeof_linux_cmsghdr,
    linux_cmsg_level, linux_cmsg_len, linux_cmsg_type in *.
  rewrite ALIGN_16, doc_CMSG_DATA, doc_cmsg_len, doc_cmsg_level, doc_cmsg_type, doc_IPPROTO_IP.
  rewrite !doc_CMSG_LEN, !Z.add_0_r in *.
  rewrite Hty, (load_store_sep 4 4 m (lc + 8)), Hlev by lia.
  rewrite !(load_store_sep 8 4), Hlen by lia.
  set (n := u64 (16 + u64 (len - 16))).
  destruct (cmsg_header_apart lc fc m type level n) as (L & V & T & D4 & D1 & FT & FV & FL & O);
    [lia|].
  cbv zeta beta. set (m3 := store 4 _ fc n) in *. clearbody m3. rewrite V, T, Hlev, Hty.
  rewrite (u32_id type) in FT by (unfold in_u32; lia).
  rewrite (u32_id level) in FV by (unfold in_u32; lia).
  assert (forall m' z, (forall a, ~ (fc <= a < fc + z) -> rd m' a = rd m3 a) -> 12 <= z ->
    forall a, ~ (fc <= a < fc + Z.max z len) -> rd m' a = rd m a) as Hout.
  { intros m' z Hm' Hz a Ha. rewrite Hm', O by lia. done. }
  pose proof (cmsg_payload lc fc m3 len ltac:(lia) Hap) as Hpay.
  assert (if len <? 16 then memcpy (fc + 16) (lc + 16) (u64 (len - 16)) m3 = Panic else
    exists m', memcpy (fc + 16) (lc + 16) (u64 (len - 16)) m3 = Ok m' /\
      load 4 m' (fc + 4) = level /\ load 4 m' (fc + 8) = u32 (i32 type) /\ load 4 m' fc = len /\
      (forall i, 0 <= i < len - 16 -> rd m' (fc + 16 + i) = rd m (lc + 16 + i)) /\
      (forall a, ~ (fc <= a < fc + Z.max 17 len) -> rd m' a = rd m a)) as Hother.
  { destruct (Z.ltb_spec len 16); [done|]. destruct Hpay as (m' & -> & EV & ET & EL & ED & EO).
    exists m'. rewrite EV, ET, EL, u32_i32, FV, FT, FL by (unfold in_u32; lia). split_and!; try done.
    - unfold n. rewrite (u64_id (len - 16)), u64_id by (unfold in_u64; lia).
      rewrite u32_id by (unfold in_u32; lia). lia.
    - intros i Hi. rewrite ED, O by lia. done.
    - intros a Ha. rewrite EO, O by lia. done. }
  destruct (Z.eqb_spec (i32 level) 0); cbn [andb] in tos, ttl; subst tos ttl;
    [destruct (Z.eqb_spec (i32 type) LINUX_IP_TOS) as [E|];
       [|destruct (Z.eqb_spec (i32 type) LINUX_IP_TTL)]|]; cbn [orb andb negb].
  - assert (i32 type =? LINUX_IP_TTL = false) as -> by (by rewrite E).
    destruct (cmsg_short_value lc fc m3 (bsd IP_TOS) 4) as [(V0 & T0 & L0 & O0) (V1 & T1 & L1 & D1' & O1)];
      [lia|by left|].
    destruct (cmsg_short_value lc fc m3 (bsd IP_TOS) 1) as [_ (V2 & T2 & L2 & D2' & O2)];
      [lia|by right|].
    change (u64 (16 + 4)) with 20. change (u64 (16 + 1)) with 17 in *.
    destruct (Z.eqb_spec len 20) as [->|]; [|destruct (Z.eqb_spec len 17) as [->|]];
      eexists; (split; [reflexivity|]);
      rewrite ?V0, ?V1, ?V2, ?T0, ?T1, ?T2, ?L0, ?L1, ?L2, ?D1', ?D2';
      split_and!; try done; try (intros [?|[_ [?|?]]]; first [done|lia]).
    + intros a Ha. apply (Hout _ 17); [done|lia|lia].
    + intros a Ha. apply (Hout _ 17); [done|lia|lia].
    + intros a Ha. apply (Hout _ 12); [done|lia|lia].
  - destruct (cmsg_short_value lc fc m3 (bsd IP_TTL) 4) as [_ (V1 & T1 & L1 & D1' & O1)];
      [lia|by left|].
    eexists. split; [reflexivity|]. rewrite V1, T1, L1, D1'. split_and!; try done.
    intros a Ha. apply (Hout _ 17); [done|lia|lia].
  - destruct (len <? 16); [done|]. destruct Hother as (m' & -> & EV & ET & EL & ED & EO).
    exists m'. rewrite EV, ET, EL. split_and!; try done. intros [|[? _]]; done.
  - destruct (len <? 16); [done|]. destruct Hother as (m' & -> & EV & ET & EL & ED & EO).
    exists m'. rewrite EV, ET, EL. split_and!; try done. intros [|[? _]]; done.
Qed.
End CmsgFacts.

(** ** A concrete instance of the headers *)
Definition bsd_consts : list bsd_const :=
  so_opt_convert_cases.*2 ++ ip_opt_convert_cases.*2 ++ ip6_opt_convert_cases.*2 ++
  tcp_opt_convert_cases.*2 ++ linux2freebsd_ioctl_cases.*2.

(** The constants are numbered by their places in the tables. *)
#[export] Instance example_headers : BsdHeaders := {
  bsd c := match list_find (eq c) bsd_consts with Some (i, _) => Z.of_nat i | None => 0 end;
  SOL_SOCKET := 65535; IPPROTO_IP := 0; IPPROTO_IPV6 := 41; IPPROTO_TCP := 6;
  AF_INET6 := 28;
  sa_len := 0; sa_family := 1; sa_data := 2;
  ALIGN n := 8 * ((n + 7) / 8);
  sizeof_cmsghdr := 12; cmsg_len := 0; cmsg_level := 4; cmsg_type := 8;
  CMSG_DATA c := c + 16;
  CMSG_LEN l := u64 (16 + l);
  CMSG_FIRSTHDR msg := if 12 <=? msg_controllen msg then msg_control msg else 0;
  CMSG_NXTHDR m msg c :=
    let next := c + 8 * ((load 4 m c + 7) / 8) in
    if msg_control msg + msg_controllen msg <? next + 16 then 0 else next }.

#[export] Instance example_headers_doc : BsdHeadersDoc.
Proof. by split. Qed.

Lemma linux2freebsd_opt_translates_witness :
  linux2freebsd_opt 6 LINUX_TCP_MD5SIG = bsd TCP_MD5SIG.
Proof.
  refine (proj1 (linux2freebsd_opt_translates 6 _) LINUX_TCP_MD5SIG TCP_MD5SIG _);
    apply (bool_decide_unpack _); vm_compute; exact I.
Defined.

(** The memory that holds the bytes [l] at [a]. *)
Definition bytes_at (a : Z) (l : list Z) : memory := list_to_map (imap (fun i b => (a + Z.of_nat i, b)) l).

(** An IPv6 address at 100: family 10, port 80, 24 more bytes. *)
Definition example_sockaddr : memory :=
  bytes_at 100 ([10; 0; 0; 80] ++ replicate 24 7).

Lemma sockaddr_roundtrip_witness :
  exists m1 m2, linux2freebsd_sockaddr 100 28 200 example_sockaddr = Ok m1 /\
    freebsd2linux_sockaddr 200 200 m1 = Ok m2 /\ load 2 m2 200 = 10 /\ load 1 m1 201 = 28.
Proof.
  destruct (sockaddr_roundtrip 100 28 200 200 example_sockaddr)
    as (m1 & m2 & E1 & E2 & _ & F1 & F2 & _); try lia.
  - right. lia.
  - by left.
  - by vm_compute.
  - by vm_compute.
  - exists m1, m2. split_and!; [exact E1|exact E2|rewrite F2; by vm_compute|].
    change 201 with (200 + 1). rewrite F1. by vm_compute.
Defined.

Lemma sockaddr_storage_bounds_witness :
  linux2freebsd_sockaddr 100 1 200 example_sockaddr = Panic.
Proof.
  apply (sockaddr_storage_bounds 100 1 200 example_sockaddr); lia.
Defined.

(** A received TTL of 64 at 1000, in a FreeBSD header of 17 bytes. *)
Definition example_recv_ttl : memory :=
  store 1 (store 4 (store 4 (store 4 ∅ 1000 17) 1004 0) 1008 (bsd IP_RECVTTL)) 1016 64.

Lemma cmsg_recv_in_place_witness :
  exists m', freebsd2linux_cmsg_step 1000 1000 example_recv_ttl = Ok m' /\
    load 8 m' 1000 = 20 /\ load 4 m' 1012 = LINUX_IP_TTL /\ load 4 m' 1016 = 64.
Proof.
  assert (load 4 example_recv_ttl (1000 + cmsg_len) = 17) as H1 by by vm_compute.
  assert (load 4 example_recv_ttl (1000 + cmsg_level) = 0) as H2 by by vm_compute.
  assert (load 4 example_recv_ttl (1000 + cmsg_type) = bsd IP_RECVTTL) as H3 by by vm_compute.
  destruct (cmsg_recv_in_place 1000 example_recv_ttl 17 0 (bsd IP_RECVTTL) H1 H2 H3)
    as (m' & E & _ & L & T & _ & V & _); [done|by vm_compute|].
  exists m'. split_and!; [exact E|exact L|exact T|]. etransitivity; [apply V|]; by vm_compute.
Defined.

(** A TTL of 64 to send, in a Linux header of 20 bytes. *)
Definition example_send_ttl : memory :=
  store 4 (store 4 (store 4 (store 8 ∅ 1000 20) 1008 0) 1012 LINUX_IP_TTL) 1016 64.

Lemma cmsg_send_witness :
  exists m', linux2freebsd_cmsg_step 1000 2000 example_send_ttl = Ok m' /\
    load 4 m' 2000 = 17 /\ load 1 m' 2016 = 64.
Proof.
  assert (load 8 example_send_ttl (1000 + linux_cmsg_len) = 20) as H1 by by vm_compute.
  assert (load 4 example_send_ttl (1000 + linux_cmsg_level) = 0) as H2 by by vm_compute.
  assert (load 4 example_send_ttl (1000 + linux_cmsg_type) = LINUX_IP_TTL) as H3 by by vm_compute.
  destruct (cmsg_send 1000 2000 example_send_ttl 20 0 LINUX_IP_TTL H1 H2 H3)
    as (m' & E & _ & _ & L & V & _); [done|lia|].
  exists m'. split_and!; [exact E|exact L|]. etransitivity; [apply V; by left|]. by vm_compute.
Defined.
