(* ===== verification/Elf.v ===== *)
(** * Elf: relocation of kernel modules, [bsd/lib/lazybsd_compat.c]

    The linker of the kernel calls [elf_reloc] for every entry of the relocation tables of a
    module; an entry says where in the module a value is to be stored and how it follows from
    the address of a symbol, an addend and the addresses of the place and of the module.

    The number of the kinds and the parts of [r_info] are those of the headers of FreeBSD, which
    follow the System V ABI. *)
From S2P Require Import Prelude KernSubr SockConv.

Class ElfHeaders := {
  ELF_RELOC_REL : Z; ELF_RELOC_RELA : Z;
  R_X86_64_NONE : Z; R_X86_64_64 : Z; R_X86_64_PC32 : Z; R_X86_64_COPY : Z; R_X86_64_GLOB_DAT : Z;
  R_X86_64_JMP_SLOT : Z; R_X86_64_RELATIVE : Z; R_X86_64_32S : Z;
  ELF_R_TYPE : Z -> Z; ELF_R_SYM : Z -> Z }.

(** [Elf64_Rel] and [Elf64_Rela]. *)
Definition r_offset : Z := 0.
Definition r_info : Z := 8.
Definition r_addend : Z := 16.

Section Elf.
(** [lookup]: the error and the address of a symbol. *)
Context `{ElfHeaders} (lookup : Z -> Z * Z).

(** [if ( *where != val) *where = val;] for [n] bytes. *)
Definition set_if_changed (n : nat) (where_ val : Z) (m : memory) : memory :=
  if load n m where_ =? val then m else store n m where_ val.

(** The place, the addend, the kind and the symbol of the entry at [data]. *)
Definition read_entry (relocbase data type : Z) (m : memory) : outcome (Z * Z * Z * Z) :=
  if type =? ELF_RELOC_REL then
    let where_ := u64 (relocbase + load 8 m (data + r_offset)) in
    let rtype := ELF_R_TYPE (load 8 m (data + r_info)) in
    let symidx := ELF_R_SYM (load 8 m (data + r_info)) in
    let addend := if (rtype =? R_X86_64_PC32) || (rtype =? R_X86_64_32S) then load 4 m where_ else load 8 m where_ in
    Ok (where_, addend, rtype, symidx)
  else if type =? ELF_RELOC_RELA then
    let where_ := u64 (relocbase + load 8 m (data + r_offset)) in
    let addend := load 8 m (data + r_addend) in
    let rtype := ELF_R_TYPE (load 8 m (data + r_info)) in
    let symidx := ELF_R_SYM (load 8 m (data + r_info)) in
    Ok (where_, addend, rtype, symidx)
  else Panic.

(** [local] is not used; the messages on the console are left out. *)
Definition elf_reloc_internal (relocbase data type local : Z) (m : memory) : outcome (Z * memory) :=
  '(where_, addend, rtype, symidx) ← read_entry relocbase data type m;
  if rtype =? R_X86_64_NONE then Ok (0, m)
  else if rtype =? R_X86_64_64 then
    let '(error, addr) := lookup symidx in
    let val := u64 (addr + addend) in
    if negb (error =? 0) then Ok (-1, m) else Ok (0, set_if_changed 8 where_ val m)
  else if rtype =? R_X86_64_PC32 then
    let '(error, addr) := lookup symidx in
    let val32 := u32 (u64 (u64 (addr + addend) - where_)) in
    if negb (error =? 0) then Ok (-1, m) else Ok (0, set_if_changed 4 where_ val32 m)
  else if rtype =? R_X86_64_32S then
    let '(error, addr) := lookup symidx in
    let val32 := u32 (u64 (addr + addend)) in
    if negb (error =? 0) then Ok (-1, m) else Ok (0, set_if_changed 4 where_ val32 m)
  else if rtype =? R_X86_64_COPY then Ok (-1, m)
  else if (rtype =? R_X86_64_GLOB_DAT) || (rtype =? R_X86_64_JMP_SLOT) then
    let '(error, addr) := lookup symidx in
    if negb (error =? 0) then Ok (-1, m) else Ok (0, set_if_changed 8 where_ addr m)
  else if rtype =? R_X86_64_RELATIVE then
    let addr := u64 (relocbase + addend) in
    Ok (0, set_if_changed 8 where_ addr m)
  else Ok (-1, m).

Definition elf_reloc (relocbase data type : Z) (m : memory) : outcome (Z * memory) := elf_reloc_internal relocbase data type 0 m.
Definition elf_reloc_local (relocbase data type : Z) (m : memory) : outcome (Z * memory) := elf_reloc_internal relocbase data type 1 m.

(** ** The ABI *)

(** The table of the ABI: the size of the field, whether a symbol is needed, and the value from
    the symbol [S], the addend [A], the place [P] and the base [B]. *)
Definition abi : list (Z * (nat * bool * (Z -> Z -> Z -> Z -> Z))) :=
  [(R_X86_64_64, (8%nat, true, fun S A P B => S + A));
   (R_X86_64_PC32, (4%nat, true, fun S A P B => S + A - P));
   (R_X86_64_32S, (4%nat, true, fun S A P B => S + A));
   (R_X86_64_GLOB_DAT, (8%nat, true, fun S A P B => S));
   (R_X86_64_JMP_SLOT, (8%nat, true, fun S A P B => S));
   (R_X86_64_RELATIVE, (8%nat, false, fun S A P B => B + A))].

(** Every kind has a number of its own. *)
Context (doc_distinct : NoDup (R_X86_64_NONE :: R_X86_64_COPY :: (fst <$> abi))).
(** Symbols have addresses. *)
Context (doc_lookup : forall s, in_u64 (lookup s).2).

Lemma set_load n w v m : 0 <= v < 256 ^ Z.of_nat n -> load n (set_if_changed n w v m) w = v.
Proof.
  intros Hv. unfold set_if_changed. destruct (Z.eqb_spec (load n m w) v) as [->|]; [done|]. rewrite load_store. by apply Z.mod_small.
Qed.

Lemma set_out n w v m b : ~ (w <= b < w + Z.of_nat n) -> rd (set_if_changed n w v m) b = rd m b.
Proof. intros Hb. unfold set_if_changed. destruct (_ =? _); [done|]. by apply rd_store_out. Qed.

(** What an entry does: the result, and the memory as it was but for the field. *)
Definition sets (n : nat) (w v : Z) (m m' : memory) : Prop :=
  load n m' w = v mod 256 ^ Z.of_nat n /\ forall b, ~ (w <= b < w + Z.of_nat n) -> rd m' b = rd m b.

Lemma set_sets n w v v' m : v = v' mod 256 ^ Z.of_nat n -> sets n w v' m (set_if_changed n w v m).
Proof.
  intros ->. split; [|intros b; apply set_out]. apply set_load. apply Z.mod_pos_bound. lia.
Qed.

Lemma u64_u64 a b : u64 (u64 a - b) = u64 (a - b).
Proof. unfold uwrap. by rewrite Zminus_mod_idemp_l. Qed.
Lemma u32_u64 a : u32 (u64 a) = a mod 256 ^ Z.of_nat 4.
Proof. unfold uwrap. change (256 ^ Z.of_nat 4) with (2 ^ 32). Z.div_mod_to_equations. lia. Qed.

Lemma reloc_run relocbase data type l m w A rtype symidx : read_entry relocbase data type m = Ok (w, A, rtype, symidx) -> forall n sym f,
  (rtype, (n, sym, f)) ∈ abi -> in_u64 relocbase ->
  let '(error, addr) := lookup symidx in
  if sym && negb (error =? 0) then elf_reloc_internal relocbase data type l m = Ok (-1, m)
  else exists v, elf_reloc_internal relocbase data type l m = Ok (0, set_if_changed n w v m) /\ v = f addr A w relocbase mod 256 ^ Z.of_nat n.
Proof.
  intros E n sym f Hin HB. unfold elf_reloc_internal. rewrite E. cbn [mbind outcome_bind]. pose proof (doc_lookup symidx) as HS.
  destruct (lookup symidx) as [error addr]. cbn [snd] in HS.
  pose proof doc_distinct as Hd. unfold abi in Hd. cbn [fmap list_fmap fst] in Hd.
  repeat match goal with H : NoDup (_ :: _) |- _ => apply NoDup_cons in H as [? H] end.
  rewrite !not_elem_of_cons in *. destruct_and!.
  unfold abi in Hin. rewrite !elem_of_cons, elem_of_nil in Hin.
  destruct Hin as [Hin|[Hin|[Hin|[Hin|[Hin|[Hin|[]]]]]]]; injection Hin as -> -> -> ->;
    repeat match goal with
    | |- context [?a =? ?a] => rewrite Z.eqb_refl
    | |- context [R_X86_64_JMP_SLOT =? ?b] => rewrite (proj2 (Z.eqb_neq R_X86_64_JMP_SLOT b)) by congruence
    | |- context [?a =? ?b] => lazymatch a with error => fail | _ => rewrite (proj2 (Z.eqb_neq a b)) by congruence end
    end; cbn [andb orb]; try (destruct (error =? 0); cbn [negb]; [|done]); eexists; (split; [reflexivity|]).
  - done.
  - rewrite u64_u64. apply u32_u64.
  - apply u32_u64.
  - unfold in_u64 in HS. change (256 ^ Z.of_nat 8) with 18446744073709551616. by rewrite Z.mod_small.
  - unfold in_u64 in HS. change (256 ^ Z.of_nat 8) with 18446744073709551616. by rewrite Z.mod_small.
  - done.
Qed.

Lemma set_again n w v m : 0 <= v < 256 ^ Z.of_nat n -> set_if_changed n w v (set_if_changed n w v m) = set_if_changed n w v m.
Proof.
  intros Hv. pose proof (set_load n w v m Hv) as E. unfold set_if_changed at 1. by rewrite E, Z.eqb_refl.
Qed.

(** An entry with an addend says the same after its field, which is elsewhere, was set. *)
Lemma rela_kept relocbase data m w n v : ELF_RELOC_RELA <> ELF_RELOC_REL -> data + 24 <= w \/ w + Z.of_nat n <= data ->
  read_entry relocbase data ELF_RELOC_RELA (set_if_changed n w v m) = read_entry relocbase data ELF_RELOC_RELA m.
Proof.
  intros Hne Hap. unfold read_entry. rewrite (proj2 (Z.eqb_neq _ _) Hne), Z.eqb_refl.
  assert (forall x, 0 <= x <= 16 -> load 8 (set_if_changed n w v m) (data + x) = load 8 m (data + x)) as E.
  { intros x Hx. apply load_ext. intros b Hb. apply set_out. lia. }
  rewrite !E by (unfold r_offset, r_info, r_addend; lia). done.
Qed.

(** What the two kinds of entry hold, by the layout of the ABI: the offset of the place, then the kind and the
    symbol, and the addend in the third word, or, in an entry without one, in the field itself. *)
Definition place (relocbase data : Z) (m : memory) : Z := (relocbase + load 8 m data) mod 2 ^ 64.
Definition info (data : Z) (m : memory) : Z := load 8 m (data + 8).
Definition addend (relocbase data type : Z) (n : nat) (m : memory) : Z :=
  if decide (type = ELF_RELOC_RELA) then load 8 m (data + 16) else load n m (place relocbase data m).

Lemma read_entry_layout relocbase data type m : type = ELF_RELOC_REL \/ type = ELF_RELOC_RELA -> ELF_RELOC_RELA <> ELF_RELOC_REL ->
  exists A, read_entry relocbase data type m = Ok (place relocbase data m, A, ELF_R_TYPE (info data m), ELF_R_SYM (info data m)) /\
    forall n sym f, (ELF_R_TYPE (info data m), (n, sym, f)) ∈ abi -> A = addend relocbase data type n m.
Proof.
  intros Ht Hne. unfold read_entry, addend, r_offset, r_info, r_addend, place, info. rewrite Z.add_0_r.
  generalize (ELF_R_TYPE (load 8 m (data + 8))) as rtype. intros rtype. destruct Ht as [-> | ->].
  - rewrite Z.eqb_refl. eexists. split; [reflexivity|]. intros n sym f Hin. rewrite decide_False by done.
    pose proof doc_distinct as Hd. unfold abi in Hd. cbn [fmap list_fmap fst] in Hd.
    repeat match goal with H : NoDup (_ :: _) |- _ => apply NoDup_cons in H as [? H] end.
    rewrite !not_elem_of_cons in *. destruct_and!. unfold abi in Hin. rewrite !elem_of_cons, elem_of_nil in Hin.
    destruct Hin as [Hin|[Hin|[Hin|[Hin|[Hin|[Hin|[]]]]]]]; injection Hin as -> -> _ _; rewrite ?Z.eqb_refl;
      repeat match goal with |- context [?a =? ?b] => rewrite (proj2 (Z.eqb_neq a b)) by congruence end; by rewrite ?orb_true_r.
  - rewrite (proj2 (Z.eqb_neq _ _) Hne), Z.eqb_refl. eexists. split; [reflexivity|]. intros n sym f _. by rewrite decide_True.
Qed.

(** C40. Modules are relocated as the ABI says.  For an entry with the offset, the kind, the symbol and the addend in
    the places of the ABI (without an addend of its own the field holds it), the value of its kind, cut to its field, is
    stored at the base of the module plus the offset, and nothing else changes; the entry is refused, and nothing is stored,
    when its symbol is not found or its kind is not one of those of the ABI; an entry with an addend can be applied again
    without effect; and a table of another type ends the process. *)
Theorem elf_reloc_applies relocbase data type m :
  in_u64 relocbase -> ELF_RELOC_RELA <> ELF_RELOC_REL ->
  let P := place relocbase data m in
  let rtype := ELF_R_TYPE (info data m) in
  (type = ELF_RELOC_REL \/ type = ELF_RELOC_RELA ->
   (forall n sym f, (rtype, (n, sym, f)) ∈ abi ->
     let '(error, addr) := lookup (ELF_R_SYM (info data m)) in
     if sym && negb (error =? 0) then elf_reloc relocbase data type m = Ok (-1, m)
     else exists m', elf_reloc relocbase data type m = Ok (0, m') /\
       sets n P (f addr (addend relocbase data type n m) P relocbase) m m' /\
       (type = ELF_RELOC_RELA -> data + 24 <= P \/ P + Z.of_nat n <= data -> elf_reloc relocbase data type m' = Ok (0, m'))) /\
   (rtype = R_X86_64_NONE -> elf_reloc relocbase data type m = Ok (0, m)) /\
   (rtype ∉ R_X86_64_NONE :: (fst <$> abi) -> elf_reloc relocbase data type m = Ok (-1, m))) /\
  (type <> ELF_RELOC_REL -> type <> ELF_RELOC_RELA -> elf_reloc relocbase data type m = Panic).
Proof.
  intros HB Hne P rtype. split.
  2: { intros H1 H2. unfold elf_reloc, elf_reloc_internal, read_entry. by rewrite !(proj2 (Z.eqb_neq _ _)) by done. }
  intros Ht. destruct (read_entry_layout relocbase data type m Ht Hne) as (A & E & HA). fold P rtype in E, HA. split_and!.
  - intros n sym f Hin. rewrite <- (HA _ _ _ Hin). set (symidx := ELF_R_SYM _) in *.
    pose proof (reloc_run _ _ _ 0 _ _ _ _ _ E n sym f Hin HB) as R. destruct (lookup symidx) as [error addr] eqn:El.
    destruct (sym && negb (error =? 0)) eqn:Es; [done|]. destruct R as (v & R & Hv). eexists. split; [exact R|].
    split; [by apply set_sets|]. intros -> Hap.
    pose proof (reloc_run relocbase data ELF_RELOC_RELA 0 (set_if_changed n P v m) P A rtype symidx) as R2.
    rewrite rela_kept in R2 by done. specialize (R2 E n sym f Hin HB). rewrite El, Es in R2. destruct R2 as (v' & R2 & Hv').
    unfold elf_reloc. rewrite R2. assert (v' = v) as -> by congruence. rewrite set_again; [done|]. rewrite Hv. apply Z.mod_pos_bound. lia.
  - intros Hn. unfold elf_reloc, elf_reloc_internal. rewrite E. cbn [mbind outcome_bind]. by rewrite Hn, Z.eqb_refl.
  - intros Hn. unfold abi in Hn. cbn [fmap list_fmap fst] in Hn. rewrite !not_elem_of_cons in Hn. destruct_and!.
    unfold elf_reloc, elf_reloc_internal. rewrite E. cbn [mbind outcome_bind].
    repeat match goal with |- context [rtype =? ?b] => destruct (Z.eqb_spec rtype b); [congruence || done|] end. done.
Qed.
End Elf.

(** ** Memory of the user and random numbers

    The stack and the application share the memory. *)
Definition fubyte (m : memory) (base : Z) : Z := u8 (rd m base).
Definition fueword (m : memory) (base : Z) : Z * Z := (0, i64 (load 8 m base)).

(** [arc4random]: [rand_r] of the C library with a seed that is taken once from the host; a seed of 0 is taken
    again. *)
Section Random.
Context (lazybsd_arc4random : Z) (rand_r : Z -> Z * Z).

Definition arc4random (seed : Z) : Z * Z :=
  let seed := if seed =? 0 then lazybsd_arc4random else seed in
  let '(r, seed) := rand_r seed in (u32 r, seed).

Lemma seed_taken_once seed : seed <> 0 -> arc4random seed = (u32 (rand_r seed).1, (rand_r seed).2).
Proof. intros Hs. unfold arc4random. rewrite (proj2 (Z.eqb_neq _ _) Hs). by destruct (rand_r seed). Qed.
End Random.

(** ** Example: a call to a symbol at 0x5000 from the address 0x1010 of a module at 0x1000. *)
#[export] Instance example_elf : ElfHeaders := {|
  ELF_RELOC_REL := 1; ELF_RELOC_RELA := 2; R_X86_64_NONE := 0; R_X86_64_64 := 1; R_X86_64_PC32 := 2; R_X86_64_COPY := 5;
  R_X86_64_GLOB_DAT := 6; R_X86_64_JMP_SLOT := 7; R_X86_64_RELATIVE := 8; R_X86_64_32S := 11;
  ELF_R_TYPE i := Z.land i 0xffffffff; ELF_R_SYM i := Z.shiftr i 32 |}.

Definition example_symbol (s : Z) : Z * Z := if s =? 3 then (0, 0x5000) else (2, 0).
Definition example_entry : memory :=
  store 8 (store 8 (store 8 ∅ (0x2000 + r_offset) 0x10) (0x2000 + r_info) (3 * 2 ^ 32 + 2)) (0x2000 + r_addend) (2 ^ 64 - 4).

Lemma elf_reloc_applies_witness : exists m', elf_reloc example_symbol 0x1000 0x2000 2 example_entry = Ok (0, m') /\
  load 4 m' 0x1010 = 0x5000 - 4 - 0x1010 /\ elf_reloc example_symbol 0x1000 0x2000 2 m' = Ok (0, m').
Proof.
  assert (NoDup (R_X86_64_NONE :: R_X86_64_COPY :: (fst <$> abi))) as Hd by (apply (bool_decide_unpack _); by vm_compute).
  assert (forall s, in_u64 (example_symbol s).2) as Hl by (intros s; unfold example_symbol; destruct (s =? 3); unfold in_u64; cbn; lia).
  assert (in_u64 0x1000) as HB by (unfold in_u64; lia).
  assert (ELF_RELOC_RELA <> ELF_RELOC_REL) as Hne by (cbn; lia).
  assert (place 0x1000 0x2000 example_entry = 0x1010) as Hp by by vm_compute.
  assert (info 0x2000 example_entry = 3 * 2 ^ 32 + 2) as Hi by by vm_compute.
  assert (addend 0x1000 0x2000 2 4 example_entry = 2 ^ 64 - 4) as HA by by vm_compute.
  pose proof (elf_reloc_applies example_symbol Hd Hl 0x1000 0x2000 2 example_entry HB Hne) as T. cbv zeta in T. rewrite Hp, Hi in T.
  destruct T as [T _]. destruct (T (or_intror eq_refl)) as [Ha _]. clear T. specialize (Ha 4%nat true (fun S A P B => S + A - P)).
  rewrite HA in Ha. destruct Ha as (m' & E & [L _] & I); [unfold abi; set_solver|].
  exists m'. split; [exact E|]. split; [rewrite L; by vm_compute|]. apply I; [done|cbn; lia].
Defined.
