(* ===== verification/SocketApi.v ===== *)
(** * SocketApi: the socket calls of [bsd/lib/lazybsd_socket.c]

    The second half of [lazybsd_socket.c]: the calls an application makes in place
    of those of its C library.  Each converts its arguments ([SockConv]), calls one
    routine of the stack, and turns the error number of the stack into [-1] and a
    value of [lazybsd_errno] ([Errno]).

    The routines of the FreeBSD kernel are the calls [kcall] of an interface
    [Kernel], which says for each of them which error it returns, what else it
    returns through its arguments, and how it changes memory, the state of the
    stack and [td_retval]. *)
From S2P Require Import Prelude Errno KernSubr SockConv.

(** ** The routines of the stack the calls use *)

(** [struct rt_addrinfo]: the flags and the addresses (0 is NULL). *)
Record rt_addrinfo := RtAddrinfo {
  rti_flags : Z; rti_dst : Z; rti_gateway : Z; rti_netmask : Z }.

(** A call; the index is the type of what it returns besides the error. *)
Inductive kcall : Type -> Type :=
| sys_socket (domain type protocol : Z) : kcall unit
| kern_getsockopt (s level name val : Z) (valseg : uio_seg) (valsize : Z) : kcall unit
| kern_setsockopt (s level name val : Z) (valseg : uio_seg) (valsize : Z) : kcall unit
| kern_ioctl (fd com data : Z) : kcall unit
| kern_close (fd : Z) : kcall unit
| kern_readv (fd : Z) (auio : uio) : kcall unit
| kern_writev (fd : Z) (auio : uio) : kcall unit
| sendit (s : Z) (mp : msghdr) (flags : Z) : kcall msghdr
| kern_recvit (s : Z) (mp : msghdr) (fromseg : uio_seg) : kcall msghdr
| kern_fcntl (fd cmd arg : Z) : kcall unit
| kern_accept (s namelen : Z) : kcall (Z * Z)      (* the name and the file *)
| fdrop (fp : Z) : kcall unit
| sys_listen (s backlog : Z) : kcall unit
| kern_bindat (dirfd fd sa : Z) : kcall unit
| kern_connectat (dirfd fd sa : Z) : kcall unit
| kern_getpeername (fd alen : Z) : kcall Z         (* the name *)
| kern_getsockname (fd alen : Z) : kcall Z
| sys_shutdown (s how : Z) : kcall unit
| userland_sysctl (name namelen old oldlenp inkernel new newlen : Z) : kcall Z
| kern_select (nd fd_in fd_ou fd_ex tvp abi_nfdbits : Z) : kcall unit
| kern_poll (fds nfds : Z) (ts : Z * Z) : kcall unit
| sys_dup (fd : Z) : kcall unit
| sys_dup2 (from to : Z) : kcall unit
| rib_action (fibnum action : Z) (info : rt_addrinfo) : kcall unit
| malloc (size : Z) : kcall Z
| free (addr : Z) : kcall unit.

(** What a routine sees and changes: memory, the stack's own state [K], and
    [curthread->td_retval[0]]. *)
Record kstate (K : Type) := Kstate { mem : memory; stack : K; td_retval : Z }.
Arguments Kstate {K} _ _ _.
Arguments mem {K} _.
Arguments stack {K} _.
Arguments td_retval {K} _.

Class Kernel (K : Type) := kernel : forall {R : Type}, kcall R -> kstate K -> Z * R * kstate K.

(** The constants of FreeBSD that this part of the file names. *)
Class SocketHeaders := {
  AT_FDCWD : Z;
  RTM_ADD : Z;
  RTM_DELETE : Z;
  RTM_CHANGE : Z;
  RTF_HOST : Z;
  RTF_GATEWAY : Z;
  RT_DEFAULT_FIB : Z }.

(** ** The state and the monad of the calls *)

(** The state of the calls: what the stack sees, the thread's [lazybsd_errno] and
    the time [current_ts] of [lazybsd_host.c]. *)
Record sys (K : Type) := Sys { ks : kstate K; lazybsd_errno : Z; current_ts : Z * Z }.
Arguments Sys {K} _ _ _.
Arguments ks {K} _.
Arguments lazybsd_errno {K} _.
Arguments current_ts {K} _.

Definition M (K A : Type) : Type := sys K -> outcome (A * sys K).
#[export] Instance M_ret K : MRet (M K) := fun A a s => Ok (a, s).
#[export] Instance M_bind K : MBind (M K) := fun A B f m s =>
  match m s with Ok (a, s') => f a s' | Panic => Panic | Diverge => Diverge end.

Section Calls.
Context {K : Type} `{Kernel K} `{BsdHeaders} `{SocketHeaders}.

(** The addresses of the local variables that calls take the address of, and the
    bytes such variables hold before they are assigned. *)
Context (bsdaddr sa_gw sa_dst sa_nm indet : Z) (indet_rw : uio_dir).

(** A call to the stack: its error and what else it returns. *)
Definition call {R} (k : kcall R) : M K (Z * R) := fun s =>
  let '(rc, r, k') := kernel k (ks s) in Ok (rc, r, Sys k' (lazybsd_errno s) (current_ts s)).

(** [lazybsd_os_errno(rc); return (-1);] *)
Definition kern_fail (rc : Z) : M K Z := fun s =>
  Ok (-1, Sys (ks s) (lazybsd_os_errno rc) (current_ts s)).

(** [if ((rc = ...)) goto kern_fail;] *)
Definition or_fail (rc : Z) (k : M K Z) : M K Z := if negb (rc =? 0) then kern_fail rc else k.

(** [rc = curthread->td_retval[0];], an [int]. *)
Definition retval : M K Z := fun s => Ok (i32 (td_retval (ks s)), s).

(** A conversion in memory. *)
Definition in_memory (f : memory -> outcome memory) : M K unit := fun s =>
  match f (mem (ks s)) with
  | Ok m => Ok ((), Sys (Kstate m (stack (ks s)) (td_retval (ks s))) (lazybsd_errno s) (current_ts s))
  | Panic => Panic
  | Diverge => Diverge
  end.

(** A conversion in memory that also returns a value. *)
Definition in_memory_with {A} (f : memory -> outcome (A * memory)) : M K A := fun s =>
  match f (mem (ks s)) with
  | Ok (a, m) => Ok (a, Sys (Kstate m (stack (ks s)) (td_retval (ks s))) (lazybsd_errno s) (current_ts s))
  | Panic => Panic
  | Diverge => Diverge
  end.

Definition read (n : nat) (a : Z) : M K Z := fun s => Ok (load n (mem (ks s)) a, s).
Definition write (n : nat) (a v : Z) : M K unit := in_memory (fun m => Ok (store n m a v)).
Definition crash {A} : M K A := fun _ => Panic.

(** ** Sockets and options *)

Definition lazybsd_socket (domain type protocol : Z) : M K Z :=
  '(rc, _) ← call (sys_socket (if domain =? LINUX_AF_INET6 then AF_INET6 else domain) type protocol);
  or_fail rc retval.

Definition lazybsd_getsockopt (s level optname optval optlen : Z) : M K Z :=
  let level := if level =? LINUX_SOL_SOCKET then SOL_SOCKET else level in
  let optname := linux2freebsd_opt level optname in
  if optname <? 0 then kern_fail LAZYBSD_EINVAL else
  '(rc, _) ← call (kern_getsockopt s level optname optval UIO_USERSPACE optlen);
  or_fail rc (mret rc).

Definition lazybsd_getsockopt_freebsd (s level optname optval optlen : Z) : M K Z :=
  '(rc, _) ← call (kern_getsockopt s level optname optval UIO_USERSPACE optlen);
  or_fail rc (mret rc).

Definition lazybsd_setsockopt (s level optname optval optlen : Z) : M K Z :=
  let level := if level =? LINUX_SOL_SOCKET then SOL_SOCKET else level in
  let optname := linux2freebsd_opt level optname in
  if optname <? 0 then kern_fail LAZYBSD_EINVAL else
  '(rc, _) ← call (kern_setsockopt s level optname optval UIO_USERSPACE optlen);
  or_fail rc (mret rc).

Definition lazybsd_setsockopt_freebsd (s level optname optval optlen : Z) : M K Z :=
  '(rc, _) ← call (kern_setsockopt s level optname optval UIO_USERSPACE optlen);
  or_fail rc (mret rc).

Definition lazybsd_ioctl (fd request argp : Z) : M K Z :=
  let req := linux2freebsd_ioctl request in
  if req <? 0 then kern_fail LAZYBSD_EINVAL else
  '(rc, _) ← call (kern_ioctl fd req argp);
  or_fail rc (mret rc).

Definition lazybsd_ioctl_freebsd (fd request argp : Z) : M K Z :=
  '(rc, _) ← call (kern_ioctl fd request argp);
  or_fail rc (mret rc).

Definition lazybsd_close (fd : Z) : M K Z :=
  '(rc, _) ← call (kern_close fd);
  or_fail rc (mret rc).

Definition lazybsd_fcntl (fd cmd argp : Z) : M K Z :=
  '(rc, _) ← call (kern_fcntl fd cmd argp);
  or_fail rc retval.

Definition lazybsd_listen (s backlog : Z) : M K Z :=
  '(rc, _) ← call (sys_listen s backlog);
  or_fail rc (mret rc).

Definition lazybsd_shutdown (s how : Z) : M K Z :=
  '(rc, _) ← call (sys_shutdown s how);
  or_fail rc (mret rc).

Definition lazybsd_dup (oldfd : Z) : M K Z :=
  '(rc, _) ← call (sys_dup oldfd);
  or_fail rc retval.

Definition lazybsd_dup2 (oldfd newfd : Z) : M K Z :=
  '(rc, _) ← call (sys_dup2 oldfd newfd);
  or_fail rc retval.

(** ** Reading and writing *)

(** [struct uio] as the calls fill it in; [uio_offset] and [uio_rw] are the kernel's
    to set. *)
Definition sys_uio (iov : list iovec) (iovcnt resid : Z) : uio := {|
  uio_iov := iov; uio_iovcnt := iovcnt; uio_offset := indet; uio_resid := resid;
  uio_segflg := UIO_SYSSPACE; uio_rw := indet_rw |}.

Definition lazybsd_read (fd buf nbytes : Z) : M K Z :=
  if INT_MAX <? nbytes then kern_fail LAZYBSD_EINVAL else
  '(rc, _) ← call (kern_readv fd (sys_uio [{| iov_base := buf; iov_len := nbytes |}] 1 nbytes));
  or_fail rc retval.

(** [for (i = 0; i < iovcnt; i++) len += iov[i].iov_len;] with [int len]; the array
    is the list of the elements at [iov]. *)
Definition iov_length (iov : list iovec) (iovcnt : Z) : Z :=
  foldl (fun len v => i32 (len + iov_len v)) 0 (take (Z.to_nat iovcnt) iov).

Definition lazybsd_readv (fd : Z) (iov : list iovec) (iovcnt : Z) : M K Z :=
  let len := iov_length iov iovcnt in
  '(rc, _) ← call (kern_readv fd (sys_uio iov iovcnt len));
  or_fail rc retval.

Definition lazybsd_write (fd buf nbytes : Z) : M K Z :=
  if INT_MAX <? nbytes then kern_fail LAZYBSD_EINVAL else
  '(rc, _) ← call (kern_writev fd (sys_uio [{| iov_base := buf; iov_len := nbytes |}] 1 nbytes));
  or_fail rc retval.

Definition lazybsd_writev (fd : Z) (iov : list iovec) (iovcnt : Z) : M K Z :=
  let len := iov_length iov iovcnt in
  '(rc, _) ← call (kern_writev fd (sys_uio iov iovcnt len));
  or_fail rc retval.

Definition lazybsd_sendto (s buf len flags to tolen : Z) : M K Z :=
  pf ← (if negb (to =? 0)
        then _ ← in_memory (linux2freebsd_sockaddr to tolen bsdaddr); mret bsdaddr
        else mret 0);
  '(rc, _) ← call (sendit s (Msghdr pf tolen [{| iov_base := buf; iov_len := len |}] 1 0 indet indet) flags);
  or_fail rc retval.

Definition lazybsd_send (s buf len flags : Z) : M K Z := lazybsd_sendto s buf len flags 0 0.

Definition lazybsd_recvfrom (s buf len flags from fromlen : Z) : M K Z :=
  namelen ← (if negb (fromlen =? 0) then read 4 fromlen else mret 0);
  '(rc, msg) ← call (kern_recvit s (Msghdr bsdaddr namelen [{| iov_base := buf; iov_len := len |}] 1 0 indet flags) UIO_SYSSPACE);
  or_fail rc (
    rc ← retval;
    _ ← (if negb (fromlen =? 0) then write 4 fromlen (msg_namelen msg) else mret ());
    _ ← (if negb (from =? 0) && negb (msg_namelen msg =? 0)
         then in_memory (freebsd2linux_sockaddr from bsdaddr) else mret ());
    mret rc).

Definition lazybsd_recv (s buf len flags : Z) : M K Z := lazybsd_recvfrom s buf len flags 0 0.

(** [msg] is the address of a [linux_msghdr]: [None] is NULL.  The second component
    of the value is the header the caller is left with. *)
Definition lazybsd_sendmsg (fuel : nat) (s : Z) (msg : option msghdr) (flags : Z)
    : M K (Z * option msghdr) :=
  match msg with
  | None => crash
  | Some l =>
      freebsd_cmsg ← (if negb (msg_control l =? 0)
        then '(_, p) ← call (malloc (msg_controllen l)); mret p
        else mret 0);
      if negb (msg_control l =? 0) && (freebsd_cmsg =? 0)
      then r ← kern_fail LAZYBSD_ENOMEM; mret (r, msg)
      else
        '(ret, f) ← in_memory_with (linux2freebsd_msghdr fuel msg
           (Some (Msghdr bsdaddr indet [] indet freebsd_cmsg indet indet)) true);
        match f with
        | None => crash
        | Some f =>
            if ret <? 0 then r ← kern_fail LAZYBSD_EINVAL; mret (r, msg)
            else
              '(rc, f) ← call (sendit s f flags);
              if negb (rc =? 0) then r ← kern_fail rc; mret (r, msg)
              else
                rc ← retval;
                '(_, l) ← in_memory_with (freebsd2linux_msghdr fuel msg (Some f) true);
                _ ← (if negb (freebsd_cmsg =? 0) then call (free freebsd_cmsg) else mret (0, ()));
                mret (rc, l)
        end
  end.

Definition lazybsd_recvmsg (fuel : nat) (s : Z) (msg : option msghdr) (flags : Z)
    : M K (Z * option msghdr) :=
  '(ret, f) ← in_memory_with (linux2freebsd_msghdr fuel msg
     (Some (Msghdr indet indet [] indet indet indet indet)) false);
  match f with
  | None => crash
  | Some f =>
      if ret <? 0 then r ← kern_fail LAZYBSD_EINVAL; mret (r, msg)
      else
        let f := Msghdr (msg_name f) (msg_namelen f) (msg_iov f) (msg_iovlen f)
                   (msg_control f) (msg_controllen f) flags in
        '(rc, f) ← call (kern_recvit s f UIO_SYSSPACE);
        if negb (rc =? 0) then r ← kern_fail rc; mret (r, msg)
        else
          rc ← retval;
          '(_, l) ← in_memory_with (freebsd2linux_msghdr fuel msg (Some f) false);
          mret (rc, l)
  end.

(** ** Addresses and connections *)

Definition sizeof_sockaddr_storage : Z := 128.

(** [if(pf != NULL) free(pf, M_SONAME);] *)
Definition free_name (pf : Z) : M K unit :=
  if negb (pf =? 0) then '(_, _) ← call (free pf); mret () else mret ().

Definition lazybsd_accept (s addr addrlen : Z) : M K Z :=
  '(rc, (pf, fp)) ← call (kern_accept s sizeof_sockaddr_storage);
  if negb (rc =? 0) then _ ← free_name pf; kern_fail rc
  else
    rc ← retval;
    _ ← call (fdrop fp);
    _ ← (if negb (addr =? 0) && negb (pf =? 0)
         then in_memory (freebsd2linux_sockaddr addr pf) else mret ());
    _ ← (if negb (addrlen =? 0)
         then if pf =? 0 then crash
              else len ← read 1 (pf + sa_len); write 4 addrlen len
         else mret ());
    _ ← free_name pf;
    mret rc.

Definition lazybsd_bind (s addr addrlen : Z) : M K Z :=
  _ ← in_memory (linux2freebsd_sockaddr addr addrlen bsdaddr);
  '(rc, _) ← call (kern_bindat AT_FDCWD s bsdaddr);
  or_fail rc (mret rc).

Definition lazybsd_connect (s name namelen : Z) : M K Z :=
  _ ← in_memory (linux2freebsd_sockaddr name namelen bsdaddr);
  '(rc, _) ← call (kern_connectat AT_FDCWD s bsdaddr);
  or_fail rc (mret rc).

Definition lazybsd_getpeername (s name namelen : Z) : M K Z :=
  '(rc, pf) ← call (kern_getpeername s namelen);
  if negb (rc =? 0) then _ ← free_name pf; kern_fail rc
  else
    _ ← (if negb (name =? 0) && negb (pf =? 0)
         then in_memory (freebsd2linux_sockaddr name pf) else mret ());
    _ ← free_name pf;
    mret rc.

Definition lazybsd_getsockname (s name namelen : Z) : M K Z :=
  '(rc, pf) ← call (kern_getsockname s namelen);
  if negb (rc =? 0) then _ ← free_name pf; kern_fail rc
  else
    _ ← (if negb (name =? 0) && negb (pf =? 0)
         then in_memory (freebsd2linux_sockaddr name pf) else mret ());
    _ ← free_name pf;
    mret rc.

(** ** The rest *)

Definition lazybsd_sysctl (name namelen oldp oldlenp newp newlen : Z) : M K Z :=
  '(rc, retval) ← call (userland_sysctl name namelen oldp oldlenp 1 newp newlen);
  if negb (rc =? 0) then kern_fail rc
  else _ ← (if negb (oldlenp =? 0) then write 8 oldlenp retval else mret ()); mret 0.

Definition lazybsd_select (nfds readfds writefds exceptfds timeout : Z) : M K Z :=
  '(rc, _) ← call (kern_select nfds readfds writefds exceptfds timeout 64);
  or_fail rc retval.

(** The [timeout] of the caller is not used. *)
Definition lazybsd_poll (fds nfds timeout : Z) : M K Z :=
  '(rc, _) ← call (kern_poll fds nfds (0, 0));
  or_fail rc retval.

(** [lazybsd_get_current_time] of [lazybsd_host.c], with [sec] and [nsec] not NULL. *)
Definition lazybsd_get_current_time : M K (Z * Z) := fun s => Ok (current_ts s, s).

(** [struct timeval] is two [long]s. *)
Definition lazybsd_gettimeofday (tv tz : Z) : M K Z :=
  if tv =? 0 then crash else
  '(sec, nsec) ← lazybsd_get_current_time;
  _ ← write 8 tv sec;
  _ ← write 8 (tv + 8) (nsec ÷ 1000);
  mret 0.

Definition LAZYBSD_ROUTE_ADD : Z := 0.
Definition LAZYBSD_ROUTE_DEL : Z := 1.
Definition LAZYBSD_ROUTE_CHANGE : Z := 2.
Definition LAZYBSD_RTF_HOST : Z := 0.
Definition LAZYBSD_RTF_GATEWAY : Z := 1.

Definition sizeof_linux_sockaddr : Z := 16.

(** An address of [lazybsd_route_ctl] in its local copy; 0 is NULL. *)
Definition route_sockaddr (sa local : Z) : M K Z :=
  if negb (sa =? 0)
  then _ ← in_memory (linux2freebsd_sockaddr sa sizeof_linux_sockaddr local); mret local
  else mret 0.

Definition route_request (req : Z) : option Z :=
  switch req [(LAZYBSD_ROUTE_ADD, Some RTM_ADD); (LAZYBSD_ROUTE_DEL, Some RTM_DELETE);
              (LAZYBSD_ROUTE_CHANGE, Some RTM_CHANGE)] None.

Definition route_flag (flag : Z) : option Z :=
  switch flag [(LAZYBSD_RTF_HOST, Some RTF_HOST); (LAZYBSD_RTF_GATEWAY, Some RTF_GATEWAY)] None.

Definition lazybsd_route_ctl (req flag dst gw netmask : Z) : M K Z :=
  match route_request req with
  | None => kern_fail LAZYBSD_EINVAL
  | Some rtreq =>
      match route_flag flag with
      | None => kern_fail LAZYBSD_EINVAL
      | Some rtflag =>
          psa_gw ← route_sockaddr gw sa_gw;
          psa_dst ← route_sockaddr dst sa_dst;
          psa_nm ← route_sockaddr netmask sa_nm;
          '(rc, _) ← call (rib_action RT_DEFAULT_FIB rtreq (RtAddrinfo rtflag psa_dst psa_gw psa_nm));
          if negb (rc =? 0) then kern_fail rc else mret rc
      end
  end.

(** ** The contract of the calls *)

(** The calls, with their arguments. *)
Inductive api_call : Type :=
| A_socket (domain type protocol : Z)
| A_getsockopt (s level optname optval optlen : Z)
| A_getsockopt_freebsd (s level optname optval optlen : Z)
| A_setsockopt (s level optname optval optlen : Z)
| A_setsockopt_freebsd (s level optname optval optlen : Z)
| A_ioctl (fd request argp : Z)
| A_ioctl_freebsd (fd request argp : Z)
| A_close (fd : Z)
| A_fcntl (fd cmd argp : Z)
| A_listen (s backlog : Z)
| A_shutdown (s how : Z)
| A_dup (oldfd : Z)
| A_dup2 (oldfd newfd : Z)
| A_read (fd buf nbytes : Z)
| A_readv (fd : Z) (iov : list iovec) (iovcnt : Z)
| A_write (fd buf nbytes : Z)
| A_writev (fd : Z) (iov : list iovec) (iovcnt : Z)
| A_send (s buf len flags : Z)
| A_sendto (s buf len flags to tolen : Z)
| A_sendmsg (s : Z) (msg : option msghdr) (flags : Z)
| A_recv (s buf len flags : Z)
| A_recvfrom (s buf len flags from fromlen : Z)
| A_recvmsg (s : Z) (msg : option msghdr) (flags : Z)
| A_accept (s addr addrlen : Z)
| A_bind (s addr addrlen : Z)
| A_connect (s name namelen : Z)
| A_getpeername (s name namelen : Z)
| A_getsockname (s name namelen : Z)
| A_sysctl (name namelen oldp oldlenp newp newlen : Z)
| A_select (nfds readfds writefds exceptfds timeout : Z)
| A_poll (fds nfds timeout : Z)
| A_route_ctl (req flag dst gw netmask : Z).

(** A call, and the message header that the caller is left with. *)
Definition plain (m : M K Z) : M K (Z * option msghdr) := r ← m; mret (r, None).

Definition api (c : api_call) : M K (Z * option msghdr) :=
  match c with
  | A_socket domain type protocol => plain (lazybsd_socket domain type protocol)
  | A_getsockopt s level optname optval optlen => plain (lazybsd_getsockopt s level optname optval optlen)
  | A_getsockopt_freebsd s level optname optval optlen =>
      plain (lazybsd_getsockopt_freebsd s level optname optval optlen)
  | A_setsockopt s level optname optval optlen => plain (lazybsd_setsockopt s level optname optval optlen)
  | A_setsockopt_freebsd s level optname optval optlen =>
      plain (lazybsd_setsockopt_freebsd s level optname optval optlen)
  | A_ioctl fd request argp => plain (lazybsd_ioctl fd request argp)
  | A_ioctl_freebsd fd request argp => plain (lazybsd_ioctl_freebsd fd request argp)
  | A_close fd => plain (lazybsd_close fd)
  | A_fcntl fd cmd argp => plain (lazybsd_fcntl fd cmd argp)
  | A_listen s backlog => plain (lazybsd_listen s backlog)
  | A_shutdown s how => plain (lazybsd_shutdown s how)
  | A_dup oldfd => plain (lazybsd_dup oldfd)
  | A_dup2 oldfd newfd => plain (lazybsd_dup2 oldfd newfd)
  | A_read fd buf nbytes => plain (lazybsd_read fd buf nbytes)
  | A_readv fd iov iovcnt => plain (lazybsd_readv fd iov iovcnt)
  | A_write fd buf nbytes => plain (lazybsd_write fd buf nbytes)
  | A_writev fd iov iovcnt => plain (lazybsd_writev fd iov iovcnt)
  | A_send s buf len flags => plain (lazybsd_send s buf len flags)
  | A_sendto s buf len flags to tolen => plain (lazybsd_sendto s buf len flags to tolen)
  | A_sendmsg s msg flags => lazybsd_sendmsg 0 s msg flags
  | A_recv s buf len flags => plain (lazybsd_recv s buf len flags)
  | A_recvfrom s buf len flags from fromlen => plain (lazybsd_recvfrom s buf len flags from fromlen)
  | A_recvmsg s msg flags => lazybsd_recvmsg 0 s msg flags
  | A_accept s addr addrlen => plain (lazybsd_accept s addr addrlen)
  | A_bind s addr addrlen => plain (lazybsd_bind s addr addrlen)
  | A_connect s name namelen => plain (lazybsd_connect s name namelen)
  | A_getpeername s name namelen => plain (lazybsd_getpeername s name namelen)
  | A_getsockname s name namelen => plain (lazybsd_getsockname s name namelen)
  | A_sysctl name namelen oldp oldlenp newp newlen =>
      plain (lazybsd_sysctl name namelen oldp oldlenp newp newlen)
  | A_select nfds readfds writefds exceptfds timeout =>
      plain (lazybsd_select nfds readfds writefds exceptfds timeout)
  | A_poll fds nfds timeout => plain (lazybsd_poll fds nfds timeout)
  | A_route_ctl req flag dst gw netmask => plain (lazybsd_route_ctl req flag dst gw netmask)
  end.

(** A routine with its arguments. *)
Inductive request : Type :=
| Req {R : Type} (k : kcall R).

(** The abstract request of a call: the routine of the stack that serves it and the
    translated arguments; [None] where the arguments are refused. *)
Definition bsd_level (level : Z) : Z := if level =? LINUX_SOL_SOCKET then SOL_SOCKET else level.

Definition sock_option (k : Z -> Z -> kcall unit) (level optname : Z) : option request :=
  let o := linux2freebsd_opt (bsd_level level) optname in
  if o <? 0 then None else Some (Req (k (bsd_level level) o)).

Definition one_iov (buf len : Z) : list iovec := [{| iov_base := buf; iov_len := len |}].

Definition local_name (addr : Z) : Z := if addr =? 0 then 0 else bsdaddr.

Definition api_request (c : api_call) (m : memory) : option request :=
  match c with
  | A_socket domain type protocol =>
      Some (Req (sys_socket (bsd_family domain) type protocol))
  | A_getsockopt s level optname optval optlen =>
      sock_option (fun l o => kern_getsockopt s l o optval UIO_USERSPACE optlen) level optname
  | A_setsockopt s level optname optval optlen =>
      sock_option (fun l o => kern_setsockopt s l o optval UIO_USERSPACE optlen) level optname
  | A_getsockopt_freebsd s level optname optval optlen =>
      Some (Req (kern_getsockopt s level optname optval UIO_USERSPACE optlen))
  | A_setsockopt_freebsd s level optname optval optlen =>
      Some (Req (kern_setsockopt s level optname optval UIO_USERSPACE optlen))
  | A_ioctl fd request argp =>
      let req := linux2freebsd_ioctl request in
      if req <? 0 then None else Some (Req (kern_ioctl fd req argp))
  | A_ioctl_freebsd fd request argp => Some (Req (kern_ioctl fd request argp))
  | A_close fd => Some (Req (kern_close fd))
  | A_fcntl fd cmd argp => Some (Req (kern_fcntl fd cmd argp))
  | A_listen s backlog => Some (Req (sys_listen s backlog))
  | A_shutdown s how => Some (Req (sys_shutdown s how))
  | A_dup oldfd => Some (Req (sys_dup oldfd))
  | A_dup2 oldfd newfd => Some (Req (sys_dup2 oldfd newfd))
  | A_read fd buf nbytes =>
      if nbytes <=? INT_MAX
      then Some (Req (kern_readv fd (sys_uio (one_iov buf nbytes) 1 nbytes))) else None
  | A_readv fd iov iovcnt =>
      Some (Req (kern_readv fd (sys_uio iov iovcnt (iov_length iov iovcnt))))
  | A_write fd buf nbytes =>
      if nbytes <=? INT_MAX
      then Some (Req (kern_writev fd (sys_uio (one_iov buf nbytes) 1 nbytes))) else None
  | A_writev fd iov iovcnt =>
      Some (Req (kern_writev fd (sys_uio iov iovcnt (iov_length iov iovcnt))))
  | A_send s buf len flags =>
      Some (Req (sendit s (Msghdr 0 0 (one_iov buf len) 1 0 indet indet) flags))
  | A_sendto s buf len flags to tolen =>
      Some (Req (sendit s (Msghdr (local_name to) tolen (one_iov buf len) 1 0 indet indet) flags))
  | A_sendmsg s (Some l) flags =>
      Some (Req (sendit s (Msghdr (local_name (msg_name l)) (msg_namelen l) (msg_iov l)
        (msg_iovlen l) (msg_control l) (msg_controllen l) (msg_flags l)) flags))
  | A_sendmsg _ None _ => None
  | A_recv s buf len flags =>
      Some (Req (kern_recvit s (Msghdr bsdaddr 0 (one_iov buf len) 1 0 indet flags) UIO_SYSSPACE))
  | A_recvfrom s buf len flags from fromlen =>
      let namelen := if fromlen =? 0 then 0 else load 4 m fromlen in
      Some (Req (kern_recvit s (Msghdr bsdaddr namelen (one_iov buf len) 1 0 indet flags)
        UIO_SYSSPACE))
  | A_recvmsg s (Some l) flags =>
      Some (Req (kern_recvit s (Msghdr (msg_name l) (msg_namelen l) (msg_iov l)
        (msg_iovlen l) (msg_control l) (msg_controllen l) flags) UIO_SYSSPACE))
  | A_recvmsg _ None _ => None
  | A_accept s _ _ => Some (Req (kern_accept s 128))
  | A_bind s _ _ => Some (Req (kern_bindat AT_FDCWD s bsdaddr))
  | A_connect s _ _ => Some (Req (kern_connectat AT_FDCWD s bsdaddr))
  | A_getpeername s _ namelen => Some (Req (kern_getpeername s namelen))
  | A_getsockname s _ namelen => Some (Req (kern_getsockname s namelen))
  | A_sysctl name namelen oldp oldlenp newp newlen =>
      Some (Req (userland_sysctl name namelen oldp oldlenp 1 newp newlen))
  | A_select nfds r w e timeout => Some (Req (kern_select nfds r w e timeout 64))
  | A_poll fds nfds _ => Some (Req (kern_poll fds nfds (0, 0)))
  | A_route_ctl req flag dst gw netmask =>
      rtreq ← route_request req; rtflag ← route_flag flag;
      let local sa l := if sa =? 0 then 0 else l in
      Some (Req (rib_action RT_DEFAULT_FIB rtreq
        (RtAddrinfo rtflag (local dst sa_dst) (local gw sa_gw) (local netmask sa_nm))))
  end.

(** The calls whose result is [td_retval[0]]; the others return 0. *)
Definition returns_value (c : api_call) : bool :=
  match c with
  | A_socket _ _ _ | A_fcntl _ _ _ | A_dup _ | A_dup2 _ _ | A_read _ _ _ | A_readv _ _ _
  | A_write _ _ _ | A_writev _ _ _ | A_send _ _ _ _ | A_sendto _ _ _ _ _ _ | A_sendmsg _ _ _
  | A_recv _ _ _ _ | A_recvfrom _ _ _ _ _ _ | A_recvmsg _ _ _ | A_accept _ _ _
  | A_select _ _ _ _ _ | A_poll _ _ _ => true
  | _ => false
  end.

(** The address a call passes to the stack, with its length. *)
Definition api_address (c : api_call) : option (Z * Z) :=
  match c with
  | A_sendto _ _ _ _ to tolen => Some (to, tolen)
  | A_sendmsg _ (Some l) _ => Some (msg_name l, msg_namelen l)
  | A_bind _ addr addrlen => Some (addr, addrlen)
  | A_connect _ name namelen => Some (name, namelen)
  | _ => None
  end.

(** ** What the kernel and the caller guarantee

    A socket address the kernel returns has its length byte set, at least the two
    bytes of its header; releasing a file does not change the memory the calls
    read. *)
Class KernelDoc : Prop := {
  doc_accept : forall s n k0 pf fp k1,
    kernel (kern_accept s n) k0 = (0, (pf, fp), k1) -> pf <> 0 -> 2 <= load 1 (mem k1) (pf + sa_len);
  doc_getpeername : forall s n k0 pf k1,
    kernel (kern_getpeername s n) k0 = (0, pf, k1) -> pf <> 0 -> 2 <= load 1 (mem k1) (pf + sa_len);
  doc_getsockname : forall s n k0 pf k1,
    kernel (kern_getsockname s n) k0 = (0, pf, k1) -> pf <> 0 -> 2 <= load 1 (mem k1) (pf + sa_len);
  doc_recvit : forall s mp seg k0 f k1,
    kernel (kern_recvit s mp seg) k0 = (0, f, k1) -> msg_namelen f <> 0 ->
    2 <= load 1 (mem k1) (msg_name mp + sa_len);
  doc_fdrop : forall fp k0 rc u k1,
    kernel (fdrop fp) k0 = (rc, u, k1) -> mem k1 = mem k0 }.

(** The arguments with which a call stays inside of its own memory: an address has
    a length of at least 2 and is apart from the local copies; a message carries no
    ancillary data ([SockConv] is about those); the peer of an accepted connection is
    known where the caller asks for its length; the local copies of a route request are
    variables of their own. *)
Definition address_ok (addr len : Z) : Prop :=
  addr = 0 \/ 2 <= len < 2 ^ 32 /\ same_or_apart addr bsdaddr len.

Definition apart (a b n : Z) : Prop := a + n <= b \/ b + n <= a.
Definition route_locals : list Z := [sa_gw; sa_dst; sa_nm].
Definition route_address_ok (addr : Z) : Prop := addr = 0 \/ Forall (fun l => apart addr l 16) route_locals.

Definition api_args_ok (c : api_call) (st : sys K) : Prop :=
  match c with
  | A_sendto _ _ _ _ addr len | A_bind _ addr len | A_connect _ addr len => address_ok addr len
  | A_sendmsg _ (Some l) _ => msg_control l = 0 /\ address_ok (msg_name l) (msg_namelen l)
  | A_sendmsg _ None _ => False
  | A_recvmsg _ (Some l) _ => msg_control l = 0
  | A_recvfrom _ _ _ _ _ fromlen =>
      fromlen = 0 \/ fromlen + 4 <= bsdaddr \/ bsdaddr + 128 <= fromlen
  | A_accept s _ addrlen =>
      addrlen = 0 \/
      forall pf fp k1, kernel (kern_accept s 128) (ks st) = (0, (pf, fp), k1) -> pf <> 0
  | A_route_ctl _ _ dst gw netmask =>
      (Forall (fun l => l <> 0) route_locals /\ apart sa_gw sa_dst 16 /\ apart sa_gw sa_nm 16 /\ apart sa_dst sa_nm 16) /\
      route_address_ok gw /\ route_address_ok dst /\ route_address_ok netmask
  | _ => True
  end.

(** The address of the caller in a local copy, in the form of FreeBSD. *)
Definition copied_name (addr len local : Z) (m m0 : memory) : Prop :=
  load 1 m0 local = u8 len /\
  load 1 m0 (local + 1) = u8 (bsd_family (i16 (load 2 m addr))) /\
  forall i, 2 <= i < len -> rd m0 (local + i) = rd m (addr + i).

(** The memory the routine is called with: that of the caller, with the addresses in
    the local copies. *)
Definition memory_at_call (c : api_call) (m m0 : memory) : Prop :=
  match api_address c with
  | Some (addr, len) =>
      if addr =? 0 then m0 = m else
      copied_name addr len bsdaddr m m0 /\ (forall a, ~ (bsdaddr <= a < bsdaddr + len) -> rd m0 a = rd m a)
  | None =>
      match c with
      | A_route_ctl _ _ dst gw netmask =>
          (gw <> 0 -> copied_name gw 16 sa_gw m m0) /\ (dst <> 0 -> copied_name dst 16 sa_dst m m0) /\
          (netmask <> 0 -> copied_name netmask 16 sa_nm m m0) /\
          forall a, Forall (fun l => ~ (l <= a < l + 16)) route_locals -> rd m0 a = rd m a
      | _ => m0 = m
      end
  end.

(** *** What a call does after the stack has answered *)

Definition with_mem (m : memory) (k : kstate K) : kstate K := Kstate m (stack k) (td_retval k).

(** A name of the stack is given to the caller in the form of Linux, where there is a name and the caller asks for it. *)
Definition name_out (addr pf : Z) (k k' : kstate K) : Prop :=
  exists m, k' = with_mem m k /\
    if (addr =? 0) || (pf =? 0) then m = mem k
    else freebsd2linux_sockaddr addr pf (mem k) = Ok m /\
      let len := load 1 (mem k) pf in
      (2 <= len -> same_or_apart addr pf len ->
       load 2 m addr = (let f := load 1 (mem k) (pf + 1) in if f =? AF_INET6 then LINUX_AF_INET6 else f) /\
       (forall i, 2 <= i < len -> rd m (addr + i) = rd (mem k) (pf + i)) /\
       (forall a, ~ (addr <= a < addr + len) -> rd m a = rd (mem k) a)).

(** A name of the stack is freed once. *)
Definition freed (pf : Z) (k : kstate K) : kstate K := if pf =? 0 then k else (kernel (free pf) k).2.

(** Where the caller wants a name and its length, and the message it gave. *)
Definition wants (c : api_call) : Z * Z :=
  match c with
  | A_accept _ addr addrlen => (addr, addrlen)
  | A_getpeername _ name _ | A_getsockname _ name _ => (name, 0)
  | A_recvfrom _ _ _ _ from fromlen => (from, fromlen)
  | A_sysctl _ _ _ oldlenp _ _ => (0, oldlenp)
  | _ => (0, 0)
  end.
Definition message (c : api_call) : option msghdr :=
  match c with A_sendmsg _ l _ | A_recvmsg _ l _ => l | _ => None end.

Definition put (n : nat) (addr v : Z) (k : kstate K) : kstate K :=
  if addr =? 0 then k else with_mem (store n (mem k) addr v) k.

(** The state [k'] after a call and its header [l], from the answer of the stack: the result of the routine and the state
    [k1] it left.  Most calls leave that state alone: the stack is not asked again. *)
Definition api_after (c : api_call) (ok : bool) {R} (k : kcall R) : R -> kstate K -> kstate K -> option msghdr -> Prop :=
  let '(addr, lenp) := wants c in
  match k in kcall R return R -> kstate K -> kstate K -> option msghdr -> Prop with
  | kern_accept _ _ => fun '(pf, fp) k1 k' l =>
      l = None /\
      if ok then exists k3, name_out addr pf (kernel (fdrop fp) k1).2 k3 /\
        k' = freed pf (put 4 lenp (load 1 (mem k3) (pf + sa_len)) k3)
      else k' = freed pf k1
  | kern_getpeername _ _ | kern_getsockname _ _ => fun pf k1 k' l =>
      l = None /\ if ok then exists k3, name_out addr pf k1 k3 /\ k' = freed pf k3 else k' = freed pf k1
  | userland_sysctl _ _ _ _ _ _ _ => fun rv k1 k' l => l = None /\ k' = if ok then put 8 lenp rv k1 else k1
  | kern_recvit _ _ _ => fun f k1 k' l =>
      if ok then
        match message c with
        | None => l = None /\ name_out addr (if msg_namelen f =? 0 then 0 else bsdaddr) (put 4 lenp (msg_namelen f) k1) k'
        | Some h =>
            let named := negb (msg_name h =? 0) && negb (msg_name f =? 0) in
            l = Some (Msghdr (if named then msg_name f else msg_name h) (if named then msg_namelen f else msg_namelen h)
              (msg_iov f) (msg_iovlen f) (msg_control h) (msg_controllen h) (msg_flags f)) /\
            name_out (if named then msg_name f else 0) (msg_name f) k1 k'
        end
      else k' = k1 /\ l = message c
  | sendit _ _ _ => fun f k1 k' l =>
      k' = k1 /\ l = if ok then (fun h => Msghdr (msg_name h) (msg_namelen h) (msg_iov f) (msg_iovlen f)
        (msg_control h) (msg_controllen h) (msg_flags f)) <$> message c else message c
  | _ => fun _ k1 k' l => k' = k1 /\ l = None
  end.

(** The abstract effect of a call: on its result, the header, [lazybsd_errno], memory and the stack. *)
Definition api_result (c : api_call) (st st' : sys K) (r : Z) (l : option msghdr) : Prop :=
  current_ts st' = current_ts st /\
  match api_request c (mem (ks st)) with
  | None => r = -1 /\ ks st' = ks st /\ lazybsd_errno st' = lazybsd_os_errno LAZYBSD_EINVAL /\ l = message c
  | Some (Req k) => exists k0,
      stack k0 = stack (ks st) /\ td_retval k0 = td_retval (ks st) /\
      memory_at_call c (mem (ks st)) (mem k0) /\
      let '(rc, res, k1) := kernel k k0 in
      api_after c (rc =? 0) k res k1 (ks st') l /\
      if rc =? 0
      then lazybsd_errno st' = lazybsd_errno st /\
           r = (if returns_value c then i32 (td_retval k1) else 0)
      else r = -1 /\ lazybsd_errno st' = lazybsd_os_errno rc
  end.

(** A call that returns, with the effect of its contract. *)
Definition contract (c : api_call) (st : sys K) : Prop :=
  exists r l st', api c st = Ok (r, l, st') /\ api_result c st st' r l.

(** ** Running the calls *)

Lemma run_bind {A B} (f : A -> M K B) (m : M K A) st :
  (m ≫= f) st = match m st with Ok (a, st') => f a st' | Panic => Panic | Diverge => Diverge end.
Proof. done. Qed.

Lemma run_plain m st r st' : m st = Ok (r, st') -> plain m st = Ok (r, None, st').
Proof. intros E. unfold plain. by rewrite run_bind, E. Qed.

Lemma run_call {R} (k : kcall R) st rc r k1 :
  kernel k (ks st) = (rc, r, k1) ->
  call k st = Ok (rc, r, Sys k1 (lazybsd_errno st) (current_ts st)).
Proof. intros HE. unfold call. by rewrite HE. Qed.

Lemma sys_eta (st : sys K) :
  st = Sys (Kstate (mem (ks st)) (stack (ks st)) (td_retval (ks st))) (lazybsd_errno st) (current_ts st).
Proof. by destruct st as [[]]. Qed.

Context `{!BsdHeadersDoc} `{!KernelDoc}.
Context (bsdaddr_nonnull : bsdaddr <> 0).

Lemma freebsd2linux_sockaddr_total la fa m :
  2 <= load 1 m (fa + sa_len) -> exists m', freebsd2linux_sockaddr la fa m = Ok m'.
Proof.
  intros Hlen. unfold freebsd2linux_sockaddr.
  pose proof (load_range 1 m (fa + sa_len)) as Hr. change (256 ^ Z.of_nat 1) with 256 in Hr.
  unfold sizeof_linux_sa_family. rewrite u64_id by (unfold in_u64; lia).
  destruct (_ || _); [by eexists|].
  destruct (negb _); [rewrite memcpy_Ok by (unfold LONG_MAX; lia)|]; by eexists.
Qed.

(** A call that asks the stack in the state [st0] and has nothing else to do. *)
Lemma simple_call {R} (k : kcall R) (c : api_call) (st st0 : sys K) (last : Z -> M K Z) :
  api c st = plain ('(rc, _) ← call k; or_fail rc (last rc)) st0 ->
  stack (ks st0) = stack (ks st) -> td_retval (ks st0) = td_retval (ks st) ->
  lazybsd_errno st0 = lazybsd_errno st -> current_ts st0 = current_ts st ->
  api_request c (mem (ks st)) = Some (Req k) ->
  memory_at_call c (mem (ks st)) (mem (ks st0)) ->
  (forall s', last 0 s' = Ok (if returns_value c then i32 (td_retval (ks s')) else 0, s')) ->
  (forall ok res k1, api_after c ok k res k1 k1 None) ->
  contract c st.
Proof.
  intros Hc Hs Ht He Hts Hreq Hmem Hlast Hafter. unfold contract, api_result. rewrite Hreq, Hc.
  destruct (kernel k (ks st0)) as [[rc r] k1] eqn:HE. unfold plain.
  rewrite !run_bind, (run_call _ _ _ _ _ HE). unfold or_fail.
  destruct (Z.eqb_spec rc 0) as [->|Hrc]; cbn [negb].
  - rewrite Hlast. eexists _, _, _. split; [done|]. split; [done|]. exists (ks st0). rewrite HE. cbn. by split_and!.
  - eexists _, _, _. split; [done|]. split; [done|]. exists (ks st0). rewrite HE, (proj2 (Z.eqb_neq rc 0) Hrc). by split_and!.
Qed.

(** The value is 0, or [td_retval]. *)
Lemma simple_call_0 {R} (k : kcall R) (c : api_call) (st : sys K) :
  api c = plain ('(rc, _) ← call k; or_fail rc (mret rc)) -> returns_value c = false ->
  api_request c (mem (ks st)) = Some (Req k) -> memory_at_call c (mem (ks st)) (mem (ks st)) ->
  (forall ok res k1, api_after c ok k res k1 k1 None) -> contract c st.
Proof. intros Hc Hv Hr Hm Ha. apply (simple_call k c st st mret); try done; [by rewrite Hc|]. intros s'. by rewrite Hv. Qed.

Lemma simple_call_value {R} (k : kcall R) (c : api_call) (st : sys K) :
  api c = plain ('(rc, _) ← call k; or_fail rc retval) -> returns_value c = true ->
  api_request c (mem (ks st)) = Some (Req k) -> memory_at_call c (mem (ks st)) (mem (ks st)) ->
  (forall ok res k1, api_after c ok k res k1 k1 None) -> contract c st.
Proof. intros Hc Hv Hr Hm Ha. apply (simple_call k c st st (fun _ => retval)); try done; [by rewrite Hc|]. intros s'. by rewrite Hv. Qed.

(** A call whose arguments are refused. *)
Lemma refused_call (c : api_call) (st : sys K) :
  api c = plain (kern_fail LAZYBSD_EINVAL) -> message c = None -> api_request c (mem (ks st)) = None -> contract c st.
Proof. intros Hc Hm Hreq. unfold contract, api_result. rewrite Hreq, Hc. eexists _, _, _. split; [reflexivity|]. by split_and!. Qed.

(** *** Addresses *)

(** The state with an address in the local copy. *)
Lemma pass_address addr len st :
  address_ok addr len ->
  exists m0, in_memory (linux2freebsd_sockaddr addr len bsdaddr) st =
      Ok ((), Sys (with_mem m0 (ks st)) (lazybsd_errno st) (current_ts st)) /\
    forall c, api_address c = Some (addr, len) -> memory_at_call c (mem (ks st)) m0.
Proof.
  intros [->|[Hlen Hap]]; unfold in_memory.
  - eexists. split; [done|]. intros c Hc. unfold memory_at_call. by rewrite Hc.
  - destruct (Z.eqb_spec addr 0) as [->|Ha].
    { eexists. split; [done|]. intros c Hc. unfold memory_at_call. by rewrite Hc. }
    destruct (linux2freebsd_sockaddr_spec addr len bsdaddr (mem (ks st)))
      as (m0 & HE & L & F & D & O); [done..|].
    rewrite HE. exists m0. split; [done|]. intros c Hc. unfold memory_at_call. rewrite Hc.
    by rewrite (proj2 (Z.eqb_neq addr 0) Ha).
Qed.

Lemma bind_contract s addr len st : address_ok addr len -> contract (A_bind s addr len) st.
Proof.
  intros Hok. destruct (pass_address addr len st Hok) as (m0 & HE & Hm).
  eapply (simple_call _ (A_bind s addr len) st (Sys (with_mem m0 (ks st)) (lazybsd_errno st) (current_ts st)) mret); try done; [|by apply Hm].
  cbn [api]. unfold plain, lazybsd_bind. by rewrite !run_bind, HE.
Qed.

Lemma connect_contract s addr len st : address_ok addr len -> contract (A_connect s addr len) st.
Proof.
  intros Hok. destruct (pass_address addr len st Hok) as (m0 & HE & Hm).
  eapply (simple_call _ (A_connect s addr len) st (Sys (with_mem m0 (ks st)) (lazybsd_errno st) (current_ts st)) mret); try done; [|by apply Hm].
  cbn [api]. unfold plain, lazybsd_connect. by rewrite !run_bind, HE.
Qed.

Lemma sendto_contract s buf n flags addr len st : address_ok addr len -> contract (A_sendto s buf n flags addr len) st.
Proof.
  intros Hok. destruct (pass_address addr len st Hok) as (m0 & HE & Hm).
  set (c := A_sendto s buf n flags addr len).
  destruct (Z.eqb_spec addr 0) as [->|Ha].
  - eapply (simple_call _ c st st (fun _ => retval)); try done. by intros [].
  - eapply (simple_call _ c st (Sys (with_mem m0 (ks st)) (lazybsd_errno st) (current_ts st)) (fun _ => retval)); try done; [|by apply Hm|by intros []].
    cbn [api c]. unfold plain, lazybsd_sendto, local_name. rewrite (proj2 (Z.eqb_neq addr 0) Ha).
    cbn [negb]. by rewrite !run_bind, HE.
Qed.

(** A name that goes to the caller. *)
Lemma freebsd2linux_name_out addr pf k m : addr <> 0 -> pf <> 0 -> freebsd2linux_sockaddr addr pf (mem k) = Ok m ->
  name_out addr pf k (with_mem m k).
Proof.
  intros Ha Hp E. exists m. split; [done|]. rewrite (proj2 (Z.eqb_neq addr 0) Ha), (proj2 (Z.eqb_neq pf 0) Hp). cbn [orb].
  split; [done|]. intros Hlen Hap. destruct (freebsd2linux_sockaddr_spec addr pf (mem k) (load 1 (mem k) pf)) as (m' & E' & F); try done.
  rewrite E in E'. by injection E' as ->.
Qed.
Lemma no_name_out addr pf k : addr = 0 \/ pf = 0 -> name_out addr pf k k.
Proof. intros Ho. exists (mem k). split; [by destruct k|]. destruct Ho as [-> | ->]; by rewrite ?orb_true_r. Qed.

(** *** Messages *)

Lemma freebsd2linux_msghdr_sent fuel l f m :
  freebsd2linux_msghdr fuel (Some l) (Some f) true m =
    Ok (0, Some (Msghdr (msg_name l) (msg_namelen l) (msg_iov f) (msg_iovlen f)
                   (msg_control l) (msg_controllen l) (msg_flags f)), m).
Proof. unfold freebsd2linux_msghdr. rewrite !andb_false_r. cbn. by rewrite andb_false_r. Qed.

(** The header for the stack. *)
Lemma linux2freebsd_msghdr_send l m : msg_control l = 0 ->
  linux2freebsd_msghdr 0 (Some l) (Some (Msghdr bsdaddr indet [] indet 0 indet indet)) true m =
    match (if msg_name l =? 0 then Ok m else linux2freebsd_sockaddr (msg_name l) (msg_namelen l) bsdaddr m) with
    | Ok m => Ok (0, Some (Msghdr (local_name (msg_name l)) (msg_namelen l) (msg_iov l)
        (msg_iovlen l) (msg_control l) (msg_controllen l) (msg_flags l)), m)
    | Panic => Panic | Diverge => Diverge end.
Proof.
  intros Hctl. unfold linux2freebsd_msghdr, local_name. cbn [msg_name msg_control].
  rewrite Hctl, (proj2 (Z.eqb_neq bsdaddr 0) bsdaddr_nonnull).
  destruct (Z.eqb_spec (msg_name l) 0) as [E|E]; cbn; [by rewrite E|].
  by destruct (linux2freebsd_sockaddr _ _ _ m).
Qed.

Lemma sendmsg_contract s l flags st :
  msg_control l = 0 -> address_ok (msg_name l) (msg_namelen l) -> contract (A_sendmsg s (Some l) flags) st.
Proof.
  intros Hctl Hok. set (c := A_sendmsg s (Some l) flags).
  assert (exists m1, (if msg_name l =? 0 then Ok (mem (ks st))
      else linux2freebsd_sockaddr (msg_name l) (msg_namelen l) bsdaddr (mem (ks st))) = Ok m1 /\
    memory_at_call c (mem (ks st)) m1) as (m1 & HE1 & Hm1).
  { destruct (Z.eqb_spec (msg_name l) 0) as [E|E].
    - eexists. split; [done|]. unfold memory_at_call, c, api_address. by rewrite E.
    - destruct (pass_address _ _ st Hok) as (m0 & HE & Hm). exists m0. split; [|by apply Hm].
      unfold in_memory in HE. destruct (linux2freebsd_sockaddr _ _ _ _); [|done..]. by injection HE as ->. }
  unfold contract, api_result. cbn [api_request c].
  set (k := sendit s _ flags). set (k0 := with_mem m1 (ks st)).
  destruct (kernel k k0) as [[rc f] k1] eqn:HK.
  cbn [api c]. unfold lazybsd_sendmsg. rewrite Hctl. cbn [Z.eqb negb andb].
  rewrite !run_bind. cbn [mret M_ret]. cbv beta iota. rewrite run_bind.
  unfold in_memory_with at 1. rewrite linux2freebsd_msghdr_send, HE1 by done.
  cbn [Z.ltb Z.compare]. rewrite run_bind, (run_call k (Sys k0 _ _) _ _ _ HK).
  destruct (Z.eqb_spec rc 0) as [->|Hrc]; cbn [negb].
  - rewrite run_bind. cbn [retval]. rewrite run_bind. unfold in_memory_with at 1.
    rewrite freebsd2linux_msghdr_sent. eexists _, _, _. split; [reflexivity|]. split; [done|]. exists k0.
    rewrite HK. split_and!; try done. cbn [api_after wants k ks]. split; [by destruct k1|]. done.
  - rewrite run_bind. eexists _, _, _. split; [reflexivity|]. split; [done|]. exists k0.
    rewrite HK, (proj2 (Z.eqb_neq rc 0) Hrc). done.
Qed.

Lemma linux2freebsd_msghdr_recv fuel l f m :
  linux2freebsd_msghdr fuel (Some l) (Some f) false m =
    Ok (0, Some (Msghdr (msg_name l) (msg_namelen l) (msg_iov l) (msg_iovlen l)
                   (msg_control l) (msg_controllen l) (msg_flags l)), m).
Proof. unfold linux2freebsd_msghdr. by rewrite !andb_false_r. Qed.

(** A received address is converted in place. *)
Lemma freebsd2linux_msghdr_received fuel l f (k1 : kstate K) :
  msg_control l = 0 -> let named := negb (msg_name l =? 0) && negb (msg_name f =? 0) in
  exists m', freebsd2linux_msghdr fuel (Some l) (Some f) false (mem k1) =
      Ok (0, Some (Msghdr (if named then msg_name f else msg_name l) (if named then msg_namelen f else msg_namelen l)
        (msg_iov f) (msg_iovlen f) (msg_control l) (msg_controllen l) (msg_flags f)), m') /\
    name_out (if named then msg_name f else 0) (msg_name f) k1 (with_mem m' k1).
Proof.
  intros Hctl named. unfold freebsd2linux_msghdr. rewrite !andb_true_r. fold named.
  assert (exists m', freebsd2linux_sockaddr (msg_name f) (msg_name f) (mem k1) = Ok m') as [m' HE].
  { unfold freebsd2linux_sockaddr, linux_sa_data. rewrite doc_sa_data, Z.eqb_refl.
    destruct (_ || _); by eexists. }
  destruct named eqn:En.
  - rewrite HE. exists m'. cbn. rewrite Hctl, !andb_false_r. split; [done|]. unfold named in En.
    apply andb_true_iff in En as [_ En%negb_true_iff%Z.eqb_neq]. by apply freebsd2linux_name_out.
  - exists (mem k1). cbn. rewrite Hctl, !andb_false_r. split; [done|]. destruct k1. apply no_name_out. by left.
Qed.

Lemma recvmsg_null_contract s flags st : contract (A_recvmsg s None flags) st.
Proof. destruct st as [[]]. eexists _, _, _. split; [reflexivity|]. by split. Qed.

Lemma recvmsg_contract s l flags st : msg_control l = 0 -> contract (A_recvmsg s (Some l) flags) st.
Proof.
  intros Hctl. set (c := A_recvmsg s (Some l) flags). unfold contract, api_result. cbn [api_request c].
  set (k := kern_recvit s _ _). destruct (kernel k (ks st)) as [[rc f] k1] eqn:HK.
  cbn [api c]. unfold lazybsd_recvmsg. rewrite !run_bind. unfold in_memory_with at 1.
  rewrite linux2freebsd_msghdr_recv. rewrite <- sys_eta. cbn [Z.ltb Z.compare].
  cbn [msg_name msg_namelen msg_iov msg_iovlen msg_control msg_controllen].
  fold k. rewrite run_bind, (run_call k st _ _ _ HK).
  destruct (Z.eqb_spec rc 0) as [->|Hrc]; cbn [negb].
  - rewrite run_bind. cbn [retval]. rewrite run_bind. unfold in_memory_with at 1.
    destruct (freebsd2linux_msghdr_received 0 l f k1 Hctl) as (m' & HE & Hn).
    cbn [ks]. rewrite HE. eexists _, _, _. split; [reflexivity|]. split; [done|]. exists (ks st).
    rewrite HK. split_and!; done.
  - rewrite run_bind. eexists _, _, _. split; [reflexivity|]. split; [done|]. exists (ks st).
    rewrite HK, (proj2 (Z.eqb_neq rc 0) Hrc). done.
Qed.

(** A store in the memory of the caller, where it asks for one. *)
Lemma run_put_word n addr v k1 e ts :
  (if negb (addr =? 0) then write n addr v else mret ()) (Sys k1 e ts) = Ok ((), Sys (put n addr v k1) e ts).
Proof. unfold put. by destruct (addr =? 0). Qed.

Lemma recvfrom_contract s buf n flags from fromlen st :
  fromlen = 0 \/ fromlen + 4 <= bsdaddr \/ bsdaddr + 128 <= fromlen ->
  contract (A_recvfrom s buf n flags from fromlen) st.
Proof.
  intros Hap. unfold contract, api_result. cbn [api_request].
  set (k := kern_recvit s _ _). destruct (kernel k (ks st)) as [[rc f] k1] eqn:HK.
  cbn [api]. unfold plain, lazybsd_recvfrom. rewrite !run_bind.
  assert ((if negb (fromlen =? 0) then read 4 fromlen else mret 0) st =
    Ok (if fromlen =? 0 then 0 else load 4 (mem (ks st)) fromlen, st)) as ->
    by (by destruct (fromlen =? 0)).
  fold (one_iov buf n). fold k. rewrite run_bind, (run_call k st _ _ _ HK). unfold or_fail.
  destruct (Z.eqb_spec rc 0) as [->|Hrc]; cbn [negb].
  - rewrite run_bind. cbn [retval]. rewrite run_bind, run_put_word, run_bind. set (k2 := put _ _ _ _).
    assert (exists k3, (if negb (from =? 0) && negb (msg_namelen f =? 0)
      then in_memory (freebsd2linux_sockaddr from bsdaddr) else mret ()) (Sys k2 (lazybsd_errno st) (current_ts st)) =
        Ok ((), Sys k3 (lazybsd_errno st) (current_ts st)) /\
      name_out from (if msg_namelen f =? 0 then 0 else bsdaddr) k2 k3) as (k3 & -> & Hn).
    { destruct (Z.eqb_spec (msg_namelen f) 0) as [|Hf]; [rewrite andb_false_r; exists k2; split; [done|apply no_name_out; by right]|].
      destruct (Z.eqb_spec from 0) as [|Hfr]; [exists k2; split; [done|apply no_name_out; by left]|]. cbn [andb negb].
      destruct (freebsd2linux_sockaddr_total from bsdaddr (mem k2)) as [m3 HE3].
      { assert (load 1 (mem k2) (bsdaddr + sa_len) = load 1 (mem k1) (bsdaddr + sa_len)) as ->.
        { unfold k2, put. destruct (Z.eqb_spec fromlen 0); [done|]. apply load_store_sep.
          rewrite doc_sa_len. lia. }
        by apply (doc_recvit _ _ _ _ _ _ HK). }
      exists (with_mem m3 k2). unfold in_memory. cbn [ks]. rewrite HE3. split; [done|]. by apply freebsd2linux_name_out. }
    eexists _, _, _. split; [reflexivity|]. split; [done|]. exists (ks st). rewrite HK. split_and!; done.
  - eexists _, _, _. split; [reflexivity|]. split; [done|]. exists (ks st).
    rewrite HK, (proj2 (Z.eqb_neq rc 0) Hrc). done.
Qed.

Lemma recv_contract s buf n flags st : contract (A_recv s buf n flags) st.
Proof. apply (recvfrom_contract s buf n flags 0 0 st). by left. Qed.

(** *** Names the stack returns *)

Lemma run_free_name pf k1 e ts : free_name pf (Sys k1 e ts) = Ok ((), Sys (freed pf k1) e ts).
Proof.
  unfold free_name, freed. destruct (Z.eqb_spec pf 0); cbn [negb]; [done|].
  rewrite run_bind. unfold call. by destruct (kernel (free pf) _) as [[? ?] k2].
Qed.

Lemma run_convert_name addr pf k1 e ts :
  (pf <> 0 -> 2 <= load 1 (mem k1) (pf + sa_len)) ->
  exists k2, (if negb (addr =? 0) && negb (pf =? 0)
    then in_memory (freebsd2linux_sockaddr addr pf) else mret ()) (Sys k1 e ts) =
    Ok ((), Sys k2 e ts) /\ name_out addr pf k1 k2.
Proof.
  intros Hlen. destruct (Z.eqb_spec pf 0) as [->|Hpf].
  { rewrite andb_false_r. exists k1. split; [done|apply no_name_out; by right]. }
  destruct (Z.eqb_spec addr 0) as [|Ha]; [exists k1; split; [done|apply no_name_out; by left]|].
  cbn [andb negb]. destruct (freebsd2linux_sockaddr_total addr pf (mem k1)) as [m HE]; [by apply Hlen|].
  exists (with_mem m k1). unfold in_memory. cbn [ks]. rewrite HE. split; [done|]. by apply freebsd2linux_name_out.
Qed.

(** [lazybsd_getpeername] and [lazybsd_getsockname]. *)
Lemma get_name_contract (k : kcall Z) c name st :
  api c = plain ('(rc, pf) ← call k;
    if negb (rc =? 0) then _ ← free_name pf; kern_fail rc
    else
      _ ← (if negb (name =? 0) && negb (pf =? 0)
           then in_memory (freebsd2linux_sockaddr name pf) else mret ());
      _ ← free_name pf;
      mret rc) ->
  returns_value c = false -> api_request c (mem (ks st)) = Some (Req k) ->
  memory_at_call c (mem (ks st)) (mem (ks st)) ->
  (forall pf k1, kernel k (ks st) = (0, pf, k1) -> pf <> 0 -> 2 <= load 1 (mem k1) (pf + sa_len)) ->
  (forall pf k1 k3, name_out name pf k1 k3 -> api_after c true k pf k1 (freed pf k3) None) ->
  (forall pf k1, api_after c false k pf k1 (freed pf k1) None) ->
  contract c st.
Proof.
  intros Hc Hv Hreq Hmem Hdoc Ha1 Ha2. unfold contract, api_result. rewrite Hreq, Hc.
  destruct (kernel k (ks st)) as [[rc pf] k1] eqn:HK. unfold plain.
  rewrite !run_bind, (run_call k st _ _ _ HK).
  destruct (Z.eqb_spec rc 0) as [->|Hrc]; cbn [negb].
  - destruct (run_convert_name name pf k1 (lazybsd_errno st) (current_ts st)) as (k2 & HE & Hn); [by apply Hdoc|].
    rewrite run_bind, HE, run_bind, run_free_name.
    eexists _, _, _. split; [reflexivity|]. split; [done|]. exists (ks st). rewrite HK, Hv. split_and!; try done. by apply Ha1.
  - rewrite run_bind, run_free_name. eexists _, _, _. split; [reflexivity|]. split; [done|]. exists (ks st).
    rewrite HK, (proj2 (Z.eqb_neq rc 0) Hrc). by split_and!.
Qed.

(** What [lazybsd_accept] does after the stack has accepted a connection. *)
Lemma accept_run s addr addrlen st :
  let c := A_accept s addr addrlen in
  let '(rc, (pf, fp), k1) := kernel (kern_accept s 128) (ks st) in
  if (rc =? 0) && negb (addrlen =? 0) && (pf =? 0) then lazybsd_accept s addr addrlen st = Panic else contract c st.
Proof.
  intros c. destruct (kernel (kern_accept s 128) (ks st)) as [[rc [pf fp]] k1] eqn:HK.
  unfold contract, api_result. cbn [api_request c api]. unfold plain, lazybsd_accept.
  unfold sizeof_sockaddr_storage. rewrite !run_bind, (run_call _ st _ _ _ HK).
  destruct (Z.eqb_spec rc 0) as [->|Hrc]; cbn [negb andb].
  2: { rewrite run_bind, run_free_name. eexists _, _, _. split; [reflexivity|]. split; [done|]. exists (ks st).
       rewrite HK, (proj2 (Z.eqb_neq rc 0) Hrc). done. }
  rewrite !run_bind. cbn [retval]. rewrite !run_bind. unfold call. cbn [ks].
  destruct (kernel (fdrop fp) k1) as [[frc fu] k2] eqn:HF. rewrite !run_bind. cbn [lazybsd_errno current_ts].
  destruct (run_convert_name addr pf k2 (lazybsd_errno st) (current_ts st)) as (k3 & -> & Hn).
  { rewrite (doc_fdrop _ _ _ _ _ HF). by apply (doc_accept _ _ _ _ _ _ HK). }
  assert (forall k4, k4 = freed pf (put 4 addrlen (load 1 (mem k3) (pf + sa_len)) k3) ->
    api_after (A_accept s addr addrlen) true (kern_accept s 128) (pf, fp) k1 k4 None) as Hafter.
  { intros k4 ->. cbn [api_after wants]. split; [done|]. exists k3. by rewrite HF. }
  destruct (Z.eqb_spec addrlen 0) as [->|Hal]; cbn [negb andb].
  - rewrite run_bind. unfold mret at 1, M_ret at 1. cbv beta iota. rewrite run_bind, run_free_name.
    eexists _, _, _. split; [reflexivity|]. split; [done|]. exists (ks st). rewrite HK. split_and!; try done. by apply Hafter.
  - destruct (Z.eqb_spec pf 0) as [->|Hpf]; [by rewrite run_bind|].
    rewrite run_bind. unfold read at 1. rewrite run_bind. unfold write, in_memory at 1. cbn [ks mem].
    rewrite run_bind, run_free_name. eexists _, _, _. split; [reflexivity|]. split; [done|]. exists (ks st).
    rewrite HK. split_and!; try done. apply Hafter. unfold put. by rewrite (proj2 (Z.eqb_neq addrlen 0) Hal).
Qed.

Lemma sysctl_contract name namelen oldp oldlenp newp newlen st : contract (A_sysctl name namelen oldp oldlenp newp newlen) st.
Proof.
  unfold contract, api_result. cbn [api_request api]. unfold plain, lazybsd_sysctl.
  destruct (kernel (userland_sysctl name namelen oldp oldlenp 1 newp newlen) (ks st))
    as [[rc rv] k1] eqn:HK.
  rewrite !run_bind, (run_call _ st _ _ _ HK).
  destruct (Z.eqb_spec rc 0) as [->|Hrc]; cbn [negb].
  - rewrite run_bind, run_put_word. eexists _, _, _. split; [reflexivity|]. split; [done|]. exists (ks st). by rewrite HK.
  - eexists _, _, _. split; [reflexivity|]. split; [done|]. exists (ks st).
    rewrite HK, (proj2 (Z.eqb_neq rc 0) Hrc). done.
Qed.

(** *** Routes *)

(** An address goes to its local copy, and nothing else changes. *)
Lemma run_route_sockaddr sa local k e ts : (sa <> 0 -> local <> 0 /\ apart sa local 16) ->
  exists m, route_sockaddr sa local (Sys k e ts) = Ok (if sa =? 0 then 0 else local, Sys (with_mem m k) e ts) /\
    (sa <> 0 -> copied_name sa 16 local (mem k) m) /\
    (sa = 0 -> m = mem k) /\ (forall a, ~ (local <= a < local + 16) -> rd m a = rd (mem k) a).
Proof.
  intros Hok. unfold route_sockaddr. destruct (Z.eqb_spec sa 0) as [|Hsa]; cbn [negb].
  - exists (mem k). split; [by destruct k|]. by split_and!.
  - destruct (Hok Hsa) as [Hl Hap]. rewrite run_bind. unfold in_memory. cbn [ks].
    destruct (linux2freebsd_sockaddr_spec sa sizeof_linux_sockaddr local (mem k)) as (m & HE & L & F & D & O);
      [done|done|done|by right|]. rewrite HE. exists m. split; [done|]. split_and!; done.
Qed.

Lemma copied_name_ext addr len local m m' m0 m0' : 2 <= len -> copied_name addr len local m m0 ->
  (forall a, addr <= a < addr + len -> rd m' a = rd m a) -> (forall a, local <= a < local + len -> rd m0' a = rd m0 a) ->
  copied_name addr len local m' m0'.
Proof.
  intros Hlen (L & F & D) H1' H2'. split_and!.
  - rewrite <- L. apply load_ext. intros b Hb. apply H2'. lia.
  - rewrite (load_ext 2 m m' addr) in F by (intros b Hb; symmetry; apply H1'; lia). rewrite <- F. apply load_ext. intros b Hb. apply H2'. lia.
  - intros i Hi. rewrite H2', H1', D by lia. done.
Qed.

(** The three addresses of a route, one after the other. *)
Lemma run_route_addresses gw dst nm k e ts :
  Forall (fun l => l <> 0) route_locals -> apart sa_gw sa_dst 16 -> apart sa_gw sa_nm 16 -> apart sa_dst sa_nm 16 ->
  route_address_ok gw -> route_address_ok dst -> route_address_ok nm ->
  exists m1 m2 m3,
    route_sockaddr gw sa_gw (Sys k e ts) = Ok (if gw =? 0 then 0 else sa_gw, Sys (with_mem m1 k) e ts) /\
    route_sockaddr dst sa_dst (Sys (with_mem m1 k) e ts) =
      Ok (if dst =? 0 then 0 else sa_dst, Sys (with_mem m2 k) e ts) /\
    route_sockaddr nm sa_nm (Sys (with_mem m2 k) e ts) =
      Ok (if nm =? 0 then 0 else sa_nm, Sys (with_mem m3 k) e ts) /\
    (gw <> 0 -> copied_name gw 16 sa_gw (mem k) m3) /\ (dst <> 0 -> copied_name dst 16 sa_dst (mem k) m3) /\
    (nm <> 0 -> copied_name nm 16 sa_nm (mem k) m3) /\
    forall a, Forall (fun l => ~ (l <= a < l + 16)) route_locals -> rd m3 a = rd (mem k) a.
Proof.
  intros Hnz A1 A2 A3 Hg Hd Hn. unfold route_locals in *. apply Forall_cons in Hnz as [N1 [N2 [N3 _]%Forall_cons]%Forall_cons].
  assert (forall sa, route_address_ok sa -> sa <> 0 -> apart sa sa_gw 16 /\ apart sa sa_dst 16 /\ apart sa sa_nm 16) as Hap.
  { intros sa [->|Hf] Hsa; [done|]. unfold route_locals in Hf. by rewrite !Forall_cons in Hf; destruct_and!. }
  destruct (run_route_sockaddr gw sa_gw k e ts) as (m1 & E1 & C1 & _ & F1); [intros; split; [done|by apply Hap]|].
  destruct (run_route_sockaddr dst sa_dst (with_mem m1 k) e ts) as (m2 & E2 & C2 & _ & F2); [intros; split; [done|by apply Hap]|].
  destruct (run_route_sockaddr nm sa_nm (with_mem m2 k) e ts) as (m3 & E3 & C3 & _ & F3); [intros; split; [done|by apply Hap]|].
  cbn [mem with_mem] in *. exists m1, m2, m3. unfold apart in A1, A2, A3.
  split; [done|]. split; [done|]. split; [done|]. split_and!.
  - intros Hsa. eapply copied_name_ext; [lia|by apply C1|done|]. intros a Ha. rewrite F3, F2 by lia. done.
  - intros Hsa. destruct (Hap _ Hd Hsa) as (P1 & P2 & P3). unfold apart in *.
    eapply copied_name_ext; [lia|by apply C2| |]; intros a Ha; [rewrite F1|rewrite F3]; solve [done|lia].
  - intros Hsa. destruct (Hap _ Hn Hsa) as (P1 & P2 & P3). unfold apart in *.
    eapply copied_name_ext; [lia|by apply C3| |done]. intros a Ha. rewrite F2, F1 by lia. done.
  - intros a Ha. rewrite !Forall_cons in Ha. destruct Ha as (? & ? & ? & _). by rewrite F3, F2, F1.
Qed.

Lemma route_contract req flag dst gw netmask st :
  api_args_ok (A_route_ctl req flag dst gw netmask) st -> contract (A_route_ctl req flag dst gw netmask) st.
Proof.
  intros [(Hnz & A1 & A2 & A3) (Hg & Hd & Hn)].
  unfold contract, api_result. cbn [api_request api]. unfold plain, lazybsd_route_ctl.
  destruct (route_request req) as [rtreq|]; [|by eexists _, _, _].
  destruct (route_flag flag) as [rtflag|]; [|by eexists _, _, _].
  destruct (run_route_addresses gw dst netmask (ks st) (lazybsd_errno st) (current_ts st))
    as (m1 & m2 & m3 & E1 & E2 & E3 & Hm); [done..|].
  destruct st as [k0 e ts]. cbn [ks lazybsd_errno current_ts] in *.
  rewrite !run_bind, E1, run_bind, E2, run_bind, E3, run_bind. cbn [mbind option_bind].
  set (k := rib_action _ _ _). destruct (kernel k (with_mem m3 k0)) as [[rc u] k1] eqn:HK.
  rewrite (run_call k (Sys (with_mem m3 k0) e ts) _ _ _ HK).
  destruct (Z.eqb_spec rc 0) as [->|Hrc]; cbn [negb];
    (eexists _, _, _; split; [reflexivity|]; split; [done|]; exists (with_mem m3 k0); rewrite HK; cbn [ks]);
    rewrite ?(proj2 (Z.eqb_neq rc 0) Hrc); by split_and!.
Qed.

(** *** All calls *)

(** A call that may refuse its arguments and otherwise asks the stack. *)
Lemma getsockopt_contract s level optname optval optlen st : contract (A_getsockopt s level optname optval optlen) st.
Proof.
  destruct (linux2freebsd_opt (bsd_level level) optname <? 0) eqn:Ho; [apply refused_call|apply (simple_call_0 (kern_getsockopt s (bsd_level level) (linux2freebsd_opt (bsd_level level) optname) optval UIO_USERSPACE optlen))];
    try done; cbn [api api_request]; unfold sock_option, lazybsd_getsockopt; fold (bsd_level level); by rewrite Ho.
Qed.

Lemma setsockopt_contract s level optname optval optlen st : contract (A_setsockopt s level optname optval optlen) st.
Proof.
  destruct (linux2freebsd_opt (bsd_level level) optname <? 0) eqn:Ho; [apply refused_call|apply (simple_call_0 (kern_setsockopt s (bsd_level level) (linux2freebsd_opt (bsd_level level) optname) optval UIO_USERSPACE optlen))];
    try done; cbn [api api_request]; unfold sock_option, lazybsd_setsockopt; fold (bsd_level level); by rewrite Ho.
Qed.

Lemma ioctl_contract fd req argp st : contract (A_ioctl fd req argp) st.
Proof.
  destruct (linux2freebsd_ioctl req <? 0) eqn:Ho; [apply refused_call|apply (simple_call_0 (kern_ioctl fd (linux2freebsd_ioctl req) argp))];
    try done; cbn [api api_request]; unfold lazybsd_ioctl; by rewrite Ho.
Qed.

Lemma read_contract fd buf n st : contract (A_read fd buf n) st.
Proof.
  destruct (INT_MAX <? n) eqn:Hn; [apply refused_call|apply (simple_call_value (kern_readv fd (sys_uio (one_iov buf n) 1 n)))];
    try done; cbn [api api_request]; unfold lazybsd_read; rewrite ?Hn, ?Z.leb_antisym, ?Hn; done.
Qed.

Lemma write_contract fd buf n st : contract (A_write fd buf n) st.
Proof.
  destruct (INT_MAX <? n) eqn:Hn; [apply refused_call|apply (simple_call_value (kern_writev fd (sys_uio (one_iov buf n) 1 n)))];
    try done; cbn [api api_request]; unfold lazybsd_write; rewrite ?Hn, ?Z.leb_antisym, ?Hn; done.
Qed.

Lemma accept_contract s addr addrlen st : api_args_ok (A_accept s addr addrlen) st -> contract (A_accept s addr addrlen) st.
Proof.
  intros Hok. pose proof (accept_run s addr addrlen st) as Hrun. cbv zeta in Hrun.
  destruct (kernel (kern_accept s 128) (ks st)) as [[rc [pf fp]] k1] eqn:HK.
  destruct ((rc =? 0) && negb (addrlen =? 0) && (pf =? 0)) eqn:E; [|done].
  zbool. subst rc pf. destruct Hok as [Hok|Hok]; [by subst addrlen|]. by destruct (Hok _ _ _ HK).
Qed.


(** Accepting a connection whose peer the stack does not name.  [lazybsd_accept]
    reads the length of the peer's address through a pointer it tests for NULL only
    before its other uses: when the stack accepts a connection without a name and the
    caller asks for the length, the call crashes; in every other case it returns. *)
Theorem accept_needs_peer s addr addrlen st pf fp k1 :
  kernel (kern_accept s 128) (ks st) = (0, (pf, fp), k1) ->
  lazybsd_accept s addr addrlen st = Panic <-> addrlen <> 0 /\ pf = 0.
Proof.
  intros HK. pose proof (accept_run s addr addrlen st) as Hrun. cbv zeta in Hrun.
  rewrite HK in Hrun. cbn [Z.eqb andb api] in Hrun.
  destruct (Z.eqb_spec addrlen 0) as [E1|E1], (Z.eqb_spec pf 0) as [E2|E2]; cbn [negb andb] in Hrun;
    first [ by split | split; [|by intros []] ]; destruct Hrun as (r & l & st' & HE & _);
    cbn [api] in HE; unfold plain in HE; rewrite run_bind in HE; intros HP; by rewrite HP in HE.
Qed.

(** The exact total of the first [iovcnt] lengths. *)
Definition iov_total (iov : list iovec) (iovcnt : Z) : Z :=
  foldr (fun v t => iov_len v + t) 0 (take (Z.to_nat iovcnt) iov).

Lemma iov_length_wraps iov iovcnt : iov_length iov iovcnt = i32 (iov_total iov iovcnt).
Proof.
  unfold iov_length, iov_total. set (l := take _ _). clearbody l.
  assert (forall t, i32 t = t -> foldl (fun len v => i32 (len + iov_len v)) t l =
    i32 (t + foldr (fun v t => iov_len v + t) 0 l)) as Hgen.
  { induction l as [|v l IH]; intros t Ht; cbn [foldl foldr]; [by rewrite Z.add_0_r|].
    rewrite IH by (apply i32_id, i32_range). rewrite i32_add_l. f_equal. lia. }
  by rewrite Hgen.
Qed.

(** The residual count of [lazybsd_readv] and [lazybsd_writev].  Unlike
    [lazybsd_read] and [lazybsd_write], which refuse counts above [INT_MAX], they add
    the lengths up in an [int]: the count they give the stack is the total of the
    elements exactly when the total is at most [INT_MAX], and differs from it by a
    multiple of [2^32] otherwise. *)
Theorem iov_length_exact iov iovcnt :
  Forall (fun v => 0 <= iov_len v) iov ->
  (iov_length iov iovcnt = iov_total iov iovcnt <-> iov_total iov iovcnt <= INT_MAX) /\
  in_i32 (iov_length iov iovcnt) /\
  (iov_length iov iovcnt) mod 4294967296 = (iov_total iov iovcnt) mod 4294967296.
Proof.
  intros Hall. rewrite iov_length_wraps. split_and!; [|apply i32_range|apply i32_mod].
  assert (0 <= iov_total iov iovcnt) as Hpos.
  { unfold iov_total. pose proof (Forall_take _ (Z.to_nat iovcnt) _ Hall) as Ht.
    induction Ht; cbn [foldr]; lia. }
  pose proof (i32_range (iov_total iov iovcnt)) as Hr. unfold in_i32, INT_MAX in *. split.
  - intros E. lia.
  - intros Hle. apply i32_id. unfold in_i32. lia.
Qed.
End Calls.

(** ** A concrete stack

    Its state is the number of connections it has accepted.  It names the peer of
    every second connection, at the address 5000, refuses to bind with [EADDRINUSE]
    and has nothing else to say. *)
Definition named_peer (k0 : kstate nat) : kstate nat :=
  Kstate (store 1 (mem k0) 5000 16) (S (stack k0)) 7.

#[local] Instance example_kernel : Kernel nat := fun R k k0 =>
  match k in kcall R return Z * R * kstate nat with
  | kern_accept _ _ =>
      if Nat.even (stack k0) then (0, (5000, 9000), named_peer k0)
      else (0, (0, 9000), Kstate (mem k0) (S (stack k0)) 7)
  | kern_bindat _ _ _ => (LAZYBSD_EADDRINUSE, (), k0)
  | kern_getpeername _ _ => (0, 5000, named_peer k0)
  | kern_getsockname _ _ => (0, 0, k0)
  | sendit _ mp _ => (0, mp, k0)
  | kern_recvit _ mp _ => (0, Msghdr (msg_name mp) 0 (msg_iov mp) (msg_iovlen mp)
                                (msg_control mp) (msg_controllen mp) (msg_flags mp), k0)
  | userland_sysctl _ _ _ _ _ _ _ => (0, 0, k0)
  | malloc _ => (0, 0, k0)
  | sys_socket _ _ _ | kern_getsockopt _ _ _ _ _ _ | kern_setsockopt _ _ _ _ _ _
  | kern_ioctl _ _ _ | kern_close _ | kern_readv _ _ | kern_writev _ _ | kern_fcntl _ _ _
  | fdrop _ | sys_listen _ _ | kern_connectat _ _ _ | sys_shutdown _ _
  | kern_select _ _ _ _ _ _ | kern_poll _ _ _ | sys_dup _ | sys_dup2 _ _
  | rib_action _ _ _ | free _ => (0, (), k0)
  end.

#[local] Instance example_socket_headers : SocketHeaders := {
  AT_FDCWD := -100; RTM_ADD := 1; RTM_DELETE := 2; RTM_CHANGE := 3; RTF_HOST := 4;
  RTF_GATEWAY := 2; RT_DEFAULT_FIB := 0 }.

Lemma load_named_peer k0 : 2 <= load 1 (mem (named_peer k0)) (5000 + sa_len).
Proof. change (5000 + sa_len) with 5000. unfold named_peer. cbn [mem]. by rewrite load_store. Qed.

#[local] Instance example_kernel_doc : KernelDoc (K := nat) (H := example_kernel) (H0 := example_headers).
Proof.
  split.
  - intros s n k0 pf fp k1 HE. unfold kernel, example_kernel in HE.
    destruct (Nat.even (stack k0)); injection HE as <- <- <-; intros Hpf; [|done].
    apply load_named_peer.
  - intros s n k0 pf k1 [= <- <-] _. apply load_named_peer.
  - intros s n k0 pf k1 [= <- <-] Hpf. done.
  - intros s mp seg k0 f k1 [= <- <-] Hn. done.
  - by intros fp k0 rc u k1 [= <- <- <-].
Qed.

(** The local copy is at 300, the address to bind at 100; the stack refuses it. *)
Definition example_state : sys nat := Sys (Kstate example_sockaddr 0%nat 0) 0 (0, 0).


Lemma accept_needs_peer_witness :
  lazybsd_accept 3 0 200 (Sys (Kstate ∅ 1%nat 0) 0 (0, 0)) = Panic.
Proof.
  eapply (accept_needs_peer 300 400 500 600 0 UIO_READ 3 0 200); [reflexivity|].
  split; [lia|reflexivity].
Defined.

(** Two elements of [2^31] bytes: the stack is told of none. *)
Lemma iov_length_exact_witness :
  let iov := [{| iov_base := 4096; iov_len := 2147483648 |};
              {| iov_base := 8192; iov_len := 2147483648 |}] in
  iov_length iov 2 <> iov_total iov 2 /\ iov_length iov 2 = 0.
Proof.
  intros iov. split; [|reflexivity].
  assert (Forall (fun v => 0 <= iov_len v) iov) as Hall by (by repeat constructor).
  destruct (iov_length_exact iov 2 Hall) as [[Hle _] _]. intros E. by apply Hle in E.
Defined.
