(* ===== verification/Kevent.v ===== *)
(** * Kevent: kernel events, [bsd/lib/lazybsd_kevent.c]

    An application changes the events it waits for and takes those that happened
    with one call, [lazybsd_kevent].  The work is done by [kern_kevent] of FreeBSD,
    which takes the changes and gives the events through two callbacks,
    [kevent_copyin] and [kevent_copyout], a few at a time.

    [kern_kevent] is the program [kprog] of an interface: what it does between two
    callbacks is a new state of the kernel, and how it goes on depends on what the
    callback left in memory.  [transcript] says which changes it saw and which events
    it gave; [serves] is what FreeBSD documents about it. *)
From S2P Require Import Prelude Errno KernSubr SockConv SocketApi.

(** [struct kevent]: the identifier, the filter, the flags, the data, the user's
    pointer and four extensions. *)
Definition sizeof_kevent : Z := 64.

Section Kevent.
Context {K : Type}.

(** A program of the kernel with the two callbacks; [kevp] is an array of the kernel of
    [count] events.  It ends with an error number. *)
Inductive kprog :=
| Done (rc : Z) (ks : kstate K)
| CopyOut (kevp count : Z) (ks : kstate K) (k : Z -> kstate K -> kprog)
| CopyIn (kevp count : Z) (ks : kstate K) (k : Z -> kstate K -> kprog).

Class KqueueKernel := {
  kern_kqueue : kstate K -> Z * kstate K;
  kern_kevent (fd nchanges nevents : Z) (timeout : Z * Z) : kstate K -> kprog }.

(** The arguments of the callbacks; a function takes the address of [eventlist] and that of
    an event, so that it can move [eventlist]. *)
Record sys_kevent_args := Ska {
  ska_fd : Z; ska_changelist : Z; ska_nchanges : Z; ska_eventlist : Z; ska_nevents : Z;
  ska_timeout : Z * Z; ska_do_each : option (Z -> Z -> M K Z) }.
Definition set_changelist (a : Z) (x : sys_kevent_args) : sys_kevent_args :=
  Ska (ska_fd x) a (ska_nchanges x) (ska_eventlist x) (ska_nevents x) (ska_timeout x) (ska_do_each x).
Definition set_eventlist (a : Z) (x : sys_kevent_args) : sys_kevent_args :=
  Ska (ska_fd x) (ska_changelist x) (ska_nchanges x) a (ska_nevents x) (ska_timeout x) (ska_do_each x).

Definition with_ks (k : kstate K) (s : sys K) : sys K := Sys k (lazybsd_errno s) (current_ts s).

(** [for (ke = kevp, i = 0; i < count; i++, ke++) uap->do_each(&uap->eventlist, ke);] *)
Fixpoint each (f : Z -> Z -> M K Z) (ke : Z) (count : nat) (eventlist : Z) : M K Z :=
  match count with
  | O => mret eventlist
  | S count => eventlist ← f eventlist ke; each f (u64 (ke + sizeof_kevent)) count eventlist
  end.

Definition kevent_copyout (uap : sys_kevent_args) (kevp count : Z) : M K (Z * sys_kevent_args) :=
  match ska_do_each uap with
  | None =>
      _ ← in_memory (memcpy (ska_eventlist uap) kevp (u64 (count * sizeof_kevent)));
      mret (0, set_eventlist (u64 (ska_eventlist uap + count * sizeof_kevent)) uap)
  | Some do_each =>
      eventlist ← each do_each kevp (Z.to_nat count) (ska_eventlist uap);
      mret (0, set_eventlist eventlist uap)
  end.

Definition kevent_copyin (uap : sys_kevent_args) (kevp count : Z) : M K (Z * sys_kevent_args) :=
  _ ← in_memory (memcpy kevp (ska_changelist uap) (u64 (count * sizeof_kevent)));
  mret (0, set_changelist (u64 (ska_changelist uap + count * sizeof_kevent)) uap).

(** [kern_kevent] with these callbacks. *)
Fixpoint run (p : kprog) (uap : sys_kevent_args) : M K Z := fun s =>
  match p with
  | Done rc ks => Ok (rc, with_ks ks s)
  | CopyOut kevp count ks k =>
      match kevent_copyout uap kevp count (with_ks ks s) with
      | Ok ((e, uap), s) => run (k e (SocketApi.ks s)) uap s | Panic => Panic | Diverge => Diverge
      end
  | CopyIn kevp count ks k =>
      match kevent_copyin uap kevp count (with_ks ks s) with
      | Ok ((e, uap), s) => run (k e (SocketApi.ks s)) uap s | Panic => Panic | Diverge => Diverge
      end
  end.

Context `{KqueueKernel}.

Definition lazybsd_kqueue : M K Z :=
  rc ← (fun s => let '(rc, ks) := kern_kqueue (SocketApi.ks s) in Ok (rc, with_ks ks s));
  or_fail rc retval.

(** The caller's timeout is not used. *)
Definition lazybsd_kevent_do_each (kq changelist nchanges eventlist nevents timeout : Z)
    (do_each : option (Z -> Z -> M K Z)) : M K Z :=
  let ts := (0, 0) in
  let ska := Ska kq changelist nchanges eventlist nevents ts do_each in
  rc ← (fun s => run (kern_kevent kq nchanges nevents ts (SocketApi.ks s)) ska s);
  or_fail rc retval.

Definition lazybsd_kevent (kq changelist nchanges eventlist nevents timeout : Z) : M K Z :=
  lazybsd_kevent_do_each kq changelist nchanges eventlist nevents timeout None.

(** ** What passes between the application and the kernel *)

(** An event at [a], and [n] events from [a] on. *)
Definition event (m : memory) (a : Z) : list Z := (fun i => rd m (a + i)) <$> seqZ 0 sizeof_kevent.
Definition events (m : memory) (a n : Z) : list (list Z) := (fun i => event m (a + i * sizeof_kevent)) <$> seqZ 0 n.

(** [transcript p uap s ins outs rc s']: the program sees the changes [ins], gives the events
    [outs] and ends with [rc] in [s']. *)
Inductive transcript : kprog -> sys_kevent_args -> sys K -> list (list Z) -> list (list Z) -> Z -> sys K -> Prop :=
| transcript_done rc ks uap s : transcript (Done rc ks) uap s [] [] rc (with_ks ks s)
| transcript_out kevp count ks k uap s e uap' s' ins outs rc s'' :
    kevent_copyout uap kevp count (with_ks ks s) = Ok ((e, uap'), s') ->
    transcript (k e (SocketApi.ks s')) uap' s' ins outs rc s'' ->
    transcript (CopyOut kevp count ks k) uap s ins (events (mem ks) kevp count ++ outs) rc s''
| transcript_in kevp count ks k uap s e uap' s' ins outs rc s'' :
    kevent_copyin uap kevp count (with_ks ks s) = Ok ((e, uap'), s') ->
    transcript (k e (SocketApi.ks s')) uap' s' ins outs rc s'' ->
    transcript (CopyIn kevp count ks k) uap s (events (mem (SocketApi.ks s')) kevp count ++ ins) outs rc s''.

Lemma transcript_run p uap s ins outs rc s' : transcript p uap s ins outs rc s' -> run p uap s = Ok (rc, s').
Proof.
  induction 1; [done|..]; cbn [run]; by match goal with E : _ = Ok _ |- _ => rewrite E end.
Qed.

(** An array of the kernel: in the address space, and outside [A]. *)
Definition kernel_array (A : Z -> Prop) (kevp count : Z) : Prop :=
  0 <= kevp /\ kevp + count * sizeof_kevent < 2 ^ 64 /\ forall a, A a -> ~ (kevp <= a < kevp + count * sizeof_kevent).

(** What FreeBSD documents: the kernel leaves the addresses [A] of the application alone, takes
    at most [n] changes and gives at most [m] events; when it takes changes it has given no
    more events than it has taken changes, one at most for each that failed; and it returns the number of
    the events.  [c] and [d] count the changes taken and the events given, [m0] is the
    memory the program was left with. *)
Fixpoint serves (A : Z -> Prop) (n m c d : Z) (m0 : memory) (p : kprog) : Prop :=
  match p with
  | Done rc ks => (forall a, A a -> rd (mem ks) a = rd m0 a) /\ (rc = 0 -> td_retval ks = d)
  | CopyOut kevp count ks k =>
      (forall a, A a -> rd (mem ks) a = rd m0 a) /\ 0 <= count /\ d + count <= m /\
      kernel_array A kevp count /\
      forall ks', serves A n m c (d + count) (mem ks') (k 0 ks')
  | CopyIn kevp count ks k =>
      (forall a, A a -> rd (mem ks) a = rd m0 a) /\ 0 <= count /\ c + count <= n /\ d <= c /\
      kernel_array A kevp count /\
      forall ks', serves A n m (c + count) d (mem ks') (k 0 ks')
  end.

(** The two arrays of the application. *)
Definition arrays (changelist nchanges eventlist nevents : Z) (a : Z) : Prop :=
  changelist <= a < changelist + nchanges * sizeof_kevent \/ eventlist <= a < eventlist + nevents * sizeof_kevent.

Lemma length_events m a n : length (events m a n) = Z.to_nat n.
Proof. unfold events. by rewrite length_fmap, length_seqZ. Qed.

Lemma events_ext m m' a a' n :
  (forall i, 0 <= i < n * sizeof_kevent -> rd m (a + i) = rd m' (a' + i)) -> events m a n = events m' a' n.
Proof.
  intros E. apply list_fmap_ext. intros j i [-> Hi]%lookup_seqZ. apply list_fmap_ext. intros k b [-> Hb]%lookup_seqZ.
  rewrite <- !Z.add_assoc. apply E. unfold sizeof_kevent in *. lia.
Qed.

Lemma events_app m a n n' : 0 <= n -> 0 <= n' ->
  events m a (n + n') = events m a n ++ events m (a + n * sizeof_kevent) n'.
Proof.
  intros Hn Hn'. unfold events. rewrite seqZ_app, fmap_app by done. f_equal.
  replace (0 + n) with (n + 0) by lia. rewrite <- fmap_add_seqZ, <- list_fmap_compose.
  apply list_fmap_ext. intros k i _. cbn. f_equal. lia.
Qed.

(** ** A function for each event *)

(** A function that stores the event and moves the array on. *)
Definition store_event (eventlist ke : Z) : M K Z :=
  _ ← in_memory (memcpy eventlist ke sizeof_kevent); mret (u64 (eventlist + sizeof_kevent)).

Lemma lookup_bcopy src dst n m a : 0 <= n ->
  bcopy src dst n m !! a = if decide (dst <= a < dst + n) then Some (rd m (src + (a - dst))) else m !! a.
Proof.
  intros Hn'. case_decide as Ha; [by apply lookup_bcopy_in|]. unfold bcopy.
  assert (forall i, i ∈ seqZ 0 n -> dst + i <> a) as Hi by (intros i Hi%elem_of_seqZ; lia). revert Hi.
  generalize (seqZ 0 n). intros l. induction l as [|i l IH]; intros Hl; [done|]. cbn [foldr].
  rewrite lookup_insert_ne by (apply Hl; set_solver). apply IH. set_solver.
Qed.

Lemma bcopy_app src dst n n' m : 0 <= n -> 0 <= n' ->
  (forall i, 0 <= i < n' -> ~ (dst <= src + n + i < dst + n)) ->
  bcopy (src + n) (dst + n) n' (bcopy src dst n m) = bcopy src dst (n + n') m.
Proof.
  intros Hp Hp' Ha. apply map_eq. intros a. rewrite !lookup_bcopy by lia.
  destruct (decide (dst + n <= a < dst + n + n')).
  - rewrite rd_bcopy by lia. rewrite decide_False by (replace (src + n + (a - (dst + n))) with (src + n + (a - (dst + n))) by lia; apply Ha; lia).
    rewrite decide_True by lia. do 2 f_equal. lia.
  - repeat case_decide; (done || lia).
Qed.

(** The state after a copy. *)
Definition copied (src dst n : Z) (s : sys K) : sys K :=
  with_ks (Kstate (bcopy src dst n (mem (ks s))) (stack (ks s)) (td_retval (ks s))) s.

Lemma copy_run dst src n s : n <= LONG_MAX -> in_memory (memcpy dst src n) s = Ok ((), copied src dst n s).
Proof. intros Hn. unfold in_memory. by rewrite memcpy_Ok. Qed.

Lemma store_event_run el ke s : store_event el ke s = Ok (u64 (el + sizeof_kevent), copied ke el sizeof_kevent s).
Proof. reflexivity. Qed.

Lemma each_S f ke n el s : each f ke (S n) el s =
  match f el ke s with Ok (el, s) => each f (u64 (ke + sizeof_kevent)) n el s | Panic => Panic | Diverge => Diverge end.
Proof. reflexivity. Qed.

Lemma each_stores n : forall ke el s, 0 <= ke -> ke + Z.of_nat n * sizeof_kevent < 2 ^ 64 ->
  0 <= el -> el + Z.of_nat n * sizeof_kevent < 2 ^ 64 ->
  (ke + Z.of_nat n * sizeof_kevent <= el \/ el + Z.of_nat n * sizeof_kevent <= ke) ->
  each store_event ke n el s = Ok (el + Z.of_nat n * sizeof_kevent, copied ke el (Z.of_nat n * sizeof_kevent) s).
Proof.
  induction n as [|n IH]; intros ke el s H1' H2' H3' H4' Hap.
  - rewrite Z.mul_0_l, Z.add_0_r. by destruct s as [[] ? ?].
  - rewrite Nat2Z.inj_succ in *. rewrite each_S, store_event_run. unfold sizeof_kevent in *.
    rewrite !u64_id by (unfold in_u64; lia). rewrite IH by lia. unfold copied, with_ks. cbn [mem ks stack td_retval lazybsd_errno current_ts].
    rewrite bcopy_app by lia. do 2 f_equal; [lia|]. do 3 f_equal. lia.
Qed.

(** ** The call, without a function for each event *)
Section Arrays.
Context (changelist nchanges eventlist nevents : Z).
Context (Hn : 0 <= nchanges <= INT_MAX) (Hm : 0 <= nevents <= INT_MAX).
Context (Hcl : 0 <= changelist /\ changelist + nchanges * sizeof_kevent < 2 ^ 64).
Context (Hel : 0 <= eventlist /\ eventlist + nevents * sizeof_kevent < 2 ^ 64).

(** The arrays are the same one, or do not overlap. *)
Definition apart_or_same : Prop :=
  changelist = eventlist \/ changelist + nchanges * sizeof_kevent <= eventlist \/
  eventlist + nevents * sizeof_kevent <= changelist.
Context (Hsame : apart_or_same).

#[local] Ltac klia := unfold arrays, apart_or_same, sizeof_kevent in *; lia.
Local Notation A := (arrays changelist nchanges eventlist nevents).

(** The arguments after [c] changes and [d] events. *)
Definition moved_on (c d : Z) (uap : sys_kevent_args) : Prop :=
  ska_changelist uap = changelist + c * sizeof_kevent /\ ska_eventlist uap = eventlist + d * sizeof_kevent /\
  ska_do_each uap = None.

Lemma copyin_run c d uap kevp count s : moved_on c d uap -> 0 <= c -> 0 <= count -> c + count <= nchanges ->
  let uap' := set_changelist (changelist + (c + count) * sizeof_kevent) uap in
  moved_on (c + count) d uap' /\
  kevent_copyin uap kevp count s = Ok (0, uap', copied (changelist + c * sizeof_kevent) kevp (count * sizeof_kevent) s).
Proof.
  unfold sizeof_kevent, INT_MAX in *. intros (E1 & E2 & E3) Hc Hk Hs. split; [done|].
  unfold kevent_copyin, mbind, M_bind. rewrite E1. unfold sizeof_kevent.
  rewrite !u64_id, copy_run by (unfold LONG_MAX, in_u64; lia).
  by replace (changelist + c * 64 + count * 64) with (changelist + (c + count) * 64) by lia.
Qed.

Lemma copyout_run c d uap kevp count s : moved_on c d uap -> 0 <= d -> 0 <= count -> d + count <= nevents ->
  let uap' := set_eventlist (eventlist + (d + count) * sizeof_kevent) uap in
  moved_on c (d + count) uap' /\
  kevent_copyout uap kevp count s = Ok (0, uap', copied kevp (eventlist + d * sizeof_kevent) (count * sizeof_kevent) s).
Proof.
  unfold sizeof_kevent, INT_MAX in *. intros (E1 & E2 & E3) Hc Hk Hs. split; [done|].
  unfold kevent_copyout, mbind, M_bind. rewrite E3, E2. unfold sizeof_kevent.
  rewrite !u64_id, copy_run by (unfold LONG_MAX, in_u64; lia).
  by replace (eventlist + d * 64 + count * 64) with (eventlist + (d + count) * 64) by lia.
Qed.

(** The changes that wait are those of the memory [m0] at the start, as long as no event has
    overtaken them. *)
Definition unread (m0 : memory) (c d : Z) (m : memory) : Prop :=
  changelist <> eventlist \/ d <= c ->
  forall a, changelist + c * sizeof_kevent <= a < changelist + nchanges * sizeof_kevent -> rd m a = rd m0 a.

Lemma serves_run m0 p : forall c d uap s,
  serves A nchanges nevents c d (mem (SocketApi.ks s)) p -> moved_on c d uap ->
  0 <= c <= nchanges -> 0 <= d <= nevents -> unread m0 c d (mem (SocketApi.ks s)) ->
  exists ins outs rc s', transcript p uap s ins outs rc s' /\
    c + Z.of_nat (length ins) <= nchanges /\ d + Z.of_nat (length outs) <= nevents /\
    ins = events m0 (changelist + c * sizeof_kevent) (Z.of_nat (length ins)) /\
    outs = events (mem (SocketApi.ks s')) (eventlist + d * sizeof_kevent) (Z.of_nat (length outs)) /\
    (forall a, A a -> ~ (eventlist + d * sizeof_kevent <= a < eventlist + (d + Z.of_nat (length outs)) * sizeof_kevent) ->
      rd (mem (SocketApi.ks s')) a = rd (mem (SocketApi.ks s)) a) /\
    (rc = 0 -> td_retval (SocketApi.ks s') = d + Z.of_nat (length outs)) /\ lazybsd_errno s' = lazybsd_errno s.
Proof.
  induction p as [rc ks|kevp count ks k IH|kevp count ks k IH]; intros c d uap s Hs Hu Hc Hd Hr; cbn [serves] in Hs.
  - destruct Hs as [Hk Hrc]. exists [], [], rc, (with_ks ks s). split; [constructor|]. cbn [length Z.of_nat].
    rewrite !Z.add_0_r. split_and!; try done; try lia. intros a Ha _. by apply Hk.
  - destruct Hs as (Hk & B1 & B2 & (_ & _ & B3) & B4).
    destruct (copyout_run c d uap kevp count (with_ks ks s) Hu) as (Hu' & E); [lia..|].
    set (uap' := set_eventlist _ _) in *. set (s1 := copied _ _ _ _) in E.
    assert (forall a, A a -> rd (mem (SocketApi.ks s1)) a =
      if decide (eventlist + d * sizeof_kevent <= a < eventlist + (d + count) * sizeof_kevent)
      then rd (mem ks) (kevp + (a - (eventlist + d * sizeof_kevent))) else rd (mem (SocketApi.ks s)) a) as Hm1.
    { intros a Ha. unfold s1, copied, with_ks. cbn [SocketApi.ks mem stack td_retval]. rewrite rd_bcopy by (unfold sizeof_kevent; lia). rewrite <- (Hk a Ha).
      unfold sizeof_kevent. repeat case_decide; (done || lia). }
    destruct (IH 0 (SocketApi.ks s1) c (d + count) uap' s1) as (ins & outs & rc & s' & T & Li & Lo & Ei & Eo & Ef & Er & Ee);
      [apply B4|done|lia|lia| |].
    { intros Hcd a Ha. rewrite Hm1 by klia.
      rewrite decide_False by klia. apply Hr; [lia|done]. }
    exists ins, (events (mem ks) kevp count ++ outs), rc, s'. split; [by eapply transcript_out|].
    rewrite length_app, length_events. split_and!; [lia|lia|done| | |intros; rewrite Er by done; lia|done].
    + replace (Z.of_nat _) with (count + Z.of_nat (length outs)) by lia. rewrite events_app by lia. f_equal.
      * apply events_ext. intros i Hi. unfold sizeof_kevent in *. rewrite Ef, Hm1 by klia.
        rewrite decide_True by klia. f_equal. lia.
      * rewrite Eo at 1. f_equal. lia.
    + intros a Ha Hout. unfold sizeof_kevent in *. rewrite Ef by klia. rewrite Hm1 by done. by rewrite decide_False by klia.
  - destruct Hs as (Hk & B1 & B2 & Hdc & (_ & _ & B3) & B4).
    destruct (copyin_run c d uap kevp count (with_ks ks s) Hu) as (Hu' & E); [lia..|].
    set (uap' := set_changelist _ _) in *. set (s1 := copied _ _ _ _) in E.
    assert (forall a, A a -> rd (mem (SocketApi.ks s1)) a = rd (mem (SocketApi.ks s)) a) as Hm1.
    { intros a Ha. unfold s1, copied, with_ks. cbn [SocketApi.ks mem stack td_retval]. rewrite rd_bcopy by (unfold sizeof_kevent; lia). rewrite decide_False by by apply B3. by apply Hk. }
    destruct (IH 0 (SocketApi.ks s1) (c + count) d uap' s1) as (ins & outs & rc & s' & T & Li & Lo & Ei & Eo & Ef & Er & Ee);
      [apply B4|done|lia|lia| |].
    { intros Hcd a Ha. rewrite Hm1 by klia. apply Hr; klia. }
    exists (events (mem (SocketApi.ks s1)) kevp count ++ ins), outs, rc, s'. split; [by eapply transcript_in|].
    rewrite length_app, length_events. split_and!; [lia|lia| |done| |done|done].
    + replace (Z.of_nat _) with (count + Z.of_nat (length ins)) by lia. rewrite events_app by lia. f_equal.
      * apply events_ext. intros i Hi. unfold sizeof_kevent in *. unfold s1, copied, with_ks. cbn [SocketApi.ks mem stack td_retval]. rewrite rd_bcopy, decide_True by klia.
        rewrite Hk by klia. rewrite Hr by klia. f_equal. lia.
      * rewrite Ei at 1. f_equal. lia.
    + intros a Ha Hout. rewrite Ef by done. by apply Hm1.
Qed.

Context (kq timeout : Z).

(** C16. One call of [lazybsd_kevent] hands the kernel the changes of the caller's array in
    order, puts the events the kernel gives one after the other into the caller's other array and
    nowhere else, and returns how many there are, or [-1] with the error of the kernel
    translated.  It may be the same array: no change is lost to an event. *)
Theorem kevent_serves s :
  serves A nchanges nevents 0 0 (mem (ks s)) (kern_kevent kq nchanges nevents (0, 0) (ks s)) ->
  exists ins outs rc s1 r s2,
    transcript (kern_kevent kq nchanges nevents (0, 0) (ks s)) (Ska kq changelist nchanges eventlist nevents (0, 0) None)
      s ins outs rc s1 /\
    ins = events (mem (ks s)) changelist (Z.of_nat (length ins)) /\
    lazybsd_kevent kq changelist nchanges eventlist nevents timeout s = Ok (r, s2) /\
    outs = events (mem (ks s2)) eventlist (Z.of_nat (length outs)) /\
    (forall a, A a -> ~ (eventlist <= a < eventlist + Z.of_nat (length outs) * sizeof_kevent) ->
      rd (mem (ks s2)) a = rd (mem (ks s)) a) /\
    (rc = 0 /\ r = Z.of_nat (length outs) /\ lazybsd_errno s2 = lazybsd_errno s \/
     rc <> 0 /\ r = -1 /\ lazybsd_errno s2 = lazybsd_os_errno rc).
Proof.
  intros Hs. set (uap := Ska kq changelist nchanges eventlist nevents (0, 0) None).
  destruct (serves_run (mem (ks s)) _ 0 0 uap s Hs) as (ins & outs & rc & s1 & T & Li & Lo & Ei & Eo & Ef & Er & Ee);
    [by unfold moved_on, uap; cbn; rewrite !Z.add_0_r|lia|lia|by intros ???|].
  rewrite Z.mul_0_l, Z.add_0_r in Ei, Eo, Ef.
  pose proof (transcript_run _ _ _ _ _ _ _ T) as R.
  assert (forall k : Z -> M K Z, (rc ← (fun s => run (kern_kevent kq nchanges nevents (0, 0) (ks s)) uap s); k rc) s = k rc s1) as Hb.
  { intros k. unfold mbind, M_bind. by rewrite R. }
  destruct (decide (rc = 0)) as [->|Hrc].
  - exists ins, outs, 0, s1, (Z.of_nat (length outs)), s1. split_and!; try done; [|by left].
    unfold lazybsd_kevent, lazybsd_kevent_do_each. cbv zeta. rewrite Hb. unfold or_fail, retval. cbn [Z.eqb negb].
    rewrite Er, Z.add_0_l, i32_id by (done || (unfold in_i32, INT_MAX in *; lia)). done.
  - exists ins, outs, rc, s1, (-1), (Sys (ks s1) (lazybsd_os_errno rc) (current_ts s1)). split; [done|]. split; [done|].
    split; [|split_and!; [exact Eo|exact Ef|by right]].
    unfold lazybsd_kevent, lazybsd_kevent_do_each. cbv zeta. rewrite Hb. unfold or_fail.
    rewrite (proj2 (Z.eqb_neq rc 0) Hrc). reflexivity.
Qed.


Definition with_do_each (f : Z -> Z -> M K Z) (x : sys_kevent_args) : sys_kevent_args :=
  Ska (ska_fd x) (ska_changelist x) (ska_nchanges x) (ska_eventlist x) (ska_nevents x) (ska_timeout x) (Some f).

Lemma run_stores p : forall c d uap s,
  serves A nchanges nevents c d (mem (ks s)) p -> moved_on c d uap -> 0 <= c -> 0 <= d ->
  run p (with_do_each store_event uap) s = run p uap s.
Proof.
  induction p as [rc ks|kevp count ks k IH|kevp count ks k IH]; intros c d uap s Hs Hu Hc Hd; cbn [serves] in Hs; [done|..];
    cbn [run].
  - destruct Hs as (_ & B1 & B2 & (R1 & R2 & R3) & B4).
    destruct (copyout_run c d uap kevp count (with_ks ks s) Hu) as (Hu' & ->); [lia..|].
    unfold kevent_copyout, mbind, M_bind. cbn [ska_do_each ska_eventlist with_do_each].
    destruct Hu as (U1 & U2 & U3). rewrite U2, each_stores, Z2Nat.id by
      (rewrite ?Z2Nat.id by done; klia || (destruct (decide (count = 0)); [klia|]; pose proof (R3 (eventlist + d * sizeof_kevent)); pose proof (R3 kevp); klia)).
    rewrite <- (IH 0 _ c (d + count) _ _ (B4 _) Hu' Hc) by lia. unfold mret, M_ret.
    unfold with_do_each, set_eventlist. cbn. do 2 f_equal. lia.
  - destruct Hs as (_ & B1 & B2 & Hdc & _ & B4).
    pose proof (copyin_run c d uap kevp count (with_ks ks s) Hu) as (Hu' & E); [lia..|]. rewrite E.
    rewrite <- (IH 0 _ (c + count) d _ _ (B4 _) Hu') by lia.
    unfold kevent_copyin, mbind, M_bind in *. cbn [ska_changelist with_do_each].
    destruct (in_memory _ _) as [[[] s1]| |]; [|done..]. unfold mret, M_ret in *. injection E as E1 E2.
    unfold set_changelist, with_do_each in *. cbn [ska_changelist ska_fd ska_nchanges ska_eventlist ska_nevents ska_timeout] in *.
    by rewrite E1, E2.
Qed.

(** With a function that stores the event it is shown and moves the array on,
    [lazybsd_kevent_do_each] is [lazybsd_kevent]: the events go to the function one by one, in
    order, each once, and what it makes of the array is kept. *)
Theorem kevent_do_each_stores s :
  serves A nchanges nevents 0 0 (mem (ks s)) (kern_kevent kq nchanges nevents (0, 0) (ks s)) ->
  lazybsd_kevent_do_each kq changelist nchanges eventlist nevents timeout (Some store_event) s =
  lazybsd_kevent kq changelist nchanges eventlist nevents timeout s.
Proof.
  intros Hs. unfold lazybsd_kevent, lazybsd_kevent_do_each, mbind, M_bind. cbv zeta.
  erewrite <- (run_stores _ 0 0 (Ska kq changelist nchanges eventlist nevents (0, 0) None) s); [reflexivity|exact Hs| |done|done].
  by unfold moved_on; cbn; rewrite !Z.add_0_r.
Qed.
End Arrays.
End Kevent.
Arguments KqueueKernel K : clear implicits.

(** ** An example

    A kernel that reports its first change as an event: a program of one [CopyIn] and one [CopyOut]. *)
#[export] Instance example_kqueue : KqueueKernel unit := {
  kern_kqueue ks := (0, Kstate (mem ks) () 3);
  kern_kevent _ nchanges _ _ ks :=
    CopyIn 4096 nchanges ks (fun _ ks => CopyOut 4096 1 ks (fun _ ks => Done 0 (Kstate (mem ks) () 1))) }.

Definition example_changes : memory :=
  <[100 := 7]> (<[108 := 255]> (<[164 := 8]> ∅)).
Definition example_app : sys unit := Sys (Kstate example_changes () 0) 0 (0, 0).

Lemma example_serves : serves (arrays 100 2 100 2) 2 2 0 0 example_changes (kern_kevent 3 2 2 (0, 0) (ks example_app)).
Proof.
  assert (forall n, n <= 2 -> kernel_array (arrays 100 2 100 2) 4096 n) as Ha.
  { intros n Hn. unfold kernel_array, arrays, sizeof_kevent. split_and!; lia. }
  cbn [serves kern_kevent example_kqueue]. split_and!; try done; [by apply Ha|]. intros ks'.
  split_and!; try done; by apply Ha.
Qed.

Lemma kevent_serves_witness : exists r s2,
  lazybsd_kevent 3 100 2 100 2 0 example_app = Ok (r, s2) /\ r = 1 /\
  events (mem (ks s2)) 100 1 = events example_changes 100 1.
Proof.
  destruct (kevent_serves 100 2 100 2 ltac:(done) ltac:(done) ltac:(done) ltac:(done) ltac:(by left) 3 0 example_app
    example_serves) as (ins & outs & rc & s1 & r & s2 & _ & _ & E & _).
  exists r, s2. split; [done|]. split; vm_compute in E; injection E as <- <-; by vm_compute.
Defined.

Lemma kevent_do_each_stores_witness :
  exists r s2, lazybsd_kevent_do_each 3 100 2 100 2 0 (Some store_event) example_app = Ok (r, s2) /\ r = 1.
Proof.
  rewrite (kevent_do_each_stores 100 2 100 2 ltac:(done) ltac:(done) ltac:(done) ltac:(done) ltac:(by left) 3 0 example_app example_serves).
  eexists _, _. split; [vm_compute; reflexivity|reflexivity].
Defined.

(** The timeout of the caller makes no difference. *)
Lemma kevent_never_waits {K} `{KqueueKernel K} kq changelist nchanges eventlist nevents timeout timeout' :
  lazybsd_kevent kq changelist nchanges eventlist nevents timeout =
  lazybsd_kevent kq changelist nchanges eventlist nevents timeout'.
Proof. reflexivity. Qed.
