(* ===== verification/Prf.v ===== *)
(** * Prf: the formatted output of [bsd/lib/lazybsd_subr_prf.c]

    [kvprintf], the interpreter of format strings behind [printf], with the routines
    it uses: [ksprintn] writes a number in a base, [putbuf] and [kputchar] deliver a
    character.  A string is the list of the bytes in memory from its first one on,
    the terminator included, as values of the (signed) type [char]; reading past the
    list is reading past what the caller owns, and stops the program.  The argument
    list is the list of the values the caller passed, each with the kind of its type;
    fetching one of another kind stops the program.  [hex2ascii] and [toupper] of the
    kernel library are parameters. *)
From Stdlib Require Import Ascii.
From S2P Require Import Prelude.

(** ** Characters *)

Definition ch (a : Ascii.ascii) : Z := Z.of_N (Ascii.N_of_ascii a).
Arguments ch a%_char.

(** The bytes of a string literal, without and with the terminator. *)
Definition text (s : string) : list Z := ch <$> String.list_ascii_of_string s.
Definition cstring (s : string) : list Z := text s ++ [0].

(** [strlen] *)
Fixpoint strlen (s : list Z) : outcome nat :=
  match s with
  | [] => Panic
  | c :: s => if c =? 0 then Ok 0%nat else n ← strlen s; Ok (S n)
  end.

(** [for (n = 0; n < dwidth && p[n]; n++) continue;] *)
Fixpoint strnlen (s : list Z) (dwidth : nat) {struct dwidth} : outcome nat :=
  match dwidth with
  | O => Ok 0%nat
  | S dwidth =>
      match s with
      | [] => Panic
      | c :: s => if c =? 0 then Ok 0%nat else n ← strnlen s dwidth; Ok (S n)
      end
  end.

(** ** Arguments and state *)

(** A value passed to [printf]: an [int] or shorter, a 64-bit integer or a pointer
    printed as a number, a string ([None] is NULL), bytes to dump, a place [%n]
    stores to. *)
Inductive va_value : Type :=
| VInt (v : Z)
| VLong (v : Z)
| VStr (s : option (list Z))
| VBytes (l : list Z)
| VLoc (loc : Z).

(** What is left of the format and of the arguments, the characters delivered so
    far, their count, and the stores of [%n] (place, size, value). *)
Record pstate := Pstate {
  fmt : list Z; args : list va_value; out : list Z; retval : Z; stores : list (Z * Z * Z) }.

Definition with_fmt (l : list Z) (st : pstate) : pstate :=
  Pstate l (args st) (out st) (retval st) (stores st).

(** The macro [PCHAR]. *)
Definition PCHAR (c : Z) (st : pstate) : pstate :=
  Pstate (fmt st) (args st) (out st ++ [c]) (i32 (retval st + 1)) (stores st).
Definition PCHARS (l : list Z) (st : pstate) : pstate := foldl (fun st c => PCHAR c st) st l.

(** [va_arg] *)
Definition va_arg {A} (get : va_value -> option A) (st : pstate) : outcome (A * pstate) :=
  match args st with
  | v :: rest =>
      match get v with
      | Some a => Ok (a, Pstate (fmt st) rest (out st) (retval st) (stores st))
      | None => Panic
      end
  | [] => Panic
  end.
Definition va_int (v : va_value) : option Z := match v with VInt z => Some z | _ => None end.
Definition va_long (v : va_value) : option Z := match v with VLong z => Some z | _ => None end.
Definition va_str (v : va_value) : option (option (list Z)) :=
  match v with VStr s => Some s | _ => None end.
Definition va_bytes (v : va_value) : option (list Z) :=
  match v with VBytes l => Some l | _ => None end.
Definition va_loc (v : va_value) : option Z := match v with VLoc l => Some l | _ => None end.

(** The variables a conversion sets between [%] and its last character. *)
Record spec := Spec {
  ladjust : bool; sharpflag : bool; sign : bool; dot : bool; upper : bool;
  cflag : bool; hflag : bool; jflag : bool; lflag : bool; qflag : bool; tflag : bool;
  zflag : bool; width : Z; dwidth : Z; padc : Z }.

Definition set_ladjust (v : bool) (f : spec) : spec :=
  {| ladjust := v; sharpflag := sharpflag f; sign := sign f; dot := dot f; upper := upper
     f; cflag := cflag f; hflag := hflag f; jflag := jflag f; lflag := lflag f; qflag :=
     qflag f; tflag := tflag f; zflag := zflag f; width := width f; dwidth := dwidth f;
     padc := padc f |}.

Definition set_sharpflag (v : bool) (f : spec) : spec :=
  {| ladjust := ladjust f; sharpflag := v; sign := sign f; dot := dot f; upper := upper f;
     cflag := cflag f; hflag := hflag f; jflag := jflag f; lflag := lflag f; qflag :=
     qflag f; tflag := tflag f; zflag := zflag f; width := width f; dwidth := dwidth f;
     padc := padc f |}.

Definition set_sign (v : bool) (f : spec) : spec :=
  {| ladjust := ladjust f; sharpflag := sharpflag f; sign := v; dot := dot f; upper :=
     upper f; cflag := cflag f; hflag := hflag f; jflag := jflag f; lflag := lflag f;
     qflag := qflag f; tflag := tflag f; zflag := zflag f; width := width f; dwidth :=
     dwidth f; padc := padc f |}.

Definition set_dot (v : bool) (f : spec) : spec :=
  {| ladjust := ladjust f; sharpflag := sharpflag f; sign := sign f; dot := v; upper :=
     upper f; cflag := cflag f; hflag := hflag f; jflag := jflag f; lflag := lflag f;
     qflag := qflag f; tflag := tflag f; zflag := zflag f; width := width f; dwidth :=
     dwidth f; padc := padc f |}.

Definition set_upper (v : bool) (f : spec) : spec :=
  {| ladjust := ladjust f; sharpflag := sharpflag f; sign := sign f; dot := dot f; upper
     := v; cflag := cflag f; hflag := hflag f; jflag := jflag f; lflag := lflag f; qflag
     := qflag f; tflag := tflag f; zflag := zflag f; width := width f; dwidth := dwidth f;
     padc := padc f |}.

Definition set_cflag (v : bool) (f : spec) : spec :=
  {| ladjust := ladjust f; sharpflag := sharpflag f; sign := sign f; dot := dot f; upper
     := upper f; cflag := v; hflag := hflag f; jflag := jflag f; lflag := lflag f; qflag
     := qflag f; tflag := tflag f; zflag := zflag f; width := width f; dwidth := dwidth f;
     padc := padc f |}.

Definition set_hflag (v : bool) (f : spec) : spec :=
  {| ladjust := ladjust f; sharpflag := sharpflag f; sign := sign f; dot := dot f; upper
     := upper f; cflag := cflag f; hflag := v; jflag := jflag f; lflag := lflag f; qflag
     := qflag f; tflag := tflag f; zflag := zflag f; width := width f; dwidth := dwidth f;
     padc := padc f |}.

Definition set_jflag (v : bool) (f : spec) : spec :=
  {| ladjust := ladjust f; sharpflag := sharpflag f; sign := sign f; dot := dot f; upper
     := upper f; cflag := cflag f; hflag := hflag f; jflag := v; lflag := lflag f; qflag
     := qflag f; tflag := tflag f; zflag := zflag f; width := width f; dwidth := dwidth f;
     padc := padc f |}.

Definition set_lflag (v : bool) (f : spec) : spec :=
  {| ladjust := ladjust f; sharpflag := sharpflag f; sign := sign f; dot := dot f; upper
     := upper f; cflag := cflag f; hflag := hflag f; jflag := jflag f; lflag := v; qflag
     := qflag f; tflag := tflag f; zflag := zflag f; width := width f; dwidth := dwidth f;
     padc := padc f |}.

Definition set_qflag (v : bool) (f : spec) : spec :=
  {| ladjust := ladjust f; sharpflag := sharpflag f; sign := sign f; dot := dot f; upper
     := upper f; cflag := cflag f; hflag := hflag f; jflag := jflag f; lflag := lflag f;
     qflag := v; tflag := tflag f; zflag := zflag f; width := width f; dwidth := dwidth f;
     padc := padc f |}.

Definition set_tflag (v : bool) (f : spec) : spec :=
  {| ladjust := ladjust f; sharpflag := sharpflag f; sign := sign f; dot := dot f; upper
     := upper f; cflag := cflag f; hflag := hflag f; jflag := jflag f; lflag := lflag f;
     qflag := qflag f; tflag := v; zflag := zflag f; width := width f; dwidth := dwidth f;
     padc := padc f |}.

Definition set_zflag (v : bool) (f : spec) : spec :=
  {| ladjust := ladjust f; sharpflag := sharpflag f; sign := sign f; dot := dot f; upper
     := upper f; cflag := cflag f; hflag := hflag f; jflag := jflag f; lflag := lflag f;
     qflag := qflag f; tflag := tflag f; zflag := v; width := width f; dwidth := dwidth f;
     padc := padc f |}.

Definition set_width (v : Z) (f : spec) : spec :=
  {| ladjust := ladjust f; sharpflag := sharpflag f; sign := sign f; dot := dot f; upper
     := upper f; cflag := cflag f; hflag := hflag f; jflag := jflag f; lflag := lflag f;
     qflag := qflag f; tflag := tflag f; zflag := zflag f; width := v; dwidth := dwidth f;
     padc := padc f |}.

Definition set_dwidth (v : Z) (f : spec) : spec :=
  {| ladjust := ladjust f; sharpflag := sharpflag f; sign := sign f; dot := dot f; upper
     := upper f; cflag := cflag f; hflag := hflag f; jflag := jflag f; lflag := lflag f;
     qflag := qflag f; tflag := tflag f; zflag := zflag f; width := width f; dwidth := v;
     padc := padc f |}.

Definition set_padc (v : Z) (f : spec) : spec :=
  {| ladjust := ladjust f; sharpflag := sharpflag f; sign := sign f; dot := dot f; upper
     := upper f; cflag := cflag f; hflag := hflag f; jflag := jflag f; lflag := lflag f;
     qflag := qflag f; tflag := tflag f; zflag := zflag f; width := width f; dwidth :=
     dwidth f; padc := v |}.

Definition spec0 : spec :=
  {| ladjust := false; sharpflag := false; sign := false; dot := false; upper := false;
     cflag := false; hflag := false; jflag := false; lflag := false; qflag := false;
     tflag := false; zflag := false; width := 0; dwidth := 0; padc := ch " " |}.

(** ** Numbers *)

(** [MAXNBUF - 1]: the characters the buffer of [ksprintn] has room for besides the
    terminator, [sizeof(intmax_t) * NBBY]. *)
Definition MAXNBUF_digits : nat := 64.

Section Kvprintf.
Context (hex2ascii toupper : Z -> Z).

(** The loop of [ksprintn]; [room] characters of the buffer are left, [acc] are the
    characters written, the last one first. *)
Fixpoint ksprintn_loop (room : nat) (num base : Z) (upper : bool) (acc : list Z)
    : outcome (list Z) :=
  match room with
  | O => Panic
  | S room =>
      if base =? 0 then Panic else
      let c := hex2ascii (num mod base) in
      let acc := (if upper then toupper c else c) :: acc in
      let num := num / base in
      if num =? 0 then Ok acc else ksprintn_loop room num base upper acc
  end.

(** The characters from the pointer returned down to the terminator; [*lenp] is
    their number. [base] is converted to [uintmax_t]. *)
Definition ksprintn (num base : Z) (upper : bool) : outcome (list Z) :=
  ksprintn_loop MAXNBUF_digits num (u64 base) upper [].

(** [while (k-- > 0) PCHAR(c);] *)
Definition pad (k c : Z) : list Z := replicate (Z.to_nat k) c.

(** From the label [number]: the characters delivered. *)
Definition number (f : spec) (base num : Z) : outcome (list Z) :=
  let neg := sign f && (i64 num <? 0) in
  let num := if neg then u64 (- i64 num) else num in
  p ← ksprintn num base (upper f);
  let n := Z.of_nat (length p) in
  let prefix :=
    if sharpflag f && negb (num =? 0) then
      if base =? 8 then [ch "0"] else if base =? 16 then [ch "0"; ch "x"] else []
    else [] in
  let tmp := Z.of_nat (length prefix) + b2z neg in
  let dw := if negb (ladjust f) && (padc f =? ch "0") then width f - tmp else dwidth f in
  let w := i32 (width f - (tmp + Z.max dw n)) in
  let dw := i32 (dw - n) in
  Ok ((if ladjust f then [] else pad w (ch " ")) ++
      (if neg then [ch "-"] else []) ++ prefix ++ pad dw (ch "0") ++ p ++
      (if ladjust f then pad w (ch " ") else [])).

Definition print_number (f : spec) (base num : Z) (st : pstate) : outcome pstate :=
  l ← number f base num; Ok (PCHARS l st).

(** From the labels [handle_nosign] and [handle_sign]. *)
Definition handle_nosign (f : spec) (base : Z) (st : pstate) : outcome pstate :=
  let f := set_sign false f in
  if jflag f || qflag f || tflag f || lflag f || zflag f then
    '(v, st) ← va_arg va_long st; print_number f base (u64 v) st
  else
    '(v, st) ← va_arg va_int st;
    print_number f base (if hflag f then u16 v else if cflag f then u8 v else u32 v) st.

Definition handle_sign (f : spec) (base : Z) (st : pstate) : outcome pstate :=
  if jflag f || qflag f || tflag f || lflag f || zflag f then
    '(v, st) ← va_arg va_long st; print_number f base (u64 v) st
  else
    '(v, st) ← va_arg va_int st;
    print_number f base (u64 (if hflag f then i16 v else if cflag f then i8 v else i32 v)) st.


(** ** The other conversions *)

(** [%b]: the name at the start of [p], and what follows it. *)
Fixpoint bit_name (p : list Z) : outcome (list Z * list Z) :=
  match p with
  | [] => Panic
  | n :: rest =>
      if ch " " <? n then '(l, rest) ← bit_name rest; Ok (n :: l, rest) else Ok ([], p)
  end.

(** [for (tmp = 0; *p;)]; a bit number outside of [1..32] is an undefined shift. *)
Fixpoint bit_names (fuel : nat) (num : Z) (p : list Z) (tmp : bool) {struct fuel} : outcome (list Z) :=
  match p with
  | [] => Panic
  | n :: p =>
      if n =? 0 then Ok (if tmp then [ch ">"] else []) else
      if negb ((1 <=? n) && (n <=? 32)) then Panic else
      match fuel with
      | O => Diverge
      | S fuel =>
          '(name, p) ← bit_name p;
          if Z.testbit num (n - 1)
          then l ← bit_names fuel num p true; Ok ((if tmp then ch "," else ch "<") :: name ++ l)
          else bit_names fuel num p tmp
      end
  end.

Definition conv_b (num : Z) (p : list Z) : outcome (list Z) :=
  match p with
  | [] => Panic
  | base :: p =>
      q ← ksprintn num base false;
      if num =? 0 then Ok q else l ← bit_names (length p) num p false; Ok (q ++ l)
  end.

(** [%D]: [width] bytes with the separator [p] between them. *)
Fixpoint conv_D (width : nat) (up p : list Z) {struct width} : outcome (list Z) :=
  match width with
  | O => Ok []
  | S width =>
      match up with
      | [] => Panic
      | u :: up =>
          let digits := [hex2ascii (Z.shiftr u 4); hex2ascii (Z.land u 15)] in
          match width with
          | O => Ok digits
          | S _ => n ← strlen p; l ← conv_D width up p; Ok (digits ++ take n p ++ l)
          end
      end
  end.

(** [%s] *)
Definition conv_s (f : spec) (s : option (list Z)) : outcome (list Z) :=
  let p := match s with Some p => p | None => cstring "(null)" end in
  n ← (if negb (dot f) then strlen p else strnlen p (Z.to_nat (dwidth f)));
  let w := i32 (width f - Z.of_nat n) in
  Ok ((if negb (ladjust f) then pad w (padc f) else []) ++ take n p ++
      (if ladjust f then pad w (padc f) else [])).

(** The size and the value [%n] stores. *)
Definition conv_n (f : spec) (retval : Z) : Z * Z :=
  if jflag f || qflag f || lflag f then (8, retval)
  else if zflag f then (8, u64 retval)
  else if hflag f then (2, i16 retval)
  else if cflag f then (1, i8 retval)
  else (4, retval).

(** The cases of the [switch] that end a directive; [percent] is the format from its
    [%] on. The boolean is [stop]. *)
Definition conversion (radix : Z) (percent : list Z) (c : Z) (f : spec) (st : pstate)
    : outcome (bool * pstate) :=
  let go m := st ← m; Ok (false, st) in
  if c =? ch "%" then Ok (false, PCHAR c st)
  else if c =? ch "b" then
    go ('(num, st) ← va_arg va_int st;
        '(s, st) ← va_arg va_str st;
        match s with
        | None => Panic
        | Some p => l ← conv_b (u32 num) p; Ok (PCHARS l st)
        end)
  else if c =? ch "c" then go ('(v, st) ← va_arg va_int st; Ok (PCHAR v st))
  else if c =? ch "D" then
    go ('(up, st) ← va_arg va_bytes st;
        '(s, st) ← va_arg va_str st;
        let w := if width f =? 0 then 16 else width f in
        if w <? 0 then Panic else
        match s with
        | None => Panic
        | Some p => l ← conv_D (Z.to_nat w) up p; Ok (PCHARS l st)
        end)
  else if (c =? ch "d") || (c =? ch "i") then go (handle_sign (set_sign true f) 10 st)
  else if c =? ch "n" then
    go ('(loc, st) ← va_arg va_loc st;
        let '(size, v) := conv_n f (retval st) in
        Ok (Pstate (fmt st) (args st) (out st) (retval st) (stores st ++ [(loc, size, v)])))
  else if c =? ch "o" then go (handle_nosign f 8 st)
  else if c =? ch "p" then
    go ('(v, st) ← va_arg va_long st;
        print_number (set_sign false (set_sharpflag (width f =? 0) f)) 16 (u64 v) st)
  else if c =? ch "r" then
    go (if sign f then handle_sign f radix st else handle_nosign f radix st)
  else if c =? ch "s" then
    go ('(s, st) ← va_arg va_str st; l ← conv_s f s; Ok (PCHARS l st))
  else if c =? ch "u" then go (handle_nosign f 10 st)
  else if c =? ch "X" then go (handle_nosign (set_upper true f) 16 st)
  else if c =? ch "x" then go (handle_nosign f 16 st)
  else if c =? ch "y" then go (handle_sign (set_sign true f) 16 st)
  else Ok (true, PCHARS (take (length percent - length (fmt st)) percent) st).

(** The digits of a width or precision, from the second one on. *)
Fixpoint digits (n : Z) (l : list Z) : outcome (Z * list Z) :=
  match l with
  | [] => Panic
  | c :: rest =>
      if (c <? ch "0") || (ch "9" <? c) then Ok (n, l)
      else digits (i32 (n * 10 + c - ch "0")) rest
  end.

(** The [switch] at the label [reswitch]: the characters that go back to it, and the
    others. *)
Fixpoint reswitch (fuel : nat) (radix : Z) (percent : list Z) (f : spec) (st : pstate)
    : outcome (bool * pstate) :=
  match fuel with
  | O => Diverge
  | S fuel =>
      match fmt st with
      | [] => Panic
      | c :: rest =>
          let c := u8 c in
          let st := with_fmt rest st in
          let again f := reswitch fuel radix percent f st in
          if c =? ch "." then again (set_dot true f)
          else if c =? ch "#" then again (set_sharpflag true f)
          else if c =? ch "+" then again (set_sign true f)
          else if c =? ch "-" then again (set_ladjust true f)
          else if c =? ch "*" then
            '(v, st) ← va_arg va_int st;
            reswitch fuel radix percent
              (if negb (dot f) then
                 if v <? 0 then set_width (i32 (- v)) (set_ladjust (negb (ladjust f)) f)
                 else set_width v f
               else set_dwidth v f) st
          else if (c =? ch "0") && negb (dot f) then again (set_padc (ch "0") f)
          else if (ch "0" <=? c) && (c <=? ch "9") then
            '(n, rest) ← digits (c - ch "0") rest;
            reswitch fuel radix percent (if dot f then set_dwidth n f else set_width n f)
              (with_fmt rest st)
          else if c =? ch "h" then
            again (if hflag f then set_cflag true (set_hflag false f) else set_hflag true f)
          else if c =? ch "j" then again (set_jflag true f)
          else if c =? ch "l" then
            again (if lflag f then set_qflag true (set_lflag false f) else set_lflag true f)
          else if c =? ch "q" then again (set_qflag true f)
          else if c =? ch "t" then again (set_tflag true f)
          else if c =? ch "z" then again (set_zflag true f)
          else conversion radix percent c f st
      end
  end.

(** ** [kvprintf] *)

Fixpoint kvprintf_loop (fuel : nat) (radix : Z) (stop : bool) (st : pstate) : outcome pstate :=
  match fuel with
  | O => Diverge
  | S fuel =>
      match fmt st with
      | [] => Panic
      | c :: rest =>
          let c := u8 c in
          if (c =? ch "%") && negb stop then
            '(stop, st) ← reswitch (length (fmt st)) radix (fmt st) spec0 (with_fmt rest st);
            kvprintf_loop fuel radix stop st
          else if c =? 0 then Ok (with_fmt rest st)
          else kvprintf_loop fuel radix stop (PCHAR c (with_fmt rest st))
      end
  end.

(** ["(fmt null)\n"] *)
Definition fmt_null : list Z := text "(fmt null)" ++ [10; 0].

(** The characters delivered to [func], in order, are [out]; [None] is a NULL
    format. *)
Definition kvprintf (fuel : nat) (fmt : option (list Z)) (radix : Z) (args : list va_value)
    : outcome pstate :=
  let fmt := default fmt_null fmt in
  let radix := if (radix <? 2) || (36 <? radix) then 10 else radix in
  kvprintf_loop fuel radix false (Pstate fmt args [] 0 []).


(** ** Delivery to the console *)

(** [struct putchar_arg]; the buffer holds the characters from [p_bufr] up to
    [p_next], [None] is a NULL [p_bufr]. *)
Record putchar_arg := PutcharArg {
  TOCONS : bool; TOLOG : bool; p_bufr : option (list Z); n_bufr : Z; remain : Z }.

(** The C library's [putchar] and [puts], which ends the line. *)
Definition putchar (c : Z) (console : list Z) : list Z := console ++ [u8 c].
Definition puts (s : list Z) (console : list Z) : list Z := console ++ (u8 <$> s) ++ [10].

Definition putbuf (c : Z) (ap : putchar_arg) (console : list Z) : outcome (putchar_arg * list Z) :=
  match p_bufr ap with
  | None => Ok (ap, if TOCONS ap then putchar c console else console)
  | Some b =>
      if n_bufr ap <=? Z.of_nat (length b) + 1 then Panic else
      let b := b ++ [c] in
      let remain := u64 (remain ap - 1) in
      let '(b, remain, console) :=
        if (remain =? 2) || (c =? 10)
        then ([], n_bufr ap, if TOCONS ap then puts b console else console)
        else (b, remain, console) in
      if remain <=? 2 then Panic
      else Ok (PutcharArg (TOCONS ap) (TOLOG ap) (Some b) (n_bufr ap) remain, console)
  end.

Definition kputchar (c : Z) (s : putchar_arg * list Z) : outcome (putchar_arg * list Z) :=
  let '(ap, console) := s in
  if TOCONS ap then putbuf c ap console
  else if TOLOG ap && negb (c =? 0) then putbuf c ap console
  else Ok (ap, console).

Fixpoint kputchars (l : list Z) (s : putchar_arg * list Z) : outcome (putchar_arg * list Z) :=
  match l with
  | [] => Ok s
  | c :: l => s ← kputchar c s; kputchars l s
  end.

(** [vprintf], without [PRINTF_BUFR_SIZE]: the value and the console. *)
Definition vprintf (fuel : nat) (fmt : option (list Z)) (args : list va_value) (console : list Z)
    : outcome (Z * list Z) :=
  st ← kvprintf fuel fmt 10 args;
  '(_, console) ← kputchars (out st) (PutcharArg true true None 0 0, console);
  Ok (retval st, console).

Definition printf (fuel : nat) (fmt : option (list Z)) (args : list va_value) (console : list Z)
    : outcome (Z * list Z) :=
  vprintf fuel fmt args console.

Definition vlog (fuel : nat) (level : Z) (fmt : option (list Z)) (args : list va_value)
    (console : list Z) : outcome (list Z) :=
  '(_, console) ← vprintf fuel fmt args console; Ok console.

(** ** Digits *)

(** The number the digits [ds] stand for in [base]. *)
Definition value (base : Z) (ds : list Z) : Z := foldl (fun a d => a * base + d) 0 ds.

Definition digit_char (upper : bool) (d : Z) : Z :=
  if upper then toupper (hex2ascii d) else hex2ascii d.

Lemma value_app base ds d : value base (ds ++ [d]) = value base ds * base + d.
Proof. unfold value. by rewrite foldl_app. Qed.

Lemma ksprintn_loop_digits room num base upper acc :
  2 <= base -> (0 < room)%nat -> 0 <= num < base ^ Z.of_nat room ->
  exists ds, ksprintn_loop room num base upper acc = Ok ((digit_char upper <$> ds) ++ acc) /\
    value base ds = num /\ Forall (fun d => 0 <= d < base) ds /\ (0 < length ds <= room)%nat /\
    (num <> 0 -> head ds <> Some 0).
Proof.
  intros Hb. revert num acc. induction room as [|room IH]; intros num acc Hr Hn; [lia|].
  cbn [ksprintn_loop]. rewrite (proj2 (Z.eqb_neq base 0)) by lia.
  pose proof (Z.mod_pos_bound num base). pose proof (Z.div_mod num base).
  destruct (Z.eqb_spec (num / base) 0) as [Hz|Hz].
  - exists [num mod base]. split; [done|].
    assert (num = num mod base) as Hnum by nia. split_and!.
    + unfold value. cbn [foldl]. lia.
    + constructor; [lia|done].
    + cbn. lia.
    + cbn. lia.
    + cbn. intros Hne [= E]. lia.
  - assert (0 < room)%nat as Hr'.
    { destruct room; [|lia]. rewrite Z.pow_1_r in Hn. rewrite Z.div_small in Hz by lia. done. }
    assert (0 <= num / base < base ^ Z.of_nat room) as Hn'.
    { split; [apply Z.div_pos; lia|]. apply Z.div_lt_upper_bound; [lia|].
      rewrite Nat2Z.inj_succ, Z.pow_succ_r in Hn by lia. lia. }
    destruct (IH (num / base) ((if upper then toupper (hex2ascii (num mod base))
      else hex2ascii (num mod base)) :: acc) Hr' Hn') as (ds & -> & Hv & Hall & Hlen & Hhd).
    exists (ds ++ [num mod base]). split_and!.
    + f_equal. rewrite fmap_app, <- app_assoc. done.
    + rewrite value_app, Hv. lia.
    + apply Forall_app. split; [done|]. constructor; [lia|done].
    + rewrite length_app. cbn. lia.
    + rewrite length_app. cbn. lia.
    + intros _. destruct ds as [|d ds]; [cbn in Hlen; lia|]. by apply Hhd.
Qed.

(** Every number of 64 bits fits in the buffer of [ksprintn]. *)
Lemma ksprintn_digits num base upper :
  2 <= base <= 36 -> in_u64 num ->
  exists ds, ksprintn num base upper = Ok (digit_char upper <$> ds) /\
    value base ds = num /\ Forall (fun d => 0 <= d < base) ds /\ (0 < length ds <= 64)%nat /\
    (num <> 0 -> head ds <> Some 0).
Proof.
  intros Hb Hn. unfold ksprintn. rewrite u64_id by (unfold in_u64; lia).
  destruct (ksprintn_loop_digits MAXNBUF_digits num base upper []) as (ds & HE & Hv & Hall & Hl & Hh).
  - lia.
  - unfold MAXNBUF_digits. lia.
  - unfold in_u64 in Hn. change (Z.of_nat MAXNBUF_digits) with 64. split; [lia|].
    assert (2 ^ 64 <= base ^ 64) as Hp by (apply Z.pow_le_mono_l; lia).
    change (2 ^ 64) with 18446744073709551616 in Hp. lia.
  - exists ds. rewrite app_nil_r in HE. done.
Qed.


(** ** The layout of a number *)

Definition int_value (f : spec) (num : Z) : Z := if sign f then i64 num else num.

Definition sign_text (v : Z) : list Z := if v <? 0 then [ch "-"] else [].

Definition base_prefix (f : spec) (base v : Z) : list Z :=
  if sharpflag f && negb (v =? 0) then
    if base =? 8 then [ch "0"] else if base =? 16 then [ch "0"; ch "x"] else []
  else [].

Lemma i64_u64_neg num : in_u64 num -> i64 num < 0 -> u64 (- i64 num) = - i64 num.
Proof.
  intros Hn Hneg. pose proof (i64_range num). apply u64_id. unfold in_i64, in_u64 in *. lia.
Qed.

Lemma i64_nonneg num : in_u64 num -> 0 <= i64 num -> i64 num = num.
Proof.
  unfold in_u64, swrap. change (2 ^ (64 - 1)) with 9223372036854775808.
  change (2 ^ 64) with 18446744073709551616. intros Hn Hp.
  destruct (Z.ltb_spec num 9223372036854775808); [rewrite Z.mod_small; lia|].
  rewrite <- (Z_mod_plus_full _ (-1)), Z.mod_small in Hp by lia. lia.
Qed.

Lemma length_pad k c : Z.of_nat (length (pad k c)) = Z.max 0 k.
Proof. unfold pad. rewrite length_replicate. lia. Qed.

(** The number [kvprintf] prints and the sign it puts before it. *)
Lemma number_value f num :
  in_u64 num ->
  let neg := sign f && (i64 num <? 0) in
  (if neg then u64 (- i64 num) else num) = Z.abs (int_value f num) /\
  neg = (int_value f num <? 0) /\ in_u64 (Z.abs (int_value f num)) /\
  ((if neg then u64 (- i64 num) else num) =? 0) = (int_value f num =? 0).
Proof.
  intros Hn neg. assert ((if neg then u64 (- i64 num) else num) = Z.abs (int_value f num) /\
    neg = (int_value f num <? 0)) as [E1 E2].
  { unfold neg, int_value. destruct (sign f); cbn [andb].
    - destruct (Z.ltb_spec (i64 num) 0) as [Hlt|Hge].
      + rewrite i64_u64_neg by done. split; [lia|done].
      + rewrite i64_nonneg in * by done. split; [lia|done].
    - unfold in_u64 in Hn. split; [lia|]. symmetry. apply Z.ltb_ge. lia. }
  rewrite E1. split_and!; [done|done| |].
  - rewrite <- E1. destruct neg; [apply u64_range|done].
  - destruct (Z.eqb_spec (int_value f num) 0), (Z.eqb_spec (Z.abs (int_value f num)) 0); lia.
Qed.

(** The layout of a printed number [v]: spaces on the left, a minus sign if the value
    is negative, the prefix of the alternative form, zeros, the digits of the absolute
    value in the base without leading zeros, spaces on the right.  It is as long as
    the width, or as its parts where they need more; it has spaces on one side only,
    on the left unless adjusted to the left, and none where it is padded with zeros. *)
Definition layout (f : spec) (base v : Z) (l : list Z) : Prop :=
  let zeros := negb (ladjust f) && (padc f =? ch "0") in
  exists ds a z b,
    l = pad a (ch " ") ++ sign_text v ++ base_prefix f base v ++ pad z (ch "0") ++
        (digit_char (upper f) <$> ds) ++ pad b (ch " ") /\
    value base ds = Z.abs v /\ Forall (fun d => 0 <= d < base) ds /\
    (v <> 0 -> head ds <> Some 0) /\
    (zeros = true -> a = 0) /\ (if ladjust f then a = 0 else b = 0) /\ 0 <= a /\ 0 <= z /\ 0 <= b /\
    let parts := Z.of_nat (length (sign_text v ++ base_prefix f base v)) in
    Z.of_nat (length l) =
      Z.max (width f) (parts + Z.max (if zeros then 0 else dwidth f) (Z.of_nat (length ds))).

Lemma number_layout f base num :
  2 <= base <= 36 -> in_u64 num -> 0 <= width f < 2 ^ 30 -> 0 <= dwidth f < 2 ^ 30 ->
  exists l, number f base num = Ok l /\ layout f base (int_value f num) l.
Proof.
  change (2 ^ 30) with 1073741824. intros Hb Hn Hw Hd. unfold layout.
  set (v := int_value f num). set (zeros := negb _ && _).
  destruct (number_value f num Hn) as (Hv & Hneg & Hu & Hz). fold v in Hv, Hneg, Hu, Hz.
  destruct (ksprintn_digits (Z.abs v) base (upper f) Hb Hu) as (ds & HE & Hval & Hall & Hlen & Hhd).
  unfold number. rewrite Hz, Hv, HE. cbn [mbind outcome_bind]. rewrite Hneg.
  rewrite length_fmap. fold (sign_text v). fold (base_prefix f base v). fold zeros.
  assert (b2z (v <? 0) = Z.of_nat (length (sign_text v))) as ->
    by (unfold sign_text; by destruct (v <? 0)).
  set (parts := sign_text v ++ base_prefix f base v).
  replace (Z.of_nat (length (base_prefix f base v)) + Z.of_nat (length (sign_text v)))
    with (Z.of_nat (length parts)) by (unfold parts; rewrite length_app; lia).
  assert (0 <= Z.of_nat (length parts) <= 3) as Hparts.
  { unfold parts, sign_text, base_prefix. rewrite length_app. split_ifs; cbn; lia. }
  set (n := Z.of_nat (length ds)). set (t := Z.of_nat (length parts)) in *.
  set (dw := if zeros then width f - t else dwidth f).
  assert (-3 <= dw < 1073741824) as Hdw by (unfold dw; destruct zeros; lia).
  rewrite !i32_id by (unfold in_i32; lia). set (w := width f - (t + Z.max dw n)).
  eexists. split; [reflexivity|].
  exists ds, (if ladjust f then 0 else Z.max 0 w), (Z.max 0 (dw - n)),
    (if ladjust f then Z.max 0 w else 0).
  assert (forall k c, pad (Z.max 0 k) c = pad k c) as Hpad by (intros k c; unfold pad; f_equal; lia).
  split_and!; try done; try lia.
  - destruct (ladjust f); rewrite !Hpad; done.
  - intros ?. apply Hhd. lia.
  - intros Hzeros. unfold w, dw. rewrite Hzeros. cbv iota. destruct (ladjust f); lia.
  - destruct (ladjust f); done.
  - destruct (ladjust f); lia.
  - destruct (ladjust f); lia.
  - assert (Z.of_nat (length (if ladjust f then [] else pad w (ch " "))) +
      Z.of_nat (length (if ladjust f then pad w (ch " ") else [])) = Z.max 0 w) as Hpads
      by (destruct (ladjust f); rewrite length_pad; cbn; lia).
    fold parts. fold t. rewrite !length_app, length_fmap. fold n.
    assert (Z.of_nat (length (pad (dw - n) (ch "0"))) = Z.max 0 (dw - n)) as Hz0 by apply length_pad.
    assert (t = Z.of_nat (length (sign_text v)) + Z.of_nat (length (base_prefix f base v))) as Ht
      by (unfold t, parts; rewrite length_app; lia).
    rewrite !Nat2Z.inj_add, Hz0. fold n. unfold w in *. clearbody t parts.
    destruct zeros; unfold dw in *; lia.
Qed.

(** ** Termination and the count of characters *)

(** The result is one of a routine that ran to its end on [st]: no fuel was missing;
    the format was not changed, and the count is still that of the characters. *)
Definition counted (st : pstate) : Prop := retval st = i32 (Z.of_nat (length (out st))).

Definition finishes {A} (r : outcome A) : Prop := r <> Diverge.

Definition keeps (st : pstate) (r : outcome pstate) : Prop :=
  finishes r /\ forall st', r = Ok st' -> fmt st' = fmt st /\ (counted st -> counted st').

Lemma finishes_bind {A B} (m : outcome A) (k : A -> outcome B) :
  finishes m -> (forall a, m = Ok a -> finishes (k a)) -> finishes (m ≫= k).
Proof. unfold finishes. destruct m; cbn; auto. Qed.

Lemma strlen_finishes s : finishes (strlen s).
Proof.
  induction s as [|c s IH]; [done|]. cbn [strlen]. destruct (c =? 0); [done|].
  by apply finishes_bind.
Qed.

Lemma strnlen_finishes s k : finishes (strnlen s k).
Proof.
  revert s. induction k as [|k IH]; intros s; [done|]. destruct s as [|c s]; [done|].
  cbn [strnlen]. destruct (c =? 0); [done|]. apply finishes_bind; [apply IH|done].
Qed.

Lemma ksprintn_finishes num base up : finishes (ksprintn num base up).
Proof.
  unfold ksprintn. generalize MAXNBUF_digits, (u64 base), (@nil Z). intros room b. revert num.
  induction room as [|room IH]; intros num acc; [done|]. cbn [ksprintn_loop].
  destruct (b =? 0); [done|]. destruct (num / b =? 0); [done|]. apply IH.
Qed.

Lemma bit_name_shrinks p l rest : bit_name p = Ok (l, rest) -> (length rest <= length p)%nat.
Proof.
  revert l. induction p as [|n p IH]; intros l; [done|]. cbn [bit_name].
  destruct (ch " " <? n); [|by intros [= <- <-]].
  destruct (bit_name p) as [[l' r']| |] eqn:E; cbn; [|done..]. intros [= <- <-].
  specialize (IH l' eq_refl). cbn. lia.
Qed.

Lemma bit_name_finishes p : finishes (bit_name p).
Proof.
  induction p as [|n p IH]; [done|]. cbn [bit_name]. destruct (ch " " <? n); [|done].
  apply finishes_bind; [done|]. by intros [].
Qed.

Lemma bit_names_finishes fuel num p tmp : (length p <= fuel)%nat -> finishes (bit_names fuel num p tmp).
Proof.
  revert p tmp. induction fuel as [|fuel IH]; intros [|n p] tmp Hl; try done.
  { cbn in Hl. lia. }
  cbn [bit_names]. destruct (n =? 0); [done|]. destruct (negb _); [done|].
  apply finishes_bind; [apply bit_name_finishes|]. intros [l rest] E.
  apply bit_name_shrinks in E. cbn in Hl. destruct (Z.testbit _ _); [|apply IH; lia].
  apply finishes_bind; [apply IH; lia|done].
Qed.

Lemma conv_D_finishes w up p : finishes (conv_D w up p).
Proof.
  revert up. induction w as [|w IH]; intros up; [done|]. cbn [conv_D].
  destruct up as [|u up]; [done|]. destruct w; [done|].
  apply finishes_bind; [apply strlen_finishes|]. intros n _.
  by apply finishes_bind.
Qed.

Lemma PCHARS_fields l st :
  fmt (PCHARS l st) = fmt st /\ args (PCHARS l st) = args st /\ out (PCHARS l st) = out st ++ l /\
  stores (PCHARS l st) = stores st /\ (counted st -> counted (PCHARS l st)).
Proof.
  revert st. induction l as [|c l IH]; intros st; [by rewrite app_nil_r|].
  cbn [PCHARS foldl]. fold (PCHARS l (PCHAR c st)).
  destruct (IH (PCHAR c st)) as (-> & -> & -> & -> & Hc). split_and!; try done.
  - cbn. by rewrite <- app_assoc.
  - intros Hst. apply Hc. unfold counted in *. cbn. rewrite length_app, Hst, i32_add_l.
    cbn. f_equal. lia.
Qed.

Lemma keeps_PCHARS l st : keeps st (Ok (PCHARS l st)).
Proof. split; [done|]. intros st' [= <-]. destruct (PCHARS_fields l st) as (-> & _ & _ & _ & ?). done. Qed.

(** A conversion that fetches its argument first. *)
Lemma keeps_va {A} (get : va_value -> option A) st (k : A * pstate -> outcome pstate) :
  (forall a st1, fmt st1 = fmt st -> (counted st -> counted st1) -> keeps st1 (k (a, st1))) ->
  keeps st (va_arg get st ≫= k).
Proof.
  intros Hk. unfold va_arg. destruct (args st) as [|v rest]; [by split|].
  destruct (get v) as [a|]; [|by split]. cbn [mbind outcome_bind].
  set (st1 := Pstate _ _ _ _ _). destruct (Hk a st1 eq_refl (fun H => H)) as [Hf Hok].
  split; [done|]. intros st' E. destruct (Hok st' E) as [-> Hc]. done.
Qed.

Lemma keeps_chars (m : outcome (list Z)) st :
  finishes m -> keeps st (l ← m; Ok (PCHARS l st)).
Proof. intros Hf. destruct m; [|by split|done]. apply keeps_PCHARS. Qed.

Lemma keeps_number f base num st : keeps st (print_number f base num st).
Proof.
  apply keeps_chars. unfold number. apply finishes_bind; [apply ksprintn_finishes|done].
Qed.

Lemma keeps_nosign f base st : keeps st (handle_nosign f base st).
Proof. unfold handle_nosign. destruct (_ || _); apply keeps_va; intros; apply keeps_number. Qed.

Lemma keeps_sign f base st : keeps st (handle_sign f base st).
Proof. unfold handle_sign. destruct (_ || _); apply keeps_va; intros; apply keeps_number. Qed.

Lemma conversion_keeps radix percent c f st :
  finishes (conversion radix percent c f st) /\
  forall stop st', conversion radix percent c f st = Ok (stop, st') ->
    fmt st' = fmt st /\ (counted st -> counted st').
Proof.
  assert (forall m : outcome pstate, keeps st m ->
    finishes (st ← m; Ok (false, st)) /\
    forall stop st', (st ← m; Ok (false, st)) = Ok (stop, st') ->
      fmt st' = fmt st /\ (counted st -> counted st')) as Hgo.
  { intros m [Hf Hok]. split; [by apply finishes_bind|]. intros stop st' E.
    destruct m; [|done..]. injection E as <- <-. by apply Hok. }
  assert (forall (stop : bool) l, finishes (Ok (stop, PCHARS l st)) /\
    forall (stop' : bool) st', Ok (stop, PCHARS l st) = Ok (stop', st') ->
      fmt st' = fmt st /\ (counted st -> counted st')) as Hout.
  { intros stop l. split; [done|]. intros stop' st' [= <- <-].
    destruct (PCHARS_fields l st) as (-> & _ & _ & _ & ?). done. }
  unfold conversion. cbv zeta.
  destruct (c =? ch "%"); [apply (Hout false [c])|].
  destruct (c =? ch "b").
  { apply Hgo, keeps_va. intros num st1 _ _. apply keeps_va. intros [p|] st2 _ _; [|by split].
    apply keeps_chars. destruct p as [|b p]; [done|]. cbn [conv_b].
    apply finishes_bind; [apply ksprintn_finishes|]. intros q _.
    destruct (u32 num =? 0); [done|].
    apply finishes_bind; [by apply bit_names_finishes|done]. }
  destruct (c =? ch "c"); [apply Hgo, keeps_va; intros v st1 _ _; apply (keeps_PCHARS [v])|].
  destruct (c =? ch "D").
  { apply Hgo, keeps_va. intros up st1 _ _. apply keeps_va. intros s st2 _ _.
    destruct (_ <? 0); [by split|]. destruct s as [p|]; [|by split].
    apply keeps_chars, conv_D_finishes. }
  destruct (_ || _); [apply Hgo, keeps_sign|].
  destruct (c =? ch "n").
  { apply Hgo, keeps_va. intros loc st1 E1 C1. destruct (conv_n f (retval st1)) as [size v].
    split; [done|]. by intros st' [= <-]. }
  destruct (c =? ch "o"); [apply Hgo, keeps_nosign|].
  destruct (c =? ch "p"); [apply Hgo, keeps_va; intros; apply keeps_number|].
  destruct (c =? ch "r");
    [apply Hgo; destruct (sign f); [apply keeps_sign|apply keeps_nosign]|].
  destruct (c =? ch "s").
  { apply Hgo, keeps_va. intros s st1 _ _. apply keeps_chars. unfold conv_s.
    apply finishes_bind; [|done].
    destruct (negb (dot f)); [apply strlen_finishes|apply strnlen_finishes]. }
  destruct (c =? ch "u"); [apply Hgo, keeps_nosign|].
  destruct (c =? ch "X"); [apply Hgo, keeps_nosign|].
  destruct (c =? ch "x"); [apply Hgo, keeps_nosign|].
  destruct (c =? ch "y"); [apply Hgo, keeps_sign|].
  apply Hout.
Qed.

Lemma digits_shrinks n l m rest : digits n l = Ok (m, rest) -> (length rest <= length l)%nat.
Proof.
  revert n. induction l as [|c l IH]; intros n; [done|]. cbn [digits].
  destruct (_ || _); [by intros [= <- <-]|]. intros E. apply IH in E. cbn. lia.
Qed.

Lemma digits_finishes n l : finishes (digits n l).
Proof.
  revert n. induction l as [|c l IH]; intros n; [done|]. cbn [digits].
  destruct (_ || _); [done|]. apply IH.
Qed.

(** One turn of [reswitch]: the recursive call has a shorter format. *)
Lemma reswitch_keeps fuel radix percent f st :
  (length (fmt st) < fuel)%nat ->
  finishes (reswitch fuel radix percent f st) /\
  forall stop st', reswitch fuel radix percent f st = Ok (stop, st') ->
    (length (fmt st') <= length (fmt st))%nat /\ (counted st -> counted st').
Proof.
  revert f st. induction fuel as [|fuel IH]; intros f st Hl; [lia|].
  destruct st as [[|c rest] as_ ou rv sts]; [by split|]. cbn [reswitch fmt].
  cbn in Hl. set (st1 := with_fmt rest _).
  assert (forall f st2, (length (fmt st2) <= length rest)%nat -> (counted st1 -> counted st2) ->
    finishes (reswitch fuel radix percent f st2) /\
    forall stop st', reswitch fuel radix percent f st2 = Ok (stop, st') ->
      (length (fmt st') <= length (c :: rest))%nat /\ (counted st1 -> counted st')) as Hrec.
  { intros f2 st2 Hl2 Hc2. destruct (IH f2 st2) as [Hf Hok]; [lia|]. split; [done|].
    intros stop st' E. destruct (Hok stop st' E). cbn. split; [lia|auto]. }
  assert (forall f, finishes (reswitch fuel radix percent f st1) /\
    forall stop st', reswitch fuel radix percent f st1 = Ok (stop, st') ->
      (length (fmt st') <= length (c :: rest))%nat /\ (counted st1 -> counted st')) as Hagain
    by (intros f2; by apply Hrec).
  change (counted (Pstate (c :: rest) as_ ou rv sts)) with (counted st1).
  destruct (_ =? ch "."); [apply Hagain|]. destruct (_ =? ch "#"); [apply Hagain|].
  destruct (_ =? ch "+"); [apply Hagain|]. destruct (_ =? ch "-"); [apply Hagain|].
  destruct (_ =? ch "*").
  { unfold va_arg. destruct (args st1) as [|v va]; [by split|].
    destruct (va_int v); [|by split]. cbn [mbind outcome_bind]. by apply Hrec. }
  destruct (_ && _); [apply Hagain|].
  destruct (_ && _).
  { pose proof (digits_finishes (u8 c - ch "0") rest) as Hd.
    destruct (digits (u8 c - ch "0") rest) as [[n rest']| |] eqn:E; [|by split|done].
    apply digits_shrinks in E. cbn [mbind outcome_bind]. by apply Hrec. }
  destruct (_ =? ch "h"); [apply Hagain|]. destruct (_ =? ch "j"); [apply Hagain|].
  destruct (_ =? ch "l"); [apply Hagain|]. destruct (_ =? ch "q"); [apply Hagain|].
  destruct (_ =? ch "t"); [apply Hagain|]. destruct (_ =? ch "z"); [apply Hagain|].
  destruct (conversion_keeps radix percent (u8 c) f st1) as [Hf Hok]. split; [done|].
  intros stop st' E. destruct (Hok stop st' E) as [-> Hc]. split; [cbn; lia|done].
Qed.

Lemma kvprintf_finishes fuel format radix args :
  (length (default fmt_null format) < fuel)%nat ->
  finishes (kvprintf fuel format radix args) /\
  forall st, kvprintf fuel format radix args = Ok st -> counted st.
Proof.
  unfold kvprintf. generalize (default fmt_null format). intros f. set (r := if (_ : bool) then 10 else radix).
  assert (forall stop st, (length (fmt st) < fuel)%nat -> counted st ->
    finishes (kvprintf_loop fuel r stop st) /\
    forall st', kvprintf_loop fuel r stop st = Ok st' -> counted st') as Hloop;
    [|intros Hl; by apply Hloop].
  induction fuel as [|fuel IH]; intros stop st Hl Hc; [lia|]. cbn [kvprintf_loop].
  destruct (fmt st) as [|c rest] eqn:Ef; [by split|]. cbn in Hl.
  destruct (_ && _).
  - destruct (reswitch_keeps (length (c :: rest)) r (c :: rest) spec0 (with_fmt rest st)) as [Hf Hok];
      [cbn; lia|].
    destruct (reswitch _ _ _ _ _) as [[stop' st']| |]; [|by split|done].
    destruct (Hok stop' st' eq_refl) as [Hl' Hc']. cbn [mbind outcome_bind]. cbn in Hl'.
    apply IH; [lia|by apply Hc'].
  - destruct (u8 c =? 0); [by split; [|intros st' [= <-]]|].
    apply IH; [cbn; lia|].
    destruct (PCHARS_fields [u8 c] (with_fmt rest st)) as (_ & _ & _ & _ & H). by apply H.
Qed.

(** ** Directives *)

(** More fuel changes nothing. *)
Lemma reswitch_mono n m radix percent f st :
  finishes (reswitch n radix percent f st) -> (n <= m)%nat ->
  reswitch m radix percent f st = reswitch n radix percent f st.
Proof.
  revert m f st. induction n as [|n IH]; intros m f st Hf Hm; [done|].
  destruct m as [|m]; [lia|]. assert (n <= m)%nat as Hnm by lia. clear Hm.
  cbn [reswitch] in *. destruct (fmt st) as [|c rest]; [done|].
  set (st1 := with_fmt rest st) in *.
  destruct (_ =? ch "."); [by apply IH|]. destruct (_ =? ch "#"); [by apply IH|].
  destruct (_ =? ch "+"); [by apply IH|]. destruct (_ =? ch "-"); [by apply IH|].
  destruct (_ =? ch "*").
  { destruct (va_arg va_int st1) as [[v st2]| |]; [|done..]. by apply IH. }
  destruct (_ && _); [by apply IH|].
  destruct (_ && _).
  { destruct (digits _ rest) as [[k rest']| |]; [|done..]. by apply IH. }
  destruct (_ =? ch "h"); [by apply IH|]. destruct (_ =? ch "j"); [by apply IH|].
  destruct (_ =? ch "l"); [by apply IH|]. destruct (_ =? ch "q"); [by apply IH|].
  destruct (_ =? ch "t"); [by apply IH|]. destruct (_ =? ch "z"); [by apply IH|]. done.
Qed.

Lemma reswitch_fuel n radix percent f st :
  (length (fmt st) < n)%nat ->
  reswitch n radix percent f st = reswitch (n + 8) radix percent f st.
Proof. intros Hl. symmetry. apply reswitch_mono; [by apply reswitch_keeps|lia]. Qed.

(** What [kvprintf] relies on: [hex2ascii] of the ten digits. *)
Definition hex2ascii_digits : Prop := forall d, 0 <= d < 10 -> hex2ascii d = ch "0" + d.

(** The decimal numeral of a width or precision: [ksprintn] prints it. *)
Definition decimal (n : Z) : list Z :=
  match ksprintn n 10 false with Ok l => l | _ => [] end.

Lemma digits_numeral a ds c rest :
  hex2ascii_digits -> Forall (fun d => 0 <= d < 10) ds -> 0 <= a ->
  foldl (fun a d => a * 10 + d) a ds < 2147483648 ->
  c < ch "0" \/ ch "9" < c ->
  digits a ((digit_char false <$> ds) ++ c :: rest) =
    Ok (foldl (fun a d => a * 10 + d) a ds, c :: rest).
Proof.
  intros Hhex Hall Ha Hlt Hc. revert a Ha Hlt. induction Hall as [|d ds Hd Hall IH]; intros a Ha Hlt.
  - cbn [fmap list_fmap app digits foldl].
    destruct (Z.ltb_spec c (ch "0")), (Z.ltb_spec (ch "9") c); try done. lia.
  - cbn [fmap list_fmap app digits foldl] in *.
    assert (ch "0" = 48 /\ ch "9" = 57) as [E0 E9] by done.
    assert (digit_char false d = 48 + d) as -> by (unfold digit_char; by rewrite Hhex).
    rewrite E0, E9 in *. rewrite (proj2 (Z.ltb_ge (48 + d) 48)), (proj2 (Z.ltb_ge 57 (48 + d))) by lia. cbn [orb].
    assert (forall l t, 0 <= t -> Forall (fun d => 0 <= d < 10) l ->
      t <= foldl (fun a d => a * 10 + d) t l) as Hmono.
    { intros l t Ht Hl. revert t Ht. induction Hl as [|x l Hx Hl IHl]; intros t Ht; cbn [foldl]; [lia|].
      etransitivity; [|apply IHl]; lia. }
    pose proof (Hmono ds (a * 10 + d) ltac:(lia) Hall).
    replace (a * 10 + (48 + d) - 48) with (a * 10 + d) by lia.
    rewrite i32_id by (unfold in_i32; lia). apply IH; [lia|done].
Qed.

(** A numeral is read back by the digit loop of [kvprintf]. *)
Lemma decimal_read n c rest :
  hex2ascii_digits -> 0 <= n < 2147483648 -> c < ch "0" \/ ch "9" < c ->
  exists c0 l, decimal n = c0 :: l /\ ch "0" <= c0 <= ch "9" /\ (n <> 0 -> c0 <> ch "0") /\
    digits (c0 - ch "0") (l ++ c :: rest) = Ok (n, c :: rest).
Proof.
  intros Hhex Hn Hc. unfold decimal.
  destruct (ksprintn_digits n 10 false) as (ds & -> & Hv & Hall & Hlen & Hhd);
    [lia|unfold in_u64; lia|].
  destruct ds as [|d0 ds]; [cbn in Hlen; lia|]. inversion Hall as [|? ? Hd0 Hall']; subst.
  exists (digit_char false d0), (digit_char false <$> ds). split; [done|].
  assert (ch "0" = 48 /\ ch "9" = 57) as [E0 E9] by done.
  assert (digit_char false d0 = 48 + d0) as -> by (unfold digit_char; by rewrite Hhex).
  rewrite E0, E9 in *.
  split_and!; [lia|lia| |].
  - intros Hne E. apply Hhd; [done|]. cbn. f_equal. lia.
  - replace (48 + d0 - 48) with d0 by lia. unfold value in *. cbn [foldl] in *.
    apply digits_numeral; try done; lia.
Qed.

(** The directives for integers. *)
Inductive conv : Type := Conv_d | Conv_u | Conv_o | Conv_x | Conv_X.

Record directive := Directive {
  d_sharp : bool; d_minus : bool; d_zero : bool;
  d_width : option Z; d_prec : option Z; d_long : bool; d_conv : conv }.

Definition conv_char (c : conv) : Z :=
  match c with
  | Conv_d => ch "d" | Conv_u => ch "u" | Conv_o => ch "o" | Conv_x => ch "x" | Conv_X => ch "X"
  end.
Definition conv_base (c : conv) : Z :=
  match c with Conv_d | Conv_u => 10 | Conv_o => 8 | Conv_x | Conv_X => 16 end.
Definition conv_signed (c : conv) : bool := match c with Conv_d => true | _ => false end.

Definition render (d : directive) : list Z :=
  [ch "%"] ++ (if d_sharp d then [ch "#"] else []) ++ (if d_minus d then [ch "-"] else []) ++
  (if d_zero d then [ch "0"] else []) ++
  match d_width d with Some w => decimal w | None => [] end ++
  match d_prec d with Some p => ch "." :: decimal p | None => [] end ++
  (if d_long d then [ch "l"] else []) ++ [conv_char (d_conv d)].

(** The variables of [kvprintf] at the end of the directive. *)
Definition directive_spec (d : directive) : spec := {|
  ladjust := d_minus d; sharpflag := d_sharp d; sign := conv_signed (d_conv d);
  dot := match d_prec d with Some _ => true | None => false end;
  upper := match d_conv d with Conv_X => true | _ => false end;
  cflag := false; hflag := false; jflag := false; lflag := d_long d; qflag := false;
  tflag := false; zflag := false; width := default 0 (d_width d);
  dwidth := default 0 (d_prec d); padc := if d_zero d then ch "0" else ch " " |}.

(** The argument of a directive and the values of its type. *)
Definition directive_arg (d : directive) (v : Z) : va_value := if d_long d then VLong v else VInt v.
Definition directive_range (d : directive) (v : Z) : Prop :=
  match d_long d, conv_signed (d_conv d) with
  | true, true => in_i64 v | true, false => in_u64 v
  | false, true => in_i32 v | false, false => in_u32 v
  end.
Definition directive_ok (d : directive) : Prop :=
  match d_width d with Some w => 0 < w < 2 ^ 30 | None => True end /\
  match d_prec d with Some p => 0 <= p < 2 ^ 30 | None => True end.
Definition directive_num (d : directive) (v : Z) : Z :=
  if d_long d then u64 v else if conv_signed (d_conv d) then u64 (i32 v) else u32 v.

(** The turns of [reswitch] over a directive. *)
Section Steps.
Context (k : nat) (radix : Z) (percent : list Z) (f : spec) (rest : list Z).
Context (as_ : list va_value) (o : list Z) (rv : Z) (sts : list (Z * Z * Z)).

Lemma step_sharp :
  reswitch (S k) radix percent f (Pstate (ch "#" :: rest) as_ o rv sts) =
  reswitch k radix percent (set_sharpflag true f) (Pstate rest as_ o rv sts).
Proof. reflexivity. Qed.

Lemma step_minus :
  reswitch (S k) radix percent f (Pstate (ch "-" :: rest) as_ o rv sts) =
  reswitch k radix percent (set_ladjust true f) (Pstate rest as_ o rv sts).
Proof. reflexivity. Qed.

Lemma step_dot :
  reswitch (S k) radix percent f (Pstate (ch "." :: rest) as_ o rv sts) =
  reswitch k radix percent (set_dot true f) (Pstate rest as_ o rv sts).
Proof. reflexivity. Qed.

Lemma step_l :
  lflag f = false ->
  reswitch (S k) radix percent f (Pstate (ch "l" :: rest) as_ o rv sts) =
  reswitch k radix percent (set_lflag true f) (Pstate rest as_ o rv sts).
Proof.
  intros Hl. transitivity (reswitch k radix percent
    (if lflag f then set_qflag true (set_lflag false f) else set_lflag true f)
    (Pstate rest as_ o rv sts)); [reflexivity|]. by rewrite Hl.
Qed.

Lemma step_zero :
  dot f = false ->
  reswitch (S k) radix percent f (Pstate (ch "0" :: rest) as_ o rv sts) =
  reswitch k radix percent (set_padc (ch "0") f) (Pstate rest as_ o rv sts).
Proof. intros Hd. destruct f. cbn in Hd. subst. reflexivity. Qed.

(** A numeral: the width, or the precision after a dot. *)
Lemma step_numeral n c :
  hex2ascii_digits -> 0 <= n < 2147483648 -> c < ch "0" \/ ch "9" < c -> n <> 0 \/ dot f = true ->
  reswitch (S k) radix percent f (Pstate (decimal n ++ c :: rest) as_ o rv sts) =
  reswitch k radix percent (if dot f then set_dwidth n f else set_width n f)
    (Pstate (c :: rest) as_ o rv sts).
Proof.
  intros Hhex Hn Hc Hdot. destruct (decimal_read n c rest Hhex Hn Hc) as (c0 & l & -> & Hc0 & Hne & HE).
  transitivity ('(n, r) ← digits (c0 - ch "0") (l ++ c :: rest);
    reswitch k radix percent (if dot f then set_dwidth n f else set_width n f)
      (Pstate r as_ o rv sts)); [|by rewrite HE].
  assert (c0 = ch "0" -> dot f = true) as Hz by (destruct Hdot; tauto).
  change (ch "0" <= c0 <= ch "9") with (48 <= c0 <= 57) in Hc0.
  assert (c0 = 48 \/ 49 <= c0) as [->|H49] by lia.
  - specialize (Hz eq_refl). destruct f. cbn in Hz. subst. reflexivity.
  - assert (c0 ∈ [49; 50; 51; 52; 53; 54; 55; 56; 57]) as Hin.
    { replace [49; 50; 51; 52; 53; 54; 55; 56; 57] with (seqZ 49 9) by reflexivity.
      apply elem_of_seqZ. lia. }
    repeat (apply elem_of_cons in Hin as [->|Hin]; [reflexivity|]). set_solver.
Qed.

Lemma step_conv c :
  reswitch (S k) radix percent f (Pstate (conv_char c :: rest) as_ o rv sts) =
  conversion radix percent (conv_char c) f (Pstate rest as_ o rv sts).
Proof. destruct c; reflexivity. Qed.
End Steps.

(** No length modifier but [l]. *)
Definition plain (long : bool) (f : spec) : Prop :=
  lflag f = long /\ jflag f = false /\ qflag f = false /\ tflag f = false /\
  zflag f = false /\ hflag f = false /\ cflag f = false.

Lemma handle_sign_number long f base v rest as_ o rv sts :
  plain long f ->
  handle_sign f base (Pstate rest ((if long then VLong v else VInt v) :: as_) o rv sts) =
  print_number f base (if long then u64 v else u64 (i32 v)) (Pstate rest as_ o rv sts).
Proof.
  intros (E1 & E2 & E3 & E4 & E5 & E6 & E7). unfold handle_sign.
  rewrite E1, E2, E3, E4, E5, E6, E7. by destruct long.
Qed.

Lemma handle_nosign_number long f base v rest as_ o rv sts :
  plain long f ->
  handle_nosign f base (Pstate rest ((if long then VLong v else VInt v) :: as_) o rv sts) =
  print_number (set_sign false f) base (if long then u64 v else u32 v) (Pstate rest as_ o rv sts).
Proof.
  intros (E1 & E2 & E3 & E4 & E5 & E6 & E7). unfold handle_nosign, set_sign.
  cbn [jflag qflag tflag lflag zflag hflag cflag].
  rewrite E1, E2, E3, E4, E5, E6, E7. by destruct long.
Qed.

(** The integer conversion at the end of a directive. *)
Lemma conversion_number radix percent d f v rest as_ o rv sts :
  plain (d_long d) f ->
  conversion radix percent (conv_char (d_conv d)) f
    (Pstate rest (directive_arg d v :: as_) o rv sts) =
  (st ← print_number (set_sign (conv_signed (d_conv d))
          (match d_conv d with Conv_X => set_upper true f | _ => f end))
          (conv_base (d_conv d)) (directive_num d v) (Pstate rest as_ o rv sts);
   Ok (false, st)).
Proof.
  intros Hp. unfold directive_arg, directive_num.
  set (st0 := Pstate rest (_ :: as_) o rv sts).
  destruct (d_conv d); cbn [conv_char conv_base conv_signed].
  - transitivity (st ← handle_sign (set_sign true f) 10 st0; Ok (false, st)); [reflexivity|].
    unfold st0. by rewrite (handle_sign_number (d_long d)).
  - transitivity (st ← handle_nosign f 10 st0; Ok (false, st)); [reflexivity|].
    unfold st0. by rewrite (handle_nosign_number (d_long d)).
  - transitivity (st ← handle_nosign f 8 st0; Ok (false, st)); [reflexivity|].
    unfold st0. by rewrite (handle_nosign_number (d_long d)).
  - transitivity (st ← handle_nosign f 16 st0; Ok (false, st)); [reflexivity|].
    unfold st0. by rewrite (handle_nosign_number (d_long d)).
  - transitivity (st ← handle_nosign (set_upper true f) 16 st0; Ok (false, st)); [reflexivity|].
    unfold st0. by rewrite (handle_nosign_number (d_long d)).
Qed.

(** The whole directive, after its [%]. *)
Lemma reswitch_directive k radix percent d v rest as_ o rv sts :
  hex2ascii_digits -> directive_ok d ->
  reswitch (k + 8) radix percent spec0
    (Pstate (tail (render d) ++ rest) (directive_arg d v :: as_) o rv sts) =
  (st ← print_number (directive_spec d) (conv_base (d_conv d)) (directive_num d v)
          (Pstate rest as_ o rv sts);
   Ok (false, st)).
Proof.
  intros Hhex Hok.
  assert (forall k' f, plain (d_long d) f ->
    set_sign (conv_signed (d_conv d)) (match d_conv d with Conv_X => set_upper true f | _ => f end) =
      directive_spec d ->
    reswitch (S k') radix percent f (Pstate (conv_char (d_conv d) :: rest) (directive_arg d v :: as_) o rv sts) =
    (st ← print_number (directive_spec d) (conv_base (d_conv d)) (directive_num d v)
            (Pstate rest as_ o rv sts);
     Ok (false, st))) as Hconv.
  { intros k' f Hp Hs. rewrite step_conv, conversion_number by done. by rewrite Hs. }
  assert (conv_char (d_conv d) < ch "0" \/ ch "9" < conv_char (d_conv d)) as Hc
    by (destruct (d_conv d); right; reflexivity).
  replace (k + 8)%nat with (S (S (S (S (S (S (S (S k)))))))) by lia.
  destruct d as [[] [] [] [w|] [p|] [] c]; unfold render, directive_ok in *;
    cbn [d_sharp d_minus d_zero d_width d_prec d_long d_conv tail app] in *;
    do 2 (rewrite <- ?app_assoc; cbn [app]); change (2 ^ 30) with 1073741824 in Hok;
    repeat first
      [ rewrite step_sharp | rewrite step_minus | rewrite step_zero by reflexivity
      | rewrite step_dot | rewrite step_l by reflexivity
      | rewrite step_numeral by
          first [ exact Hhex | exact Hc | lia | by left | by right | left; lia ] ];
    (apply Hconv; [by repeat split|by destruct c]).
Qed.

Lemma int_value_directive d v :
  directive_range d v ->
  in_u64 (directive_num d v) /\ int_value (directive_spec d) (directive_num d v) = v.
Proof.
  unfold directive_range, directive_num, int_value, directive_spec. cbn [sign].
  assert (forall z, in_i64 z -> i64 (u64 z) = z) as H64.
  { intros z Hz. unfold in_i64 in Hz.
    assert (i64 (u64 z) = i64 z) as ->; [|by apply i64_id].
    unfold swrap, uwrap. change (2 ^ (64 - 1)) with 9223372036854775808.
    change (2 ^ 64) with 18446744073709551616. by rewrite Zplus_mod_idemp_l. }
  destruct (d_long d), (conv_signed (d_conv d)); intros Hv; (split; [try apply u64_range|]).
  - by apply H64.
  - by apply u64_id.
  - rewrite (i32_id v) by done. apply H64. unfold in_i32, in_i64 in *. lia.
  - rewrite u32_id by done. unfold in_u32, in_u64 in *. lia.
  - by apply u32_id.
Qed.

(** Printing an integer.  A directive of the flags [#], [-] and [0], a width, a
    precision, the modifier [l] and a conversion [d], [u], [o], [x] or [X] is read by
    [kvprintf] as it was written: it fetches one argument of the directive's type and
    delivers the text of this value in the layout the directive asks for, padded,
    signed, prefixed and in its base; then it goes on with the rest of the format. *)
Theorem kvprintf_number fuel radix d v rest as_ o rv sts :
  hex2ascii_digits -> directive_ok d -> directive_range d v ->
  exists l, layout (directive_spec d) (conv_base (d_conv d)) v l /\
    kvprintf_loop (S fuel) radix false
      (Pstate (render d ++ rest) (directive_arg d v :: as_) o rv sts) =
    kvprintf_loop fuel radix false (PCHARS l (Pstate rest as_ o rv sts)).
Proof.
  intros Hhex Hok Hv. destruct (int_value_directive d v Hv) as [Hu Hint].
  destruct (number_layout (directive_spec d) (conv_base (d_conv d)) (directive_num d v))
    as (l & HE & Hl); [by destruct (d_conv d)|done|..].
  { destruct Hok as [Hw _]. cbn. destruct (d_width d); cbn; lia. }
  { destruct Hok as [_ Hp]. cbn. destruct (d_prec d); cbn; lia. }
  rewrite Hint in Hl. exists l. split; [done|].
  change (render d) with (ch "%" :: tail (render d)). cbn [app].
  set (r := tail (render d) ++ rest).
  transitivity ('(stop, st) ← reswitch (length (ch "%" :: r)) radix (ch "%" :: r) spec0
      (Pstate r (directive_arg d v :: as_) o rv sts);
    kvprintf_loop fuel radix stop st); [reflexivity|].
  rewrite reswitch_fuel by (cbn; lia). unfold r at 3.
  rewrite reswitch_directive by done. unfold print_number. by rewrite HE.
Qed.

Lemma kvprintf_text t fuel radix stop rest as_ o rv sts :
  Forall (fun c => u8 c <> 0 /\ (stop = true \/ u8 c <> ch "%")) t ->
  kvprintf_loop (length t + fuel) radix stop (Pstate (t ++ rest) as_ o rv sts) =
  kvprintf_loop fuel radix stop (PCHARS (u8 <$> t) (Pstate rest as_ o rv sts)).
Proof.
  intros Hall. revert o rv. induction Hall as [|c t [Hc Hs] Hall IH]; intros o rv; [done|].
  cbn [length Nat.add app kvprintf_loop fmt].
  assert ((u8 c =? ch "%") && negb stop = false) as ->.
  { destruct Hs as [->|Hs]; [by rewrite andb_false_r|]. by rewrite (proj2 (Z.eqb_neq _ _) Hs). }
  rewrite (proj2 (Z.eqb_neq _ _) Hc). apply IH.
Qed.

Lemma PCHARS_app l1 l2 st : PCHARS (l1 ++ l2) st = PCHARS l2 (PCHARS l1 st).
Proof. unfold PCHARS. by rewrite foldl_app. Qed.

Lemma PCHARS_Pstate l st :
  exists rv, PCHARS l st = Pstate (fmt st) (args st) (out st ++ l) rv (stores st).
Proof.
  destruct (PCHARS_fields l st) as (E1 & E2 & E3 & E4 & _). exists (retval (PCHARS l st)).
  destruct (PCHARS l st). cbn in *. by subst.
Qed.

(** *** Whole formats *)

(** The pieces of a format: text, [%%], [%c], [%s] and a directive for an integer, with
    the value that is printed; a string is its characters, or NULL. *)
Inductive piece : Type :=
| Text (t : list Z)
| Percent
| Char (v : Z)
| Str (s : option (list Z))
| Number (d : directive) (v : Z).

Definition piece_format (x : piece) : list Z :=
  match x with
  | Text t => t
  | Percent => text "%%"
  | Char _ => text "%c"
  | Str _ => text "%s"
  | Number d _ => render d
  end.
Definition piece_args (x : piece) : list va_value :=
  match x with
  | Text _ | Percent => []
  | Char v => [VInt v]
  | Str s => [VStr ((fun s => s ++ [0]) <$> s)]
  | Number d v => [directive_arg d v]
  end.
Definition piece_ok (x : piece) : Prop :=
  match x with
  | Text t => Forall (fun c => u8 c <> 0 /\ u8 c <> ch "%") t
  | Str (Some s) => Forall (fun c => c <> 0) s /\ Z.of_nat (length s) < 2 ^ 31
  | Number d v => directive_ok d /\ directive_range d v
  | _ => True
  end.

(** The text of a piece. *)
Definition printed (x : piece) (l : list Z) : Prop :=
  match x with
  | Text t => l = u8 <$> t
  | Percent => l = [ch "%"]
  | Char v => l = [v]
  | Str s => l = default (text "(null)") s
  | Number d v => layout (directive_spec d) (conv_base (d_conv d)) v l
  end.

Lemma strlen_terminated s rest : Forall (fun c => c <> 0) s -> strlen (s ++ 0 :: rest) = Ok (length s).
Proof.
  induction 1 as [|c s Hc Hs IH]; [done|]. cbn [app strlen]. rewrite (proj2 (Z.eqb_neq c 0) Hc), IH. done.
Qed.

Lemma conv_s_plain s : piece_ok (Str s) ->
  conv_s spec0 ((fun s => s ++ [0]) <$> s) = Ok (default (text "(null)") s).
Proof.
  assert (forall t, Forall (fun c => c <> 0) t -> Z.of_nat (length t) < 2 ^ 31 ->
    (n ← strlen (t ++ [0]); Ok (pad (i32 (0 - Z.of_nat n)) (ch " ") ++ take n (t ++ [0]) ++ [])) = Ok t) as Hs.
  { intros t Ht Hl. rewrite strlen_terminated by done. cbn [mbind outcome_bind].
    rewrite i32_id by (unfold in_i32; lia). unfold pad. replace (Z.to_nat (0 - Z.of_nat (length t))) with 0%nat by lia.
    cbn [replicate app]. by rewrite app_nil_r, take_app_length. }
  intros Hok. unfold conv_s. destruct s as [s|]; cbn [fmap option_fmap option_map default from_option].
  - destruct Hok as [H1 H2]. exact (Hs s H1 H2).
  - apply (Hs (text "(null)")); [|by vm_compute]. apply (bool_decide_unpack _). by vm_compute.
Qed.

(** One turn of the loop for a directive that is not a number. *)
Lemma kvprintf_simple fuel radix x rest as_ o rv sts : (exists v, x = Char v) \/ (exists s, x = Str s) \/ x = Percent ->
  piece_ok x ->
  exists l, printed x l /\
    kvprintf_loop (S fuel) radix false (Pstate (piece_format x ++ rest) (piece_args x ++ as_) o rv sts) =
    kvprintf_loop fuel radix false (PCHARS l (Pstate rest as_ o rv sts)).
Proof.
  intros Hx Hok. destruct Hx as [[v ->]|[[s ->]| ->]]; cbn [piece_format piece_args app].
  - exists [v]. by split.
  - exists (default (text "(null)") s). split; [done|].
    transitivity ('(stop, st) ← (st ← ('(s, st) ← va_arg va_str (Pstate rest (VStr ((fun s => s ++ [0]) <$> s) :: as_) o rv sts);
        l ← conv_s spec0 s; Ok (PCHARS l st)); Ok (false, st)); kvprintf_loop fuel radix stop st); [reflexivity|].
    cbn [va_arg args va_str fmt out retval stores mbind outcome_bind]. by rewrite (conv_s_plain s Hok).
  - exists [ch "%"]. by split.
Qed.

Lemma render_length d : (1 <= length (render d))%nat.
Proof. unfold render. rewrite length_app. cbn. lia. Qed.

(** The loop over the pieces, down to the terminator. *)
Lemma kvprintf_pieces pieces radix as_ : hex2ascii_digits -> Forall piece_ok pieces ->
  forall fuel o rv sts, (length (flat_map piece_format pieces) < fuel)%nat ->
  exists ls st, Forall2 printed pieces ls /\
    kvprintf_loop fuel radix false
      (Pstate (flat_map piece_format pieces ++ [0]) (flat_map piece_args pieces ++ as_) o rv sts) = Ok st /\
    out st = o ++ concat ls /\ (rv = i32 (Z.of_nat (length o)) -> counted st) /\ args st = as_ /\ fmt st = [] /\ stores st = sts.
Proof.
  intros Hhex Hall. induction Hall as [|x pieces Hx Hall IH]; intros fuel o rv sts Hf.
  { destruct fuel as [|fuel]; [lia|]. exists [], (Pstate [] as_ o rv sts). split; [done|]. split; [done|].
    unfold counted. cbn. by rewrite app_nil_r. }
  cbn [flat_map] in *. rewrite length_app in Hf. rewrite <- !app_assoc.
  assert (exists n l, (length (flat_map piece_format pieces) < n)%nat /\ printed x l /\
    kvprintf_loop fuel radix false (Pstate (piece_format x ++ flat_map piece_format pieces ++ [0])
      (piece_args x ++ flat_map piece_args pieces ++ as_) o rv sts) =
    kvprintf_loop n radix false (PCHARS l (Pstate (flat_map piece_format pieces ++ [0]) (flat_map piece_args pieces ++ as_) o rv sts)))
    as (n & l & Hn & Hp & ->).
  { destruct x as [t| |v|s|d v].
    - exists (fuel - length t)%nat, (u8 <$> t). cbn [piece_format] in Hf. split; [lia|]. split; [done|].
      cbn [piece_format piece_args app]. replace fuel with (length t + (fuel - length t))%nat at 1 by lia. apply kvprintf_text.
      eapply Forall_impl; [exact Hx|]. intros c [? ?]. auto.
    - destruct fuel as [|fuel]; [lia|]. destruct (kvprintf_simple fuel radix Percent (flat_map piece_format pieces ++ [0])
        (flat_map piece_args pieces ++ as_) o rv sts) as (l & Hl & HE); [auto|done|]. exists fuel, l. cbn in Hf. split; [lia|]. by split.
    - destruct fuel as [|fuel]; [lia|]. destruct (kvprintf_simple fuel radix (Char v) (flat_map piece_format pieces ++ [0])
        (flat_map piece_args pieces ++ as_) o rv sts) as (l & Hl & HE); [eauto|done|]. exists fuel, l. cbn in Hf. split; [lia|]. by split.
    - destruct fuel as [|fuel]; [lia|]. destruct (kvprintf_simple fuel radix (Str s) (flat_map piece_format pieces ++ [0])
        (flat_map piece_args pieces ++ as_) o rv sts) as (l & Hl & HE); [eauto|done|]. exists fuel, l. cbn in Hf. split; [lia|]. by split.
    - destruct fuel as [|fuel]; [lia|]. destruct Hx as [Hd Hr]. pose proof (render_length d). cbn [piece_format] in Hf.
      destruct (kvprintf_number fuel radix d v (flat_map piece_format pieces ++ [0]) (flat_map piece_args pieces ++ as_) o rv sts Hhex Hd Hr)
        as (l & Hl & HE). exists fuel, l. split; [lia|]. by split. }
  set (st0 := Pstate _ _ o rv sts). pose proof (PCHARS_fields l st0) as (_ & _ & _ & _ & Hc).
  destruct (PCHARS_Pstate l st0) as [rv' Er]. rewrite Er in Hc |- *. unfold counted in Hc. cbn [fmt args out stores retval st0] in Hc |- *.
  destruct (IH n (o ++ l) rv' sts Hn) as (ls & st & F & E & O & C & R).
  exists (l :: ls), st. split; [by constructor|]. split; [done|]. split; [by rewrite O, <- app_assoc|]. split; [auto|done].
Qed.

(** C32. Formats.  For a format of text, [%%], [%c], [%s] and directives for integers in any
    order ([#], [-], [0], a width, a precision, [l]; [d], [u], [o], [x], [X]), with arguments of their types and more behind
    them, [kvprintf] returns with as much fuel as the format is long: it stops at the terminator, which is the
    last character of the format that it reads, has fetched exactly the arguments of the directives, and has
    delivered the texts of the pieces one behind the other; the value is their number of characters.
    And for every format and every argument list it makes at most one turn per character (a format that
    ends in [%] it leaves behind its end: [kvprintf_trailing_percent]). *)
Theorem kvprintf_total pieces radix as_ fuel : hex2ascii_digits -> Forall piece_ok pieces ->
  (length (flat_map piece_format pieces) < fuel)%nat ->
  (exists ls st, Forall2 printed pieces ls /\
    kvprintf fuel (Some (flat_map piece_format pieces ++ [0])) radix (flat_map piece_args pieces ++ as_) = Ok st /\
    out st = concat ls /\ retval st = i32 (Z.of_nat (length (concat ls))) /\
    args st = as_ /\ fmt st = [] /\ stores st = []) /\
  forall format args fuel, (length (default fmt_null format) < fuel)%nat -> kvprintf fuel format radix args <> Diverge.
Proof.
  intros Hhex Hall Hf. split; [|intros format args n Hn; by apply kvprintf_finishes].
  set (r := if (radix <? 2) || (36 <? radix) then 10 else radix).
  destruct (kvprintf_pieces pieces r as_ Hhex Hall fuel [] 0 [] Hf) as (ls & st & F & E & O & C & R).
  exists ls, st. split; [done|]. split; [exact E|]. split; [done|]. split; [|done].
  specialize (C eq_refl). unfold counted in C. by rewrite C, O.
Qed.

(** A format that ends in a percent sign.  The terminator is taken for the
    conversion: it is delivered with the percent sign, and [kvprintf] goes on behind
    it.  If the memory after the format is text up to some terminator, this text is
    delivered too, percent signs included; if there is nothing after the format, the
    program reads outside of what the caller gave it. *)
Theorem kvprintf_trailing_percent t junk radix as_ fuel :
  Forall (fun c => u8 c <> 0 /\ u8 c <> ch "%") t -> Forall (fun c => u8 c <> 0) junk ->
  kvprintf (length t + S (S fuel)) (Some (t ++ [ch "%"; 0])) radix as_ = Panic /\
  exists st,
    kvprintf (length t + S (length junk + S fuel)) (Some (t ++ [ch "%"; 0] ++ junk ++ [0])) radix as_
      = Ok st /\
    out st = (u8 <$> t) ++ [ch "%"; 0] ++ (u8 <$> junk).
Proof.
  intros Ht Hj. unfold kvprintf. cbv zeta. cbn [default from_option id]. unfold id. set (r := if (_ : bool) then 10 else radix).
  assert (Forall (fun c => u8 c <> 0 /\ (false = true \/ u8 c <> ch "%")) t) as Ht'.
  { eapply Forall_impl; [exact Ht|]. intros c [? ?]. auto. }
  assert (Forall (fun c => u8 c <> 0 /\ (true = true \/ u8 c <> ch "%")) junk) as Hj'.
  { eapply Forall_impl; [exact Hj|]. intros c ?. auto. }
  assert (forall n x o rv, kvprintf_loop (S n) r false (Pstate (ch "%" :: 0 :: x) as_ o rv []) =
    kvprintf_loop n r true (PCHARS [ch "%"; 0] (Pstate x as_ o rv []))) as Hstep.
  { intros n x o rv.
    transitivity (kvprintf_loop n r true
      (PCHARS (take (S (S (length x)) - length x) (ch "%" :: 0 :: x)) (Pstate x as_ o rv [])));
      [reflexivity|].
    do 2 f_equal. replace (S (S (length x)) - length x)%nat with 2%nat by lia. done. }
  split.
  - rewrite kvprintf_text by done. destruct (PCHARS_Pstate (u8 <$> t) (Pstate [ch "%"; 0] as_ [] 0 []))
      as [rv ->]. cbn [fmt args out stores app]. by rewrite Hstep.
  - rewrite kvprintf_text by done. cbn [app].
    destruct (PCHARS_Pstate (u8 <$> t) (Pstate (ch "%" :: 0 :: junk ++ [0]) as_ [] 0 []))
      as [rv ->]. cbn [fmt args out stores app]. rewrite Hstep.
    destruct (PCHARS_Pstate [ch "%"; 0] (Pstate (junk ++ [0]) as_ (u8 <$> t) rv [])) as [rv' ->].
    cbn [fmt args out stores]. rewrite kvprintf_text by done.
    destruct (PCHARS_Pstate (u8 <$> junk) (Pstate [0] as_ ((u8 <$> t) ++ [ch "%"; 0]) rv' []))
      as [rv'' ->]. eexists. split; [reflexivity|]. cbn. by rewrite <- app_assoc.
Qed.

(** The console shows what [kvprintf] delivers, character by character. *)
Lemma kputchars_console l console :
  kputchars l (PutcharArg true true None 0 0, console) =
    Ok (PutcharArg true true None 0 0, console ++ (u8 <$> l)).
Proof.
  revert console. induction l as [|c l IH]; intros console; [by rewrite app_nil_r|].
  cbn [kputchars kputchar TOCONS putbuf p_bufr mbind outcome_bind]. rewrite IH.
  unfold putchar. by rewrite <- app_assoc.
Qed.

(** [printf].  The value is the number of characters [kvprintf] delivered, and the
    console shows exactly these characters, in order, after what it showed before; in
    a text without directives they are the characters of the format. *)
Theorem printf_console fuel format as_ console :
  (length (default fmt_null format) < fuel)%nat ->
  (forall st, kvprintf fuel format 10 as_ = Ok st ->
     printf fuel format as_ console =
       Ok (i32 (Z.of_nat (length (out st))), console ++ (u8 <$> out st))) /\
  (forall t, Forall (fun c => u8 c <> 0 /\ u8 c <> ch "%") t -> format = Some (t ++ [0]) ->
     printf fuel format as_ console = Ok (i32 (Z.of_nat (length t)), console ++ (u8 <$> t))).
Proof.
  intros Hfuel.
  assert (forall st, kvprintf fuel format 10 as_ = Ok st -> counted st ->
     printf fuel format as_ console =
       Ok (i32 (Z.of_nat (length (out st))), console ++ (u8 <$> out st))) as Hrun.
  { intros st HE Hc. unfold printf, vprintf. rewrite HE. cbn [mbind outcome_bind].
    rewrite kputchars_console. cbn. by rewrite Hc. }
  split.
  - intros st HE. apply Hrun; [done|].
    destruct (kvprintf_finishes fuel format 10 as_ Hfuel) as [_ Hc]. by apply Hc.
  - intros t Ht ->. cbn [default from_option id] in Hfuel. unfold id in Hfuel. rewrite length_app in Hfuel. cbn in Hfuel.
    assert (Forall (fun c => u8 c <> 0 /\ (false = true \/ u8 c <> ch "%")) t) as Ht'.
    { eapply Forall_impl; [exact Ht|]. intros c [? ?]. auto. }
    destruct (PCHARS_fields (u8 <$> t) (Pstate [0] as_ [] 0 [])) as (_ & _ & Eo & _ & Hc).
    assert (kvprintf fuel (Some (t ++ [0])) 10 as_ =
      Ok (with_fmt [] (PCHARS (u8 <$> t) (Pstate [0] as_ [] 0 [])))) as HE.
    { unfold kvprintf. cbv zeta. cbn [default from_option id]. unfold id. change (if (10 <? 2) || (36 <? 10) then 10 else 10) with 10.
      replace fuel with (length t + S (fuel - length t - 1))%nat by lia.
      rewrite kvprintf_text by done.
      destruct (PCHARS_Pstate (u8 <$> t) (Pstate [0] as_ [] 0 [])) as [rv ->]. done. }
    rewrite (Hrun _ HE (Hc eq_refl)). cbn [out with_fmt]. rewrite Eo. cbn [app out].
    rewrite length_fmap. do 3 f_equal. rewrite <- list_fmap_compose.
    apply list_fmap_ext. intros i c _. cbn. unfold uwrap. by rewrite Zmod_mod.
Qed.
End Kvprintf.

(** ** Concrete runs *)

Definition hex2ascii_ascii (n : Z) : Z := if n <? 10 then ch "0" + n else ch "a" + (n - 10).
Definition toupper_ascii (c : Z) : Z := if (ch "a" <=? c) && (c <=? ch "z") then c - 32 else c.

Definition run (format : string) (args : list va_value) : option (list Z * Z) :=
  match kvprintf hex2ascii_ascii toupper_ascii 100 (Some (cstring format)) 10 args with
  | Ok st => Some (out st, retval st)
  | _ => None
  end.

Lemma hex2ascii_ascii_digits : hex2ascii_digits hex2ascii_ascii.
Proof.
  intros d Hd. unfold hex2ascii_ascii. destruct (Z.ltb_spec d 10); [done|lia].
Qed.

(** The example in the comment on [%b]. *)
Example comment_b :
  run "reg=%b" [VInt 3; VStr (Some ([8; 2] ++ text "BITTWO" ++ [1] ++ text "BITONE" ++ [0]))] =
    Some (text "reg=3<BITTWO,BITONE>", 20).
Proof. vm_compute. reflexivity. Qed.

(** The example in the comment on [%D]. *)
Example comment_D :
  run "%6D" [VBytes [1; 2; 3; 171; 205; 239]; VStr (Some (cstring ":"))] =
    Some (text "01:02:03:ab:cd:ef", 17).
Proof. vm_compute. reflexivity. Qed.

Example several :
  run "%-5d|%05d|%#x|%8.3d|%s|%lu|%*d|%X"
    [VInt 42; VInt (-42); VInt 255; VInt 5; VStr None; VLong (-1); VInt (-3); VInt 7; VInt 171] =
    Some (text "42   |-0042|0xff|     005|(null)|18446744073709551615|7  |AB", 60).
Proof. vm_compute. reflexivity. Qed.

(** ["eth%d: %s%%"] *)
Definition example_pieces : list piece :=
  [Text (text "eth"); Number (Directive false false false None None false Conv_d) (-1); Text (text ": "); Str (Some (text "up")); Percent].

Lemma kvprintf_total_witness :
  exists st, kvprintf hex2ascii_ascii toupper_ascii 20 (Some (cstring "eth%d: %s%%")) 10 [VInt (-1); VStr (Some (cstring "up")); VInt 7] = Ok st /\
    fmt st = [] /\ args st = [VInt 7] /\ retval st = 10.
Proof.
  destruct (kvprintf_total hex2ascii_ascii toupper_ascii example_pieces 10 [VInt 7] 20 hex2ascii_ascii_digits)
    as [(ls & st & _ & E & _ & _ & A & F & _) _].
  - unfold example_pieces. rewrite !Forall_cons. split; [|split; [|split; [|split; [|by split]]]]; cbn [piece_ok].
    + apply (bool_decide_unpack _). by vm_compute.
    + split; [by split|]. split; by vm_compute.
    + apply (bool_decide_unpack _). by vm_compute.
    + split; [|by vm_compute]. apply (bool_decide_unpack _). by vm_compute.
  - vm_compute. lia.
  - exists st. split; [exact E|]. split; [exact F|]. split; [exact A|]. vm_compute in E. injection E as <-. reflexivity.
Defined.

Lemma kvprintf_number_witness :
  exists l,
    kvprintf_loop hex2ascii_ascii toupper_ascii 2 10 false
      (Pstate (cstring "%#-8lx") [VLong 255] [] 0 []) =
    kvprintf_loop hex2ascii_ascii toupper_ascii 1 10 false (PCHARS l (Pstate [0] [] [] 0 [])) /\
    8 <= Z.of_nat (length l).
Proof.
  set (d := Directive true true false (Some 8) None true Conv_x).
  assert (directive_ok d) as Hok by (split; [by vm_compute|done]).
  assert (directive_range d 255) as Hr by (split; by vm_compute).
  destruct (kvprintf_number hex2ascii_ascii toupper_ascii 1 10 d 255 [0] [] [] 0 []
    hex2ascii_ascii_digits Hok Hr) as (l & Hl & HE).
  exists l. split; [exact HE|].
  destruct Hl as (ds & a & z & b & _ & _ & _ & _ & _ & _ & _ & _ & _ & ->). apply Z.le_max_l.
Defined.

Lemma kvprintf_trailing_percent_witness :
  kvprintf hex2ascii_ascii toupper_ascii 7 (Some (text "100" ++ [ch "%"; 0])) 10 [] = Panic.
Proof.
  apply (kvprintf_trailing_percent hex2ascii_ascii toupper_ascii (text "100") [] 10 [] 2);
    repeat constructor; vm_compute; discriminate.
Defined.

Lemma printf_console_witness :
  printf hex2ascii_ascii toupper_ascii 10 (Some (text "up" ++ [0])) [] (text "> ") =
    Ok (2, text "> up").
Proof.
  assert (Nat.lt (length (default fmt_null (Some (text "up" ++ [0])))) 10) as Hf by (vm_compute; lia).
  destruct (printf_console hex2ascii_ascii toupper_ascii 10 (Some (text "up" ++ [0])) [] (text "> ") Hf)
    as [_ Ht].
  refine (Ht (text "up") _ eq_refl). repeat constructor; vm_compute; discriminate.
Defined.
