(* ===== verification/Route.v ===== *)
(** * Route: routing messages ([bsd/lib/lazybsd_route.c])

    A routing message is a header and a sequence of socket addresses, each in the
    slot of one of the bits of [rtm_addrs].  [rt_xaddrs] takes the addresses out of a
    message of the user, [rtsock_msg_buffer] writes a message.  Addresses are bytes of the memory of
    [KernSubr], read and written with [load] and [store] of [SockConv]; an
    [rt_addrinfo] maps the indices [RTAX_*] to the addresses it has.

    The sizes of the header structures, the macro [SA_SIZE] and the IPv6 scope
    routines come from the headers and the kernel of FreeBSD: the class
    [RouteHeaders], with its documented facts in [RouteHeadersDoc]. *)
From S2P Require Import Prelude Errno KernSubr SockConv.

(** ** The headers of FreeBSD *)
Class RouteHeaders := {
  RTAX_DST : Z;
  RTAX_GATEWAY : Z;
  RTAX_NETMASK : Z;
  RTAX_MAX : nat;
  RTA_NETMASK : Z;
  RTF_HOST : Z;
  RTF_LLDATA : Z;
  AF_INET : Z;
  AF_LINK : Z;
  RTM_VERSION : Z;
  RTM_DELADDR : Z;
  RTM_NEWADDR : Z;
  RTM_IFINFO : Z;
  RTM_NEWMADDR : Z;
  NET_RT_IFLISTL : Z;
  SA_SIZE : Z -> Z;              (** of the length of an address *)
  sizeof_rt_msghdr : Z;
  sizeof_ifa_msghdr : Z;
  sizeof_ifa_msghdrl : Z;
  sizeof_if_msghdr : Z;
  sizeof_if_msghdrl : Z;
  sizeof_ifma_msghdr : Z;
  rtm_msglen : Z;                (** the offsets in [struct rt_msghdr] *)
  rtm_version : Z;
  rtm_type : Z;
  sizeof_sockaddr_in : Z;
  sizeof_sockaddr_in6 : Z;
  sizeof_sockaddr_dl_short : Z;
  sin_addr : Z;                  (** the offsets in the addresses *)
  sin6_addr : Z;
  sin6_scope_id : Z;
  sdl_index : Z;
  sdl_nlen : Z;
  sdl_alen : Z;
  sdl_data : Z;
  sa6_embedscope : Z -> memory -> memory;
  sa6_recoverscope : Z -> memory -> Z * memory }.

(** ** Data *)

(** [struct rt_addrinfo]: the bits of the addresses present, the flags and the
    addresses; a missing index is NULL. *)
Record rt_addrinfo := RtAddrinfo { rti_addrs : Z; rti_flags : Z; rti_info : gmap Z Z }.

Definition set_info (v : gmap Z Z) (r : rt_addrinfo) : rt_addrinfo :=
  RtAddrinfo (rti_addrs r) (rti_flags r) v.

(** [struct walkarg]: the buffer, its size, the operation. *)
Record walkarg := Walkarg { w_tmemsize : Z; w_op : Z; w_tmem : Z }.

Section Route.
Context `{BsdHeaders} `{RouteHeaders}.
(** The addresses of [sa_zero] and of the local [ss] of [rtsock_msg_buffer]. *)
Context (sa_zero ss : Z).

(** ** [rt_xaddrs] *)

(** The loop, with [n] indices left from [i] on. *)
Fixpoint rt_xaddrs_loop (n : nat) (i cp cplim : Z) (rtinfo : rt_addrinfo) (m : memory)
    : Z * rt_addrinfo * memory :=
  match n with
  | O => (0, rtinfo, m)
  | S n =>
      if negb (cp <? cplim) then (0, rtinfo, m)
      else if negb (Z.testbit (rti_addrs rtinfo) i) then rt_xaddrs_loop n (i + 1) cp cplim rtinfo m
      else
        let len := load 1 m (cp + sa_len) in
        if cplim <? cp + len then (LAZYBSD_EINVAL, rtinfo, m)
        else if len =? 0 then (0, set_info (<[i := sa_zero]> (rti_info rtinfo)) rtinfo, m)
        else
          let m := if load 1 m (cp + sa_family) =? AF_INET6 then sa6_embedscope cp m else m in
          let rtinfo := set_info (<[i := cp]> (rti_info rtinfo)) rtinfo in
          rt_xaddrs_loop n (i + 1) (cp + SA_SIZE (load 1 m (cp + sa_len))) cplim rtinfo m
  end.

Definition rt_xaddrs (cp cplim : Z) (rtinfo : rt_addrinfo) (m : memory)
    : Z * rt_addrinfo * memory :=
  rt_xaddrs_loop RTAX_MAX 0 cp cplim rtinfo m.

(** ** [rtsock_msg_buffer] *)

Definition msg_header_size (type : Z) (w : option walkarg) : Z :=
  let listl := match w with Some w => w_op w =? NET_RT_IFLISTL | None => false end in
  if (type =? RTM_DELADDR) || (type =? RTM_NEWADDR) then
    if listl then sizeof_ifa_msghdrl else sizeof_ifa_msghdr
  else if type =? RTM_IFINFO then
    if listl then sizeof_if_msghdrl else sizeof_if_msghdr
  else if type =? RTM_NEWMADDR then sizeof_ifma_msghdr
  else sizeof_rt_msghdr.

(** The variables of the loop: the size so far, where to write next ([None] is
    NULL), what is left of the buffer, the bits of the addresses. *)
Record msg_state := MsgState {
  s_len : Z; s_cp : option Z; s_buflen : Z; s_addrs : Z; s_mem : memory }.

(** The body for the address [sa] of index [i]. *)
Definition msg_sockaddr (i sa : Z) (st : msg_state) : msg_state :=
  let m := s_mem st in
  let addrs := Z.lor (s_addrs st) (Z.shiftl 1 i) in
  let dlen := SA_SIZE (load 1 m (sa + sa_len)) in
  let '(cp, buflen, m) :=
    match s_cp st with
    | Some cp =>
        if dlen <=? s_buflen st then
          let '(sa, m) :=
            if load 1 m (sa + sa_family) =? AF_INET6 then
              let m := bcopy sa ss sizeof_sockaddr_in6 m in
              let '(r, m) := sa6_recoverscope ss m in
              (if r =? 0 then ss else sa, m)
            else (sa, m) in
          (Some (cp + dlen), i32 (s_buflen st - dlen), bcopy sa cp (u32 dlen) m)
        else (None, s_buflen st, m)
    | None => (None, s_buflen st, m)
    end in
  MsgState (i32 (s_len st + dlen)) cp buflen addrs m.

Fixpoint msg_loop (n : nat) (i : Z) (info : gmap Z Z) (st : msg_state) : msg_state :=
  match n with
  | O => st
  | S n =>
      msg_loop n (i + 1) info
        (match info !! i with Some sa => msg_sockaddr i sa st | None => st end)
  end.

(** The error, [rtinfo] with its [rti_addrs], [*plen] and the memory. *)
Definition rtsock_msg_buffer (type : Z) (rtinfo : rt_addrinfo) (w : option walkarg) (m : memory)
    : Z * rt_addrinfo * Z * memory :=
  let len := msg_header_size type w in
  let st := msg_loop RTAX_MAX 0 (rti_info rtinfo)
    match w with
    | Some w => MsgState len (Some (w_tmem w + len)) (i32 (w_tmemsize w - len)) 0 m
    | None => MsgState len None 0 0 m
    end in
  let cp :=
    match s_cp st with
    | Some cp => if s_buflen st <? i32 (ALIGN (s_len st) - s_len st) then None else Some cp
    | None => None
    end in
  let len := i32 (ALIGN (s_len st)) in
  let m :=
    match cp, w with
    | Some _, Some w =>
        let m := store 1 (s_mem st) (w_tmem w + rtm_version) RTM_VERSION in
        let m := store 1 m (w_tmem w + rtm_type) type in
        store 2 m (w_tmem w + rtm_msglen) len
    | _, _ => s_mem st
    end in
  let error :=
    match w, cp with Some _, None => LAZYBSD_ENOBUFS | _, _ => 0 end in
  (error, RtAddrinfo (s_addrs st) (rti_flags rtinfo) (rti_info rtinfo), len, m).
End Route.

(** ** What the headers of FreeBSD document

    [SA_SIZE] rounds the length of an address up to a multiple of 8, at least 8; the IPv6 scope
    routines change the address and the scope of a [sockaddr_in6], which are the
    bytes 8 to 27 of it. *)
Class RouteHeadersDoc `{BsdHeadersDoc} `{RouteHeaders} : Prop := {
  doc_SA_SIZE : forall n, 0 < n -> SA_SIZE n = 8 * ((n + 7) / 8);
  doc_SA_SIZE_0 : SA_SIZE 0 = 8;
  doc_RTAX_MAX : RTAX_MAX = 8%nat;
  doc_sizeof_sockaddr_in6 : sizeof_sockaddr_in6 = 28;
  doc_embedscope : forall a m b, ~ (a + 8 <= b < a + 28) -> rd (sa6_embedscope a m) b = rd m b;
  doc_recoverscope : forall a m b,
    ~ (a + 8 <= b < a + 28) -> rd (sa6_recoverscope a m).2 b = rd m b;
  doc_rt_msghdr : rtm_msglen = 0 /\ rtm_version = 2 /\ rtm_type = 3;
  doc_sizes : forall type w, 8 <= msg_header_size type w <= 1024 }.

Section RouteFacts.
Context `{RouteHeadersDoc}.
Context (sa_zero ss : Z).

Lemma SA_SIZE_bounds n : 0 < n < 256 -> n <= SA_SIZE n <= 256 /\ SA_SIZE n mod 8 = 0.
Proof.
  intros Hn. rewrite doc_SA_SIZE by lia. split.
  - pose proof (Z.div_mod (n + 7) 8). pose proof (Z.mod_pos_bound (n + 7) 8). lia.
  - rewrite Z.mul_comm. apply Z_mod_mult.
Qed.

Lemma load1_bounds m a : 0 <= load 1 m a < 256.
Proof. apply (load_range 1). Qed.

Lemma load_1_ext m m' a : rd m a = rd m' a -> load 1 m a = load 1 m' a.
Proof. intros E. by rewrite !load_1, E. Qed.

(** The addresses taken so far: their bits, their places, and what of memory has
    changed between [lo] and the place [cp] reached. *)
Definition taken (m : memory) (cp cplim : Z) (a : Z) : Prop :=
  cp <= a /\ 0 < load 1 m a /\ a + load 1 m a <= cplim.

(** A short IPv6 address among those taken. *)
Definition short_inet6 (m : memory) (info : gmap Z Z) : Prop :=
  exists j a, info !! j = Some a /\ load 1 m (a + 1) = AF_INET6 /\ load 1 m a < 28.

Lemma rt_xaddrs_loop_spec n i cp cplim rtinfo m e rtinfo' m' :
  rt_xaddrs_loop sa_zero n i cp cplim rtinfo m = (e, rtinfo', m') -> 0 <= i ->
  (e = 0 \/ e = LAZYBSD_EINVAL) /\
  rti_addrs rtinfo' = rti_addrs rtinfo /\ rti_flags rtinfo' = rti_flags rtinfo /\
  (forall j, rti_info rtinfo' !! j = rti_info rtinfo !! j \/
     i <= j < i + Z.of_nat n /\ Z.testbit (rti_addrs rtinfo) j = true /\
     exists a, rti_info rtinfo' !! j = Some a /\ (a = sa_zero \/ taken m' cp cplim a)) /\
  (forall j, j < i -> rti_info rtinfo' !! j = rti_info rtinfo !! j) /\
  (forall b, ~ (cp + 8 <= b < cplim + 27) -> rd m' b = rd m b) /\
  (forall b, cplim <= b -> rd m' b <> rd m b -> short_inet6 m' (rti_info rtinfo')).
Proof.
  revert i cp rtinfo m. induction n as [|n IH]; intros i cp rtinfo m HE Hi.
  { injection HE as <- <- <-. split_and!; auto. done. }
  cbn [rt_xaddrs_loop] in HE. rewrite doc_sa_len, doc_sa_family, Z.add_0_r in HE.
  destruct (Z.ltb_spec cp cplim) as [Hcp|Hcp]; cbn [negb] in HE.
  2: { injection HE as <- <- <-. split_and!; auto. done. }
  destruct (Z.testbit (rti_addrs rtinfo) i) eqn:Hbit; cbn [negb] in HE.
  2: { destruct (IH _ _ _ _ HE) as (R1 & R2 & R3 & R4 & R5 & R6 & R7); [lia|].
       split_and!; try done.
       - intros j. destruct (R4 j) as [|(Hj & Hb & Ha)]; [by left|right]. split; [lia|done].
       - intros j Hj. apply R5. lia. }
  pose proof (load1_bounds m cp) as Hlen.
  destruct (Z.ltb_spec cplim (cp + load 1 m cp)) as [Hbig|Hfit].
  { injection HE as <- <- <-. split_and!; auto. done. }
  destruct (Z.eqb_spec (load 1 m cp) 0) as [Hz|Hz].
  { injection HE as <- <- <-. cbn [rti_addrs rti_flags rti_info set_info]. split_and!; auto.
    - intros j. destruct (decide (j = i)) as [->|].
      + right. split; [lia|]. split; [done|]. exists sa_zero. rewrite lookup_insert_eq. auto.
      + left. by rewrite lookup_insert_ne.
    - intros j Hj. by rewrite lookup_insert_ne by lia.
    - done. }
  set (m1 := if load 1 m (cp + 1) =? AF_INET6 then sa6_embedscope cp m else m) in HE.
  assert (forall b, ~ (cp + 8 <= b < cp + 28) -> rd m1 b = rd m b) as Hm1.
  { intros b Hb. unfold m1. destruct (_ =? _); [by apply doc_embedscope|done]. }
  assert (load 1 m1 cp = load 1 m cp) as Hl1 by (apply load_1_ext, Hm1; lia).
  rewrite Hl1 in HE. destruct (SA_SIZE_bounds (load 1 m cp)) as [Hsz _]; [lia|].
  assert (8 <= SA_SIZE (load 1 m cp)) as H8.
  { rewrite doc_SA_SIZE by lia. assert (1 <= (load 1 m cp + 7) / 8); [|lia].
    apply Z.div_le_lower_bound; lia. }
  destruct (IH _ _ _ _ HE) as (R1 & R2 & R3 & R4 & R5 & R6 & R7); [lia|].
  cbn [rti_addrs rti_flags rti_info set_info] in *.
  assert (rti_info rtinfo' !! i = Some cp) as Hthis
    by (rewrite R5 by lia; by rewrite lookup_insert_eq).
  assert (load 1 m' cp = load 1 m cp) as Hl'.
  { rewrite <- Hl1. apply load_1_ext, R6. lia. }
  assert (load 1 m' (cp + 1) = load 1 m (cp + 1)) as Hf'.
  { apply load_1_ext. rewrite R6, Hm1 by lia. done. }
  split_and!; try done.
  - intros j. destruct (decide (j = i)) as [->|Hji].
    + right. split; [lia|]. split; [done|]. exists cp. split; [done|]. right.
      unfold taken. rewrite Hl'. lia.
    + destruct (R4 j) as [E|(Hj & Hb & a & Ha & Hok)].
      * left. rewrite E. by rewrite lookup_insert_ne.
      * right. split; [lia|]. split; [done|]. exists a. split; [done|].
        destruct Hok as [|Hok]; [by left|right]. unfold taken in *. lia.
  - intros j Hj. rewrite R5 by lia. by rewrite lookup_insert_ne by lia.
  - intros b Hb. rewrite R6, Hm1 by lia. done.
  - intros b Hb Hd. destruct (decide (rd m' b = rd m1 b)) as [E|E]; [|by apply (R7 b)].
    rewrite E in Hd. exists i, cp. rewrite Hl', Hf'. split; [done|].
    unfold m1 in Hd. destruct (Z.eqb_spec (load 1 m (cp + 1)) AF_INET6) as [Hfam|]; [|done].
    split; [done|]. destruct (decide (cp + 8 <= b < cp + 28)) as [Hin|Hout]; [lia|].
    by destruct Hd; apply doc_embedscope.
Qed.

(** No index left, or the end of the message reached: nothing is taken. *)
Lemma rt_xaddrs_loop_none n i cp cplim rtinfo m :
  (forall j, i <= j < i + Z.of_nat n -> Z.testbit (rti_addrs rtinfo) j = false) ->
  rt_xaddrs_loop sa_zero n i cp cplim rtinfo m = (0, rtinfo, m).
Proof.
  revert i. induction n as [|n IH]; intros i Hb; [done|]. cbn [rt_xaddrs_loop].
  destruct (negb (cp <? cplim)); [done|]. rewrite Hb by lia. cbn [negb]. apply IH. intros j Hj. apply Hb. lia.
Qed.

(** The message of one IPv6 address, whatever its length. *)
Lemma rt_xaddrs_loop_inet6 k n i cp cplim rtinfo m :
  i <= k < i + Z.of_nat n ->
  (forall j, i <= j < i + Z.of_nat n -> Z.testbit (rti_addrs rtinfo) j = bool_decide (j = k)) ->
  0 < load 1 m cp -> cp + load 1 m cp <= cplim -> load 1 m (cp + 1) = AF_INET6 ->
  rt_xaddrs_loop sa_zero n i cp cplim rtinfo m =
    (0, set_info (<[k := cp]> (rti_info rtinfo)) rtinfo, sa6_embedscope cp m).
Proof.
  intros Hk Hb Hl Hfit Hfam. revert i Hk Hb. induction n as [|n IH]; intros i Hk Hb; [lia|].
  cbn [rt_xaddrs_loop]. rewrite (proj2 (Z.ltb_lt cp cplim)) by lia. rewrite Hb by lia. cbn [negb].
  destruct (decide (i = k)) as [->|Hne].
  - rewrite bool_decide_eq_true_2 by done. cbn [negb]. rewrite doc_sa_len, doc_sa_family, Z.add_0_r, Hfam, Z.eqb_refl.
    rewrite (proj2 (Z.ltb_ge _ _)), (proj2 (Z.eqb_neq _ _)) by lia.
    apply rt_xaddrs_loop_none. intros j Hj. cbn [rti_addrs set_info]. rewrite Hb by lia.
    apply bool_decide_eq_false_2. lia.
  - rewrite bool_decide_eq_false_2 by done. cbn [negb]. apply IH; [lia|]. intros j Hj. apply Hb. lia.
Qed.


(** ** The message that is written *)

Lemma SA_SIZE_all n : 0 <= n < 256 -> n <= SA_SIZE n /\ 8 <= SA_SIZE n <= 256 /\ SA_SIZE n mod 8 = 0.
Proof.
  intros Hn. destruct (decide (n = 0)) as [->|].
  { rewrite doc_SA_SIZE_0. done. }
  destruct (SA_SIZE_bounds n) as [Hs Hm]; [lia|]. split_and!; try lia.
  rewrite doc_SA_SIZE by lia. assert (1 <= (n + 7) / 8); [|lia].
  apply Z.div_le_lower_bound; lia.
Qed.

(** The space of the addresses of the indices [i], ..., [i + n - 1]. *)
Fixpoint addr_space (n : nat) (i : Z) (info : gmap Z Z) (m : memory) : Z :=
  match n with
  | O => 0
  | S n =>
      match info !! i with Some sa => SA_SIZE (load 1 m sa) | None => 0 end
      + addr_space n (i + 1) info m
  end.

Lemma addr_space_bounds n i info m :
  0 <= addr_space n i info m <= 256 * Z.of_nat n /\ addr_space n i info m mod 8 = 0 /\
  (addr_space n i info m = 0 -> forall j, i <= j < i + Z.of_nat n -> info !! j = None).
Proof.
  revert i. induction n as [|n IH]; intros i; cbn [addr_space].
  { split_and!; try done; intros; lia. }
  destruct (IH (i + 1)) as (Hb & Hm & Hz). destruct (info !! i) as [sa|] eqn:Hi.
  - destruct (SA_SIZE_all (load 1 m sa)) as (_ & Hs & Hsm); [apply load1_bounds|].
    split_and!; try lia. by rewrite Z.add_mod, Hsm, Hm.
  - split_and!; try lia; [by rewrite Z.add_0_l|]. intros Hz0 j Hj.
    destruct (decide (j = i)) as [->|]; [done|]. apply Hz; lia.
Qed.

(** The addresses do not overlap the buffer [lo, hi) nor the local [ss]. *)
Definition apart (info : gmap Z Z) (lo hi : Z) : Prop :=
  forall j a b, info !! j = Some a -> a <= b < a + 256 -> ~ (lo <= b < hi) /\ ~ (ss <= b < ss + 28).

(** The addresses of the indices from [i] on are laid out from [cp] on. *)
Fixpoint laid (n : nat) (i cp : Z) (info : gmap Z Z) (m m' : memory) : Prop :=
  match n with
  | O => True
  | S n =>
      match info !! i with
      | Some a =>
          (forall k, 0 <= k < SA_SIZE (load 1 m a) -> rd m' (cp + k) = rd m (a + k)) /\
          laid n (i + 1) (cp + SA_SIZE (load 1 m a)) info m m'
      | None => laid n (i + 1) cp info m m'
      end
  end.

Lemma laid_ext n i cp info m m1 m2 :
  (forall b, cp <= b < cp + addr_space n i info m -> rd m2 b = rd m1 b) ->
  laid n i cp info m m1 -> laid n i cp info m m2.
Proof.
  revert i cp. induction n as [|n IH]; intros i cp Hb; cbn [laid addr_space] in *; [done|].
  pose proof (addr_space_bounds n (i + 1) info m) as ((Hp & _) & _ & _).
  destruct (info !! i) as [a|]; [|apply IH; intros; apply Hb; lia].
  destruct (SA_SIZE_all (load 1 m a)) as (_ & Hs & _); [apply load1_bounds|].
  intros [Hk Hl]. split.
  - intros k Hk'. rewrite Hb by lia. by apply Hk.
  - apply IH; [|done]. intros b Hb'. apply Hb. lia.
Qed.

(** One address: it is written at [cp] if it fits. *)
Lemma msg_sockaddr_spec i sa st (dlen := SA_SIZE (load 1 (s_mem st) sa)) :
  in_i32 (s_len st + dlen) ->
  (forall cp, s_cp st = Some cp -> in_i32 (s_buflen st) /\ 0 <= i) ->
  let st' := msg_sockaddr ss i sa st in
  s_len st' = s_len st + dlen /\ s_addrs st' = Z.lor (s_addrs st) (Z.shiftl 1 i) /\
  match s_cp st with
  | Some cp =>
      if dlen <=? s_buflen st then
        s_cp st' = Some (cp + dlen) /\ s_buflen st' = s_buflen st - dlen /\
        (forall b, ~ (cp <= b < cp + dlen) -> ~ (ss <= b < ss + 28) -> rd (s_mem st') b = rd (s_mem st) b) /\
        (load 1 (s_mem st) (sa + 1) <> AF_INET6 ->
         forall k, 0 <= k < dlen -> rd (s_mem st') (cp + k) = rd (s_mem st) (sa + k))
      else s_cp st' = None /\ s_mem st' = s_mem st
  | None => s_cp st' = None /\ s_mem st' = s_mem st
  end.
Proof.
  intros Hlen Hcp. unfold msg_sockaddr. rewrite doc_sa_len, doc_sa_family, Z.add_0_r. fold dlen.
  destruct (SA_SIZE_all (load 1 (s_mem st) sa)) as (_ & Hs & _); [apply load1_bounds|].
  fold dlen in Hs. clearbody dlen.
  destruct (s_cp st) as [cp|]; [|cbn; rewrite i32_id by done; done].
  destruct (Hcp cp) as [Hbl _]; [done|]. destruct (Z.leb_spec dlen (s_buflen st)) as [Hfit|].
  2: { cbn. rewrite i32_id by done. done. }
  rewrite (u32_id dlen) by (unfold in_u32; lia).
  rewrite (i32_id (s_buflen st - dlen)) by (unfold in_i32 in *; lia).
  destruct (Z.eqb_spec (load 1 (s_mem st) (sa + 1)) AF_INET6) as [Hf|Hf].
  - set (m1 := bcopy sa ss sizeof_sockaddr_in6 (s_mem st)).
    destruct (sa6_recoverscope ss m1) as [r m2] eqn:Hr.
    assert (forall b, ~ (ss <= b < ss + 28) -> rd m2 b = rd (s_mem st) b) as Hm2.
    { intros b Hb. change m2 with (r, m2).2. rewrite <- Hr, doc_recoverscope by lia.
      unfold m1. rewrite doc_sizeof_sockaddr_in6, rd_bcopy, decide_False by lia. done. }
    cbn. rewrite i32_id by done. split_and!; try done.
    intros b Hb Hb'. rewrite rd_bcopy, decide_False by lia. by apply Hm2.
  - cbn. rewrite i32_id by done. split_and!; try done.
    + intros b Hb _. rewrite rd_bcopy, decide_False by lia. done.
    + intros _ k Hk. rewrite rd_bcopy, decide_True by lia. f_equal. lia.
Qed.

(** The state of the loop at a buffer [lo, hi), from the memory [m]. *)
Definition msg_inv (m : memory) (lo hi : Z) (st : msg_state) : Prop :=
  (forall b, ~ (lo <= b < hi) -> ~ (ss <= b < ss + 28) -> rd (s_mem st) b = rd m b) /\
  forall cp, s_cp st = Some cp -> lo <= cp /\ s_buflen st = hi - cp /\ in_i32 (hi - cp).

(** What the loop makes of a state, for addresses that take [space] bytes. *)
Definition msg_done (space hi : Z) (st st' : msg_state) : Prop :=
  match s_cp st with
  | Some cp =>
      (if (space =? 0) || (cp + space <=? hi)
       then s_cp st' = Some (cp + space) else s_cp st' = None) /\
      forall b, ~ (cp <= b < hi) -> ~ (ss <= b < ss + 28) -> rd (s_mem st') b = rd (s_mem st) b
  | None => s_cp st' = None /\ s_mem st' = s_mem st
  end.

Lemma apart_load info lo hi m m' j a :
  apart info lo hi -> info !! j = Some a ->
  (forall b, ~ (lo <= b < hi) -> ~ (ss <= b < ss + 28) -> rd m' b = rd m b) ->
  forall k, 0 <= k < 256 -> rd m' (a + k) = rd m (a + k).
Proof. intros Hap Hj Hm k Hk. destruct (Hap j a (a + k) Hj); [lia|]. by apply Hm. Qed.

Lemma msg_done_trans s1 s2 hi st st1 st2 :
  0 < s1 -> 0 <= s2 -> msg_done s1 hi st st1 -> msg_done s2 hi st1 st2 -> msg_done (s1 + s2) hi st st2.
Proof.
  unfold msg_done. intros P1 P2 D1 D2. destruct (s_cp st) as [cp|].
  2: { destruct D1 as [E1 E2]. rewrite E1 in D2. destruct D2 as [F1 F2]. split; [done|by rewrite F2]. }
  destruct D1 as [E1 E2]. replace (s1 + s2 =? 0) with false by lia. cbn [orb].
  replace (s1 =? 0) with false in E1 by lia. cbn [orb] in E1.
  destruct (Z.leb_spec (cp + s1) hi).
  - rewrite E1 in D2. destruct D2 as [F1 F2]. replace (cp + (s1 + s2)) with (cp + s1 + s2) by lia. split.
    + destruct (Z.leb_spec (cp + s1 + s2) hi); [by rewrite orb_true_r in F1|].
      rewrite orb_false_r in F1. destruct (Z.eqb_spec s2 0); [lia|done].
    + intros b Hb Hb'. rewrite F2, E2 by lia. done.
  - rewrite E1 in D2. destruct D2 as [F1 F2]. replace (cp + (s1 + s2) <=? hi) with false by lia.
    split; [done|]. intros. by rewrite F2, E2.
Qed.

Lemma msg_sockaddr_done m lo hi i sa info st (dlen := SA_SIZE (load 1 m sa)) :
  apart info lo hi -> msg_inv m lo hi st -> 0 <= i -> info !! i = Some sa ->
  0 <= s_len st -> s_len st + 256 < 2147483648 ->
  let st' := msg_sockaddr ss i sa st in
  msg_inv m lo hi st' /\ s_len st' = s_len st + dlen /\ msg_done dlen hi st st' /\
  (forall cp, s_cp st = Some cp -> cp + dlen <= hi -> load 1 m (sa + 1) <> AF_INET6 ->
     forall k, 0 <= k < dlen -> rd (s_mem st') (cp + k) = rd m (sa + k)).
Proof.
  intros Hap [Hm Hcp] Hi Hsa Hl0 Hl.
  assert (forall k, 0 <= k < 256 -> rd (s_mem st) (sa + k) = rd m (sa + k)) as Hrd
    by (by apply (apart_load info lo hi _ _ i)).
  assert (load 1 (s_mem st) sa = load 1 m sa) as Hld.
  { apply load_1_ext. rewrite <- (Z.add_0_r sa). by apply Hrd. }
  destruct (SA_SIZE_all (load 1 m sa)) as (_ & Hs & _); [apply load1_bounds|].
  destruct (msg_sockaddr_spec i sa st) as (S1 & _ & S3).
  { rewrite Hld. unfold in_i32. lia. }
  { intros cp E. destruct (Hcp cp E) as (? & -> & ?). done. }
  rewrite Hld in S1, S3. fold dlen in S1, S3, Hs. clearbody dlen.
  set (st1 := msg_sockaddr ss i sa st) in *. clearbody st1. unfold msg_inv, msg_done.
  destruct (s_cp st) as [cp|] eqn:Ecp.
  2: { destruct S3 as (E1 & E2). rewrite E1, E2. done. }
  destruct (Hcp cp eq_refl) as (L1 & L2 & L3). rewrite L2 in S3.
  replace (dlen =? 0) with false by lia. cbn [orb].
  replace (cp + dlen <=? hi) with (dlen <=? hi - cp) by lia. destruct (Z.leb_spec dlen (hi - cp)).
  - destruct S3 as (E1 & E2 & E3 & E4). rewrite E1, E2. split_and!; try done.
    + intros b Hb Hb'. rewrite E3 by lia. by apply Hm.
    + intros cp' [= <-]. unfold in_i32 in *. lia.
    + intros b Hb Hb'. by apply E3; [lia|].
    + intros cp' [= <-] _ Hf k Hk. rewrite E4; [by apply Hrd; lia| |done].
      rewrite (load_1_ext _ m) by (apply Hrd; lia). done.
  - destruct S3 as (E1 & E2). rewrite E1, E2. split_and!; try done. intros cp' [= <-]. lia.
Qed.

Lemma msg_sockaddr_addrs i sa st :
  s_addrs (msg_sockaddr ss i sa st) = Z.lor (s_addrs st) (Z.shiftl 1 i).
Proof. unfold msg_sockaddr. by repeat case_match. Qed.

(** The bits of the addresses. *)
Lemma msg_loop_addrs n i info st j : 0 <= i -> 0 <= j ->
  Z.testbit (s_addrs (msg_loop ss n i info st)) j =
  Z.testbit (s_addrs st) j || bool_decide (i <= j < i + Z.of_nat n /\ is_Some (info !! j)).
Proof.
  intros Hi Hj. revert i Hi st. induction n as [|n IH]; intros i Hi st; cbn [msg_loop].
  { rewrite bool_decide_eq_false_2 by lia. by rewrite orb_false_r. }
  rewrite IH by lia. destruct (info !! i) as [sa|] eqn:Hsa.
  - rewrite msg_sockaddr_addrs, Z.lor_spec, Z.shiftl_spec, <- orb_assoc by done. f_equal.
    destruct (decide (j = i)) as [->|Hji].
    + rewrite Z.sub_diag. cbn. rewrite bool_decide_eq_true_2; [done|]. rewrite Hsa. split; [lia|done].
    + replace (Z.testbit 1 (j - i)) with false.
      * cbn [orb]. apply bool_decide_ext. split; intros [? ?]; (split; [lia|done]).
      * symmetry. change 1 with (2 ^ 0). rewrite Z.pow2_bits_eqb by lia. lia.
  - f_equal. apply bool_decide_ext. split; [intros [? ?]; split; [lia|done]|intros [? Hs]].
    split; [|done]. destruct (decide (j = i)) as [->|]; [|lia].
    rewrite Hsa in Hs. by destruct Hs.
Qed.

(** The loop without a buffer only counts. *)
Lemma msg_loop_count n i info st :
  s_cp st = None -> 0 <= s_len st -> s_len st + 256 * Z.of_nat n < 2147483648 ->
  let st' := msg_loop ss n i info st in
  s_cp st' = None /\ s_mem st' = s_mem st /\ s_len st' = s_len st + addr_space n i info (s_mem st).
Proof.
  revert i st. induction n as [|n IH]; intros i st Hcp Hl0 Hl; cbn [msg_loop addr_space].
  { split_and!; [done|done|]. lia. }
  destruct (info !! i) as [sa|] eqn:Hsa; [|apply IH; [done|lia..]].
  destruct (SA_SIZE_all (load 1 (s_mem st) sa)) as (_ & Hs & _); [apply load1_bounds|].
  destruct (msg_sockaddr_spec i sa st) as (S1 & _ & S3); [unfold in_i32; lia|by rewrite Hcp|].
  rewrite Hcp in S3. destruct S3 as [E1 E2].
  destruct (IH (i + 1) (msg_sockaddr ss i sa st)) as (I1 & I2 & I3); [done|lia..|].
  rewrite E2 in I2, I3. split_and!; [done|done|]. lia.
Qed.

Lemma msg_loop_spec m lo hi n i info st :
  apart info lo hi -> msg_inv m lo hi st -> 0 <= i ->
  0 <= s_len st -> s_len st + 256 * Z.of_nat n < 2147483648 ->
  let st' := msg_loop ss n i info st in let space := addr_space n i info m in
  msg_inv m lo hi st' /\ s_len st' = s_len st + space /\ msg_done space hi st st'.
Proof.
  intros Hap. revert i st. induction n as [|n IH]; intros i st Hinv Hi Hl0 Hl.
  { cbn. split_and!; [done|lia|]. unfold msg_done. destruct (s_cp st) as [cp|] eqn:Hcp; [|done].
    cbn. by rewrite Z.add_0_r. }
  cbn [msg_loop addr_space]. destruct (addr_space_bounds n (i + 1) info m) as ((Hsp & _) & _ & _).
  destruct (info !! i) as [sa|] eqn:Hsa; [|by apply IH; [|lia..]].
  destruct (SA_SIZE_all (load 1 m sa)) as (_ & Hs & _); [apply load1_bounds|].
  destruct (msg_sockaddr_done m lo hi i sa info st) as (S1 & S2 & S3 & _); [done|done|lia|done|lia..|].
  destruct (IH (i + 1) (msg_sockaddr ss i sa st)) as (I1 & I2 & I3); [done|lia..|].
  split_and!; [done|lia|]. by eapply msg_done_trans; [lia|lia| |].
Qed.

(** The addresses of a message that fits are laid out in the buffer. *)
Lemma msg_loop_laid m lo hi n i info st cp :
  apart info lo hi -> msg_inv m lo hi st -> 0 <= i ->
  0 <= s_len st -> s_len st + 256 * Z.of_nat n < 2147483648 ->
  hi <= ss \/ ss + 28 <= lo ->
  (forall j a, i <= j < i + Z.of_nat n -> info !! j = Some a -> load 1 m (a + 1) <> AF_INET6) ->
  s_cp st = Some cp -> cp + addr_space n i info m <= hi ->
  laid n i cp info m (s_mem (msg_loop ss n i info st)).
Proof.
  intros Hap. revert i st cp. induction n as [|n IH]; intros i st cp Hinv Hi Hl0 Hl Hss Hfam Hcp Hfit;
    cbn [msg_loop addr_space laid] in *; [done|].
  destruct (addr_space_bounds n (i + 1) info m) as ((Hsp & _) & _ & _).
  destruct (info !! i) as [sa|] eqn:Hsa.
  2: { apply IH; try done; try lia. intros j a Hj. apply Hfam. lia. }
  destruct (SA_SIZE_all (load 1 m sa)) as (_ & Hs & _); [apply load1_bounds|].
  pose proof (proj1 (proj2 Hinv cp Hcp)) as Hlo.
  destruct (msg_sockaddr_done m lo hi i sa info st) as (S1 & S2 & S3 & S5); [done|done|lia|done|lia..|].
  set (st1 := msg_sockaddr ss i sa st) in *. clearbody st1.
  set (dlen := SA_SIZE (load 1 m sa)) in *. clearbody dlen.
  destruct (msg_loop_spec m lo hi n (i + 1) info st1) as (_ & _ & K3); [done|done|lia..|].
  unfold msg_done in S3, K3. rewrite Hcp in S3. destruct S3 as [E1 _].
  replace (cp + dlen <=? hi) with true in E1 by lia. rewrite orb_true_r in E1.
  rewrite E1 in K3. destruct K3 as [_ K3]. split.
  - intros k Hk. rewrite K3 by lia. apply S5; try done; [lia|]. apply (Hfam i); [lia|done].
  - apply IH; try done; try lia. intros j a Hj. apply Hfam. lia.
Qed.

Lemma ALIGN_bounds n : 0 <= n -> n <= ALIGN n < n + 8.
Proof.
  intros Hn. rewrite doc_ALIGN by done.
  pose proof (Z.div_mod (n + 7) 8). pose proof (Z.mod_pos_bound (n + 7) 8). lia.
Qed.

(** The size of the message. *)
Definition msg_size (type : Z) (w : option walkarg) (info : gmap Z Z) (m : memory) : Z :=
  ALIGN (msg_header_size type w + addr_space 8 0 info m).

Lemma msg_size_bounds type w info m :
  8 <= msg_header_size type w <= 1024 /\
  0 <= addr_space 8 0 info m <= 2048 /\
  msg_header_size type w + addr_space 8 0 info m <= msg_size type w info m
    < msg_header_size type w + addr_space 8 0 info m + 8.
Proof.
  unfold msg_size. pose proof (doc_sizes type w).
  destruct (addr_space_bounds 8 0 info m) as (Hs & _ & _).
  split_and!; try lia; apply ALIGN_bounds; lia.
Qed.

Lemma msg_size_i32 type w info m : in_i32 (msg_size type w info m).
Proof. pose proof (msg_size_bounds type w info m). unfold in_i32. lia. Qed.

(** Without a buffer the message is only measured. *)
Lemma msg_buffer_count type info m :
  exists info', rtsock_msg_buffer ss type info None m = (0, info', msg_size type None (rti_info info) m, m) /\
    rti_info info' = rti_info info /\ rti_flags info' = rti_flags info /\
    (forall j, 0 <= j < 8 ->
       Z.testbit (rti_addrs info') j = bool_decide (is_Some (rti_info info !! j))).
Proof.
  destruct (msg_size_bounds type None (rti_info info) m) as (Hh & Hs & _).
  unfold rtsock_msg_buffer. rewrite doc_RTAX_MAX. set (st0 := MsgState _ None _ _ _).
  destruct (msg_loop_count 8 0 (rti_info info) st0) as (I1 & I2 & I3); [done|cbn; lia..|].
  cbn [s_len s_mem st0] in I2, I3. rewrite I1, I2, I3. fold (msg_size type None (rti_info info) m).
  rewrite i32_id by apply msg_size_i32. eexists. split_and!; [done..|].
  intros j Hj. cbn [rti_addrs]. rewrite msg_loop_addrs by lia. cbn [s_addrs st0]. rewrite Z.testbit_0_l.
  apply bool_decide_ext. split; [by intros [_ ?]|]. intros. split; [lia|done].
Qed.

(** The state in which the loop starts at a buffer, and the one in which it ends. *)
Definition msg_start (type : Z) (x : walkarg) (m : memory) : msg_state :=
  let hdr := msg_header_size type (Some x) in
  MsgState hdr (Some (w_tmem x + hdr)) (w_tmemsize x - hdr) 0 m.

Definition msg_end (type : Z) (x : walkarg) (info : gmap Z Z) (m : memory) : msg_state :=
  msg_loop ss 8 0 info (msg_start type x m).

Lemma msg_start_inv type x m : 0 <= w_tmemsize x < 2147483648 ->
  msg_inv m (w_tmem x) (w_tmem x + w_tmemsize x) (msg_start type x m).
Proof.
  intros Hsz. pose proof (doc_sizes type (Some x)) as Hh.
  split; [done|]. cbn. intros cp [= <-]. unfold in_i32. lia.
Qed.

Lemma msg_end_spec type x info m :
  0 <= w_tmemsize x < 2147483648 -> apart info (w_tmem x) (w_tmem x + w_tmemsize x) ->
  let st := msg_end type x info m in let size := msg_size type (Some x) info m in
  msg_inv m (w_tmem x) (w_tmem x + w_tmemsize x) st /\
  s_len st = msg_header_size type (Some x) + addr_space 8 0 info m /\
  match s_cp st with
  | Some cp => if s_buflen st <? size - s_len st then None else Some cp
  | None => None
  end = if size <=? w_tmemsize x then Some (w_tmem x + s_len st) else None.
Proof.
  intros Hsz Hap. destruct (msg_size_bounds type (Some x) info m) as (Hh & Hs & Hal).
  destruct (msg_loop_spec m (w_tmem x) (w_tmem x + w_tmemsize x) 8 0 info (msg_start type x m))
    as (I1 & I2 & I3); [done|by apply msg_start_inv|cbn; lia..|].
  fold (msg_end type x info m) in I1, I2, I3. cbn zeta. set (st := msg_end type x info m) in *.
  unfold msg_done in I3. cbn [s_len s_cp msg_start] in I2, I3.
  set (space := addr_space 8 0 info m) in *. set (hdr := msg_header_size type (Some x)) in *.
  set (size := msg_size type (Some x) info m) in *. clearbody st space hdr size.
  split_and!; [done|done|]. rewrite I2.
  destruct I3 as [E _]. replace (w_tmem x + hdr + space <=? w_tmem x + w_tmemsize x)
    with (hdr + space <=? w_tmemsize x) in E by lia.
  destruct (Z.leb_spec size (w_tmemsize x)).
  - replace (hdr + space <=? w_tmemsize x) with true in E by lia. rewrite orb_true_r in E.
    rewrite E. destruct (proj2 I1 _ E) as (_ & Hb & _). rewrite Hb.
    destruct (Z.ltb_spec (w_tmem x + w_tmemsize x - (w_tmem x + hdr + space)) (size - (hdr + space))); [lia|].
    f_equal. lia.
  - destruct (s_cp st) as [cp|] eqn:Ecp; [|done].
    destruct (proj2 I1 _ Ecp) as (_ & Hb & _). rewrite Hb.
    assert (cp = w_tmem x + hdr + space) as -> by (destruct (_ || _); [by injection E|done]).
    destruct (Z.ltb_spec (w_tmem x + w_tmemsize x - (w_tmem x + hdr + space)) (size - (hdr + space))); [done|lia].
Qed.

(** The header, written over the memory of the loop if the message fits. *)
Definition msg_header (type : Z) (x : walkarg) (info : gmap Z Z) (m : memory) : memory :=
  let st := msg_end type x info m in let size := msg_size type (Some x) info m in
  if size <=? w_tmemsize x
  then store 2 (store 1 (store 1 (s_mem st) (w_tmem x + 2) RTM_VERSION) (w_tmem x + 3) type)
         (w_tmem x) size
  else s_mem st.

Lemma msg_buffer_write type info x m :
  0 <= w_tmemsize x < 2147483648 -> apart (rti_info info) (w_tmem x) (w_tmem x + w_tmemsize x) ->
  let size := msg_size type (Some x) (rti_info info) m in
  exists info', rtsock_msg_buffer ss type info (Some x) m =
      (if size <=? w_tmemsize x then 0 else LAZYBSD_ENOBUFS, info', size,
       msg_header type x (rti_info info) m) /\
    rti_info info' = rti_info info /\ rti_flags info' = rti_flags info /\
    (forall j, 0 <= j < 8 ->
       Z.testbit (rti_addrs info') j = bool_decide (is_Some (rti_info info !! j))).
Proof.
  intros Hsz Hap. destruct (msg_size_bounds type (Some x) (rti_info info) m) as (Hh & Hs & Hal).
  pose proof (doc_sizes type (Some x)) as Hh0.
  destruct (msg_end_spec type x (rti_info info) m) as (I1 & I2 & I3); [done|done|].
  unfold rtsock_msg_buffer. rewrite doc_RTAX_MAX, (i32_id (w_tmemsize x - _)) by (unfold in_i32; lia).
  fold (msg_start type x m). fold (msg_end type x (rti_info info) m).
  destruct doc_rt_msghdr as (-> & -> & ->).
  rewrite <- I2 in Hal. assert (ALIGN (s_len (msg_end type x (rti_info info) m))
    = msg_size type (Some x) (rti_info info) m) as -> by (by rewrite I2).
  rewrite (i32_id (msg_size _ _ _ _)) by apply msg_size_i32.
  rewrite (i32_id (_ - _)) by (unfold in_i32; lia). rewrite I3, Z.add_0_r. unfold msg_header.
  eexists. split; [|split_and!].
  - by destruct (_ <=? w_tmemsize x).
  - done.
  - done.
  - intros j Hj. cbn [rti_addrs]. unfold msg_end. rewrite msg_loop_addrs by lia.
    cbn [s_addrs msg_start]. rewrite Z.testbit_0_l.
    apply bool_decide_ext. split; [by intros [_ ?]|]. intros. split; [lia|done].
Qed.

Lemma rd_msg_header type x info m b :
  0 <= w_tmemsize x < 2147483648 -> apart info (w_tmem x) (w_tmem x + w_tmemsize x) ->
  (~ (w_tmem x <= b < w_tmem x + w_tmemsize x) -> ~ (ss <= b < ss + 28) ->
    rd (msg_header type x info m) b = rd m b) /\
  (w_tmem x + 4 <= b -> rd (msg_header type x info m) b = rd (s_mem (msg_end type x info m)) b).
Proof.
  intros Hsz Hap. destruct (msg_size_bounds type (Some x) info m) as (Hh & Hs & Hal).
  destruct (msg_end_spec type x info m) as ((Hm & _) & _ & _); [done|done|].
  unfold msg_header. destruct (Z.leb_spec (msg_size type (Some x) info m) (w_tmemsize x)).
  - split; intros; rewrite !rd_store_out by lia; [|done]. by apply Hm.
  - split; [|done]. apply Hm.
Qed.

(** [rt_xaddrs] takes addresses that are laid out back out of memory. *)
Lemma rt_xaddrs_loop_laid n i cp cplim info m m' rtinfo :
  laid n i cp info m m' -> 0 <= i -> cp + addr_space n i info m <= cplim ->
  (forall j, i <= j < i + Z.of_nat n ->
     Z.testbit (rti_addrs rtinfo) j = bool_decide (is_Some (info !! j))) ->
  (forall j a, i <= j < i + Z.of_nat n -> info !! j = Some a ->
     load 1 m a <> 0 /\ load 1 m (a + 1) <> AF_INET6) ->
  exists rtinfo', rt_xaddrs_loop sa_zero n i cp cplim rtinfo m' = (0, rtinfo', m') /\
    (forall j, ~ (i <= j < i + Z.of_nat n) -> rti_info rtinfo' !! j = rti_info rtinfo !! j) /\
    (forall j, i <= j < i + Z.of_nat n ->
       match info !! j with
       | Some a => exists a', rti_info rtinfo' !! j = Some a' /\
           forall k, 0 <= k < SA_SIZE (load 1 m a) -> rd m' (a' + k) = rd m (a + k)
       | None => rti_info rtinfo' !! j = rti_info rtinfo !! j
       end).
Proof.
  revert i cp rtinfo. induction n as [|n IH]; intros i cp rtinfo Hl Hi Hlim Hbits Hok;
    cbn [laid addr_space rt_xaddrs_loop] in *.
  { eexists. split_and!; [done|done|lia]. }
  destruct (addr_space_bounds n (i + 1) info m) as ((Hsp & _) & _ & Hz).
  rewrite Hbits, doc_sa_len, doc_sa_family, Z.add_0_r by lia.
  destruct (info !! i) as [a|] eqn:Ha.
  - rewrite bool_decide_eq_true_2 by done. cbn [negb].
    destruct Hl as [Hk Hl]. destruct (Hok i a) as [Hlen Hfam]; [lia|done|].
    pose proof (load1_bounds m a) as Hb.
    destruct (SA_SIZE_all (load 1 m a)) as (Hge & Hs & _); [done|].
    assert (load 1 m' cp = load 1 m a) as Eld.
    { specialize (Hk 0). rewrite !Z.add_0_r in Hk. rewrite !load_1, Hk by lia. done. }
    assert (load 1 m' (cp + 1) = load 1 m (a + 1)) as Efam by (rewrite !load_1, Hk by lia; done).
    rewrite Eld, Efam. set (sz := SA_SIZE (load 1 m a)) in *.
    replace (cp <? _) with true by lia. replace (_ <? cp + load 1 m a) with false by lia.
    replace (load 1 m a =? 0) with false by lia. cbn [negb].
    replace (load 1 m (a + 1) =? AF_INET6) with false by lia.
    rewrite Eld. fold sz. set (rtinfo1 := set_info _ _).
    destruct (IH (i + 1) (cp + sz) rtinfo1) as (r & E & F1 & F2); [done|lia|lia| | |].
    { intros j Hj. apply Hbits. lia. }
    { intros j a' Hj. apply Hok. lia. }
    rewrite E. exists r. split; [done|]. split.
    + intros j Hj. rewrite F1 by lia. cbn. by rewrite lookup_insert_ne by lia.
    + intros j Hj. destruct (decide (j = i)) as [->|].
      * rewrite Ha. exists cp. rewrite F1 by lia. cbn. by rewrite lookup_insert_eq.
      * specialize (F2 j). destruct (info !! j) as [a'|] eqn:Ej; [apply F2; lia|].
        rewrite F2 by lia. cbn. by rewrite lookup_insert_ne by lia.
  - rewrite bool_decide_eq_false_2 by (intros [? ?]; done). cbn [negb].
    destruct (IH (i + 1) cp rtinfo) as (r & E & F1 & F2); [done|lia|lia| | |].
    { intros j Hj. apply Hbits. lia. }
    { intros j a' Hj. apply Hok. lia. }
    destruct (Z.ltb_spec cp cplim) as [_|Hge]; cbn [negb].
    + exists r. split; [done|]. split; [intros; apply F1; lia|]. intros j Hj.
      destruct (decide (j = i)) as [->|]; [rewrite Ha; apply F1; lia|apply F2; lia].
    + exists rtinfo. split_and!; [done|done|]. intros j Hj.
      destruct (decide (j = i)) as [->|]; [by rewrite Ha|]. by rewrite Hz by lia.
Qed.

(** The size of a routing message and its errors.  [rtsock_msg_buffer] reports
    the same size with and without a buffer, that of the header of the message and
    of every address rounded up, aligned; it fails, with [ENOBUFS], exactly if there is a
    buffer and the message does not fit in it; [rti_addrs] has the bits of the
    addresses present.  It writes inside the buffer and its own local only, whether
    it fails or not, and a message that fits gets its header. *)
Theorem rtsock_msg_buffer_spec type info w m :
  (forall x, w = Some x -> 0 <= w_tmemsize x < 2147483648 /\
     apart (rti_info info) (w_tmem x) (w_tmem x + w_tmemsize x)) ->
  exists e info' size m', rtsock_msg_buffer ss type info w m = (e, info', size, m') /\
    size = ALIGN (msg_header_size type w + addr_space 8 0 (rti_info info) m) /\
    e = match w with
        | Some x => if size <=? w_tmemsize x then 0 else LAZYBSD_ENOBUFS
        | None => 0
        end /\
    rti_info info' = rti_info info /\ rti_flags info' = rti_flags info /\
    (forall j, 0 <= j < 8 ->
       Z.testbit (rti_addrs info') j = bool_decide (is_Some (rti_info info !! j))) /\
    match w with
    | None => m' = m
    | Some x =>
        (forall b, ~ (w_tmem x <= b < w_tmem x + w_tmemsize x) -> ~ (ss <= b < ss + 28) ->
           rd m' b = rd m b) /\
        (size <= w_tmemsize x -> load 2 m' (w_tmem x) = size /\
           load 1 m' (w_tmem x + 2) = u8 RTM_VERSION /\ load 1 m' (w_tmem x + 3) = u8 type)
    end.
Proof.
  intros Hw. destruct w as [x|].
  - destruct (Hw x eq_refl) as (Hsz & Hap).
    destruct (msg_buffer_write type info x m Hsz Hap) as (info' & E & F1 & F2 & F3).
    eexists _, info', _, _. rewrite E. split_and!; try done.
    + intros b. by apply rd_msg_header.
    + intros Hfit. fold (msg_size type (Some x) (rti_info info) m) in Hfit |- *.
      destruct (msg_size_bounds type (Some x) (rti_info info) m) as (Hh & Hs & Hal).
      unfold msg_header. replace (_ <=? _) with true by lia.
      rewrite load_store, !(load_store_sep 1 2), load_store, load_store_sep, load_store by lia.
      split; [|done]. rewrite Z.mod_small by lia. done.
  - destruct (msg_buffer_count type info m) as (info' & E & F).
    eexists _, info', _, _. rewrite E. split_and!; try done; apply F.
Qed.

(** C8. Round trip of routing messages.  The addresses of a message that
    [rtsock_msg_buffer] has written are read back by [rt_xaddrs], from the bits and
    the bytes of the message: every index gets a copy, byte by byte, of the address
    that was there, and no other index gets one.  The addresses have a length and
    are not IPv6 addresses, whose scope the two functions translate. *)
Theorem rt_message_roundtrip type info x m info' size m' :
  0 <= w_tmemsize x < 2147483648 ->
  apart (rti_info info) (w_tmem x) (w_tmem x + w_tmemsize x) ->
  w_tmem x + w_tmemsize x <= ss \/ ss + 28 <= w_tmem x ->
  (forall j a, 0 <= j < 8 -> rti_info info !! j = Some a ->
     load 1 m a <> 0 /\ load 1 m (a + 1) <> AF_INET6) ->
  rtsock_msg_buffer ss type info (Some x) m = (0, info', size, m') ->
  exists r, rt_xaddrs sa_zero (w_tmem x + msg_header_size type (Some x)) (w_tmem x + size)
      (RtAddrinfo (rti_addrs info') (rti_flags info') ∅) m' = (0, r, m') /\
    forall j, 0 <= j < 8 ->
      match rti_info info !! j with
      | Some a => exists a', rti_info r !! j = Some a' /\
          forall k, 0 <= k < load 1 m a -> rd m' (a' + k) = rd m (a + k)
      | None => rti_info r !! j = None
      end.
Proof.
  intros Hsz Hap Hss Hok HE.
  destruct (msg_buffer_write type info x m Hsz Hap) as (info1 & E & _ & _ & F3).
  rewrite E in HE. injection HE as He <- <- <-.
  destruct (msg_size_bounds type (Some x) (rti_info info) m) as (Hh & Hs & Hal).
  destruct (Z.leb_spec (msg_size type (Some x) (rti_info info) m) (w_tmemsize x)) as [Hfit|]; [|done].
  set (hdr := msg_header_size type (Some x)) in *.
  unfold rt_xaddrs. rewrite doc_RTAX_MAX.
  destruct (rt_xaddrs_loop_laid 8 0 (w_tmem x + hdr) (w_tmem x + msg_size type (Some x) (rti_info info) m)
    (rti_info info) m (msg_header type x (rti_info info) m)
    (RtAddrinfo (rti_addrs info1) (rti_flags info1) ∅)) as (r & Er & _ & Fr); [|done|lia|exact F3|by apply Hok|].
  - apply (laid_ext _ _ _ _ _ (s_mem (msg_end type x (rti_info info) m))).
    { intros b Hb. apply rd_msg_header; [done|done|lia]. }
    apply (msg_loop_laid m (w_tmem x) (w_tmem x + w_tmemsize x)); try done; [by apply msg_start_inv|cbn; lia..| |].
    + intros j a Hj Ha. by apply (Hok j a).
    + fold hdr. lia.
  - exists r. split; [done|]. intros j Hj. specialize (Fr j Hj).
    destruct (rti_info info !! j) as [a|]; [|by rewrite Fr].
    destruct Fr as (a' & Ea & Fk). exists a'. split; [done|]. intros k Hk. apply Fk.
    destruct (SA_SIZE_all (load 1 m a)) as (Hge & _); [apply load1_bounds|]. lia.
Qed.
End RouteFacts.

(** ** Examples *)

(** The values of FreeBSD.  The scope of an IPv6 address is kept in its second word. *)
#[export] Instance example_route_headers : RouteHeaders := {
  RTAX_DST := 0; RTAX_GATEWAY := 1; RTAX_NETMASK := 2; RTAX_MAX := 8;
  RTA_NETMASK := 4; RTF_HOST := 4; RTF_LLDATA := 1024;
  AF_INET := 2; AF_LINK := 18; RTM_VERSION := 5;
  RTM_DELADDR := 13; RTM_NEWADDR := 12; RTM_IFINFO := 14; RTM_NEWMADDR := 15; NET_RT_IFLISTL := 5;
  SA_SIZE n := if n =? 0 then 8 else 8 * ((n + 7) / 8);
  sizeof_rt_msghdr := 152; sizeof_ifa_msghdr := 20; sizeof_ifa_msghdrl := 176;
  sizeof_if_msghdr := 168; sizeof_if_msghdrl := 176; sizeof_ifma_msghdr := 16;
  rtm_msglen := 0; rtm_version := 2; rtm_type := 3;
  sizeof_sockaddr_in := 16; sizeof_sockaddr_in6 := 28; sizeof_sockaddr_dl_short := 16;
  sin_addr := 4; sin6_addr := 8; sin6_scope_id := 24;
  sdl_index := 2; sdl_nlen := 5; sdl_alen := 6; sdl_data := 8;
  sa6_embedscope a m := store 2 m (a + 10) (load 4 m (a + 24));
  sa6_recoverscope a m := (0, store 2 (store 4 m (a + 24) (load 2 m (a + 10))) (a + 10) 0) }.

#[export] Instance example_route_headers_doc : RouteHeadersDoc.
Proof.
  split; try done.
  - intros n Hn. cbn. by replace (n =? 0) with false by lia.
  - intros a m b Hb. cbn [sa6_embedscope sa6_recoverscope example_route_headers snd].
    by rewrite !rd_store_out by lia.
  - intros a m b Hb. cbn [sa6_embedscope sa6_recoverscope example_route_headers snd].
    by rewrite !rd_store_out by lia.
  - intros type w. unfold msg_header_size. cbn. repeat case_match; lia.
Qed.

(** The address 10.0.0.1 at 100 and the mask 255.0.0.0 at 400, in the slots 0 and 2. *)
Definition example_route_memory : memory :=
  bytes_at 100 ([16; 2; 0; 0; 10; 0; 0; 1] ++ replicate 8 0) ∪
  bytes_at 400 ([16; 2; 0; 0; 255; 0; 0; 0] ++ replicate 8 0).
Definition example_rtinfo : rt_addrinfo := RtAddrinfo 0 0 (<[0 := 100]> (<[2 := 400]> ∅)).
Definition example_walkarg : walkarg := Walkarg 184 0 1000.
Definition example_message : Z * rt_addrinfo * Z * memory :=
  rtsock_msg_buffer 5000 4 example_rtinfo (Some example_walkarg) example_route_memory.

Lemma example_info_cases j a : rti_info example_rtinfo !! j = Some a -> a = 100 \/ a = 400.
Proof.
  cbn. rewrite !lookup_insert_Some, lookup_empty. intros [[_ <-]|[_ [[_ <-]|[_ Hn]]]]; auto.
  discriminate Hn.
Qed.

Lemma example_apart : apart 5000 (rti_info example_rtinfo) 1000 1184.
Proof. intros j a b Hj Hb. destruct (example_info_cases j a Hj) as [-> | ->]; lia. Qed.

Lemma quad_eta {A B C D} (q : A * B * C * D) a c :
  q.1.1.1 = a -> q.1.2 = c -> q = (a, q.1.1.2, c, q.2).
Proof. intros <- <-. by rewrite <- !surjective_pairing. Qed.

(** A message of the two bytes of a header that says IPv6, before a word 7 at the place of
    the scope: byte 1162 is behind its end. *)
Definition short_message : memory := <[1152 := 2]> (<[1153 := AF_INET6]> (<[1176 := 7]> ∅)).


Lemma rtsock_msg_buffer_spec_witness :
  exists info' m', example_message = (0, info', 184, m') /\ load 2 m' 1000 = 184.
Proof.
  destruct (rtsock_msg_buffer_spec 5000 4 example_rtinfo (Some example_walkarg) example_route_memory)
    as (e & info' & size & m' & E & F1 & F2 & _ & _ & _ & _ & F3).
  - intros x [= <-]. split; [by split|exact example_apart].
  - assert (size = 184) as -> by (rewrite F1; by vm_compute).
    exists info', m'. unfold example_message. rewrite E, F2. split; [done|]. by apply F3.
Defined.

Lemma rt_message_roundtrip_witness :
  exists r, rt_xaddrs 7000 1152 1184 (RtAddrinfo 5 0 ∅) example_message.2 = (0, r, example_message.2) /\
    exists a, rti_info r !! 0 = Some a /\ rd example_message.2 (a + 4) = 10.
Proof.
  destruct (rt_message_roundtrip 7000 5000 4 example_rtinfo example_walkarg example_route_memory
    example_message.1.1.2 184 example_message.2) as (r & E & Fr).
  - by split.
  - exact example_apart.
  - left. by vm_compute.
  - intros j a _ Hj. destruct (example_info_cases j a Hj) as [-> | ->]; by vm_compute.
  - apply quad_eta; by vm_compute.
  - exists r. split; [exact E|]. destruct (Fr 0) as (a & Ea & Fk); [lia|].
    exists a. split; [exact Ea|]. refine (eq_trans (Fk 4 _) _); [|by vm_compute].
    assert (load 1 example_route_memory 100 = 16) as -> by by vm_compute. lia.
Defined.
