(* ===== verification/RouteClean.v ===== *)
(** * RouteClean: the addresses of a routing request ([bsd/lib/lazybsd_route.c])

    Before a request of the user reaches the routing table its addresses are checked and
    put into a normal form ([cleanup_xaddrs]): the destination is masked, a mask of all
    ones is dropped, structures get the length of their type and zeros in the fields that
    do not matter.  Addresses are bytes of memory; an assignment of a structure writes
    all of its bytes. *)
From S2P Require Import Prelude Errno KernSubr SockConv Route.

(** ** Structures in memory *)

(** [*a = s] for a structure of [n] bytes; [img] has the bytes of [s], from 0 on. *)
Definition assign_struct (a n : Z) (img m : memory) : memory :=
  foldr (fun i m => <[a + i := rd img i]> m) m (seqZ 0 n).

(** A structure whose members are zero but for those that follow. *)
Definition zeros : memory := ∅.

Definition INADDR_BROADCAST : Z := 2 ^ 32 - 1.
Definition in6mask128 : Z := 2 ^ 128 - 1.

Section Clean.
Context `{BsdHeaders} `{RouteHeaders}.

Definition fill_sockaddr_inet (sin addr : Z) (m : memory) : memory :=
  let nsin := store 1 zeros sa_family AF_INET in
  let nsin := store 1 nsin sa_len sizeof_sockaddr_in in
  let nsin := store 4 nsin sin_addr addr in
  assign_struct sin sizeof_sockaddr_in nsin m.

(** [addr6] is the address of the [in6_addr]. *)
Definition fill_sockaddr_inet6 (sin6 addr6 scopeid : Z) (m : memory) : memory :=
  let nsin6 := store 1 zeros sa_family AF_INET6 in
  let nsin6 := store 1 nsin6 sa_len sizeof_sockaddr_in6 in
  let nsin6 := store 16 nsin6 sin6_addr addr6 in
  let nsin6 := store 4 nsin6 sin6_scope_id scopeid in
  assign_struct sin6 sizeof_sockaddr_in6 nsin6 m.

Definition fill_sockaddr_dl (sdl index : Z) (m : memory) : memory :=
  let s := store 1 zeros sa_family AF_LINK in
  let s := store 1 s sa_len sizeof_sockaddr_dl_short in
  let s := store 2 s sdl_index index in
  assign_struct sdl sizeof_sockaddr_dl_short s m.

Definition cleanup_xaddrs_lladdr (sdl : Z) (m : memory) : Z :=
  if negb (load 1 m (sdl + sa_family) =? AF_LINK) then LAZYBSD_EINVAL
  else if load 2 m (sdl + sdl_index) =? 0 then LAZYBSD_EINVAL
  else if load 1 m (sdl + sa_len) <? sdl_data + load 1 m (sdl + sdl_nlen) + load 1 m (sdl + sdl_alen)
  then LAZYBSD_EINVAL
  else 0.

Definition cleanup_xaddrs_gateway (gw : Z) (info : rt_addrinfo) (m : memory) : Z * memory :=
  if negb (Z.land (rti_flags info) RTF_LLDATA =? 0) then (cleanup_xaddrs_lladdr gw m, m)
  else
    let family := load 1 m (gw + sa_family) in
    if family =? AF_INET then
      if load 1 m (gw + sa_len) <? sizeof_sockaddr_in then (LAZYBSD_EINVAL, m)
      else (0, fill_sockaddr_inet gw (load 4 m (gw + sin_addr)) m)
    else if family =? AF_INET6 then
      if load 1 m (gw + sa_len) <? sizeof_sockaddr_in6 then (LAZYBSD_EINVAL, m)
      else (0, fill_sockaddr_inet6 gw (load 16 m (gw + sin6_addr)) 0 m)
    else if family =? AF_LINK then
      if load 1 m (gw + sa_len) <? sizeof_sockaddr_dl_short then (LAZYBSD_EINVAL, m)
      else (0, fill_sockaddr_dl gw (load 2 m (gw + sdl_index)) m)
    else (0, m).

Definition remove_netmask (info : rt_addrinfo) : rt_addrinfo :=
  RtAddrinfo (Z.land (rti_addrs info) (Z.lnot RTA_NETMASK)) (Z.lor (rti_flags info) RTF_HOST)
    (delete RTAX_NETMASK (rti_info info)).

(** [Check gateway]: the end of both routines below. *)
Definition check_gateway (info : rt_addrinfo) (m : memory) : Z * rt_addrinfo * memory :=
  match rti_info info !! RTAX_GATEWAY with
  | Some gw => let '(e, m) := cleanup_xaddrs_gateway gw info m in (e, info, m)
  | None => (0, info, m)
  end.

(** The destination and the mask; 0 if the routine goes on. *)
Definition cleanup_inet_dst (dst_sa : Z) (info : rt_addrinfo) (m : memory) : Z * rt_addrinfo * memory :=
  let mask_sa := rti_info info !! RTAX_NETMASK in
  let mask := match mask_sa with Some a => load 4 m (a + sin_addr) | None => INADDR_BROADCAST end in
  let dst := Z.land (load 4 m (dst_sa + sin_addr)) mask in
  if load 1 m (dst_sa + sa_len) <? sizeof_sockaddr_in then (LAZYBSD_EINVAL, info, m)
  else if match mask_sa with Some a => load 1 m (a + sa_len) <? sizeof_sockaddr_in | None => false end
  then (LAZYBSD_EINVAL, info, m)
  else
    let m := fill_sockaddr_inet dst_sa dst m in
    match mask_sa with
    | Some a => if negb (mask =? INADDR_BROADCAST) then (0, info, fill_sockaddr_inet a mask m)
                else (0, remove_netmask info, m)
    | None => (0, remove_netmask info, m)
    end.

Definition cleanup_xaddrs_inet (dst_sa : Z) (info : rt_addrinfo) (m : memory) : Z * rt_addrinfo * memory :=
  let '(e, info, m) := cleanup_inet_dst dst_sa info m in
  if negb (e =? 0) then (e, info, m) else check_gateway info m.

Definition cleanup_inet6_dst (dst_sa : Z) (info : rt_addrinfo) (m : memory) : Z * rt_addrinfo * memory :=
  let mask_sa := rti_info info !! RTAX_NETMASK in
  let mask := match mask_sa with Some a => load 16 m (a + sin6_addr) | None => in6mask128 end in
  let m := store 16 m (dst_sa + sin6_addr) (Z.land (load 16 m (dst_sa + sin6_addr)) mask) in
  if load 1 m (dst_sa + sa_len) <? sizeof_sockaddr_in6 then (LAZYBSD_EINVAL, info, m)
  else if match mask_sa with Some a => load 1 m (a + sa_len) <? sizeof_sockaddr_in6 | None => false end
  then (LAZYBSD_EINVAL, info, m)
  else
    let m := fill_sockaddr_inet6 dst_sa (load 16 m (dst_sa + sin6_addr)) 0 m in
    match mask_sa with
    | Some a => if negb (mask =? in6mask128) then (0, info, fill_sockaddr_inet6 a mask 0 m)
                else (0, remove_netmask info, m)
    | None => (0, remove_netmask info, m)
    end.

Definition cleanup_xaddrs_inet6 (dst_sa : Z) (info : rt_addrinfo) (m : memory) : Z * rt_addrinfo * memory :=
  let '(e, info, m) := cleanup_inet6_dst dst_sa info m in
  if negb (e =? 0) then (e, info, m) else check_gateway info m.

Definition cleanup_xaddrs (info : rt_addrinfo) (m : memory) : Z * rt_addrinfo * memory :=
  match rti_info info !! RTAX_DST with
  | None => (LAZYBSD_EINVAL, info, m)
  | Some dst =>
      let info := if negb (Z.land (rti_flags info) RTF_LLDATA =? 0) then remove_netmask info else info in
      let family := load 1 m (dst + sa_family) in
      if family =? AF_INET then cleanup_xaddrs_inet dst info m
      else if family =? AF_INET6 then cleanup_xaddrs_inet6 dst info m
      else (LAZYBSD_EAFNOSUPPORT, info, m)
  end.

(** The mask of the request: the [k] bytes at [off] of the mask structure, or all ones. *)
Definition netmask_of (k : nat) (off ones : Z) (info : rt_addrinfo) (m : memory) : Z :=
  match rti_info info !! RTAX_NETMASK with Some a => load k m (a + off) | None => ones end.
End Clean.

(** ** What the headers of FreeBSD document *)
Class RouteAddrDoc `{RouteHeadersDoc} : Prop := {
  doc_families : AF_INET = 2 /\ AF_LINK = 18;
  doc_sockaddr_in : sizeof_sockaddr_in = 16 /\ sin_addr = 4;
  doc_sockaddr_in6 : sin6_addr = 8 /\ sin6_scope_id = 24;
  doc_sockaddr_dl : 4 <= sizeof_sockaddr_dl_short <= 28 /\ sdl_index = 2 /\ sdl_nlen = 5 /\ sdl_alen = 6;
  doc_flags : Z.land RTF_HOST RTF_LLDATA = 0;
  doc_rtax : RTAX_DST <> RTAX_GATEWAY /\ RTAX_DST <> RTAX_NETMASK /\ RTAX_GATEWAY <> RTAX_NETMASK }.

(** ** Structures *)
Lemma rd_assign_struct a n img m b : 0 <= n ->
  rd (assign_struct a n img m) b = if decide (a <= b < a + n) then rd img (b - a) else rd m b.
Proof.
  intros Hn. unfold assign_struct.
  assert (forall k j, 0 <= j ->
    rd (foldr (fun i m => <[a + i := rd img i]> m) m (seqZ j (Z.of_nat k))) b =
    if decide (a + j <= b < a + j + Z.of_nat k) then rd img (b - a) else rd m b) as Hgen.
  { induction k as [|k IH]; intros j Hj.
    - cbn. rewrite decide_False by lia. done.
    - rewrite seqZ_cons by lia. cbn [foldr]. rewrite rd_insert. replace (Z.pred (Z.of_nat (S k))) with (Z.of_nat k) by lia.
      case_decide as Hb.
      + subst b. rewrite decide_True by lia. f_equal. lia.
      + rewrite IH by lia. destruct (decide (a + Z.succ j <= b < a + Z.succ j + Z.of_nat k)).
        * rewrite decide_True by lia. done.
        * rewrite decide_False by lia. done. }
  specialize (Hgen (Z.to_nat n) 0 ltac:(lia)). rewrite Z2Nat.id, Z.add_0_r in Hgen by done. exact Hgen.
Qed.

Lemma load_assign_in k a n img m off : 0 <= off -> off + Z.of_nat k <= n ->
  load k (assign_struct a n img m) (a + off) = load k img off.
Proof.
  intros Ho Hn. revert off Ho Hn. induction k as [|k IH]; intros off Ho Hn; [done|]. cbn [load].
  rewrite rd_assign_struct, decide_True by lia. replace (a + off - a) with off by lia. f_equal. f_equal.
  replace (a + off + 1) with (a + (off + 1)) by lia. apply IH; lia.
Qed.

Lemma load_assign_out k a n img m x : 0 <= n -> x + Z.of_nat k <= a \/ a + n <= x ->
  load k (assign_struct a n img m) x = load k m x.
Proof. intros Hn Hx. apply load_ext. intros b Hb. rewrite rd_assign_struct, decide_False by lia. done. Qed.

(** Two memories agree on [n] bytes from [a] on; everywhere. *)
Definition agree (a n : Z) (m m' : memory) : Prop := forall b, a <= b < a + n -> rd m' b = rd m b.
Definition same (m m' : memory) : Prop := forall b, rd m' b = rd m b.

Lemma agree_load k a n m m' x : agree a n m m' -> a <= x -> x + Z.of_nat k <= a + n -> load k m' x = load k m x.
Proof. intros Ha H1 H2. apply load_ext. intros b Hb. apply Ha. lia. Qed.

Lemma same_load k m m' x : same m m' -> load k m' x = load k m x.
Proof. intros Hs. apply load_ext. intros b _. apply Hs. Qed.

(** An assignment of what is there changes nothing. *)
Lemma assign_again a n img m m' : 0 <= n -> agree a n (assign_struct a n img m) m' ->
  same m' (assign_struct a n img m').
Proof.
  intros Hn Ha b. rewrite rd_assign_struct by done. case_decide as Hb; [|done].
  rewrite (Ha b Hb), rd_assign_struct, decide_True by done. done.
Qed.

Section CleanFacts.
Context `{RouteAddrDoc}.

(** The numbers of the headers. *)
Local Ltac headers :=
  rewrite ?(proj1 doc_families), ?(proj2 doc_families), ?(proj1 doc_sockaddr_in), ?(proj2 doc_sockaddr_in),
    ?(proj1 doc_sockaddr_in6), ?(proj2 doc_sockaddr_in6), ?doc_sizeof_sockaddr_in6, ?doc_sa_len, ?doc_sa_family,
    ?doc_AF_INET6, ?(proj1 (proj2 doc_sockaddr_dl)), ?(proj1 (proj2 (proj2 doc_sockaddr_dl))),
    ?(proj2 (proj2 (proj2 doc_sockaddr_dl))), ?Z.add_0_r;
  pose proof (proj1 doc_sockaddr_dl).

(** The fields of a structure just filled. *)
Lemma inet_fields a v m :
  let m' := fill_sockaddr_inet a v m in
  load 1 m' a = 16 /\ load 1 m' (a + 1) = 2 /\ load 4 m' (a + 4) = v mod 2 ^ 32 /\
  (forall b, ~ (a <= b < a + 16) -> rd m' b = rd m b).
Proof.
  cbn zeta. unfold fill_sockaddr_inet. headers. split_and!.
  - rewrite <- (Z.add_0_r a) at 2. rewrite load_assign_in by (cbn; lia). by repeat mem_step.
  - rewrite load_assign_in by (cbn; lia). by repeat mem_step.
  - rewrite load_assign_in by (cbn; lia). by repeat mem_step.
  - intros b Hb. rewrite rd_assign_struct, decide_False by lia. done.
Qed.

Lemma inet6_fields a v m :
  let m' := fill_sockaddr_inet6 a v 0 m in
  load 1 m' a = 28 /\ load 1 m' (a + 1) = 28 /\ load 16 m' (a + 8) = v mod 2 ^ 128 /\
  (forall b, ~ (a <= b < a + 28) -> rd m' b = rd m b).
Proof.
  cbn zeta. unfold fill_sockaddr_inet6. headers. split_and!.
  - rewrite <- (Z.add_0_r a) at 2. rewrite load_assign_in by (cbn; lia). by repeat mem_step.
  - rewrite load_assign_in by (cbn; lia). by repeat mem_step.
  - rewrite load_assign_in by (cbn; lia). by repeat mem_step.
  - intros b Hb. rewrite rd_assign_struct, decide_False by lia. done.
Qed.

Lemma dl_fields a v m :
  let m' := fill_sockaddr_dl a v m in
  load 1 m' a = sizeof_sockaddr_dl_short /\ load 1 m' (a + 1) = 18 /\ load 2 m' (a + 2) = v mod 2 ^ 16 /\
  (forall b, ~ (a <= b < a + sizeof_sockaddr_dl_short) -> rd m' b = rd m b).
Proof.
  cbn zeta. unfold fill_sockaddr_dl. headers. split_and!.
  - rewrite <- (Z.add_0_r a) at 2. rewrite load_assign_in by (cbn; lia). repeat mem_step. apply Z.mod_small. lia.
  - rewrite load_assign_in by (cbn; lia). by repeat mem_step.
  - rewrite load_assign_in by (cbn; lia). by repeat mem_step.
  - intros b Hb. rewrite rd_assign_struct, decide_False by lia. done.
Qed.

(** Filling again, wherever the structure is as it was filled. *)
Lemma inet_again a v m m' : agree a 16 (fill_sockaddr_inet a v m) m' -> same m' (fill_sockaddr_inet a v m').
Proof. unfold fill_sockaddr_inet. headers. apply assign_again. lia. Qed.
Lemma inet6_again a v m m' : agree a 28 (fill_sockaddr_inet6 a v 0 m) m' -> same m' (fill_sockaddr_inet6 a v 0 m').
Proof. unfold fill_sockaddr_inet6. headers. apply assign_again. lia. Qed.
Lemma dl_again a v m m' :
  agree a sizeof_sockaddr_dl_short (fill_sockaddr_dl a v m) m' -> same m' (fill_sockaddr_dl a v m').
Proof. unfold fill_sockaddr_dl. headers. apply assign_again. lia. Qed.

(** ** The gateway *)
Definition outside (a n : Z) (m m' : memory) : Prop := forall b, ~ (a <= b < a + n) -> rd m' b = rd m b.

(** What a routine has cleaned up stays as it is when it is cleaned up again. *)
Definition settled (run : memory -> Z * memory) (m : memory) : Prop :=
  exists m', run m = (0, m') /\ same m m'.

(** The bytes of an address: what its length says, and at least 8 as in [SA_SIZE]. *)
Definition sa_bytes (m : memory) (a : Z) : Z := Z.max 8 (load 1 m a).

Lemma gateway_spec gw info m m1 : cleanup_xaddrs_gateway gw info m = (0, m1) ->
  outside gw (sa_bytes m gw) m m1 /\
  forall info2 m2, (Z.land (rti_flags info2) RTF_LLDATA =? 0) = (Z.land (rti_flags info) RTF_LLDATA =? 0) ->
    agree gw (sa_bytes m gw) m1 m2 -> settled (cleanup_xaddrs_gateway gw info2) m2.
Proof.
  unfold cleanup_xaddrs_gateway, cleanup_xaddrs_lladdr, sa_bytes. headers. set (n := Z.max 8 (load 1 m gw)). intros HE.
  destruct (Z.land (rti_flags info) RTF_LLDATA =? 0) eqn:EF; cbn [negb] in HE.
  2: { (* a link address *)
    injection HE as HE <-. split; [done|]. intros info2 m2 EF2 Ha. exists m2. rewrite EF2. cbn [negb].
    split; [|done]. f_equal. headers.
    rewrite !(agree_load _ gw n m m2) by (done || lia). exact HE. }
  destruct (Z.eqb_spec (load 1 m (gw + 1)) 2) as [F1|F1].
  { destruct (Z.ltb_spec (load 1 m gw) 16); [done|]. injection HE as <-.
    destruct (inet_fields gw (load 4 m (gw + 4)) m) as (L1 & L2 & L3 & L4). set (m1 := fill_sockaddr_inet _ _ _) in *.
    split; [intros b Hb; apply L4; lia|]. intros info2 m2 EF2 Ha. rewrite EF2. cbn [negb].
    exists (fill_sockaddr_inet gw (load 4 m (gw + 4)) m2). headers.
    rewrite !(agree_load _ gw n m1 m2), L1, L2, L3 by (done || lia). cbn [Z.eqb Z.ltb Z.compare Pos.compare Pos.compare_cont Pos.eqb].
    rewrite (load_4_mod_8 4). split; [done|]. eapply inet_again. intros b Hb. apply Ha. lia. }
  destruct (Z.eqb_spec (load 1 m (gw + 1)) 28) as [F2|F2].
  { destruct (Z.ltb_spec (load 1 m gw) 28); [done|]. injection HE as <-.
    destruct (inet6_fields gw (load 16 m (gw + 8)) m) as (L1 & L2 & L3 & L4). set (m1 := fill_sockaddr_inet6 _ _ _ _) in *.
    split; [intros b Hb; apply L4; lia|]. intros info2 m2 EF2 Ha. rewrite EF2. cbn [negb].
    exists (fill_sockaddr_inet6 gw (load 16 m (gw + 8)) 0 m2). headers.
    rewrite !(agree_load _ gw n m1 m2), L1, L2, L3 by (done || lia). cbn [Z.eqb Z.ltb Z.compare Pos.compare Pos.compare_cont Pos.eqb].
    rewrite (load_4_mod_8 16). split; [done|]. eapply inet6_again. intros b Hb. apply Ha. lia. }
  destruct (Z.eqb_spec (load 1 m (gw + 1)) 18) as [F3|F3].
  { destruct (Z.ltb_spec (load 1 m gw) sizeof_sockaddr_dl_short); [done|]. injection HE as <-.
    destruct (dl_fields gw (load 2 m (gw + 2)) m) as (L1 & L2 & L3 & L4). set (m1 := fill_sockaddr_dl _ _ _) in *.
    split; [intros b Hb; apply L4; lia|]. intros info2 m2 EF2 Ha. rewrite EF2. cbn [negb].
    exists (fill_sockaddr_dl gw (load 2 m (gw + 2)) m2). headers.
    rewrite !(agree_load 1 gw n m1 m2), (agree_load 2 gw n m1 m2), L1, L2, L3 by (done || lia). cbn [Z.eqb Z.ltb Z.compare Pos.compare Pos.compare_cont Pos.eqb].
    rewrite Z.ltb_irrefl, (load_4_mod_8 2). split; [done|]. eapply dl_again. intros b Hb. apply Ha. lia. }
  injection HE as <-. split; [done|]. intros info2 m2 EF2 Ha. rewrite EF2. cbn [negb]. exists m2. headers.
  rewrite (agree_load _ gw n m m2) by (done || lia).
  by rewrite (proj2 (Z.eqb_neq _ _) F1), (proj2 (Z.eqb_neq _ _) F2), (proj2 (Z.eqb_neq _ _) F3).
Qed.

Lemma remove_netmask_twice info : remove_netmask (remove_netmask info) = remove_netmask info.
Proof.
  unfold remove_netmask. cbn [rti_addrs rti_flags rti_info]. f_equal.
  - by rewrite <- Z.land_assoc, Z.land_diag.
  - by rewrite <- Z.lor_assoc, Z.lor_diag.
  - apply delete_delete_eq.
Qed.

Lemma land_load j m a y : Z.land (load j m a) y mod 256 ^ Z.of_nat j = Z.land (load j m a) y.
Proof.
  assert (256 ^ Z.of_nat j = 2 ^ (8 * Z.of_nat j)) as E by (rewrite Z.pow_mul_r by lia; done).
  rewrite E, <- Z.land_ones, <- Z.land_assoc, (Z.land_comm y), Z.land_assoc, Z.land_ones, <- E by lia.
  by rewrite load_4_mod_8.
Qed.

(** ** The destination and the mask, for both families

    [fill] fills a structure of [sz] bytes whose address is the [k] bytes at [off]. *)
Section Phase.
Variables (fill : Z -> Z -> memory -> memory) (k : nat) (off sz ones fam : Z).
Hypothesis off_fits : 0 <= off /\ off + Z.of_nat k <= sz /\ 8 <= sz.
Hypothesis fill_fields : forall a v m,
  load 1 (fill a v m) a = sz /\ load 1 (fill a v m) (a + 1) = fam /\ load k (fill a v m) (a + off) = v mod 256 ^ Z.of_nat k /\
  outside a sz m (fill a v m).
Hypothesis fill_again : forall a v m m', agree a sz (fill a v m) m' -> same m' (fill a v m').

Definition phase (d : Z) (info : rt_addrinfo) (m : memory) : Z * rt_addrinfo * memory :=
  let mask_sa := rti_info info !! RTAX_NETMASK in
  let mask := netmask_of k off ones info m in
  let dst := Z.land (load k m (d + off)) mask in
  if load 1 m d <? sz then (LAZYBSD_EINVAL, info, m)
  else if match mask_sa with Some a => load 1 m a <? sz | None => false end then (LAZYBSD_EINVAL, info, m)
  else
    let m := fill d dst m in
    match mask_sa with
    | Some a => if negb (mask =? ones) then (0, info, fill a mask m) else (0, remove_netmask info, m)
    | None => (0, remove_netmask info, m)
    end.

Definition mask_apart (m : memory) (d : Z) (info : rt_addrinfo) : Prop :=
  forall a, rti_info info !! RTAX_NETMASK = Some a -> a + sa_bytes m a <= d \/ d + sa_bytes m d <= a.

(** What a completed phase leaves behind. *)
Record phase_done (run : Z -> rt_addrinfo -> memory -> Z * rt_addrinfo * memory) (d : Z) (info : rt_addrinfo)
    (m : memory) (info1 : rt_addrinfo) (m1 : memory) : Prop := {
  done_info : info1 = (if netmask_of k off ones info m =? ones then remove_netmask info else info);
  done_addr : load k m1 (d + off) = Z.land (load k m (d + off)) (netmask_of k off ones info m);
  done_fam : load 1 m1 (d + 1) = fam;
  done_len : sz <= load 1 m d /\ forall a, rti_info info !! RTAX_NETMASK = Some a -> sz <= load 1 m a;
  done_len1 : load 1 m1 d = sz /\ forall a, rti_info info1 !! RTAX_NETMASK = Some a -> load 1 m1 a = sz;
  done_frame : forall b, ~ (d <= b < d + sz) ->
    (forall a, rti_info info !! RTAX_NETMASK = Some a -> ~ (a <= b < a + sz)) -> rd m1 b = rd m b;
  done_again : forall m2, agree d sz m1 m2 ->
    (forall a, rti_info info1 !! RTAX_NETMASK = Some a -> agree a sz m1 m2) ->
    exists m3, run d info1 m2 = (0, info1, m3) /\ same m2 m3 }.

Lemma filled_twice d x mask m m2 (dst := Z.land (load k x (d + off)) mask) :
  agree d sz (fill d dst m) m2 ->
  load 1 m2 d = sz /\ Z.land (load k m2 (d + off)) mask = dst /\ same m2 (fill d dst m2).
Proof.
  intros Ha. destruct (fill_fields d dst m) as (Ld & Fd & Ad & Od). split_and!.
  - rewrite <- Ld. apply (agree_load _ d sz); [done|lia..].
  - rewrite (agree_load k d sz _ _ _ Ha), Ad by lia. unfold dst. by rewrite land_load, <- Z.land_assoc, Z.land_diag.
  - by apply (fill_again _ _ m).
Qed.

(** The mask is dropped. *)
Lemma phase_removed d info x m (dst := Z.land (load k x (d + off)) ones) m2 :
  agree d sz (fill d dst m) m2 ->
  exists m3, phase d (remove_netmask info) m2 = (0, remove_netmask info, m3) /\ same m2 m3.
Proof.
  intros Ha. destruct (filled_twice _ _ _ _ _ Ha) as (Ld & Ad & Sd). exists (fill d dst m2). split; [|done].
  unfold phase, netmask_of. cbn [remove_netmask rti_info].
  rewrite lookup_delete_eq. by rewrite Ld, Ad, Z.ltb_irrefl, remove_netmask_twice.
Qed.

(** The mask stays. *)
Lemma phase_kept d info a m (mask := load k m (a + off)) (dst := Z.land (load k m (d + off)) mask) m2 :
  rti_info info !! RTAX_NETMASK = Some a -> a + sz <= d \/ d + sz <= a -> mask <> ones ->
  agree d sz (fill d dst m) m2 -> agree a sz (fill a mask (fill d dst m)) m2 ->
  exists m3, phase d info m2 = (0, info, m3) /\ same m2 m3.
Proof.
  intros EM Hap Hm Ha Hb. destruct (filled_twice _ _ _ _ _ Ha) as (Ld & Ad & Sd).
  destruct (fill_fields a mask (fill d dst m)) as (La & Fa & Aa & Oa).
  exists (fill a mask (fill d dst m2)). split.
  - unfold phase, netmask_of. rewrite EM.
    rewrite (agree_load k a sz _ _ (a + off) Hb), Aa by lia. unfold mask at 1 2 3 4. rewrite load_4_mod_8. fold mask.
    rewrite Ld, Ad, Z.ltb_irrefl, (agree_load 1 a sz _ _ a Hb), La, Z.ltb_irrefl, (proj2 (Z.eqb_neq _ _) Hm) by lia.
    done.
  - intros b. rewrite (fill_again a mask (fill d dst m) (fill d dst m2)); [apply Sd|].
    intros b' Hb'. rewrite <- (Hb b' Hb'). apply Sd.
Qed.

Lemma phase_twice d info m info1 m1 : mask_apart m d info -> phase d info m = (0, info1, m1) ->
  phase_done phase d info m info1 m1.
Proof.
  intros Hap. unfold phase at 1. set (mask := netmask_of k off ones info m). set (dst := Z.land _ mask).
  destruct (fill_fields d dst m) as (Ld & Fd & Ad & Od). unfold dst in Ad at 2. rewrite land_load in Ad. fold dst in Ad.
  destruct (Z.ltb_spec (load 1 m d) sz) as [E1|E1]; [done|].
  assert (mask = ones -> (forall a, rti_info info !! RTAX_NETMASK = Some a -> sz <= load 1 m a) ->
    (0, remove_netmask info, fill d dst m) = (0, info1, m1) -> phase_done phase d info m info1 m1) as Hrem.
  { intros Hm Hlen [= <- <-]. split; fold mask; try fold dst; rewrite ?Hm, ?Z.eqb_refl; try done.
    - split; [done|]. intros a. cbn [remove_netmask rti_info]. by rewrite lookup_delete_eq.
    - intros b Hb _. by apply Od.
    - intros m2 Ha _. eapply (phase_removed d info m). unfold dst in Ha. by rewrite Hm in Ha. }
  destruct (rti_info info !! RTAX_NETMASK) as [a|] eqn:EM.
  2: { apply Hrem; [|done]. unfold mask, netmask_of. by rewrite EM. }
  destruct (Z.ltb_spec (load 1 m a) sz) as [E2|E2]; [done|].
  destruct (Z.eqb_spec mask ones) as [Hm|Hm]; cbn [negb].
  { apply Hrem; [done|]. by intros a' [= <-]. }
  intros [= <- <-]. destruct (fill_fields a mask (fill d dst m)) as (La & Fa & Aa & Oa).
  pose proof (Hap _ EM) as Hda. unfold sa_bytes in Hda.
  assert (agree d sz (fill d dst m) (fill a mask (fill d dst m))) as Hd by (intros b Hb; apply Oa; lia).
  split; fold mask; try fold dst; rewrite ?(proj2 (Z.eqb_neq _ _) Hm), ?EM; try done.
  - by rewrite (agree_load k d sz _ _ _ Hd) by lia.
  - by rewrite (agree_load 1 d sz _ _ _ Hd) by lia.
  - split; [done|]. by intros a' [= <-].
  - split; [by rewrite (agree_load 1 d sz _ _ _ Hd) by lia|]. by intros a' [= <-].
  - intros b Hb Hb'. rewrite (Oa b), (Od b); [done|done|by apply Hb'].
  - intros m2 Ha Hb. specialize (Hb _ eq_refl).
    assert (mask = load k m (a + off)) as Emask by (unfold mask, netmask_of; by rewrite EM).
    unfold dst in *. rewrite Emask in *. apply (phase_kept d info a m); try done; [lia|].
    intros b Hb2. rewrite (Ha b Hb2). apply Oa. lia.
Qed.
End Phase.

(** The phases of the two families. *)
Lemma inet_phase d info m :
  cleanup_inet_dst d info m = phase fill_sockaddr_inet 4 4 16 INADDR_BROADCAST d info m.
Proof. unfold cleanup_inet_dst, phase, netmask_of. destruct (rti_info info !! RTAX_NETMASK); headers; done. Qed.

Lemma inet_done d info m info1 m1 : mask_apart m d info -> cleanup_inet_dst d info m = (0, info1, m1) ->
  phase_done 4 4 16 INADDR_BROADCAST 2 cleanup_inet_dst d info m info1 m1.
Proof.
  intros Hap HE. rewrite inet_phase in HE.
  destruct (phase_twice fill_sockaddr_inet 4 4 16 INADDR_BROADCAST 2 ltac:(lia) inet_fields inet_again _ _ _ _ _ Hap HE).
  split; try done. intros m2. rewrite inet_phase. auto.
Qed.

(** IPv6 writes the masked address before it looks at the lengths, and again when the
    structure is filled. *)
Lemma assign_same a n img m m' : 0 <= n -> same m m' -> same (assign_struct a n img m) (assign_struct a n img m').
Proof. intros Hn Hs b. rewrite !rd_assign_struct by done. by case_decide. Qed.

Lemma inet6_same a v m m' : same m m' -> same (fill_sockaddr_inet6 a v 0 m) (fill_sockaddr_inet6 a v 0 m').
Proof. unfold fill_sockaddr_inet6. headers. apply assign_same. lia. Qed.

Lemma inet6_store a v x m :
  same (fill_sockaddr_inet6 a v 0 m) (fill_sockaddr_inet6 a v 0 (store 16 m (a + 8) x)).
Proof.
  intros b. destruct (decide (a <= b < a + 28)).
  - unfold fill_sockaddr_inet6. headers. by rewrite !rd_assign_struct, !decide_True by lia.
  - destruct (inet6_fields a v m) as (_ & _ & _ & O). rewrite (O b) by done.
    destruct (inet6_fields a v (store 16 m (a + 8) x)) as (_ & _ & _ & O'). rewrite (O' b) by done.
    apply rd_store_out. cbn. lia.
Qed.

Definition fill6 (a v : Z) (m : memory) : memory := fill_sockaddr_inet6 a v 0 m.

Lemma inet6_phase d info m e info1 m1 : mask_apart m d info ->
  cleanup_inet6_dst d info m = (e, info1, m1) ->
  exists m1', phase fill6 16 8 28 in6mask128 d info m = (e, info1, m1') /\ (e = 0 -> same m1' m1).
Proof.
  intros Hap. unfold cleanup_inet6_dst, phase, netmask_of, fill6.
  destruct (rti_info info !! RTAX_NETMASK) as [a|] eqn:EM; headers.
  1: set (mask := load 16 m (a + 8)). 2: set (mask := in6mask128).
  all: set (dst := Z.land _ mask); set (m' := store 16 m (d + 8) dst).
  all: replace (load 1 m' d) with (load 1 m d) by (symmetry; apply load_store_sep; cbn; lia).
  all: destruct (Z.ltb_spec (load 1 m d) 28); [intros [= <- <- <-]; eexists; split; [done|by intros ?]|].
  all: replace (load 16 m' (d + 8)) with dst by (unfold m', dst; by rewrite load_store, land_load).
  all: pose proof (inet6_store d dst dst m) as Hs; fold m' in Hs.
  2: intros [= <- <- <-]; eexists; split; [done|by intros ?].
  replace (load 1 m' a) with (load 1 m a) by (pose proof (Hap _ EM) as Hda; unfold sa_bytes in Hda; symmetry; apply load_store_sep; cbn; lia).
  destruct (load 1 m a <? 28); [intros [= <- <- <-]; eexists; split; [done|by intros ?]|].
  destruct (negb (mask =? in6mask128)); intros [= <- <- <-]; eexists; (split; [done|intros _]); [by apply inet6_same|done].
Qed.

Lemma inet6_done d info m info1 m1 : mask_apart m d info -> cleanup_inet6_dst d info m = (0, info1, m1) ->
  phase_done 16 8 28 in6mask128 28 cleanup_inet6_dst d info m info1 m1.
Proof.
  intros Hap HE. destruct (inet6_phase _ _ _ _ _ _ Hap HE) as (mp & HP & Hs). specialize (Hs eq_refl).
  destruct (phase_twice fill6 16 8 28 in6mask128 28 ltac:(lia) (fun a v m => inet6_fields a v m) inet6_again
    _ _ _ _ _ Hap HP) as [H1' H2' H3' H4' [H5' H5''] H6' H7'].
  split; rewrite ?(same_load _ _ _ _ Hs); try done.
  - split; [done|]. intros a Ea. rewrite (same_load _ _ _ _ Hs). auto.
  - intros b Hb Hb'. rewrite (Hs b). by apply H6'.
  - intros m2 Ha Hb.
    assert (agree d 28 mp m2) as Ha' by (intros b Hb2; by rewrite (Ha b Hb2)).
    assert (forall a, rti_info info1 !! RTAX_NETMASK = Some a -> agree a 28 mp m2) as Hb'
      by (intros a EM b Hb2; by rewrite (Hb a EM b Hb2)).
    destruct (H7' m2 Ha' Hb') as (m3 & HP3 & Hs3).
    destruct (cleanup_inet6_dst d info1 m2) as [[e i] x] eqn:EC.
    destruct (fun Hap => inet6_phase _ _ _ _ _ _ Hap EC) as (m3' & HP' & Hs').
    { intros a EM. unfold sa_bytes. rewrite (agree_load 1 d 28 _ _ d Ha'), (agree_load 1 a 28 _ _ a (Hb' _ EM)) by lia.
      rewrite H5', (H5'' _ EM). destruct H4' as [H4' H4'']. revert EM. rewrite H1'. case_match.
      - cbn [remove_netmask rti_info]. by rewrite lookup_delete_eq.
      - intros EM. pose proof (Hap _ EM) as Hda. unfold sa_bytes in Hda. specialize (H4'' _ EM). lia. }
    rewrite HP3 in HP'. injection HP' as <- <- <-. exists x. split; [done|]. intros b. by rewrite (Hs' eq_refl b).
Qed.

(** ** The whole routine *)

(** The addresses of a request do not overlap: [rt_xaddrs] finds them one behind the other. *)
Definition addrs_apart (m : memory) (info : rt_addrinfo) : Prop :=
  forall i j a b, i <> j -> rti_info info !! i = Some a -> rti_info info !! j = Some b ->
    a + sa_bytes m a <= b \/ b + sa_bytes m b <= a.

Lemma check_gateway_spec info m info1 m1 : check_gateway info m = (0, info1, m1) ->
  info1 = info /\
  (forall b, (forall gw, rti_info info !! RTAX_GATEWAY = Some gw -> ~ (gw <= b < gw + sa_bytes m gw)) -> rd m1 b = rd m b) /\
  (forall m2, (forall gw, rti_info info !! RTAX_GATEWAY = Some gw -> agree gw (sa_bytes m gw) m1 m2) ->
     exists m3, check_gateway info m2 = (0, info, m3) /\ same m2 m3).
Proof.
  unfold check_gateway. destruct (rti_info info !! RTAX_GATEWAY) as [gw|] eqn:EG.
  - destruct (cleanup_xaddrs_gateway gw info m) as [e m'] eqn:E. intros [= -> <- <-].
    destruct (gateway_spec _ _ _ _ E) as [O S]. split_and!; [done| |].
    + intros b Hb. apply O. by apply Hb.
    + intros m2 Ha. destruct (S info m2 eq_refl (Ha _ eq_refl)) as (m3 & -> & Hs). by exists m3.
  - intros [= <- <-]. split_and!; [done|done|]. intros m2 _. by exists m2.
Qed.

(** A family whose phase on the destination is [run]: that phase, then the gateway. *)
Definition family_run (run : Z -> rt_addrinfo -> memory -> Z * rt_addrinfo * memory) (d : Z) (info : rt_addrinfo) (m : memory) :=
  let '(e, info, m) := run d info m in if negb (e =? 0) then (e, info, m) else check_gateway info m.

Lemma removed_sub info (b : bool) i a :
  rti_info (if b then remove_netmask info else info) !! i = Some a -> rti_info info !! i = Some a.
Proof. destruct b; [|done]. cbn [remove_netmask rti_info]. rewrite lookup_delete_Some. tauto. Qed.

(** The two phases together: a second run of [run], then of the gateway, finds everything as
    it should be. *)
Lemma family_done run k off sz ones fam d info m infop mp info1 m1 :
  rti_info info !! RTAX_DST = Some d -> addrs_apart m info -> 0 <= off /\ off + Z.of_nat k <= sz /\ 8 <= sz ->
  phase_done k off sz ones fam run d info m infop mp -> check_gateway infop mp = (0, info1, m1) ->
  info1 = (if netmask_of k off ones info m =? ones then remove_netmask info else info) /\
  load k m1 (d + off) = Z.land (load k m (d + off)) (netmask_of k off ones info m) /\ load 1 m1 (d + 1) = fam /\
  (forall b, (forall i a, rti_info info !! i = Some a -> ~ (a <= b < a + sa_bytes m a)) -> rd m1 b = rd m b) /\
  exists m2, family_run run d info1 m1 = (0, info1, m2) /\ same m1 m2.
Proof.
  intros ED Hap Hsz [-> EA EF [LD LM] _ O S] HG. unfold sa_bytes in *.
  set (c := netmask_of _ _ _ _ _ =? _) in *. destruct (check_gateway_spec _ _ _ _ HG) as (-> & OG & SG).
  unfold addrs_apart, sa_bytes in *. destruct doc_rtax as (NDG & NDN & NGN).
  assert (forall gw, rti_info info !! RTAX_GATEWAY = Some gw -> load 1 mp gw = load 1 m gw) as Lgw.
  { intros gw EG. pose proof (Hap RTAX_DST RTAX_GATEWAY d gw NDG ED EG). rewrite !load_1, O; [done|lia|].
    intros a Ea. pose proof (Hap RTAX_NETMASK RTAX_GATEWAY a gw (not_eq_sym NGN) Ea EG). specialize (LM _ Ea). lia. }
  assert (forall i a, i <> RTAX_GATEWAY -> rti_info info !! i = Some a -> sz <= load 1 m a -> agree a sz mp m1) as Hag.
  { intros i a Hi Ei Hl b Hb. apply OG. intros gw EG. apply removed_sub in EG. rewrite Lgw by done.
    pose proof (Hap i RTAX_GATEWAY a gw Hi Ei EG). lia. }
  pose proof (Hag _ _ NDG ED LD) as Hd. split_and!; [done| | | |].
  - by rewrite (agree_load k d sz _ _ _ Hd) by lia.
  - by rewrite (agree_load 1 d sz _ _ _ Hd) by lia.
  - intros b Hb. rewrite (OG b), O; [done| | |].
    + specialize (Hb _ _ ED). lia.
    + intros a Ea. specialize (Hb _ _ Ea). specialize (LM _ Ea). lia.
    + intros gw EG. apply removed_sub in EG. rewrite Lgw by done. eauto.
  - destruct (S m1 Hd) as (m2 & E2 & S2).
    { intros a Ea%removed_sub. apply (Hag RTAX_NETMASK); auto. }
    destruct (SG m2) as (m3 & E3 & S3). { intros gw EG b _. apply S2. }
    exists m3. unfold family_run. rewrite E2. cbn [Z.eqb negb]. split; [done|]. intros b. by rewrite (S3 b).
Qed.

Lemma removed_lldata info :
  Z.land (rti_flags (remove_netmask info)) RTF_LLDATA = Z.land (rti_flags info) RTF_LLDATA.
Proof. cbn [remove_netmask rti_flags]. by rewrite Z.land_lor_distr_l, doc_flags, Z.lor_0_r. Qed.

(** The request a family sees: without its mask for a link-layer entry. *)
Definition seen (info : rt_addrinfo) : rt_addrinfo :=
  if negb (Z.land (rti_flags info) RTF_LLDATA =? 0) then remove_netmask info else info.

Lemma removed_dst info (b : bool) d :
  rti_info info !! RTAX_DST = Some d -> rti_info (if b then remove_netmask info else info) !! RTAX_DST = Some d.
Proof.
  destruct b; [|done]. cbn [remove_netmask rti_info]. intros E.
  rewrite lookup_delete_ne; [done|]. destruct doc_rtax. naive_solver.
Qed.

Lemma seen_mask k off ones info m :
  netmask_of k off ones (seen info) m =
  if negb (Z.land (rti_flags info) RTF_LLDATA =? 0) then ones else netmask_of k off ones info m.
Proof. unfold seen, netmask_of. destruct (negb _); [|done]. cbn [remove_netmask rti_info]. by rewrite lookup_delete_eq. Qed.

(** A request left by [family_done] is seen as it is. *)
Lemma seen_again info (c : bool) (info1 := if c then remove_netmask (seen info) else seen info) :
  seen info1 = info1 /\
  info1 = if negb (Z.land (rti_flags info) RTF_LLDATA =? 0) || c then remove_netmask info else info.
Proof.
  unfold info1, seen. destruct c, (negb (Z.land (rti_flags info) RTF_LLDATA =? 0)) eqn:E; cbn [orb];
    by rewrite ?remove_netmask_twice, ?removed_lldata, ?E, ?remove_netmask_twice.
Qed.

Lemma family_normal run k off sz ones fam info m d info1 m1 :
  0 <= off /\ off + Z.of_nat k <= sz /\ 8 <= sz ->
  (forall infop mp, mask_apart m d (seen info) -> run d (seen info) m = (0, infop, mp) ->
     phase_done k off sz ones fam run d (seen info) m infop mp) ->
  (forall info m, rti_info info !! RTAX_DST = Some d -> load 1 m (d + sa_family) = fam ->
     cleanup_xaddrs info m = family_run run d (seen info) m) ->
  rti_info info !! RTAX_DST = Some d -> addrs_apart m info -> cleanup_xaddrs info m = (0, info1, m1) ->
  load 1 m (d + sa_family) = fam ->
  let lladdr := negb (Z.land (rti_flags info) RTF_LLDATA =? 0) in
  let mask := if lladdr then ones else netmask_of k off ones info m in
  info1 = (if lladdr || (mask =? ones) then remove_netmask info else info) /\
  load k m1 (d + off) = Z.land (load k m (d + off)) mask /\
  (forall b, (forall i a, rti_info info !! i = Some a -> ~ (a <= b < a + sa_bytes m a)) -> rd m1 b = rd m b) /\
  exists m2, cleanup_xaddrs info1 m1 = (0, info1, m2) /\ same m1 m2.
Proof.
  intros Hk Hdone Hrun ED Hap HE HF.
  assert (addrs_apart m (seen info)) as Hap'.
  { intros i j a b Hij Ei Ej. apply (Hap i j); [done|by eapply removed_sub..]. }
  assert (rti_info (seen info) !! RTAX_DST = Some d) as ED' by by apply removed_dst.
  assert (mask_apart m d (seen info)) as Hm.
  { intros a Ea. eapply (Hap' RTAX_NETMASK RTAX_DST); [|done|done]. destruct doc_rtax. naive_solver. }
  rewrite Hrun in HE by done. unfold family_run in HE.
  destruct (run d (seen info) m) as [[e infop] mp] eqn:ER. destruct (Z.eqb_spec e 0) as [->|He]; [|cbn in HE; congruence].
  destruct (family_done run k off sz ones fam d (seen info) m infop mp info1 m1) as (E1 & E2 & E3 & E4 & m2 & E5 & S5); auto.
  rewrite (seen_mask k off ones info m) in *. set (c := _ =? ones) in E1.
  destruct (seen_again info c) as [S1 S2]. rewrite <- E1 in S1, S2. cbn zeta. split_and!; [done|done| |].
  - intros b Hb. apply E4. intros i a Ei. apply (Hb i). by eapply removed_sub.
  - exists m2. split; [|done]. rewrite Hrun, S1; [done| |by rewrite doc_sa_family]. rewrite E1. by apply removed_dst.
Qed.

(** C34. The normal form of a routing request.  Let the destination, mask and gateway of a
    request be apart in memory.  When [cleanup_xaddrs] accepts it, the destination address
    is the given one masked with the netmask (all ones if there is none, or if the request
    is for a link-layer entry); the mask is dropped and [RTF_HOST] set exactly when it is
    all ones or the request is for a link-layer entry, and nothing else of the request
    changes; only bytes of the addresses change; and the result is a normal form: running
    [cleanup_xaddrs] on it again succeeds and changes nothing. *)
Theorem cleanup_xaddrs_normal info m d info1 m1 :
  rti_info info !! RTAX_DST = Some d -> addrs_apart m info -> cleanup_xaddrs info m = (0, info1, m1) ->
  let '(k, off, ones) := if load 1 m (d + sa_family) =? AF_INET then (4%nat, sin_addr, INADDR_BROADCAST)
                         else (16%nat, sin6_addr, in6mask128) in
  let lladdr := negb (Z.land (rti_flags info) RTF_LLDATA =? 0) in
  let mask := if lladdr then ones else netmask_of k off ones info m in
  info1 = (if lladdr || (mask =? ones) then remove_netmask info else info) /\
  load k m1 (d + off) = Z.land (load k m (d + off)) mask /\
  (forall b, (forall i a, rti_info info !! i = Some a -> ~ (a <= b < a + sa_bytes m a)) -> rd m1 b = rd m b) /\
  exists m2, cleanup_xaddrs info1 m1 = (0, info1, m2) /\ same m1 m2.
Proof.
  intros ED Hap HE. assert (HE' := HE). unfold cleanup_xaddrs in HE'. rewrite ED in HE'.
  destruct (load 1 m (d + sa_family) =? AF_INET) eqn:EI; [|destruct (load 1 m (d + sa_family) =? AF_INET6) eqn:E6; [|done]].
  - apply (family_normal cleanup_inet_dst _ _ 16 _ 2); try (done || (headers; cbn; lia)).
    + headers. apply inet_done.
    + intros info' m' ED' EF. unfold cleanup_xaddrs. rewrite ED', EF. headers. done.
    + headers. revert EI. headers. apply Z.eqb_eq.
  - apply (family_normal cleanup_inet6_dst _ _ 28 _ 28); try (done || (headers; cbn; lia)).
    + headers. apply inet6_done.
    + intros info' m' ED' EF. unfold cleanup_xaddrs. rewrite ED', EF. headers. done.
    + headers. revert E6. headers. apply Z.eqb_eq.
Qed.

End CleanFacts.

(** ** Examples *)

#[export] Instance example_route_addr_doc : RouteAddrDoc.
Proof. by split. Qed.

(** 10.20.30.40 with a port and rubbish behind it, the mask 255.0.0.0 and the gateway 192.168.0.1. *)
Definition example_clean_memory (mask : list Z) : memory :=
  bytes_at 100 ([16; 2; 1; 187; 10; 20; 30; 40] ++ replicate 8 7) ∪
  bytes_at 116 ([16; 2; 0; 0] ++ mask ++ replicate 8 9) ∪
  bytes_at 132 ([16; 2; 0; 0; 192; 168; 0; 1] ++ replicate 8 5).
Definition example_request : rt_addrinfo := RtAddrinfo 7 2 (<[0 := 100]> (<[1 := 132]> (<[2 := 116]> ∅))).
Definition example_cleaned (mask : list Z) : Z * rt_addrinfo * memory :=
  cleanup_xaddrs example_request (example_clean_memory mask).

Lemma example_request_apart : addrs_apart (example_clean_memory [255; 0; 0; 0]) example_request.
Proof.
  assert (forall a, a = 100 \/ a = 116 \/ a = 132 -> sa_bytes (example_clean_memory [255; 0; 0; 0]) a = 16) as Hb
    by (intros a [-> |[-> | ->]]; by vm_compute).
  intros i j a b Hij. cbn. rewrite !lookup_insert_Some, lookup_empty.
  intros [[<- <-]|[_ [[<- <-]|[_ [[<- <-]|[_ Hn]]]]]] [[<- <-]|[_ [[<- <-]|[_ [[<- <-]|[_ Hn']]]]]];
    rewrite ?Hb by auto; (lia || done).
Qed.

Lemma cleanup_xaddrs_normal_witness :
  let '(e, info1, m1) := example_cleaned [255; 0; 0; 0] in
  e = 0 /\ load 4 m1 104 = Z.land (10 + 256 * (20 + 256 * (30 + 256 * 40))) 255 /\
  exists m2, cleanup_xaddrs info1 m1 = (0, info1, m2) /\ same m1 m2.
Proof.
  assert ((example_cleaned [255; 0; 0; 0]).1.1 = 0) as E0 by (by vm_compute).
  assert (load 4 (example_cleaned [255; 0; 0; 0]).2 104 = 10) as E1 by (by vm_compute).
  destruct (example_cleaned [255; 0; 0; 0]) as [[e info1] m1] eqn:E. cbn [fst snd] in E0, E1. subst e.
  pose proof (cleanup_xaddrs_normal example_request _ 100 _ _ eq_refl example_request_apart E) as H.
  split; [done|]. split; [exact E1|]. destruct (load 1 (example_clean_memory [255; 0; 0; 0]) (100 + sa_family) =? AF_INET);
    destruct H as (_ & _ & _ & H); exact H.
Defined.

(** With a mask of all ones the mask is dropped and the route is to a host. *)
Example cleanup_xaddrs_host :
  let '(e, info, m) := example_cleaned [255; 255; 255; 255] in
  (e, rti_addrs info, rti_flags info, rti_info info !! 2, load 4 m 104) = (0, 3, 6, None, 10 + 256 * (20 + 256 * (30 + 256 * 40))).
Proof. by vm_compute. Qed.

(** Errors: a short destination, an unknown family; and a short IPv6 destination whose
    address is masked before it is refused. *)
Example cleanup_xaddrs_errors :
  (cleanup_xaddrs example_request (store 1 (example_clean_memory []) 100 8)).1.1 = LAZYBSD_EINVAL /\
  (cleanup_xaddrs example_request (store 1 (example_clean_memory []) 101 99)).1.1 = LAZYBSD_EAFNOSUPPORT /\
  (cleanup_xaddrs (RtAddrinfo 7 2 ∅) ∅).1.1 = LAZYBSD_EINVAL.
Proof. by vm_compute. Qed.

Example cleanup_xaddrs_short_inet6 :
  let m := bytes_at 100 ([16; 28] ++ replicate 26 255) ∪ bytes_at 400 ([28; 28] ++ replicate 6 0 ++ replicate 2 255) in
  let '(e, _, m1) := cleanup_xaddrs (RtAddrinfo 5 2 (<[0 := 100]> (<[2 := 400]> ∅))) m in
  (e, rd m 110, rd m1 110) = (LAZYBSD_EINVAL, 255, 0).
Proof. by vm_compute. Qed.
