(* ===== verification/RouteIoctl.v ===== *)
(** * RouteIoctl: requests of the routing socket ([bsd/lib/lazybsd_route.c])

    [lazybsd_rtioctl] takes a message of the user, checks it ([fill_addrinfo]), asks the
    routing table to add, change, delete or find a route, and answers in the buffer of the
    user.  A route that was found or deleted is described by a new message
    ([update_rtm_from_rc]).

    The functions run in the monad of SocketApi.v.  The routing table is the class
    [RibKernel]: its routines are the calls [ribcall], the fields of its structures are read
    with [field], where NULL faults.  The locks and epochs do nothing and are left out;
    [ROUTE_MPATH] is not defined. *)
From S2P Require Import Prelude Errno KernSubr SockConv SocketApi Route RouteClean.

(** ** The routing table *)

(** The fields of [struct nhop_object], [struct ifaddr], [struct ifnet] and
    [struct rtentry] that are read; [NH_IS_NHGRP], [nhop_get_idx], [nhop_get_rtflags] and
    [rt_get_raw_nhop] read one too. *)
Inductive kfield :=
| nh_ifp | nh_ifa | nh_mtu | NH_IS_NHGRP | nhop_get_idx | nhop_get_rtflags
| ifa_addr | ifa_dstaddr | ifa_netmask
| if_addr | if_index | if_flags | if_type
| rt_weight | rt_expire | rte_flags | rt_get_raw_nhop.

(** [struct rt_addrinfo] with all of its fields. *)
Record req_info := ReqInfo {
  addrs : Route.rt_addrinfo; rti_mflags : Z; rti_rmx : Z; rti_ifp : Z; rti_ifa : Z }.

(** [struct rib_cmd_info] *)
Record rib_cmd_info := RibCmdInfo { rc_rt : Z; rc_nh_old : Z; rc_nh_new : Z; rc_nh_weight : Z }.

Inductive ribcall : Type -> Type :=
| priv_check (priv : Z) : ribcall unit
| prison_if (sa : Z) : ribcall unit
| prison_check_ip4 (ia : Z) : ribcall unit
| prison_get_ip4 (ia : Z) : ribcall Z                (* the address *)
| prison_check_ip6 (ia : Z) : ribcall unit
| prison_get_ip6 (ia : Z) : ribcall Z
| jailed_without_vnet : ribcall bool
| rib_lookup_info (fib dst flags flowid gateway : Z) : ribcall Z   (* [rti_ifp] *)
| rib_free_info : ribcall unit
| rt_tables_get_rnh (fib family : Z) : ribcall Z
| rnh_matchaddr (rnh dst : Z) : ribcall Z
| rnh_lookup (rnh dst mask : Z) : ribcall Z
| ifa_ifwithnet (dst ignore fib : Z) : ribcall Z
| rt_maskedcopy (src dst mask : Z) : ribcall unit
| rt_get_inet_prefix_pmask (rt : Z) : ribcall (Z * Z * Z)  (* address, mask and scope *)
| rt_get_inet6_prefix_pmask (rt : Z) : ribcall (Z * Z * Z)
| rt_is_host (rt : Z) : ribcall bool
| lla_rt_output (rtm : Z) (info : req_info) : ribcall req_info
| rtable_action (fib action : Z) (info : req_info) : ribcall (req_info * rib_cmd_info).
   (* [rib_action] *)

Class RibKernel (K : Type) := {
  rib : forall {R : Type}, ribcall R -> kstate K -> Z * R * kstate K;
  kfield_of : kfield -> Z -> K -> Z;
  if_addrhead : Z -> K -> list Z;          (** the addresses of an interface *)
  gw_sa : Z -> Z;                          (** the gateway in a next hop *)
  V_loif : K -> Z;
  curproc_pid : Z;
  time_uptime : K -> Z;
  time_second : K -> Z }.

(** The constants, and the offsets in [struct rt_msghdr] and [struct rt_metrics]. *)
Class RtsockHeaders := {
  RTAX_GENMASK : Z; RTAX_IFP : Z; RTAX_IFA : Z; RTAX_BRD : Z;
  RTA_IFP : Z; RTA_IFA : Z;
  RTM_ADD : Z; RTM_DELETE : Z; RTM_CHANGE : Z; RTM_GET : Z;
  RTF_GATEWAY : Z; RTF_DONE : Z; RTF_REJECT : Z; RTF_BLACKHOLE : Z; RTF_ANNOUNCE : Z;
  RTF_RNH_LOCKED : Z; RTF_GWFLAG_COMPAT : Z;
  IFF_LOOPBACK : Z; IFF_POINTOPOINT : Z; IFT_PROPVIRTUAL : Z;
  PRIV_NET_ROUTE : Z; NHR_REF : Z; RT_ALL_FIBS : Z;
  in6addr_loopback : Z;
  rtm_index : Z; rtm_flags : Z; rtm_addrs : Z; rtm_pid : Z; rtm_errno : Z; rtm_inits : Z; rtm_rmx : Z;
  rmx_mtu : Z; rmx_expire : Z; rmx_weight : Z; rmx_nhidx : Z; sizeof_rt_metrics : Z;
  sizeof_sockaddr_storage : Z }.

(** Addresses in network byte order: [htonl(INADDR_LOOPBACK)]. *)
Definition INADDR_LOOPBACK_N : Z := 16777343.

(** The addresses of the local variables and of [sa_zero]. *)
Record frame := Frame {
  sa_zero : Z; msg_ss : Z; lookup_ss : Z; gw_saun : Z; jail_saun : Z; sa_dst : Z; sa_mask : Z;
  laddr : Z; flush_ss : Z }.

(** [roundup2(x, y)] for an [int] and [y] a power of 2. *)
Definition roundup2 (x y : Z) : Z := i32 (Z.land (i32 (x + (y - 1))) (Z.lnot (y - 1))).

Definition set_addrs (a : Route.rt_addrinfo) (i : req_info) : req_info :=
  ReqInfo a (rti_mflags i) (rti_rmx i) (rti_ifp i) (rti_ifa i).
Definition set_ifp (p : Z) (i : req_info) : req_info :=
  ReqInfo (addrs i) (rti_mflags i) (rti_rmx i) p (rti_ifa i).
Definition set_ifa (p : Z) (i : req_info) : req_info :=
  ReqInfo (addrs i) (rti_mflags i) (rti_rmx i) (rti_ifp i) p.
Definition set_rti_flags (f : Z) (a : Route.rt_addrinfo) : Route.rt_addrinfo :=
  Route.RtAddrinfo (rti_addrs a) f (rti_info a).

(** [info->rti_info[i]]; a missing index is NULL. *)
Definition rti (i : Z) (a : Route.rt_addrinfo) : Z := default 0 (rti_info a !! i).
Definition set_rti (i p : Z) (a : Route.rt_addrinfo) : Route.rt_addrinfo :=
  set_info (if p =? 0 then delete i (rti_info a) else <[i := p]> (rti_info a)) a.

Section RouteIoctl.
Context {K : Type} `{Kernel K} `{RibKernel K} `{BsdHeaders} `{RouteHeaders} `{RtsockHeaders}.
Context (fr : frame).

(** A call to the routing table: its error and what else it returns. *)
Definition rcall {R} (c : ribcall R) : M K (Z * R) := fun s =>
  let '(rc, r, k') := rib c (ks s) in Ok (rc, r, Sys k' (lazybsd_errno s) (current_ts s)).

(** [p->f] *)
Definition field (f : kfield) (p : Z) : M K Z := fun s =>
  if p =? 0 then Panic else Ok (kfield_of f p (stack (ks s)), s).
Definition if_addrs (ifp : Z) : M K (list Z) := fun s =>
  if ifp =? 0 then Panic else Ok (if_addrhead ifp (stack (ks s)), s).
Definition kread {A} (f : K -> A) : M K A := fun s => Ok (f (stack (ks s)), s).

(** [sa->sa_family], and [info->rti_info[i]->sa_family]. *)
Definition family_of (sa : Z) : M K Z := if sa =? 0 then crash else read 1 (sa + sa_family).
Definition rti_family (i : Z) (info : Route.rt_addrinfo) : M K Z :=
  match rti_info info !! i with Some sa => read 1 (sa + sa_family) | None => crash end.

Definition bzero (a n : Z) : M K unit := in_memory (fun m => Ok (assign_struct a n zeros m)).
Definition copy (src dst n : Z) : M K unit := in_memory (memcpy dst src n).
Definition rt_malloc (n : Z) : M K Z := '(_, p) ← call (malloc (u64 n)); mret p.
Definition rt_free (p : Z) : M K unit := _ ← call (free p); mret ().

(** A [sockaddr_in] or [sockaddr_in6] that is zero but for family, length and address. *)
Definition put_sockaddr_in (a addr : Z) : M K unit :=
  _ ← bzero a sizeof_sockaddr_in;
  _ ← write 1 (a + sa_len) sizeof_sockaddr_in;
  _ ← write 1 (a + sa_family) AF_INET;
  write 4 (a + sin_addr) addr.
Definition put_sockaddr_in6 (a addr : Z) : M K unit :=
  _ ← bzero a sizeof_sockaddr_in6;
  _ ← write 1 (a + sa_len) sizeof_sockaddr_in6;
  _ ← write 1 (a + sa_family) AF_INET6;
  write 16 (a + sin6_addr) addr.

(** ** The address of the interface a jail may see *)

(** The loops over the addresses of the interface: the address found. *)
Fixpoint find_ip4 (l : list Z) : M K (option Z) :=
  match l with
  | [] => mret None
  | ifa :: l =>
      sa ← field ifa_addr ifa;
      fam ← family_of sa;
      if negb (fam =? AF_INET) then find_ip4 l else
      ia ← read 4 (sa + sin_addr);
      '(e, _) ← rcall (prison_check_ip4 ia);
      if e =? 0 then mret (Some ia) else find_ip4 l
  end.

Fixpoint find_ip6 (l : list Z) : M K (option Z) :=
  match l with
  | [] => mret None
  | ifa :: l =>
      sa ← field ifa_addr ifa;
      fam ← family_of sa;
      if negb (fam =? AF_INET6) then find_ip6 l else
      ia ← read 16 (sa + sin6_addr);
      '(e, _) ← rcall (prison_check_ip6 ia);
      if e =? 0 then mret (Some ia) else find_ip6 l
  end.

Definition rtm_get_jailed (info : Route.rt_addrinfo) (ifp nh : Z) : M K (Z * Route.rt_addrinfo) :=
  ifa ← field nh_ifa nh;
  own ← field ifa_addr ifa;
  '(e, _) ← rcall (prison_if own);
  if e =? 0 then mret (0, set_rti RTAX_IFA own info) else
  fam ← rti_family RTAX_DST info;
  if fam =? AF_INET then
    l ← if_addrs ifp;
    found ← find_ip4 l;
    '(e, ia) ← match found with
               | Some ia => mret (0, ia)
               | None => ia ← read 4 (own + sin_addr); rcall (prison_get_ip4 ia)
               end;
    if negb (e =? 0) then mret (LAZYBSD_ESRCH, info) else
    _ ← put_sockaddr_in (jail_saun fr) ia;
    mret (0, set_rti RTAX_IFA (jail_saun fr) info)
  else if fam =? AF_INET6 then
    l ← if_addrs ifp;
    found ← find_ip6 l;
    '(e, ia) ← match found with
               | Some ia => mret (0, ia)
               | None => ia ← read 16 (own + sin6_addr); rcall (prison_get_ip6 ia)
               end;
    if negb (e =? 0) then mret (LAZYBSD_ESRCH, info) else
    _ ← put_sockaddr_in6 (jail_saun fr) ia;
    e ← in_memory_with (fun m => Ok (sa6_recoverscope (jail_saun fr) m));
    if negb (e =? 0) then mret (LAZYBSD_ESRCH, info) else
    mret (0, set_rti RTAX_IFA (jail_saun fr) info)
  else mret (LAZYBSD_ESRCH, info).

(** ** Blackhole routes go to the loopback interface *)

Fixpoint find_family (saf : Z) (l : list Z) : M K Z :=
  match l with
  | [] => mret 0
  | ifa :: l =>
      sa ← field ifa_addr ifa;
      fam ← family_of sa;
      if fam =? saf then mret ifa else find_family saf l
  end.

Definition fill_blackholeinfo (info : req_info) (saun : Z) : M K (Z * req_info) :=
  loif ← kread V_loif;
  if loif =? 0 then mret (LAZYBSD_ENOTSUP, info) else
  let info := set_ifp loif info in
  saf ← rti_family RTAX_DST (addrs info);
  l ← if_addrs (rti_ifp info);
  ifa ← find_family saf l;
  let info := if negb (ifa =? 0) then set_ifa ifa info else info in
  if rti_ifa info =? 0 then mret (LAZYBSD_ENOTSUP, info) else
  _ ← bzero saun sizeof_sockaddr_in6;
  let done := let a := set_rti RTAX_GATEWAY saun (addrs info) in
              (0, set_addrs (set_rti_flags (Z.lor (rti_flags a) RTF_GATEWAY) a) info) in
  if saf =? AF_INET then
    _ ← write 1 (saun + sa_family) AF_INET;
    _ ← write 1 (saun + sa_len) sizeof_sockaddr_in;
    _ ← write 4 (saun + sin_addr) INADDR_LOOPBACK_N;
    mret done
  else if saf =? AF_INET6 then
    _ ← write 1 (saun + sa_family) AF_INET6;
    _ ← write 1 (saun + sa_len) sizeof_sockaddr_in6;
    _ ← write 16 (saun + sin6_addr) in6addr_loopback;
    mret done
  else mret (LAZYBSD_ENOTSUP, info).

(** ** Reading the message *)

(** A gateway that is an address of this host's loopback routes is not a gateway. *)
Definition fix_gateway (fibnum : Z) (info : Route.rt_addrinfo) : M K Route.rt_addrinfo :=
  match rti_info info !! RTAX_GATEWAY with
  | None => mret info
  | Some gw =>
  fam ← read 1 (gw + sa_family);
  if fam =? AF_LINK then mret info else
  _ ← bzero (lookup_ss fr) sizeof_sockaddr_storage;
  _ ← write 1 (lookup_ss fr + sa_len) sizeof_sockaddr_storage;
  '(e, ifp) ← rcall (rib_lookup_info fibnum gw NHR_REF 0 (lookup_ss fr));
  if negb (e =? 0) then mret info else
  fam ← read 1 (lookup_ss fr + sa_family);
  fl ← (if fam =? AF_LINK then field if_flags ifp else mret 0);
  let info := if (fam =? AF_LINK) && negb (Z.land fl IFF_LOOPBACK =? 0)
              then set_rti_flags (Z.lor (Z.land (rti_flags info) (Z.lnot RTF_GATEWAY)) RTF_GWFLAG_COMPAT) info
              else info in
  _ ← rcall rib_free_info;
  mret info
  end.

Definition fill_addrinfo (rtm len fibnum : Z) (info : req_info) : M K (Z * req_info) :=
  _ ← write 4 (rtm + rtm_pid) (curproc_pid (K := K));
  ra ← read 4 (rtm + rtm_addrs);
  ri ← read 8 (rtm + rtm_inits);
  let a := Route.RtAddrinfo ra (rti_flags (addrs info)) (rti_info (addrs info)) in
  let info := ReqInfo a ri (rtm + rtm_rmx) (rti_ifp info) (rti_ifa info) in
  '(e, a) ← in_memory_with (fun m =>
     Ok (rt_xaddrs (sa_zero fr) (rtm + sizeof_rt_msghdr) (rtm + len) a m));
  let info := set_addrs a info in
  if negb (e =? 0) then mret (LAZYBSD_EINVAL, info) else
  fl ← read 4 (rtm + rtm_flags);
  if negb (Z.land fl RTF_RNH_LOCKED =? 0) then mret (LAZYBSD_EINVAL, info) else
  '(e, a) ← in_memory_with (fun m => Ok (cleanup_xaddrs (set_rti_flags fl a) m));
  let info := set_addrs a info in
  if negb (e =? 0) then mret (e, info) else
  _ ← rti_family RTAX_DST a;
  ty ← read 1 (rtm + rtm_type);
  '(e, _) ← (if negb (ty =? RTM_GET) then rcall (priv_check PRIV_NET_ROUTE) else mret (0, ()));
  if negb (e =? 0) then mret (e, info) else
  a ← fix_gateway fibnum a;
  mret (0, set_addrs a info).

(** ** Finding a route *)

Definition select_nhop (nh : Z) : M K Z :=
  grp ← field NH_IS_NHGRP nh;
  if grp =? 0 then mret nh else mret 0.

(** [rc->rc_rt], its next hop and the error. *)
Definition nhop_of (rt : Z) : M K Z := nh ← field rt_get_raw_nhop rt; select_nhop nh.

(** The destination of the second search, in [laddr]. *)
Definition announce_dst (info : Route.rt_addrinfo) (nh : Z) : M K unit :=
  ifp ← field nh_ifp nh;
  ty ← (if negb (ifp =? 0) then field if_type ifp else mret 0);
  if negb (ifp =? 0) && (ty =? IFT_PROPVIRTUAL) then
    '(_, ifa) ← rcall (ifa_ifwithnet (rti RTAX_DST info) 1 RT_ALL_FIBS);
    if ifa =? 0 then mret () else
    a ← field ifa_addr ifa;
    n ← field ifa_netmask ifa;
    _ ← rcall (rt_maskedcopy a (laddr fr) n); mret ()
  else
    ifa ← field nh_ifa nh;
    a ← field ifa_addr ifa;
    n ← field ifa_netmask ifa;
    _ ← rcall (rt_maskedcopy a (laddr fr) n); mret ().

Definition handle_rtm_get (info : Route.rt_addrinfo) (fibnum rtm : Z) : M K (Z * rib_cmd_info) :=
  let none := RibCmdInfo 0 0 0 0 in
  saf ← rti_family RTAX_DST info;
  '(_, rnh) ← rcall (rt_tables_get_rnh fibnum saf);
  if rnh =? 0 then mret (LAZYBSD_EAFNOSUPPORT, none) else
  ra ← read 4 (rtm + rtm_addrs);
  '(_, rt) ← (if Z.land ra RTA_NETMASK =? 0 then rcall (rnh_matchaddr rnh (rti RTAX_DST info))
              else rcall (rnh_lookup rnh (rti RTAX_DST info) (rti RTAX_NETMASK info)));
  if rt =? 0 then mret (LAZYBSD_ESRCH, none) else
  nh ← nhop_of rt;
  if nh =? 0 then mret (LAZYBSD_ESRCH, none) else
  fl ← read 4 (rtm + rtm_flags);
  '(rt, nh) ← (if negb (Z.land fl RTF_ANNOUNCE =? 0) then
                 _ ← announce_dst info nh;
                 '(_, rt) ← rcall (rnh_matchaddr rnh (laddr fr));
                 if rt =? 0 then mret (0, 0) else nh ← nhop_of rt; mret (rt, nh)
               else mret (rt, nh));
  if (rt =? 0) || (nh =? 0) then mret (LAZYBSD_ESRCH, none) else
  w ← field rt_weight rt;
  mret (0, RibCmdInfo rt 0 nh w).

(** ** Describing a route *)

Definition rt_getmetrics (rt nh out : Z) : M K unit :=
  _ ← bzero out sizeof_rt_metrics;
  mtu ← field nh_mtu nh;
  _ ← write 8 (out + rmx_mtu) mtu;
  w ← field rt_weight rt;
  _ ← write 8 (out + rmx_weight) w;
  idx ← field nhop_get_idx nh;
  _ ← write 8 (out + rmx_nhidx) idx;
  ex ← field rt_expire rt;
  up ← kread time_uptime;
  now ← kread time_second;
  write 8 (out + rmx_expire) (if ex =? 0 then 0 else ex - up + now).

Definition init_sockaddrs_family (family dst mask : Z) : M K unit :=
  _ ← (if family =? AF_INET then _ ← put_sockaddr_in dst 0; put_sockaddr_in mask 0 else mret ());
  if family =? AF_INET6 then _ ← put_sockaddr_in6 dst 0; put_sockaddr_in6 mask 0 else mret ().

Definition export_rtaddrs (rt dst mask : Z) : M K unit :=
  fam ← read 1 (dst + sa_family);
  if fam =? AF_INET then
    '(_, (a, n, _)) ← rcall (rt_get_inet_prefix_pmask rt);
    _ ← write 4 (dst + sin_addr) a;
    write 4 (mask + sin_addr) n
  else if fam =? AF_INET6 then
    '(_, (a, n, scope)) ← rcall (rt_get_inet6_prefix_pmask rt);
    _ ← write 16 (dst + sin6_addr) a;
    _ ← write 16 (mask + sin6_addr) n;
    write 4 (dst + sin6_scope_id) scope
  else mret ().

(** [rtsock_msg_buffer] on the memory of the calls. *)
Definition msg_buffer (type : Z) (info : Route.rt_addrinfo) (w : option walkarg)
    : M K (Route.rt_addrinfo * Z) :=
  in_memory_with (fun m => let '(_, info, len, m) := rtsock_msg_buffer (msg_ss fr) type info w m in Ok (info, len, m)).

(** The addresses of the interface, if the user asked for them. *)
Definition interface_addrs (info : Route.rt_addrinfo) (rtm nh : Z) : M K (Z * Route.rt_addrinfo) :=
  ifp ← field nh_ifp nh;
  ra ← read 4 (rtm + rtm_addrs);
  if negb (Z.land ra (Z.lor RTA_IFP RTA_IFA) =? 0) then
    if negb (ifp =? 0) then
      own ← field if_addr ifp;
      a ← field ifa_addr own;
      '(e, info) ← rtm_get_jailed (set_rti RTAX_IFP a info) ifp nh;
      if negb (e =? 0) then mret (e, info) else
      fl ← field if_flags ifp;
      info ← (if negb (Z.land fl IFF_POINTOPOINT =? 0) then
                ifa ← field nh_ifa nh;
                d ← field ifa_dstaddr ifa;
                mret (set_rti RTAX_BRD d info)
              else mret info);
      ix ← field if_index ifp;
      _ ← write 2 (rtm + rtm_index) ix;
      mret (0, info)
    else mret (0, set_rti RTAX_IFA 0 (set_rti RTAX_IFP 0 info))
  else if negb (ifp =? 0) then
    ix ← field if_index ifp;
    _ ← write 2 (rtm + rtm_index) ix;
    mret (0, info)
  else mret (0, info).

(** The new message; [w_op] is not read for these types of message. *)
Definition write_answer (info : Route.rt_addrinfo) (rtm alloc_len : Z) (rc : rib_cmd_info) (nh : Z)
    : M K Route.rt_addrinfo :=
  ty ← read 1 (rtm + rtm_type);
  '(info, _) ← msg_buffer ty info (Some (Walkarg alloc_len 0 rtm));
  f1 ← field rte_flags (rc_rt rc);
  f2 ← field nhop_get_rtflags nh;
  let fl := Z.lor f1 f2 in
  _ ← write 4 (rtm + rtm_flags)
        (if negb (Z.land fl RTF_GWFLAG_COMPAT =? 0) then Z.lor RTF_GATEWAY (Z.land fl (Z.lnot RTF_GWFLAG_COMPAT)) else fl);
  _ ← rt_getmetrics (rc_rt rc) nh (rtm + rtm_rmx);
  _ ← write 8 (rtm + rtm_rmx + rmx_weight) (rc_nh_weight rc);
  _ ← write 4 (rtm + rtm_addrs) (rti_addrs info);
  mret info.

Definition update_rtm_from_rc (info : Route.rt_addrinfo) (rtm alloc_len : Z) (rc : rib_cmd_info) (nh maxlen : Z)
    : M K (Z * Route.rt_addrinfo * Z) :=
  family ← rti_family RTAX_DST info;
  _ ← init_sockaddrs_family family (sa_dst fr) (sa_mask fr);
  _ ← export_rtaddrs (rc_rt rc) (sa_dst fr) (sa_mask fr);
  '(_, host) ← rcall (rt_is_host (rc_rt rc));
  let info := set_rti RTAX_DST (sa_dst fr) info in
  let info := set_rti RTAX_NETMASK (if (host : bool) then 0 else sa_mask fr) info in
  let info := set_rti RTAX_GATEWAY (gw_sa (K := K) nh) info in
  let info := set_rti RTAX_GENMASK 0 info in
  '(e, info) ← interface_addrs info rtm nh;
  if negb (e =? 0) then mret (e, info, rtm) else
  ty ← read 1 (rtm + rtm_type);
  '(info, len) ← msg_buffer ty info None;
  if maxlen <? u32 len then mret (LAZYBSD_ENOBUFS, info, rtm) else
  if alloc_len <? len then
    tmp_rtm ← rt_malloc len;
    if tmp_rtm =? 0 then mret (LAZYBSD_ENOBUFS, info, rtm) else
    l ← read 2 (rtm + rtm_msglen);
    _ ← copy rtm tmp_rtm l;
    info ← write_answer info tmp_rtm len rc nh;
    _ ← rt_free rtm;
    mret (0, info, tmp_rtm)
  else
    info ← write_answer info rtm alloc_len rc nh;
    mret (0, info, rtm).

Definition can_export_rte (host : bool) (dst : Z) : M K bool :=
  if negb host then '(_, j) ← rcall jailed_without_vnet; mret (negb j)
  else '(e, _) ← rcall (prison_if dst); mret (e =? 0).

(** ** A request *)

(** Where a request stands at [flush]: the error, the message (0 if it is gone), whether
    the scopes of IPv6 addresses go back into their fields, and the addresses. *)
Record ending := Ending { e_error : Z; e_rtm : Z; e_deembed : bool; e_info : req_info }.

(** The label [report]. *)
Definition report (info : req_info) (rtm alloc_len : Z) (rc : rib_cmd_info) (nh maxlen : Z) : M K ending :=
  let a := addrs info in
  ok ← can_export_rte (bool_decide (rti_info a !! RTAX_NETMASK = None)) (rti RTAX_DST a);
  if negb (ok : bool) then mret (Ending LAZYBSD_ESRCH rtm false info) else
  '(e, a, rtm) ← update_rtm_from_rc a rtm alloc_len rc nh maxlen;
  mret (Ending e rtm false (set_addrs a info)).

(** The [switch] on the type of the message. *)
Definition rtm_switch (info : req_info) (fibnum rtm alloc_len maxlen : Z) : M K ending :=
  ty ← read 1 (rtm + rtm_type);
  if (ty =? RTM_ADD) || (ty =? RTM_CHANGE) then
    if (ty =? RTM_ADD) && bool_decide (rti_info (addrs info) !! RTAX_GATEWAY = None) then mret (Ending LAZYBSD_EINVAL rtm false info) else
    '(e, (info, rc)) ← rcall (rtable_action fibnum ty info);
    if negb (e =? 0) then mret (Ending e rtm false info) else
    let nh := rc_nh_new rc in
    ifp ← field nh_ifp nh;
    ix ← field if_index ifp;
    _ ← write 2 (rtm + rtm_index) ix;
    f1 ← field rte_flags (rc_rt rc);
    f2 ← field nhop_get_rtflags nh;
    _ ← write 4 (rtm + rtm_flags) (Z.lor f1 f2);
    mret (Ending 0 rtm true info)
  else if ty =? RTM_DELETE then
    '(e, (info, rc)) ← rcall (rtable_action fibnum RTM_DELETE info);
    if e =? 0 then report info rtm alloc_len rc (rc_nh_old rc) maxlen
    else mret (Ending e rtm true info)
  else if ty =? RTM_GET then
    '(e, rc) ← handle_rtm_get (addrs info) fibnum rtm;
    if negb (e =? 0) then mret (Ending e rtm false info) else
    report info rtm alloc_len rc (rc_nh_new rc) maxlen
  else mret (Ending LAZYBSD_EOPNOTSUPP rtm false info).

(** From the allocation of the message to [flush]. *)
Definition serve (fibnum rtm alloc_len len maxlen : Z) : M K ending :=
  let info := ReqInfo (Route.RtAddrinfo 0 0 ∅) 0 0 0 0 in
  ml ← read 2 (rtm + rtm_msglen);
  if (len <? sizeof_rt_msghdr) || negb (len =? ml) then mret (Ending LAZYBSD_EINVAL rtm false info) else
  v ← read 1 (rtm + rtm_version);
  if negb (v =? RTM_VERSION) then
    _ ← rt_free rtm; mret (Ending LAZYBSD_EPROTONOSUPPORT 0 false info)
  else
    '(e, info) ← fill_addrinfo rtm len fibnum info;
    if negb (e =? 0) then mret (Ending e rtm false info) else
    fl ← read 4 (rtm + rtm_flags);
    if negb (Z.land fl RTF_LLDATA =? 0) then
      '(e, info) ← rcall (lla_rt_output rtm info);
      mret (Ending e rtm (e =? 0) info)
    else
      let bh := Z.land fl (Z.lor RTF_BLACKHOLE RTF_REJECT) in
      '(e, info) ← (if bh =? 0 then mret (0, info)
                    else if negb (bh =? Z.lor RTF_BLACKHOLE RTF_REJECT) then fill_blackholeinfo info (gw_saun fr)
                    else mret (LAZYBSD_EINVAL, info));
      if negb (e =? 0) then mret (Ending e rtm false info) else
      rtm_switch info fibnum rtm alloc_len maxlen.

(** The scopes of the addresses go back into their fields. *)
Fixpoint deembed_loop (n : nat) (i : Z) (info : Route.rt_addrinfo) : M K unit :=
  match n with
  | O => mret ()
  | S n =>
      _ ← match rti_info info !! i with
          | None => mret ()
          | Some sa =>
              fam ← read 1 (sa + sa_family);
              if negb (fam =? AF_INET6) then mret () else
              _ ← copy sa (flush_ss fr) sizeof_sockaddr_in6;
              e ← in_memory_with (fun m => Ok (sa6_recoverscope (flush_ss fr) m));
              if e =? 0 then copy (flush_ss fr) sa sizeof_sockaddr_in6 else mret ()
          end;
      deembed_loop n (i + 1) info
  end.

(** The message says what happened, goes to the user and is freed; the value is its length. *)
Definition mark (rtm e : Z) : M K unit :=
  if negb (e =? 0) then write 4 (rtm + rtm_errno) e
  else fl ← read 4 (rtm + rtm_flags); write 4 (rtm + rtm_flags) (Z.lor fl RTF_DONE).
Definition answer (rtm e data : Z) : M K Z :=
  _ ← mark rtm e;
  l ← read 2 (rtm + rtm_msglen);
  _ ← copy rtm data l;
  _ ← rt_free rtm;
  mret l.

(** The end of the call, with the value and [*plen]. *)
Definition finish (e plen : Z) : M K (Z * Z) :=
  if negb (e =? 0) then r ← kern_fail e; mret (r, plen) else mret (0, plen).

(** The label [flush]: the value and the new [*plen]. *)
Definition flush (x : ending) (data plen : Z) : M K (Z * Z) :=
  plen ← (if e_rtm x =? 0 then mret plen else
          _ ← (if e_deembed x then deembed_loop RTAX_MAX 0 (addrs (e_info x)) else mret ());
          answer (e_rtm x) (e_error x) data);
  finish (e_error x) plen.

(** [plen] is the value of [*plen]; the result is the value of the call and [*plen]. *)
Definition lazybsd_rtioctl (fibnum data plen maxlen : Z) : M K (Z * Z) :=
  let len := i32 plen in
  let alloc_len := roundup2 len 1024 in
  rtm ← rt_malloc alloc_len;
  if rtm =? 0 then flush (Ending LAZYBSD_ENOBUFS 0 false (ReqInfo (Route.RtAddrinfo 0 0 ∅) 0 0 0 0)) data plen
  else
    _ ← copy data rtm (u64 len);
    x ← serve fibnum rtm alloc_len len maxlen;
    flush x data plen.
End RouteIoctl.

(** ** What the kernel documents

    [heap] is the set of the blocks the kernel's allocator has given out.  The structures
    of the routing table are linked: a next hop has an address of its interface, and so on.
    [rib_action] says which route it changed, and leaves the destination of the request. *)
Class RtsockDoc `{RouteAddrDoc} `{RtsockHeaders} : Prop := {
  doc_rtm_errno : 4 <= rtm_errno /\ 4 <= rtm_flags;
  doc_RTF_DONE : 0 <= RTF_DONE < 2 ^ 32;
  doc_rtm_types : RTM_ADD <> RTM_DELETE /\ RTM_CHANGE <> RTM_DELETE;
  doc_dst : RTAX_DST <> RTAX_GENMASK /\ RTAX_DST <> RTAX_IFP }.

Class RibDoc (K : Type) `{Kernel K} `{RibKernel K} `{RtsockDoc} (heap : K -> gset Z) : Prop := {
  doc_malloc : forall n k, let '(_, p, k') := kernel (malloc n) k in
    p = 0 /\ heap (stack k') = heap (stack k) \/
    p <> 0 /\ p ∉ heap (stack k) /\ heap (stack k') = {[p]} ∪ heap (stack k);
  doc_free : forall p k, p ∈ heap (stack k) -> let '(_, _, k') := kernel (free p) k in
    heap (stack k') = heap (stack k) ∖ {[p]} /\ mem k' = mem k;
  doc_rib : forall R (c : ribcall R) k, let '(_, _, k') := rib c k in heap (stack k') = heap (stack k);
  doc_linked : forall f p k, f ∈ [nh_ifa; ifa_addr; if_addr; rt_get_raw_nhop] -> p <> 0 -> kfield_of f p k <> 0;
  doc_addrhead : forall ifp k a, a ∈ if_addrhead ifp k -> a <> 0;
  doc_lookup_info : forall fib dst f i gw k, let '(e, ifp, _) := rib (rib_lookup_info fib dst f i gw) k in e = 0 -> ifp <> 0;
  doc_action : forall fib a info k, let '(e, (info', rc), k') := rib (rtable_action fib a info) k in
    rti_info (addrs info') !! RTAX_DST = rti_info (addrs info) !! RTAX_DST /\
    (e = 0 -> rc_rt rc <> 0 /\
       (if a =? RTM_DELETE then rc_nh_old rc <> 0
        else rc_nh_new rc <> 0 /\ forall k, kfield_of nh_ifp (rc_nh_new rc) k <> 0)) }.

Section Facts.
Context {K : Type} {heap : K -> gset Z} `{RibDoc K (heap := heap)}.
Context (fr : frame).

Definition hp (s : sys K) : gset Z := heap (stack (ks s)).

(** [c] returns a value of [Q], and keeps the heap and [lazybsd_errno]. *)
Definition keeps {A} (c : M K A) (Q : A -> Prop) : Prop := forall s, exists a s',
  c s = Ok (a, s') /\ hp s' = hp s /\ lazybsd_errno s' = lazybsd_errno s /\ Q a.

Lemma keeps_ret {A} (a : A) (Q : A -> Prop) : Q a -> keeps (mret a) Q.
Proof. intros Ha s. by exists a, s. Qed.

Lemma keeps_bind {A B} (c : M K A) (f : A -> M K B) Q R :
  keeps c Q -> (forall a, Q a -> keeps (f a) R) -> keeps (c ≫= f) R.
Proof.
  intros Hc Hf s. destruct (Hc s) as (a & s1 & E1 & H1' & H2' & Ha). destruct (Hf a Ha s1) as (b & s2 & E2 & H3' & H4' & Hb).
  exists b, s2. unfold mbind, M_bind. rewrite E1, E2. split_and!; congruence.
Qed.

Lemma keeps_any {A} (c : M K A) (Q : A -> Prop) : keeps c Q -> keeps c (fun _ => True).
Proof. intros Hc s. destruct (Hc s) as (a & s' & ? & ? & ? & _). by exists a, s'. Qed.

Lemma keeps_read n a : keeps (read n a) (fun _ => True).
Proof. intros s. by eexists _, _. Qed.
Lemma keeps_read2 a : keeps (read 2 a) (fun l => l <= LONG_MAX).
Proof. intros s. eexists _, _. split_and!; [done..|]. pose proof (load_range 2 (mem (ks s)) a). unfold LONG_MAX. cbn in *. lia. Qed.
Lemma keeps_kread {A} (f : K -> A) : keeps (kread f) (fun _ => True).
Proof. intros s. by eexists _, _. Qed.
Lemma keeps_write n a v : keeps (write n a v) (fun _ => True).
Proof. intros s. by eexists _, _. Qed.
Lemma keeps_mem {A} (f : memory -> A * memory) : keeps (in_memory_with (fun m => Ok (f m))) (fun _ => True).
Proof. intros s. unfold in_memory_with. destruct (f (mem (ks s))) as [a m]. by eexists _, _. Qed.
Lemma keeps_bzero a n : keeps (bzero a n) (fun _ => True).
Proof. intros s. by eexists _, _. Qed.
Lemma keeps_copy a b n : n <= LONG_MAX -> keeps (copy a b n) (fun _ => True).
Proof.
  intros Hn s. unfold copy, in_memory, memcpy. rewrite (proj2 (Z.ltb_ge _ _)) by done. by eexists _, _.
Qed.
Lemma keeps_field f p : p <> 0 -> keeps (field f p) (fun _ => True).
Proof. intros Hp s. unfold field. rewrite (proj2 (Z.eqb_neq _ _) Hp). by eexists _, _. Qed.
Lemma keeps_link f p : f ∈ [nh_ifa; ifa_addr; if_addr; rt_get_raw_nhop] -> p <> 0 -> keeps (field f p) (fun v => v <> 0).
Proof.
  intros Hf Hp s. unfold field. rewrite (proj2 (Z.eqb_neq _ _) Hp). eexists _, _. split_and!; [done..|].
  by apply doc_linked.
Qed.
Lemma keeps_if_addrs p : p <> 0 -> keeps (if_addrs p) (fun l => forall a, a ∈ l -> a <> 0).
Proof.
  intros Hp s. unfold if_addrs. rewrite (proj2 (Z.eqb_neq _ _) Hp). eexists _, _. split_and!; [done..|].
  intros a. apply doc_addrhead.
Qed.
Lemma keeps_rcall {R} (c : ribcall R) : keeps (rcall c) (fun _ => True).
Proof.
  intros s. unfold rcall. pose proof (doc_rib R c (ks s)) as Hd. destruct (rib c (ks s)) as [[rc r] k']. by eexists _, _.
Qed.

(** The calls that only touch memory and the routing table. *)
Create HintDb keeps_db.
Ltac nonnull := first [assumption | apply Z.eqb_neq; assumption | apply Z.eqb_neq, negb_true_iff; assumption].
Ltac keeps_leaf := first
  [ solve [eauto with keeps_db nocore] | apply keeps_read2 | apply keeps_read | apply keeps_kread | apply keeps_write | apply keeps_mem | apply keeps_bzero | apply keeps_rcall
  | apply keeps_link; [solve [repeat constructor] | nonnull] | apply keeps_field; nonnull
  | apply keeps_if_addrs; nonnull | apply keeps_copy; first [assumption|unfold LONG_MAX; lia] ].
Ltac use_facts := cbn [fst snd] in *; repeat match goal with H : ?P -> _, H' : ?P |- _ => match type of P with Prop => specialize (H H') end end.
Ltac keeps_step :=
  match goal with
  | |- keeps (mret _) _ => apply keeps_ret
  | |- keeps (if negb (?e =? 0) then _ else _) _ => destruct (Z.eqb_spec e 0); cbn [negb]; use_facts
  | |- keeps (if ?e =? 0 then _ else _) _ => destruct (Z.eqb_spec e 0); use_facts
  | |- keeps (if ?b then _ else _) _ => destruct b eqn:?
  | |- keeps (match ?x with _ => _ end) _ => first [is_var x; destruct x; use_facts|destruct x eqn:?]
  | |- keeps (_ ≫= _) _ =>
      first [eapply keeps_bind; [keeps_leaf | intros ? ?] | apply (keeps_bind _ _ (fun _ => True)); [| intros ? _]]
  | |- keeps _ _ => keeps_leaf
  end.
Ltac keeps := repeat (cbn zeta; keeps_step); use_facts; try done.

Lemma keeps_family sa : sa <> 0 -> keeps (family_of sa) (fun _ => True).
Proof. intros Hs. unfold family_of. rewrite (proj2 (Z.eqb_neq _ _) Hs). keeps. Qed.
Lemma keeps_rti_family i info : is_Some (rti_info info !! i) -> keeps (rti_family i info) (fun _ => True).
Proof. intros [sa Hs]. unfold rti_family. rewrite Hs. keeps. Qed.

Lemma keeps_put_in a v : keeps (put_sockaddr_in a v) (fun _ => True).
Proof. unfold put_sockaddr_in. keeps. Qed.
Lemma keeps_put_in6 a v : keeps (put_sockaddr_in6 a v) (fun _ => True).
Proof. unfold put_sockaddr_in6. keeps. Qed.
#[local] Hint Resolve keeps_family keeps_rti_family keeps_put_in keeps_put_in6 : keeps_db.

Lemma keeps_find_ip4 l : (forall a, a ∈ l -> a <> 0) -> keeps (find_ip4 l) (fun _ => True).
Proof.
  induction l as [|ifa l IH]; intros Hl; cbn [find_ip4]; [keeps|].
  assert (ifa <> 0) by (apply Hl; left). assert (keeps (find_ip4 l) (fun _ => True)) by (apply IH; intros a Ha; apply Hl; by right).
  keeps.
Qed.
Lemma keeps_find_ip6 l : (forall a, a ∈ l -> a <> 0) -> keeps (find_ip6 l) (fun _ => True).
Proof.
  induction l as [|ifa l IH]; intros Hl; cbn [find_ip6]; [keeps|].
  assert (ifa <> 0) by (apply Hl; left). assert (keeps (find_ip6 l) (fun _ => True)) by (apply IH; intros a Ha; apply Hl; by right).
  keeps.
Qed.
Lemma keeps_find_family saf l : (forall a, a ∈ l -> a <> 0) -> keeps (find_family saf l) (fun _ => True).
Proof.
  induction l as [|ifa l IH]; intros Hl; cbn [find_family]; [keeps|].
  assert (ifa <> 0) by (apply Hl; left). assert (keeps (find_family saf l) (fun _ => True)) by (apply IH; intros a Ha; apply Hl; by right).
  keeps.
Qed.
#[local] Hint Resolve keeps_find_ip4 keeps_find_ip6 keeps_find_family : keeps_db.

Definition has_dst (info : Route.rt_addrinfo) : Prop := is_Some (rti_info info !! RTAX_DST).

Lemma has_dst_set i p info : i <> RTAX_DST -> has_dst info -> has_dst (set_rti i p info).
Proof.
  intros Hi Hd. unfold has_dst, set_rti, set_info. cbn [rti_info].
  destruct (p =? 0); [by rewrite lookup_delete_ne|by rewrite lookup_insert_ne].
Qed.

Lemma has_dst_flags f info : has_dst info -> has_dst (set_rti_flags f info).
Proof. done. Qed.

Lemma dst_ne : RTAX_GATEWAY <> RTAX_DST /\ RTAX_NETMASK <> RTAX_DST /\ RTAX_GENMASK <> RTAX_DST /\ RTAX_IFP <> RTAX_DST.
Proof. destruct doc_rtax as (? & ? & ?), doc_dst. auto. Qed.

Lemma keeps_jailed info ifp nh : has_dst info -> ifp <> 0 -> nh <> 0 -> keeps (rtm_get_jailed fr info ifp nh) (fun _ => True).
Proof. intros Hd Hi Hn. unfold rtm_get_jailed. unfold has_dst in Hd. keeps. Qed.

Lemma keeps_blackhole info saun : has_dst (addrs info) ->
  keeps (fill_blackholeinfo info saun) (fun r => has_dst (addrs r.2)).
Proof.
  intros Hd. pose proof (proj1 dst_ne). unfold fill_blackholeinfo. unfold has_dst in Hd. keeps.
  all: cbn; match goal with |- context [negb ?b] => destruct b end; first [exact Hd|by apply has_dst_flags, has_dst_set].
Qed.

Lemma keeps_lookup_info fib dst f i gw :
  keeps (rcall (rib_lookup_info fib dst f i gw)) (fun r => r.1 = 0 -> r.2 <> 0).
Proof.
  intros s. unfold rcall. pose proof (doc_rib _ (rib_lookup_info fib dst f i gw) (ks s)) as Hd.
  pose proof (doc_lookup_info fib dst f i gw (ks s)) as Hi.
  destruct (rib (rib_lookup_info fib dst f i gw) (ks s)) as [[e ifp] k']. by eexists _, _.
Qed.

Lemma keeps_fix_gateway fib info : has_dst info -> keeps (fix_gateway fr fib info) has_dst.
Proof.
  intros Hd. unfold fix_gateway. destruct (rti_info info !! RTAX_GATEWAY) as [gw|]; [|by apply keeps_ret].
  do 4 (keeps_step; try done). eapply keeps_bind; [apply keeps_lookup_info|]. intros [e ifp]; cbn [fst snd]. intros He.
  destruct (Z.eqb_spec e 0) as [He0|]; cbn [negb]; [|by apply keeps_ret]. specialize (He He0). keeps.
  by destruct (_ && _).
Qed.

(** A request that is clean has a destination. *)
Lemma remove_netmask_dst info : has_dst info -> has_dst (remove_netmask info).
Proof. intros Hd. unfold has_dst. cbn [remove_netmask rti_info]. rewrite lookup_delete_ne; [done|apply dst_ne]. Qed.

Lemma cleanup_dst info m : let '(e, info1, _) := cleanup_xaddrs info m in e = 0 -> has_dst info1.
Proof.
  unfold cleanup_xaddrs. destruct (rti_info info !! RTAX_DST) as [d|] eqn:ED; [|done].
  assert (has_dst (if negb (Z.land (rti_flags info) RTF_LLDATA =? 0) then remove_netmask info else info)) as Hd.
  { destruct (negb _); [apply remove_netmask_dst|]; by exists d. }
  revert Hd. generalize (if negb (Z.land (rti_flags info) RTF_LLDATA =? 0) then remove_netmask info else info).
  clear info ED. intros info Hd. pose proof (remove_netmask_dst info Hd).
  unfold cleanup_xaddrs_inet, cleanup_xaddrs_inet6, cleanup_inet_dst, cleanup_inet6_dst, check_gateway.
  repeat case_match; simplify_eq; done.
Qed.

Lemma keeps_cleanup info : keeps (in_memory_with (fun m => Ok (cleanup_xaddrs info m))) (fun r => r.1 = 0 -> has_dst r.2).
Proof.
  intros s. unfold in_memory_with. pose proof (cleanup_dst info (mem (ks s))) as Hd.
  destruct (cleanup_xaddrs info (mem (ks s))) as [[e info1] m]. by eexists _, _.
Qed.

#[local] Hint Resolve keeps_jailed keeps_blackhole keeps_fix_gateway keeps_lookup_info keeps_cleanup : keeps_db.

Lemma zero_of (e : Z) : negb (e =? 0) = false -> e = 0.
Proof. intros He. by apply Z.eqb_eq, negb_false_iff. Qed.

Lemma keeps_fill_addrinfo rtm len fib info :
  keeps (fill_addrinfo fr rtm len fib info) (fun r => r.1 = 0 -> has_dst (addrs r.2)).
Proof.
  unfold fill_addrinfo. keeps.
Qed.

Lemma keeps_nhop_of rt : rt <> 0 -> keeps (nhop_of rt) (fun _ => True).
Proof. intros Hr. unfold nhop_of, select_nhop. keeps. Qed.
Lemma keeps_announce info nh : nh <> 0 -> keeps (announce_dst fr info nh) (fun _ => True).
Proof. intros Hn. unfold announce_dst. keeps. Qed.
#[local] Hint Resolve keeps_nhop_of keeps_announce : keeps_db.

Lemma keeps_rtm_get info fib rtm : has_dst info ->
  keeps (handle_rtm_get fr info fib rtm) (fun r => r.1 = 0 -> rc_rt r.2 <> 0 /\ rc_nh_new r.2 <> 0).
Proof.
  intros Hd. unfold has_dst in Hd. unfold handle_rtm_get. keeps.
  all: apply orb_false_iff in Heqb as [?%Z.eqb_neq ?%Z.eqb_neq]; keeps.
Qed.

(** ** Describing a route *)
Lemma keeps_metrics rt nh out : rt <> 0 -> nh <> 0 -> keeps (rt_getmetrics rt nh out) (fun _ => True).
Proof. intros Hr Hn. unfold rt_getmetrics. keeps. Qed.
Lemma keeps_init_family f d n : keeps (init_sockaddrs_family f d n) (fun _ => True).
Proof. unfold init_sockaddrs_family. keeps. Qed.
Lemma keeps_export rt d n : keeps (export_rtaddrs rt d n) (fun _ => True).
Proof. unfold export_rtaddrs. keeps. Qed.
Lemma keeps_msg_buffer ty info w : keeps (msg_buffer fr ty info w) (fun _ => True).
Proof.
  intros s. unfold msg_buffer, in_memory_with. destruct (rtsock_msg_buffer (msg_ss fr) ty info w (mem (ks s))) as [[[e i] l] m].
  by eexists _, _.
Qed.
#[local] Hint Resolve keeps_metrics keeps_init_family keeps_export keeps_msg_buffer : keeps_db.

Lemma keeps_interface info rtm nh : has_dst info -> nh <> 0 -> keeps (interface_addrs fr info rtm nh) (fun _ => True).
Proof.
  intros Hd Hn. assert (forall a, has_dst (set_rti RTAX_IFP a info)) by (intros a; apply has_dst_set; [apply dst_ne|done]).
  unfold interface_addrs. keeps.
Qed.
Lemma keeps_answer info rtm al rc nh : rc_rt rc <> 0 -> nh <> 0 -> keeps (write_answer fr info rtm al rc nh) (fun _ => True).
Proof. intros Hr Hn. unfold write_answer. keeps. Qed.
Lemma keeps_can_export h d : keeps (can_export_rte h d) (fun _ => True).
Proof. unfold can_export_rte. keeps. Qed.
#[local] Hint Resolve keeps_interface keeps_answer keeps_can_export keeps_rtm_get keeps_fill_addrinfo : keeps_db.

(** ** Blocks of memory

    [c] takes over the blocks [own], returns a value of [Q] and leaves the blocks [out];
    other blocks and [lazybsd_errno] are as they were. *)
Definition hands {A} (c : M K A) (own : gset Z) (out : A -> gset Z) (Q : A -> Prop) : Prop := forall s h,
  own ## h -> hp s = own ∪ h -> exists a s', c s = Ok (a, s') /\
    out a ## h /\ hp s' = out a ∪ h /\ lazybsd_errno s' = lazybsd_errno s /\ Q a.

Lemma hands_ret {A} (a : A) own out (Q : A -> Prop) : out a = own -> Q a -> hands (mret a) own out Q.
Proof. intros <- Ha s h Hd Hh. by exists a, s. Qed.

Lemma hands_bind {A B} (c : M K A) (f : A -> M K B) own out Q out' R :
  hands c own out Q -> (forall a, Q a -> hands (f a) (out a) out' R) -> hands (c ≫= f) own out' R.
Proof.
  intros Hc Hf s h Hd Hh. destruct (Hc s h Hd Hh) as (a & s1 & E1 & Hd1 & Hh1 & He1 & Ha).
  destruct (Hf a Ha s1 h Hd1 Hh1) as (b & s2 & E2 & Hd2 & Hh2 & He2 & Hb).
  exists b, s2. unfold mbind, M_bind. rewrite E1, E2. split_and!; [done|done|done|congruence|done].
Qed.

Lemma keeps_hands {A} (c : M K A) own Q : keeps c Q -> hands c own (fun _ => own) Q.
Proof. intros Hc s h Hd Hh. destruct (Hc s) as (a & s' & E & Hh' & He & Ha). exists a, s'. rewrite Hh'. by split_and!. Qed.

Lemma hands_keeps_bind {A B} (c : M K A) (f : A -> M K B) own Q out R :
  keeps c Q -> (forall a, Q a -> hands (f a) own out R) -> hands (c ≫= f) own out R.
Proof. intros Hc Hf. eapply hands_bind; [by apply keeps_hands|exact Hf]. Qed.

Lemma hands_malloc n own :
  hands (rt_malloc n) own (fun p => if p =? 0 then own else {[p]} ∪ own) (fun p => p <> 0 -> p ∉ own).
Proof.
  intros s h Hd Hh. unfold rt_malloc, call, mbind, M_bind, mret, M_ret. pose proof (doc_malloc (u64 n) (ks s)) as Hm.
  destruct (kernel (malloc (u64 n)) (ks s)) as [[rc p] k']. fold (hp s) in Hm. eexists p, _. split; [done|].
  unfold hp at 1. cbn [ks]. destruct Hm as [[-> Hm]|(Hp & Hf & Hm)]; rewrite Hm, Hh in *.
  - by split_and!.
  - rewrite (proj2 (Z.eqb_neq _ _) Hp). split_and!; [set_solver|set_solver|done|set_solver].
Qed.

Lemma free_run p s : p ∈ hp s -> exists s', rt_free p s = Ok ((), s') /\
  hp s' = hp s ∖ {[p]} /\ mem (ks s') = mem (ks s) /\ lazybsd_errno s' = lazybsd_errno s.
Proof.
  intros Hp. pose proof (doc_free p (ks s) Hp) as Hf. unfold rt_free. rewrite run_bind. unfold call at 1.
  destruct (kernel (free p) (ks s)) as [[rc u] k']. destruct Hf. by eexists.
Qed.

Lemma hands_free p own : p ∈ own -> hands (rt_free p) own (fun _ => own ∖ {[p]}) (fun _ => True).
Proof.
  intros Hp s h Hd Hh. destruct (free_run p s) as (s' & E & Hs & _ & He); [rewrite Hh; set_solver|].
  exists (), s'. rewrite Hs, Hh. split_and!; [done|set_solver|set_solver|done|done].
Qed.

Ltac hands_step :=
  match goal with
  | |- hands (mret _) _ _ _ => apply hands_ret
  | |- hands (if negb (?e =? 0) then _ else _) _ _ _ => destruct (Z.eqb_spec e 0); cbn [negb]; use_facts
  | |- hands (if ?e =? 0 then _ else _) _ _ _ => destruct (Z.eqb_spec e 0); use_facts
  | |- hands (if ?b then _ else _) _ _ _ => destruct b eqn:?
  | |- hands (match ?x with _ => _ end) _ _ _ => first [is_var x; destruct x; use_facts|destruct x eqn:?]
  | |- hands (_ ≫= _) _ _ _ =>
      first [eapply hands_keeps_bind; [keeps_leaf | intros ? ?]
            |apply (hands_keeps_bind _ _ _ (fun _ => True)); [solve [keeps] | intros ? _]]
  end.
Ltac hands := repeat (cbn zeta; hands_step); use_facts; try done.

Lemma rtm_union (rtm p : Z) own : p ∉ ({[rtm]} : gset Z) -> own = {[p]} ∪ {[rtm]} -> own ∖ {[rtm]} = ({[p]} : gset Z).
Proof. set_solver. Qed.

Lemma hands_update info rtm al rc nh maxlen : sa_dst fr <> 0 -> rtm <> 0 -> has_dst info -> rc_rt rc <> 0 -> nh <> 0 ->
  hands (update_rtm_from_rc fr info rtm al rc nh maxlen) {[rtm]} (fun r => {[r.2]}) (fun r => r.2 <> 0).
Proof.
  intros Hs Hr Hd Hrt Hn. unfold update_rtm_from_rc.
  assert (forall b, has_dst (set_rti RTAX_GENMASK 0 (set_rti RTAX_GATEWAY (gw_sa (K := K) nh)
    (set_rti RTAX_NETMASK b (set_rti RTAX_DST (sa_dst fr) info))))) as Hset.
  { intros b. destruct dst_ne as (? & ? & ? & ?). do 3 (apply has_dst_set; [done|]).
    unfold has_dst, set_rti. rewrite (proj2 (Z.eqb_neq _ _) Hs). cbn [set_info rti_info]. by rewrite lookup_insert_eq. }
  hands. eapply hands_bind; [apply hands_malloc|]. intros p Hp; cbn beta. destruct (Z.eqb_spec p 0) as [|Hp0]; [by hands|].
  specialize (Hp Hp0). hands. eapply hands_bind; [apply hands_free; set_solver|]. intros u _. apply hands_ret; [|done].
  cbn [snd]. symmetry. by apply rtm_union.
Qed.
#[local] Hint Resolve keeps_can_export : keeps_db.

Lemma hands_report info rtm al rc nh maxlen : sa_dst fr <> 0 -> rtm <> 0 -> has_dst (addrs info) -> rc_rt rc <> 0 -> nh <> 0 ->
  hands (report fr info rtm al rc nh maxlen) {[rtm]} (fun x => {[e_rtm x]}) (fun x => e_rtm x <> 0).
Proof.
  intros Hs Hr Hd Hrt Hn. unfold report. hands.
  eapply hands_bind; [by apply hands_update|]. intros [[e a1] rtm'] Hr'. by apply hands_ret.
Qed.

Lemma keeps_action fib a info : keeps (rcall (rtable_action fib a info)) (fun r =>
  rti_info (addrs r.2.1) !! RTAX_DST = rti_info (addrs info) !! RTAX_DST /\
  (r.1 = 0 -> rc_rt r.2.2 <> 0 /\
     (if a =? RTM_DELETE then rc_nh_old r.2.2 <> 0
      else rc_nh_new r.2.2 <> 0 /\ forall k, kfield_of nh_ifp (rc_nh_new r.2.2) k <> 0))).
Proof.
  intros s. unfold rcall. pose proof (doc_rib _ (rtable_action fib a info) (ks s)) as Hd.
  pose proof (doc_action fib a info (ks s)) as Hi.
  destruct (rib (rtable_action fib a info) (ks s)) as [[e [i rc]] k']. by eexists _, _.
Qed.

Lemma keeps_nh_ifp nh : nh <> 0 -> (forall k, kfield_of nh_ifp nh k <> 0) -> keeps (field nh_ifp nh) (fun v => v <> 0).
Proof. intros Hn Hk s. unfold field. rewrite (proj2 (Z.eqb_neq _ _) Hn). eexists _, _. by split_and!. Qed.

(** ** The request *)
Lemma hands_change info rtm ty fib : rtm <> 0 -> ty = RTM_ADD \/ ty = RTM_CHANGE ->
  hands ('(e, (info, rc)) ← rcall (rtable_action fib ty info);
    if negb (e =? 0) then mret (Ending e rtm false info) else
    let nh := rc_nh_new rc in
    ifp ← field nh_ifp nh;
    ix ← field if_index ifp;
    _ ← write 2 (rtm + rtm_index) ix;
    f1 ← field rte_flags (rc_rt rc);
    f2 ← field nhop_get_rtflags nh;
    _ ← write 4 (rtm + rtm_flags) (Z.lor f1 f2);
    mret (Ending 0 rtm true info)) {[rtm]} (fun x => {[e_rtm x]}) (fun x => e_rtm x <> 0).
Proof.
  intros Hr Hty. eapply hands_keeps_bind; [apply keeps_action|]. intros [e [i rc]] [_ Ha]. cbn [fst snd] in Ha.
  destruct (Z.eqb_spec e 0) as [He|]; cbn [negb]; [|by hands]. destruct (Ha He) as [Hrt Hn].
  rewrite (proj2 (Z.eqb_neq _ _)) in Hn by (destruct doc_rtm_types; destruct Hty; congruence). destruct Hn as [Hn Hk].
  eapply hands_keeps_bind; [by apply keeps_nh_ifp|]. intros ifp Hi. hands.
Qed.

Lemma hands_switch info fib rtm al maxlen : sa_dst fr <> 0 -> rtm <> 0 -> has_dst (addrs info) ->
  hands (rtm_switch fr info fib rtm al maxlen) {[rtm]} (fun x => {[e_rtm x]}) (fun x => e_rtm x <> 0).
Proof.
  intros Hs Hr Hd. unfold rtm_switch. hands_step.
  destruct ((a =? RTM_ADD) || (a =? RTM_CHANGE)) eqn:Ea.
  { destruct ((a =? RTM_ADD) && _); [by hands|]. apply hands_change; [done|].
    apply orb_true_iff in Ea as [Ea%Z.eqb_eq|Ea%Z.eqb_eq]; auto. }
  destruct (Z.eqb_spec a RTM_DELETE) as [->|].
  - eapply hands_keeps_bind; [apply keeps_action|]. intros [e [i rc]] [Hi Ha]. cbn [fst snd] in Hi, Ha. rewrite Z.eqb_refl in Ha.
    destruct (Z.eqb_spec e 0) as [He|]; [|by hands]. destruct (Ha He). apply hands_report; try done. unfold has_dst. by rewrite Hi.
  - destruct (a =? RTM_GET); [|by hands]. eapply hands_keeps_bind; [by apply keeps_rtm_get|]. intros [e rc] Ha; cbn [fst snd] in Ha.
    destruct (Z.eqb_spec e 0) as [He|]; cbn [negb]; [|by hands]. destruct (Ha He). by apply hands_report.
Qed.

(** The block a request ends with. *)
Definition left (x : ending) : gset Z := if e_rtm x =? 0 then ∅ else {[e_rtm x]}.

Lemma hands_left (c : M K ending) rtm : hands c {[rtm]} (fun x => {[e_rtm x]}) (fun x => e_rtm x <> 0) ->
  hands c {[rtm]} left (fun x => e_rtm x = 0 -> e_error x = LAZYBSD_EPROTONOSUPPORT).
Proof.
  intros Hc s h Hd Hh. destruct (Hc s h Hd Hh) as (x & s' & E & Hd' & Hh' & He & Hx). exists x, s'.
  unfold left. by rewrite (proj2 (Z.eqb_neq _ _) Hx).
Qed.

Lemma hands_serve fib rtm al len maxlen : sa_dst fr <> 0 -> rtm <> 0 ->
  hands (serve fr fib rtm al len maxlen) {[rtm]} left (fun x => e_rtm x = 0 -> e_error x = LAZYBSD_EPROTONOSUPPORT).
Proof.
  intros Hs Hr. unfold serve.
  assert (forall e b i, hands (mret (Ending e rtm b i)) {[rtm]} left (fun x => e_rtm x = 0 -> e_error x = LAZYBSD_EPROTONOSUPPORT)) as Hret.
  { intros e b i. apply hands_left. by hands. }
  cbn zeta. hands_step. destruct (_ || _); [apply Hret|]. hands_step. destruct (negb _).
  { eapply hands_bind; [apply (hands_free rtm); set_solver|]. intros u _. apply hands_ret; [|done].
    unfold left. cbn [e_rtm Z.eqb]. set_solver. }
  eapply hands_keeps_bind; [apply keeps_fill_addrinfo|]. intros [e i] Hd; cbn [fst snd] in Hd.
  destruct (Z.eqb_spec e 0) as [He|]; cbn [negb]; [|apply Hret]. specialize (Hd He). hands_step.
  destruct (negb (Z.land a1 RTF_LLDATA =? 0)).
  { hands_step. destruct a2 as [e2 i2]. apply Hret. }
  eapply (hands_keeps_bind _ _ _ (fun r => has_dst (addrs r.2))).
  { destruct (_ =? 0); [by apply keeps_ret|]. destruct (negb _); [by apply keeps_blackhole|by apply keeps_ret]. }
  intros [e3 i3] Hd3; cbn [snd] in Hd3. destruct (Z.eqb_spec e3 0); cbn [negb]; [|apply Hret].
  by apply hands_left, hands_switch.
Qed.

Lemma keeps_deembed n i info : keeps (deembed_loop fr n i info) (fun _ => True).
Proof.
  revert i. induction n as [|n IH]; intros i; cbn [deembed_loop]; [keeps|]. pose proof (IH (i + 1)).
  assert (sizeof_sockaddr_in6 <= LONG_MAX) by (rewrite doc_sizeof_sockaddr_in6; unfold LONG_MAX; lia). keeps.
Qed.

(** ** The answer *)
Lemma load_bcopy k src dst n off m : 0 <= off -> off + Z.of_nat k <= n ->
  load k (bcopy src dst n m) (dst + off) = load k m (src + off).
Proof.
  revert off. induction k as [|k IH]; intros off Ho Hn; [done|]. cbn [load].
  rewrite rd_bcopy, decide_True by lia. replace (src + (dst + off - dst)) with (src + off) by lia.
  rewrite <- !Z.add_assoc, (IH (off + 1)) by lia. done.
Qed.

Lemma land_done v : Z.land (Z.lor v RTF_DONE mod 256 ^ Z.of_nat 4) RTF_DONE = RTF_DONE.
Proof.
  pose proof doc_RTF_DONE as Hd. change (256 ^ Z.of_nat 4) with (2 ^ 32).
  rewrite <- Z.land_ones, <- Z.land_assoc, (Z.land_comm (Z.ones 32)), (Z.land_ones RTF_DONE), Z.mod_small by lia.
  apply Z.bits_inj'. intros n Hn. rewrite Z.land_spec, Z.lor_spec. by destruct (Z.testbit v n), (Z.testbit RTF_DONE n).
Qed.

(** What the message says about the error [e]. *)
Definition says (m : memory) (a e : Z) : Prop :=
  if e =? 0 then Z.land (load 4 m (a + rtm_flags)) RTF_DONE = RTF_DONE else load 4 m (a + rtm_errno) = u32 e.

Lemma mark_run rtm e (s : sys K) : exists m, mark rtm e s =
    Ok ((), Sys (Kstate m (stack (ks s)) (td_retval (ks s))) (lazybsd_errno s) (current_ts s)) /\ says m rtm e.
Proof.
  unfold says, mark. destruct (Z.eqb_spec e 0); cbn [negb]; eexists; (split; [reflexivity|]);
    rewrite load_store; [apply land_done|done].
Qed.

Lemma answer_run rtm e data h s : 0 <= rtm_flags -> 0 <= rtm_errno -> rtm ∉ h -> hp s = {[rtm]} ∪ h ->
  exists l s', answer rtm e data s = Ok (l, s') /\ 0 <= l < 65536 /\ hp s' = h /\
    lazybsd_errno s' = lazybsd_errno s /\
    (rtm_flags + 4 <= l -> rtm_errno + 4 <= l -> says (mem (ks s')) data e).
Proof.
  intros Hf He Hr Hh. destruct (mark_run rtm e s) as (m & Em & Hs). unfold answer. rewrite run_bind, Em.
  pose proof (load_range 2 m (rtm + rtm_msglen)) as Hl. change (256 ^ Z.of_nat 2) with 65536 in Hl. set (l := load 2 m (rtm + rtm_msglen)) in *.
  rewrite run_bind. cbn [read ks mem]. fold l. rewrite run_bind.
  unfold copy, in_memory, memcpy. cbn [ks mem stack td_retval lazybsd_errno current_ts].
  rewrite (proj2 (Z.ltb_ge _ _)) by (unfold LONG_MAX; lia). rewrite run_bind. set (s1 := Sys _ _ _).
  destruct (free_run rtm s1) as (s2 & -> & Hh2 & Hm & He2); [unfold s1, hp in *; cbn [ks stack]; rewrite Hh; set_solver|].
  exists l, s2. split_and!; [done|lia|lia| |done|].
  - rewrite Hh2. unfold s1, hp in *. cbn [ks stack]. rewrite Hh. set_solver.
  - intros Hlf Hle. unfold says in *. rewrite Hm. unfold s1. cbn [mem ks]. by destruct (e =? 0); rewrite load_bcopy by lia.
Qed.

Lemma finish_run e plen (s : sys K) : exists s', finish e plen s = Ok ((if e =? 0 then 0 else -1, plen), s') /\ ks s' = ks s /\
  lazybsd_errno s' = (if e =? 0 then lazybsd_errno s else lazybsd_os_errno e).
Proof. unfold finish. destruct (e =? 0); cbn [negb]; eexists; by split. Qed.

Lemma flush_run x data plen h s : 0 <= rtm_flags -> 0 <= rtm_errno -> left x ## h -> hp s = left x ∪ h ->
  let e := e_error x in
  exists plen' s', flush fr x data plen s = Ok ((if e =? 0 then 0 else -1, plen'), s') /\
    hp s' = h /\ lazybsd_errno s' = (if e =? 0 then lazybsd_errno s else lazybsd_os_errno e) /\
    (e_rtm x = 0 /\ plen' = plen \/
     0 <= plen' < 65536 /\ (rtm_flags + 4 <= plen' -> rtm_errno + 4 <= plen' -> says (mem (ks s')) data e)).
Proof.
  intros Hf He Hd Hh e. unfold flush. fold e. rewrite run_bind. unfold left in *.
  destruct (Z.eqb_spec (e_rtm x) 0) as [Hr|Hr].
  - unfold mret at 1, M_ret at 1. destruct (finish_run e plen s) as (s' & -> & Hk & He').
    exists plen, s'. unfold hp. rewrite Hk. fold (hp s). rewrite Hh. split_and!; [done|set_solver|done|by left].
  - assert (keeps (if e_deembed x then deembed_loop fr RTAX_MAX 0 (addrs (e_info x)) else mret ()) (fun _ => True)) as Hde.
    { destruct (e_deembed x); [apply keeps_deembed|by apply keeps_ret]. }
    destruct (Hde s) as (u & s1 & E1 & Hh1 & He1 & _). rewrite run_bind, E1.
    destruct (answer_run (e_rtm x) e data h s1) as (l & s2 & -> & Hl & Hh2 & He2 & Hs); [done|done|set_solver|by rewrite Hh1|].
    destruct (finish_run e l s2) as (s3 & -> & Hk & He3).
    exists l, s3. unfold hp. rewrite Hk, He3, He2, He1. split_and!; [done|done|done|right]. by split.
Qed.

(** From the start of the call to [flush]. *)
Lemma rtioctl_serves fib data plen maxlen s : sa_dst fr <> 0 -> 0 <= plen < 2 ^ 31 ->
  exists x s1, lazybsd_rtioctl fr fib data plen maxlen s = flush fr x data plen s1 /\
    left x ## hp s /\ hp s1 = left x ∪ hp s /\ lazybsd_errno s1 = lazybsd_errno s /\
    (e_rtm x = 0 -> e_error x = LAZYBSD_ENOBUFS \/ e_error x = LAZYBSD_EPROTONOSUPPORT).
Proof.
  intros Hs Hp. assert (i32 plen = plen) as Hl by (unfold swrap; rewrite Z.mod_small; lia).
  unfold lazybsd_rtioctl. rewrite Hl. set (al := roundup2 plen 1024).
  destruct (hands_malloc al ∅ s (hp s)) as (rtm & s1 & E1 & Hd1 & Hh1 & He1 & Hm); [set_solver|set_solver|].
  rewrite run_bind, E1. cbn beta. destruct (Z.eqb_spec rtm 0) as [->|Hr].
  - eexists _, s1. split; [done|]. unfold left. cbn [e_rtm e_error Z.eqb]. split_and!; [set_solver|done|done|auto].
  - destruct (keeps_copy data rtm (u64 plen)) with (s := s1) as (u & s2 & E2 & Hh2 & He2 & _).
    { unfold uwrap, LONG_MAX. rewrite Z.mod_small; lia. }
    rewrite run_bind, E2, run_bind.
    destruct (hands_serve fib rtm al plen maxlen Hs Hr s2 (hp s)) as (x & s3 & E3 & Hd3 & Hh3 & He3 & Hx);
      [set_solver|rewrite Hh2, Hh1; set_solver|]. rewrite E3.
    exists x, s3. rewrite He3, He2, He1. split_and!; auto.
Qed.

Lemma rtioctl_total fib data plen maxlen s : sa_dst fr <> 0 -> 0 <= plen < 2 ^ 31 ->
  exists a s', lazybsd_rtioctl fr fib data plen maxlen s = Ok (a, s').
Proof.
  intros Hs Hp. destruct doc_rtm_errno. destruct (rtioctl_serves fib data plen maxlen s) as (x & s1 & -> & Hd & Hh & _); [done..|].
  destruct (flush_run x data plen (hp s) s1) as (plen' & s' & -> & _); [lia|lia|done|done|]. eauto.
Qed.

End Facts.

(** ** Examples

    A kernel whose state is the list of its blocks, with one route to 10.0.0.0/8 through the
    gateway at 800. *)
#[export] Instance example_rtsock_headers : RtsockHeaders := {
  RTAX_GENMASK := 3; RTAX_IFP := 4; RTAX_IFA := 5; RTAX_BRD := 7;
  RTA_IFP := 16; RTA_IFA := 32;
  RTM_ADD := 1; RTM_DELETE := 2; RTM_CHANGE := 3; RTM_GET := 4;
  RTF_GATEWAY := 2; RTF_DONE := 64; RTF_REJECT := 8; RTF_BLACKHOLE := 4096; RTF_ANNOUNCE := 16384;
  RTF_RNH_LOCKED := 1073741824; RTF_GWFLAG_COMPAT := 2147483648;
  IFF_LOOPBACK := 8; IFF_POINTOPOINT := 16; IFT_PROPVIRTUAL := 53;
  PRIV_NET_ROUTE := 391; NHR_REF := 1; RT_ALL_FIBS := -1;
  in6addr_loopback := 2 ^ 120;
  rtm_index := 4; rtm_flags := 8; rtm_addrs := 12; rtm_pid := 16; rtm_errno := 24; rtm_inits := 32; rtm_rmx := 40;
  rmx_mtu := 8; rmx_expire := 24; rmx_weight := 80; rmx_nhidx := 88; sizeof_rt_metrics := 112;
  sizeof_sockaddr_storage := 128 }.

#[export] Instance example_rtsock_doc : RtsockDoc.
Proof. by split. Qed.

Definition example_block (l : list Z) : Z := 100000 * (1 + foldr Z.max 0 l).
Definition example_heap (l : list Z) : gset Z := list_to_set l.

#[local] Instance example_alloc : Kernel (list Z) := fun R k k0 =>
  match k in kcall R return Z * R * kstate (list Z) with
  | malloc _ => let p := example_block (stack k0) in (0, p, Kstate (mem k0) (p :: stack k0) (td_retval k0))
  | free p => (0, (), Kstate (mem k0) (base.filter (fun q => q <> p) (stack k0)) (td_retval k0))
  | kern_accept _ _ => (0, (0, 0), k0)
  | kern_getpeername _ _ | kern_getsockname _ _ => (0, 0, k0)
  | sendit _ mp _ | kern_recvit _ mp _ => (0, mp, k0)
  | userland_sysctl _ _ _ _ _ _ _ => (0, 0, k0)
  | kern_bindat _ _ _ | sys_socket _ _ _ | kern_getsockopt _ _ _ _ _ _ | kern_setsockopt _ _ _ _ _ _
  | kern_ioctl _ _ _ | kern_close _ | kern_readv _ _ | kern_writev _ _ | kern_fcntl _ _ _
  | fdrop _ | sys_listen _ _ | kern_connectat _ _ _ | sys_shutdown _ _
  | kern_select _ _ _ _ _ _ | kern_poll _ _ _ | sys_dup _ | sys_dup2 _ _
  | rib_action _ _ _ => (0, (), k0)
  end.

#[local] Instance example_rib : RibKernel (list Z) := {|
  rib := fun R c k =>
    match c in ribcall R return Z * R * kstate (list Z) with
    | priv_check _ | prison_if _ | prison_check_ip4 _ | prison_check_ip6 _ | rib_free_info | rt_maskedcopy _ _ _ => (0, (), k)
    | prison_get_ip4 a | prison_get_ip6 a => (0, a, k)
    | jailed_without_vnet | rt_is_host _ => (0, false, k)
    | rib_lookup_info _ _ _ _ _ => (LAZYBSD_ESRCH, 1, k)
    | rt_tables_get_rnh _ _ | rnh_matchaddr _ _ | rnh_lookup _ _ _ | ifa_ifwithnet _ _ _ => (0, 1, k)
    | rt_get_inet_prefix_pmask _ => (0, (10, 255, 0), k)
    | rt_get_inet6_prefix_pmask _ => (0, (0, 0, 0), k)
    | lla_rt_output _ info => (0, info, k)
    | rtable_action _ a info => (0, (info, RibCmdInfo 1 1 1 1), k)
    end;
  kfield_of f _ _ := match f with NH_IS_NHGRP => 0 | _ => 1 end;
  if_addrhead _ _ := [1]; gw_sa _ := 800; V_loif _ := 1; curproc_pid := 7;
  time_uptime _ := 0; time_second _ := 0 |}.

Lemma example_block_fresh l : example_block l ∉ example_heap l.
Proof.
  unfold example_heap. rewrite elem_of_list_to_set. unfold example_block. intros Hin.
  assert (forall a, a ∈ l -> a <= foldr Z.max 0 l) as Hle.
  { clear. induction l as [|b l IH]; intros a Ha; [by apply elem_of_nil in Ha|]. cbn [foldr].
    apply elem_of_cons in Ha as [->|Ha]; [lia|]. specialize (IH a Ha). lia. }
  assert (0 <= foldr Z.max 0 l) by (clear; induction l; cbn [foldr]; lia).
  specialize (Hle _ Hin). lia.
Qed.

#[local] Instance example_rib_doc : RibDoc (list Z) example_heap.
Proof.
  split.
  - intros n k. right. cbn [kernel example_alloc stack]. split_and!; [|apply example_block_fresh|done].
    unfold example_block. assert (0 <= foldr Z.max 0 (stack k)) by (generalize (stack k); clear; induction l; cbn [foldr]; lia). lia.
  - intros p k Hp. cbn [kernel example_alloc stack mem]. split; [|done]. unfold example_heap. apply set_eq. intros q.
    rewrite elem_of_difference, !elem_of_list_to_set, list_elem_of_filter. set_solver.
  - intros R c k. by destruct c.
  - intros f p k Hf _. cbn. by destruct f; try done; set_solver.
  - intros ifp k a. cbn. set_solver.
  - by intros.
  - intros fib a info k. cbn. split; [done|]. by destruct (a =? _).
Qed.

Definition example_frame : frame := Frame 5000 5100 5200 5400 5500 5600 5700 5800 5900.

(** A request of [type] for 10.0.0.1, 168 bytes at 1000; it says that it has [len]. *)
Definition example_rtm (len type : Z) : memory :=
  bytes_at 1000 ([len mod 256; len / 256; 5; type; 0; 0; 0; 0; 0; 0; 0; 0; 1; 0; 0; 0] ++ replicate 136 0
    ++ [16; 2; 0; 0; 10; 0; 0; 1] ++ replicate 8 0) ∪ bytes_at 800 ([16; 2; 0; 0; 192; 168; 0; 1] ++ replicate 8 0).
Definition example_request_state (len type : Z) : sys (list Z) := Sys (Kstate (example_rtm len type) [] 0) 0 (0, 0).
Definition example_rtioctl (len type : Z) := lazybsd_rtioctl example_frame 0 1000 168 1024 (example_request_state len type).


(** The route that is found: destination, gateway and mask follow the header. *)
Example rtioctl_get :
  match example_rtioctl 168 4 with
  | Ok ((r, plen), s') =>
      (r, plen, load 4 (mem (ks s')) (1000 + 12), load 4 (mem (ks s')) (1000 + 152 + 4),
       load 4 (mem (ks s')) (1000 + 168 + 4), load 4 (mem (ks s')) (1000 + 184 + 4), stack (ks s')) =
      (0, 200, 7, 10, 192 + 256 * 168 + 2 ^ 24, 255, [])
  | _ => False
  end.
Proof. by vm_compute. Qed.

(** A message that says it is longer than it is: it is refused, but 2000 bytes go back into
    the 168 of the user. *)
Example rtioctl_long :
  let s := example_request_state 2000 4 in
  let s := Sys (Kstate (<[2500 := 9]> (mem (ks s))) [] 0) 0 (0, 0) in
  match lazybsd_rtioctl example_frame 0 1000 168 1024 s with
  | Ok ((r, plen), s') =>
      (r, plen, lazybsd_errno s', rd (mem (ks s)) 2500, rd (mem (ks s')) 2500) = (-1, 2000, Host.EINVAL, 9, 0)
  | _ => False
  end.
Proof. by vm_compute. Qed.

(** An unknown version: nothing goes back. *)
Example rtioctl_version :
  let s := example_request_state 168 4 in
  let s := Sys (Kstate (<[1002 := 4]> (mem (ks s))) [] 0) 0 (0, 0) in
  match lazybsd_rtioctl example_frame 0 1000 168 1024 s with
  | Ok ((r, plen), s') => (r, plen, lazybsd_errno s', stack (ks s')) = (-1, 168, Host.EPROTONOSUPPORT, [])
  | _ => False
  end.
Proof. by vm_compute. Qed.
