(* ===== verification/Mbuf.v ===== *)
(** * Mbuf: packets between the NIC and the stack
    ([bsd/lib/lazybsd_veth.c], [src/lazybsd_dpdk.cc], [src/lazybsd_memory.cc])

    The stack keeps a packet in a chain of [mbuf]s, the driver of the NIC (DPDK) in a
    chain of [rte_mbuf]s.  Here are the operations on [mbuf]s that the C part gives to
    the driver, the way of a received packet into the stack ([lazybsd_veth_input]) and
    the interface with which a program writes a packet in place
    ([lazybsd_zc_mbuf_get], [lazybsd_zc_mbuf_write]).

    Pointers are numbers, NULL is 0; the heap maps the pointers of [mbuf]s and of
    [rte_mbuf]s to their fields, [bytes] is the memory they point into.  What the stack
    and DPDK do to packets is the class [MbufKernel]; calls of theirs with an effect
    outside of the heap are recorded in [calls]. *)
From S2P Require Import Prelude Errno KernSubr SockConv.

(** ** Data *)

(** The values of the function pointer [ext_free]. *)
Inductive ext_free_fn := LAZYBSD_MBUF_EXT_FREE | OTHER_EXT_FREE.

#[export] Instance ext_free_fn_eq_dec : EqDecision ext_free_fn.
Proof. solve_decision. Defined.

Record pkthdr := Pkthdr {
  rcvif : Z; len : Z; csum_flags : Z; csum_data : Z; tso_segsz : Z; ether_vtag : Z }.

Record mbuf := Mbuf {
  m_next : Z; m_nextpkt : Z; m_data : Z; m_len : Z; m_flags : Z;
  m_pkthdr : pkthdr;
  ext_type : Z; ext_free : ext_free_fn; ext_arg1 : Z }.

Definition set_m_next (v : Z) (m : mbuf) : mbuf :=
  Mbuf v (m_nextpkt m) (m_data m) (m_len m) (m_flags m) (m_pkthdr m) (ext_type m) (ext_free m) (ext_arg1 m).
Definition set_m_nextpkt (v : Z) (m : mbuf) : mbuf :=
  Mbuf (m_next m) v (m_data m) (m_len m) (m_flags m) (m_pkthdr m) (ext_type m) (ext_free m) (ext_arg1 m).
Definition set_m_len (v : Z) (m : mbuf) : mbuf :=
  Mbuf (m_next m) (m_nextpkt m) (m_data m) v (m_flags m) (m_pkthdr m) (ext_type m) (ext_free m) (ext_arg1 m).
Definition set_m_flags (v : Z) (m : mbuf) : mbuf :=
  Mbuf (m_next m) (m_nextpkt m) (m_data m) (m_len m) v (m_pkthdr m) (ext_type m) (ext_free m) (ext_arg1 m).
Definition set_m_pkthdr (v : pkthdr) (m : mbuf) : mbuf :=
  Mbuf (m_next m) (m_nextpkt m) (m_data m) (m_len m) (m_flags m) v (ext_type m) (ext_free m) (ext_arg1 m).
Definition set_len (v : Z) (h : pkthdr) : pkthdr :=
  Pkthdr (rcvif h) v (csum_flags h) (csum_data h) (tso_segsz h) (ether_vtag h).
Definition set_csum (f d : Z) (h : pkthdr) : pkthdr :=
  Pkthdr (rcvif h) (len h) f d (tso_segsz h) (ether_vtag h).
Definition set_vtag (v : Z) (h : pkthdr) : pkthdr :=
  Pkthdr (rcvif h) (len h) (csum_flags h) (csum_data h) (tso_segsz h) v.
Definition set_rcvif (v : Z) (h : pkthdr) : pkthdr :=
  Pkthdr v (len h) (csum_flags h) (csum_data h) (tso_segsz h) (ether_vtag h).

(** The fields of [struct rte_mbuf] that are used here; [buf] is what
    [rte_pktmbuf_mtod] gives. *)
Record rte_mbuf := RteMbuf {
  next : Z; buf : Z; data_len : Z; pkt_len : Z; nb_segs : Z;
  ol_flags : Z; vlan_tci : Z; buf_iova : Z;
  l2_len : Z; l3_len : Z; l4_len : Z; rte_tso_segsz : Z }.

(** The calls of DPDK and of the stack. *)
Inductive call :=
| rte_pktmbuf_free (p : Z)          (** all segments of the packet [p] *)
| rte_pktmbuf_free_seg (p : Z)      (** one segment *)
| if_input (ifp m : Z)              (** the stack receives [m] *)
| lazybsd_dump_packets (p : Z).     (** the packet [p] into the dump file *)

#[export] Instance call_eq_dec : EqDecision call.
Proof. solve_decision. Defined.

Record net := Net {
  mbufs : gmap Z mbuf; rte : gmap Z rte_mbuf; bytes : memory; calls : list call }.

Definition set_mbufs (v : gmap Z mbuf) (s : net) : net := Net v (rte s) (bytes s) (calls s).
Definition set_rte (v : gmap Z rte_mbuf) (s : net) : net := Net (mbufs s) v (bytes s) (calls s).
Definition set_bytes (v : memory) (s : net) : net := Net (mbufs s) (rte s) v (calls s).
Definition do_call (c : call) (s : net) : net := Net (mbufs s) (rte s) (bytes s) (calls s ++ [c]).

(** [*p] and an assignment to a field of [*p]; a pointer to no [mbuf] faults. *)
Definition deref (s : net) (p : Z) : outcome mbuf :=
  match mbufs s !! p with Some m => Ok m | None => Panic end.
Definition assign (p : Z) (f : mbuf -> mbuf) (s : net) : outcome net :=
  m ← deref s p; Ok (set_mbufs (<[p := f m]> (mbufs s)) s).
Definition deref_rte (s : net) (p : Z) : outcome rte_mbuf :=
  match rte s !! p with Some m => Ok m | None => Panic end.

(** ** The stack and DPDK *)
Class MbufKernel := {
  M_EXT : Z;
  M_VLANTAG : Z;
  EXT_DISPOSABLE : Z;
  CSUM_IP : Z;
  CSUM_TCP : Z;
  CSUM_UDP : Z;
  CSUM_SCTP : Z;
  CSUM_TSO : Z;
  CSUM_IP_CHECKED : Z;
  CSUM_IP_VALID : Z;
  CSUM_DATA_VALID : Z;
  CSUM_PSEUDO_HDR : Z;
  RX_CKSUM_BAD : Z;         (** [RTE_MBUF_F_RX_IP_CKSUM_BAD | RTE_MBUF_F_RX_L4_CKSUM_BAD] *)
  RTE_MBUF_F_RX_VLAN_STRIPPED : Z;
  M_TRAILINGSPACE : mbuf -> Z;
  m_gethdr : net -> Z * net;                 (** NULL if there is no memory *)
  m_get : net -> Z * net;
  m_getm2 : Z -> net -> Z * net;             (** of the length to hold *)
  m_pkthdr_init : Z -> net -> Z * net;
  m_extadd : Z -> ext_free_fn -> Z -> Z -> mbuf -> mbuf;  (** the buffer, [ext_free], [ext_arg1], the type *)
  m_copydata : Z -> Z -> Z -> Z -> net -> net;            (** the [mbuf], offset, length, target *)
  m_freem : (Z -> net -> outcome net) -> Z -> net -> outcome net;  (** given what [ext_free] does *)
  rte_pktmbuf_alloc : net -> Z * net }.

Section Mbuf.
Context `{MbufKernel}.

(** ** The operations of [lazybsd_veth.c] *)

Definition lazybsd_mbuf_copydata (mb data off l : Z) (s : net) : outcome (Z * net) :=
  m ← deref s mb;
  if len (m_pkthdr m) <? i32 (off + l) then Ok (-1, s)
  else Ok (0, m_copydata mb off l data s).

(** [struct lazybsd_tx_offload] *)
Record lazybsd_tx_offload := TxOffload {
  ip_csum : Z; tcp_csum : Z; udp_csum : Z; sctp_csum : Z; tso_seg_size : Z }.

Definition lazybsd_mbuf_tx_offload (mb : Z) (o : lazybsd_tx_offload) (s : net)
    : outcome lazybsd_tx_offload :=
  m ← deref s mb;
  let has f := negb (Z.land (csum_flags (m_pkthdr m)) f =? 0) in
  Ok (TxOffload
    (if has CSUM_IP then 1 else ip_csum o)
    (if has CSUM_TCP then 1 else tcp_csum o)
    (if has CSUM_UDP then 1 else udp_csum o)
    (if has CSUM_SCTP then 1 else sctp_csum o)
    (if has CSUM_TSO then tso_segsz (m_pkthdr m) else tso_seg_size o)).

Definition lazybsd_rte_frm_extcl (mb : Z) (s : net) : outcome Z :=
  m ← deref s mb;
  Ok (if negb (Z.land (m_flags m) M_EXT =? 0) && (ext_type m =? EXT_DISPOSABLE)
         && bool_decide (ext_free m = LAZYBSD_MBUF_EXT_FREE)
      then ext_arg1 m else 0).

Definition lazybsd_dpdk_pktmbuf_free (m : Z) (s : net) : net := do_call (rte_pktmbuf_free_seg m) s.

Definition lazybsd_mbuf_ext_free (mb : Z) (s : net) : outcome net :=
  p ← lazybsd_rte_frm_extcl mb s;
  Ok (lazybsd_dpdk_pktmbuf_free p s).

Definition lazybsd_mbuf_free (m : Z) (s : net) : outcome net := m_freem lazybsd_mbuf_ext_free m s.

(** The packet header of a received packet. *)
Definition lazybsd_mbuf_gethdr (pkt total data l rx_csum : Z) (s : net) : outcome (Z * net) :=
  let '(m, s) := m_gethdr s in
  if m =? 0 then Ok (0, s) else
  let '(err, s) := m_pkthdr_init m s in
  if negb (err =? 0) then Ok (0, s) else
  s ← assign m (m_extadd data LAZYBSD_MBUF_EXT_FREE pkt EXT_DISPOSABLE) s;
  s ← assign m (fun x => set_m_pkthdr (set_len total (m_pkthdr x)) x) s;
  s ← assign m (set_m_len l) s;
  s ← assign m (set_m_next 0) s;
  s ← assign m (set_m_nextpkt 0) s;
  s ← (if negb (rx_csum =? 0) then
         assign m (fun x => set_m_pkthdr (set_csum
           (Z.lor CSUM_IP_CHECKED (Z.lor CSUM_IP_VALID (Z.lor CSUM_DATA_VALID CSUM_PSEUDO_HDR)))
           0xffff (m_pkthdr x)) x) s
       else Ok s);
  Ok (m, s).

(** One more segment, put behind [p]. *)
Definition lazybsd_mbuf_get (p m data l : Z) (s : net) : outcome (Z * net) :=
  let '(mb, s) := m_get s in
  if mb =? 0 then Ok (0, s) else
  s ← assign mb (m_extadd data LAZYBSD_MBUF_EXT_FREE m EXT_DISPOSABLE) s;
  s ← assign mb (set_m_next 0) s;
  s ← assign mb (set_m_nextpkt 0) s;
  s ← assign mb (set_m_len l) s;
  s ← (if negb (p =? 0) then assign p (set_m_next mb) s else Ok s);
  Ok (mb, s).

Definition lazybsd_veth_process_packet (ifp m : Z) (s : net) : outcome net :=
  s ← assign m (fun x => set_m_pkthdr (set_rcvif ifp (m_pkthdr x)) x) s;
  Ok (do_call (if_input ifp m) s).

(** The data of the [mbuf], its length, and the next one. *)
Definition lazybsd_next_mbuf (mb : Z) (s : net) : outcome (Z * Z * Z) :=
  m ← deref s mb;
  Ok (m_next m, m_data m, m_len m).

Definition lazybsd_mbuf_mtod (mb : Z) (s : net) : outcome Z :=
  if mb =? 0 then Ok 0 else m ← deref s mb; Ok (m_data m).

Definition lazybsd_mbuf_set_vlan_info (hdr vlan : Z) (s : net) : outcome net :=
  s ← assign hdr (fun x => set_m_pkthdr (set_vtag vlan (m_pkthdr x)) x) s;
  assign hdr (fun x => set_m_flags (Z.lor (m_flags x) M_VLANTAG) x) s.

(** ** A received packet: [lazybsd_veth_input] *)

(** The loop over the segments behind the first; a failure is the packet to free. *)
Fixpoint veth_input_loop (fuel : nat) (pn prev hdr pkt : Z) (s : net) : outcome (bool * net) :=
  if pn =? 0 then Ok (true, s) else
  match fuel with
  | O => Diverge
  | S fuel =>
      seg ← deref_rte s pn;
      '(mb, s) ← lazybsd_mbuf_get prev pn (buf seg) (data_len seg) s;
      if mb =? 0 then
        s ← lazybsd_mbuf_free hdr s;
        Ok (false, do_call (rte_pktmbuf_free pkt) s)
      else
        seg ← deref_rte s pn;
        veth_input_loop fuel (next seg) mb hdr pkt s
  end.

Definition lazybsd_veth_input (fuel : nat) (rx_csum ifp pkt : Z) (s : net) : outcome net :=
  p ← deref_rte s pkt;
  if negb (rx_csum =? 0) && negb (Z.land (ol_flags p) RX_CKSUM_BAD =? 0)
  then Ok (do_call (rte_pktmbuf_free pkt) s)
  else
    '(hdr, s) ← lazybsd_mbuf_gethdr pkt (u16 (pkt_len p)) (buf p) (data_len p) rx_csum s;
    if hdr =? 0 then Ok (do_call (rte_pktmbuf_free pkt) s)
    else
      s ← (if negb (Z.land (ol_flags p) RTE_MBUF_F_RX_VLAN_STRIPPED =? 0)
           then lazybsd_mbuf_set_vlan_info hdr (vlan_tci p) s else Ok s);
      '(done, s) ← veth_input_loop fuel (next p) hdr hdr pkt s;
      if (done : bool) then lazybsd_veth_process_packet ifp hdr s else Ok s.

(** ** Writing a packet in place *)

(** [struct lazybsd_zc_mbuf] *)
Record lazybsd_zc_mbuf := ZcMbuf { bsd_mbuf : Z; bsd_mbuf_off : Z; off : Z; zc_len : Z }.

(** The pointer to the structure is [Some] structure or NULL.  [max] and [min] of the
    kernel are those of [u_int]s. *)
Definition lazybsd_zc_mbuf_get (zm : option lazybsd_zc_mbuf) (l : Z) (s : net)
    : Z * option lazybsd_zc_mbuf * net :=
  match zm with
  | None => (-1, None, s)
  | Some zm =>
      let '(mb, s) := m_getm2 (i32 (Z.max (u32 l) 1)) s in
      if mb =? 0 then (-1, Some zm, s)
      else (0, Some (ZcMbuf mb mb 0 l), s)
  end.

(** The [mbuf] at which the loop stops, and the state. *)
Fixpoint zc_write_loop (fuel : nat) (mb data l progress : Z) (s : net) : outcome (Z * net) :=
  if mb =? 0 then Ok (0, s) else
  match fuel with
  | O => Diverge
  | S fuel =>
      m ← deref s mb;
      let length := i32 (Z.min (u32 (M_TRAILINGSPACE m)) (u32 (i32 (l - progress)))) in
      b ← memcpy (m_data m + m_len m) (data + progress) (u64 length) (bytes s);
      s ← assign mb (set_m_len (i32 (m_len m + length))) (set_bytes b s);
      let progress := i32 (progress + length) in
      if l =? progress then Ok (mb, s)
      else m ← deref s mb; zc_write_loop fuel (m_next m) data l progress s
  end.

Definition lazybsd_zc_mbuf_write (fuel : nat) (zm : option lazybsd_zc_mbuf) (data l : Z) (s : net)
    : outcome (Z * option lazybsd_zc_mbuf * net) :=
  match zm with
  | None => Ok (-1, None, s)
  | Some zm =>
      if zc_len zm <? i32 (off zm + l) then Ok (-1, Some zm, s)
      else
        '(mb, s) ← zc_write_loop fuel (bsd_mbuf_off zm) data l 0 s;
        Ok (l, Some (ZcMbuf (bsd_mbuf zm) mb (i32 (off zm + l)) (zc_len zm)), s)
  end.

Definition lazybsd_zc_mbuf_read (zm : option lazybsd_zc_mbuf) (data l : Z) : Z := 0.

(** A program writes its pieces one after the other: the values, the structure. *)
Fixpoint zc_writes (fuel : nat) (zm : option lazybsd_zc_mbuf) (ws : list (Z * Z)) (s : net)
    : outcome (list Z * option lazybsd_zc_mbuf * net) :=
  match ws with
  | [] => Ok ([], zm, s)
  | w :: ws =>
      '(r, zm, s) ← lazybsd_zc_mbuf_write fuel zm w.1 w.2 s;
      '(rs, zm, s) ← zc_writes fuel zm ws s;
      Ok (r :: rs, zm, s)
  end.
End Mbuf.

(** ** What the stack documents *)

(** A list in the heap: its pointers and what they point to. *)
Fixpoint linked {A} (nxt : A -> Z) (h : gmap Z A) (p : Z) (l : list (Z * A)) : Prop :=
  match l with
  | [] => p = 0
  | x :: l => p = x.1 /\ p <> 0 /\ h !! p = Some x.2 /\ linked nxt h (nxt x.2) l
  end.

(** The [mbuf]s of a chain. *)
Fixpoint chain (h : gmap Z mbuf) (p : Z) (ps : list Z) : Prop :=
  match ps with
  | [] => p = 0
  | q :: ps => p = q /\ p <> 0 /\ exists m, h !! p = Some m /\ chain h (m_next m) ps
  end.

Definition has_ext (ext : Z) (m : mbuf) : bool := negb (Z.land (m_flags m) ext =? 0).

(** Freeing a chain frees its [mbuf]s in order, and calls [ext_free] for an external
    buffer (of which the [mbuf] has the last reference). *)
Fixpoint free_chain (ext : Z) (cb : Z -> net -> outcome net) (ps : list Z) (s : net) : outcome net :=
  match ps with
  | [] => Ok s
  | p :: ps =>
      m ← deref s p;
      s ← (if has_ext ext m then cb p s else Ok s);
      free_chain ext cb ps (set_mbufs (delete p (mbufs s)) s)
  end.

(** The bytes of a region, of an [mbuf] and of a chain. *)
Definition bytes_of (b : memory) (a n : Z) : list Z := (fun i => rd b (a + i)) <$> seqZ 0 n.
Definition data_of (b : memory) (m : mbuf) : list Z := bytes_of b (m_data m) (m_len m).
Definition contents (b : memory) (l : list (Z * mbuf)) : list Z := concat (data_of b <$> l.*2).

(** The buffer of an [mbuf], its data and the space behind; the space of a chain. *)
Definition region `{MbufKernel} (m : mbuf) (b : Z) : Prop :=
  m_data m <= b < m_data m + m_len m + M_TRAILINGSPACE m.
Fixpoint space `{MbufKernel} (l : list (Z * mbuf)) : Z :=
  match l with [] => 0 | x :: l => M_TRAILINGSPACE x.2 + space l end.

(** A chain of different [mbuf]s whose buffers do not overlap. *)
Definition good_chain `{MbufKernel} (l : list (Z * mbuf)) : Prop :=
  NoDup l.*1 /\
  (forall x, x ∈ l -> 0 <= m_len x.2 /\ m_len x.2 + M_TRAILINGSPACE x.2 < 2147483648) /\
  (forall x y b, x ∈ l -> y ∈ l -> x.1 <> y.1 -> region x.2 b -> ~ region y.2 b).

(** An [mbuf] is new: it was not in the heap. *)
Definition is_new (s : net) (p : Z) (s' : net) : Prop :=
  p <> 0 /\ mbufs s !! p = None /\ exists m, s' = set_mbufs (<[p := m]> (mbufs s)) s.

Class MbufKernelDoc `{MbufKernel} : Prop := {
  doc_M_EXT : 0 < M_EXT;
  doc_gethdr : forall s p s', m_gethdr s = (p, s') -> p = 0 /\ s' = s \/ is_new s p s';
  doc_get : forall s p s', m_get s = (p, s') -> p = 0 /\ s' = s \/ is_new s p s';
  doc_pkthdr_init : forall s p m e s', mbufs s !! p = Some m -> m_pkthdr_init p s = (e, s') ->
    exists h, s' = set_mbufs (<[p := set_m_pkthdr h m]> (mbufs s)) s;
  doc_extadd : forall b f a t m, let m' := m_extadd b f a t m in
    m_data m' = b /\ ext_free m' = f /\ ext_arg1 m' = a /\ ext_type m' = t /\
    m_flags m' = Z.lor (m_flags m) M_EXT /\ m_next m' = m_next m /\ m_nextpkt m' = m_nextpkt m /\
    m_len m' = m_len m /\ m_pkthdr m' = m_pkthdr m;
  doc_freem : forall cb p ps s, chain (mbufs s) p ps -> NoDup ps ->
    (forall q m, q ∈ ps -> mbufs s !! q = Some m -> has_ext M_EXT m = true -> ext_free m = LAZYBSD_MBUF_EXT_FREE) ->
    m_freem cb p s = free_chain M_EXT cb ps s;
  doc_getm2 : forall l s, 1 <= l < 2147483648 -> exists p ms s', m_getm2 l s = (p, s') /\
    linked m_next (mbufs s') p ms /\ good_chain ms /\ l <= space ms /\
    (forall x, x ∈ ms -> mbufs s !! x.1 = None /\ m_len x.2 = 0) /\
    rte s' = rte s /\ bytes s' = bytes s /\ calls s' = calls s;
  doc_TRAILINGSPACE : forall m, 0 <= M_TRAILINGSPACE m < 2147483648;
  doc_TRAILINGSPACE_len : forall m n, 0 <= n <= M_TRAILINGSPACE m ->
    M_TRAILINGSPACE (set_m_len (m_len m + n) m) = M_TRAILINGSPACE m - n }.

Section MbufFacts.
Context `{MbufKernelDoc}.

Lemma assign_Ok s p m f :
  mbufs s !! p = Some m -> assign p f s = Ok (set_mbufs (<[p := f m]> (mbufs s)) s).
Proof. intros Hp. unfold assign, deref. by rewrite Hp. Qed.

Lemma lor_land_nonzero a b c : Z.land a b <> 0 -> Z.land (Z.lor a c) b <> 0.
Proof. intros Hn. rewrite Z.land_lor_distr_l. by intros [E _]%Z.lor_eq_0_iff. Qed.

(** ** The received packet *)

(** The [mbuf] of a segment: its data, and the segment to free with it. *)
Definition rx_mbuf (sg : Z * rte_mbuf) (m : mbuf) : Prop :=
  m_data m = buf sg.2 /\ m_len m = data_len sg.2 /\ Z.land (m_flags m) M_EXT <> 0 /\
  ext_type m = EXT_DISPOSABLE /\ ext_free m = LAZYBSD_MBUF_EXT_FREE /\ ext_arg1 m = sg.1.

(** A chain of [mbuf]s for a list of segments. *)
Fixpoint rx_chain (h : gmap Z mbuf) (p : Z) (ps : list Z) (segs : list (Z * rte_mbuf)) : Prop :=
  match ps, segs with
  | [], [] => p = 0
  | q :: ps, sg :: segs =>
      p = q /\ p <> 0 /\ exists m, h !! p = Some m /\ rx_mbuf sg m /\ rx_chain h (m_next m) ps segs
  | _, _ => False
  end.

(** The segments of a packet, from [p] on. *)
Definition rte_chain : gmap Z rte_mbuf -> Z -> list (Z * rte_mbuf) -> Prop := linked next.

Lemma rx_chain_chain h p ps segs : rx_chain h p ps segs -> chain h p ps.
Proof.
  revert p segs. induction ps as [|q ps IH]; intros p [|sg segs]; cbn; try done.
  intros (-> & Hn & m & Hm & _ & Hc). split_and!; [done|done|]. exists m. split; [done|]. by eapply IH.
Qed.

Lemma rx_chain_in h p ps segs q : rx_chain h p ps segs -> q ∈ ps ->
  exists m sg, h !! q = Some m /\ rx_mbuf sg m.
Proof.
  revert p segs. induction ps as [|q' ps IH]; intros p [|sg segs]; cbn; try done; [set_solver|].
  intros (-> & Hn & m & Hm & Hr & Hc) [->|Hq]%elem_of_cons; [by exists m, sg|]. by eapply IH.
Qed.

(** A chain depends on its own [mbuf]s only. *)
Lemma rx_chain_ext h h' p ps segs :
  (forall q, q ∈ ps -> h' !! q = h !! q) -> rx_chain h p ps segs -> rx_chain h' p ps segs.
Proof.
  revert p segs. induction ps as [|q ps IH]; intros p [|sg segs] Hq; cbn; try done.
  intros (-> & Hn & m & Hm & Hr & Hc). split_and!; [done|done|]. exists m.
  rewrite Hq by set_solver. split_and!; [done|done|]. apply IH; [|done]. intros. apply Hq. set_solver.
Qed.

(** A new [mbuf] behind the last one. *)
Lemma rx_chain_snoc h p ps prev segs sg mb new mp :
  rx_chain h p (ps ++ [prev]) segs -> NoDup (ps ++ [prev]) ->
  mb ∉ ps ++ [prev] -> mb <> 0 -> h !! prev = Some mp -> rx_mbuf sg new -> m_next new = 0 ->
  rx_chain (<[prev := set_m_next mb mp]> (<[mb := new]> h)) p (ps ++ [prev; mb]) (segs ++ [sg]).
Proof.
  intros Hc Hnd Hmb Hn0 Hp Hnew Hnext. revert p segs Hc Hnd Hmb.
  induction ps as [|q ps IH]; intros p segs Hc Hnd Hmb.
  - destruct segs as [|sg0 [|]]; cbn in Hc |- *; try done; [|by destruct Hc as (_ & _ & ? & _ & _ & ?)].
    destruct Hc as (-> & Hn & m & Hm & Hr & Hc). split_and!; [done|done|].
    rewrite Hp in Hm. injection Hm as <-. exists (set_m_next mb mp). rewrite lookup_insert_eq.
    split_and!; [done|done|done|done|]. exists new.
    rewrite lookup_insert_ne, lookup_insert_eq by set_solver. done.
  - destruct segs as [|sg0 segs]; cbn in Hc |- *; [done|].
    destruct Hc as (-> & Hn & m & Hm & Hr & Hc). split_and!; [done|done|]. exists m.
    apply NoDup_cons in Hnd as [Hq Hnd].
    rewrite !lookup_insert_ne by set_solver. split_and!; [done|done|]. apply IH; set_solver.
Qed.

(** What freeing the chain gives back. *)
Lemma free_rx_chain ps segs p s :
  rx_chain (mbufs s) p ps segs -> NoDup ps ->
  exists s', free_chain M_EXT lazybsd_mbuf_ext_free ps s = Ok s' /\
    calls s' = calls s ++ ((fun sg => rte_pktmbuf_free_seg sg.1) <$> segs) /\ rte s' = rte s.
Proof.
  revert p segs s. induction ps as [|q ps IH]; intros p [|sg segs] s; cbn [rx_chain]; try done.
  { intros _ _. exists s. cbn. by rewrite app_nil_r. }
  intros (-> & Hn & m & Hm & Hr & Hc) [Hq Hnd]%NoDup_cons. cbn [free_chain].
  unfold deref. rewrite Hm. cbn [mbind outcome_bind].
  destruct Hr as (R1 & R2 & R3 & R4 & R5 & R6). unfold has_ext.
  rewrite (proj2 (Z.eqb_neq _ 0) R3). cbn [negb].
  unfold lazybsd_mbuf_ext_free, lazybsd_rte_frm_extcl, deref. rewrite Hm. cbn [mbind outcome_bind].
  rewrite (proj2 (Z.eqb_neq _ 0) R3), R4, Z.eqb_refl, R5, bool_decide_eq_true_2, R6 by done. cbn [negb andb].
  cbn [mbind outcome_bind].
  edestruct (IH (m_next m) segs (set_mbufs (delete q (mbufs (lazybsd_dpdk_pktmbuf_free sg.1 s)))
    (lazybsd_dpdk_pktmbuf_free sg.1 s))) as (s' & E & F1 & F2); [|done|].
  - eapply rx_chain_ext; [|exact Hc]. intros q' Hq'. cbn. rewrite lookup_delete_ne; [done|]. by intros ->.
  - exists s'. split; [exact E|]. rewrite F1, F2. cbn. by rewrite <- app_assoc.
Qed.

Lemma rx_extadd m pkt data sg : sg.1 = pkt -> buf sg.2 = data ->
  forall m', m' = m_extadd data LAZYBSD_MBUF_EXT_FREE pkt EXT_DISPOSABLE m ->
  rx_mbuf sg (set_m_len (data_len sg.2) m').
Proof.
  intros <- <- m' ->. destruct (doc_extadd (buf sg.2) LAZYBSD_MBUF_EXT_FREE sg.1 EXT_DISPOSABLE m)
    as (E1 & E2 & E3 & E4 & E5 & _).
  unfold rx_mbuf. cbn. rewrite E1, E2, E3, E4, E5. split_and!; try done.
  rewrite Z.land_lor_distr_l, Z.land_diag. intros [_ E]%Z.lor_eq_0_iff.
  pose proof doc_M_EXT. lia.
Qed.

Lemma mbuf_gethdr_spec seg pkt total rx_csum s :
  exists p s', lazybsd_mbuf_gethdr pkt total (buf seg) (data_len seg) rx_csum s = Ok (p, s') /\
    rte s' = rte s /\ calls s' = calls s /\
    (p = 0 \/ p <> 0 /\ mbufs s !! p = None /\ exists m, mbufs s' = <[p := m]> (mbufs s) /\
       rx_mbuf (pkt, seg) m /\ m_next m = 0 /\ len (m_pkthdr m) = total).
Proof.
  unfold lazybsd_mbuf_gethdr. destruct (m_gethdr s) as [p s1] eqn:Eg.
  destruct (doc_gethdr _ _ _ Eg) as [[-> ->]|(Hn & Hfresh & m0 & ->)].
  { cbn. exists 0, s. auto. }
  rewrite (proj2 (Z.eqb_neq p 0) Hn).
  destruct (m_pkthdr_init p _) as [e s2] eqn:Ei.
  apply (doc_pkthdr_init _ _ m0) in Ei as [h ->]; [|cbn; by rewrite lookup_insert_eq].
  cbn [mbufs set_mbufs rte bytes calls]. rewrite insert_insert_eq.
  destruct (e =? 0); cbn [negb].
  2: { eexists 0, _. split; [done|]. cbn. auto. }
  repeat (erewrite assign_Ok; [|cbn [mbufs set_mbufs]; by rewrite lookup_insert_eq];
    cbn [mbind outcome_bind mbufs set_mbufs rte bytes calls]; rewrite insert_insert_eq).
  set (m1 := m_extadd _ _ _ _ _).
  pose proof (rx_extadd (set_m_pkthdr h m0) pkt (buf seg) (pkt, seg) eq_refl eq_refl m1 eq_refl) as Hrx.
  destruct (negb (rx_csum =? 0)); cbn [mbind outcome_bind];
    (eexists p, _; split_and!; [done|done|done|right; split_and!; [done|done|]];
     eexists; split_and!; [done|exact Hrx|done|done]).
Qed.

Lemma mbuf_get_spec seg p pn s mp :
  p <> 0 -> mbufs s !! p = Some mp ->
  exists mb s', lazybsd_mbuf_get p pn (buf seg) (data_len seg) s = Ok (mb, s') /\
    rte s' = rte s /\ calls s' = calls s /\
    (mb = 0 /\ mbufs s' = mbufs s \/
     mb <> 0 /\ mbufs s !! mb = None /\ exists new, rx_mbuf (pn, seg) new /\ m_next new = 0 /\
       mbufs s' = <[p := set_m_next mb mp]> (<[mb := new]> (mbufs s))).
Proof.
  intros Hp Hmp. unfold lazybsd_mbuf_get. destruct (m_get s) as [mb s1] eqn:Eg.
  destruct (doc_get _ _ _ Eg) as [[-> ->]|(Hn & Hfresh & m0 & ->)].
  { cbn. exists 0, s. split_and!; [done..|]. by left. }
  rewrite (proj2 (Z.eqb_neq mb 0) Hn).
  repeat (erewrite assign_Ok; [|cbn [mbufs set_mbufs]; by rewrite lookup_insert_eq];
    cbn [mbind outcome_bind mbufs set_mbufs rte bytes calls]; rewrite insert_insert_eq).
  rewrite (proj2 (Z.eqb_neq p 0) Hp). cbn [negb].
  assert (p <> mb) as Hne by congruence.
  erewrite assign_Ok by (cbn [mbufs set_mbufs]; rewrite lookup_insert_ne by congruence; exact Hmp).
  cbn [mbind outcome_bind mbufs set_mbufs rte bytes calls].
  set (m1 := m_extadd _ _ _ _ _).
  pose proof (rx_extadd m0 pn (buf seg) (pn, seg) eq_refl eq_refl m1 eq_refl) as Hrx.
  eexists mb, _. split_and!; [done|done|done|]. right. split_and!; [done|done|].
  eexists. split_and!. 3: reflexivity. - exact Hrx. - done.
Qed.

Lemma rx_chain_notin h p ps segs mb : rx_chain h p ps segs -> h !! mb = None -> mb ∉ ps.
Proof. intros Hc Hn Hin. destruct (rx_chain_in _ _ _ _ _ Hc Hin) as (m & sg & E & _). congruence. Qed.

Lemma rx_chain_in_ne h p ps segs q : rx_chain h p ps segs -> q ∈ ps -> q <> 0.
Proof.
  revert p segs. induction ps as [|q' ps IH]; intros p [|sg segs]; cbn; try done; [set_solver|].
  intros (-> & Hn & m & Hm & Hr & Hc) [->|Hq]%elem_of_cons; [done|]. by eapply IH.
Qed.

(** The driver frees what the stack has taken of the packet, then the packet. *)
Definition freed_twice (pkt : Z) (segs : list (Z * rte_mbuf)) : list call :=
  ((fun sg => rte_pktmbuf_free_seg sg.1) <$> segs) ++ [rte_pktmbuf_free pkt].

Lemma mbuf_free_rx s p ps segs : rx_chain (mbufs s) p ps segs -> NoDup ps ->
  exists s', lazybsd_mbuf_free p s = Ok s' /\
    calls s' = calls s ++ ((fun sg => rte_pktmbuf_free_seg sg.1) <$> segs).
Proof.
  intros Hc Hnd. destruct (free_rx_chain _ _ _ _ Hc Hnd) as (s' & E & F & _). exists s'.
  split; [|done]. unfold lazybsd_mbuf_free. rewrite (doc_freem _ _ ps); [done|by eapply rx_chain_chain|done|].
  intros q m Hq Hm _. destruct (rx_chain_in _ _ _ _ _ Hc Hq) as (m' & sg & E' & Hr).
  rewrite Hm in E'. injection E' as <-. apply Hr.
Qed.

Lemma veth_input_loop_spec fuel segs pn prev ps hdr pkt taken s :
  rte_chain (rte s) pn segs -> (length segs <= fuel)%nat ->
  rx_chain (mbufs s) hdr (ps ++ [prev]) taken -> NoDup (ps ++ [prev]) ->
  exists b s', veth_input_loop fuel pn prev hdr pkt s = Ok (b, s') /\
    if b : bool then
      calls s' = calls s /\ (exists ps', rx_chain (mbufs s') hdr (ps ++ prev :: ps') (taken ++ segs) /\
        NoDup (ps ++ prev :: ps')) /\
      forall q m, mbufs s !! q = Some m -> exists m', mbufs s' !! q = Some m' /\ m_pkthdr m' = m_pkthdr m
    else exists k, (k < length segs)%nat /\ calls s' = calls s ++ freed_twice pkt (taken ++ take k segs).
Proof.
  revert segs pn prev ps taken s. induction fuel as [|fuel IH];
    intros segs pn prev ps taken s Hr Hf Hc Hnd.
  all: destruct segs as [|[q seg] segs]; cbn [rte_chain linked fst snd length] in *.
  1,3: subst pn; exists true, s; cbn; split; [done|]; split; [done|]; split; [exists []; by rewrite app_nil_r|eauto].
  { lia. }
  destruct Hr as (-> & Hn & Hseg & Hr).
  assert (prev ∈ ps ++ [prev]) as Hin by set_solver.
  destruct (rx_chain_in _ _ _ _ _ Hc Hin) as (mp & sgp & Hmp & _).
  destruct (mbuf_get_spec seg prev q s mp) as (mb & s1 & E & F1 & F2 & F3);
    [by eapply rx_chain_in_ne|done|].
  cbn [veth_input_loop]. rewrite (proj2 (Z.eqb_neq q 0) Hn). unfold deref_rte. rewrite Hseg.
  cbn [mbind outcome_bind]. rewrite E. cbn [mbind outcome_bind].
  destruct F3 as [[-> Em]|(Hmb & Hfresh & new & Hnew & Hnn & Em)].
  - cbn. rewrite <- Em in Hc. destruct (mbuf_free_rx _ _ _ _ Hc Hnd) as (s2 & E2 & G2).
    rewrite E2. cbn [mbind outcome_bind]. eexists false, _. split; [done|].
    exists 0%nat. split; [lia|]. cbn. rewrite G2, F2, app_nil_r. unfold freed_twice. by rewrite app_assoc.
  - rewrite (proj2 (Z.eqb_neq mb 0) Hmb), F1, Hseg. cbn [mbind outcome_bind].
    pose proof (rx_chain_notin _ _ _ _ _ Hc Hfresh) as Hni.
    pose proof (rx_chain_snoc _ _ _ _ _ (q, seg) mb new mp Hc Hnd Hni Hmb Hmp Hnew Hnn) as Hc'.
    rewrite <- Em in Hc'.
    destruct (IH segs (next seg) mb (ps ++ [prev]) (taken ++ [(q, seg)]) s1) as (b & s2 & E2 & G).
    + by rewrite F1.
    + lia.
    + by rewrite <- app_assoc.
    + rewrite NoDup_app. split_and!; [done| |apply NoDup_singleton]. set_solver.
    + rewrite E2. exists b, s2. split; [done|]. destruct b.
      * destruct G as (G1 & (ps' & G2 & G3) & G4). rewrite F2 in G1. split; [done|]. split.
        -- exists (mb :: ps'). rewrite <- !app_assoc in G2; rewrite <- !app_assoc in G3. exact (conj G2 G3).
        -- intros q' m' Hq'. rewrite Em in G4.
           destruct (decide (q' = prev)) as [->|Hne].
           ++ rewrite Hmp in Hq'. injection Hq' as <-.
              destruct (G4 prev (set_m_next mb mp)) as (m2 & ? & ?); [by rewrite lookup_insert_eq|eauto].
           ++ destruct (G4 q' m') as (m2 & ? & ?); [|eauto].
              rewrite !lookup_insert_ne by congruence. done.
      * destruct G as (k & Hk & G). exists (S k). split; [lia|].
        rewrite G, F2. cbn. by rewrite <- app_assoc.
Qed.

(** A change of an [mbuf] that keeps its data and its place keeps the chain. *)
Lemma rx_chain_update h p ps segs q m m' :
  rx_chain h p ps segs -> h !! q = Some m -> m_next m' = m_next m ->
  (forall sg, rx_mbuf sg m -> rx_mbuf sg m') -> rx_chain (<[q := m']> h) p ps segs.
Proof.
  intros Hc Hq Hn Hr. revert p segs Hc.
  induction ps as [|q0 ps IH]; intros p [|sg segs]; cbn; try done.
  intros (-> & Hn0 & m0 & Hm0 & Hr0 & Hc). split_and!; [done|done|].
  destruct (decide (q = q0)) as [<-|Hne].
  - rewrite Hq in Hm0. injection Hm0 as <-. exists m'. rewrite lookup_insert_eq, Hn. eauto.
  - exists m0. rewrite lookup_insert_ne by done. eauto.
Qed.

Lemma set_vlan_spec s hdr v m :
  mbufs s !! hdr = Some m ->
  exists m' s', lazybsd_mbuf_set_vlan_info hdr v s = Ok s' /\
    s' = set_mbufs (<[hdr := m']> (mbufs s)) s /\ m_next m' = m_next m /\
    len (m_pkthdr m') = len (m_pkthdr m) /\ forall sg, rx_mbuf sg m -> rx_mbuf sg m'.
Proof.
  intros Hm. unfold lazybsd_mbuf_set_vlan_info. rewrite (assign_Ok _ _ _ _ Hm). cbn [mbind outcome_bind].
  erewrite assign_Ok by (cbn [mbufs set_mbufs]; by rewrite lookup_insert_eq).
  eexists _, _. split; [done|]. split; [unfold set_mbufs; cbn; by rewrite insert_insert_eq|].
  split_and!; [done|done|]. intros sg (R1 & R2 & R3 & R). split_and!; try done; try apply R.
  exact (lor_land_nonzero _ _ _ R3).
Qed.

Lemma process_packet_spec s ifp hdr m :
  mbufs s !! hdr = Some m ->
  exists m' s', lazybsd_veth_process_packet ifp hdr s = Ok s' /\
    mbufs s' = <[hdr := m']> (mbufs s) /\ calls s' = calls s ++ [if_input ifp hdr] /\
    m_next m' = m_next m /\ rcvif (m_pkthdr m') = ifp /\ len (m_pkthdr m') = len (m_pkthdr m) /\
    forall sg, rx_mbuf sg m -> rx_mbuf sg m'.
Proof.
  intros Hm. unfold lazybsd_veth_process_packet. rewrite (assign_Ok _ _ _ _ Hm). cbn [mbind outcome_bind].
  eexists _, _. split; [done|]. cbn. split_and!; done.
Qed.

(** What [lazybsd_veth_input] does with a packet that has the segments [segs]. *)
Definition dropped (pkt : Z) (s s' : net) : Prop := calls s' = calls s ++ [rte_pktmbuf_free pkt].

Definition delivered (ifp : Z) (seg : rte_mbuf) (segs : list (Z * rte_mbuf)) (s s' : net) : Prop :=
  exists hdr ps m s'', calls s' = calls s ++ [if_input ifp hdr] /\
    rx_chain (mbufs s') hdr ps segs /\ mbufs s' !! hdr = Some m /\
    rcvif (m_pkthdr m) = ifp /\ len (m_pkthdr m) = u16 (pkt_len seg) /\
    lazybsd_mbuf_free hdr s' = Ok s'' /\
    calls s'' = calls s' ++ ((fun sg => rte_pktmbuf_free_seg sg.1) <$> segs).

Lemma veth_input_spec fuel rx_csum ifp pkt seg segs s :
  rte_chain (rte s) pkt ((pkt, seg) :: segs) -> (length segs <= fuel)%nat ->
  exists s', lazybsd_veth_input fuel rx_csum ifp pkt s = Ok s' /\
    (dropped pkt s s' \/ delivered ifp seg ((pkt, seg) :: segs) s s' \/
     exists k, (k < length segs)%nat /\
       calls s' = calls s ++ freed_twice pkt ((pkt, seg) :: take k segs)).
Proof.
  intros (_ & Hn & Hseg & Hr) Hf. cbn [fst snd] in *. fold (rte_chain (rte s)) in Hr. unfold lazybsd_veth_input, deref_rte.
  rewrite Hseg. cbn [mbind outcome_bind].
  destruct (_ && _); [eexists; split; [done|by left]|].
  destruct (mbuf_gethdr_spec seg pkt (u16 (pkt_len seg)) rx_csum s) as (hdr & s1 & E & F1 & F2 & F3).
  rewrite E. cbn [mbind outcome_bind].
  destruct F3 as [->|(Hh & Hfresh & m & Em & Hrx & Hnext & Hlen)].
  { cbn. eexists; split; [done|left]. unfold dropped. cbn. by rewrite F2. }
  rewrite (proj2 (Z.eqb_neq hdr 0) Hh).
  assert (exists s2 m2, (if negb (Z.land (ol_flags seg) RTE_MBUF_F_RX_VLAN_STRIPPED =? 0)
      then lazybsd_mbuf_set_vlan_info hdr (vlan_tci seg) s1 else Ok s1) = Ok s2 /\
      rte s2 = rte s /\ calls s2 = calls s /\ mbufs s2 !! hdr = Some m2 /\
      rx_mbuf (pkt, seg) m2 /\ m_next m2 = 0 /\ len (m_pkthdr m2) = u16 (pkt_len seg))
    as (s2 & m2 & E2 & G1 & G2 & G3 & G4 & G5 & G6).
  { assert (mbufs s1 !! hdr = Some m) as Hm1 by (by rewrite Em, lookup_insert_eq).
    destruct (negb _); [|exists s1, m; split_and!; done].
    destruct (set_vlan_spec s1 hdr (vlan_tci seg) m Hm1) as (m' & s2 & -> & -> & V1 & V2 & V3).
    eexists _, m'. split; [done|]. cbn. rewrite lookup_insert_eq, V1, V2. split_and!; auto. }
  rewrite E2. cbn [mbind outcome_bind].
  destruct (veth_input_loop_spec fuel segs (next seg) hdr [] hdr pkt [(pkt, seg)] s2)
    as (b & s3 & E3 & G).
  { by rewrite G1. } { done. }
  { cbn. split_and!; [done|done|]. exists m2. done. }
  { apply NoDup_singleton. }
  rewrite E3. cbn [mbind outcome_bind]. destruct b.
  - destruct G as (C1 & (ps' & C2 & C3) & C4). destruct (C4 hdr m2 G3) as (m3 & M1 & M2).
    destruct (process_packet_spec s3 ifp hdr m3 M1) as (m4 & s4 & -> & P1 & P2 & P3 & P4 & P5 & P6).
    exists s4. split; [done|right; left].
    assert (rx_chain (mbufs s4) hdr (hdr :: ps') ((pkt, seg) :: segs)) as Hc4
      by (rewrite P1; by eapply rx_chain_update).
    destruct (mbuf_free_rx _ _ _ _ Hc4 C3) as (s5 & E5 & F5).
    exists hdr, (hdr :: ps'), m4, s5. rewrite P2, C1, G2, P5, M2. split_and!; try done.
    + by rewrite P1, lookup_insert_eq.
    + by rewrite F5, P2, C1, G2.
  - destruct G as (k & Hk & C). eexists. split; [done|]. right; right. exists k. split; [done|].
    by rewrite C, G2.
Qed.


(** ** Writing in place *)

Lemma rd_ext_bytes_of b b' a n :
  (forall i, 0 <= i < n -> rd b' (a + i) = rd b (a + i)) -> bytes_of b' a n = bytes_of b a n.
Proof.
  intros Hb. unfold bytes_of. apply list_fmap_ext. intros k i Hk.
  apply lookup_seqZ in Hk as [-> Hk]. apply Hb. lia.
Qed.

Lemma bytes_of_app b a n1 n2 : 0 <= n1 -> 0 <= n2 ->
  bytes_of b a (n1 + n2) = bytes_of b a n1 ++ bytes_of b (a + n1) n2.
Proof.
  intros H1' H2'. unfold bytes_of. rewrite seqZ_app, fmap_app by lia. f_equal.
  assert (seqZ (0 + n1) n2 = Z.add n1 <$> seqZ 0 n2) as -> by (rewrite fmap_add_seqZ; f_equal; lia).
  rewrite <- list_fmap_compose.
  apply list_fmap_ext. intros k i _. cbn. f_equal. lia.
Qed.

Lemma length_bytes_of b a n : 0 <= n -> Z.of_nat (length (bytes_of b a n)) = n.
Proof. intros. unfold bytes_of. rewrite length_fmap, length_seqZ. lia. Qed.

Lemma data_of_ext b b' m :
  (forall i, region m i -> rd b' i = rd b i) -> data_of b' m = data_of b m.
Proof.
  intros Hb. apply rd_ext_bytes_of. intros i Hi. apply Hb.
  pose proof (doc_TRAILINGSPACE m). unfold region. lia.
Qed.

Lemma contents_ext b b' l :
  (forall x i, x ∈ l -> region x.2 i -> rd b' i = rd b i) -> contents b' l = contents b l.
Proof.
  intros Hb. unfold contents. f_equal. apply list_fmap_ext. intros k m Hk.
  apply data_of_ext. intros i. apply list_lookup_fmap_Some in Hk as (x & -> & Hx).
  apply Hb. by eapply list_elem_of_lookup_2.
Qed.

Lemma contents_cons b x l : contents b (x :: l) = data_of b x.2 ++ contents b l.
Proof. done. Qed.

Lemma contents_app b l1 l2 : contents b (l1 ++ l2) = contents b l1 ++ contents b l2.
Proof. unfold contents. by rewrite !fmap_app, concat_app. Qed.

Lemma contents_empty b l : (forall x, x ∈ l -> m_len x.2 = 0) -> contents b l = [].
Proof.
  induction l as [|x l IH]; intros Hl; [done|]. rewrite contents_cons, IH by set_solver.
  unfold data_of. rewrite Hl by set_solver. done.
Qed.

Lemma space_nonneg l : 0 <= space l.
Proof. induction l as [|x l IH]; cbn; [lia|]. pose proof (doc_TRAILINGSPACE x.2). lia. Qed.

Lemma space_app l1 l2 : space (l1 ++ l2) = space l1 + space l2.
Proof. induction l1 as [|x l1 IH]; cbn; [done|]. lia. Qed.

Lemma linked_app {A} (nxt : A -> Z) h p l1 l2 q : linked nxt h p (l1 ++ l2) ->
  l2 <> [] -> fst <$> head l2 = Some q -> linked nxt h q l2.
Proof.
  revert p. induction l1 as [|x l1 IH]; intros p; cbn.
  - destruct l2 as [|y l2]; [done|]. cbn. intros (-> & ?) _ [= <-]. done.
  - intros (-> & _ & _ & Hl). by eapply IH.
Qed.

Lemma linked_in {A} (nxt : A -> Z) h p l y : linked nxt h p l -> y ∈ l -> h !! y.1 = Some y.2.
Proof.
  revert p. induction l as [|z l IH]; intros p; cbn; [set_solver|].
  intros (-> & _ & Hz & Hl) [->|Hy]%elem_of_cons; [done|by eapply IH].
Qed.

Lemma linked_ext {A} (nxt : A -> Z) (h h' : gmap Z A) p l :
  (forall x, x ∈ l -> h' !! x.1 = h !! x.1) -> linked nxt h p l -> linked nxt h' p l.
Proof.
  revert p. induction l as [|x l IH]; intros p Hh; cbn; [done|].
  intros (-> & Hn & Hx & Hl). rewrite Hh by set_solver. split_and!; try done.
  apply IH; [|done]. intros. apply Hh. set_solver.
Qed.

(** The [mbuf]s of a chain after a write: same places, same buffers. *)
Definition same_buffer (x y : Z * mbuf) : Prop :=
  x.1 = y.1 /\ m_data x.2 = m_data y.2 /\
  m_len x.2 + M_TRAILINGSPACE x.2 = m_len y.2 + M_TRAILINGSPACE y.2 /\ m_len x.2 <= m_len y.2.

Lemma same_buffer_refl x : same_buffer x x.
Proof. unfold same_buffer. split_and!; done. Qed.

Lemma same_buffers_refl l : Forall2 same_buffer l l.
Proof. induction l; constructor; auto using same_buffer_refl. Qed.

Lemma same_buffer_region x y b : same_buffer x y -> region x.2 b <-> region y.2 b.
Proof. intros (_ & E1 & E2 & _). unfold region. lia. Qed.

Lemma same_buffers_fst l l' : Forall2 same_buffer l l' -> l.*1 = l'.*1.
Proof. induction 1 as [|x y l l' Hs _ IH]; [done|]. cbn. f_equal; [apply Hs|done]. Qed.

Lemma same_buffers_in l l' y : Forall2 same_buffer l l' -> y ∈ l' -> exists x, x ∈ l /\ same_buffer x y.
Proof.
  induction 1 as [|x y' l l' Hs _ IH]; [set_solver|]. intros [->|Hy]%elem_of_cons.
  - exists x. split; [set_solver|done].
  - destruct IH as (x' & ? & ?); [done|]. exists x'. split; [set_solver|done].
Qed.

Lemma same_buffers_good l l' : Forall2 same_buffer l l' -> good_chain l -> good_chain l'.
Proof.
  intros Hs (Hnd & Hlen & Hreg). split_and!.
  - by rewrite <- (same_buffers_fst _ _ Hs).
  - intros y Hy. destruct (same_buffers_in _ _ _ Hs Hy) as (x & Hx & E1 & E2 & E3 & E4).
    specialize (Hlen x Hx). lia.
  - intros y y' b Hy Hy' Hne Hr.
    destruct (same_buffers_in _ _ _ Hs Hy) as (x & Hx & E).
    destruct (same_buffers_in _ _ _ Hs Hy') as (x' & Hx' & E').
    rewrite <- (same_buffer_region _ _ _ E') by done. rewrite <- (same_buffer_region _ _ _ E) in Hr.
    apply (Hreg x x'); try done. destruct E as [-> _], E' as [-> _]. done.
Qed.

Lemma good_chain_cons x l : good_chain (x :: l) -> good_chain l.
Proof.
  intros (Hnd & Hlen & Hreg). apply NoDup_cons in Hnd as [_ Hnd]. split_and!; [done| |].
  - intros y Hy. apply Hlen. set_solver.
  - intros y z b Hy Hz. apply Hreg; set_solver.
Qed.

(** The state after a write of [n] bytes from [src] into the [mbuf] [x]. *)
Definition wrote (x : Z * mbuf) (n src : Z) (s : net) : net :=
  set_mbufs (<[x.1 := set_m_len (m_len x.2 + n) x.2]> (mbufs s))
    (set_bytes (bcopy src (m_data x.2 + m_len x.2) n (bytes s)) s).

Definition grown (x : Z * mbuf) (n : Z) : Z * mbuf := (x.1, set_m_len (m_len x.2 + n) x.2).

Lemma grown_same x n : 0 <= n <= M_TRAILINGSPACE x.2 -> same_buffer x (grown x n).
Proof.
  intros Hn. unfold same_buffer, grown. cbn [fst snd]. rewrite doc_TRAILINGSPACE_len by done.
  cbn. split_and!; [done|done|lia|lia].
Qed.

Lemma zc_write_step fuel x data l progress s (n := Z.min (M_TRAILINGSPACE x.2) (l - progress)) :
  mbufs s !! x.1 = Some x.2 -> x.1 <> 0 ->
  0 <= m_len x.2 /\ m_len x.2 + M_TRAILINGSPACE x.2 < 2147483648 ->
  0 <= progress <= l -> l < 2147483648 ->
  zc_write_loop (S fuel) x.1 data l progress s =
    if l =? progress + n then Ok (x.1, wrote x n (data + progress) s)
    else zc_write_loop fuel (m_next x.2) data l (progress + n) (wrote x n (data + progress) s).
Proof.
  intros Hx Hn0 Hlen Hp Hl. pose proof (doc_TRAILINGSPACE x.2) as Ht.
  cbn [zc_write_loop]. rewrite (proj2 (Z.eqb_neq x.1 0) Hn0).
  assert (deref s x.1 = Ok x.2) as -> by (unfold deref; by rewrite Hx). cbn [mbind outcome_bind].
  rewrite (i32_id (l - progress)) by (unfold in_i32; lia).
  rewrite !u32_id by (unfold in_u32; lia). fold n. assert (0 <= n) by lia.
  rewrite (i32_id n), u64_id by (unfold in_i32, in_u64; lia).
  rewrite memcpy_Ok by (unfold LONG_MAX; lia). cbn [mbind outcome_bind].
  erewrite assign_Ok by (cbn; exact Hx). cbn [mbind outcome_bind].
  rewrite (i32_id (m_len x.2 + n)), (i32_id (progress + n)) by (unfold in_i32; lia).
  change (set_mbufs _ _) with (wrote x n (data + progress) s).
  destruct (l =? progress + n); [done|].
  assert (deref (wrote x n (data + progress) s) x.1 = Ok (grown x n).2) as -> by
    (unfold deref; cbn; by rewrite lookup_insert_eq). done.
Qed.

Lemma rd_wrote x n src s b : 0 <= n ->
  ~ (m_data x.2 + m_len x.2 <= b < m_data x.2 + m_len x.2 + n) -> rd (bytes (wrote x n src s)) b = rd (bytes s) b.
Proof. intros Hn Hb. cbn. rewrite rd_bcopy, decide_False by lia. done. Qed.

Lemma data_of_grown x n src s :
  0 <= m_len x.2 -> 0 <= n ->
  data_of (bytes (wrote x n src s)) (grown x n).2 = data_of (bytes s) x.2 ++ bytes_of (bytes s) src n.
Proof.
  intros Hl Hn. unfold data_of. cbn [grown snd m_data m_len set_m_len].
  rewrite bytes_of_app by lia. f_equal.
  - apply rd_ext_bytes_of. intros i Hi. apply rd_wrote; lia.
  - unfold bytes_of. apply list_fmap_ext. intros k i Hk. apply lookup_seqZ in Hk as [-> Hk].
    cbn. rewrite rd_bcopy, decide_True by lia. f_equal. lia.
Qed.

(** What a write of [l - progress] bytes makes of the chain [suf] from the cursor on. *)
Definition zc_post (suf : list (Z * mbuf)) (data l progress : Z) (s : net) (mb' : Z) (s' : net) : Prop :=
  exists suf1 suf2 mb, suf2 <> [] /\ fst <$> head suf2 = Some mb' /\
    fst <$> head suf = Some mb /\ linked m_next (mbufs s') mb (suf1 ++ suf2) /\
    Forall2 same_buffer suf (suf1 ++ suf2) /\
    (forall x, x ∈ tail suf2 -> m_len x.2 = 0) /\
    space suf2 = space suf - (l - progress) /\
    contents (bytes s') (suf1 ++ suf2) =
      contents (bytes s) suf ++ bytes_of (bytes s) (data + progress) (l - progress) /\
    (forall b, (forall x, x ∈ suf -> ~ region x.2 b) -> rd (bytes s') b = rd (bytes s) b) /\
    (forall p, p ∉ suf.*1 -> mbufs s' !! p = mbufs s !! p) /\ calls s' = calls s /\ rte s' = rte s.

Lemma zc_write_loop_spec fuel suf mb data l progress s :
  linked m_next (mbufs s) mb suf -> suf <> [] -> good_chain suf ->
  (forall x, x ∈ tail suf -> m_len x.2 = 0) ->
  (forall x b, x ∈ suf -> data <= b < data + l -> ~ region x.2 b) ->
  0 <= progress <= l -> l < 2147483648 -> l - progress <= space suf -> (length suf <= fuel)%nat ->
  exists mb' s', zc_write_loop fuel mb data l progress s = Ok (mb', s') /\
    zc_post suf data l progress s mb' s'.
Proof.
  revert suf mb progress s. induction fuel as [|fuel IH];
    intros suf mb progress s Hlk Hne Hgood Hz Hsrc Hp Hl Hsp Hf.
  { destruct suf; cbn in *; [done|lia]. }
  destruct suf as [|x suf]; [done|]. cbn [linked] in Hlk. destruct Hlk as (-> & Hn0 & Hx & Hlk).
  cbn [tail space length] in Hz, Hsp, Hf.
  pose proof Hgood as (Hnd & Hlens & Hreg). pose proof (Hlens x ltac:(set_solver)) as Hlx.
  apply NoDup_cons in Hnd as [Hxn Hnd].
  rewrite (zc_write_step fuel x data l progress s) by done.
  set (n := Z.min _ _). pose proof (doc_TRAILINGSPACE x.2) as Ht.
  pose proof (space_nonneg suf) as Hsn.
  assert (forall y b, y ∈ suf -> region y.2 b ->
    rd (bytes (wrote x n (data + progress) s)) b = rd (bytes s) b) as Hpost.
  { intros y b Hy Hb. apply rd_wrote; [lia|]. intros Hb'.
    apply (Hreg y x b); [set_solver|set_solver| |done|unfold region; lia].
    intros E. apply Hxn. rewrite <- E. apply list_elem_of_fmap. by exists y. }
  assert (linked m_next (mbufs (wrote x n (data + progress) s)) (m_next x.2) suf) as Hlk1.
  { eapply linked_ext; [|exact Hlk]. intros y Hy. cbn. rewrite lookup_insert_ne; [done|].
    intros E. apply Hxn. rewrite E. apply list_elem_of_fmap. by exists y. }
  destruct (Z.eqb_spec l (progress + n)) as [Hstop|Hgo].
  - eexists _, _. split; [done|]. exists [], (grown x n :: suf), x.1. cbn [app].
    split_and!; try done.
    + cbn [linked grown fst snd]. split_and!; [done|done| |done]. cbn. by rewrite lookup_insert_eq.
    + constructor; [apply grown_same; lia|apply same_buffers_refl].
    + cbn [space grown snd]. rewrite doc_TRAILINGSPACE_len by lia. lia.
    + rewrite !contents_cons, data_of_grown by lia.
      rewrite (contents_ext (bytes s)) by done. rewrite (contents_empty _ suf) by done.
      rewrite !app_nil_r. repeat f_equal; lia.
    + intros b Hb. apply rd_wrote; [lia|]. intros Hb'. apply (Hb x); [set_solver|]. unfold region. lia.
    + intros p Hp'. cbn. rewrite lookup_insert_ne by set_solver. done.
  - assert (n = M_TRAILINGSPACE x.2) as En by lia.
    destruct (IH suf (m_next x.2) (progress + n) (wrote x n (data + progress) s)) as (mb' & s' & E & R).
    { done. } { intros ->. cbn in Hsp. lia. } { by eapply good_chain_cons. }
    { intros y Hy. apply Hz. destruct suf; set_solver. }
    { intros y b Hy. apply Hsrc. set_solver. }
    { lia. } { done. } { lia. } { lia. }
    exists mb', s'. split; [done|].
    destruct R as (suf1 & suf2 & mb1 & R1 & R2 & R3 & R4 & R5 & R6 & R7 & R8 & R9 & R10 & R11 & R12).
    exists (grown x n :: suf1), suf2, x.1. cbn [app].
    assert (linked m_next (mbufs s') (m_next x.2) (suf1 ++ suf2)) as Hlk2.
    { destruct suf as [|y suf]; [done|]. cbn in R3, Hlk1. injection R3 as <-.
      by destruct Hlk1 as [-> _]. }
    assert (forall b, region x.2 b ->
      rd (bytes s') b = rd (bytes (wrote x n (data + progress) s)) b) as Hframe.
    { intros b Hb. apply R9. intros y Hy Hb'. apply (Hreg y x b); try done; [set_solver..|].
      intros E'. apply Hxn. rewrite <- E'. apply list_elem_of_fmap. by exists y. }
    split_and!; try done.
    + cbn [linked grown fst snd]. split_and!; [done|done| |done].
      rewrite R10 by done. cbn. by rewrite lookup_insert_eq.
    + constructor; [apply grown_same; lia|done].
    + cbn [space]. lia.
    + rewrite !contents_cons, R8. rewrite (data_of_ext (bytes (wrote x n (data + progress) s))).
      2: { intros b Hb. apply Hframe. by apply (same_buffer_region x (grown x n)); [apply grown_same; lia|]. }
      rewrite data_of_grown by lia.
      rewrite !(contents_empty _ suf), !app_nil_r, app_nil_l, <- app_assoc by done. f_equal.
      replace (l - progress) with (n + (l - (progress + n))) by lia.
      rewrite bytes_of_app by lia. f_equal. rewrite Z.add_assoc. apply rd_ext_bytes_of.
      intros i Hi. apply rd_wrote; [lia|]. intros Hb.
      apply (Hsrc x (data + (progress + n) + i)); [set_solver|lia|unfold region; lia].
    + intros b Hb. rewrite R9 by (intros y Hy; apply Hb; set_solver).
      apply rd_wrote; [lia|]. intros Hb'. apply (Hb x); [set_solver|]. unfold region. lia.
    + intros p Hp'. rewrite R10 by set_solver. cbn. rewrite lookup_insert_ne by set_solver. done.
Qed.

(** The chain of a structure: it holds [out], there is room for the rest, and all
    that comes behind the cursor is empty.  [ms] are the buffers it started with. *)
Definition zc_inv (ms : list (Z * mbuf)) (s : net) (zm : lazybsd_zc_mbuf) (out : list Z) : Prop :=
  exists pre suf, linked m_next (mbufs s) (bsd_mbuf zm) (pre ++ suf) /\ suf <> [] /\
    fst <$> head suf = Some (bsd_mbuf_off zm) /\ Forall2 same_buffer ms (pre ++ suf) /\
    (forall x, x ∈ tail suf -> m_len x.2 = 0) /\
    contents (bytes s) (pre ++ suf) = out /\ off zm = Z.of_nat (length out) /\
    off zm <= zc_len zm < 2147483648 /\ zc_len zm - off zm <= space suf.

Lemma good_chain_app l1 l2 : good_chain (l1 ++ l2) -> good_chain l2.
Proof. induction l1 as [|x l1 IH]; [done|]. intros Hg%good_chain_cons. by apply IH. Qed.

Lemma linked_replace {A} (nxt : A -> Z) (h h' : gmap Z A) p q pre suf suf' :
  linked nxt h p (pre ++ suf) -> suf <> [] -> fst <$> head suf = Some q -> linked nxt h' q suf' ->
  (forall x, x ∈ pre -> h' !! x.1 = h !! x.1) -> linked nxt h' p (pre ++ suf').
Proof.
  intros Hl Hne Hh Hs Hp. revert p Hl. induction pre as [|x pre IH]; intros p; cbn.
  - destruct suf as [|y suf]; [done|]. cbn in *. injection Hh as <-. by intros (-> & _).
  - intros (-> & Hn & Hx & Hl). rewrite Hp by set_solver. split_and!; try done.
    apply IH; [|done]. intros. apply Hp. set_solver.
Qed.

Lemma zc_write_spec fuel ms s zm out data l :
  zc_inv ms s zm out -> good_chain ms -> (length ms <= fuel)%nat ->
  0 <= l -> off zm + l <= zc_len zm -> (forall x b, x ∈ ms -> data <= b < data + l -> ~ region x.2 b) ->
  exists zm' s', lazybsd_zc_mbuf_write fuel (Some zm) data l s = Ok (l, Some zm', s') /\
    bsd_mbuf zm' = bsd_mbuf zm /\ zc_len zm' = zc_len zm /\ off zm' = off zm + l /\
    zc_inv ms s' zm' (out ++ bytes_of (bytes s) data l) /\
    (forall b, (forall x, x ∈ ms -> ~ region x.2 b) -> rd (bytes s') b = rd (bytes s) b) /\
    calls s' = calls s.
Proof.
  intros (pre & suf & I1 & I2 & I3 & I4 & I5 & I6 & I7 & I8 & I9) Hgood Hf Hl Hfit Hsrc.
  assert (forall y, y ∈ pre ++ suf -> exists x, x ∈ ms /\ same_buffer x y) as Hin
    by (intros y Hy; by eapply same_buffers_in).
  assert (good_chain (pre ++ suf)) as Hg by (by eapply same_buffers_good).
  assert (length ms = length pre + length suf)%nat as Hlen.
  { rewrite <- length_app. by eapply Forall2_length. }
  unfold lazybsd_zc_mbuf_write. rewrite (i32_id (off zm + l)) by (unfold in_i32; lia).
  replace (zc_len zm <? off zm + l) with false by lia.
  destruct (zc_write_loop_spec fuel suf (bsd_mbuf_off zm) data l 0 s) as (mb' & s' & E & R);
    [by eapply linked_app|done|by eapply good_chain_app|done| |lia..|].
  { intros y b Hy Hb Hr. destruct (Hin y) as (x & Hx & Hs); [set_solver|].
    apply (Hsrc x b Hx Hb). by apply (same_buffer_region x y). }
  rewrite E. cbn [mbind outcome_bind].
  destruct R as (suf1 & suf2 & mb1 & R1 & R2 & R3 & R4 & R5 & R6 & R7 & R8 & R9 & R10 & R11 & R12).
  rewrite I3 in R3. injection R3 as <-. rewrite !Z.sub_0_r, ?Z.add_0_r in *.
  assert (contents (bytes s') pre = contents (bytes s) pre) as Hpre.
  { apply contents_ext. intros x b Hx Hb. apply R9. intros y Hy Hb'.
    destruct Hg as (Hnd & _ & Hreg). apply (Hreg x y b); try done; [set_solver..|].
    rewrite fmap_app in Hnd. apply NoDup_app in Hnd as (_ & Hd & _). intros Exy.
    apply (Hd x.1); [apply list_elem_of_fmap; by exists x|]. rewrite Exy. apply list_elem_of_fmap; by exists y. }
  eexists _, s'. split; [done|]. cbn [bsd_mbuf zc_len off].
  split_and!; [done..| | |done].
  - exists (pre ++ suf1), suf2. cbn [bsd_mbuf bsd_mbuf_off zc_len off].
    rewrite <- !app_assoc. split_and!; try done; try lia.
    + eapply linked_replace; try done. intros x Hx. apply R10. intros Hx'.
      destruct Hg as (Hnd & _). rewrite fmap_app in Hnd. apply NoDup_app in Hnd as (_ & Hd & _).
      apply (Hd x.1); [apply list_elem_of_fmap; by exists x|done].
    + apply Forall2_app_inv_r in I4 as (ms1 & ms2 & S1 & S2 & ->). apply Forall2_app; [done|].
      clear -S2 R5. revert suf S2 R5. generalize (suf1 ++ suf2). induction ms2 as [|x ms2 IH];
        intros l2 suf S2 R5; inversion S2; subst; inversion R5; subst; constructor.
      * unfold same_buffer in *. intuition congruence || lia.
      * by eapply IH.
    + rewrite contents_app, R8, Hpre, app_assoc, <- contents_app, I6. done.
    + rewrite length_app, Nat2Z.inj_add, length_bytes_of by lia. lia.
  - intros b Hb. apply R9. intros y Hy Hr. destruct (Hin y) as (x & Hx & Hs); [set_solver|].
    apply (Hb x Hx). by apply (same_buffer_region x y).
Qed.

Definition total (ws : list (Z * Z)) : Z := foldr (fun w t => w.2 + t) 0 ws.

Lemma zc_writes_spec fuel ms ws s zm out :
  zc_inv ms s zm out -> good_chain ms -> (length ms <= fuel)%nat ->
  (forall w, w ∈ ws -> 0 <= w.2) -> off zm + total ws <= zc_len zm ->
  (forall w x b, w ∈ ws -> x ∈ ms -> w.1 <= b < w.1 + w.2 -> ~ region x.2 b) ->
  exists zm' s', zc_writes fuel (Some zm) ws s = Ok (ws.*2, Some zm', s') /\
    bsd_mbuf zm' = bsd_mbuf zm /\ zc_len zm' = zc_len zm /\ off zm' = off zm + total ws /\
    zc_inv ms s' zm' (out ++ concat ((fun w => bytes_of (bytes s) w.1 w.2) <$> ws)) /\
    calls s' = calls s.
Proof.
  intros Hi Hg Hf. revert s zm out Hi. induction ws as [|w ws IH]; intros s zm out Hi Hw Ht Hsrc.
  { exists zm, s. cbn. rewrite app_nil_r. split_and!; try done. cbn. lia. }
  cbn [total foldr] in Ht. fold (total ws) in Ht.
  assert (0 <= total ws) as Htn.
  { clear -Hw. assert (forall v, v ∈ ws -> 0 <= v.2) as Hv by (intros; apply Hw; set_solver).
    clear Hw. induction ws as [|v ws IH]; cbn; [lia|]. fold (total ws).
    specialize (Hv v ltac:(set_solver)) as Hv0. assert (0 <= total ws) by (apply IH; set_solver). lia. }
  pose proof (Hw w ltac:(set_solver)) as Hw0.
  destruct (zc_write_spec fuel ms s zm out w.1 w.2) as (zm1 & s1 & E & E1 & E2 & E3 & E4 & E5 & E6);
    [done..|lia| |].
  { intros x b Hx. apply Hsrc; set_solver. }
  destruct (IH s1 zm1 _ E4) as (zm2 & s2 & F & F1 & F2 & F3 & F4 & F5); [set_solver|lia| |].
  { intros v x b Hv. apply Hsrc. set_solver. }
  exists zm2, s2. cbn [zc_writes]. rewrite E. cbn [mbind outcome_bind]. rewrite F. cbn [mbind outcome_bind].
  split_and!; [done|congruence|congruence|cbn [total foldr]; fold (total ws); lia| |congruence].
  cbn [fmap list_fmap concat]. rewrite app_assoc.
  assert ((fun w => bytes_of (bytes s1) w.1 w.2) <$> ws = (fun w => bytes_of (bytes s) w.1 w.2) <$> ws) as <-;
    [|done].
  apply list_fmap_ext. intros k v Hv%list_elem_of_lookup_2. apply rd_ext_bytes_of. intros i Hi'.
  apply E5. intros x Hx. apply (Hsrc v); [set_solver|done|lia].
Qed.

Lemma zc_get_spec l s zm0 : 0 <= l < 2147483648 ->
  exists zm s1 ms, lazybsd_zc_mbuf_get (Some zm0) l s = (0, Some zm, s1) /\
    good_chain ms /\ zc_inv ms s1 zm [] /\ zc_len zm = l /\ off zm = 0 /\
    bytes s1 = bytes s /\ calls s1 = calls s /\
    m_getm2 (Z.max l 1) s = (bsd_mbuf zm, s1) /\ linked m_next (mbufs s1) (bsd_mbuf zm) ms.
Proof.
  intros Hl. cbn [lazybsd_zc_mbuf_get]. rewrite u32_id, i32_id by (unfold in_u32, in_i32; lia).
  destruct (doc_getm2 (Z.max l 1) s) as (p & ms & s1 & E & G1 & G2 & G3 & G4 & G5 & G6 & G7); [lia|].
  rewrite E. destruct ms as [|x ms]; [cbn in G3; lia|]. pose proof G1 as Gl.
  cbn [linked] in G1. destruct G1 as (-> & Hn & Hx & Hl1). rewrite (proj2 (Z.eqb_neq x.1 0) Hn).
  eexists _, s1, (x :: ms). split; [done|]. cbn [zc_len off]. split_and!; try done.
  - exists [], (x :: ms). cbn [app bsd_mbuf bsd_mbuf_off off zc_len]. split_and!; try done; try lia.
    + apply same_buffers_refl.
    + intros y Hy. apply G4. cbn in Hy. set_solver.
    + apply contents_empty. intros y Hy. by apply G4.
Qed.

Lemma linked_inj {A} (nxt : A -> Z) h p l1 l2 : linked nxt h p l1 -> linked nxt h p l2 -> l1 = l2.
Proof.
  revert p l2. induction l1 as [|x l1 IH]; intros p [|y l2]; cbn; try done.
  - by intros -> (_ & ? & _).
  - by intros (_ & ? & _) ->.
  - destruct x as [q v], y as [q' v']. cbn. intros (-> & _ & E1 & L1) (-> & _ & E2 & L2).
    rewrite E1 in E2. injection E2 as ->. f_equal. by eapply IH.
Qed.

(** The value of a write that succeeds is the number of bytes it was asked for, where the
    header of the interface documents 0. *)
Lemma zc_write_returns_length fuel zm data k s r zm' s' :
  lazybsd_zc_mbuf_write fuel zm data k s = Ok (r, zm', s') -> r = -1 \/ r = k.
Proof.
  unfold lazybsd_zc_mbuf_write. destruct zm as [zm|]; [|intros [= <- _ _]; by left].
  case_match; [intros [= <- _ _]; by left|].
  intros ([p s1] & _ & HE)%outcome_bind_Ok. injection HE as <- _ _. by right.
Qed.

(** C13. Writing a packet in place.  [lazybsd_zc_mbuf_get] for [l] bytes succeeds, and
    writes of any pieces that are together at most [l] bytes long (and do not lie in
    the buffers of the new chain) all return, none with the error -1; the chain then
    holds the pieces one behind the other, as one write of all of them would leave
    them: the places at which the [mbuf]s end do not show.  A further write that would
    exceed [l] bytes returns the error -1 and changes nothing. *)
Theorem zc_writes_concatenate l ws s zm0 :
  0 <= l < 2147483648 -> (forall w, w ∈ ws -> 0 <= w.2) -> total ws <= l ->
  (forall p s1 ms, m_getm2 (Z.max l 1) s = (p, s1) -> linked m_next (mbufs s1) p ms ->
     forall w x b, w ∈ ws -> x ∈ ms -> w.1 <= b < w.1 + w.2 -> ~ region x.2 b) ->
  exists zm s1, lazybsd_zc_mbuf_get (Some zm0) l s = (0, Some zm, s1) /\
    exists n, forall fuel, (n <= fuel)%nat ->
      exists rs zm' s' ms', zc_writes fuel (Some zm) ws s1 = Ok (rs, Some zm', s') /\
        length rs = length ws /\ -1 ∉ rs /\
        linked m_next (mbufs s') (bsd_mbuf zm) ms' /\
        contents (bytes s') ms' = concat ((fun w => bytes_of (bytes s) w.1 w.2) <$> ws) /\
        calls s' = calls s /\
        forall data k, l - total ws < k < 2147483648 - total ws ->
          lazybsd_zc_mbuf_write fuel (Some zm') data k s' = Ok (-1, Some zm', s').
Proof.
  intros Hl Hw Ht Hsrc.
  destruct (zc_get_spec l s zm0 Hl) as (zm & s1 & ms & E & G1 & G2 & G3 & G4 & G5 & G6 & G7 & G8).
  exists zm, s1. split; [done|]. exists (length ms). intros fuel Hf.
  destruct (zc_writes_spec fuel ms ws s1 zm [] G2 G1 Hf Hw) as (zm' & s' & F & F1 & F2 & F3 & F4 & F5);
    [lia|by eapply Hsrc|]. rewrite G5, app_nil_l in F4. pose proof F4 as (pre & suf & I1 & _ & _ & _ & _ & I6 & _).
  exists ws.*2, zm', s', (pre ++ suf). split_and!; try done.
  - by rewrite length_fmap.
  - intros (w & Hm & Hin)%list_elem_of_fmap. specialize (Hw w Hin). lia.
  - by rewrite <- F1.
  - by rewrite F5.
  - intros data k Hk. unfold lazybsd_zc_mbuf_write. rewrite i32_id.
    + by replace (zc_len zm' <? off zm' + k) with true by lia.
    + destruct F4 as (? & ? & _ & _ & _ & _ & _ & _ & I7 & _). unfold in_i32. lia.
Qed.
End MbufFacts.

(** ** Examples *)

(** A stack with room for [limit] [mbuf]s of received packets, in which the space of an
    [mbuf] without external buffer is in [ext_arg1]. *)
Section Example_kernel.
Context (limit : nat).

Definition new_mbuf (s : net) (m : mbuf) : Z * net :=
  let p := fresh (dom (mbufs s) ∪ {[0]} : gset Z) in (p, set_mbufs (<[p := m]> (mbufs s)) s).
Definition zero_mbuf (data cap next : Z) : mbuf :=
  Mbuf next 0 data 0 0 (Pkthdr 0 0 0 0 0 0) 0 OTHER_EXT_FREE cap.
Definition get_mbuf (s : net) : Z * net :=
  if decide (size (mbufs s) < limit)%nat then new_mbuf s (zero_mbuf 0 0 0) else (0, s).

Fixpoint walk (fuel : nat) (h : gmap Z mbuf) (p : Z) : list Z :=
  match fuel with
  | O => []
  | S fuel => if p =? 0 then [] else
      p :: match h !! p with Some m => walk fuel h (m_next m) | None => [] end
  end.

Definition example_mbuf_kernel : MbufKernel := {|
  M_EXT := 1; M_VLANTAG := 128; EXT_DISPOSABLE := 3;
  CSUM_IP := 1; CSUM_TCP := 4; CSUM_UDP := 2; CSUM_SCTP := 8; CSUM_TSO := 16;
  CSUM_IP_CHECKED := 256; CSUM_IP_VALID := 512; CSUM_DATA_VALID := 1024; CSUM_PSEUDO_HDR := 2048;
  RX_CKSUM_BAD := 24; RTE_MBUF_F_RX_VLAN_STRIPPED := 64;
  M_TRAILINGSPACE m := let sp := ext_arg1 m - m_len m in
    if (0 <=? sp) && (sp <? 2147483648) then sp else 0;
  m_gethdr := get_mbuf;
  m_get := get_mbuf;
  m_getm2 l s :=
    let '(p2, s) := new_mbuf s (zero_mbuf (1000000 + l) (l - l / 2) 0) in
    new_mbuf s (zero_mbuf 1000000 (l / 2) p2);
  m_pkthdr_init p s := (0, s);
  m_extadd b f a t m :=
    Mbuf (m_next m) (m_nextpkt m) b (m_len m) (Z.lor (m_flags m) 1) (m_pkthdr m) t f a;
  m_copydata mb off l data s :=
    let ms := omap (fun p => mbufs s !! p) (walk (S (size (mbufs s))) (mbufs s) mb) in
    set_bytes (bytes_at data (take (Z.to_nat l) (drop (Z.to_nat off) (concat (data_of (bytes s) <$> ms)))) ∪ bytes s) s;
  m_freem cb p s := free_chain 1 cb (walk (S (size (mbufs s))) (mbufs s) p) s;
  rte_pktmbuf_alloc s :=
    if decide (size (rte s) < limit)%nat then
      let p := fresh (dom (rte s) ∪ {[0]} : gset Z) in
      (p, set_rte (<[p := RteMbuf 0 0 0 0 1 0 0 0 0 0 0 0]> (rte s)) s)
    else (0, s) |}.

Lemma new_mbuf_spec s m p s' : new_mbuf s m = (p, s') ->
  p <> 0 /\ mbufs s !! p = None /\ s' = set_mbufs (<[p := m]> (mbufs s)) s.
Proof.
  unfold new_mbuf. pose proof (is_fresh (dom (mbufs s) ∪ {[0]} : gset Z)) as Hf.
  set (q := fresh _) in *. clearbody q. intros [= <- <-].
  split_and!; [set_solver| |done]. apply not_elem_of_dom. set_solver.
Qed.

Lemma get_mbuf_spec s p s' : get_mbuf s = (p, s') -> p = 0 /\ s' = s \/ is_new s p s'.
Proof.
  unfold get_mbuf. case_decide; [|intros [= <- <-]; by left].
  intros (Hp & Hn & ->)%new_mbuf_spec. right. split_and!; [done|done|by eexists].
Qed.

Lemma walk_chain fuel h p ps : chain h p ps -> (length ps < fuel)%nat -> walk fuel h p = ps.
Proof.
  revert p ps. induction fuel as [|fuel IH]; intros p ps Hc Hf; [lia|]. cbn [walk].
  destruct ps as [|q ps]; cbn in Hc, Hf; [by subst p|].
  destruct Hc as (-> & Hn & m & Hm & Hc). rewrite (proj2 (Z.eqb_neq q 0) Hn), Hm.
  f_equal. apply IH; [done|lia].
Qed.

Lemma chain_dom h p ps : chain h p ps -> forall q, q ∈ ps -> q ∈ dom h.
Proof.
  revert p. induction ps as [|q ps IH]; intros p; cbn; [set_solver|].
  intros (-> & _ & m & Hm & Hc) q' [->|Hq]%elem_of_cons; [by eapply elem_of_dom_2|by eapply IH].
Qed.

Lemma chain_length h p ps : chain h p ps -> NoDup ps -> (length ps <= size h)%nat.
Proof.
  intros Hc Hnd. rewrite <- size_dom, <- (size_list_to_set (C := gset Z) ps) by done.
  apply subseteq_size. intros q Hq%elem_of_list_to_set. by eapply chain_dom.
Qed.
End Example_kernel.

Lemma example_mbuf_kernel_doc limit : MbufKernelDoc (H := example_mbuf_kernel limit).
Proof.
  split.
  - done.
  - apply get_mbuf_spec.
  - apply get_mbuf_spec.
  - intros s p m e s' Hp [= <- <-]. exists (m_pkthdr m). destruct m, s; cbn in *. by rewrite insert_id.
  - intros b f a t m. split_and!; done.
  - intros cb p ps s Hc Hnd _. cbn [m_freem M_EXT example_mbuf_kernel]. rewrite (walk_chain _ _ _ ps); [done|done|].
    apply chain_length in Hc; [lia|done].
  - intros l s Hl. cbn [m_getm2 example_mbuf_kernel].
    destruct (new_mbuf s _) as [p2 s2] eqn:E2. apply new_mbuf_spec in E2 as (N2 & F2 & ->).
    destruct (new_mbuf _ _) as [p1 s1] eqn:E1. apply new_mbuf_spec in E1 as (N1 & F1 & ->).
    cbn [mbufs set_mbufs] in F1. assert (p1 <> p2) as Hne by (intros ->; by rewrite lookup_insert_eq in F1).
    exists p1, [(p1, zero_mbuf 1000000 (l / 2) p2); (p2, zero_mbuf (1000000 + l) (l - l / 2) 0)]. eexists.
    assert (0 <= l / 2 < l) as Hh by (split; [apply Z.div_pos; lia|apply Z.div_lt; lia]).
    assert (0 <= 0 + M_TRAILINGSPACE (MbufKernel := example_mbuf_kernel limit) (zero_mbuf 1000000 (l / 2) p2)
      - l / 2 <= 0 /\ 0 <= 0 + M_TRAILINGSPACE (MbufKernel := example_mbuf_kernel limit) (zero_mbuf (1000000 + l) (l - l / 2) 0)
      - (l - l / 2) <= 0) as [S1 S2].
    { cbn. rewrite !Z.sub_0_r. split.
      - replace (_ && _) with true by lia. lia.
      - replace (_ && _) with true by lia. lia. }
    split; [done|]. cbn [mbufs set_mbufs rte bytes calls]. split_and!; try done.
    + cbn. rewrite lookup_insert_eq, lookup_insert_ne, lookup_insert_eq by done. done.
    + split_and!.
      * cbn. apply NoDup_cons. split; [set_solver|]. apply NoDup_singleton.
      * intros x [->|[->|?%not_elem_of_nil]%elem_of_cons]%elem_of_cons; [| |done]; cbn [snd] in *; cbn [m_len zero_mbuf]; lia.
      * intros x y b [->|[->|?%not_elem_of_nil]%elem_of_cons]%elem_of_cons
          [->|[->|?%not_elem_of_nil]%elem_of_cons]%elem_of_cons; try done; unfold region; cbn [fst snd];
          cbn [m_data m_len zero_mbuf]; intros; lia.
    + cbn [space snd]. lia.
    + intros x [->|[->|?%not_elem_of_nil]%elem_of_cons]%elem_of_cons; [| |done]; cbn; [|done].
      rewrite lookup_insert_ne in F1 by congruence. done.
  - intros m. cbn. destruct (_ && _) eqn:E; lia.
  - intros m n. cbn. destruct (_ && _) eqn:E; intros Hn.
    + replace (_ && _) with true by lia. lia.
    + assert (n = 0) as -> by lia. rewrite Z.add_0_r, E. done.
Qed.

#[export] Instance example_mbuf_kernel_8 : MbufKernel := example_mbuf_kernel 8.
#[export] Instance example_mbuf_kernel_8_doc : MbufKernelDoc := example_mbuf_kernel_doc 8.

(** A packet of two segments, [10] with 4 bytes and [20] with 2. *)
Definition example_net : net :=
  Net ∅ (<[10 := RteMbuf 20 100 4 6 2 0 0 0 0 0 0 0]> (<[20 := RteMbuf 0 200 2 0 0 0 0 0 0 0 0 0]> ∅))
    (bytes_at 100 [1; 2; 3; 4] ∪ bytes_at 200 [5; 6]) [].

(** With room for one [mbuf] only, the first segment is freed twice. *)
Example veth_input_double_free :
  exists s', lazybsd_veth_input (H := example_mbuf_kernel 1) 5 0 7 10 example_net = Ok s' /\
    calls s' = [rte_pktmbuf_free_seg 10; rte_pktmbuf_free 10].
Proof. eexists. split; by vm_compute. Qed.


Lemma zc_writes_concatenate_witness :
  exists zm s1, lazybsd_zc_mbuf_get (Some (ZcMbuf 0 0 0 0)) 6 example_net = (0, Some zm, s1) /\
    exists n rs zm' s' ms', zc_writes n (Some zm) [(100, 4); (200, 2)] s1 = Ok (rs, Some zm', s') /\
      contents (bytes s') ms' = [1; 2; 3; 4; 5; 6].
Proof.
  destruct (zc_writes_concatenate 6 [(100, 4); (200, 2)] example_net (ZcMbuf 0 0 0 0))
    as (zm & s1 & E & n & F).
  - lia.
  - intros w [->|[->|?%not_elem_of_nil]%elem_of_cons]%elem_of_cons; done.
  - done.
  - intros p s1 ms E L w x b Hw Hx Hb.
    set (r := m_getm2 6 example_net) in *.
    assert (exists ms', linked m_next (mbufs r.2) r.1 ms' /\
      forall y, y ∈ ms' -> 1000000 <= m_data y.2) as (ms' & L' & Hd).
    { eexists [(_, _); (_, _)]. split; [vm_compute; split_and!; try done|].
      intros y [->|[->|?%not_elem_of_nil]%elem_of_cons]%elem_of_cons; done. }
    assert (r = (p, s1)) as Er by exact E. rewrite Er in L'. cbn in L'.
    rewrite (linked_inj _ _ _ _ _ L L') in Hx. specialize (Hd _ Hx). unfold region.
    assert (w.1 + w.2 <= 300); [|lia].
    revert Hw. intros [->|[->|?%not_elem_of_nil]%elem_of_cons]%elem_of_cons; done.
  - exists zm, s1. split; [exact E|]. destruct (F n (le_n n)) as (rs & zm' & s' & ms' & G1 & _ & _ & _ & G2 & _).
    exists n, rs, zm', s', ms'. split; [exact G1|]. rewrite G2. by vm_compute.
Defined.
