(* ===== verification/TxRing.v ===== *)
(** * TxRing: the packets given to the NIC ([src/lazybsd_memory.cc])

    A packet that the NIC sends from where the stack has it may be freed only when it
    has been sent.  The driver keeps the [mbuf]s of sent packets in a ring that has the
    size of the ring of descriptors of the NIC, one slot for every segment, and frees
    an [mbuf] when its slot comes round again ([lazybsd_txring_enqueue]). *)
From S2P Require Import Prelude Errno KernSubr SockConv Mbuf.

Definition TX_QUEUE_SIZE : nat := 512.

(** [struct mbuf_txring]; an empty slot is 0 (NULL). *)
Record mbuf_txring := Txring { m_table : list Z; head : Z }.

(** [Head_INC]: [head] is an [uint16_t]. *)
Definition Head_INC (h : Z) : Z :=
  let h := u16 (h + 1) in if Z.of_nat TX_QUEUE_SIZE <=? h then 0 else h.

(** [Head_DEC]: [--h] is an [uint16_t] that is compared with 0 as an [int]. *)
Definition Head_DEC (h : Z) : Z :=
  let h := u16 (h - 1) in if h <? 0 then Z.of_nat TX_QUEUE_SIZE - 1 else h.

Section TxRing.
Context `{MbufKernel}.

(** [q->m_table[q->head]]; behind the table the access faults. *)
Definition slot (q : mbuf_txring) : outcome Z :=
  match m_table q !! Z.to_nat (head q) with Some m => Ok m | None => Panic end.
Definition set_slot (v : Z) (q : mbuf_txring) : mbuf_txring :=
  Txring (<[Z.to_nat (head q) := v]> (m_table q)) (head q).
Definition set_head (h : Z) (q : mbuf_txring) : mbuf_txring := Txring (m_table q) h.

(** The loop over the first [n] segments. *)
Fixpoint txring_skip (n : nat) (q : mbuf_txring) (s : net) : outcome (mbuf_txring * net) :=
  match n with
  | O => Ok (q, s)
  | S n =>
      m ← slot q;
      '(q, s) ← (if negb (m =? 0) then s ← lazybsd_mbuf_free m s; Ok (set_slot 0 q, s) else Ok (q, s));
      txring_skip n (set_head (Head_INC (head q)) q) s
  end.

Definition lazybsd_txring_enqueue (q : mbuf_txring) (p seg_num : Z) (s : net)
    : outcome (mbuf_txring * net) :=
  '(q, s) ← txring_skip (Z.to_nat (seg_num - 1)) q s;
  m ← slot q;
  s ← (if negb (m =? 0) then lazybsd_mbuf_free m s else Ok s);
  let q := set_slot p q in
  Ok (set_head (Head_INC (head q)) q, s).

(** The loop of [lazybsd_txring_pop] from [i] on, with [n] to go; [rte_panic] ends the
    program. *)
Fixpoint txring_pop (n : nat) (i : Z) (q : mbuf_txring) (s : net) : outcome (mbuf_txring * net) :=
  match n with
  | O => Ok (q, s)
  | S n =>
      let q := set_head (Head_DEC (head q)) q in
      m ← slot q;
      if ((i =? 0) && (m =? 0)) || ((0 <? i) && negb (m =? 0)) then Panic else
      '(q, s) ← (if negb (m =? 0) then s ← lazybsd_mbuf_free m s; Ok (set_slot 0 q, s) else Ok (q, s));
      txring_pop n (i + 1) q s
  end.

Definition lazybsd_txring_pop (q : mbuf_txring) (num : Z) (s : net) : outcome (mbuf_txring * net) :=
  txring_pop (Z.to_nat num) 0 q s.

Definition lazybsd_txring_init : mbuf_txring := Txring (replicate TX_QUEUE_SIZE 0) 0.

(** Packets, each with its number of segments, given to the NIC one after the other. *)
Fixpoint enqueue_all (l : list (Z * Z)) (q : mbuf_txring) (s : net) : outcome (mbuf_txring * net) :=
  match l with
  | [] => Ok (q, s)
  | (p, n) :: l => '(q, s) ← lazybsd_txring_enqueue q p n s; enqueue_all l q s
  end.

(** ** What the ring promises *)

(** The slots that a packet takes. *)
Definition slots (x : Z * Z) : list Z := replicate (Z.to_nat (x.2 - 1)) 0 ++ [x.1].
Definition history (l : list (Z * Z)) : list Z := concat (slots <$> l).

(** Freeing the [mbuf]s of the slots, in order. *)
Fixpoint free_slots (l : list Z) (s : net) : outcome net :=
  match l with
  | [] => Ok s
  | m :: l => s ← (if negb (m =? 0) then lazybsd_mbuf_free m s else Ok s); free_slots l s
  end.

Lemma free_slots_app l1 l2 s : free_slots (l1 ++ l2) s = (free_slots l1 s ≫= free_slots l2).
Proof.
  revert s. induction l1 as [|m l1 IH]; intros s; cbn; [done|].
  destruct (if negb (m =? 0) then _ else _); cbn; [apply IH|done|done].
Qed.

Lemma free_slots_zero n s : free_slots (replicate n 0) s = Ok s.
Proof. induction n; cbn; done. Qed.

(** The ring after the slots [h]: the slot from which [head] is [i] away holds what was
    put there a turn ago. *)
Definition ring_of (h : list Z) (q : mbuf_txring) : Prop :=
  length (m_table q) = TX_QUEUE_SIZE /\ head q = Z.of_nat (length h mod TX_QUEUE_SIZE) /\
  forall i, (i < TX_QUEUE_SIZE)%nat ->
    m_table q !! ((length h + i) mod TX_QUEUE_SIZE)%nat = (replicate TX_QUEUE_SIZE 0 ++ h) !! (length h + i)%nat.

Lemma ring_of_init : ring_of [] lazybsd_txring_init.
Proof.
  split_and!; [apply length_replicate|done|]. intros i Hi. cbn [length Nat.add].
  rewrite app_nil_r, Nat.mod_small by done. done.
Qed.

Lemma ring_slot h q : ring_of h q ->
  exists m, slot q = Ok m /\ (replicate TX_QUEUE_SIZE 0 ++ h) !! length h = Some m.
Proof.
  intros (Hl & Hh & Ht). unfold slot. rewrite Hh, Nat2Z.id.
  specialize (Ht 0%nat ltac:(unfold TX_QUEUE_SIZE; lia)). rewrite Nat.add_0_r in Ht. rewrite <- Ht.
  destruct (m_table q !! (length h mod TX_QUEUE_SIZE)%nat) as [m|] eqn:E; [by exists m|].
  apply lookup_ge_None_1 in E. pose proof (Nat.mod_upper_bound (length h) TX_QUEUE_SIZE ltac:(done)). lia.
Qed.

Lemma Head_INC_mod n : Head_INC (Z.of_nat (n mod TX_QUEUE_SIZE)) = Z.of_nat (S n mod TX_QUEUE_SIZE).
Proof.
  unfold Head_INC, TX_QUEUE_SIZE. pose proof (Nat.mod_upper_bound n 512 ltac:(done)).
  unfold uwrap. change (2 ^ 16) with 65536. rewrite Z.mod_small by lia.
  destruct (Z.leb_spec (Z.of_nat 512) (Z.of_nat (n mod 512) + 1)).
  - change 0 with (Z.of_nat 0). f_equal. symmetry. apply Nat.Div0.mod_divides.
    exists (S (n / 512)). pose proof (Nat.div_mod_eq n 512). lia.
  - rewrite <- (Nat2Z.inj_add _ 1). f_equal. apply (Nat.mod_unique _ _ (n / 512)); [lia|].
    pose proof (Nat.div_mod_eq n 512). lia.
Qed.

Lemma ring_step h q v : ring_of h q -> ring_of (h ++ [v]) (set_head (Head_INC (head q)) (set_slot v q)).
Proof.
  intros (Hl & Hh & Ht). unfold ring_of, set_slot, set_head. cbn [m_table head].
  rewrite length_app, Hh, Nat2Z.id. cbn [length]. replace (length h + 1)%nat with (S (length h)) by lia.
  split_and!; [by rewrite length_insert|by rewrite Head_INC_mod|].
  intros i Hi. destruct (decide (i = 511)%nat) as [->|Hne].
  - replace (S (length h) + 511)%nat with (length h + 1 * TX_QUEUE_SIZE)%nat by (unfold TX_QUEUE_SIZE; lia).
    rewrite Nat.Div0.mod_add. rewrite list_lookup_insert_eq.
    + rewrite app_assoc, lookup_app_r by (rewrite length_app, length_replicate; lia).
      rewrite length_app, length_replicate. replace (_ - _)%nat with 0%nat by (unfold TX_QUEUE_SIZE; lia). done.
    + rewrite Hl. by apply Nat.mod_upper_bound.
  - assert (i < 511)%nat as Hi' by (unfold TX_QUEUE_SIZE in Hi; lia).
    rewrite list_lookup_insert_ne.
    + replace (S (length h) + i)%nat with (length h + S i)%nat by lia. rewrite Ht by (unfold TX_QUEUE_SIZE; lia).
      rewrite app_assoc, (lookup_app_l _ [v]); [done|]. rewrite length_app, length_replicate. unfold TX_QUEUE_SIZE. lia.
    + unfold TX_QUEUE_SIZE. pose proof (Nat.div_mod_eq (length h) 512).
      pose proof (Nat.div_mod_eq (S (length h) + i) 512). pose proof (Nat.mod_upper_bound (length h) 512 ltac:(done)).
      pose proof (Nat.mod_upper_bound (S (length h) + i) 512 ltac:(done)). lia.
Qed.

(** What comes out of the ring when the slots [h'] are filled after [h]. *)
Definition evicted (h h' : list Z) : list Z :=
  take (length h') (drop (length h) (replicate TX_QUEUE_SIZE 0 ++ h ++ h')).

Lemma evicted_nil h : evicted h [] = [].
Proof. unfold evicted. done. Qed.

Lemma evicted_app h h1 h2 : evicted h (h1 ++ h2) = evicted h h1 ++ evicted (h ++ h1) h2.
Proof.
  unfold evicted. set (G := replicate TX_QUEUE_SIZE 0 ++ h).
  assert (length G = TX_QUEUE_SIZE + length h)%nat as HG by (unfold G; by rewrite length_app, length_replicate).
  rewrite !length_app, <- take_take_drop, drop_drop.
  replace (replicate TX_QUEUE_SIZE 0 ++ h ++ h1 ++ h2) with ((G ++ h1) ++ h2) by (unfold G; by rewrite <- !app_assoc).
  replace (replicate TX_QUEUE_SIZE 0 ++ (h ++ h1) ++ h2) with ((G ++ h1) ++ h2) by (unfold G; by rewrite <- !app_assoc).
  replace (replicate TX_QUEUE_SIZE 0 ++ h ++ h1) with (G ++ h1) by (unfold G; by rewrite <- !app_assoc).
  f_equal. rewrite (drop_app_le (G ++ h1)) by (rewrite length_app; lia).
  rewrite take_app_le; [done|]. rewrite length_drop, length_app. lia.
Qed.

Lemma evicted_one h q v m : ring_of h q -> slot q = Ok m -> evicted h [v] = [m].
Proof.
  intros Hr Hs. destruct (ring_slot h q Hr) as (m' & E & Hl). rewrite Hs in E. injection E as <-.
  unfold evicted. cbn [length]. rewrite app_assoc, drop_app_le by (rewrite length_app, length_replicate; lia).
  rewrite (drop_S _ _ _ Hl). done.
Qed.

Lemma set_slot_id q m : slot q = Ok m -> set_slot m q = q.
Proof.
  unfold slot, set_slot. destruct q as [t h]. cbn. destruct (t !! Z.to_nat h) as [m'|] eqn:E; [|done].
  intros [= ->]. f_equal. by apply list_insert_id.
Qed.

Lemma txring_skip_spec n h q : ring_of h q ->
  exists q', ring_of (h ++ replicate n 0) q' /\
    forall s, txring_skip n q s = (s' ← free_slots (evicted h (replicate n 0)) s; Ok (q', s')).
Proof.
  revert h q. induction n as [|n IH]; intros h q Hr.
  { exists q. cbn [replicate txring_skip]. rewrite app_nil_r, evicted_nil. done. }
  destruct (ring_slot h q Hr) as (m & Hm & _).
  destruct (IH _ _ (ring_step h q 0 Hr)) as (q' & Hq' & E). rewrite <- app_assoc in Hq'.
  exists q'. split; [exact Hq'|]. intros s. cbn [txring_skip replicate]. rewrite Hm. cbn [mbind outcome_bind].
  change (0 :: replicate n 0) with ([0] ++ replicate n 0).
  rewrite evicted_app, (evicted_one h q 0 m Hr Hm). cbn [app free_slots].
  destruct (Z.eqb_spec m 0) as [->|Hn]; cbn [negb mbind outcome_bind].
  - rewrite <- E, (set_slot_id q 0) by done. done.
  - destruct (lazybsd_mbuf_free m s) as [s1| |]; cbn [mbind outcome_bind]; [|done|done]. by rewrite <- E.
Qed.

Lemma txring_enqueue_spec h q x : ring_of h q ->
  exists q', ring_of (h ++ slots x) q' /\
    forall s, lazybsd_txring_enqueue q x.1 x.2 s = (s' ← free_slots (evicted h (slots x)) s; Ok (q', s')).
Proof.
  intros Hr. unfold slots. destruct (txring_skip_spec (Z.to_nat (x.2 - 1)) h q Hr) as (q1 & Hr1 & E1).
  destruct (ring_slot _ q1 Hr1) as (m & Hm & _). eexists. split; [rewrite app_assoc; exact (ring_step _ _ _ Hr1)|].
  intros s. unfold lazybsd_txring_enqueue. rewrite E1, evicted_app, free_slots_app.
  destruct (free_slots _ s) as [s1| |]; cbn [mbind outcome_bind]; [|done|done].
  rewrite Hm, (evicted_one _ q1 _ m Hr1 Hm). cbn [mbind outcome_bind free_slots].
  destruct (if negb (m =? 0) then _ else _); done.
Qed.

Lemma enqueue_all_spec l h q : ring_of h q ->
  exists q', ring_of (h ++ history l) q' /\
    forall s, enqueue_all l q s = (s' ← free_slots (evicted h (history l)) s; Ok (q', s')).
Proof.
  revert h q. induction l as [|[p n] l IH]; intros h q Hr.
  { exists q. unfold history. cbn [fmap list_fmap concat enqueue_all]. rewrite app_nil_r, evicted_nil. done. }
  destruct (txring_enqueue_spec h q (p, n) Hr) as (q1 & Hr1 & E1).
  destruct (IH _ _ Hr1) as (q2 & Hr2 & E2). exists q2. split; [by rewrite <- app_assoc in Hr2|].
  intros s. cbn [enqueue_all]. cbn [fst snd] in E1. rewrite E1. unfold history. cbn [fmap list_fmap concat].
  rewrite evicted_app, free_slots_app.
  destruct (free_slots (evicted h (slots (p, n))) s) as [s1| |]; cbn [mbind outcome_bind]; [|done|done]. apply E2.
Qed.

Lemma free_slots_evicted h s :
  free_slots (evicted [] h) s = free_slots (take (length h - TX_QUEUE_SIZE) h) s.
Proof.
  unfold evicted. cbn [length app]. rewrite drop_0.
  rewrite take_app, length_replicate, take_replicate, free_slots_app, free_slots_zero. done.
Qed.

Lemma ring_of_recent h q i : ring_of h q -> (i < length h)%nat -> (length h <= i + TX_QUEUE_SIZE)%nat ->
  m_table q !! (i mod TX_QUEUE_SIZE)%nat = h !! i.
Proof.
  intros (_ & _ & Ht) Hi Hj. specialize (Ht (i + TX_QUEUE_SIZE - length h)%nat ltac:(lia)).
  replace (length h + (i + TX_QUEUE_SIZE - length h))%nat with (i + 1 * TX_QUEUE_SIZE)%nat in Ht by lia.
  rewrite Nat.Div0.mod_add in Ht. rewrite Ht, lookup_app_r, length_replicate by (rewrite length_replicate; lia).
  f_equal. lia.
Qed.

(** C10. When the driver frees what it has sent.  For any packets given to the NIC one
    after the other, the ring frees their [mbuf]s in the order in which they were
    given, each once, and an [mbuf] exactly when the segments given behind it fill a
    turn of the ring (512 slots, as many as the NIC has descriptors); the [mbuf]s that
    are not yet a turn old are in the ring, at their places. *)
Theorem txring_frees_later l s :
  exists q, enqueue_all l lazybsd_txring_init s =
      (s' ← free_slots (take (length (history l) - TX_QUEUE_SIZE) (history l)) s; Ok (q, s')) /\
    length (m_table q) = TX_QUEUE_SIZE /\
    forall i, (i < length (history l))%nat -> (length (history l) <= i + TX_QUEUE_SIZE)%nat ->
      m_table q !! (i mod TX_QUEUE_SIZE)%nat = history l !! i.
Proof.
  destruct (enqueue_all_spec l [] lazybsd_txring_init ring_of_init) as (q & Hr & E). rewrite app_nil_l in Hr.
  exists q. rewrite E, free_slots_evicted. split; [done|]. split; [apply Hr|].
  intros i. by apply ring_of_recent.
Qed.

(** Taking packets back from the ring reads outside of its table when [head] is 0:
    [head] has no value below 0, so that it becomes 65535. *)
Lemma txring_pop_at_start q num s :
  length (m_table q) = TX_QUEUE_SIZE -> head q = 0 -> 0 < num -> lazybsd_txring_pop q num s = Panic.
Proof.
  intros Hl Hh Hn. unfold lazybsd_txring_pop. destruct (Z.to_nat num) as [|n] eqn:E; [lia|].
  cbn [txring_pop]. unfold slot, set_head. cbn [m_table head]. rewrite Hh.
  change (Head_DEC 0) with 65535. rewrite lookup_ge_None_2; [done|]. rewrite Hl.
  unfold TX_QUEUE_SIZE. lia.
Qed.
End TxRing.
