(* ===== verification/Pages.v ===== *)
(** * Pages: the pages of the stack ([src/lazybsd_memory.cc])

    The stack gets its memory page by page from one region that [lazybsd_mmap_init]
    maps at the start; the free pages are kept on a stack ([StackList_t]), the physical
    addresses of all pages in a table, so that the driver can give the NIC the data of
    the stack where it lies ([lazybsd_chk_vma], [lazybsd_mem_virt2phy]).

    [mmap], [mlock], [posix_memalign] and [rte_mem_virt2phy] are the class [Os]. *)
From S2P Require Import Prelude Errno KernSubr.

Definition PAGE_SIZE : Z := 4096.
Definition PAGE_SHIFT : Z := 12.
Definition PAGE_MASK : Z := PAGE_SIZE - 1.

(** ** The stack of free pages *)

(** [ele] is the memory of the stack; [None] is NULL. *)
Record StackList_t := StackList { ele : option (gmap Z Z); size : Z; top : Z }.

Definition stklist_init (memalign : Z -> option (gmap Z Z)) (p : option StackList_t) (size : Z)
    : Z * option StackList_t :=
  match p with
  | None => (-1, None)
  | Some p =>
      if size <=? 0 then (-1, Some p) else
      match memalign (u64 (8 * u64 size)) with
      | None => (-2, Some (StackList (ele p) size 0))
      | Some e => (0, Some (StackList (Some e) size 0))
      end
  end.

(** The value is an address; NULL is 0. *)
Definition stklist_pop (p : option StackList_t) : outcome (Z * option StackList_t) :=
  match p with
  | None => Ok (0, None)
  | Some p =>
      if 0 <? top p then
        match ele p with
        | None => Panic
        | Some e => Ok (rd e (top p - 1), Some (StackList (Some e) (size p) (top p - 1)))
        end
      else Ok (0, Some p)
  end.

Definition stklist_push (p : option StackList_t) (val : Z) : outcome (Z * option StackList_t) :=
  match p with
  | None => Ok (-1, None)
  | Some p =>
      if top p <? size p then
        match ele p with
        | None => Panic
        | Some e => Ok (0, Some (StackList (Some (<[top p := val]> e)) (size p) (top p + 1)))
        end
      else Ok (-1, Some p)
  end.

Definition stklist_size (p : StackList_t) : Z := size p.

(** ** The region *)

(** [lazybsd_mpage_ctl], [lazybsd_page_start], [lazybsd_page_end],
    [lazybsd_mpage_phy], and the memory. *)
Record pages := Pages {
  mpage_ctl : StackList_t; page_start : Z; page_end : Z; mpage_phy : gmap Z Z; bytes : memory }.

Class Os := {
  mmap : Z -> Z;                        (** the address, or [(uint64_t)-1] *)
  mlock : Z -> Z -> Z;
  posix_memalign : Z -> option (gmap Z Z);
  rte_mem_virt2phy : Z -> Z;
  RTE_BAD_IOVA : Z }.

(** [memset(a, 0, n)] *)
Definition memset0 (a n : Z) (m : memory) : memory := foldr (fun i m => <[a + i := 0]> m) m (seqZ 0 n).

Section Pages.
Context `{Os}.

(** The loop from [i] on, with [n] pages to go. *)
Fixpoint mmap_init_loop (n : nat) (i : Z) (s : pages) : outcome pages :=
  match n with
  | O => Ok s
  | S n =>
      let virt_addr := u64 (page_start s + i32 (PAGE_SIZE * i)) in
      let m := memset0 virt_addr PAGE_SIZE (bytes s) in
      '(_, c) ← stklist_push (Some (mpage_ctl s)) virt_addr;
      let phy := rte_mem_virt2phy virt_addr in
      let s := Pages (default (mpage_ctl s) c) (page_start s) (page_end s)
                 (<[i := phy]> (mpage_phy s)) m in
      if phy =? RTE_BAD_IOVA then Panic else mmap_init_loop n (i + 1) s
  end.

(** [rte_panic] does not return. *)
Definition lazybsd_mmap_init (mem_size : Z) (s : pages) : outcome (Z * pages) :=
  let bsd_memsz := u64 (i32 (Z.shiftl mem_size 20)) in
  let start := mmap bsd_memsz in
  if start =? u64 (-1) then Panic
  else if mlock start bsd_memsz <? 0 then Panic
  else
    let bsd_pagesz := u32 (Z.shiftr bsd_memsz 12) in
    match posix_memalign (u64 (bsd_pagesz * 8)) with
    | None => Panic
    | Some phy =>
        let '(_, c) := stklist_init posix_memalign (Some (mpage_ctl s)) (i32 bsd_pagesz) in
        let s := Pages (default (mpage_ctl s) c) start (u64 (start + bsd_memsz)) phy (bytes s) in
        s ← mmap_init_loop (Z.to_nat bsd_pagesz) 0 s;
        Ok (0, s)
    end.

(** 1: the address is one of the pages. *)
Definition lazybsd_chk_vma (virtaddr : Z) (s : pages) : Z :=
  b2z ((page_start s <? virtaddr) && (virtaddr <? page_end s)).

Definition lazybsd_mem_virt2phy (virtaddr : Z) (s : pages) : outcome Z :=
  let pgs := u32 (Z.shiftr (u64 (virtaddr - page_start s)) PAGE_SHIFT) in
  if u32 (stklist_size (mpage_ctl s)) <=? pgs then Panic
  else Ok (u64 (rd (mpage_phy s) pgs + Z.land virtaddr PAGE_MASK)).

Definition set_ctl (c : option StackList_t) (s : pages) : pages :=
  Pages (default (mpage_ctl s) c) (page_start s) (page_end s) (mpage_phy s) (bytes s).

Definition lazybsd_mem_get_page (s : pages) : outcome (Z * pages) :=
  '(p, c) ← stklist_pop (Some (mpage_ctl s));
  Ok (p, set_ctl c s).

Definition lazybsd_mem_free_addr (p : Z) (s : pages) : outcome (Z * pages) :=
  '(_, c) ← stklist_push (Some (mpage_ctl s)) p;
  Ok (0, set_ctl c s).
End Pages.

(** ** Ownership of the pages *)
Section PagesFacts.
Context `{Os}.

(** The free pages, and all of them. *)
Definition free_pages (c : StackList_t) : list Z :=
  match ele c with Some e => rd e <$> seqZ 0 (top c) | None => [] end.
Definition all_pages (start n : Z) : list Z := (fun i => start + PAGE_SIZE * i) <$> seqZ 0 n.

(** The stack of free pages of [n] pages from [start] on, when [held] are in use. *)
Definition pages_inv (start n : Z) (held : list Z) (s : pages) : Prop :=
  let c := mpage_ctl s in
  ele c <> None /\ size c = n /\ 0 <= top c <= n /\ free_pages c ++ held ≡ₚ all_pages start n.

(** What the stack does with pages: it asks for them and gives back pages it has. *)
Inductive uses (s : pages) : list Z -> pages -> Prop :=
| uses_start : uses s [] s
| uses_get held s1 p s2 :
    uses s held s1 -> lazybsd_mem_get_page s1 = Ok (p, s2) ->
    uses s (if p =? 0 then held else p :: held) s2
| uses_free l1 l2 p s1 r s2 :
    uses s (l1 ++ p :: l2) s1 -> lazybsd_mem_free_addr p s1 = Ok (r, s2) -> uses s (l1 ++ l2) s2.

Lemma seqZ_snoc m n : 0 <= n -> seqZ m (n + 1) = seqZ m n ++ [m + n].
Proof. intros Hn. rewrite seqZ_app by lia. done. Qed.

Lemma length_free_pages c : 0 <= top c -> ele c <> None -> Z.of_nat (length (free_pages c)) = top c.
Proof. intros Ht He. unfold free_pages. destruct (ele c); [|done]. rewrite length_fmap, length_seqZ. lia. Qed.

Lemma all_pages_NoDup start n : NoDup (all_pages start n).
Proof.
  apply NoDup_fmap_2; [|apply NoDup_seqZ]. intros i j E. unfold PAGE_SIZE in E. lia.
Qed.

Lemma elem_of_all_pages start n p : p ∈ all_pages start n <-> exists i, 0 <= i < n /\ p = start + PAGE_SIZE * i.
Proof.
  unfold all_pages. rewrite list_elem_of_fmap. split.
  - intros (i & -> & Hi%elem_of_seqZ). exists i. split; [lia|done].
  - intros (i & Hi & ->). exists i. split; [done|]. apply elem_of_seqZ. lia.
Qed.

Lemma pages_inv_get start n held s : 0 < start -> pages_inv start n held s ->
  exists p s', lazybsd_mem_get_page s = Ok (p, s') /\
    (p = 0 /\ s' = s /\ Z.of_nat (length held) = n \/
     p <> 0 /\ p ∉ held /\ Z.of_nat (length held) < n /\ pages_inv start n (p :: held) s').
Proof.
  intros Hstart (He & Hs & Ht & Hp). pose proof (length_free_pages (mpage_ctl s) ltac:(lia) He) as Hlf.
  assert (length (free_pages (mpage_ctl s)) + length held = Z.to_nat n)%nat as Hlen.
  { rewrite <- length_app, Hp. unfold all_pages. by rewrite length_fmap, length_seqZ. }
  unfold lazybsd_mem_get_page, stklist_pop. destruct (Z.ltb_spec 0 (top (mpage_ctl s))) as [Hpos|Hz].
  2: { exists 0, s. cbn [mbind outcome_bind]. split; [by destruct s|]. left. split_and!; [done|done|lia]. }
  destruct (ele (mpage_ctl s)) as [e|] eqn:Ee; [|done]. cbn [mbind outcome_bind].
  set (p := rd e (top (mpage_ctl s) - 1)).
  assert (free_pages (mpage_ctl s) = (rd e <$> seqZ 0 (top (mpage_ctl s) - 1)) ++ [p]) as Efree.
  { unfold free_pages. rewrite Ee. replace (top (mpage_ctl s)) with (top (mpage_ctl s) - 1 + 1) at 1 by lia.
    rewrite seqZ_snoc, fmap_app by lia. done. }
  assert (p ∈ all_pages start n) as Hin.
  { rewrite <- Hp, Efree. set_solver. }
  eexists p, _. split; [done|]. right. split_and!.
  - apply elem_of_all_pages in Hin as (i & Hi & ->). unfold PAGE_SIZE. lia.
  - pose proof (all_pages_NoDup start n) as Hnd. rewrite <- Hp, Efree in Hnd.
    apply NoDup_app in Hnd as (_ & Hd & _). apply Hd. set_solver.
  - lia.
  - unfold pages_inv. cbn. split_and!; [done|done|lia|lia|].
    rewrite <- Hp, Efree, <- app_assoc. done.
Qed.

Lemma pages_inv_free start n l1 l2 p s : pages_inv start n (l1 ++ p :: l2) s ->
  exists s', lazybsd_mem_free_addr p s = Ok (0, s') /\ pages_inv start n (l1 ++ l2) s'.
Proof.
  intros (He & Hs & Ht & Hp). pose proof (length_free_pages (mpage_ctl s) ltac:(lia) He) as Hlf.
  assert (length (free_pages (mpage_ctl s)) + length (l1 ++ p :: l2) = Z.to_nat n)%nat as Hlen.
  { rewrite <- length_app, Hp. unfold all_pages. by rewrite length_fmap, length_seqZ. }
  rewrite length_app in Hlen. cbn in Hlen.
  unfold lazybsd_mem_free_addr, stklist_push. replace (_ <? _) with true by lia.
  destruct (ele (mpage_ctl s)) as [e|] eqn:Ee; [|done]. cbn [mbind outcome_bind].
  eexists. split; [done|]. unfold pages_inv. cbn. split_and!; [done|done|lia|lia|].
  unfold free_pages in *. rewrite Ee in Hp. cbn. rewrite seqZ_snoc, fmap_app by lia.
  cbn [fmap list_fmap]. rewrite Z.add_0_l, rd_insert, decide_True by done. rewrite <- Hp.
  assert (rd (<[top (mpage_ctl s) := p]> e) <$> seqZ 0 (top (mpage_ctl s)) = rd e <$> seqZ 0 (top (mpage_ctl s))) as ->.
  { apply list_fmap_ext. intros k i Hk%lookup_seqZ. rewrite rd_insert, decide_False by lia. done. }
  rewrite <- app_assoc. cbn. by rewrite Permutation_middle.
Qed.

Lemma uses_inv start n s held s' : 0 < start -> pages_inv start n [] s -> uses s held s' ->
  pages_inv start n held s'.
Proof.
  intros Hstart Hi Hu. induction Hu as [|held s1 p s2 _ IH E|l1 l2 p s1 r s2 _ IH E]; [done| |].
  - destruct (pages_inv_get _ _ _ _ Hstart IH) as (p' & s3 & E' & D). rewrite E' in E. injection E as <- <-.
    destruct D as [(-> & -> & _)|(Hp & _ & _ & D)]; [done|].
    by rewrite (proj2 (Z.eqb_neq p' 0) Hp).
  - destruct (pages_inv_free _ _ _ _ _ _ IH) as (s3 & E' & D). rewrite E' in E. by injection E as _ <-.
Qed.

(** ** The initialisation *)

Lemma rd_memset0 a n m b : rd (memset0 a n m) b = if decide (a <= b < a + n) then 0 else rd m b.
Proof.
  unfold memset0. assert (forall l, rd (foldr (fun i m => <[a + i := 0]> m) m l) b =
    if decide (b - a ∈ l) then 0 else rd m b) as E.
  { induction l as [|i l IH]; cbn [foldr]; [done|]. rewrite rd_insert, IH.
    destruct (decide (b = a + i)) as [->|].
    - rewrite decide_True; [done|]. replace (a + i - a) with i by lia. set_solver.
    - destruct (decide (b - a ∈ l)); [rewrite decide_True by set_solver; done|].
      rewrite decide_False; [done|]. intros [?|?]%elem_of_cons; [lia|done]. }
  rewrite E. repeat case_decide; try done; rewrite elem_of_seqZ in *; lia.
Qed.

(** The state of the loop at [i]: the pages below [i] are zero, on the stack and in
    the table. *)
Definition init_inv (start n i : Z) (s : pages) : Prop :=
  page_start s = start /\ size (mpage_ctl s) = n /\ top (mpage_ctl s) = i /\
  (forall b, start <= b < start + PAGE_SIZE * i -> rd (bytes s) b = 0) /\
  exists e, ele (mpage_ctl s) = Some e /\
    forall j, 0 <= j < i -> rd e j = start + PAGE_SIZE * j /\
      rd (mpage_phy s) j = rte_mem_virt2phy (start + PAGE_SIZE * j).

Lemma mmap_init_loop_spec k start n i s :
  init_inv start n i s -> 0 <= i -> i + Z.of_nat k = n -> n <= 524032 ->
  0 < start -> start + PAGE_SIZE * n < 18446744073709551616 ->
  (forall a, rte_mem_virt2phy a <> RTE_BAD_IOVA) ->
  exists s', mmap_init_loop k i s = Ok s' /\ init_inv start n n s' /\ page_end s' = page_end s.
Proof.
  revert i s. induction k as [|k IH]; intros i s Hi Hi0 Hk Hn Hstart Hend Hphy.
  { exists s. replace i with n in Hi by lia. done. }
  destruct Hi as (I1 & I2 & I3 & I0 & e & I4 & I5). cbn [mmap_init_loop].
  unfold PAGE_SIZE in *. rewrite I1, (i32_id (4096 * i)), u64_id by (unfold in_i32, in_u64; lia).
  unfold stklist_push. rewrite I2, I3, I4. replace (i <? n) with true by lia. cbn [mbind outcome_bind].
  rewrite (proj2 (Z.eqb_neq _ _) (Hphy _)).
  match goal with |- context [mmap_init_loop k (i + 1) ?st] => set (s1 := st) end.
  destruct (IH (i + 1) s1) as (s' & E & F1 & F2); try done; try lia; [|exists s'; auto].
  split_and!; [done|done|done| |].
  - intros b Hb. unfold PAGE_SIZE in Hb. cbn [bytes s1]. rewrite rd_memset0. case_decide; [done|]. apply I0. lia.
  - eexists. split; [done|]. intros j Hj. cbn [mpage_phy s1].
    rewrite !rd_insert. case_decide; [subst j; done|]. apply I5. lia.
Qed.

Lemma mmap_init_spec mem_size start s :
  0 < mem_size < 2048 -> mmap (mem_size * 1048576) = start ->
  0 < start -> start + mem_size * 1048576 < 18446744073709551615 ->
  0 <= mlock start (mem_size * 1048576) -> (forall n, posix_memalign n <> None) ->
  (forall a, rte_mem_virt2phy a <> RTE_BAD_IOVA) ->
  exists s1, lazybsd_mmap_init mem_size s = Ok (0, s1) /\
    init_inv start (mem_size * 256) (mem_size * 256) s1 /\ page_end s1 = start + mem_size * 1048576.
Proof.
  intros Hsz Hmap Hstart Hend Hlock Halign Hphy. unfold lazybsd_mmap_init.
  rewrite Z.shiftl_mul_pow2 by lia. change (2 ^ 20) with 1048576.
  rewrite i32_id, (u64_id (_ * _)) by (unfold in_i32, in_u64; lia). rewrite Hmap.
  replace (start =? u64 (-1)) with false by (change (u64 (-1)) with 18446744073709551615; lia).
  replace (mlock start (mem_size * 1048576) <? 0) with false by lia.
  rewrite Z.shiftr_div_pow2 by lia. change (2 ^ 12) with 4096.
  assert (mem_size * 1048576 / 4096 = mem_size * 256) as ->
    by (replace (mem_size * 1048576) with (mem_size * 256 * 4096) by lia; by rewrite Z.div_mul).
  rewrite (u32_id (mem_size * 256)), (i32_id (mem_size * 256)) by (unfold in_u32, in_i32; lia).
  destruct (posix_memalign (u64 (mem_size * 256 * 8))) as [phy|] eqn:Ephy; [|by destruct (Halign _ Ephy)].
  unfold stklist_init. replace (mem_size * 256 <=? 0) with false by lia.
  destruct (posix_memalign (u64 (8 * u64 (mem_size * 256)))) as [e|] eqn:Ee; [|by destruct (Halign _ Ee)].
  rewrite (u64_id (start + _)) by (unfold in_u64; lia). cbn [default].
  match goal with |- context [mmap_init_loop _ 0 ?st] => set (s0 := st) end.
  assert (init_inv start (mem_size * 256) 0 s0) as H0.
  { split_and!; try done; [intros; unfold PAGE_SIZE in *; lia|]. eexists. split; [done|]. intros; lia. }
  destruct (mmap_init_loop_spec (Z.to_nat (mem_size * 256)) start (mem_size * 256) 0 s0)
    as (s' & E & F1 & F2); try done; try (unfold PAGE_SIZE; lia).
  rewrite E. cbn [mbind outcome_bind]. exists s'. done.
Qed.

Lemma init_inv_pages start n s : 0 <= n -> init_inv start n n s -> pages_inv start n [] s.
Proof.
  intros Hn (I1 & I2 & I3 & _ & e & I4 & I5). unfold pages_inv. rewrite I2, I3, I4.
  split_and!; [done|done|lia|lia|]. rewrite app_nil_r. unfold free_pages. rewrite I4, I3.
  unfold all_pages. assert (rd e <$> seqZ 0 n = (fun i => start + PAGE_SIZE * i) <$> seqZ 0 n) as ->; [|done].
  apply list_fmap_ext. intros k i Hk%lookup_seqZ. apply I5. lia.
Qed.

(** The table is not changed by what the stack does. *)
Lemma uses_phy s held s' : uses s held s' ->
  page_start s' = page_start s /\ page_end s' = page_end s /\ mpage_phy s' = mpage_phy s /\
  size (mpage_ctl s') = size (mpage_ctl s).
Proof.
  induction 1 as [|held s1 p s2 _ (E1 & E2 & E3 & E4) E|l1 l2 p s1 r s2 _ (E1 & E2 & E3 & E4) E]; [done| |].
  - unfold lazybsd_mem_get_page, stklist_pop in E. destruct (0 <? _).
    + destruct (ele _); [|done]. injection E as <- <-. done.
    + injection E as <- <-. done.
  - unfold lazybsd_mem_free_addr, stklist_push in E. destruct (_ <? _).
    + destruct (ele _); [|done]. injection E as <- <-. done.
    + injection E as <- <-. done.
Qed.

Context (mem_size start : Z) (s : pages).
Context (Hsz : 0 < mem_size < 2048) (Hmap : mmap (mem_size * 1048576) = start).
Context (Hstart : 0 < start) (Hend : start + mem_size * 1048576 < 18446744073709551615).
Context (Hlock : 0 <= mlock start (mem_size * 1048576)) (Halign : forall n, posix_memalign n <> None).
Context (Hphy : forall a, rte_mem_virt2phy a <> RTE_BAD_IOVA).

(** C6. Ownership of the pages.  [lazybsd_mmap_init] for less than 2 GB succeeds, with
    all pages zero and free.  Whatever pages the stack then takes and gives back, in
    any order: those it holds are different pages of the region; asking for one more
    gives a page it does not hold, and gives NULL exactly when it holds them all; and
    giving back a page it holds succeeds. *)
Theorem pages_exclusive :
  exists s1, lazybsd_mmap_init mem_size s = Ok (0, s1) /\
    (forall b, start <= b < start + mem_size * 1048576 -> rd (bytes s1) b = 0) /\
    forall held s2, uses s1 held s2 ->
      NoDup held /\
      (forall p, p ∈ held -> exists i, 0 <= i < mem_size * 256 /\ p = start + PAGE_SIZE * i) /\
      (exists p s3, lazybsd_mem_get_page s2 = Ok (p, s3) /\
         (p = 0 <-> Z.of_nat (length held) = mem_size * 256) /\ (p <> 0 -> p ∉ held)) /\
      (forall p, p ∈ held -> exists s3, lazybsd_mem_free_addr p s2 = Ok (0, s3)).
Proof.
  destruct (mmap_init_spec mem_size start s) as (s1 & E & I & _); [done..|].
  exists s1. split; [done|]. split.
  { intros b Hb. apply I. unfold PAGE_SIZE. lia. }
  intros held s2 Hu. apply init_inv_pages in I; [|lia].
  pose proof (uses_inv _ _ _ _ _ Hstart I Hu) as Hi. pose proof Hi as (_ & _ & _ & Hp).
  pose proof (all_pages_NoDup start (mem_size * 256)) as Hnd. rewrite <- Hp in Hnd.
  apply NoDup_app in Hnd as (_ & _ & Hnd). split_and!; [done| | |].
  - intros p Hin. apply elem_of_all_pages. rewrite <- Hp. set_solver.
  - destruct (pages_inv_get _ _ _ _ Hstart Hi) as (p & s3 & Eg & D). exists p, s3. split; [done|].
    destruct D as [(-> & _ & Hl)|(Hn & Hni & Hl & _)]; [done|]. split; [split; [done|lia]|done].
  - intros p (l1 & l2 & ->)%list_elem_of_split. destruct (pages_inv_free _ _ _ _ _ _ Hi) as (s3 & Ef & _).
    by exists s3.
Qed.

(** Physical addresses.  After [lazybsd_mmap_init], whatever the stack has done with
    its pages, the address of a byte of the region is translated to the physical
    address of its page plus its offset in the page, and an address behind the region
    ends the program.  The test [lazybsd_chk_vma] that guards the translation knows all
    of the region but its first byte. *)
Theorem virt2phy_correct :
  start mod PAGE_SIZE = 0 ->
  exists s1, lazybsd_mmap_init mem_size s = Ok (0, s1) /\
    forall held s2, uses s1 held s2 ->
      (forall a, start <= a < start + mem_size * 1048576 ->
         lazybsd_mem_virt2phy a s2 = Ok (u64 (rte_mem_virt2phy (a - a mod PAGE_SIZE) + a mod PAGE_SIZE)) /\
         lazybsd_chk_vma a s2 = if a =? start then 0 else 1) /\
      (forall a, start + mem_size * 1048576 <= a < start + 17592186044416 ->
         a < 18446744073709551616 -> lazybsd_mem_virt2phy a s2 = Panic).
Proof.
  intros Hal. destruct (mmap_init_spec mem_size start s) as (s1 & E & I & Ee); [done..|].
  exists s1. split; [done|]. intros held s2 Hu. destruct (uses_phy _ _ _ Hu) as (U1 & U2 & U3 & U4).
  destruct I as (I1 & I2 & _ & _ & e & _ & I5). unfold PAGE_SIZE in *.
  assert (forall a, start <= a < start + 17592186044416 -> a < 18446744073709551616 ->
    u32 (Z.shiftr (u64 (a - page_start s2)) PAGE_SHIFT) = (a - start) / 4096 /\
    (a - start) / 4096 = a / 4096 - start / 4096) as Hpg.
  { intros a Ha Ha'. rewrite U1, I1, u64_id by (unfold in_u64; lia).
    rewrite Z.shiftr_div_pow2 by (unfold PAGE_SHIFT; lia). change (2 ^ PAGE_SHIFT) with 4096.
    pose proof (Z.div_mod (a - start) 4096). pose proof (Z.mod_pos_bound (a - start) 4096).
    split; [apply u32_id; unfold in_u32; lia|].
    pose proof (Z.div_mod a 4096). pose proof (Z.mod_pos_bound a 4096). pose proof (Z.div_mod start 4096). lia. }
  unfold lazybsd_mem_virt2phy, stklist_size. rewrite U4, I2, (u32_id (mem_size * 256)) by (unfold in_u32; lia).
  split.
  - intros a Ha. destruct (Hpg a) as [Hp1 Hp2]; [lia|lia|]. rewrite Hp1.
    pose proof (Z.div_mod (a - start) 4096). pose proof (Z.mod_pos_bound (a - start) 4096).
    pose proof (Z.div_mod a 4096). pose proof (Z.mod_pos_bound a 4096). pose proof (Z.div_mod start 4096).
    replace (mem_size * 256 <=? (a - start) / 4096) with false by lia.
    change PAGE_MASK with (Z.ones 12). rewrite Z.land_ones by lia. change (2 ^ 12) with 4096. split.
    + rewrite U3, (proj2 (I5 ((a - start) / 4096) ltac:(lia))). repeat f_equal. lia.
    + unfold lazybsd_chk_vma. rewrite U1, U2, I1, Ee. destruct (Z.eqb_spec a start) as [->|].
      * by rewrite Z.ltb_irrefl.
      * by replace ((start <? a) && _) with true by lia.
  - intros a Ha Ha'. destruct (Hpg a) as [Hp1 Hp2]; [lia|lia|]. rewrite Hp1.
    pose proof (Z.div_mod (a - start) 4096). pose proof (Z.mod_pos_bound (a - start) 4096).
    by replace (mem_size * 256 <=? (a - start) / 4096) with true by lia.
Qed.
End PagesFacts.

(** ** Examples *)

#[export] Instance example_os : Os := {
  mmap n := 1048576; mlock a n := 0; posix_memalign n := Some ∅;
  rte_mem_virt2phy a := Z.abs a + 4096; RTE_BAD_IOVA := -1 }.

Definition no_pages : pages := Pages (StackList None 0 0) 0 0 ∅ ∅.

(** For 2 GB the size of the region overflows. *)
Example mem_size_overflow : u64 (i32 (Z.shiftl 2048 20)) = 18446744071562067968.
Proof. by vm_compute. Qed.

Lemma pages_exclusive_witness :
  exists s1, lazybsd_mmap_init 1 no_pages = Ok (0, s1) /\
    exists p s2, lazybsd_mem_get_page s1 = Ok (p, s2) /\ p <> 0.
Proof.
  destruct (pages_exclusive 1 1048576 no_pages) as (s1 & E & _ & F);
    [lia|done|lia|lia|done|done|intros a; cbn; lia|].
  exists s1. split; [exact E|]. destruct (F [] s1 (uses_start s1)) as (_ & _ & (p & s2 & G & Hp & _) & _).
  exists p, s2. split; [exact G|]. intros H0. apply Hp in H0. cbn in H0. lia.
Defined.

Lemma virt2phy_correct_witness :
  exists s1, lazybsd_mmap_init 1 no_pages = Ok (0, s1) /\
    lazybsd_mem_virt2phy 1052673 s1 = Ok 1056769 /\ lazybsd_chk_vma 1048576 s1 = 0.
Proof.
  destruct (virt2phy_correct 1 1048576 no_pages) as (s1 & E & F);
    [lia|done|lia|lia|done|done|intros a; cbn; lia|done|].
  exists s1. split; [exact E|]. destruct (F [] s1 (uses_start s1)) as [G _]. split.
  - destruct (G 1052673) as [-> _]; [lia|by vm_compute].
  - by destruct (G 1048576) as [_ ->]; [lia|].
Defined.
