(* ===== verification/Kmem.v ===== *)
(** * Kmem: the memory of the kernel

    The kernel of FreeBSD asks for memory in two ways.  Regions of pages ([kmem_malloc],
    [kmem_free] of [bsd/lib/lazybsd_patch.c]) are maps of the host ([lazybsd_mmap],
    [lazybsd_munmap] of [src/lazybsd_host.c]), except that a region of one page comes from the
    pages of the stack ([Pages]).  Blocks ([__malloc], [__realloc] and so on) are blocks of the C
    library.

    The host, with its maps and blocks, is a state [H] with the operations [HostMemory]; what POSIX
    says about them is [HostMemoryDoc].  The file ends with the clocks of the host. *)
From S2P Require Import Prelude Errno KernSubr Pages.

(** ** The host *)

(** A request for a map: the address, the length, the protection and the flags; the file is
    [fd] at [off]. *)
Class HostMemory (H : Type) := {
  h_mmap (addr len prot flags fd off : Z) : H -> Z * H;
  h_munmap (addr len : Z) : H -> Z * H;
  h_malloc (size : Z) : H -> Z * H;
  h_calloc (number size : Z) : H -> Z * H;
  h_realloc (p size : Z) : H -> Z * H;
  h_free (p : Z) : H -> H }.

(** The constants of the headers of the host and of FreeBSD. *)
Class HostFlags := {
  PROT_READ : Z; PROT_WRITE : Z; MAP_SHARED : Z; MAP_PRIVATE : Z; MAP_ANON : Z;
  M_WAITOK : Z; M_ZERO : Z }.

Definition lazybsd_PROT_READ : Z := 0x01.
Definition lazybsd_PROT_WRITE : Z := 0x02.
Definition lazybsd_MAP_SHARED : Z := 0x0001.
Definition lazybsd_MAP_PRIVATE : Z := 0x0002.
Definition lazybsd_MAP_ANON : Z := 0x1000.

(** The host and the pages, with the memory. *)
Record kmem (H : Type) := Kmem { host : H; pg : pages }.
Arguments Kmem {H} _ _.
Arguments host {H} _.
Arguments pg {H} _.

Definition bzero {H} (a n : Z) (s : kmem H) : kmem H :=
  let p := pg s in Kmem (host s) (Pages (mpage_ctl p) (page_start p) (page_end p) (mpage_phy p) (memset0 a n (bytes p))).

Section Kmem.
Context {H : Type} `{HostMemory H} `{HostFlags} `{Os}.

Definition K (A : Type) : Type := kmem H -> outcome (A * kmem H).
#[local] Instance K_ret : MRet K := fun A a s => Ok (a, s).
#[local] Instance K_bind : MBind K := fun A B f m s =>
  match m s with Ok (a, s) => f a s | Panic => Panic | Diverge => Diverge end.

Definition on_host {A} (f : H -> A * H) : K A := fun s => let '(a, h) := f (host s) in Ok (a, Kmem h (pg s)).
Definition on_pages {A} (f : pages -> outcome (A * pages)) : K A := fun s =>
  match f (pg s) with Ok (a, p) => Ok (a, Kmem (host s) p) | Panic => Panic | Diverge => Diverge end.
Definition wipe (a n : Z) : K unit := fun s => Ok ((), bzero a n s).
Definition die {A} : K A := fun _ => Panic.

(** ** [src/lazybsd_host.c] *)

Definition has_all (flags mask : Z) : bool := Z.land flags mask =? mask.
Definition host_prot (prot : Z) : Z :=
  Z.lor (if has_all prot lazybsd_PROT_READ then PROT_READ else 0) (if has_all prot lazybsd_PROT_WRITE then PROT_WRITE else 0).
Definition host_flags (flags : Z) : Z :=
  Z.lor (Z.lor (if has_all flags lazybsd_MAP_SHARED then MAP_SHARED else 0) (if has_all flags lazybsd_MAP_PRIVATE then MAP_PRIVATE else 0))
    (if has_all flags lazybsd_MAP_ANON then MAP_ANON else 0).

(** A map that fails ends the process. *)
Definition lazybsd_mmap (addr len prot flags fd off : Z) : K Z :=
  if len =? 4096 then on_pages lazybsd_mem_get_page
  else
    ret ← on_host (h_mmap addr len (host_prot prot) (host_flags flags) fd off);
    if ret =? u64 (-1) then die else mret ret.

Definition lazybsd_munmap (addr len : Z) : K Z :=
  if len =? 4096 then on_pages (lazybsd_mem_free_addr addr) else on_host (h_munmap addr len).

Definition lazybsd_malloc (size : Z) : K Z := on_host (h_malloc size).
Definition lazybsd_calloc (number size : Z) : K Z := on_host (h_calloc number size).
Definition lazybsd_realloc (p size : Z) : K Z := if negb (size =? 0) then on_host (h_realloc p size) else mret p.
Definition lazybsd_free (p : Z) : K unit := on_host (fun h => ((), h_free p h)).

(** ** [bsd/lib/lazybsd_patch.c] *)

Definition has_any (flags mask : Z) : bool := negb (Z.land flags mask =? 0).

Definition kmem_malloc (bytes flags : Z) : K Z :=
  alloc ← lazybsd_mmap 0 bytes (Z.lor lazybsd_PROT_READ lazybsd_PROT_WRITE) (Z.lor lazybsd_MAP_ANON lazybsd_MAP_PRIVATE) (-1) 0;
  _ ← (if has_any flags M_ZERO && negb (alloc =? 0) then wipe alloc bytes else mret ());
  mret alloc.

Definition kmem_free (addr size : Z) : K unit := _ ← lazybsd_munmap addr size; mret ().

(** The address range, the alignment and the boundary are not used. *)
Definition kmem_alloc_contig (size flags low high alignment boundary : Z) : K Z := kmem_malloc size flags.
Definition kmem_malloc_domainset (ds size flags : Z) : K Z := kmem_malloc size flags.

(** The loop of [__malloc]; [pause] returns at once. *)
Fixpoint malloc_loop (fuel : nat) (size flags : Z) : K Z := fun s =>
  match fuel with
  | O => Diverge
  | S fuel =>
      match lazybsd_malloc size s with
      | Ok (alloc, s) => if negb (alloc =? 0) || negb (has_any flags M_WAITOK) then Ok (alloc, s) else malloc_loop fuel size flags s
      | Panic => Panic
      | Diverge => Diverge
      end
  end.

Definition __malloc (fuel : nat) (size flags : Z) : K Z :=
  alloc ← malloc_loop fuel size flags;
  _ ← (if has_any flags M_ZERO && negb (alloc =? 0) then wipe alloc size else mret ());
  mret alloc.

Definition __free (addr : Z) : K unit := lazybsd_free addr.
Definition __realloc (addr size flags : Z) : K Z := lazybsd_realloc addr size.
Definition __reallocf (addr size flags : Z) : K Z :=
  mem ← lazybsd_realloc addr size;
  _ ← (if mem =? 0 then lazybsd_free addr else mret ());
  mret mem.

(** The product of the two [size_t] wraps around. *)
Definition mallocarray (fuel : nat) (nmemb size flags : Z) : K Z := __malloc fuel (u64 (size * nmemb)) flags.
Definition malloc_domainset (fuel : nat) (size flags : Z) : K Z := __malloc fuel size flags.
Definition malloc_exec (fuel : nat) (size flags : Z) : K Z := __malloc fuel size flags.

(** ** Regions *)

(** The regions that the kernel has, as it allocates and frees them: it asks for more than
    nothing and gives back what it has, with its size.  A page may be missing. *)
Inductive regions (s0 : kmem H) : list (Z * Z) -> kmem H -> Prop :=
| regions_start : regions s0 [] s0
| regions_alloc held s1 size flags a s2 :
    regions s0 held s1 -> 0 < size -> kmem_malloc size flags s1 = Ok (a, s2) ->
    regions s0 (if a =? 0 then held else (a, size) :: held) s2
| regions_free l1 l2 a size s1 s2 :
    regions s0 (l1 ++ (a, size) :: l2) s1 -> kmem_free a size s1 = Ok ((), s2) -> regions s0 (l1 ++ l2) s2.

Definition apart (x y : Z * Z) : Prop := x.1 + x.2 <= y.1 \/ y.1 + y.2 <= x.1.
Definition all_apart (l : list (Z * Z)) : Prop := NoDup l /\ forall x y, x ∈ l -> y ∈ l -> x = y \/ apart x y.
End Kmem.

(** What POSIX says about maps: [mapped h] are those of the process.  A new map is apart from
    all of them; a map that is given back whole is no longer one. *)
Class HostMemoryDoc (H : Type) `{HostMemory H} := {
  mapped : H -> list (Z * Z);
  doc_mmap len prot flags fd off h a h' : 0 < len -> h_mmap 0 len prot flags fd off h = (a, h') ->
    a = u64 (-1) /\ mapped h' = mapped h \/
    0 < a /\ a + len < 2 ^ 64 /\ Forall (apart (a, len)) (mapped h) /\ mapped h' = (a, len) :: mapped h;
  doc_munmap a len h r h' l1 l2 : mapped h ≡ₚ l1 ++ (a, len) :: l2 -> h_munmap a len h = (r, h') -> mapped h' ≡ₚ l1 ++ l2 }.

Section KmemFacts.
Context {H : Type} `{HostMemoryDoc H} `{HostFlags} `{Os}.

Lemma all_apart_perm l l' : l ≡ₚ l' -> all_apart l -> all_apart l'.
Proof.
  intros E [Hn Ha]. split; [by rewrite <- E|]. intros x y Hx Hy. apply Ha; by rewrite E.
Qed.

Lemma all_apart_app l l' : all_apart (l ++ l') -> all_apart l /\ all_apart l'.
Proof. intros [(Hn & _ & Hn')%NoDup_app Ha]. split; split; try done; intros x y Hx Hy; apply Ha; set_solver. Qed.

Lemma apart_sym x y : apart x y -> apart y x.
Proof. unfold apart. lia. Qed.

Lemma all_apart_cons x l : 0 < x.2 -> Forall (apart x) l -> all_apart l -> all_apart (x :: l).
Proof.
  intros Hx Hf [Hn Ha]. split.
  - apply NoDup_cons. split; [|done]. intros Hin. rewrite Forall_forall in Hf. specialize (Hf x Hin). unfold apart in Hf. lia.
  - rewrite Forall_forall in Hf. intros a b [->|Ha']%elem_of_cons [->|Hb]%elem_of_cons; [by left|right; by apply Hf|right; by apply apart_sym, Hf|by apply Ha].
Qed.

(** The regions of one page, and the others. *)
Definition one_page (r : Z * Z) : Prop := r.2 = PAGE_SIZE.
#[local] Instance one_page_dec r : Decision (one_page r).
Proof. unfold one_page. apply _. Defined.
Definition page_regions (held : list (Z * Z)) : list Z := fst <$> filter one_page held.
Definition map_regions (held : list (Z * Z)) : list (Z * Z) := filter (fun r => ~ one_page r) held.

Context (start n : Z) (Hstart : 0 < start).

(** The pages that are not free are the regions of one page; the other regions are maps of the host,
    as is the region of the pages. *)
Definition kmem_inv (held : list (Z * Z)) (s : kmem H) : Prop :=
  pages_inv start n (page_regions held) (pg s) /\
  (exists rest, mapped (host s) ≡ₚ map_regions held ++ (start, n * PAGE_SIZE) :: rest) /\ all_apart (mapped (host s)).

Lemma bzero_inv a m held s : kmem_inv held s -> kmem_inv held (bzero a m s).
Proof. done. Qed.

Lemma page_regions_app l l' : page_regions (l ++ l') = page_regions l ++ page_regions l'.
Proof. unfold page_regions. by rewrite filter_app, fmap_app. Qed.
Lemma map_regions_app l l' : map_regions (l ++ l') = map_regions l ++ map_regions l'.
Proof. unfold map_regions. by rewrite filter_app. Qed.
Lemma page_regions_cons a m l : page_regions ((a, m) :: l) = if m =? PAGE_SIZE then a :: page_regions l else page_regions l.
Proof. unfold page_regions. rewrite filter_cons. unfold one_page at 1. destruct (Z.eqb_spec m PAGE_SIZE); by case_decide. Qed.
Lemma map_regions_cons a m l : map_regions ((a, m) :: l) = if m =? PAGE_SIZE then map_regions l else (a, m) :: map_regions l.
Proof. unfold map_regions. rewrite filter_cons. unfold one_page at 1. destruct (Z.eqb_spec m PAGE_SIZE); by case_decide. Qed.

Lemma alloc_inv held s size flags a s' : kmem_inv held s -> 0 < size -> kmem_malloc size flags s = Ok (a, s') ->
  kmem_inv (if a =? 0 then held else (a, size) :: held) s'.
Proof.
  intros (Hp & (rest & Hm) & Ha) Hsize. unfold kmem_malloc, lazybsd_mmap, mbind, K_bind.
  destruct (Z.eqb_spec size 4096) as [->|Hne].
  - unfold on_pages. destruct (pages_inv_get _ _ _ _ Hstart Hp) as (p & s1 & -> & D).
    intros E. assert (a = p /\ (s' = Kmem (host s) s1 \/ s' = bzero p 4096 (Kmem (host s) s1))) as [-> Hs'].
    { destruct (_ && _); injection E as <- <-; auto. }
    assert (kmem_inv (if p =? 0 then held else (p, 4096) :: held) (Kmem (host s) s1)) as Hi.
    { destruct D as [(-> & -> & _)|(Hne & _ & _ & Hi)]; [by split; [|split; [exists rest|]]|].
      rewrite (proj2 (Z.eqb_neq _ _) Hne). unfold kmem_inv. rewrite page_regions_cons, map_regions_cons. cbn. eauto. }
    destruct Hs' as [->| ->]; [done|]. by apply bzero_inv.
  - unfold on_host. destruct (h_mmap _ _ _ _ _ _ _) as [a1 h1] eqn:Em.
    destruct (a1 =? u64 (-1)) eqn:Ef; [done|]. apply doc_mmap in Em; [|done].
    destruct Em as [[-> _]|(Hpos & Hmax & Hapart & Hm')]; [by rewrite Z.eqb_refl in Ef|].
    intros E. assert (a = a1 /\ (s' = Kmem h1 (pg s) \/ s' = bzero a1 size (Kmem h1 (pg s)))) as [-> Hs'].
    { cbn [mret K_ret] in E. destruct (_ && _); injection E as <- <-; auto. }
    rewrite (proj2 (Z.eqb_neq a1 0)) by lia.
    assert (kmem_inv ((a1, size) :: held) (Kmem h1 (pg s))) as Hi.
    { unfold kmem_inv. rewrite page_regions_cons, map_regions_cons. change PAGE_SIZE with 4096 at 1 2. rewrite (proj2 (Z.eqb_neq _ _) Hne).
      cbn [host pg]. rewrite Hm'. split; [done|]. split; [exists rest; by rewrite Hm|]. by apply all_apart_cons. }
    destruct Hs' as [->| ->]; [done|]. by apply bzero_inv.
Qed.

Lemma free_inv l1 l2 a size s : kmem_inv (l1 ++ (a, size) :: l2) s ->
  exists s', kmem_free a size s = Ok ((), s') /\ kmem_inv (l1 ++ l2) s'.
Proof.
  intros (Hp & (rest & Hm) & Ha). unfold kmem_free, lazybsd_munmap, mbind, K_bind.
  rewrite page_regions_app, page_regions_cons in Hp. rewrite map_regions_app, map_regions_cons in Hm.
  unfold kmem_inv. rewrite page_regions_app, map_regions_app. change PAGE_SIZE with 4096 in Hp at 1. change PAGE_SIZE with 4096 in Hm at 1.
  destruct (size =? 4096) eqn:E.
  - destruct (pages_inv_free _ _ _ _ _ _ Hp) as (s1 & Ef & Hp1). unfold on_pages. rewrite Ef. eexists. split; [reflexivity|]. eauto.
  - unfold on_host. destruct (h_munmap a size (host s)) as [r h'] eqn:Eu. eexists. split; [reflexivity|]. cbn [host pg].
    rewrite <- (assoc_L (++)) in Hm.
    assert (mapped h' ≡ₚ map_regions l1 ++ (map_regions l2 ++ (start, n * PAGE_SIZE) :: rest)) as Hm' by exact (doc_munmap _ _ _ _ _ _ _ Hm Eu).
    rewrite (assoc_L (++)) in Hm'.
    split; [done|]. split; [by exists rest|]. apply (all_apart_perm _ _ (Permutation_sym Hm')).
    apply (all_apart_perm _ _ Hm) in Ha. cbn in Ha.
    apply (all_apart_perm _ (((a, size) :: map_regions l1 ++ map_regions l2) ++ (start, n * PAGE_SIZE) :: rest)) in Ha.
    + apply (all_apart_app [(a, size)]) in Ha as [_ Ha]. done.
    + cbn. rewrite <- (assoc_L (++)). symmetry. apply Permutation_middle.
Qed.

Lemma regions_inv s0 held s : kmem_inv [] s0 -> regions s0 held s -> kmem_inv held s.
Proof.
  intros H0' Hr. induction Hr as [|held s1 size flags a s2 _ IH Hs E|l1 l2 a size s1 s2 _ IH E]; [done| |].
  - by eapply alloc_inv.
  - destruct (free_inv _ _ _ _ _ IH) as (s' & E' & I). rewrite E' in E. by injection E as <-.
Qed.

Lemma inv_apart held s : kmem_inv held s -> all_apart held.
Proof.
  intros ((_ & _ & _ & Hp) & (rest & Hm) & Ha). apply (all_apart_perm _ _ Hm) in Ha.
  pose proof (all_pages_NoDup start n) as Hnd. rewrite <- Hp in Hnd. apply NoDup_app in Hnd as (_ & _ & Hnd).
  assert (forall a m, (a, m) ∈ filter one_page held -> m = PAGE_SIZE /\ exists i, 0 <= i < n /\ a = start + PAGE_SIZE * i) as Hpage.
  { intros a m Hin. pose proof Hin as [Hm' _]%list_elem_of_filter. split; [done|]. apply elem_of_all_pages. rewrite <- Hp.
    apply elem_of_app. right. apply list_elem_of_fmap. by exists (a, m). }
  apply (all_apart_perm (filter one_page held ++ map_regions held)); [apply filter_app_complement|].
  assert (forall x a m, x ∈ map_regions held -> (a, m) ∈ filter one_page held -> apart x (a, m)) as Hmix.
  { intros [b k] a m Hx (-> & i & Hi & ->)%Hpage. destruct Ha as [(_ & Hd & _)%NoDup_app Ha].
    destruct (Ha (b, k) (start, n * PAGE_SIZE)) as [E|Hap]; [set_solver|set_solver| |].
    - exfalso. apply (Hd (b, k) Hx). rewrite E. set_solver.
    - unfold apart, PAGE_SIZE in *. cbn in *. lia. }
  split.
  - apply NoDup_app. split; [by eapply NoDup_fmap_1|]. split; [|by apply all_apart_app in Ha as [[? _] _]].
    intros x [Hx _]%list_elem_of_filter [Hx' _]%list_elem_of_filter. done.
  - intros [a m] [b k] [Hx|Hx]%elem_of_app [Hy|Hy]%elem_of_app.
    + destruct (Hpage a m Hx) as (-> & i & Hi & ->), (Hpage b k Hy) as (-> & j & Hj & ->).
      destruct (decide (i = j)) as [->|]; [by left|]. right. unfold apart, PAGE_SIZE. cbn. lia.
    + right. by apply apart_sym, Hmix.
    + right. by apply Hmix.
    + destruct Ha as [_ Ha]. apply Ha; set_solver.
Qed.

Lemma malloc_zero size flags a s s' b : kmem_malloc size flags s = Ok (a, s') -> has_any flags M_ZERO = true -> a <> 0 ->
  a <= b < a + size -> rd (bytes (pg s')) b = 0.
Proof.
  unfold kmem_malloc, mbind, K_bind. destruct (lazybsd_mmap _ _ _ _ _ _ s) as [[a1 s1]| |]; [|done..].
  intros E Hz Hn Hb. rewrite Hz in E. cbn [andb] in E. destruct (negb (a1 =? 0)) eqn:Ez.
  - injection E as <- <-. cbn. by rewrite rd_memset0, decide_True.
  - injection E as <- <-. apply negb_false_iff, Z.eqb_eq in Ez. done.
Qed.

(** The start of the pages establishes the invariant, when the region of the pages is a map. *)
Lemma kmem_start_inv h p : 0 <= n -> init_inv start n n p -> mapped h = [(start, n * PAGE_SIZE)] -> kmem_inv [] (Kmem h p).
Proof.
  intros Hn I Hm. split; [by apply init_inv_pages|]. unfold map_regions. cbn [host]. rewrite Hm. split; [by exists []|].
  split; [apply NoDup_singleton|]. intros x y -> %list_elem_of_singleton -> %list_elem_of_singleton. by left.
Qed.

End KmemFacts.

(** ** Blocks *)
Section Blocks.
Context {H : Type} `{HostMemory H} `{HostFlags} `{Os}.

(** The host after [k] attempts, and what the next one gives. *)
Fixpoint after_attempts (size : Z) (k : nat) (h : H) : H :=
  match k with O => h | S k => after_attempts size k (h_malloc size h).2 end.
Definition attempt (size : Z) (k : nat) (h : H) : Z := (h_malloc size (after_attempts size k h)).1.

Lemma malloc_loop_waits size flags k : forall fuel s, has_any flags M_WAITOK = true -> (k < fuel)%nat ->
  (forall j, (j < k)%nat -> attempt size j (host s) = 0) -> attempt size k (host s) <> 0 ->
  malloc_loop fuel size flags s = Ok (attempt size k (host s), Kmem (after_attempts size (S k) (host s)) (pg s)).
Proof.
  induction k as [|k IH]; intros [|fuel] s Hw Hf Hz Hk; try lia; cbn [malloc_loop]; unfold lazybsd_malloc, on_host.
  - unfold attempt in *. cbn in *. destruct (h_malloc size (host s)) as [a h']. cbn in *.
    by rewrite (proj2 (Z.eqb_neq _ _) Hk).
  - pose proof (Hz 0%nat ltac:(lia)) as H0'. unfold attempt in H0'. cbn in H0'.
    destruct (h_malloc size (host s)) as [a h'] eqn:E. cbn in H0'. subst a. rewrite Hw. cbn [Z.eqb negb orb].
    assert (forall j, attempt size (S j) (host s) = attempt size j h') as Hj by (intros j; unfold attempt; cbn; by rewrite E).
    rewrite IH; cbn [host pg]; [|done|lia| |].
    + rewrite Hj. do 3 f_equal. cbn. by rewrite E.
    + intros j Hlt. rewrite <- Hj. apply Hz. lia.
    + by rewrite <- Hj.
Qed.

(** [__malloc] that may wait gives a block as soon as the host does: the one of the first attempt
    that succeeds, which is zero if [M_ZERO] asks for it; NULL comes only from a call that may not
    wait, whose one attempt failed.  While the host gives none, a call that may wait does not return. *)
Theorem malloc_waits size flags s :
  (forall k, has_any flags M_WAITOK = true -> (forall j, (j < k)%nat -> attempt size j (host s) = 0) -> attempt size k (host s) <> 0 ->
     exists s', returns (fun fuel => __malloc fuel size flags s) (attempt size k (host s), s') /\ host s' = after_attempts size (S k) (host s) /\
       (has_any flags M_ZERO = true -> forall b, attempt size k (host s) <= b < attempt size k (host s) + size -> rd (bytes (pg s')) b = 0)) /\
  (has_any flags M_WAITOK = false -> exists s', returns (fun fuel => __malloc fuel size flags s) (attempt size 0 (host s), s') /\
     host s' = after_attempts size 1 (host s)) /\
  (has_any flags M_WAITOK = true -> (forall j, attempt size j (host s) = 0) -> forall fuel, __malloc fuel size flags s = Diverge).
Proof.
  split_and!.
  - intros k Hw Hz Hk. set (a := attempt size k (host s)) in *. set (s1 := Kmem (after_attempts size (S k) (host s)) (pg s)).
    exists (if has_any flags M_ZERO then bzero a size s1 else s1). split; [|split].
    + exists (S k). intros fuel Hf. unfold __malloc, mbind, K_bind. rewrite (malloc_loop_waits _ _ k) by (done || lia). fold a s1.
      rewrite (proj2 (Z.eqb_neq _ _) Hk). by destruct (has_any flags M_ZERO).
    + by destruct (has_any flags M_ZERO).
    + intros -> b Hb. cbn. by rewrite rd_memset0, decide_True.
  - intros Hw. set (a := attempt size 0 (host s)). set (s1 := Kmem (after_attempts size 1 (host s)) (pg s)).
    exists (if has_any flags M_ZERO && negb (a =? 0) then bzero a size s1 else s1). split.
    + exists 1%nat. intros [|fuel] Hf; [lia|]. unfold __malloc, mbind, K_bind. cbn [malloc_loop]. unfold lazybsd_malloc, on_host.
      unfold s1, a, attempt. cbn [after_attempts]. destruct (h_malloc size (host s)) as [p h']. rewrite Hw, orb_true_r. cbn [fst snd].
      by destruct (has_any flags M_ZERO && negb (p =? 0)).
    + by destruct (_ && _).
  - intros Hw Hz fuel. unfold __malloc, mbind, K_bind.
    assert (malloc_loop fuel size flags s = Diverge) as ->; [|done]. revert s Hz. induction fuel as [|fuel IH]; intros s Hz; [done|].
    cbn [malloc_loop]. unfold lazybsd_malloc, on_host. pose proof (Hz 0%nat) as H0'. unfold attempt in H0'. cbn in H0'.
    destruct (h_malloc size (host s)) as [a h'] eqn:E. cbn in H0'. subst a. rewrite Hw. cbn [Z.eqb negb orb]. apply IH.
    intros j. specialize (Hz (S j)). unfold attempt in *. cbn in Hz. by rewrite E in Hz.
Qed.

(** [__reallocf] gives up the block exactly if there is no other. *)
Lemma reallocf_frees addr size flags s : size <> 0 ->
  let '(p, h) := h_realloc addr size (host s) in
  __reallocf addr size flags s = Ok (p, Kmem (if p =? 0 then h_free addr h else h) (pg s)).
Proof.
  intros Hs. destruct (h_realloc addr size (host s)) as [p h] eqn:E. unfold __reallocf, lazybsd_realloc, mbind, K_bind.
  rewrite (proj2 (Z.eqb_neq _ _) Hs). unfold on_host. cbn [negb]. rewrite E. by destruct (p =? 0).
Qed.

(** A size of zero leaves the block as it is. *)
Lemma realloc_zero addr flags s : __realloc addr 0 flags s = Ok (addr, s).
Proof. done. Qed.

(** [mallocarray] of [2^61 + 1] elements of 8 bytes asks for 8 bytes. *)
Lemma mallocarray_wraps fuel flags : mallocarray fuel (2 ^ 61 + 1) 8 flags = __malloc fuel 8 flags.
Proof. done. Qed.
End Blocks.

(** ** The clocks of [src/lazybsd_host.c]

    [clock_gettime] of the host, which fails only for a clock that it does not have: then the process ends. *)
Class HostClock := { CLOCK_REALTIME : Z; CLOCK_MONOTONIC : Z; h_clock : Z -> option (Z * Z) }.

Definition lazybsd_CLOCK_REALTIME : Z := 0.
Definition lazybsd_CLOCK_MONOTONIC : Z := 4.
Definition lazybsd_NSEC_PER_SEC : Z := 1000 * 1000 * 1000.

Section Clocks.
Context `{HostClock}.

Definition lazybsd_clock_gettime (id : Z) : outcome (Z * Z) :=
  let host_id := if id =? lazybsd_CLOCK_REALTIME then CLOCK_REALTIME else CLOCK_MONOTONIC in
  match h_clock host_id with Some ts => Ok ts | None => Panic end.

Definition lazybsd_clock_gettime_ns (id : Z) : outcome Z :=
  match lazybsd_clock_gettime id with
  | Ok (sec, nsec) => Ok (u64 (u64 (u64 sec * lazybsd_NSEC_PER_SEC) + nsec))
  | Panic => Panic
  | Diverge => Diverge
  end.

(** [current_ts], the time that the main loop keeps for [gettimeofday]. *)
Definition lazybsd_update_current_ts : outcome (Z * Z) :=
  match h_clock CLOCK_REALTIME with Some ts => Ok ts | None => Panic end.
Definition lazybsd_get_current_time (current_ts : Z * Z) (sec nsec : option Z) : option Z * option Z :=
  ((fun _ => current_ts.1) <$> sec, (fun _ => current_ts.2) <$> nsec).

(** [lazybsd_tc_get_timecount] of [bsd/lib/lazybsd_kern_timeout.c], at [ns] nanoseconds of the processor's counter. *)
Definition lazybsd_tc_get_timecount (tc_frequency ns : Z) : Z := u32 (u64 (ns * tc_frequency) / lazybsd_NSEC_PER_SEC).

(** The nanoseconds are exact for 584 years. *)
Lemma clock_ns_exact id sec nsec : lazybsd_clock_gettime id = Ok (sec, nsec) -> 0 <= sec < 18446744073 -> 0 <= nsec < lazybsd_NSEC_PER_SEC ->
  lazybsd_clock_gettime_ns id = Ok (sec * lazybsd_NSEC_PER_SEC + nsec).
Proof.
  intros E Hs Hn. unfold lazybsd_clock_gettime_ns, lazybsd_NSEC_PER_SEC in *. rewrite E. rewrite (u64_id sec), (u64_id (_ * _)), u64_id by (unfold in_u64; lia). done.
Qed.

(** With 100 ticks a second the counter counts them, as 32 bits, for 5.8 years; then the product of 64
    bits overflows and it jumps to zero. *)
Lemma timecount_exact ns : 0 <= ns <= 184467440737095516 -> lazybsd_tc_get_timecount 100 ns = u32 (ns * 100 / lazybsd_NSEC_PER_SEC).
Proof. intros Hns. unfold lazybsd_tc_get_timecount. rewrite u64_id by (unfold in_u64; lia). done. Qed.
Example timecount_jumps :
  lazybsd_tc_get_timecount 100 184467440737095516 = 1266874889 /\ lazybsd_tc_get_timecount 100 184467440737095517 = 0.
Proof. by vm_compute. Qed.
End Clocks.

(** ** Examples: a host that gives maps one after the other and a block every third time. *)
Module ExampleHost.
Record host_state := HostState { maps : list (Z * Z); tries : Z }.
Definition apartb (x y : Z * Z) : bool := (x.1 + x.2 <=? y.1) || (y.1 + y.2 <=? x.1).
Definition next_map (l : list (Z * Z)) : Z := foldr (fun r a => Z.max (r.1 + r.2) a) 4096 l.
Fixpoint without (x : Z * Z) (l : list (Z * Z)) : list (Z * Z) :=
  match l with [] => [] | y :: l => if decide (x = y) then l else y :: without x l end.
Lemma without_perm x l : x ∈ l -> l ≡ₚ x :: without x l.
Proof.
  induction l as [|y l IH]; [by intros ?%not_elem_of_nil|]. cbn. intros [->|Hin]%elem_of_cons; [by rewrite decide_True|].
  case_decide as E; [by subst|]. rewrite (IH Hin) at 1. apply perm_swap.
Qed.
#[export] Instance memory : HostMemory host_state := {
  h_mmap addr len prot flags fd off h :=
    let a := next_map (maps h) in
    if (a + len <? 2 ^ 64) && forallb (apartb (a, len)) (maps h) && (0 <? a) then (a, HostState ((a, len) :: maps h) (tries h))
    else (u64 (-1), h);
  h_munmap addr len h :=
    (if bool_decide ((addr, len) ∈ maps h) then (0, HostState (without (addr, len) (maps h)) (tries h)) else (-1, h));
  h_malloc size h := (if tries h mod 3 =? 2 then 2 ^ 32 + 4096 * tries h else 0, HostState (maps h) (tries h + 1));
  h_calloc number size h := (0, h);
  h_realloc p size h := (0, h);
  h_free p h := h }.
#[export, refine] Instance memory_doc : HostMemoryDoc host_state := { mapped h := maps h }.
Proof.
  - intros len prot flags fd off h a h' Hlen. cbn [h_mmap memory]. destruct (_ && _) eqn:E.
    + intros [= <- <-]. right. apply andb_true_iff in E as [[E1%Z.ltb_lt E2]%andb_true_iff E3%Z.ltb_lt]. split_and!; [done|done| |done].
      apply Forall_forall. intros y Hy. rewrite forallb_forall in E2. specialize (E2 y (proj1 (list_elem_of_In _ _) Hy)).
      unfold apartb in E2. unfold apart. lia.
    + intros [= <- <-]. by left.
  - intros a len h r h' l1 l2 Hm. cbn [h_munmap memory]. assert ((a, len) ∈ maps h) as Hin by (rewrite Hm; set_solver).
    rewrite bool_decide_eq_true_2 by done. intros [= <- <-]. cbn. apply (Permutation_cons_inv (a := (a, len))).
    rewrite <- without_perm by done. rewrite Hm. symmetry. apply Permutation_middle.
Defined.
#[export] Instance flags : HostFlags :=
  {| PROT_READ := 1; PROT_WRITE := 2; MAP_SHARED := 1; MAP_PRIVATE := 2; MAP_ANON := 32; M_WAITOK := 2; M_ZERO := 256 |}.
End ExampleHost.

(** With four pages: a page, a region of 8192 bytes and another page. *)
Module ExampleRun.
Import ExampleHost.
Definition after {A S} (f : S -> outcome (A * S)) (s : S) : S := match f s with Ok (_, s) => s | _ => s end.
Lemma after_run {A S} (f : S -> outcome (A * S)) s a : match f s with Ok (x, _) => Some x | _ => None end = Some a -> f s = Ok (a, after f s).
Proof. unfold after. destruct (f s) as [[x s']| |]; [|done..]. by intros [= ->]. Qed.
Definition p0 : pages :=
  Pages (StackList (Some (<[3 := 1060864]> (<[2 := 1056768]> (<[1 := 1052672]> (<[0 := 1048576]> ∅))))) 4 4) 1048576 1064960 ∅ ∅.
Definition s0 : kmem host_state := Kmem (HostState [(1048576, 16384)] 0) p0.
Definition s1 := after (kmem_malloc 4096 0) s0.
Definition s2 := after (kmem_malloc 8192 256) s1.
Definition s3 := after (kmem_malloc 4096 0) s2.

Lemma run1 : kmem_malloc 4096 0 s0 = Ok (1060864, s1).
Proof. unfold s1. apply (after_run (kmem_malloc 4096 0) s0). by vm_compute. Qed.
Lemma run2 : kmem_malloc 8192 256 s1 = Ok (1064960, s2).
Proof. unfold s2. apply (after_run (kmem_malloc 8192 256) s1). by vm_compute. Qed.
Lemma run3 : kmem_malloc 4096 0 s2 = Ok (1056768, s3).
Proof. unfold s3. apply (after_run (kmem_malloc 4096 0) s2). by vm_compute. Qed.

Lemma s0_inv : kmem_inv 1048576 4 [] s0.
Proof.
  split; [split_and!; [done|done|cbn; lia|cbn; lia|done]|]. split; [by exists []|]. split; [apply NoDup_singleton|]. intros x y Hx Hy. left.
  cbn in Hx, Hy. apply list_elem_of_singleton in Hx, Hy. congruence.
Qed.

Lemma all_three : regions s0 [(1056768, 4096); (1064960, 8192); (1060864, 4096)] s3.
Proof.
  apply (regions_alloc s0 [(1064960, 8192); (1060864, 4096)] s2 4096 0 1056768 s3); [|lia|apply run3].
  apply (regions_alloc s0 [(1060864, 4096)] s1 8192 256 1064960 s2); [|lia|apply run2].
  apply (regions_alloc s0 [] s0 4096 0 1060864 s1); [apply regions_start|lia|apply run1].
Qed.
End ExampleRun.

#[local] Existing Instances ExampleHost.memory ExampleHost.memory_doc ExampleHost.flags.


(** The third attempt gives a block; a call that may not wait gives NULL. *)
Example third_attempt : match __malloc 3 16 2 ExampleRun.s0 with Ok (a, _) => a = 4294975488 | _ => False end.
Proof. by vm_compute. Qed.
Example no_wait : match __malloc 3 16 0 ExampleRun.s0 with Ok (a, _) => a = 0 | _ => False end.
Proof. by vm_compute. Qed.
