(* ===== verification/Uaccess.v ===== *)
(** * Uaccess: strings and arrays from the application, [bsd/lib/lazybsd_patch.c]

    The stack and the application share one address space, so that what crosses between them is
    copied in memory ([copyin] and [copyout] of [KernSubr]).  Here are the string ([copyinstr]), the byte
    ([subyte]) and the array of scatter/gather elements ([copyiniov]), which gets a block of [Kmem]. *)
From S2P Require Import Prelude KernSubr Pages Kmem.

(** ** Strings *)

(** [strlen]: the bytes at [a] up to the terminator. *)
Fixpoint strlen (fuel : nat) (m : memory) (a : Z) : outcome Z :=
  match fuel with
  | O => Diverge
  | S fuel => if rd m a =? 0 then Ok 0 else n ← strlen fuel m (a + 1); Ok (n + 1)
  end.

(** [strlcpy] of the kernel's library: at most [len - 1] bytes and a terminator; the value is the length of the source. *)
Definition strlcpy (fuel : nat) (dst src len : Z) (m : memory) : outcome (Z * memory) :=
  n ← strlen fuel m src;
  Ok (n, if len =? 0 then m else
         let k := Z.min n (len - 1) in <[dst + k := 0]> (bcopy src dst k m)).

(** The error, and [*done] if it is asked for. *)
Definition copyinstr (fuel : nat) (uaddr kaddr len : Z) (done_ : bool) (m : memory) : outcome (Z * option Z * memory) :=
  '(bytes, m) ← strlcpy fuel kaddr uaddr len m;
  Ok (0, if done_ then Some bytes else None, m).

Definition subyte (base byte : Z) (m : memory) : Z * memory := (0, <[base := u8 byte]> m).

(** The string [l] at [a]. *)
Fixpoint string_at (m : memory) (a : Z) (l : list Z) : Prop :=
  match l with [] => rd m a = 0 | c :: l => rd m a = c /\ c <> 0 /\ string_at m (a + 1) l end.

Lemma strlen_string l : forall fuel m a, string_at m a l -> (length l < fuel)%nat -> strlen fuel m a = Ok (Z.of_nat (length l)).
Proof.
  induction l as [|c l IH]; intros [|fuel] m a; cbn [string_at length strlen]; try lia.
  - intros E _. by rewrite E.
  - intros (<- & Hc & Hs) Hf. rewrite (proj2 (Z.eqb_neq _ _) Hc), (IH fuel m (a + 1)) by (done || lia). cbn [mbind outcome_bind]. f_equal. lia.
Qed.

Lemma string_rd l : forall m a i c, string_at m a l -> l !! i = Some c -> rd m (a + Z.of_nat i) = c /\ c <> 0.
Proof.
  induction l as [|x l IH]; intros m a i c Hs Hi; [done|]. destruct Hs as (Hx & Hne & Hs). destruct i as [|i]; cbn in Hi.
  - injection Hi as <-. by replace (a + Z.of_nat 0) with a by lia.
  - replace (a + Z.of_nat (S i)) with (a + 1 + Z.of_nat i) by lia. by apply (IH m).
Qed.

Lemma string_of_rd l : forall m a, (forall i c, l !! i = Some c -> rd m (a + Z.of_nat i) = c /\ c <> 0) -> rd m (a + Z.of_nat (length l)) = 0 ->
  string_at m a l.
Proof.
  induction l as [|x l IH]; intros m a Hi Hz; cbn [string_at length] in *; [by replace (a + Z.of_nat 0) with a in Hz by lia|].
  destruct (Hi 0%nat x eq_refl) as [E Hx]. replace (a + Z.of_nat 0) with a in E by lia. split_and!; [done|done|]. apply IH.
  - intros i c Hl. specialize (Hi (S i) c Hl). by replace (a + Z.of_nat (S i)) with (a + 1 + Z.of_nat i) in Hi by lia.
  - by replace (a + Z.of_nat (S (length l))) with (a + 1 + Z.of_nat (length l)) in Hz by lia.
Qed.

(** A string from the application.  [copyinstr] ends and reports success; the kernel gets the string, cut to what fits with its
    terminator, and the length that the string has at the application, without the terminator: it never
    tells that the string was cut. *)
Theorem copyinstr_cuts l uaddr kaddr len m :
  string_at m uaddr l -> 0 < len -> kaddr + len <= uaddr \/ uaddr + Z.of_nat (length l) < kaddr ->
  exists m', returns (fun fuel => copyinstr fuel uaddr kaddr len true m) (0, Some (Z.of_nat (length l)), m') /\
    string_at m' kaddr (take (Z.to_nat (len - 1)) l) /\
    forall a, ~ (kaddr <= a < kaddr + len) -> rd m' a = rd m a.
Proof.
  intros Hs Hlen Hap. set (k := Z.min (Z.of_nat (length l)) (len - 1)).
  exists (<[kaddr + k := 0]> (bcopy uaddr kaddr k m)). split; [|split].
  - exists (S (length l)). intros fuel Hf. unfold copyinstr, strlcpy. rewrite (strlen_string l) by (done || lia). cbn [mbind outcome_bind].
    by rewrite (proj2 (Z.eqb_neq len 0)) by lia.
  - apply string_of_rd.
    + intros i c Hi. apply lookup_take_Some in Hi as [Hi Hlt]. pose proof (lookup_lt_Some _ _ _ Hi).
      rewrite rd_insert, decide_False, rd_bcopy, decide_True by lia. replace (uaddr + (kaddr + Z.of_nat i - kaddr)) with (uaddr + Z.of_nat i) by lia.
      by apply (string_rd l).
    + rewrite length_take. rewrite rd_insert, decide_True; [done|]. lia.
  - intros a Ha. rewrite rd_insert, decide_False, rd_bcopy, decide_False by lia. done.
Qed.

Lemma copyinstr_cuts_witness : exists m',
  returns (fun fuel => copyinstr fuel 100 200 3 true (<[100 := 65]> (<[101 := 66]> (<[102 := 67]> ∅)))) (0, Some 3, m') /\ string_at m' 200 [65; 66].
Proof.
  destruct (copyinstr_cuts [65; 66; 67] 100 200 3 (<[100 := 65]> (<[101 := 66]> (<[102 := 67]> ∅)))) as (m' & E & S & _);
    [by split_and!|lia|cbn; lia|]. exists m'. split; [exact E|exact S].
Defined.

(** ** Arrays of elements *)
Definition sizeof_iovec : Z := 16.

Section Iov.
Context {H : Type} `{HostMemory H} `{HostFlags} `{Os} (UIO_MAXIOV : Z).

(** The error, and [*iov]; [copyin] does not fail. *)
Definition copyiniov (fuel : nat) (iovp iovcnt error : Z) (s : kmem H) : outcome (Z * Z * kmem H) :=
  if UIO_MAXIOV <? iovcnt then Ok (error, 0, s)
  else
    let iovlen := u32 (iovcnt * sizeof_iovec) in
    match __malloc fuel iovlen M_WAITOK s with
    | Ok (iov, s) =>
        let p := pg s in
        let '(error, m) := copyin iovp iov iovlen (bytes p) in
        let s := Kmem (host s) (Pages (mpage_ctl p) (page_start p) (page_end p) (mpage_phy p) m) in
        if negb (error =? 0) then
          match __free iov s with Ok (_, s) => Ok (error, 0, s) | Panic => Panic | Diverge => Diverge end
        else Ok (error, iov, s)
    | Panic => Panic
    | Diverge => Diverge
    end.

(** An array that is not too long arrives whole, in a block of its own, as soon as the host has memory; one that is too long is
    refused with the error of the caller. *)
Lemma copyiniov_copies iovp iovcnt error s k : 0 <= iovcnt -> UIO_MAXIOV < 2 ^ 28 -> has_any M_WAITOK M_WAITOK = true -> has_any M_WAITOK M_ZERO = false ->
  let iovlen := iovcnt * sizeof_iovec in
  (iovcnt > UIO_MAXIOV -> forall fuel, copyiniov fuel iovp iovcnt error s = Ok (error, 0, s)) /\
  (iovcnt <= UIO_MAXIOV -> (forall j, (j < k)%nat -> attempt iovlen j (host s) = 0) -> attempt iovlen k (host s) <> 0 ->
   let iov := attempt iovlen k (host s) in
   iov + iovlen <= iovp \/ iovp + iovlen <= iov ->
   exists s', returns (fun fuel => copyiniov fuel iovp iovcnt error s) (0, iov, s') /\
     forall i, 0 <= i < iovlen -> rd (bytes (pg s')) (iov + i) = rd (bytes (pg s)) (iovp + i)).
Proof.
  intros Hc Hmax Hw Hz iovlen. split.
  - intros Hgt fuel. unfold copyiniov. by rewrite (proj2 (Z.ltb_lt _ _)) by lia.
  - intros Hle Hj Hk iov Hap. assert (u32 (iovcnt * sizeof_iovec) = iovlen) as El.
    { apply u32_id. unfold in_u32, iovlen, sizeof_iovec in *. change (2 ^ 28) with 268435456 in Hmax. lia. }
    eexists. split.
    + exists (S k). intros fuel Hf. unfold copyiniov. rewrite (proj2 (Z.ltb_ge _ _)) by lia. rewrite El.
      unfold __malloc, mbind, K_bind. rewrite (malloc_loop_waits _ _ k) by (done || lia). rewrite Hz. cbn [andb]. reflexivity.
    + intros i Hi. cbn [pg bytes]. rewrite rd_bcopy, decide_True by lia. f_equal. fold iov. lia.
Qed.
End Iov.
