(* ===== verification/Uma.v ===== *)
(** * Uma: which slab a page belongs to, [bsd/include/vm/uma_int.h]

    The allocator of the kernel finds the slab and the zone of a block from the page that the
    block is in.  [uma_page_slab_hash] is a table of lists, which [lazybsd_freebsd_init] of
    [bsd/lib/lazybsd_freebsd.c] makes with 8192 lists; [vsetzoneslab] sets the slab and the zone of a
    page, [vtoslab] and [vtozoneslab] find them for any address in it.  Pages are never removed. *)
From S2P Require Import Prelude Pages.

(** [struct uma_page] *)
Record uma_page := UmaPage { up_va : Z; up_slab : Z; up_zone : Z }.

(** The variables [uma_page_slab_hash] and [uma_page_mask]. *)
Record uma := Uma { uma_page_slab_hash : list (list uma_page); uma_page_mask : Z }.

Definition num_hash_buckets : nat := 8192.

(** The table after the start: blocks of zeros. *)
Definition uma_start : uma := Uma (replicate num_hash_buckets []) (i32 (Z.of_nat num_hash_buckets - 1)).

Definition UMA_PAGE_HASH (t : uma) (va : Z) : Z := Z.land (Z.shiftr va PAGE_SHIFT) (u64 (uma_page_mask t)).

(** [va & (~(PAGE_SIZE - 1))] *)
Definition page_of (va : Z) : Z := Z.land va (u64 (Z.lnot (PAGE_SIZE - 1))).

(** The list of an address; behind the table there is none. *)
Definition hash_list (t : uma) (va : Z) : outcome (list uma_page) :=
  match uma_page_slab_hash t !! Z.to_nat (UMA_PAGE_HASH t va) with Some l => Ok l | None => Panic end.

(** [LIST_FOREACH] up to the first entry of [va]. *)
Fixpoint find_page (va : Z) (l : list uma_page) : option uma_page :=
  match l with
  | [] => None
  | up :: l => if up_va up =? va then Some up else find_page va l
  end.

(** NULL is 0. *)
Definition vtoslab (va : Z) (t : uma) : outcome Z :=
  l ← hash_list t va;
  Ok (match find_page (page_of va) l with Some up => up_slab up | None => 0 end).

(** The zone and the slab; without an entry [up] is NULL. *)
Definition vtozoneslab (va : Z) (t : uma) : outcome (Z * Z) :=
  l ← hash_list t va;
  match find_page (page_of va) l with Some up => Ok (up_zone up, up_slab up) | None => Panic end.

(** The entry found is changed where it is. *)
Fixpoint set_page (va zone slab : Z) (l : list uma_page) : list uma_page :=
  match l with
  | [] => []
  | up :: l => if up_va up =? va then UmaPage (up_va up) slab zone :: l else up :: set_page va zone slab l
  end.

Definition vsetzoneslab (va zone slab : Z) (t : uma) : outcome uma :=
  l ← hash_list t va;
  let l := match find_page va l with Some _ => set_page va zone slab l | None => UmaPage va slab zone :: l end in
  Ok (Uma (<[Z.to_nat (UMA_PAGE_HASH t va) := l]> (uma_page_slab_hash t)) (uma_page_mask t)).

(** ** A map from pages *)

(** What the allocator does; an answer is a list of numbers. *)
Inductive uma_op := SetZoneSlab (va zone slab : Z) | ToSlab (va : Z) | ToZoneSlab (va : Z).

Definition uma_step (o : uma_op) (t : uma) : outcome (list Z * uma) :=
  match o with
  | SetZoneSlab va zone slab => t ← vsetzoneslab va zone slab t; Ok ([], t)
  | ToSlab va => s ← vtoslab va t; Ok ([s], t)
  | ToZoneSlab va => '(z, s) ← vtozoneslab va t; Ok ([z; s], t)
  end.

Abbreviation slabs := (gmap Z (Z * Z)).
Definition base (va : Z) : Z := va - va mod PAGE_SIZE.
Definition slab_step (o : uma_op) (m : slabs) : outcome (list Z * slabs) :=
  match o with
  | SetZoneSlab va zone slab => Ok ([], <[va := (zone, slab)]> m)
  | ToSlab va => Ok ([match m !! base va with Some (_, s) => s | None => 0 end], m)
  | ToZoneSlab va => match m !! base va with Some (z, s) => Ok ([z; s], m) | None => Panic end
  end.

Fixpoint steps {S} (step : uma_op -> S -> outcome (list Z * S)) (l : list uma_op) (s : S) : outcome (list (list Z)) :=
  match l with
  | [] => Ok []
  | o :: l => '(a, s) ← step o s; r ← steps step l s; Ok (a :: r)
  end.

(** Addresses are of 64 bits; the allocator sets the slab of a page with the address of the page. *)
Definition fair (o : uma_op) : Prop :=
  match o with
  | SetZoneSlab va _ _ => in_u64 va /\ va mod PAGE_SIZE = 0
  | ToSlab va | ToZoneSlab va => in_u64 va
  end.

Definition bucket (va : Z) : nat := Z.to_nat (va / PAGE_SIZE mod Z.of_nat num_hash_buckets).

(** The table has the map [m]. *)
Definition holds_map (t : uma) (m : slabs) : Prop :=
  uma_page_mask t = Z.of_nat num_hash_buckets - 1 /\ length (uma_page_slab_hash t) = num_hash_buckets /\
  forall i l, uma_page_slab_hash t !! i = Some l -> forall va, bucket va = i ->
    (fun up => (up_zone up, up_slab up)) <$> find_page va l = m !! va.

Lemma hash_bucket t va : in_u64 va -> uma_page_mask t = Z.of_nat num_hash_buckets - 1 -> Z.to_nat (UMA_PAGE_HASH t va) = bucket va.
Proof.
  intros Hva Hm. unfold UMA_PAGE_HASH, bucket. rewrite Hm. f_equal.
  change (u64 (Z.of_nat num_hash_buckets - 1)) with (Z.ones 13). rewrite Z.land_ones, Z.shiftr_div_pow2 by (unfold PAGE_SHIFT; lia). done.
Qed.

Lemma page_of_base va : in_u64 va -> page_of va = base va.
Proof.
  intros Hva. unfold page_of, base. change (u64 (Z.lnot (PAGE_SIZE - 1))) with (Z.shiftl (Z.ones 52) 12).
  apply Z.bits_inj_iff'. intros i Hi. rewrite Z.land_spec, Z.shiftl_spec by done.
  assert (va - va mod PAGE_SIZE = Z.shiftl (Z.shiftr va 12) 12) as ->.
  { rewrite Z.shiftl_mul_pow2, Z.shiftr_div_pow2 by lia. unfold PAGE_SIZE. change (2 ^ 12) with 4096. Z.div_mod_to_equations. lia. }
  rewrite Z.shiftl_spec by done. destruct (Z.ltb_spec i 12).
  - rewrite !(Z.testbit_neg_r _ (i - 12)) by lia. apply andb_false_r.
  - rewrite Z.shiftr_spec by lia. replace (i - 12 + 12) with i by lia. destruct (Z.ltb_spec (i - 12) 52).
    + rewrite Z.ones_spec_low by lia. apply andb_true_r.
    + rewrite Z.ones_spec_high by lia. rewrite andb_false_r. symmetry. destruct (decide (va = 0)) as [->|]; [apply Z.bits_0|].
      apply Z.bits_above_log2; [unfold in_u64 in *; lia|]. apply Z.log2_lt_pow2; [unfold in_u64 in *; lia|].
      unfold in_u64 in *. apply Z.lt_le_trans with (2 ^ 64); [lia|]. apply Z.pow_le_mono_r; lia.
Qed.

Lemma bucket_base va : bucket (base va) = bucket va.
Proof. unfold bucket, base. do 2 f_equal. unfold PAGE_SIZE. Z.div_mod_to_equations. lia. Qed.

Lemma hash_list_ok t m va : in_u64 va -> holds_map t m -> exists l, hash_list t va = Ok l /\ uma_page_slab_hash t !! bucket va = Some l.
Proof.
  intros Hva (Hmask & Hlen & _). unfold hash_list. rewrite hash_bucket by done.
  destruct (lookup_lt_is_Some_2 (uma_page_slab_hash t) (bucket va)) as [l El]; [|by rewrite El; eauto].
  rewrite Hlen. unfold bucket. assert (Z.of_nat num_hash_buckets = 8192) as E by (by vm_compute).
  pose proof (Z.mod_pos_bound (va / PAGE_SIZE) (Z.of_nat num_hash_buckets)). lia.
Qed.

Lemma find_set_page va zone slab va' l : is_Some (find_page va l) ->
  (fun up => (up_zone up, up_slab up)) <$> find_page va' (set_page va zone slab l) =
  if decide (va' = va) then Some (zone, slab) else (fun up => (up_zone up, up_slab up)) <$> find_page va' l.
Proof.
  induction l as [|up l IH]; [by intros [? ?]|]. cbn. destruct (Z.eqb_spec (up_va up) va) as [<-|Hne].
  - intros _. cbn. destruct (Z.eqb_spec (up_va up) va') as [<-|Hn]; [by rewrite decide_True|]. by rewrite decide_False.
  - intros Hs. cbn. destruct (Z.eqb_spec (up_va up) va') as [<-|Hn]; [by rewrite decide_False|]. by apply IH.
Qed.

Lemma vsetzoneslab_ok va zone slab t m : in_u64 va -> holds_map t m ->
  exists t', vsetzoneslab va zone slab t = Ok t' /\ holds_map t' (<[va := (zone, slab)]> m).
Proof.
  intros Hva Ht. destruct (hash_list_ok t m va Hva Ht) as (l & El & Hl). unfold vsetzoneslab. rewrite El. cbn [mbind outcome_bind].
  eexists. split; [reflexivity|]. destruct Ht as (Hmask & Hlen & Hm). rewrite hash_bucket by done. unfold holds_map. cbn [uma_page_slab_hash uma_page_mask].
  rewrite length_insert. split; [done|]. split; [done|]. intros i l' Hl' va' Hva'.
  apply list_lookup_insert_Some in Hl' as [(<- & <- & _)|(Hne & Hl')].
  - pose proof (Hm _ _ Hl va' Hva') as E. destruct (find_page va l) as [up|] eqn:F.
    + rewrite find_set_page by (by rewrite F). rewrite E. case_decide as Ed; [subst; by rewrite lookup_insert_eq|by rewrite lookup_insert_ne].
    + cbn [find_page up_va]. destruct (Z.eqb_spec va va') as [<-|Hn]; [by rewrite lookup_insert_eq|by rewrite lookup_insert_ne].
  - rewrite lookup_insert_ne by (intros ->; done). by apply (Hm i).
Qed.

Lemma find_ok va t m : in_u64 va -> holds_map t m -> exists l, hash_list t va = Ok l /\
  (fun up => (up_zone up, up_slab up)) <$> find_page (page_of va) l = m !! base va.
Proof.
  intros Hva Ht. destruct (hash_list_ok t m va Hva Ht) as (l & El & Hl). exists l. split; [done|]. rewrite page_of_base by done.
  destruct Ht as (_ & _ & Hm). apply (Hm _ _ Hl). apply bucket_base.
Qed.

Lemma start_holds : holds_map uma_start ∅.
Proof.
  split; [done|]. split; [apply length_replicate|]. intros i l Hl va _. apply lookup_replicate in Hl as [-> _]. by rewrite lookup_empty.
Qed.

Lemma steps_refine l : forall t m, Forall fair l -> holds_map t m -> steps uma_step l t = steps slab_step l m.
Proof.
  induction l as [|o l IH]; intros t m Hf Ht; [done|]. apply Forall_cons in Hf as [Ho Hf]. cbn [steps].
  destruct o as [va zone slab|va|va]; cbn [uma_step slab_step fair] in *.
  - destruct (vsetzoneslab_ok va zone slab t m (proj1 Ho) Ht) as (t' & -> & Ht'). cbn [mbind outcome_bind]. by rewrite (IH t' _ Hf Ht').
  - destruct (find_ok va t m Ho Ht) as (k & El & E). unfold vtoslab. rewrite El. cbn [mbind outcome_bind]. rewrite (IH t m Hf Ht).
    by destruct (find_page _ k), (m !! base va) as [[? ?]|]; cbn in E; try discriminate E; [injection E as <- <-|].
  - destruct (find_ok va t m Ho Ht) as (k & El & E). unfold vtozoneslab. rewrite El. cbn [mbind outcome_bind].
    destruct (find_page _ k), (m !! base va) as [[? ?]|]; cbn in E; try discriminate E; [injection E as <- <-|done].
    cbn [mbind outcome_bind]. by rewrite (IH t m Hf Ht).
Qed.

(** The table is a map.  Whatever the allocator sets and asks after the start, it gets the answers of
    a map from pages to the zone and the slab that was set last: from any address of the page, NULL
    for the slab of a page that was never set; asking for the zone of such a page reads at NULL. *)
Theorem uma_refines l : Forall fair l -> steps uma_step l uma_start = steps slab_step l ∅.
Proof. intros Hf. apply steps_refine; [done|apply start_holds]. Qed.

(** Two pages that share a list, and one that is changed. *)
Definition example_ops : list uma_op :=
  [SetZoneSlab 0x10000000 1 11; SetZoneSlab 0x12000000 2 22; SetZoneSlab 0x10000000 3 33; ToZoneSlab 0x10000fff; ToSlab 0x12000001; ToSlab 0x14000000].
Lemma uma_refines_witness : bucket 0x10000000 = bucket 0x12000000 /\ steps uma_step example_ops uma_start = Ok [[]; []; []; [3; 33]; [22]; [0]].
Proof.
  split; [by vm_compute|]. rewrite (uma_refines example_ops); [by vm_compute|].
  repeat constructor; unfold in_u64; cbn; lia.
Defined.

(** A page set with an address inside of it is not found. *)
Example unaligned_is_lost : steps uma_step [SetZoneSlab 0x10000010 1 11; ToSlab 0x10000010] uma_start = Ok [[]; [0]].
Proof. by vm_compute. Qed.
