(* ===== verification/Send.v ===== *)
(** * Send: a packet on its way to the NIC ([src/lazybsd_memory.cc], [src/lazybsd_dpdk.cc])

    The stack gives a packet to the driver as a chain of [mbuf]s.  The driver describes
    it with [rte_mbuf]s that point into the [mbuf]s ([lazybsd_bsd_to_rte]), or takes the
    [rte_mbuf] the data came in with ([lazybsd_extcl_to_rte]), puts it into a table, and
    hands the packets of the table to the NIC when it is full ([lazybsd_dpdk_if_send])
    or when the main loop drains it.  The [mbuf]s of the packets the NIC has taken go
    to the ring of TxRing.v, the others are freed ([send_burst]).

    One port is modelled: the tables and rings of different ports are disjoint.  What
    the NIC and DPDK do is the class [TxKernel]. *)
From S2P Require Import Prelude Errno KernSubr SockConv Pages Mbuf TxRing.

Definition MAX_PKT_BURST : nat := 32.

(** ** DPDK *)
Class TxKernel := {
  RTE_MBUF_F_TX_TCP_CKSUM : Z;
  RTE_MBUF_F_TX_IPV4 : Z;
  RTE_MBUF_F_TX_TCP_SEG : Z;
  rte_ipv4_phdr_cksum : memory -> Z -> Z -> Z;           (** the header, the flags *)
  rte_pktmbuf_clone : Z -> net -> Z * net;               (** NULL if there is no memory *)
  rte_eth_tx_burst : Z -> Z -> list Z -> net -> Z * net  (** port, queue, packets; how many it took *) }.

(** ** The packets of a port *)

(** [struct mbuf_table] with [struct mbuf_txring] and what the driver counts. *)
Record tx_port := TxPort {
  port_id : Z; tx_queue_id : Z;
  tx_len : Z; tx_m_table : list Z; bsd_m_table : list Z;
  nic_tx_ring : mbuf_txring;
  tx_packets : Z; tx_bytes : Z }.

Definition set_tables (l : Z) (t b : list Z) (q : tx_port) : tx_port :=
  TxPort (port_id q) (tx_queue_id q) l t b (nic_tx_ring q) (tx_packets q) (tx_bytes q).
Definition set_tx_len (l : Z) (q : tx_port) : tx_port := set_tables l (tx_m_table q) (bsd_m_table q) q.
Definition set_ring (r : mbuf_txring) (q : tx_port) : tx_port :=
  TxPort (port_id q) (tx_queue_id q) (tx_len q) (tx_m_table q) (bsd_m_table q) r (tx_packets q) (tx_bytes q).
Definition set_traffic (p b : Z) (q : tx_port) : tx_port :=
  TxPort (port_id q) (tx_queue_id q) (tx_len q) (tx_m_table q) (bsd_m_table q) (nic_tx_ring q) p b.

(** An element of a table; outside of the table the access faults. *)
Definition load (t : list Z) (i : Z) : outcome Z :=
  if i <? 0 then Panic else match t !! Z.to_nat i with Some v => Ok v | None => Panic end.
Definition store (t : list Z) (i v : Z) : outcome (list Z) :=
  _ ← load t i; Ok (<[Z.to_nat i := v]> t).

(** An assignment to a field of an [rte_mbuf]. *)
Definition assign_rte (p : Z) (f : rte_mbuf -> rte_mbuf) (s : net) : outcome net :=
  m ← deref_rte s p; Ok (set_rte (<[p := f m]> (rte s)) s).

Definition set_next (v : Z) (r : rte_mbuf) : rte_mbuf :=
  RteMbuf v (buf r) (data_len r) (pkt_len r) (nb_segs r) (ol_flags r) (vlan_tci r) (buf_iova r)
    (l2_len r) (l3_len r) (l4_len r) (rte_tso_segsz r).
Definition set_buf (v : Z) (r : rte_mbuf) : rte_mbuf :=
  RteMbuf (next r) v (data_len r) (pkt_len r) (nb_segs r) (ol_flags r) (vlan_tci r) (buf_iova r)
    (l2_len r) (l3_len r) (l4_len r) (rte_tso_segsz r).
Definition set_data_len (v : Z) (r : rte_mbuf) : rte_mbuf :=
  RteMbuf (next r) (buf r) v (pkt_len r) (nb_segs r) (ol_flags r) (vlan_tci r) (buf_iova r)
    (l2_len r) (l3_len r) (l4_len r) (rte_tso_segsz r).
Definition set_pkt_len (v : Z) (r : rte_mbuf) : rte_mbuf :=
  RteMbuf (next r) (buf r) (data_len r) v (nb_segs r) (ol_flags r) (vlan_tci r) (buf_iova r)
    (l2_len r) (l3_len r) (l4_len r) (rte_tso_segsz r).
Definition set_nb_segs (v : Z) (r : rte_mbuf) : rte_mbuf :=
  RteMbuf (next r) (buf r) (data_len r) (pkt_len r) v (ol_flags r) (vlan_tci r) (buf_iova r)
    (l2_len r) (l3_len r) (l4_len r) (rte_tso_segsz r).
Definition set_buf_iova (v : Z) (r : rte_mbuf) : rte_mbuf :=
  RteMbuf (next r) (buf r) (data_len r) (pkt_len r) (nb_segs r) (ol_flags r) (vlan_tci r) v
    (l2_len r) (l3_len r) (l4_len r) (rte_tso_segsz r).
(** [ol_flags |= f] with the lengths of the headers. *)
Definition or_flags (f : Z) (r : rte_mbuf) : rte_mbuf :=
  RteMbuf (next r) (buf r) (data_len r) (pkt_len r) (nb_segs r) (Z.lor (ol_flags r) f) (vlan_tci r) (buf_iova r)
    (l2_len r) (l3_len r) (l4_len r) (rte_tso_segsz r).
Definition set_l2_l3 (l2 l3 : Z) (r : rte_mbuf) : rte_mbuf :=
  RteMbuf (next r) (buf r) (data_len r) (pkt_len r) (nb_segs r) (ol_flags r) (vlan_tci r) (buf_iova r)
    l2 l3 (l4_len r) (rte_tso_segsz r).
Definition set_l4_tso (l4 tso : Z) (r : rte_mbuf) : rte_mbuf :=
  RteMbuf (next r) (buf r) (data_len r) (pkt_len r) (nb_segs r) (ol_flags r) (vlan_tci r) (buf_iova r)
    (l2_len r) (l3_len r) l4 tso.

Section Send.
Context `{MbufKernel} `{TxKernel}.
Context (pg : pages) (pcap : bool).

(** ** Making the packet *)

(** The loop over the [mbuf]s; the value is the head, or NULL. *)
Fixpoint bsd_to_rte_loop (fuel : nat) (p_head cur prev p_bsdbuf : Z) (s : net) : outcome (Z * net) :=
  if p_bsdbuf =? 0 then Ok (p_head, s) else
  match fuel with
  | O => Diverge
  | S fuel =>
      let '(cur, s) := if cur =? 0 then rte_pktmbuf_alloc s else (cur, s) in
      if cur =? 0 then Ok (0, do_call (rte_pktmbuf_free p_head) s) else
      '(p_bsdbuf, data, len) ← lazybsd_next_mbuf p_bsdbuf s;
      s ← assign_rte cur (set_buf data) s;
      iova ← lazybsd_mem_virt2phy data pg;
      s ← assign_rte cur (set_buf_iova iova) s;
      s ← assign_rte cur (set_data_len (u16 len)) s;
      s ← assign_rte p_head (fun r => set_nb_segs (u16 (nb_segs r + 1)) r) s;
      s ← (if negb (prev =? 0) then assign_rte prev (set_next cur) s else Ok s);
      bsd_to_rte_loop fuel p_head 0 cur p_bsdbuf s
  end.

Definition lazybsd_bsd_to_rte (fuel : nat) (m total : Z) (s : net) : outcome (Z * net) :=
  let '(p_head, s) := rte_pktmbuf_alloc s in
  if p_head =? 0 then Ok (0, s) else
  s ← assign_rte p_head (set_pkt_len (u32 total)) s;
  s ← assign_rte p_head (set_nb_segs 0) s;
  bsd_to_rte_loop fuel p_head p_head 0 m s.

Definition lazybsd_extcl_to_rte (m : Z) (s : net) : outcome (Z * net) :=
  src_mbuf ← lazybsd_rte_frm_extcl m s;
  if src_mbuf =? 0 then Ok (0, s) else Ok (rte_pktmbuf_clone src_mbuf s).

(** The length of the IPv4 header at [iph], and of the TCP header at [tcph]. *)
Definition iph_len (iph : Z) (s : net) : Z := Z.shiftl (Z.land (rd (Mbuf.bytes s) iph) 0x0f) 2.
Definition tcph_len (tcph : Z) (s : net) : Z := Z.shiftr (Z.land (rd (Mbuf.bytes s) (tcph + 12)) 0xf0) 2.
Definition RTE_ETHER_HDR_LEN : Z := 14.

(** A 16-bit integer in memory. *)
Definition store16 (a v : Z) (s : net) : net :=
  set_bytes (<[a + 1 := v / 256]> (<[a := v mod 256]> (Mbuf.bytes s))) s.

(** [tx_csum_l4] is the feature of the port. *)
Definition lazybsd_offload_set (tx_csum_l4 : Z) (m head : Z) (s : net) : outcome net :=
  offload ← lazybsd_mbuf_tx_offload m (TxOffload 0 0 0 0 0) s;
  h ← deref_rte s head;
  let iph := buf h + RTE_ETHER_HDR_LEN in
  s ← (if negb (ip_csum offload =? 0) then
         s ← assign_rte head (or_flags (Z.lor RTE_MBUF_F_TX_TCP_CKSUM RTE_MBUF_F_TX_IPV4)) s;
         assign_rte head (set_l2_l3 RTE_ETHER_HDR_LEN (iph_len iph s)) s
       else Ok s);
  if tx_csum_l4 =? 0 then Ok s else
  let hl := iph_len iph s in
  s ← (if negb (tcp_csum offload =? 0) then
         s ← assign_rte head (or_flags RTE_MBUF_F_TX_TCP_CKSUM) s;
         assign_rte head (set_l2_l3 RTE_ETHER_HDR_LEN hl) s
       else Ok s);
  s ← (if negb (tso_seg_size offload =? 0) then
         let tcph := iph + hl in
         let tl := tcph_len tcph s in
         let s := store16 (tcph + 16) (rte_ipv4_phdr_cksum (Mbuf.bytes s) iph RTE_MBUF_F_TX_TCP_SEG) s in
         s ← assign_rte head (or_flags RTE_MBUF_F_TX_TCP_SEG) s;
         assign_rte head (set_l4_tso tl (tso_seg_size offload)) s
       else Ok s);
  if negb (udp_csum offload =? 0) then
    s ← assign_rte head (or_flags RTE_MBUF_F_TX_TCP_CKSUM) s;
    assign_rte head (set_l2_l3 RTE_ETHER_HDR_LEN hl) s
  else Ok s.

(** The [rte_mbuf] for the packet [m], from its data or from the one it came with;
    [rte_panic] ends the program. *)
Definition onepkt_head (fuel : nat) (m total : Z) (s : net) : outcome (Z * net) :=
  p_data ← lazybsd_mbuf_mtod m s;
  if negb (lazybsd_chk_vma p_data pg =? 0) then lazybsd_bsd_to_rte fuel m total s
  else
    '(head, s) ← lazybsd_extcl_to_rte m s;
    if head =? 0 then Panic else Ok (head, s).

Definition lazybsd_if_send_onepkt (fuel : nat) (tx_csum_l4 m total : Z) (q : tx_port) (s : net)
    : outcome (Z * tx_port * net) :=
  if m =? 0 then Ok (0, q, s) else
  '(head, s) ← onepkt_head fuel m total s;
  if head =? 0 then s ← lazybsd_mbuf_free m s; Ok (0, q, s) else
  s ← lazybsd_offload_set tx_csum_l4 m head s;
  t ← store (tx_m_table q) (tx_len q) head;
  b ← store (bsd_m_table q) (tx_len q) m;
  Ok (tx_len q + 1, set_tables (tx_len q) t b q, s).

(** ** Handing packets to the NIC *)

(** The packets before [n] go to the dump file. *)
Fixpoint dump_loop (n : nat) (i : Z) (q : tx_port) (s : net) : outcome net :=
  match n with
  | O => Ok s
  | S n => m ← load (tx_m_table q) i; dump_loop n (i + 1) q (do_call (lazybsd_dump_packets m) s)
  end.

(** The packets that the NIC took, from [i] on. *)
Fixpoint sent_loop (n : nat) (i : Z) (q : tx_port) (s : net) : outcome (tx_port * net) :=
  match n with
  | O => Ok (q, s)
  | S n =>
      m ← load (tx_m_table q) i;
      r ← deref_rte s m;
      let q := set_traffic (tx_packets q) (u64 (tx_bytes q + pkt_len r)) q in
      b ← load (bsd_m_table q) i;
      '(q, s) ← (if negb (b =? 0) then
                   '(ring, s) ← lazybsd_txring_enqueue (nic_tx_ring q) b (nb_segs r) s;
                   Ok (set_ring ring q, s)
                 else Ok (q, s));
      sent_loop n (i + 1) q s
  end.

(** The packets that it did not take, from [i] on. *)
Fixpoint unsent_loop (n : nat) (i : Z) (q : tx_port) (s : net) : outcome net :=
  match n with
  | O => Ok s
  | S n =>
      m ← load (tx_m_table q) i;
      let s := do_call (rte_pktmbuf_free m) s in
      b ← load (bsd_m_table q) i;
      s ← (if negb (b =? 0) then lazybsd_mbuf_free b s else Ok s);
      unsent_loop n (i + 1) q s
  end.

Definition send_burst (q : tx_port) (n : Z) (s : net) : outcome (tx_port * net) :=
  s ← (if pcap then dump_loop (Z.to_nat n) 0 q s else Ok s);
  let '(ret, s) := rte_eth_tx_burst (port_id q) (tx_queue_id q) (take (Z.to_nat n) (tx_m_table q)) s in
  let q := set_traffic (u64 (tx_packets q + ret)) (tx_bytes q) q in
  '(q, s) ← sent_loop (Z.to_nat ret) 0 q s;
  s ← unsent_loop (Z.to_nat (n - ret)) ret q s;
  Ok (q, s).

Definition send_single_packet (m : Z) (q : tx_port) (s : net) : outcome (tx_port * net) :=
  t ← store (tx_m_table q) (tx_len q) m;
  let len := u16 (tx_len q + 1) in
  let q := set_tables (tx_len q) t (bsd_m_table q) q in
  if len =? Z.of_nat MAX_PKT_BURST then
    '(q, s) ← send_burst q (Z.of_nat MAX_PKT_BURST) s; Ok (set_tx_len 0 q, s)
  else Ok (set_tx_len len q, s).

Definition lazybsd_dpdk_if_send (fuel : nat) (tx_csum_l4 m total : Z) (q : tx_port) (s : net)
    : outcome (tx_port * net) :=
  '(len, q, s) ← lazybsd_if_send_onepkt fuel tx_csum_l4 m total q s;
  if len =? Z.of_nat MAX_PKT_BURST then
    '(q, s) ← send_burst q (Z.of_nat MAX_PKT_BURST) s; Ok (set_tx_len 0 q, s)
  else Ok (set_tx_len (u16 len) q, s).

(** What the stack calls to send [m]. *)
Definition lazybsd_veth_transmit (fuel : nat) (tx_csum_l4 m : Z) (q : tx_port) (s : net)
    : outcome (tx_port * net) :=
  x ← deref s m; lazybsd_dpdk_if_send fuel tx_csum_l4 m (len (m_pkthdr x)) q s.

(** The drain of the main loop. *)
Definition tx_drain (q : tx_port) (s : net) : outcome (tx_port * net) :=
  if tx_len q =? 0 then Ok (q, s) else
  '(q, s) ← send_burst q (tx_len q) s; Ok (set_tx_len 0 q, s).

(** ** Runs of the port *)
Inductive tx_op :=
| IfSend (fuel : nat) (tx_csum_l4 m total : Z)
| Drain.

Definition tx_step (o : tx_op) (q : tx_port) (s : net) : outcome (tx_port * net) :=
  match o with
  | IfSend fuel f m total => lazybsd_dpdk_if_send fuel f m total q s
  | Drain => tx_drain q s
  end.

Fixpoint tx_run (l : list tx_op) (q : tx_port) (s : net) : outcome (tx_port * net) :=
  match l with
  | [] => Ok (q, s)
  | o :: l => '(q, s) ← tx_step o q s; tx_run l q s
  end.
End Send.

Definition tx_init (port queue : Z) : tx_port :=
  TxPort port queue 0 (replicate MAX_PKT_BURST 0) (replicate MAX_PKT_BURST 0) lazybsd_txring_init 0 0.

(** ** What sending promises

    The port as a queue of packets: each packet is a pair of its [rte_mbuf] and its
    [mbuf]. *)
Record txq := Txq {
  made : list (Z * Z);                (** all packets made *)
  waiting : list (Z * Z);             (** those in the table *)
  taken : list (Z * Z);               (** those the NIC took *)
  refused : list (Z * Z);             (** those it did not take, which are freed *)
  forgotten : list (Z * Z);           (** those the driver lost *)
  to_ring : list (Z * Z);             (** the [mbuf]s given to the ring, with their segments *)
  q_packets : Z; q_bytes : Z }.

Section Spec.
Context `{MbufKernel} `{TxKernel}.
Context (pg : pages) (pcap : bool) (port queue : Z).

(** The NIC takes the packets [ps]; the ring frees what it evicts. *)
Fixpoint take_over (ps : list (Z * Z)) (h : list (Z * Z)) (by_ : Z) (s : net)
    : outcome (list (Z * Z) * Z * net) :=
  match ps with
  | [] => Ok (h, by_, s)
  | (m, b) :: ps =>
      r ← deref_rte s m;
      let by_ := u64 (by_ + pkt_len r) in
      if b =? 0 then take_over ps h by_ s else
      s ← free_slots (evicted (history h) (slots (b, nb_segs r))) s;
      take_over ps (h ++ [(b, nb_segs r)]) by_ s
  end.

Fixpoint refuse (ps : list (Z * Z)) (s : net) : outcome net :=
  match ps with
  | [] => Ok s
  | (m, b) :: ps =>
      let s := do_call (rte_pktmbuf_free m) s in
      s ← (if b =? 0 then Ok s else lazybsd_mbuf_free b s);
      refuse ps s
  end.

(** All waiting packets go to the NIC. *)
Definition flush (x : txq) (s : net) : outcome (txq * net) :=
  let ps := waiting x in
  let s := if pcap then foldl (fun s p => do_call (lazybsd_dump_packets p.1) s) s ps else s in
  let '(ret, s) := rte_eth_tx_burst port queue ps.*1 s in
  let k := Z.to_nat ret in
  '(h, by_, s) ← take_over (take k ps) (to_ring x) (q_bytes x) s;
  s ← refuse (drop k ps) s;
  Ok (Txq (made x) [] (taken x ++ take k ps) (refused x ++ drop k ps) (forgotten x) h
        (u64 (q_packets x + ret)) by_, s).

Definition forget (x : txq) : txq :=
  Txq (made x) [] (taken x) (refused x) (forgotten x ++ waiting x) (to_ring x) (q_packets x) (q_bytes x).
Definition put (p : Z * Z) (x : txq) : txq :=
  Txq (made x ++ [p]) (waiting x ++ [p]) (taken x) (refused x) (forgotten x) (to_ring x) (q_packets x) (q_bytes x).

(** A packet that cannot be made is freed, and the driver forgets those that wait. *)
Definition q_step (o : tx_op) (x : txq) (s : net) : outcome (txq * net) :=
  match o with
  | IfSend fuel f m total =>
      if m =? 0 then Ok (forget x, s) else
      '(head, s) ← onepkt_head pg fuel m total s;
      if head =? 0 then s ← lazybsd_mbuf_free m s; Ok (forget x, s) else
      s ← lazybsd_offload_set f m head s;
      let x := put (head, m) x in
      if (length (waiting x) =? MAX_PKT_BURST)%nat then flush x s else Ok (x, s)
  | Drain => if (length (waiting x) =? 0)%nat then Ok (x, s) else flush x s
  end.

Fixpoint q_run (l : list tx_op) (x : txq) (s : net) : outcome (txq * net) :=
  match l with
  | [] => Ok (x, s)
  | o :: l => '(x, s) ← q_step o x s; q_run l x s
  end.

Definition q_init : txq := Txq [] [] [] [] [] [] 0 0.

(** Each packet made is in one place. *)
Definition accounted (x : txq) : Prop :=
  taken x ++ refused x ++ forgotten x ++ waiting x ≡ₚ made x.

(** The port holds the queue. *)
Definition holds (q : tx_port) (ps : list (Z * Z)) (h : list (Z * Z)) : Prop :=
  port_id q = port /\ tx_queue_id q = queue /\
  (exists t, tx_m_table q = ps.*1 ++ t) /\ (exists t, bsd_m_table q = ps.*2 ++ t) /\
  length (tx_m_table q) = MAX_PKT_BURST /\ length (bsd_m_table q) = MAX_PKT_BURST /\
  ring_of (history h) (nic_tx_ring q).

Definition queue_of (q : tx_port) (x : txq) : Prop :=
  holds q (waiting x) (to_ring x) /\ tx_len q = Z.of_nat (length (waiting x)) /\
  (length (waiting x) < MAX_PKT_BURST)%nat /\
  tx_packets q = q_packets x /\ tx_bytes q = q_bytes x /\ accounted x.

(** Two runs with the same outcome, in related states. *)
Definition same_outcome {A B} (R : A -> B -> Prop) (o1 : outcome (A * net)) (o2 : outcome (B * net)) : Prop :=
  match o1, o2 with
  | Ok (a, s1), Ok (b, s2) => s1 = s2 /\ R a b
  | Panic, Panic | Diverge, Diverge => True
  | _, _ => False
  end.

Lemma same_outcome_bind {A B C D} (R : A -> B -> Prop) (R' : C -> D -> Prop) o1 o2
    (f : A * net -> outcome (C * net)) (g : B * net -> outcome (D * net)) :
  same_outcome R o1 o2 -> (forall a b s, R a b -> same_outcome R' (f (a, s)) (g (b, s))) ->
  same_outcome R' (o1 ≫= f) (o2 ≫= g).
Proof.
  destruct o1 as [[a s]| |], o2 as [[b s2]| |]; cbn; try done. intros [-> HR] Hf. by apply Hf.
Qed.

(** The same computation first. *)
Lemma same_outcome_same {A B C} (R : A -> B -> Prop) (o : outcome C)
    (f : C -> outcome (A * net)) (g : C -> outcome (B * net)) :
  (forall c, same_outcome R (f c) (g c)) -> same_outcome R (o ≫= f) (o ≫= g).
Proof. intros Hf. destruct o; cbn; [apply Hf|done|done]. Qed.
End Spec.

Section SendFacts.
Context `{MbufKernel} `{TxKernel}.
Context (pg : pages) (pcap : bool) (port queue : Z).

(** DPDK: the NIC takes some of the packets, from the front. *)
Context (doc_tx_burst : forall p q l s, 0 <= (rte_eth_tx_burst p q l s).1 <= Z.of_nat (length l)).

Notation holds := (holds port queue).

Lemma load_app pre v suf : load (pre ++ v :: suf) (Z.of_nat (length pre)) = Ok v.
Proof.
  unfold load. rewrite (proj2 (Z.ltb_ge _ 0)) by lia. rewrite Nat2Z.id, lookup_app_r, Nat.sub_diag by done. done.
Qed.

Lemma store_app pre v w suf : store (pre ++ v :: suf) (Z.of_nat (length pre)) w = Ok (pre ++ w :: suf).
Proof.
  unfold store. rewrite load_app. cbn. rewrite Nat2Z.id.
  rewrite <- (Nat.add_0_r (length pre)). by rewrite insert_app_r.
Qed.

Lemma of_nat_S_length {A} (pre : list A) x : Z.of_nat (length pre) + 1 = Z.of_nat (length (pre ++ [x])).
Proof. rewrite length_app. cbn. lia. Qed.

(** Where a packet of the table is. *)
Lemma holds_load q pre p ps h : holds q (pre ++ p :: ps) h ->
  load (tx_m_table q) (Z.of_nat (length pre)) = Ok p.1 /\ load (bsd_m_table q) (Z.of_nat (length pre)) = Ok p.2.
Proof.
  intros (_ & _ & [t ->] & [b ->] & _). rewrite !fmap_app, !fmap_cons, <- !app_assoc. cbn [app].
  rewrite <- (length_fmap fst pre) at 1. rewrite <- (length_fmap snd pre). split; apply load_app.
Qed.

Lemma dump_loop_spec q pre ps h s : holds q (pre ++ ps) h ->
  dump_loop (length ps) (Z.of_nat (length pre)) q s =
    Ok (foldl (fun s p => do_call (lazybsd_dump_packets p.1) s) s ps).
Proof.
  revert pre s. induction ps as [|p ps IH]; intros pre s Hh; [done|]. cbn [length dump_loop].
  rewrite (proj1 (holds_load q pre p ps h Hh)). cbn [mbind outcome_bind foldl].
  rewrite (of_nat_S_length pre p). apply IH. by rewrite <- app_assoc.
Qed.

Lemma unsent_loop_spec q pre ps h s : holds q (pre ++ ps) h ->
  unsent_loop (length ps) (Z.of_nat (length pre)) q s = refuse ps s.
Proof.
  revert pre s. induction ps as [|p ps IH]; intros pre s Hh; [done|]. cbn [length unsent_loop refuse].
  destruct (holds_load q pre p ps h Hh) as [-> ->]. destruct p as [m b]. cbn [mbind outcome_bind fst snd].
  assert (forall s, unsent_loop (length ps) (Z.of_nat (length pre) + 1) q s = refuse ps s) as IH'.
  { intros s'. rewrite (of_nat_S_length pre (m, b)). apply IH. by rewrite <- app_assoc. }
  destruct (b =? 0); cbn [negb mbind outcome_bind]; [apply IH'|].
  destruct (lazybsd_mbuf_free b _); cbn; [apply IH'|done|done].
Qed.

(** The state of the loop over the packets that were taken. *)
Definition taking (q0 : tx_port) (ps : list (Z * Z)) (q : tx_port) (x : list (Z * Z) * Z) : Prop :=
  holds q ps x.1 /\ tx_bytes q = x.2 /\ tx_packets q = tx_packets q0 /\ tx_len q = tx_len q0.

Lemma history_snoc h x : history (h ++ [x]) = history h ++ slots x.
Proof. unfold history. rewrite fmap_app, concat_app. cbn [fmap list_fmap concat]. by rewrite app_nil_r. Qed.

Lemma sent_loop_spec q0 pre ps suf q h s : taking q0 (pre ++ ps ++ suf) q (h, tx_bytes q) ->
  same_outcome (taking q0 (pre ++ ps ++ suf))
    (sent_loop (length ps) (Z.of_nat (length pre)) q s)
    ('(h, by_, s) ← take_over ps h (tx_bytes q) s; Ok ((h, by_), s)).
Proof.
  remember (pre ++ ps ++ suf) as all eqn:Eall. revert pre q h s Eall.
  induction ps as [|[m b] ps IH]; intros pre q h s Eall T; [by split|].
  cbn [length sent_loop take_over]. destruct T as (T1 & T2 & T3 & T4).
  rewrite Eall in T1. destruct (holds_load q pre (m, b) (ps ++ suf) h T1) as [L1 L2].
  rewrite <- Eall in T1. rewrite L1. cbn [mbind outcome_bind fst snd].
  destruct (deref_rte s m) as [r| |]; cbn [mbind outcome_bind]; [|done|done].
  rewrite (of_nat_S_length pre (m, b)). set (q1 := set_traffic _ _ q).
  change (bsd_m_table q1) with (bsd_m_table q). rewrite L2. cbn [mbind outcome_bind fst snd].
  destruct (b =? 0); cbn [negb mbind outcome_bind].
  - change (u64 (tx_bytes q + pkt_len r)) with (tx_bytes q1). apply IH; [by rewrite Eall, <- app_assoc|].
    split_and!; done.
  - destruct T1 as (P1 & P2 & P3 & P4 & P5 & P6 & P7).
    destruct (txring_enqueue_spec (history h) (nic_tx_ring q) (b, nb_segs r) P7) as (ring & R & E).
    cbn [fst snd] in E. change (nic_tx_ring q1) with (nic_tx_ring q). rewrite E.
    destruct (free_slots _ s) as [s1| |]; cbn [mbind outcome_bind]; [|done|done].
    change (u64 (tx_bytes q + pkt_len r)) with (tx_bytes (set_ring ring q1)).
    apply IH; [by rewrite Eall, <- app_assoc|]. split_and!; try done. cbn [fst]. unfold holds. rewrite history_snoc. by split_and!.
Qed.

Lemma holds_take q ps h : holds q ps h -> take (length ps) (tx_m_table q) = ps.*1.
Proof. intros (_ & _ & [t ->] & _). by apply take_app_length'; rewrite length_fmap. Qed.

Lemma holds_less q ps ps' h : holds q (ps ++ ps') h -> holds q ps h.
Proof.
  intros (? & ? & [t1 E1] & [t2 E2] & ?). split_and!; try done.
  - exists (ps'.*1 ++ t1). by rewrite E1, fmap_app, app_assoc.
  - exists (ps'.*2 ++ t2). by rewrite E2, fmap_app, app_assoc.
  - tauto.
  - tauto.
  - tauto.
Qed.

(** A burst is a flush of the queue. *)
Lemma send_burst_spec q x s :
  holds q (waiting x) (to_ring x) -> tx_packets q = q_packets x -> tx_bytes q = q_bytes x -> accounted x ->
  same_outcome (fun q' x' => queue_of port queue (set_tx_len 0 q') x')
    (send_burst pcap q (Z.of_nat (length (waiting x))) s) (flush pcap port queue x s).
Proof.
  intros Hh Hp Hb Ha. unfold send_burst, flush. rewrite Nat2Z.id.
  set (ps := waiting x) in *. rewrite (holds_take q ps (to_ring x) Hh).
  assert (Hq : port_id q = port /\ tx_queue_id q = queue) by (split; apply Hh).
  destruct Hq as [-> ->].
  assert ((if pcap then dump_loop (length ps) 0 q s else Ok s) =
    Ok (if pcap then foldl (fun s p => do_call (lazybsd_dump_packets p.1) s) s ps else s)) as ->.
  { destruct pcap; [|done]. exact (dump_loop_spec q [] ps (to_ring x) s Hh). }
  cbn [mbind outcome_bind]. set (s0 := if pcap then _ else s).
  pose proof (doc_tx_burst port queue ps.*1 s0) as Hr. rewrite length_fmap in Hr.
  destruct (rte_eth_tx_burst port queue ps.*1 s0) as [ret s1]. cbn [fst] in Hr.
  set (k := Z.to_nat ret). set (q1 := set_traffic _ _ q).
  assert (length (take k ps) = k) as Hk by (rewrite length_take; lia).
  assert (Hps : take k ps ++ drop k ps = ps) by apply take_drop.
  pose proof (sent_loop_spec q1 [] (take k ps) (drop k ps) q1 (to_ring x) s1) as L.
  cbn [app] in L. rewrite Hps, Hk in L. specialize (L ltac:(split_and!; done)).
  change (Z.of_nat (length [])) with 0 in L. change (tx_bytes q1) with (tx_bytes q) in L. rewrite Hb in L.
  destruct (sent_loop k 0 q1 s1) as [[q2 s2]| |], (take_over (take k ps) (to_ring x) (q_bytes x) s1) as [[[h by_] s2']| |];
    cbn [mbind outcome_bind] in L |- *; try done.
  destruct L as (-> & T1 & T2 & T3 & T4). cbn [fst snd] in T1, T2.
  pose proof (unsent_loop_spec q2 (take k ps) (drop k ps) h s2') as U. rewrite Hps, Hk in U. specialize (U T1).
  rewrite length_drop in U. replace (Z.of_nat k) with ret in U by lia.
  replace (Z.to_nat (Z.of_nat (length ps) - ret)) with (length ps - k)%nat by lia. rewrite U.
  destruct (refuse (drop k ps) s2') as [s3| |]; cbn [mbind outcome_bind]; [|done|done].
  split; [done|]. split_and!; try done.
  - exact (holds_less q2 [] ps h T1).
  - cbn. unfold MAX_PKT_BURST. lia.
  - cbn. rewrite T3. cbn. by rewrite Hp.
  - unfold accounted in *. cbn [taken refused forgotten waiting made]. rewrite app_nil_r.
    rewrite <- Ha. fold ps. rewrite <- Hps at 3. clear. solve_Permutation.
Qed.

Lemma same_outcome_map {A B C : Type} (R : B -> C -> Prop) (f : A -> B) o1 (o2 : outcome (C * net)) :
  same_outcome (fun a c => R (f a) c) o1 o2 -> same_outcome R ('(a, s) ← o1; Ok (f a, s)) o2.
Proof. by destruct o1 as [[a s1]| |], o2 as [[c s2]| |]. Qed.

Lemma queue_of_forget q x : queue_of port queue q x -> queue_of port queue (set_tx_len 0 q) (forget x).
Proof.
  intros (Q1 & Q2 & Q3 & Q4 & Q5 & Q6). split_and!; try done.
  - exact (holds_less q [] (waiting x) (to_ring x) Q1).
  - cbn. unfold MAX_PKT_BURST. lia.
  - unfold accounted in *. cbn [taken refused forgotten waiting made]. rewrite app_nil_r. exact Q6.
Qed.

(** The table with one more packet. *)
Lemma queue_put q x p : queue_of port queue q x ->
  exists t b, store (tx_m_table q) (tx_len q) p.1 = Ok t /\ store (bsd_m_table q) (tx_len q) p.2 = Ok b /\
    holds (set_tables (tx_len q) t b q) (waiting (put p x)) (to_ring (put p x)).
Proof.
  intros ((Q1 & Q2 & [t Et] & [b Eb] & Q5 & Q6 & Q7) & Ql & Qm & _).
  rewrite Et, length_app, length_fmap in Q5. rewrite Eb, length_app, length_fmap in Q6.
  destruct t as [|v t]; [cbn in Q5; lia|]. destruct b as [|w b]; [cbn in Q6; lia|].
  exists ((waiting x).*1 ++ p.1 :: t), ((waiting x).*2 ++ p.2 :: b).
  rewrite Et, Eb, Ql. split_and!; try done.
  - rewrite <- (length_fmap fst) at 1. apply store_app.
  - rewrite <- (length_fmap snd) at 1. apply store_app.
  - split_and!; try done.
    + exists t. cbn. by rewrite fmap_app, <- app_assoc.
    + exists b. cbn. by rewrite fmap_app, <- app_assoc.
    + cbn. rewrite length_app, length_fmap. cbn in *. lia.
    + cbn. rewrite length_app, length_fmap. cbn in *. lia.
Qed.

Lemma accounted_put x p : accounted x -> accounted (put p x).
Proof. unfold accounted. cbn [put taken refused forgotten waiting made]. intros <-. solve_Permutation. Qed.

Lemma u16_small z : 0 <= z < 65536 -> u16 z = z.
Proof. intros Hz. unfold uwrap. by rewrite Z.mod_small. Qed.

Lemma tx_step_refines o q x s : queue_of port queue q x ->
  same_outcome (queue_of port queue) (tx_step pg pcap o q s) (q_step pg pcap port queue o x s).
Proof.
  intros Q. destruct o as [fuel f m total|]; cbn [tx_step q_step].
  - unfold lazybsd_dpdk_if_send, lazybsd_if_send_onepkt.
    destruct (m =? 0); cbn [mbind outcome_bind]; [split; [done|]; by apply queue_of_forget|].
    destruct (onepkt_head pg fuel m total s) as [[head s1]| |]; cbn [mbind outcome_bind]; [|done|done].
    destruct (head =? 0).
    { destruct (lazybsd_mbuf_free m s1) as [s2| |]; cbn [mbind outcome_bind]; [|done|done].
      split; [done|]. by apply queue_of_forget. }
    destruct (lazybsd_offload_set f m head s1) as [s2| |]; cbn [mbind outcome_bind]; [|done|done].
    destruct (queue_put q x (head, m) Q) as (t & b & E1 & E2 & Hh). cbn [fst snd] in E1, E2.
    rewrite E1, E2. cbn [mbind outcome_bind].
    destruct Q as (Q1 & Q2 & Q3 & Q4 & Q5 & Q6). set (q1 := set_tables _ t b q) in *.
    set (x1 := put (head, m) x) in *.
    assert (tx_len q + 1 = Z.of_nat (length (waiting x1))) as El.
    { rewrite Q2. apply of_nat_S_length. }
    destruct (Nat.eqb_spec (length (waiting x1)) MAX_PKT_BURST) as [E|Hn].
    + rewrite El, E, Z.eqb_refl, <- E. apply same_outcome_map, send_burst_spec; [done..|].
      by apply accounted_put.
    + rewrite El, (proj2 (Z.eqb_neq _ _)) by lia. split; [done|].
      assert (length (waiting x1) < MAX_PKT_BURST)%nat as Hlt.
      { unfold x1 in *. cbn [put waiting] in *. rewrite length_app in *. cbn in *. lia. }
      rewrite u16_small by (unfold MAX_PKT_BURST in Hlt; lia).
      split_and!; try done. by apply accounted_put.
  - destruct Q as (Q1 & Q2 & Q3 & Q4 & Q5 & Q6). unfold tx_drain. rewrite Q2.
    destruct (Nat.eqb_spec (length (waiting x)) 0) as [E|Hn].
    + rewrite E. cbn. done.
    + rewrite (proj2 (Z.eqb_neq _ 0)) by lia. by apply same_outcome_map, send_burst_spec.
Qed.

Lemma tx_run_refines l q x s : queue_of port queue q x ->
  same_outcome (queue_of port queue) (tx_run pg pcap l q s) (q_run pg pcap port queue l x s).
Proof.
  revert q x s. induction l as [|o l IH]; intros q x s Q; cbn [tx_run q_run]; [by split|].
  eapply same_outcome_bind; [by apply tx_step_refines|]. intros q' x' s' Q'. by apply IH.
Qed.

(** C3. Sending implements a queue of packets.  For any sequence of packets to send and
    drains of the table, the driver does to the heap and to the NIC what a queue does
    that hands all waiting packets to the NIC when there are 32 of them or when it is
    drained, gives the [mbuf]s of those it takes to a ring of 512 slots, and frees the
    others; with the same outcome, faults included.  At the end the table holds the
    waiting packets, and each packet made was taken, was refused and freed, waits, or
    was forgotten: the driver forgets the waiting packets, without freeing them, when a
    packet cannot be made. *)
Theorem tx_refines l s :
  same_outcome (queue_of port queue) (tx_run pg pcap l (tx_init port queue) s)
    (q_run pg pcap port queue l q_init s).
Proof.
  apply tx_run_refines. split_and!; try done.
  - split_and!; try done; [by exists (replicate MAX_PKT_BURST 0)..|apply ring_of_init].
  - cbn. unfold MAX_PKT_BURST. lia.
  - by unfold accounted.
Qed.
End SendFacts.

(** ** What the packet describes *)
Section ToRte.
Context `{MbufKernel}.
Context (pg : pages).

(** DPDK: a pointer names one [rte_mbuf] from its allocation on; a new one has no
    successor. *)
Context (doc_rte_alloc : forall s p s', rte_pktmbuf_alloc s = (p, s') ->
  p = 0 /\ s' = s \/
  p <> 0 /\ rte s !! p = None /\ exists r, next r = 0 /\ s' = set_rte (<[p := r]> (rte s)) s).

(** The segment for an [mbuf]: its data, at the physical address. *)
Definition tx_seg (m : mbuf) (r : rte_mbuf) : Prop :=
  buf r = m_data m /\ data_len r = u16 (m_len m) /\ lazybsd_mem_virt2phy (m_data m) pg = Ok (buf_iova r).

(** The segments [ps], from [p] on, for the [mbuf]s [ms]. *)
Fixpoint tx_chain (h : gmap Z rte_mbuf) (p : Z) (ps : list Z) (ms : list (Z * mbuf)) : Prop :=
  match ps, ms with
  | [], [] => p = 0
  | q :: ps, m :: ms =>
      p = q /\ p <> 0 /\ exists r, h !! p = Some r /\ tx_seg m.2 r /\ tx_chain h (next r) ps ms
  | _, _ => False
  end.

Lemma tx_chain_ext h h' p ps ms :
  (forall q, q ∈ ps -> exists r r', h !! q = Some r /\ h' !! q = Some r' /\ next r' = next r /\
     buf r' = buf r /\ data_len r' = data_len r /\ buf_iova r' = buf_iova r) ->
  tx_chain h p ps ms -> tx_chain h' p ps ms.
Proof.
  revert p ms. induction ps as [|q ps IH]; intros p [|m ms] Hq; cbn; try done.
  intros (-> & Hn & r & Hr & Hs & Hc). split_and!; [done|done|].
  destruct (Hq q) as (r0 & r' & E & E' & F1 & F2 & F3 & F4); [set_solver|].
  rewrite Hr in E. injection E as <-. exists r'. split; [done|]. split.
  - unfold tx_seg in *. by rewrite F2, F3, F4.
  - rewrite F1. apply IH; [|done]. intros q' Hq'. apply Hq. set_solver.
Qed.

Lemma tx_chain_length h p ps ms : tx_chain h p ps ms -> length ps = length ms.
Proof.
  revert p ms. induction ps as [|q ps IH]; intros p [|m ms]; cbn; try done.
  intros (_ & _ & r & _ & _ & Hc). f_equal. by eapply IH.
Qed.

(** One more segment behind the last one, which is [prev]. *)
Lemma tx_chain_snoc h h' p ps prev rp ms cur rc m :
  tx_chain h p (ps ++ [prev]) ms -> NoDup (ps ++ [prev]) -> h !! prev = Some rp ->
  cur ∉ ps ++ [prev] -> cur <> 0 -> (forall q, q ∈ ps -> h' !! q = h !! q) ->
  h' !! prev = Some (set_next cur rp) -> h' !! cur = Some rc -> tx_seg m.2 rc -> next rc = 0 ->
  tx_chain h' p (ps ++ [prev; cur]) (ms ++ [m]).
Proof.
  intros Hc Hnd Hp Hcur Hn0 Hps Hprev Hh' Hseg Hnext. revert p ms Hc Hnd Hcur Hps.
  induction ps as [|q ps IH]; intros p ms Hc Hnd Hcur Hps.
  - destruct ms as [|m0 [|]]; cbn in Hc |- *; try done; [|by destruct Hc as (_ & _ & ? & _ & _ & ?)].
    destruct Hc as (-> & Hn & r & Hr & Hs & Hc). rewrite Hp in Hr. injection Hr as <-.
    split_and!; [done|done|]. exists (set_next cur rp). split_and!; [done|done|done|done|]. by exists rc.
  - destruct ms as [|m0 ms]; cbn in Hc |- *; [done|].
    destruct Hc as (-> & Hn & r & Hr & Hs & Hc). split_and!; [done|done|]. exists r.
    apply NoDup_cons in Hnd as [Hq Hnd]. rewrite Hps by set_solver. split_and!; [done|done|].
    apply IH; [done|done|set_solver|]. intros. apply Hps. set_solver.
Qed.

Lemma assign_rte_Ok s p r f :
  rte s !! p = Some r -> assign_rte p f s = Ok (set_rte (<[p := f r]> (rte s)) s).
Proof. intros Hp. unfold assign_rte, deref_rte. by rewrite Hp. Qed.

(** The head carries the length and the number of segments. *)
Definition tx_head (h : gmap Z rte_mbuf) (p total n : Z) : Prop :=
  exists r, h !! p = Some r /\ pkt_len r = u32 total /\ nb_segs r = n.

(** The packets there were are as they were. *)
Definition keeps (h h' : gmap Z rte_mbuf) : Prop := forall q r, h !! q = Some r -> h' !! q = Some r.

(** What the state is after [done_] have their segments [ps]. *)
Definition described (s0 s : net) (total head : Z) (ps : list Z) (done_ : list (Z * mbuf)) : Prop :=
  tx_chain (rte s) head ps done_ /\ NoDup ps /\ (forall q, q ∈ ps -> rte s0 !! q = None) /\
  tx_head (rte s) head total (Z.of_nat (length done_)) /\ keeps (rte s0) (rte s) /\
  mbufs s = mbufs s0 /\ Mbuf.bytes s = Mbuf.bytes s0.

Lemma tx_chain_in h p ps ms q : tx_chain h p ps ms -> q ∈ ps -> q <> 0 /\ exists r, h !! q = Some r.
Proof.
  revert p ms. induction ps as [|q' ps IH]; intros p [|m ms]; cbn; try done; [set_solver|].
  intros (-> & Hn & r & Hr & _ & Hc) [->|Hq]%elem_of_cons; [by eauto|]. by eapply IH.
Qed.

Lemma tx_chain_head h p ps ms q : tx_chain h p (q :: ps) ms -> p = q.
Proof. destruct ms; cbn; [done|]. by intros (-> & _). Qed.

(** The description of one [mbuf] in the segment [cur]. *)
Definition fill (m : mbuf) (iova : Z) (r : rte_mbuf) : rte_mbuf :=
  set_data_len (u16 (m_len m)) (set_buf_iova iova (set_buf (m_data m) r)).

Lemma described_step s0 s total head ps prev done_ cur r m iova :
  described s0 s total head (ps ++ [prev]) done_ -> Z.of_nat (length done_) < 65535 ->
  rte s !! cur = None -> cur <> 0 -> next r = 0 -> lazybsd_mem_virt2phy (m_data m.2) pg = Ok iova ->
  let s1 := set_rte (<[cur := fill m.2 iova r]> (rte s)) s in
  exists s2, (s2 ← assign_rte head (fun r => set_nb_segs (u16 (nb_segs r + 1)) r) s1;
              assign_rte prev (set_next cur) s2) = Ok s2 /\
    described s0 s2 total head (ps ++ [prev; cur]) (done_ ++ [m]) /\ calls s2 = calls s.
Proof.
  intros (D1 & D2 & D3 & (rh & Hh & Hpl & Hns) & D5 & D6 & D7) Hlen Hcur Hn0 Hr Hi s1.
  set (f := fun r => set_nb_segs (u16 (nb_segs r + 1)) r).
  assert (head ∈ ps ++ [prev]) as Hin.
  { destruct ps as [|q ps]; cbn in D1 |- *; [|]; destruct done_; try done; destruct D1 as (-> & _); set_solver. }
  assert (forall q, q ∈ ps ++ [prev] -> q <> cur) as Hne.
  { intros q Hq ->. destruct (tx_chain_in _ _ _ _ _ D1 Hq) as (_ & r' & E). by rewrite E in Hcur. }
  set (h := <[head := f rh]> (rte s)).
  assert (tx_chain h head (ps ++ [prev]) done_) as Hc.
  { eapply tx_chain_ext; [|exact D1]. intros q Hq. destruct (tx_chain_in _ _ _ _ _ D1 Hq) as (_ & r' & E).
    exists r'. unfold h. destruct (decide (q = head)) as [->|Hqh].
    - rewrite Hh in E. injection E as <-. exists (f rh). rewrite lookup_insert_eq. by split_and!.
    - exists r'. rewrite lookup_insert_ne by done. by split_and!. }
  destruct (tx_chain_in _ _ _ _ prev Hc) as (Hp0 & rp & Hrp); [set_solver|].
  rewrite (assign_rte_Ok _ head rh); [|unfold s1; cbn [rte set_rte]; rewrite lookup_insert_ne by (by apply not_eq_sym, Hne); exact Hh].
  cbn [mbind outcome_bind]. rewrite (assign_rte_Ok _ prev rp).
  2: { unfold s1. cbn [rte set_rte]. rewrite insert_insert_ne by (by apply Hne).
       rewrite lookup_insert_ne by (apply not_eq_sym, Hne; set_solver). exact Hrp. }
  eexists. split; [done|]. split; [|done]. unfold s1. cbn [rte set_rte mbufs bytes].
  assert (length ps + 1 = length done_)%nat as Hlp.
  { apply tx_chain_length in D1. rewrite length_app in D1. done. }
  set (h' := <[prev := _]> _).
  assert (h' = <[prev := set_next cur rp]> (<[cur := fill m.2 iova r]> h)) as Eh'.
  { unfold h', h. by rewrite (insert_insert_ne _ head cur) by (by apply Hne). }
  split_and!; cbn [rte set_rte mbufs bytes]; try done.
  - apply (tx_chain_snoc h _ _ _ _ rp _ _ (fill m.2 iova r)); try done.
    + intros Hc'. by apply (Hne cur).
    + intros q Hq. rewrite Eh', !lookup_insert_ne; [done| |].
      * apply not_eq_sym, Hne. set_solver.
      * intros <-. apply NoDup_app in D2 as (_ & D2 & _). apply (D2 prev Hq). set_solver.
    + by rewrite Eh', lookup_insert_eq.
    + rewrite Eh', lookup_insert_ne, lookup_insert_eq by (apply Hne; set_solver). done.
  - change (ps ++ [prev; cur]) with (ps ++ [prev] ++ [cur]). rewrite app_assoc. apply NoDup_app.
    split_and!; [done| |apply NoDup_singleton].
    intros q Hq ->%list_elem_of_singleton. by apply (Hne cur).
  - intros q Hq. assert (q ∈ ps ++ [prev] \/ q = cur) as [Hq'| ->] by set_solver; [by apply D3|].
    destruct (rte s0 !! cur) as [r0|] eqn:E; [|done]. apply D5 in E. by rewrite E in Hcur.
  - exists (if decide (prev = head) then set_next cur (f rh) else f rh). rewrite Eh'. unfold h in *.
    rewrite length_app. cbn [length]. case_decide as Hd.
    + subst prev. rewrite lookup_insert_eq. rewrite lookup_insert_eq in Hrp. injection Hrp as <-.
      split_and!; [done|done|]. cbn. rewrite Hns, u16_small by lia. lia.
    + rewrite lookup_insert_ne, lookup_insert_ne, lookup_insert_eq by (done || by apply not_eq_sym, Hne).
      split_and!; [done|done|]. cbn. rewrite Hns, u16_small by lia. lia.
  - intros q r0 E. assert (q ∉ ps ++ [prev; cur]) as Hq.
    { intros Hq. assert (q ∈ ps ++ [prev] \/ q = cur) as [Hq'| ->] by set_solver.
      - by rewrite (D3 q Hq') in E.
      - apply D5 in E. by rewrite E in Hcur. }
    assert (q <> head) by (intros ->; set_solver).
    rewrite Eh'. unfold h. rewrite !lookup_insert_ne by set_solver. by apply D5.
Qed.

(** The fields of one segment. *)
Lemma fill_segment s cur r m iova {B} (k : net -> outcome B) :
  rte s !! cur = Some r -> lazybsd_mem_virt2phy (m_data m) pg = Ok iova ->
  (s ← assign_rte cur (set_buf (m_data m)) s;
   i ← lazybsd_mem_virt2phy (m_data m) pg;
   s ← assign_rte cur (set_buf_iova i) s;
   s ← assign_rte cur (set_data_len (u16 (m_len m))) s;
   k s) = k (set_rte (<[cur := fill m iova r]> (rte s)) s).
Proof.
  intros Hr Hi. rewrite (assign_rte_Ok s cur r) by done. rewrite Hi. cbn [mbind outcome_bind].
  do 2 (erewrite assign_rte_Ok; [|cbn [rte set_rte]; by rewrite lookup_insert_eq];
    cbn [mbind outcome_bind rte set_rte]; rewrite insert_insert_eq). done.
Qed.

Lemma keeps_alloc s p r : rte s !! p = None -> keeps (rte s) (<[p := r]> (rte s)).
Proof. intros Hp q r' Hq. rewrite lookup_insert_ne; [done|]. intros ->. by rewrite Hp in Hq. Qed.

Lemma bsd_to_rte_loop_spec fuel ms p s0 s total head ps prev done_ :
  described s0 s total head (ps ++ [prev]) done_ -> linked m_next (mbufs s0) p ms ->
  (length ms <= fuel)%nat -> Z.of_nat (length done_ + length ms) < 65536 ->
  (forall x, x ∈ ms -> exists i, lazybsd_mem_virt2phy (m_data x.2) pg = Ok i) ->
  (exists s', bsd_to_rte_loop pg fuel head 0 prev p s = Ok (0, s') /\
     calls s' = calls s ++ [rte_pktmbuf_free head] /\ keeps (rte s0) (rte s') /\
     mbufs s' = mbufs s0 /\ Mbuf.bytes s' = Mbuf.bytes s0) \/
  (exists s' ps', bsd_to_rte_loop pg fuel head 0 prev p s = Ok (head, s') /\
     described s0 s' total head ps' (done_ ++ ms) /\ calls s' = calls s).
Proof.
  revert fuel p s ps prev done_. induction ms as [|m ms IH]; intros fuel p s ps prev done_ D Hl Hf Hn Hv.
  { cbn in Hl. subst p. right. exists s, (ps ++ [prev]). rewrite app_nil_r. split; [by destruct fuel|done]. }
  destruct Hl as (-> & Hp & Hm & Hl). destruct fuel as [|fuel]; [cbn in Hf; lia|].
  cbn [bsd_to_rte_loop]. rewrite (proj2 (Z.eqb_neq _ 0) Hp), Z.eqb_refl.
  destruct (rte_pktmbuf_alloc s) as [cur s1] eqn:Ea. pose proof D as (_ & _ & _ & _ & D5 & D6 & D7).
  destruct (doc_rte_alloc _ _ _ Ea) as [[-> ->]|(Hc0 & Hfresh & r & Hr & ->)].
  { left. exists (do_call (rte_pktmbuf_free head) s). by rewrite Z.eqb_refl. }
  rewrite (proj2 (Z.eqb_neq _ 0) Hc0). unfold lazybsd_next_mbuf, deref. cbn [mbufs set_rte].
  rewrite D6, Hm. cbn [mbind outcome_bind].
  destruct (Hv m) as [iova Hi]; [set_solver|].
  pose proof (fill_segment (set_rte (<[cur := r]> (rte s)) s) cur r m.2 iova
    (fun s => s ← assign_rte head (fun r => set_nb_segs (u16 (nb_segs r + 1)) r) s;
      s ← (if negb (prev =? 0) then assign_rte prev (set_next cur) s else Ok s);
      bsd_to_rte_loop pg fuel head 0 cur (m_next m.2) s)) as E.
  cbn [mbufs set_rte] in E. rewrite E; [|by cbn; rewrite lookup_insert_eq|done]. clear E. cbn [rte set_rte]. rewrite insert_insert_eq.
  destruct (described_step s0 s total head ps prev done_ cur r m iova) as (s2 & E & D' & Hcalls); try done.
  { cbn in Hn. lia. }
  assert (prev <> 0) as Hprev.
  { destruct D as (D1 & _). eapply tx_chain_in; [exact D1|set_solver]. }
  apply outcome_bind_Ok in E as (s' & E1 & E2).
  change (set_rte (<[cur := fill m.2 iova r]> (rte s)) (set_rte (<[cur := r]> (rte s)) s))
    with (set_rte (<[cur := fill m.2 iova r]> (rte s)) s).
  rewrite E1. cbn [mbind outcome_bind]. rewrite (proj2 (Z.eqb_neq prev 0) Hprev). cbn [negb].
  rewrite E2. cbn [mbind outcome_bind]. rewrite <- Hcalls.
  replace (done_ ++ m :: ms) with ((done_ ++ [m]) ++ ms) by by rewrite <- app_assoc.
  apply (IH fuel _ s2 (ps ++ [prev])); [by rewrite <- app_assoc|done|cbn in Hf; lia| |].
  - rewrite length_app. cbn in Hn |- *. lia.
  - intros x Hx. apply Hv. set_solver.
Qed.

(** What the NIC is told to send.  For a chain of [mbuf]s whose data lie in the
    pages of the stack, [lazybsd_bsd_to_rte] returns, and changes no packet there was,
    no [mbuf] and no data.  Either there is no memory, and the segments made are freed;
    or it makes a new segment for each [mbuf] of the chain, in order, with its address,
    its length and its physical address, and the first carries the length of the packet
    and the number of segments. *)
Theorem bsd_to_rte_describes fuel m ms total s :
  linked m_next (mbufs s) m ms -> ms <> [] -> (length ms <= fuel)%nat -> Z.of_nat (length ms) < 65536 ->
  (forall x, x ∈ ms -> exists i, lazybsd_mem_virt2phy (m_data x.2) pg = Ok i) ->
  exists head s', lazybsd_bsd_to_rte pg fuel m total s = Ok (head, s') /\
    keeps (rte s) (rte s') /\ mbufs s' = mbufs s /\ Mbuf.bytes s' = Mbuf.bytes s /\
    (head = 0 /\ (calls s' = calls s \/
       exists p, rte s !! p = None /\ calls s' = calls s ++ [rte_pktmbuf_free p]) \/
     head <> 0 /\ calls s' = calls s /\
       exists ps, NoDup ps /\ (forall q, q ∈ ps -> rte s !! q = None) /\ tx_chain (rte s') head ps ms /\
         tx_head (rte s') head total (Z.of_nat (length ms))).
Proof.
  intros Hl Hms Hf Hn Hv. unfold lazybsd_bsd_to_rte.
  destruct (rte_pktmbuf_alloc s) as [head s1] eqn:Ea.
  destruct (doc_rte_alloc _ _ _ Ea) as [[-> ->]|(Hc0 & Hfresh & r & Hr & ->)].
  { exists 0, s. rewrite Z.eqb_refl. split; [done|]. split; [by intros q r|]. split; [done|]. split; [done|].
    left. split; [done|by left]. }
  rewrite (proj2 (Z.eqb_neq _ 0) Hc0).
  do 2 (erewrite assign_rte_Ok; [|cbn [rte set_rte]; by rewrite lookup_insert_eq];
    cbn [mbind outcome_bind rte set_rte]; rewrite insert_insert_eq).
  set (r0 := set_nb_segs 0 _). destruct ms as [|x ms]; [done|]. destruct Hl as (-> & Hp & Hm & Hl).
  destruct fuel as [|fuel]; [cbn in Hf; lia|]. cbn [bsd_to_rte_loop].
  rewrite (proj2 (Z.eqb_neq _ 0) Hp), (proj2 (Z.eqb_neq _ 0) Hc0), (proj2 (Z.eqb_neq _ 0) Hc0).
  unfold lazybsd_next_mbuf, deref. cbn [mbufs set_rte]. rewrite Hm. cbn [mbind outcome_bind].
  destruct (Hv x) as [iova Hi]; [set_solver|].
  match goal with |- context [assign_rte head (set_buf _) ?s0] => set (s1 := s0) end.
  pose proof (fill_segment s1 head r0 x.2 iova
    (fun s => s ← assign_rte head (fun r => set_nb_segs (u16 (nb_segs r + 1)) r) s;
      s ← (if negb (0 =? 0) then assign_rte 0 (set_next head) s else Ok s);
      bsd_to_rte_loop pg fuel head 0 head (m_next x.2) s)) as E.
  rewrite E; [|by unfold s1; cbn; rewrite lookup_insert_eq|done]. clear E. unfold s1. cbn [rte set_rte]. rewrite insert_insert_eq.
  erewrite assign_rte_Ok; [|cbn [rte set_rte]; by rewrite lookup_insert_eq].
  cbn [mbind outcome_bind rte set_rte]. rewrite insert_insert_eq, Z.eqb_refl. cbn [negb mbind outcome_bind].
  match goal with |- context [bsd_to_rte_loop _ _ _ _ _ _ ?s0] => set (s2 := s0) end.
  assert (described s s2 total head ([] ++ [head]) [x]) as D.
  { unfold s2. split_and!; cbn [rte set_rte mbufs bytes]; try done.
    - cbn. rewrite lookup_insert_eq. split_and!; [done|done|]. eexists. by split_and!.
    - apply NoDup_singleton.
    - by intros q ->%list_elem_of_singleton.
    - eexists. rewrite lookup_insert_eq. by split_and!.
    - by apply keeps_alloc. }
  assert (calls s2 = calls s) as Hcalls by done. clearbody s2.
  destruct (bsd_to_rte_loop_spec fuel ms _ s s2 total head [] head [x] D Hl)
    as [(s' & E & F1 & F2 & F3 & F4)|(s' & ps' & E & (G1 & G2 & G3 & G4 & G5 & G6 & G7) & F)].
  - cbn in Hf. lia.
  - cbn in Hn |- *. lia.
  - intros y Hy. apply Hv. set_solver.
  - exists 0, s'. do 4 (split; [done|]). left. split; [done|]. right. exists head. by rewrite F1, Hcalls.
  - exists head, s'. do 4 (split; [done|]). right. split_and!; [done|by rewrite F|]. exists ps'. by split_and!.
Qed.
End ToRte.

(** ** Examples *)

(** A NIC that takes all packets. *)
#[export] Instance example_tx_kernel `{MbufKernel} : TxKernel := {
  RTE_MBUF_F_TX_TCP_CKSUM := 1; RTE_MBUF_F_TX_IPV4 := 2; RTE_MBUF_F_TX_TCP_SEG := 4;
  rte_ipv4_phdr_cksum m iph f := 0;
  rte_pktmbuf_clone p s := rte_pktmbuf_alloc s;
  rte_eth_tx_burst p q l s := (Z.of_nat (length l), s) }.

Lemma example_rte_alloc limit s p s' :
  rte_pktmbuf_alloc (MbufKernel := example_mbuf_kernel limit) s = (p, s') ->
  p = 0 /\ s' = s \/
  p <> 0 /\ rte s !! p = None /\ exists r, next r = 0 /\ s' = set_rte (<[p := r]> (rte s)) s.
Proof.
  cbn [rte_pktmbuf_alloc example_mbuf_kernel]. case_decide; [|intros [= <- <-]; by left].
  pose proof (is_fresh (dom (rte s) ∪ {[0]} : gset Z)) as Hf. set (q := fresh _) in *. clearbody q.
  intros [= <- <-]. right. split; [set_solver|]. split; [apply not_elem_of_dom; set_solver|]. by exists (RteMbuf 0 0 0 0 1 0 0 0 0 0 0 0).
Qed.

(** Four pages, and a packet of two [mbuf]s in them. *)
Definition tx_pages : pages := Pages (StackList (Some ∅) 4 0) 4096 20480 (<[0 := 65536]> (<[1 := 131072]> ∅)) ∅.
Definition tx_mbufs : list (Z * mbuf) :=
  [(10, Mbuf 11 0 5000 4 0 (Pkthdr 0 10 0 0 0 0) 0 OTHER_EXT_FREE 0);
   (11, Mbuf 0 0 9000 6 0 (Pkthdr 0 0 0 0 0 0) 0 OTHER_EXT_FREE 0)].
Definition tx_net : net := Net (list_to_map tx_mbufs) ∅ ∅ [].

Lemma bsd_to_rte_describes_witness :
  (linked m_next (mbufs tx_net) 10 tx_mbufs /\
   forall x, x ∈ tx_mbufs -> exists i, lazybsd_mem_virt2phy (m_data x.2) tx_pages = Ok i) /\
  exists head s', lazybsd_bsd_to_rte tx_pages 2 10 10 tx_net = Ok (head, s') /\ mbufs s' = mbufs tx_net.
Proof.
  assert (linked m_next (mbufs tx_net) 10 tx_mbufs) as Hl by (vm_compute; by split_and!).
  assert (forall x, x ∈ tx_mbufs -> exists i, lazybsd_mem_virt2phy (m_data x.2) tx_pages = Ok i) as Hv.
  { intros x [->|[->|?%not_elem_of_nil]%elem_of_cons]%elem_of_cons; [| |done]; eexists; by vm_compute. }
  split; [by split|].
  destruct (bsd_to_rte_describes tx_pages (example_rte_alloc 8) 2 10 tx_mbufs 10 tx_net)
    as (head & s' & E & _ & F & _); [done|done|cbn; lia|cbn; lia|done|].
  exists head, s'. by split.
Defined.

Definition tx_ops : list tx_op := [IfSend 2 0 10 10; Drain].

Lemma tx_refines_witness :
  (forall p q l s, 0 <= (rte_eth_tx_burst p q l s).1 <= Z.of_nat (length l)) /\
  exists q s, tx_run tx_pages false tx_ops (tx_init 0 0) tx_net = Ok (q, s) /\ tx_len q = 0.
Proof.
  assert (forall p q l s, 0 <= (rte_eth_tx_burst p q l s).1 <= Z.of_nat (length l)) as Hd.
  { intros p q l s. cbn. lia. }
  split; [done|]. pose proof (tx_refines tx_pages false 0 0 Hd tx_ops tx_net) as R.
  destruct (tx_run _ _ _ _ _) as [[q s]| |] eqn:E.
  - exists q, s. split; [done|]. destruct (q_run _ _ _ _ _ _ _) as [[x s2]| |] eqn:E2; [|done|done].
    destruct R as (_ & _ & -> & _). assert (forall r, q_run tx_pages false 0 0 tx_ops q_init tx_net = Ok r ->
      length (waiting r.1) = 0%nat) as Hw by (intros r; vm_compute; by intros [= <-]).
    pose proof (Hw _ E2) as E3. cbn [fst] in E3. by rewrite E3.
  - exfalso. assert (tx_run tx_pages false tx_ops (tx_init 0 0) tx_net <> Panic) as Hp by by vm_compute. done.
  - exfalso. assert (tx_run tx_pages false tx_ops (tx_init 0 0) tx_net <> Diverge) as Hp by by vm_compute. done.
Defined.

(** Without memory for the second packet the first one is neither sent nor freed. *)
Example send_failure_forgets :
  match tx_run (H := example_mbuf_kernel 2) tx_pages false [IfSend 2 0 10 10; IfSend 2 0 11 6; Drain]
          (tx_init 0 0) tx_net with
  | Ok (q, s) => tx_packets q = 0 /\ tx_len q = 0 /\ bool_decide (is_Some (mbufs s !! 10)) = true
  | _ => False
  end.
Proof. vm_compute. by split_and!. Qed.

(** A packet of the dispatcher is sent from a slot of the table with a stale [mbuf]: the
    [mbuf] is put into the ring a second time, to be freed twice. *)
Example send_single_packet_stale :
  match ('(q, s) ← tx_run tx_pages false tx_ops (tx_init 0 0) tx_net;
         let '(rtem, s) := rte_pktmbuf_alloc s in
         '(q, s) ← send_single_packet false rtem q s;
         tx_drain false q s) with
  | Ok (q, s) => take 3 (m_table (nic_tx_ring q)) = [0; 10; 10]
  | _ => False
  end.
Proof. by vm_compute. Qed.
