(* ===== verification/SendCopy.v ===== *)
(** * SendCopy: sending without the table of pages ([src/lazybsd_dpdk.cc])

    A driver that is built without [LAZYBSD_USE_PAGE_ARRAY] cannot point a packet into the [mbuf]s
    of the stack (Send.v): [lazybsd_dpdk_if_send] copies the data into buffers of its own,
    frees the [mbuf]s at once, and puts the packet into the table of the port
    ([send_single_packet]).  In such a driver the table has no [mbuf]s: they are zero here.

    The file shows that the copy is the packet, in as few segments as it fits in, and that nothing is lost when
    there is no memory. *)
From S2P Require Import Prelude Errno KernSubr SockConv Pages Mbuf TxRing Send.

(** What DPDK defines for it. *)
Class CopyKernel := {
  RTE_MBUF_DEFAULT_DATAROOM : Z;
  RTE_MBUF_F_TX_IP_CKSUM : Z;
  RTE_MBUF_F_TX_UDP_CKSUM : Z }.

Section Copy.
Context `{MbufKernel} `{TxKernel} `{CopyKernel}.

(** ** The copy *)

(** The loop over the data; [false] if there is no memory, or no data. *)
Fixpoint copy_loop (fuel : nat) (head cur prev off total m : Z) (s : net) : outcome (bool * net) :=
  if total <=? 0 then Ok (true, s) else
  match fuel with
  | O => Diverge
  | S fuel =>
      let '(cur, s) := if cur =? 0 then rte_pktmbuf_alloc s else (cur, s) in
      if cur =? 0 then
        s ← lazybsd_mbuf_free m (do_call (rte_pktmbuf_free head) s); Ok (false, s)
      else
        s ← (if negb (prev =? 0) then assign_rte prev (set_next cur) s else Ok s);
        s ← assign_rte head (fun r => set_nb_segs (u16 (nb_segs r + 1)) r) s;
        c ← deref_rte s cur;
        let len := if RTE_MBUF_DEFAULT_DATAROOM <? total then RTE_MBUF_DEFAULT_DATAROOM else total in
        '(ret, s) ← lazybsd_mbuf_copydata m (buf c) off len s;
        if ret <? 0 then
          s ← lazybsd_mbuf_free m (do_call (rte_pktmbuf_free head) s); Ok (false, s)
        else
          s ← assign_rte cur (set_data_len (u16 len)) s;
          copy_loop fuel head 0 cur (i32 (off + len)) (i32 (total - len)) m s
  end.

(** The packet, or NULL. *)
Definition copy_packet (fuel : nat) (m total : Z) (s : net) : outcome (Z * net) :=
  let '(head, s) := rte_pktmbuf_alloc s in
  if head =? 0 then s ← lazybsd_mbuf_free m s; Ok (0, s)
  else
    s ← assign_rte head (set_pkt_len (u32 total)) s;
    s ← assign_rte head (set_nb_segs 0) s;
    '(done_, s) ← copy_loop fuel head head 0 0 total m s;
    Ok (if done_ : bool then head else 0, s).

(** What the NIC is to compute; [tx_csum_l4] is the feature of the port. *)
Definition copy_offload (tx_csum_l4 : Z) (m head : Z) (s : net) : outcome net :=
  offload ← lazybsd_mbuf_tx_offload m (TxOffload 0 0 0 0 0) s;
  h ← deref_rte s head;
  let iph := buf h + RTE_ETHER_HDR_LEN in
  s ← (if negb (ip_csum offload =? 0) then
         s ← assign_rte head (or_flags (Z.lor RTE_MBUF_F_TX_IP_CKSUM RTE_MBUF_F_TX_IPV4)) s;
         assign_rte head (set_l2_l3 RTE_ETHER_HDR_LEN (iph_len iph s)) s
       else Ok s);
  if tx_csum_l4 =? 0 then Ok s else
  let hl := iph_len iph s in
  s ← (if negb (tcp_csum offload =? 0) then
         s ← assign_rte head (or_flags RTE_MBUF_F_TX_TCP_CKSUM) s;
         assign_rte head (set_l2_l3 RTE_ETHER_HDR_LEN hl) s
       else Ok s);
  s ← (if negb (tso_seg_size offload =? 0) then
         let tcph := iph + hl in
         let tl := tcph_len tcph s in
         let s := store16 (tcph + 16) (rte_ipv4_phdr_cksum (Mbuf.bytes s) iph RTE_MBUF_F_TX_TCP_SEG) s in
         s ← assign_rte head (or_flags RTE_MBUF_F_TX_TCP_SEG) s;
         assign_rte head (set_l4_tso tl (tso_seg_size offload)) s
       else Ok s);
  if negb (udp_csum offload =? 0) then
    s ← assign_rte head (or_flags RTE_MBUF_F_TX_UDP_CKSUM) s;
    assign_rte head (set_l2_l3 RTE_ETHER_HDR_LEN hl) s
  else Ok s.

Definition lazybsd_dpdk_if_send_copy (pcap : bool) (fuel : nat) (tx_csum_l4 m total : Z) (q : tx_port) (s : net)
    : outcome (Z * tx_port * net) :=
  '(head, s) ← copy_packet fuel m total s;
  if head =? 0 then Ok (-1, q, s) else
  s ← copy_offload tx_csum_l4 m head s;
  s ← lazybsd_mbuf_free m s;
  '(q, s) ← send_single_packet pcap head q s;
  Ok (0, q, s).
End Copy.

(** ** What the packet is *)
Section CopyFacts.
Context `{MbufKernelDoc} `{TxKernel} `{CopyKernel}.
Abbreviation D := RTE_MBUF_DEFAULT_DATAROOM.

(** The buffer of a segment, and the data of an [mbuf]. *)
Definition room (r : rte_mbuf) (b : Z) : Prop := buf r <= b < buf r + D.
Definition in_data (x : mbuf) (b : Z) : Prop := m_data x <= b < m_data x + m_len x.

(** DPDK: the data of a segment fits in 16 bits; a new segment has no successor and no flags, and a buffer of its own. *)
Context (doc_dataroom : 0 < D < 65536).
Context (doc_alloc : forall s p s', rte_pktmbuf_alloc s = (p, s') ->
  p = 0 /\ s' = s \/
  p <> 0 /\ rte s !! p = None /\ exists r, next r = 0 /\ ol_flags r = 0 /\ s' = set_rte (<[p := r]> (rte s)) s /\
    (forall q r' b, rte s !! q = Some r' -> room r b -> ~ room r' b) /\
    (forall q x b, mbufs s !! q = Some x -> room r b -> ~ in_data x b)).
(** The stack: [m_copydata] copies a part of the data of a chain. *)
Context (doc_copydata : forall s m ms off l dst, linked m_next (mbufs s) m ms -> NoDup ms.*1 -> 0 <= off -> 0 <= l ->
  off + l <= Z.of_nat (length (contents (Mbuf.bytes s) ms)) ->
  (forall x b, x ∈ ms -> dst <= b < dst + l -> ~ in_data x.2 b) ->
  exists b', m_copydata m off l dst s = set_bytes b' s /\
    bytes_of b' dst l = take (Z.to_nat l) (drop (Z.to_nat off) (contents (Mbuf.bytes s) ms)) /\
    forall a, ~ (dst <= a < dst + l) -> rd b' a = rd (Mbuf.bytes s) a).

(** The segments [ps], from [p] on, that hold [l]: all of them are full but the last. *)
Fixpoint copied (h : gmap Z rte_mbuf) (b : memory) (p : Z) (ps : list Z) (l : list Z) : Prop :=
  match ps with
  | [] => p = 0 /\ l = []
  | q :: ps => p = q /\ p <> 0 /\ exists r l', h !! q = Some r /\ 0 < data_len r <= D /\ (ps <> [] -> data_len r = D) /\
      l = bytes_of b (buf r) (data_len r) ++ l' /\ copied h b (next r) ps l'
  end.

(** As few segments as possible. *)
Lemma copied_length h b p ps l : copied h b p ps l -> (Z.of_nat (length ps) - 1) * D < Z.of_nat (length l) <= Z.of_nat (length ps) * D \/ ps = [] /\ l = [].
Proof.
  revert p l. induction ps as [|q ps IH]; intros p l; cbn [copied]; [intros [_ ->]; by right|].
  intros (_ & _ & r & l' & _ & Hd & Hf & -> & Hc). left. specialize (IH _ _ Hc). rewrite length_app. cbn [length].
  pose proof (length_bytes_of b (buf r) (data_len r) ltac:(lia)).
  destruct IH as [IH|[-> ->]]; [|cbn; lia].
  destruct ps as [|q' ps]; [cbn in Hc; destruct Hc as [_ ->]; cbn in *; nia|].
  rewrite Hf in * by done. cbn [length] in *. nia.
Qed.

(** A segment in front: it has all that is left, or it is full. *)
Lemma copied_cons h b cur r qs off total data (l := Z.min D total) : cur <> 0 -> h !! cur = Some r -> data_len r = l -> 0 <= off -> 0 < total ->
  off + total = Z.of_nat (length data) -> bytes_of b (buf r) l = take (Z.to_nat l) (drop (Z.to_nat off) data) ->
  copied h b (next r) qs (drop (Z.to_nat (off + l)) data) -> copied h b cur (cur :: qs) (drop (Z.to_nat off) data).
Proof.
  intros Hc Hr Hl Ho Ht Hd Hb Hq. cbn [copied]. split; [done|]. split; [done|]. exists r, (drop (Z.to_nat (off + l)) data).
  rewrite Hl, Hb. split_and!; [done|unfold l; lia|unfold l; lia| | |done].
  - intros Hne. destruct (copied_length _ _ _ _ _ Hq) as [Hcl|[? _]]; [|done]. rewrite length_drop in Hcl.
    assert (0 < Z.of_nat (length qs)) by (destruct qs; [done|cbn; lia]). unfold l in *. nia.
  - rewrite Z2Nat.inj_add, <- drop_drop, take_drop by (unfold l; lia). done.
Qed.

(** A full segment in front of full segments: the first of the data left. *)
Lemma copied_cons_full h b cur r qs off data (n := Z.of_nat (length qs) * D) : cur <> 0 -> h !! cur = Some r -> data_len r = D -> 0 < D -> 0 <= off ->
  bytes_of b (buf r) D = take (Z.to_nat D) (drop (Z.to_nat off) data) ->
  copied h b (next r) qs (take (Z.to_nat n) (drop (Z.to_nat (off + D)) data)) ->
  copied h b cur (cur :: qs) (take (Z.to_nat (Z.of_nat (length (cur :: qs)) * D)) (drop (Z.to_nat off) data)).
Proof.
  intros Hc Hr Hl HD Ho Hb Hq. cbn [copied]. split; [done|]. split; [done|]. eexists r, _.
  rewrite Hl, Hb. split_and!; [done|lia|lia|done| |exact Hq].
  replace (Z.to_nat (Z.of_nat (length (cur :: qs)) * D)) with (Z.to_nat D + Z.to_nat n)%nat by (unfold n; cbn [length]; nia).
  rewrite Z2Nat.inj_add, <- drop_drop by lia. by rewrite take_take_drop.
Qed.

(** What the loop leaves as it was: all but the successor of [prev] and the count of [head]. *)
Definition frame (head prev : Z) (ms : list (Z * mbuf)) (s s' : net) : Prop :=
  mbufs s' = mbufs s /\ calls s' = calls s /\
  (forall x b, x ∈ ms -> in_data x.2 b -> rd (Mbuf.bytes s') b = rd (Mbuf.bytes s) b) /\
  forall q r, rte s !! q = Some r -> exists r', rte s' !! q = Some r' /\
    (q <> head -> q <> prev -> r' = r) /\ (q <> prev -> next r' = next r) /\ (q <> head -> nb_segs r' = nb_segs r) /\
    buf r' = buf r /\ data_len r' = data_len r /\ pkt_len r' = pkt_len r /\ ol_flags r' = ol_flags r /\
    (forall b, room r b -> rd (Mbuf.bytes s') b = rd (Mbuf.bytes s) b).

Lemma copy_frame_refl head prev ms s : frame head prev ms s s.
Proof. split_and!; [done|done|done|]. intros q r Hr. exists r. by split_and!. Qed.

Lemma contents_same b b' ms : (forall x a, x ∈ ms -> in_data x.2 a -> rd b' a = rd b a) -> contents b' ms = contents b ms.
Proof.
  intros Hd. unfold contents. f_equal. apply list_fmap_ext. intros k x Hk.
  apply list_lookup_fmap_Some in Hk as (y & -> & Hy). apply list_elem_of_lookup_2 in Hy.
  apply rd_ext_bytes_of. intros i Hi. apply (Hd y); [done|]. unfold in_data. lia.
Qed.
Lemma frame_contents head prev ms s s' : frame head prev ms s s' -> contents (Mbuf.bytes s') ms = contents (Mbuf.bytes s) ms.
Proof. intros (_ & _ & Hd & _). by apply contents_same. Qed.

(** The frame of a step and of the rest of the loop, which goes on behind [cur]. *)
Lemma copy_frame_trans head prev cur ms s s1 s' : frame head prev ms s s1 -> frame head cur ms s1 s' -> rte s !! cur = None -> frame head prev ms s s'.
Proof.
  intros (M1 & C1 & D1 & R1) (M2 & C2 & D2 & R2) Hc. split_and!; [congruence|congruence|intros x b Hx Hb; rewrite (D2 x b Hx Hb); by apply (D1 x)|].
  intros q r Hr. destruct (R1 q r Hr) as (r1 & E1 & A1 & A2 & A3 & A4 & A5 & A6 & A7 & A8).
  destruct (R2 q r1 E1) as (r2 & E2 & B1 & B2 & B3 & B4 & B5 & B6 & B7 & B8).
  assert (q <> cur) by (intros ->; by rewrite Hc in Hr). exists r2.
  split_and!; try congruence.
  - intros. rewrite B1 by done. by apply A1.
  - intros. rewrite B2 by done. by apply A2.
  - intros. rewrite B3 by done. by apply A3.
  - intros b Hb. rewrite B8, A8; [done|done|]. unfold room in *. congruence.
Qed.

Lemma assign_rte_alter p f s : is_Some (rte s !! p) -> assign_rte p f s = Ok (set_rte (alter f p (rte s)) s).
Proof.
  intros [r Hr]. rewrite (assign_rte_Ok s p r f Hr). do 2 f_equal. apply map_eq. intros i. destruct (decide (i = p)) as [->|Hn].
  - by rewrite lookup_insert_eq, lookup_alter_eq, Hr.
  - by rewrite lookup_insert_ne, lookup_alter_ne by done.
Qed.
Lemma alter_is_Some (f : rte_mbuf -> rte_mbuf) p q (h : gmap Z rte_mbuf) : is_Some (h !! q) -> is_Some (alter f p h !! q).
Proof. intros [r Hr]. destruct (decide (q = p)) as [->|Hn]; [rewrite lookup_alter_eq, Hr; by eexists|rewrite lookup_alter_ne by done; by eexists]. Qed.

(** The pointers after a round. *)
Definition incr_segs (r : rte_mbuf) : rte_mbuf := set_nb_segs (u16 (nb_segs r + 1)) r.
Definition link (head cur prev : Z) (h : gmap Z rte_mbuf) : gmap Z rte_mbuf :=
  alter incr_segs head (if prev =? 0 then h else alter (set_next cur) prev h).
Definition round (head cur prev l : Z) (h : gmap Z rte_mbuf) : gmap Z rte_mbuf := alter (set_data_len l) cur (link head cur prev h).

(** A segment after a round. *)
Lemma round_lookup head cur prev l h q r : h !! q = Some r -> exists r', round head cur prev l h !! q = Some r' /\
  buf r' = buf r /\ pkt_len r' = pkt_len r /\ ol_flags r' = ol_flags r /\
  data_len r' = (if decide (q = cur) then l else data_len r) /\
  nb_segs r' = (if decide (q = head) then u16 (nb_segs r + 1) else nb_segs r) /\
  next r' = (if decide (q = prev /\ prev <> 0) then cur else next r) /\
  (q <> cur -> q <> head -> q <> prev -> r' = r).
Proof.
  intros Hq. unfold round, link. assert (exists r1, (if prev =? 0 then h else alter (set_next cur) prev h) !! q = Some r1 /\
    r1 = if decide (q = prev /\ prev <> 0) then set_next cur r else r) as (r1 & E1 & ->).
  { eexists. split; [|reflexivity]. destruct (Z.eqb_spec prev 0) as [->|Hp].
    - rewrite decide_False; [done|]. by intros [_ ?].
    - destruct (decide (q = prev)) as [->|Hn]; [rewrite decide_True by done; by rewrite lookup_alter_eq, Hq|].
      rewrite decide_False by (by intros [? _]). by rewrite lookup_alter_ne. }
  set (r1 := if decide _ then _ else _) in *.
  assert (exists r2, alter incr_segs head (if prev =? 0 then h else alter (set_next cur) prev h) !! q = Some r2 /\
    r2 = if decide (q = head) then incr_segs r1 else r1) as (r2 & E2 & Er2).
  { eexists. split; [|reflexivity]. case_decide as Hd; [subst q; by rewrite lookup_alter_eq, E1|by rewrite lookup_alter_ne]. }
  exists (if decide (q = cur) then set_data_len l r2 else r2). split.
  { destruct (decide (q = cur)) as [<-|Hd]; [by rewrite lookup_alter_eq, E2|by rewrite lookup_alter_ne]. }
  subst r2 r1. split_and!; repeat case_decide; try done; naive_solver.
Qed.

Lemma round_other head cur prev l h q : h !! q = None -> q <> cur -> q <> head -> (prev = 0 \/ q <> prev) -> round head cur prev l h !! q = None.
Proof.
  intros Hq ?? Hp. unfold round, link. rewrite !lookup_alter_ne by done. destruct (Z.eqb_spec prev 0) as [->|Hn]; [done|].
  rewrite lookup_alter_ne; [done|]. destruct Hp; congruence.
Qed.

Lemma round_dom head cur prev l h q : is_Some (round head cur prev l h !! q) <-> is_Some (h !! q).
Proof. unfold round, link. rewrite !lookup_alter_is_Some. destruct (prev =? 0); [done|]. apply lookup_alter_is_Some. Qed.

(** A round up to the copy, with a segment at hand. *)
Lemma copy_link fuel head cur prev off total m r s (l := Z.min D total) :
  rte s !! cur = Some r -> cur <> 0 -> is_Some (rte s !! head) -> (prev = 0 \/ is_Some (rte s !! prev)) -> 0 < total ->
  is_Some (link head cur prev (rte s) !! cur) /\
  copy_loop (S fuel) head cur prev off total m s =
    ('(ret, s) ← lazybsd_mbuf_copydata m (buf r) off l (set_rte (link head cur prev (rte s)) s);
     if ret <? 0 then s ← lazybsd_mbuf_free m (do_call (rte_pktmbuf_free head) s); Ok (false, s)
     else s ← assign_rte cur (set_data_len (u16 l)) s; copy_loop fuel head 0 cur (i32 (off + l)) (i32 (total - l)) m s).
Proof.
  intros Hr Hc0 Hhd Hprev Htot.
  assert (exists c, link head cur prev (rte s) !! cur = Some c /\ buf c = buf r) as (c & Ec & Eb).
  { destruct (round_lookup head cur prev 0 (rte s) cur r Hr) as (c & E & Eb & _). unfold round in E. rewrite lookup_alter_eq in E.
    destruct (link _ _ _ _ !! cur) as [c'|]; [|done]. exists c'. split; [done|]. cbn in E. injection E as <-. done. }
  split; [by eexists|]. cbn [copy_loop].
  rewrite (proj2 (Z.leb_gt total 0)), (proj2 (Z.eqb_neq cur 0)) by (lia || done). cbv zeta.
  rewrite (proj2 (Z.eqb_neq cur 0)) by done.
  set (h1 := if prev =? 0 then rte s else alter (set_next cur) prev (rte s)).
  assert ((if negb (prev =? 0) then assign_rte prev (set_next cur) s else Ok s) = Ok (set_rte h1 s)) as ->.
  { unfold h1. destruct (Z.eqb_spec prev 0) as [->|Hp]; cbn [negb]; [by destruct s|]. apply assign_rte_alter. by destruct Hprev. }
  cbn [mbind outcome_bind]. rewrite assign_rte_alter.
  2: { cbn [rte set_rte]. unfold h1. destruct (prev =? 0); [done|by apply alter_is_Some]. }
  cbn [mbind outcome_bind rte set_rte]. change (alter (fun r => set_nb_segs (u16 (nb_segs r + 1)) r) head h1) with (link head cur prev (rte s)).
  change (set_rte (link head cur prev (rte s)) (set_rte h1 s)) with (set_rte (link head cur prev (rte s)) s).
  unfold deref_rte. cbn [rte set_rte]. rewrite Ec. cbn [mbind outcome_bind]. rewrite Eb.
  assert ((if D <? total then D else total) = l) as -> by (unfold l; destruct (Z.ltb_spec D total); lia). done.
Qed.

(** One round of the loop, with a segment at hand. *)
Lemma copy_round fuel head cur prev off total m ms x r s (l := Z.min D total) :
  rte s !! cur = Some r -> cur <> 0 -> is_Some (rte s !! head) -> (prev = 0 \/ is_Some (rte s !! prev)) ->
  linked m_next (mbufs s) m ms -> NoDup ms.*1 -> mbufs s !! m = Some x -> off + l <= len (m_pkthdr x) ->
  0 <= off -> 0 < total -> off + total < 2 ^ 31 -> off + l <= Z.of_nat (length (contents (Mbuf.bytes s) ms)) ->
  (forall x b, x ∈ ms -> room r b -> ~ in_data x.2 b) ->
  exists b', copy_loop (S fuel) head cur prev off total m s =
      copy_loop fuel head 0 cur (off + l) (total - l) m (set_bytes b' (set_rte (round head cur prev l (rte s)) s)) /\
    bytes_of b' (buf r) l = take (Z.to_nat l) (drop (Z.to_nat off) (contents (Mbuf.bytes s) ms)) /\
    forall a, ~ (buf r <= a < buf r + l) -> rd b' a = rd (Mbuf.bytes s) a.
Proof.
  intros Hr Hc0 Hhd Hprev Hl Hnd Hx Hlen Hoff Htot Hmax Hct Hroom.
  destruct (copy_link fuel head cur prev off total m r s) as [Hcur ->]; try done. fold l.
  assert (0 < l <= total /\ l <= D) as Hll by (unfold l; lia).
  unfold lazybsd_mbuf_copydata, deref. cbn [mbufs set_rte]. rewrite Hx. cbn [mbind outcome_bind].
  rewrite (i32_id (off + l)) by (unfold in_i32; lia). rewrite (proj2 (Z.ltb_ge (len (m_pkthdr x)) (off + l))) by lia.
  destruct (doc_copydata (set_rte (link head cur prev (rte s)) s) m ms off l (buf r)) as (b' & -> & Hb & Hout); [done|done|lia|lia|cbn [bytes set_rte]; lia| |].
  { intros y b Hy Hb. apply Hroom; [done|]. unfold room. lia. }
  cbn [mbind outcome_bind]. change (0 <? 0) with false. cbv iota. rewrite assign_rte_alter by done.
  cbn [mbind outcome_bind rte set_rte set_bytes]. exists b'. split; [|by split].
  rewrite u16_small, !i32_id by (unfold in_i32; lia). done.
Qed.

(** A round that asks for more than the packet has gives everything back. *)
Lemma copy_refused fuel head cur prev off total m x r s :
  rte s !! cur = Some r -> cur <> 0 -> is_Some (rte s !! head) -> (prev = 0 \/ is_Some (rte s !! prev)) ->
  mbufs s !! m = Some x -> len (m_pkthdr x) < off + Z.min D total -> 0 <= off -> 0 < total -> off + total < 2 ^ 31 ->
  copy_loop (S fuel) head cur prev off total m s =
    (s ← lazybsd_mbuf_free m (do_call (rte_pktmbuf_free head) (set_rte (link head cur prev (rte s)) s)); Ok (false, s)).
Proof.
  intros Hr Hc0 Hhd Hprev Hx Hlen Hoff Htot Hmax. destruct (copy_link fuel head cur prev off total m r s) as [_ ->]; try done.
  unfold lazybsd_mbuf_copydata, deref. cbn [mbufs set_rte]. rewrite Hx. cbn [mbind outcome_bind].
  by rewrite (i32_id (off + _)), (proj2 (Z.ltb_lt (len (m_pkthdr x)) _)) by (unfold in_i32; lia).
Qed.

(** A round with a new segment keeps the rest. *)
Lemma round_frame head cur prev l ms s r b' : rte s !! cur = None -> is_Some (rte s !! head) -> (prev = 0 \/ is_Some (rte s !! prev)) -> 0 <= l <= D ->
  (forall q r' b, rte s !! q = Some r' -> room r b -> ~ room r' b) ->
  (forall x b, x ∈ ms -> room r b -> ~ in_data x.2 b) ->
  (forall a, ~ (buf r <= a < buf r + l) -> rd b' a = rd (Mbuf.bytes s) a) ->
  frame head prev ms s (set_bytes b' (set_rte (round head cur prev l (<[cur := r]> (rte s))) s)).
Proof.
  intros Hc Hh Hp Hl Hroom Hdata Hout. split_and!; [done|done| |].
  - intros x b Hx Hb. cbn [bytes set_bytes set_rte]. apply Hout. intros Hr. apply (Hdata x b Hx); [|done]. unfold room. lia.
  - intros q rq Hq. cbn [rte set_rte set_bytes bytes].
    assert (q <> cur) as Hn by (intros ->; by rewrite Hc in Hq).
    destruct (round_lookup head cur prev l (<[cur := r]> (rte s)) q rq) as (r' & E & F1 & F2 & F3 & F4 & F5 & F6 & F7).
    { by rewrite lookup_insert_ne. }
    exists r'. rewrite decide_False in F4 by done. split_and!; try done.
    + intros. by apply F7.
    + intros. by rewrite decide_False in F6 by (by intros [? _]).
    + intros. by rewrite decide_False in F5.
    + intros b Hb. apply Hout. intros Hr. apply (Hroom q rq b Hq); [unfold room; lia|done].
Qed.

Lemma link_frame head cur prev ms s r : rte s !! cur = None -> is_Some (rte s !! head) -> (prev = 0 \/ is_Some (rte s !! prev)) -> 0 < D ->
  (forall q r' b, rte s !! q = Some r' -> room r b -> ~ room r' b) ->
  (forall x b, x ∈ ms -> room r b -> ~ in_data x.2 b) ->
  frame head prev ms s (set_rte (link head cur prev (<[cur := r]> (rte s))) s).
Proof.
  intros Hc Hh Hp HD Hroom Hdata.
  destruct (round_frame head cur prev 0 ms s r (Mbuf.bytes s)) as (F1 & F2 & F3 & F4); try done; [lia|].
  split_and!; [done|done|done|]. intros q rq Hq. destruct (F4 q rq Hq) as (r' & E & R). exists r'. split; [|done].
  cbn [rte set_bytes set_rte] in *. unfold round in E. rewrite lookup_alter_ne in E; [done|]. intros ->. by rewrite Hc in Hq.
Qed.

(** The segments [ps], from [p] on, that were made in [s1] for the first of [l] until there
    was no memory: all are full, and nothing else is new. *)
Definition cut (s s1 : net) (p : Z) (ps : list Z) (l : list Z) : Prop :=
  (rte_pktmbuf_alloc s1).1 = 0 /\ Z.of_nat (length ps) * D < Z.of_nat (length l) /\
  (forall q, q ∈ ps -> rte s !! q = None) /\
  (forall q, is_Some (rte s1 !! q) <-> is_Some (rte s !! q) \/ q ∈ ps) /\
  copied (rte s1) (Mbuf.bytes s1) p ps (take (Z.to_nat (Z.of_nat (length ps) * D)) l).

(** The loop copies the rest of the data behind [prev], or frees all. *)
Lemma copy_loop_spec head m ms x : forall fuel prev off total s rh rp,
  linked m_next (mbufs s) m ms -> NoDup ms.*1 -> mbufs s !! m = Some x -> len (m_pkthdr x) = off + total ->
  (forall y, y ∈ ms -> mbufs s !! y.1 = Some y.2) ->
  head <> 0 -> rte s !! head = Some rh -> prev <> 0 -> rte s !! prev = Some rp -> next rp = 0 ->
  0 <= off -> 0 <= total -> off + total < 2 ^ 31 -> off + total = Z.of_nat (length (contents (Mbuf.bytes s) ms)) -> total <= Z.of_nat fuel * D ->
  (exists s1 qs rp', frame head prev ms s s1 /\ rte s1 !! prev = Some rp' /\
    cut s s1 (next rp') qs (drop (Z.to_nat off) (contents (Mbuf.bytes s) ms)) /\
    copy_loop fuel head 0 prev off total m s = (s ← lazybsd_mbuf_free m (do_call (rte_pktmbuf_free head) s1); Ok (false, s))) \/
  (exists s' qs, copy_loop fuel head 0 prev off total m s = Ok (true, s') /\ frame head prev ms s s' /\
    NoDup qs /\ (forall q, q ∈ qs -> rte s !! q = None) /\
    (exists rp', rte s' !! prev = Some rp' /\ copied (rte s') (Mbuf.bytes s') (next rp') qs (drop (Z.to_nat off) (contents (Mbuf.bytes s) ms))) /\
    (exists rh', rte s' !! head = Some rh' /\ (0 <= nb_segs rh < 65536 -> nb_segs rh' = u16 (nb_segs rh + Z.of_nat (length qs))))).
Proof.
  induction fuel as [|fuel IH]; intros prev off total s rh rp Hl Hndm Hx Hlen Hms Hh0 Hh Hp0 Hp Hnx Hoff Htot Hmax Hct Hfuel.
  all: destruct (Z.eq_dec total 0) as [->|Hne]; [|try lia].
  1,2: right; exists s, []; split; [done|]; split; [apply copy_frame_refl|]; split; [apply NoDup_nil_2|]; split; [by intros q Hq; apply not_elem_of_nil in Hq|];
    split; [exists rp; split; [done|]; cbn [copied]; split; [done|]; apply drop_ge; lia|exists rh; split; [done|]; intros; by rewrite Z.add_0_r, u16_small].
  destruct (rte_pktmbuf_alloc s) as [cur s1] eqn:Ea. destruct (doc_alloc _ _ _ Ea) as [[-> ->]|(Hc0 & Hfresh & r & Hrn & Hrf & -> & Hroom & Hdata)].
  { left. exists s, [], rp. split; [apply copy_frame_refl|]. split; [done|]. split.
    { split; [by rewrite Ea|]. split; [rewrite length_drop; cbn; lia|]. split; [by intros q ?%not_elem_of_nil|]. split; [|done]. intros q. split; [by left|]. by intros [?|?%not_elem_of_nil]. }
    cbn [copy_loop]. rewrite (proj2 (Z.leb_gt total 0)) by lia. cbv zeta. by rewrite Z.eqb_refl, Ea, Z.eqb_refl. }
  set (s1 := set_rte (<[cur := r]> (rte s)) s) in *.
  assert (copy_loop (S fuel) head 0 prev off total m s = copy_loop (S fuel) head cur prev off total m s1) as ->.
  { cbn [copy_loop]. cbv zeta. rewrite (proj2 (Z.leb_gt total 0)), Z.eqb_refl, Ea by lia. by rewrite !(proj2 (Z.eqb_neq cur 0) Hc0). }
  assert (forall y b, y ∈ ms -> room r b -> ~ in_data y.2 b) as Hd.
  { intros y b Hy. apply (Hdata y.1). by apply Hms. }
  assert (head <> cur /\ prev <> cur) as [Hhc Hpc] by (split; intros ->; congruence).
  destruct (copy_round fuel head cur prev off total m ms x r s1) as (b' & -> & Hb & Hout);
    try first [done | lia | (unfold s1; cbn [rte set_rte]; (rewrite lookup_insert_eq || rewrite lookup_insert_ne by done); eauto) ].
  { unfold s1. cbn [bytes set_rte]. lia. }
  set (l := Z.min D total) in *. assert (0 < l <= total /\ l <= D) as Hll by (unfold l; lia).
  set (s2 := set_bytes b' (set_rte _ s1)).
  assert (frame head prev ms s s2) as F1 by (apply (round_frame head cur prev l ms s r b'); [done|by eexists|right; by eexists|lia|exact Hroom|exact Hd|exact Hout]).
  assert (contents (Mbuf.bytes s2) ms = contents (Mbuf.bytes s) ms) as Ec by (by eapply frame_contents).
  destruct (round_lookup head cur prev l (rte s1) cur r) as (rc & Erc & C1 & C2 & C3 & C4 & C5 & C6 & C7); [unfold s1; cbn; apply lookup_insert_eq|].
  destruct (round_lookup head cur prev l (rte s1) head rh) as (rh1 & Erh & _ & _ & _ & _ & C8 & _); [unfold s1; cbn; by rewrite lookup_insert_ne|].
  destruct (round_lookup head cur prev l (rte s1) prev rp) as (rp1 & Erp & _ & _ & _ & _ & _ & C9 & _); [unfold s1; cbn; by rewrite lookup_insert_ne|].
  rewrite decide_True in C4 by done. rewrite decide_True in C8 by done. rewrite decide_True in C9 by done. rewrite decide_False in C6 by (intros [? _]; congruence).
  destruct (IH cur (off + l) (total - l) s2 rh1 rc) as [(s3 & qs & rp' & F2 & Erp' & (A1 & A2 & A5 & A3 & A4) & E)|(s' & qs & E & F2 & Hnd & Hnew & (rp' & Erp' & Hcop) & (rh' & Erh' & Hns))];
    try (done || lia); [rewrite Ec; lia| |].
  - left. destruct F2 as (G1 & G2 & G3 & F2). destruct (F2 prev rp1 Erp) as (rp2 & Erp2 & _ & P2 & _). exists s3, (cur :: qs), rp2.
    split; [by eapply copy_frame_trans|]. split; [done|]. split; [|exact E]. rewrite Ec, length_drop in A2. unfold cut.
    split; [done|]. rewrite length_drop. split; [cbn [length]; unfold l in *; nia|]. split; [|split].
    + intros q [->|Hq]%elem_of_cons; [done|]. destruct (rte s !! q) as [rq|] eqn:Eq; [|done]. specialize (A5 q Hq).
      assert (is_Some (rte s2 !! q)) as [? ?]; [|congruence]. unfold s2. cbn [rte set_bytes set_rte]. rewrite round_dom.
      unfold s1. cbn [rte set_rte]. rewrite lookup_insert_is_Some. destruct (decide (cur = q)); naive_solver.
    + intros q. rewrite A3. unfold s2. cbn [rte set_bytes set_rte]. rewrite round_dom. unfold s1. cbn [rte set_rte].
      rewrite lookup_insert_is_Some, elem_of_cons. destruct (decide (cur = q)); naive_solver.
    + rewrite P2, C9 by done. destruct (F2 cur rc Erc) as (rc2 & Erc2 & _ & _ & _ & P4 & P5 & _ & _ & P8). rewrite Erp' in Erc2. injection Erc2 as <-.
      assert (l = D) as El by (unfold l in *; nia). rewrite Ec in A4.
      apply (copied_cons_full _ _ cur rp' qs off); try done; [by rewrite P5, C4|lia| |by rewrite El in A4].
      rewrite P4, C1, <- El, (rd_ext_bytes_of b'); [exact Hb|]. intros i Hi. apply P8. unfold room. rewrite C1. lia.
  - right. exists s', (cur :: qs). split; [exact E|]. split; [by eapply copy_frame_trans|].
    assert (forall q, is_Some (rte s1 !! q) -> q ∉ qs) as Hold.
    { intros q [rq Hq] Hin. apply Hnew in Hin. destruct (round_lookup head cur prev l (rte s1) q rq Hq) as (? & Eq & _).
      unfold s2 in Hin. cbn in Hin. cbn in Eq. by rewrite Eq in Hin. }
    split; [|split; [|split]].
    + apply NoDup_cons. split; [|done]. apply Hold. unfold s1. cbn. rewrite lookup_insert_eq. by eexists.
    + intros q [->|Hq]%elem_of_cons; [done|]. destruct (rte s !! q) as [rq|] eqn:Eq; [|done]. exfalso. apply (Hold q); [|done].
      unfold s1. cbn. destruct (decide (q = cur)) as [->|]; [rewrite lookup_insert_eq|rewrite lookup_insert_ne by done]; by eexists.
    + destruct F2 as (_ & _ & _ & F2). destruct (F2 prev rp1 Erp) as (rp2 & Erp2 & _ & P2 & _). exists rp2. split; [done|].
      rewrite P2, C9 by done. destruct (F2 cur rc Erc) as (rc2 & Erc2 & _ & _ & _ & P4 & P5 & _ & _ & P8). rewrite Erp' in Erc2. injection Erc2 as <-.
      rewrite Ec in Hcop. apply (copied_cons _ _ cur rp' qs off total); try done; [by rewrite P5, C4|lia|].
      rewrite P4, C1, (rd_ext_bytes_of b'); [exact Hb|]. intros i Hi. apply P8. unfold room. rewrite C1. lia.
    + exists rh'. split; [done|]. intros _. rewrite Hns, C8 by (rewrite C8; apply Z.mod_pos_bound; lia). cbn [length]. rewrite Nat2Z.inj_succ.
      unfold uwrap. rewrite Zplus_mod_idemp_l. f_equal. lia.
Qed.

(** With more to copy than the packet has the loop ends in giving everything back. *)
Lemma copy_loop_too_long head m ms x : forall fuel prev off total s,
  linked m_next (mbufs s) m ms -> NoDup ms.*1 -> mbufs s !! m = Some x -> len (m_pkthdr x) = Z.of_nat (length (contents (Mbuf.bytes s) ms)) ->
  (forall y, y ∈ ms -> mbufs s !! y.1 = Some y.2) ->
  is_Some (rte s !! head) -> prev <> 0 -> is_Some (rte s !! prev) ->
  0 <= off <= len (m_pkthdr x) -> len (m_pkthdr x) < off + total < 2 ^ 31 -> total <= Z.of_nat fuel * D ->
  exists s1, frame head prev ms s s1 /\
    copy_loop fuel head 0 prev off total m s = (s ← lazybsd_mbuf_free m (do_call (rte_pktmbuf_free head) s1); Ok (false, s)).
Proof.
  induction fuel as [|fuel IH]; intros prev off total s Hl Hnd Hx Hct Hms Hh Hp0 Hp Hoff Hlong Hfuel; [lia|].
  destruct (rte_pktmbuf_alloc s) as [cur s1] eqn:Ea. destruct (doc_alloc _ _ _ Ea) as [[-> ->]|(Hc0 & Hfresh & r & Hrn & Hrf & -> & Hroom & Hdata)].
  { exists s. split; [apply copy_frame_refl|]. cbn [copy_loop]. rewrite (proj2 (Z.leb_gt total 0)) by lia. cbv zeta. by rewrite Z.eqb_refl, Ea, Z.eqb_refl. }
  set (s1 := set_rte (<[cur := r]> (rte s)) s) in *.
  assert (copy_loop (S fuel) head 0 prev off total m s = copy_loop (S fuel) head cur prev off total m s1) as ->.
  { cbn [copy_loop]. cbv zeta. rewrite (proj2 (Z.leb_gt total 0)), Z.eqb_refl, Ea by lia. by rewrite !(proj2 (Z.eqb_neq cur 0) Hc0). }
  assert (forall y b, y ∈ ms -> room r b -> ~ in_data y.2 b) as Hd.
  { intros y b Hy. apply (Hdata y.1). by apply Hms. }
  assert (rte s1 !! cur = Some r /\ is_Some (rte s1 !! head) /\ is_Some (rte s1 !! prev)) as (Hr & Hh1 & Hp1).
  { unfold s1. cbn [rte set_rte]. rewrite !lookup_insert_is_Some, lookup_insert_eq. split; [done|].
    split; (destruct (decide (cur = head)); destruct (decide (cur = prev)); naive_solver). }
  destruct (Z.lt_ge_cases (len (m_pkthdr x)) (off + Z.min D total)) as [Hbig|Hfits].
  - eexists. split; [|apply (copy_refused fuel head cur prev off total m x r s1); try done; [by right|lia|lia|lia]].
    apply (link_frame head cur prev ms s r); try done; [by right|lia].
  - destruct (copy_round fuel head cur prev off total m ms x r s1) as (b' & -> & _ & Hout); try done; [by right|lia|lia|lia| |].
    { unfold s1. cbn [bytes set_rte]. lia. }
    set (l := Z.min D total) in *. set (s2 := set_bytes b' (set_rte _ s1)).
    assert (frame head prev ms s s2) as F1 by (apply (round_frame head cur prev l ms s r b'); [done|done|by right|lia|exact Hroom|exact Hd|exact Hout]).
    assert (forall q, is_Some (rte s1 !! q) -> is_Some (rte s2 !! q)) as Hdom.
    { intros q Hq. unfold s2. cbn [rte set_bytes set_rte]. by apply round_dom. }
    destruct (IH cur (off + l) (total - l) s2) as (s3 & F2 & E); try done; [by rewrite (frame_contents _ _ _ _ _ F1)|by apply Hdom|apply Hdom; by eexists|lia|lia|lia|].
    exists s3. split; [by eapply copy_frame_trans|exact E].
Qed.

(** What is known of a packet that is made. *)
Definition packed (s s' : net) (ms : list (Z * mbuf)) (total flags head : Z) (ps : list Z) : Prop :=
  head <> 0 /\ NoDup ps /\ (forall q, q ∈ ps -> rte s !! q = None) /\ keeps (rte s) (rte s') /\
  copied (rte s') (Mbuf.bytes s') head ps (contents (Mbuf.bytes s) ms) /\
  exists r, rte s' !! head = Some r /\ pkt_len r = u32 total /\ nb_segs r = u16 (Z.of_nat (length ps)) /\ ol_flags r = flags.

(** Without memory the calls [l] free what was made: nothing, if there is none for the
    first segment, and otherwise the head of the full segments that were. *)
Definition no_memory (s s1 : net) (ms : list (Z * mbuf)) (l : list call) : Prop :=
  l = [] /\ (rte_pktmbuf_alloc s).1 = 0 /\ rte s1 = rte s \/
  exists head ps s2, l = [rte_pktmbuf_free head] /\ head <> 0 /\
    cut s s2 head ps (contents (Mbuf.bytes s) ms) /\ mbufs s2 = mbufs s /\ calls s2 = calls s /\
    rte s1 = rte s2 /\ Mbuf.bytes s1 = Mbuf.bytes s2.

Lemma copy_packet_spec fuel m ms x total s :
  linked m_next (mbufs s) m ms -> NoDup ms.*1 -> mbufs s !! m = Some x -> len (m_pkthdr x) = total -> 0 < total < 2 ^ 31 ->
  total = Z.of_nat (length (contents (Mbuf.bytes s) ms)) -> total <= Z.of_nat fuel * D ->
  (exists s1 l, copy_packet fuel m total s = (s ← lazybsd_mbuf_free m s1; Ok (0, s)) /\ mbufs s1 = mbufs s /\ keeps (rte s) (rte s1) /\
     calls s1 = calls s ++ l /\ no_memory s s1 ms l) \/
  (exists s' head ps, copy_packet fuel m total s = Ok (head, s') /\ mbufs s' = mbufs s /\ calls s' = calls s /\ packed s s' ms total 0 head ps).
Proof.
  intros Hl Hndm Hx Hlen Ht Hct Hfuel. unfold copy_packet. destruct (rte_pktmbuf_alloc s) as [head s1] eqn:Ea.
  destruct (doc_alloc _ _ _ Ea) as [[-> ->]|(Hh0 & Hfresh & r & Hrn & Hrf & -> & Hroom & Hdata)].
  { left. exists s, []. rewrite Z.eqb_refl, app_nil_r. split_and!; [done|done|by intros q|done|left; by rewrite Ea]. }
  rewrite (proj2 (Z.eqb_neq head 0) Hh0).
  do 2 (erewrite assign_rte_Ok; [|cbn [rte set_rte]; by rewrite lookup_insert_eq]; cbn [mbind outcome_bind rte set_rte]; rewrite insert_insert_eq).
  set (r0 := set_nb_segs 0 _). set (s1 := set_rte _ _).
  assert (Mbuf.bytes s1 = Mbuf.bytes s /\ mbufs s1 = mbufs s /\ calls s1 = calls s /\ rte s1 = <[head := r0]> (rte s)) as (B1 & M1 & K1 & R1) by done.
  assert (rte s1 !! head = Some r0) as Hr0 by (rewrite R1; apply lookup_insert_eq). clearbody s1.
  destruct fuel as [|fuel]; [lia|].
  destruct (copy_round fuel head head 0 0 total m ms x r0 s1) as (b' & -> & Hb & Hout);
    rewrite ?B1, ?M1; try first [done|by left|lia].
  { intros y b Hy. apply (Hdata y.1). by eapply linked_in. }
  set (l := Z.min D total) in *. assert (0 < l <= total /\ l <= D) as Hll by (unfold l; lia).
  set (s2 := set_bytes b' (set_rte _ s1)).
  assert (contents (Mbuf.bytes s2) ms = contents (Mbuf.bytes s) ms) as Ec.
  { apply contents_same. intros y a Hy Ha. unfold s2. cbn [bytes set_bytes set_rte]. rewrite Hout, B1; [done|]. intros Hb'.
    apply (Hdata y.1 y.2 a); [by eapply linked_in|unfold room; unfold r0 in Hb'; cbn in Hb'; lia|done]. }
  destruct (round_lookup head head 0 l (rte s1) head r0 Hr0) as (rc & Erc & C1 & C2 & C3 & C4 & C5 & C6 & _).
  rewrite decide_True in C4 by done. rewrite decide_True in C5 by done. rewrite decide_False in C6 by (by intros [_ ?]).
  assert (nb_segs rc = 1) as Hn1 by (rewrite C5; by vm_compute).
  assert (forall q rq, rte s !! q = Some rq -> rte s2 !! q = Some rq /\ q <> head) as Hkeep.
  { intros q rq Hq. assert (q <> head) by (intros ->; by rewrite Hfresh in Hq). split; [|done].
    unfold s2. cbn [rte set_bytes set_rte]. unfold round, link. cbn [Z.eqb]. by rewrite !lookup_alter_ne, R1, lookup_insert_ne by done. }
  change (0 + l) with l.
  destruct (copy_loop_spec head m ms x fuel head l (total - l) s2 rc rc)
    as [(s3 & qs & rp' & (F1 & F2 & F3 & F4) & Erp' & (X1 & X2 & X3 & X4 & X5) & E)|(s' & qs & E & (F1 & F2 & F3 & F4) & Hnd & Hnew & (rp' & Erp' & Hcop) & (rh' & Erh' & Hns))]; try done.
  { by unfold s2; cbn [mbufs set_bytes set_rte]; rewrite M1. }
  { by unfold s2; cbn [mbufs set_bytes set_rte]; rewrite M1. }
  { lia. }
  { intros y Hy. unfold s2; cbn [mbufs set_bytes set_rte]. rewrite M1. by eapply linked_in. }
  { by rewrite C6. } { lia. } { lia. } { lia. } { rewrite Ec. lia. } { unfold l. lia. }
  - left. exists (do_call (rte_pktmbuf_free head) s3), [rte_pktmbuf_free head]. rewrite E. cbn [mbufs calls do_call rte].
    split_and!.
    + by destruct (lazybsd_mbuf_free m _).
    + by rewrite F1.
    + intros q rq Hq. destruct (Hkeep q rq Hq) as [Hq2 Hqh]. destruct (F4 q rq Hq2) as (rq' & Eq & A1 & _). by rewrite Eq, A1.
    + by rewrite F2; unfold s2; cbn [calls set_bytes set_rte]; rewrite K1.
    + destruct (F4 head rc Erc) as (rh2 & Eh2 & _ & _ & _ & B4 & B5 & _ & _ & B8). rewrite Erp' in Eh2. injection Eh2 as <-.
      rewrite Ec, length_drop in X2. rewrite Ec in X5. assert (l = D) as El by (unfold l in *; nia).
      assert (forall q, is_Some (rte s2 !! q) <-> q = head \/ is_Some (rte s !! q)) as Hdom.
      { intros q. unfold s2. cbn [rte set_bytes set_rte]. rewrite round_dom, R1, lookup_insert_is_Some.
        destruct (decide (head = q)); naive_solver. }
      right. exists head, (head :: qs), s3. split_and!; try done.
      * unfold cut. split; [done|]. split; [cbn [length]; nia|]. split; [|split].
        -- intros q [->|Hq]%elem_of_cons; [done|]. destruct (rte s !! q) as [rq|] eqn:Eq; [|done].
           specialize (X3 q Hq). assert (is_Some (rte s2 !! q)) as [? ?] by (apply Hdom; right; by eexists). congruence.
        -- intros q. rewrite X4, Hdom, elem_of_cons. tauto.
        -- change (contents (Mbuf.bytes s) ms) with (drop (Z.to_nat 0) (contents (Mbuf.bytes s) ms)).
           apply (copied_cons_full _ _ head rp' qs 0); try done; [by rewrite B5, C4|lia| |by rewrite El in X5].
           rewrite B4, C1, <- El, (rd_ext_bytes_of b'); [rewrite <- B1; exact Hb|]. intros i Hi. apply B8. unfold room. rewrite C1. lia.
      * rewrite F1. exact M1.
      * rewrite F2. exact K1.
  - right. exists s', head, (head :: qs). rewrite E. cbn [mbind outcome_bind]. rewrite Ec in Hcop.
    destruct (F4 head rc Erc) as (rh2 & Eh2 & _ & _ & _ & A4 & A5 & A6 & A7 & A8). rewrite Erp' in Eh2. injection Eh2 as <-.
    rewrite Erp' in Erh'. injection Erh' as <-.
    assert (forall q, is_Some (rte s2 !! q) -> q ∉ qs) as Hold by (intros q [rq Hq] Hin; apply Hnew in Hin; congruence).
    split_and!; [done|rewrite F1; exact M1|rewrite F2; exact K1|]. unfold packed. split_and!; [done| | | | |].
    + apply NoDup_cons. split; [apply Hold; by exists rc|done].
    + intros q [->|Hq]%elem_of_cons; [done|]. destruct (rte s !! q) as [rq|] eqn:Eq; [|done]. exfalso. apply Hkeep in Eq as [Eq _].
      apply (Hold q); [by eexists|done].
    + intros q rq Hq. destruct (Hkeep q rq Hq) as [Hq2 Hqh]. destruct (F4 q rq Hq2) as (rq' & Eq & B & _). by rewrite Eq, B.
    + apply (copied_cons _ _ head rp' qs 0 total); try done; [by rewrite A5, C4|lia|].
      rewrite A4, C1, (rd_ext_bytes_of b'); [rewrite <- B1; exact Hb|]. intros i Hi. apply A8. unfold room. rewrite C1. lia.
    + exists rp'. rewrite A6, C2, A7, C3. split_and!; [done|done| |exact Hrf].
      rewrite Hns, Hn1 by (rewrite Hn1; lia). cbn [length]. f_equal. lia.
Qed.

Lemma copy_packet_too_long fuel m ms x total s :
  linked m_next (mbufs s) m ms -> NoDup ms.*1 -> mbufs s !! m = Some x -> len (m_pkthdr x) = Z.of_nat (length (contents (Mbuf.bytes s) ms)) ->
  len (m_pkthdr x) < total < 2 ^ 31 -> total <= Z.of_nat fuel * D ->
  let head := (rte_pktmbuf_alloc s).1 in
  exists s1, copy_packet fuel m total s = (s ← lazybsd_mbuf_free m s1; Ok (0, s)) /\ mbufs s1 = mbufs s /\ keeps (rte s) (rte s1) /\
    calls s1 = calls s ++ (if decide (head = 0) then [] else [rte_pktmbuf_free head]).
Proof.
  intros Hl Hndm Hx Hct Ht Hfuel. cbv zeta. unfold copy_packet. destruct (rte_pktmbuf_alloc s) as [head s1] eqn:Ea. cbn [fst].
  destruct (doc_alloc _ _ _ Ea) as [[-> ->]|(Hh0 & Hfresh & r & Hrn & Hrf & -> & Hroom & Hdata)].
  { exists s. rewrite Z.eqb_refl, decide_True, app_nil_r by done. split_and!; [done|done|by intros q|done]. }
  rewrite (proj2 (Z.eqb_neq head 0) Hh0), decide_False by done.
  do 2 (erewrite assign_rte_Ok; [|cbn [rte set_rte]; by rewrite lookup_insert_eq]; cbn [mbind outcome_bind rte set_rte]; rewrite insert_insert_eq).
  set (r0 := set_nb_segs 0 _). set (s1 := set_rte _ _).
  assert (Mbuf.bytes s1 = Mbuf.bytes s /\ mbufs s1 = mbufs s /\ calls s1 = calls s /\ rte s1 = <[head := r0]> (rte s)) as (B1 & M1 & K1 & R1) by done.
  assert (rte s1 !! head = Some r0) as Hr0 by (rewrite R1; apply lookup_insert_eq). clearbody s1.
  assert (forall l q rq, rte s !! q = Some rq -> (round head head 0 l (rte s1) !! q = Some rq /\ link head head 0 (rte s1) !! q = Some rq) /\ q <> head) as Hkeep.
  { intros l q rq Hq. assert (q <> head) by (intros ->; by rewrite Hfresh in Hq). split; [|done].
    unfold round, link. cbn [Z.eqb]. by rewrite !lookup_alter_ne, R1, lookup_insert_ne by done. }
  destruct fuel as [|fuel]; [lia|]. destruct (Z.lt_ge_cases (len (m_pkthdr x)) (0 + Z.min D total)) as [Hbig|Hfits].
  - rewrite (copy_refused fuel head head 0 0 total m x r0 s1) by (rewrite ?M1; first [done|by left|lia]).
    exists (do_call (rte_pktmbuf_free head) (set_rte (link head head 0 (rte s1)) s1)).
    split; [by destruct (lazybsd_mbuf_free m _)|]. cbn [mbufs calls rte do_call set_rte]. rewrite K1, M1.
    split_and!; [done| |done]. intros q rq Hq. by apply (Hkeep 0).
  - destruct (copy_round fuel head head 0 0 total m ms x r0 s1) as (b' & -> & _ & Hout);
      rewrite ?B1, ?M1; try first [done|by left|lia].
    { intros y b Hy. apply (Hdata y.1). by eapply linked_in. }
    set (l := Z.min D total) in *. set (s2 := set_bytes b' (set_rte _ s1)).
    assert (contents (Mbuf.bytes s2) ms = contents (Mbuf.bytes s) ms) as Ec.
    { apply contents_same. intros y a Hy Ha. unfold s2. cbn [bytes set_bytes set_rte]. rewrite Hout, B1; [done|]. intros Hb'.
      apply (Hdata y.1 y.2 a); [by eapply linked_in|unfold room; unfold r0 in Hb'; cbn in Hb'; lia|done]. }
    assert (is_Some (rte s2 !! head)) as Hh2 by (unfold s2; cbn [rte set_bytes set_rte]; apply round_dom; by eexists).
    destruct (copy_loop_too_long head m ms x fuel head (0 + l) (total - l) s2) as (s3 & (F1 & F2 & _ & F4) & ->);
      try first [done|by (unfold s2; cbn [mbufs set_bytes set_rte]; rewrite M1)|lia].
    { by rewrite Ec. }
    { intros y Hy. unfold s2; cbn [mbufs set_bytes set_rte]. rewrite M1. by eapply linked_in. }
    exists (do_call (rte_pktmbuf_free head) s3).
    split; [by destruct (lazybsd_mbuf_free m _)|]. cbn [mbufs calls rte do_call]. rewrite F1, F2.
    split_and!; [exact M1| |unfold s2; cbn [calls set_bytes set_rte]; by rewrite K1].
    intros q rq Hq. destruct (Hkeep l q rq Hq) as [[Hq2 _] Hqh]. destruct (F4 q rq Hq2) as (rq' & Eq & A1 & _). by rewrite Eq, A1.
Qed.

(** *** The checksums *)

(** What the NIC is asked for: the checksums that the stack left out, and no other. *)
Definition asked (tx_csum_l4 : Z) (x : mbuf) : Z :=
  let has f := negb (Z.land (csum_flags (m_pkthdr x)) f =? 0) in
  let l4 := negb (tx_csum_l4 =? 0) in
  Z.lor (Z.lor (if has CSUM_IP then Z.lor RTE_MBUF_F_TX_IP_CKSUM RTE_MBUF_F_TX_IPV4 else 0)
               (if l4 && has CSUM_TCP then RTE_MBUF_F_TX_TCP_CKSUM else 0))
        (if l4 && has CSUM_UDP then RTE_MBUF_F_TX_UDP_CKSUM else 0).

Definition same_segment (r r' : rte_mbuf) : Prop :=
  next r' = next r /\ buf r' = buf r /\ data_len r' = data_len r /\ pkt_len r' = pkt_len r /\ nb_segs r' = nb_segs r.

Lemma copy_offload_spec l4 m x head r s : mbufs s !! m = Some x -> rte s !! head = Some r ->
  (l4 <> 0 -> Z.land (csum_flags (m_pkthdr x)) CSUM_TSO = 0) ->
  exists r', copy_offload l4 m head s = Ok (set_rte (<[head := r']> (rte s)) s) /\ same_segment r r' /\ ol_flags r' = Z.lor (ol_flags r) (asked l4 x).
Proof.
  intros Hx Hr Htso. unfold copy_offload, lazybsd_mbuf_tx_offload, asked, deref, deref_rte. rewrite Hx. cbn [mbind outcome_bind]. rewrite Hr.
  cbn [mbind outcome_bind ip_csum tcp_csum udp_csum tso_seg_size].
  set (fi := Z.land _ CSUM_IP). set (ft := Z.land _ CSUM_TCP). set (fu := Z.land _ CSUM_UDP).
  assert (exists s1 r1, (if negb ((if negb (fi =? 0) then 1 else 0) =? 0) then
      s ← assign_rte head (or_flags (Z.lor RTE_MBUF_F_TX_IP_CKSUM RTE_MBUF_F_TX_IPV4)) s;
      assign_rte head (set_l2_l3 RTE_ETHER_HDR_LEN (iph_len (buf r + RTE_ETHER_HDR_LEN) s)) s else Ok s) = Ok s1 /\
      s1 = set_rte (<[head := r1]> (rte s)) s /\ same_segment r r1 /\
      ol_flags r1 = Z.lor (ol_flags r) (if negb (fi =? 0) then Z.lor RTE_MBUF_F_TX_IP_CKSUM RTE_MBUF_F_TX_IPV4 else 0))
    as (s1 & r1 & -> & -> & (G1 & G2 & G3 & G4 & G5) & G).
  { destruct (negb (fi =? 0)); cbn [Z.eqb negb].
    - rewrite (assign_rte_Ok s head r) by done. cbn [mbind outcome_bind]. erewrite assign_rte_Ok; [|cbn; by rewrite lookup_insert_eq].
      cbn [rte set_rte]. rewrite insert_insert_eq. by eexists _, _.
    - eexists s, r. split; [done|]. rewrite insert_id by done. split; [by destruct s|]. split; [done|]. by rewrite Z.lor_0_r. }
  cbn [mbind outcome_bind]. set (s1 := set_rte _ s). assert (rte s1 !! head = Some r1) as L1 by apply lookup_insert_eq.
  destruct (Z.eqb_spec l4 0) as [->|Hl4]; cbn [negb andb].
  { exists r1. split; [done|]. split; [done|]. by rewrite !Z.lor_0_r. }
  rewrite (Htso Hl4). change (negb (0 =? 0)) with false. cbv iota.
  assert (forall (b : bool) flag hl, exists r2, (if negb ((if b then 1 else 0) =? 0) then
      s ← assign_rte head (or_flags flag) s1; assign_rte head (set_l2_l3 RTE_ETHER_HDR_LEN hl) s else Ok s1) = Ok (set_rte (<[head := r2]> (rte s)) s) /\
      same_segment r r2 /\ ol_flags r2 = Z.lor (ol_flags r1) (if b then flag else 0)) as Hstep.
  { intros b flag hl. destruct b; cbn [Z.eqb negb].
    - rewrite (assign_rte_Ok s1 head r1) by done. cbn [mbind outcome_bind]. erewrite assign_rte_Ok; [|cbn; by rewrite lookup_insert_eq].
      cbn [rte set_rte]. rewrite insert_insert_eq. unfold s1. cbn [rte set_rte]. rewrite insert_insert_eq. by eexists.
    - exists r1. split; [done|]. split; [done|]. by rewrite Z.lor_0_r. }
  destruct (Hstep (negb (ft =? 0)) RTE_MBUF_F_TX_TCP_CKSUM (iph_len (buf r + RTE_ETHER_HDR_LEN) s1)) as (r2 & -> & (K1 & K2 & K3 & K4 & K5) & K). clear Hstep.
  cbn [mbind outcome_bind]. change (negb (0 =? 0)) with false. cbv iota. cbn [mbind outcome_bind].
  set (s2 := set_rte (<[head := r2]> _) _). assert (rte s2 !! head = Some r2) as L2 by apply lookup_insert_eq.
  destruct (negb (fu =? 0)); cbn [Z.eqb negb].
  - rewrite (assign_rte_Ok s2 head r2) by done. cbn [mbind outcome_bind]. erewrite assign_rte_Ok; [|cbn; by rewrite lookup_insert_eq].
    cbn [rte set_rte]. rewrite insert_insert_eq. unfold s2. cbn [rte set_rte]. rewrite insert_insert_eq. eexists. split; [done|]. split; [done|].
    cbn. by rewrite K, G, !Z.lor_assoc.
  - exists r2. split; [done|]. split; [done|]. by rewrite K, G, Z.lor_0_r, !Z.lor_assoc.
Qed.

Lemma copied_same_segments h h' b p ps l : (forall q r, q ∈ ps -> h !! q = Some r -> exists r', h' !! q = Some r' /\ same_segment r r') -> copied h b p ps l -> copied h' b p ps l.
Proof.
  revert p l. induction ps as [|q ps IH]; intros p l Hq; [done|]. cbn [copied]. intros (-> & Hn & r & l' & Hr & Hd & Hf & -> & Hc). split_and!; [done|done|].
  destruct (Hq q r) as (r' & Hr' & E1 & E2 & E3 & _); [apply list_elem_of_here|done|]. exists r', l'. rewrite E1, E2, E3. do 4 (split; [done|]).
  apply IH; [|done]. intros q' r1 Hq' Hr1. apply Hq; [by apply list_elem_of_further|done].
Qed.

(** *** The [mbuf]s *)

(** An external buffer is the data of a received packet. *)
Definition own_ext (ms : list (Z * mbuf)) : Prop :=
  forall y, y ∈ ms -> has_ext M_EXT y.2 = true -> ext_free y.2 = LAZYBSD_MBUF_EXT_FREE /\ ext_type y.2 = EXT_DISPOSABLE.
Definition frees (ms : list (Z * mbuf)) : list call :=
  (fun y => rte_pktmbuf_free_seg (ext_arg1 y.2)) <$> filter (fun y => has_ext M_EXT y.2 = true) ms.

Lemma linked_chain h p ms : linked m_next h p ms -> chain h p ms.*1.
Proof. revert p. induction ms as [|y ms IH]; intros p; [done|]. cbn. intros (-> & Hn & Hy & Hl). split_and!; [done|done|]. exists y.2. split; [done|by apply IH]. Qed.

Lemma free_chain_all ms : forall s p, linked m_next (mbufs s) p ms -> NoDup ms.*1 -> own_ext ms ->
  exists s', free_chain M_EXT lazybsd_mbuf_ext_free ms.*1 s = Ok s' /\ rte s' = rte s /\ Mbuf.bytes s' = Mbuf.bytes s /\ calls s' = calls s ++ frees ms /\
    forall q, mbufs s' !! q = if decide (q ∈ ms.*1) then None else mbufs s !! q.
Proof.
  induction ms as [|y ms IH]; intros s p Hl Hnd Hext.
  { exists s. cbn. rewrite app_nil_r. split_and!; [done..|]. intros q. rewrite decide_False; [done|apply not_elem_of_nil]. }
  cbn [fmap list_fmap free_chain]. destruct Hl as (-> & Hn & Hy & Hl). unfold deref. rewrite Hy. cbn [mbind outcome_bind].
  cbn [fmap list_fmap] in Hnd. apply NoDup_cons in Hnd as [Hni Hnd].
  assert (exists s1, (if has_ext M_EXT y.2 then lazybsd_mbuf_ext_free y.1 s else Ok s) = Ok s1 /\ rte s1 = rte s /\ Mbuf.bytes s1 = Mbuf.bytes s /\
    mbufs s1 = mbufs s /\ calls s1 = calls s ++ (if has_ext M_EXT y.2 then [rte_pktmbuf_free_seg (ext_arg1 y.2)] else [])) as (s1 & -> & R1 & B1 & M1 & C1).
  { destruct (has_ext M_EXT y.2) eqn:He; [|exists s; by rewrite app_nil_r].
    destruct (Hext y (list_elem_of_here _ _) He) as [E1 E2]. unfold lazybsd_mbuf_ext_free, lazybsd_rte_frm_extcl, deref. rewrite Hy. cbn [mbind outcome_bind].
    unfold has_ext in He. rewrite He, E2, Z.eqb_refl, bool_decide_eq_true_2 by done. by eexists. }
  cbn [mbind outcome_bind].
  destruct (IH (set_mbufs (delete y.1 (mbufs s1)) s1) (m_next y.2)) as (s' & E & R & B & C & M); [|done| |].
  { cbn [mbufs set_mbufs]. rewrite M1. eapply linked_ext; [|exact Hl]. intros z Hz. rewrite lookup_delete_ne; [done|]. intros Heq.
    apply Hni. rewrite Heq. by apply (list_elem_of_fmap_2 fst). }
  { intros z Hz. apply Hext. by apply list_elem_of_further. }
  exists s'. split; [exact E|]. rewrite R, B, C. cbn [rte bytes calls set_mbufs]. split_and!; [done|done| |].
  - rewrite C1, <- app_assoc. f_equal. unfold frees. rewrite filter_cons. destruct (has_ext M_EXT y.2); [by rewrite decide_True|by rewrite decide_False].
  - intros q. rewrite M. cbn [mbufs set_mbufs]. rewrite M1. destruct (decide (q = y.1)) as [->|Hq].
    + rewrite (decide_True (P := y.1 ∈ y.1 :: ms.*1)) by apply list_elem_of_here. case_decide; [done|by rewrite lookup_delete_eq].
    + rewrite lookup_delete_ne by done. assert (q ∈ y.1 :: ms.*1 <-> q ∈ ms.*1) as Hiff by set_solver.
      destruct (decide (q ∈ ms.*1)); [by rewrite decide_True by tauto|by rewrite decide_False by tauto].
Qed.

Lemma mbuf_free_all ms s p : linked m_next (mbufs s) p ms -> NoDup ms.*1 -> own_ext ms ->
  exists s', lazybsd_mbuf_free p s = Ok s' /\ rte s' = rte s /\ Mbuf.bytes s' = Mbuf.bytes s /\ calls s' = calls s ++ frees ms /\
    forall q, mbufs s' !! q = if decide (q ∈ ms.*1) then None else mbufs s !! q.
Proof.
  intros Hl Hnd Hext. destruct (free_chain_all ms s p Hl Hnd Hext) as (s' & E & R). exists s'. split; [|done].
  unfold lazybsd_mbuf_free. rewrite (doc_freem _ _ ms.*1); [done|by apply linked_chain|done|].
  intros q y (z & -> & Hz)%list_elem_of_fmap Hy He. rewrite (linked_in _ _ _ _ _ Hl Hz) in Hy. injection Hy as <-. by apply Hext.
Qed.

(** C24. The copy is the packet.  For a chain of [mbuf]s with data, and without a request to cut it into TCP segments
    ([CSUM_TSO], on a port with the feature), sending by copy returns, and all [mbuf]s of the chain are freed, once, whatever
    happens.  Either the allocator has no packet for a segment, and no other failure is possible: then the error is reported,
    nothing goes into the table, and the full segments made for the first of the data are freed once with their head, if there
    are any.  Or the packet goes into the table of the port: new
    segments, each full but the last, that hold the data of the chain in order, the first with the length, their
    number, and exactly the checksums to compute that the stack left out.  A total beyond the length of the packet is
    refused in the same way: the error is reported, and what was made is freed once with its head. *)
Theorem copy_sends pcap fuel l4 m x ms total q s :
  linked m_next (mbufs s) m ms -> NoDup ms.*1 -> own_ext ms -> mbufs s !! m = Some x ->
  len (m_pkthdr x) = Z.of_nat (length (contents (Mbuf.bytes s) ms)) ->
  (l4 <> 0 -> Z.land (csum_flags (m_pkthdr x)) CSUM_TSO = 0) ->
  0 < len (m_pkthdr x) <= total -> total < 2 ^ 31 -> total <= Z.of_nat fuel * D ->
  exists s', keeps (rte s) (rte s') /\ (forall p, mbufs s' !! p = if decide (p ∈ ms.*1) then None else mbufs s !! p) /\
   (len (m_pkthdr x) < total -> lazybsd_dpdk_if_send_copy pcap fuel l4 m total q s = Ok (-1, q, s') /\
     let head := (rte_pktmbuf_alloc s).1 in
     calls s' = calls s ++ (if decide (head = 0) then [] else [rte_pktmbuf_free head]) ++ frees ms) /\
   (len (m_pkthdr x) = total ->
    ((lazybsd_dpdk_if_send_copy pcap fuel l4 m total q s = Ok (-1, q, s') /\
      exists l, no_memory s s' ms l /\ calls s' = calls s ++ l ++ frees ms) \/
     (exists head ps,
      lazybsd_dpdk_if_send_copy pcap fuel l4 m total q s = ('(q, s) ← send_single_packet pcap head q s'; Ok (0, q, s)) /\
      calls s' = calls s ++ frees ms /\ packed s s' ms total (asked l4 x) head ps /\
      (Z.of_nat (length ps) - 1) * D < total <= Z.of_nat (length ps) * D))).
Proof.
  intros Hl Hnd Hext Hx Hct0 Htso Ht0 Hmax Hfuel. unfold lazybsd_dpdk_if_send_copy.
  destruct (Z.eq_dec (len (m_pkthdr x)) total) as [Hlen|Hlong].
  2: { destruct (copy_packet_too_long fuel m ms x total s) as (s1 & -> & M1 & K1 & C1); try first [done|lia].
    destruct (mbuf_free_all ms s1 m) as (s' & -> & R & B & C & M); [by rewrite M1|done|done|]. exists s'.
    split; [by rewrite R|]. split; [intros p; by rewrite M, M1|]. split; [|done]. intros _. split; [done|]. cbv zeta.
    by rewrite C, C1, app_assoc. }
  assert (0 < total < 2 ^ 31) as Ht by lia. assert (total = Z.of_nat (length (contents (Mbuf.bytes s) ms))) as Hct by lia.
  destruct (copy_packet_spec fuel m ms x total s) as [(s1 & l & -> & M1 & K1 & C1 & Hl1)|(s1 & head & ps & -> & M1 & C1 & P1)]; try done.
  - destruct (mbuf_free_all ms s1 m) as (s' & -> & R & B & C & M); [by rewrite M1|done|done|]. exists s'.
    split; [by rewrite R|]. split; [intros p; by rewrite M, M1|]. split; [lia|]. intros _. left. split; [done|]. exists l.
    split; [|by rewrite C, C1, app_assoc]. unfold no_memory in *. by rewrite R, B.
  - cbn [mbind outcome_bind]. destruct P1 as (P1 & P2 & P3 & P4 & P5 & (r & P6 & P7 & P8 & P9)). rewrite (proj2 (Z.eqb_neq head 0) P1).
    destruct (copy_offload_spec l4 m x head r s1) as (r' & -> & Hss & Hfl); [by rewrite M1|done|done|]. cbn [mbind outcome_bind].
    destruct (mbuf_free_all ms (set_rte (<[head := r']> (rte s1)) s1) m) as (s' & -> & R & B & C & M); [cbn [mbufs set_rte]; by rewrite M1|done|done|].
    cbn [mbind outcome_bind]. cbn [rte bytes calls mbufs set_rte] in R, B, C, M. exists s'.
    assert (head ∈ ps) as Hin.
    { destruct ps as [|q0 ps]; [destruct P5 as [_ P5]; rewrite P5 in Hct; cbn in Hct; lia|]. destruct P5 as [-> _]. apply list_elem_of_here. }
    split_and!.
    + intros p rp Hp. rewrite R, lookup_insert_ne; [by apply P4|]. intros <-. by rewrite (P3 head Hin) in Hp.
    + intros p. by rewrite M, M1.
    + lia.
    + intros _. right. exists head, ps. split; [done|]. split; [by rewrite C, C1|]. destruct (copied_length _ _ _ _ _ P5) as [Hcl|[-> _]]; [|by apply not_elem_of_nil in Hin].
      split; [|lia]. unfold packed. split_and!; [done|done|done| | |].
      * intros p rp Hp. rewrite R, lookup_insert_ne; [by apply P4|]. intros <-. by rewrite (P3 head Hin) in Hp.
      * rewrite R, B. eapply copied_same_segments; [|exact P5]. intros p rp Hp Hrp. destruct (decide (p = head)) as [->|Hne].
        -- rewrite lookup_insert_eq. rewrite P6 in Hrp. injection Hrp as <-. by exists r'.
        -- rewrite lookup_insert_ne by done. exists rp. split; [done|]. done.
      * exists r'. rewrite R, lookup_insert_eq, Hfl, P9. destruct Hss as (_ & _ & _ & -> & ->). by split_and!.
Qed.
End CopyFacts.

(** ** Example *)
Lemma lookup_bytes_at l : forall a b, bytes_at a l !! b = if decide (a <= b) then l !! Z.to_nat (b - a) else None.
Proof.
  induction l as [|c l IH]; intros a b; [unfold bytes_at; cbn; by case_decide|].
  assert (bytes_at a (c :: l) = <[a := c]> (bytes_at (a + 1) l)) as ->.
  { unfold bytes_at. cbn [imap list_to_map fmap foldr]. rewrite Z.add_0_r. f_equal. f_equal. apply imap_ext. intros i y _. unfold compose. f_equal. lia. }
  rewrite lookup_insert. case_decide as E; [subst; rewrite decide_True, Z.sub_diag by lia; done|].
  rewrite IH. destruct (decide (a <= b)); [rewrite decide_True by lia|by rewrite decide_False by lia].
  replace (Z.to_nat (b - a)) with (S (Z.to_nat (b - (a + 1)))) by lia. done.
Qed.

Lemma rd_bytes_at a l m b : rd (bytes_at a l ∪ m) b =
  if decide (a <= b < a + Z.of_nat (length l)) then default 0 (l !! Z.to_nat (b - a)) else rd m b.
Proof.
  unfold rd. rewrite lookup_union, lookup_bytes_at. case_decide.
  - case_decide; [|rewrite lookup_ge_None_2 by lia; by destruct (m !! b)].
    destruct (lookup_lt_is_Some_2 l (Z.to_nat (b - a)) ltac:(lia)) as [y ->]. by destruct (m !! b).
  - rewrite decide_False by lia. by destruct (m !! b).
Qed.

(** A buffer behind all others: no address from here on is in use. *)
Definition top (s : net) : Z :=
  Z.max (foldr Z.max 0 ((fun p => m_data p.2 + m_len p.2) <$> map_to_list (mbufs s)))
        (foldr Z.max 0 ((fun p => buf p.2 + 4) <$> map_to_list (rte s))).

Definition copy_mbuf_kernel (limit : nat) : MbufKernel :=
  let K := example_mbuf_kernel limit in {|
  M_EXT := @M_EXT K; M_VLANTAG := @M_VLANTAG K; EXT_DISPOSABLE := @EXT_DISPOSABLE K;
  CSUM_IP := @CSUM_IP K; CSUM_TCP := @CSUM_TCP K; CSUM_UDP := @CSUM_UDP K; CSUM_SCTP := @CSUM_SCTP K; CSUM_TSO := @CSUM_TSO K;
  CSUM_IP_CHECKED := @CSUM_IP_CHECKED K; CSUM_IP_VALID := @CSUM_IP_VALID K; CSUM_DATA_VALID := @CSUM_DATA_VALID K; CSUM_PSEUDO_HDR := @CSUM_PSEUDO_HDR K;
  RX_CKSUM_BAD := @RX_CKSUM_BAD K; RTE_MBUF_F_RX_VLAN_STRIPPED := @RTE_MBUF_F_RX_VLAN_STRIPPED K;
  M_TRAILINGSPACE := @M_TRAILINGSPACE K; m_gethdr := @m_gethdr K; m_get := @m_get K; m_getm2 := @m_getm2 K; m_pkthdr_init := @m_pkthdr_init K;
  m_extadd := @m_extadd K; m_copydata := @m_copydata K; m_freem := @m_freem K;
  rte_pktmbuf_alloc s :=
    if decide (base.size (rte s) < limit)%nat then
      let p := fresh (dom (rte s) ∪ {[0]} : gset Z) in
      (p, set_rte (<[p := RteMbuf 0 (top s) 0 0 1 0 0 0 0 0 0 0]> (rte s)) s)
    else (0, s) |}.

Lemma copy_mbuf_kernel_doc limit : MbufKernelDoc (H := copy_mbuf_kernel limit).
Proof. pose proof (example_mbuf_kernel_doc limit) as K. constructor; try first [exact (@doc_M_EXT _ K)|exact (@doc_gethdr _ K)|exact (@doc_get _ K)|exact (@doc_pkthdr_init _ K)|exact (@doc_extadd _ K)|exact (@doc_freem _ K)|exact (@doc_getm2 _ K)|exact (@doc_TRAILINGSPACE _ K)|exact (@doc_TRAILINGSPACE_len _ K)].
  intros l s Hl. destruct (@doc_getm2 _ K l s Hl) as (p & ms & s' & E & El & Eg & Es & Er). exists p, ms, s'.
  assert (space (H := copy_mbuf_kernel limit) ms = space (H := example_mbuf_kernel limit) ms) as -> by (clear; induction ms as [|y ms IH]; [done|cbn [space]; by rewrite IH]).
  split; [exact E|]. split; [exact El|]. split; [exact Eg|]. split; [exact Es|exact Er].
Qed.

(** Segments of four bytes. *)
Definition copy_kernel : CopyKernel := {| RTE_MBUF_DEFAULT_DATAROOM := 4; RTE_MBUF_F_TX_IP_CKSUM := 8; RTE_MBUF_F_TX_UDP_CKSUM := 16 |}.

Lemma foldr_max_ge l y : y ∈ l -> y <= foldr Z.max 0 l.
Proof. induction l as [|z l IH]; [by intros Hy%not_elem_of_nil|]. intros [->|Hy]%elem_of_cons; cbn; [lia|]. specialize (IH Hy). lia. Qed.

Lemma copy_alloc_doc limit s p s' : rte_pktmbuf_alloc (MbufKernel := copy_mbuf_kernel limit) s = (p, s') ->
  p = 0 /\ s' = s \/
  p <> 0 /\ rte s !! p = None /\ exists r, next r = 0 /\ ol_flags r = 0 /\ s' = set_rte (<[p := r]> (rte s)) s /\
    (forall q r' b, rte s !! q = Some r' -> room (H2 := copy_kernel) r b -> ~ room (H2 := copy_kernel) r' b) /\
    (forall q x b, mbufs s !! q = Some x -> room (H2 := copy_kernel) r b -> ~ in_data x b).
Proof.
  cbn [rte_pktmbuf_alloc copy_mbuf_kernel]. case_decide; [|intros [= <- <-]; by left].
  pose proof (is_fresh (dom (rte s) ∪ {[0]} : gset Z)) as Hf. set (q := fresh _) in *. clearbody q.
  intros [= <- <-]. right. split; [set_solver|]. split; [apply not_elem_of_dom; set_solver|]. eexists. split; [|split; [|split; [reflexivity|]]]; [done|done|].
  unfold room, in_data. cbn [buf RTE_MBUF_DEFAULT_DATAROOM copy_kernel]. split.
  - intros q' r' b Hq Hb Hb'. pose proof (foldr_max_ge ((fun p => buf p.2 + 4) <$> map_to_list (rte s)) (buf r' + 4)) as Hm.
    unfold top in Hb. assert (buf r' + 4 ∈ (fun p : Z * rte_mbuf => buf p.2 + 4) <$> map_to_list (rte s)) as Hin; [|specialize (Hm Hin); lia].
    apply (list_elem_of_fmap_2' (fun p : Z * rte_mbuf => buf p.2 + 4) _ (q', r')); [by apply elem_of_map_to_list|done].
  - intros q' x b Hq Hb Hb'. pose proof (foldr_max_ge ((fun p => m_data p.2 + m_len p.2) <$> map_to_list (mbufs s)) (m_data x + m_len x)) as Hm.
    unfold top in Hb. assert (m_data x + m_len x ∈ (fun p : Z * mbuf => m_data p.2 + m_len p.2) <$> map_to_list (mbufs s)) as Hin; [|specialize (Hm Hin); lia].
    apply (list_elem_of_fmap_2' (fun p : Z * mbuf => m_data p.2 + m_len p.2) _ (q', x)); [by apply elem_of_map_to_list|done].
Qed.

Lemma copy_copydata_doc limit s m ms off l dst : linked m_next (mbufs s) m ms -> NoDup ms.*1 -> 0 <= off -> 0 <= l ->
  off + l <= Z.of_nat (length (contents (Mbuf.bytes s) ms)) ->
  (forall x b, x ∈ ms -> dst <= b < dst + l -> ~ in_data x.2 b) ->
  exists b', m_copydata (MbufKernel := copy_mbuf_kernel limit) m off l dst s = set_bytes b' s /\
    bytes_of b' dst l = take (Z.to_nat l) (drop (Z.to_nat off) (contents (Mbuf.bytes s) ms)) /\
    forall a, ~ (dst <= a < dst + l) -> rd b' a = rd (Mbuf.bytes s) a.
Proof.
  intros Hl Hnd Ho Hl0 Hlen _. cbn [m_copydata copy_mbuf_kernel example_mbuf_kernel].
  pose proof (linked_chain _ _ _ Hl) as Hc. rewrite (walk_chain _ _ _ ms.*1 Hc) by (pose proof (chain_length _ _ _ Hc Hnd); lia).
  assert (omap (fun p => mbufs s !! p) ms.*1 = ms.*2) as ->.
  { assert (forall y, y ∈ ms -> mbufs s !! y.1 = Some y.2) as Hin by (intros y; by eapply linked_in). clear -Hin.
    induction ms as [|y ms IH]; [done|]. cbn. rewrite (Hin y) by apply list_elem_of_here. f_equal. apply IH. intros z Hz. apply Hin. by apply list_elem_of_further. }
  fold (contents (Mbuf.bytes s) ms). set (t := take _ _). assert (Z.of_nat (length t) = l) as Et.
  { unfold t. rewrite length_take, length_drop. lia. }
  eexists. split; [reflexivity|]. split.
  - apply list_eq. intros i. unfold bytes_of. rewrite list_lookup_fmap. destruct (decide (i < length t)%nat) as [Hi|Hi].
    + rewrite (lookup_seqZ_lt 0 l i) by lia. cbn. rewrite rd_bytes_at, decide_True by lia. replace (Z.to_nat (dst + (0 + Z.of_nat i) - dst)) with i by lia.
      by destruct (lookup_lt_is_Some_2 t i Hi) as [y ->].
    + rewrite (lookup_seqZ_ge 0 l i) by lia. by rewrite lookup_ge_None_2 by lia.
  - intros a Ha. rewrite rd_bytes_at, decide_False by lia. done.
Qed.

(** The packet of Send.v, ten bytes in two [mbuf]s, in three segments. *)
Definition copy_mbufs : list (Z * mbuf) :=
  [(10, Mbuf 11 0 5000 4 0 (Pkthdr 0 10 1 0 0 0) 0 OTHER_EXT_FREE 0); (11, Mbuf 0 0 9000 6 0 (Pkthdr 0 0 0 0 0 0) 0 OTHER_EXT_FREE 0)].
Definition copy_net : net := Net (list_to_map copy_mbufs) ∅ (bytes_at 5000 [1; 2; 3; 4] ∪ bytes_at 9000 [5; 6; 7; 8; 9; 10]) [].
#[local] Existing Instances copy_kernel copy_mbuf_kernel_doc.

Lemma copy_sends_witness : exists head ps s',
  lazybsd_dpdk_if_send_copy (H := copy_mbuf_kernel 8) false 3 1 10 10 (tx_init 0 0) copy_net =
    ('(q, s) ← send_single_packet (H := copy_mbuf_kernel 8) false head (tx_init 0 0) s'; Ok (0, q, s)) /\
  copied (rte s') (Mbuf.bytes s') head ps [1; 2; 3; 4; 5; 6; 7; 8; 9; 10] /\ length ps = 3%nat.
Proof.
  destruct (copy_sends (H := copy_mbuf_kernel 8) (H2 := copy_kernel) ltac:(cbn; lia) (copy_alloc_doc 8) (copy_copydata_doc 8) false 3 1 10
    (Mbuf 11 0 5000 4 0 (Pkthdr 0 10 1 0 0 0) 0 OTHER_EXT_FREE 0) copy_mbufs 10 (tx_init 0 0) copy_net) as (s' & _ & _ & _ & T).
  1: vm_compute; by split_and!.
  1: apply (bool_decide_unpack _); by vm_compute.
  1: intros y [->|[->|?%not_elem_of_nil]%elem_of_cons]%elem_of_cons; done.
  1,2,3: done.
  1: by (vm_compute; split).
  1,2: by vm_compute.
  destruct (T eq_refl) as [(E & _)|(head & ps & E & _ & P & L)].
  - exfalso. revert E. vm_compute. done.
  - exists head, ps, s'. split; [exact E|]. split; [|cbn in L; lia]. destruct P as (_ & _ & _ & _ & P & _). exact P.
Defined.
