(* ===== verification/Rss.v ===== *)
(** * Rss: which queue a connection is on ([src/lazybsd_dpdk.cc])

    With several queues the NIC hashes the addresses and ports of a packet
    ([toeplitz_hash] with the key of the NIC), looks the low bits of the hash up in a
    table that [set_rss_table] has filled, and puts the packet on the queue it finds.
    Every process of the stack has one queue; [lazybsd_rss_check] decides whether the
    packets of a connection will come to the queue of this process. *)
From Stdlib Require Import ZifyBool Btauto.
From S2P Require Import Prelude.

(** ** The keys *)
Definition default_rsskey_40bytes : list Z :=
  [0xd1; 0x81; 0xc6; 0x2c; 0xf7; 0xf4; 0xdb; 0x5b; 0x19; 0x83;
   0xa2; 0xfc; 0x94; 0x3e; 0x1a; 0xdb; 0xd9; 0x38; 0x9e; 0x6b;
   0xd1; 0x03; 0x9c; 0x2c; 0xa7; 0x44; 0x99; 0xad; 0x59; 0x3d;
   0x56; 0xd9; 0xf3; 0x25; 0x3c; 0x06; 0x2a; 0xdc; 0x1f; 0xfc].
Definition default_rsskey_52bytes : list Z :=
  [0x44; 0x39; 0x79; 0x6b; 0xb5; 0x4c; 0x50; 0x23; 0xb6; 0x75; 0xea; 0x5b; 0x12;
   0x4f; 0x9f; 0x30; 0xb8; 0xa2; 0xc0; 0x3d; 0xdf; 0xdc; 0x4d; 0x02; 0xa0; 0x8c;
   0x9b; 0x33; 0x4a; 0xf6; 0x4a; 0x4c; 0x05; 0xc6; 0xfa; 0x34; 0x39; 0x58; 0xd8;
   0x55; 0x7d; 0x99; 0x58; 0x3a; 0xe1; 0x38; 0xc9; 0x2e; 0x81; 0x15; 0x03; 0x66].
Definition symmetric_rsskey : list Z := concat (replicate 26 [0x6d; 0x5a]).

(** [rsskey_len] and [rsskey] after the port is configured: by the size of the key of
    the NIC, and whether the configuration asks for the symmetric key. *)
Definition select_rsskey (hash_key_size : Z) (symmetric_rss : bool) : nat * list Z :=
  let '(n, k) := if hash_key_size =? 52 then (52%nat, default_rsskey_52bytes)
                 else (40%nat, default_rsskey_40bytes) in
  (n, if symmetric_rss then symmetric_rsskey else k).

(** [key[i]], in bounds. *)
Definition at_ (l : list Z) (i : nat) : Z := nth i l 0.

Section Toeplitz.
Context (keylen : nat) (key : list Z) (data : list Z).

(** The body for the bit [b] of the byte [i], on [hash] and [v]. *)
Definition toeplitz_bit (i b : nat) (hv : Z * Z) : Z * Z :=
  let '(hash, v) := hv in
  let bit := Z.shiftl 1 (7 - Z.of_nat b) in
  let hash := if negb (Z.land (at_ data i) bit =? 0) then Z.lxor hash v else hash in
  let v := u32 (Z.shiftl v 1) in
  let v := if (i + 4 <? keylen)%nat && negb (Z.land (at_ key (i + 4)) bit =? 0) then Z.lor v 1 else v in
  (hash, v).

(** The inner loop from [b] on, the outer loop from [i] on. *)
Definition toeplitz_byte (i : nat) (hv : Z * Z) : Z * Z :=
  foldl (fun hv b => toeplitz_bit i b hv) hv (seq 0 8).
Definition toeplitz_bytes (i n : nat) (hv : Z * Z) : Z * Z :=
  foldl (fun hv i => toeplitz_byte i hv) hv (seq i n).
End Toeplitz.

Definition toeplitz_hash (keylen : nat) (key : list Z) (datalen : nat) (data : list Z) : Z :=
  let v := u32 (Z.shiftl (at_ key 0) 24 + Z.shiftl (at_ key 1) 16 + Z.shiftl (at_ key 2) 8 + at_ key 3) in
  (toeplitz_bytes keylen key data 0 datalen (0, v)).1.

(** ** The table *)

(** [reta_conf[i].reta[j]] for [RTE_ETH_RETA_GROUP_SIZE] entries in a group; [None] when
    there is no table. *)
Definition set_rss_table (group : Z) (reta_size nb_queues : Z) : option (list (list Z)) :=
  if reta_size =? 0 then None else
  let reta_conf_size := Z.max 1 (reta_size / group) in
  Some ((fun i => (fun j => u16 (u32 (i * group + j) mod nb_queues)) <$> seqZ 0 group)
          <$> seqZ 0 reta_conf_size).

(** ** The test *)

(** The bytes of an [n]-byte integer in memory. *)
Fixpoint le_bytes (n : nat) (z : Z) : list Z :=
  match n with O => [] | S n => z mod 256 :: le_bytes n (z / 256) end.

(** What a process knows of its port. *)
Record rss_conf := RssConf { nb_queues : Z; reta_size : Z; tx_queue_id : Z; rsskey_len : nat; rsskey : list Z }.

Definition rss_data (saddr daddr sport dport : Z) : list Z :=
  le_bytes 4 saddr ++ le_bytes 4 daddr ++ le_bytes 2 sport ++ le_bytes 2 dport.

Definition lazybsd_rss_check (c : rss_conf) (saddr daddr sport dport : Z) : Z :=
  if nb_queues c <=? 1 then 1 else
  let data := rss_data saddr daddr sport dport in
  let hash := toeplitz_hash (rsskey_len c) (rsskey c) (length data) data in
  b2z (u32 (Z.land hash (u32 (reta_size c - 1)) mod nb_queues c) =? tx_queue_id c).

(** ** The hash as it is announced

    The hash is the sum (exclusive or) of a 32-bit window of the key for every bit of
    the data that is set; the window of the bit [m] begins at the bit [m] of the key.
    Bits are counted from the highest bit of the first byte. *)
Definition bit_of (l : list Z) (m : nat) : bool := Z.testbit (at_ l (m / 8)) (7 - Z.of_nat (m mod 8)).
Definition key_bit (keylen : nat) (key : list Z) (m : nat) : bool := (m / 8 <? keylen)%nat && bit_of key m.
Definition word (f : nat -> bool) (n : nat) : Z :=
  foldl (fun w j => Z.lor (Z.shiftl w 1) (b2z (f j))) 0 (seq 0 n).
Definition window (keylen : nat) (key : list Z) (m : nat) : Z :=
  word (fun j => key_bit keylen key (m + j)) 32.
Definition toeplitz_sum (keylen : nat) (key data : list Z) (ms : list nat) : Z :=
  foldr (fun m h => Z.lxor (if bit_of data m then window keylen key m else 0) h) 0 ms.
Definition toeplitz_spec (keylen : nat) (key data : list Z) : Z :=
  toeplitz_sum keylen key data (seq 0 (8 * length data)).

Lemma word_S f n : word f (S n) = Z.lor (Z.shiftl (word f n) 1) (b2z (f n)).
Proof. unfold word. by rewrite seq_S, foldl_snoc. Qed.

Lemma testbit_b2z b t : Z.testbit (b2z b) t = (t =? 0) && b.
Proof.
  destruct b; cbn [b2z]; [|by rewrite Z.testbit_0_l, andb_false_r]. rewrite andb_true_r.
  destruct (Z.eqb_spec t 0) as [->|Hn]; [done|].
  destruct (Z.ltb_spec t 0); [by apply Z.testbit_neg_r|]. change 1 with (2 ^ 0).
  rewrite Z.pow2_bits_eqb by lia. lia.
Qed.

Lemma testbit_word f n t : 0 <= t -> Z.testbit (word f n) t = (t <? Z.of_nat n) && f (n - 1 - Z.to_nat t)%nat.
Proof.
  revert t. induction n as [|n IH]; intros t Ht.
  { unfold word. cbn [seq foldl]. rewrite Z.testbit_0_l. by replace (t <? Z.of_nat 0) with false by lia. }
  rewrite word_S, Z.lor_spec, Z.shiftl_spec, testbit_b2z by done.
  destruct (Z.eqb_spec t 0) as [->|Hn].
  - rewrite Z.testbit_neg_r by lia. cbn [orb andb]. replace (0 <? Z.of_nat (S n)) with true by lia.
    cbn [andb]. f_equal. lia.
  - rewrite IH by lia. cbn [andb]. rewrite orb_false_r.
    replace (t - 1 <? Z.of_nat n) with (t <? Z.of_nat (S n)) by lia. f_equal. f_equal. lia.
Qed.

Lemma land_bit x k : 0 <= k -> negb (Z.land x (Z.shiftl 1 k) =? 0) = Z.testbit x k.
Proof.
  intros Hk. rewrite Z.shiftl_1_l. destruct (Z.testbit x k) eqn:E.
  - apply negb_true_iff, Z.eqb_neq. intros E0. assert (Z.testbit (Z.land x (2 ^ k)) k = false) as E1
      by (by rewrite E0, Z.testbit_0_l).
    rewrite Z.land_spec, E, Z.pow2_bits_true in E1 by done. done.
  - apply negb_false_iff, Z.eqb_eq. apply Z.bits_inj'. intros t Ht. rewrite Z.land_spec, Z.testbit_0_l.
    rewrite Z.pow2_bits_eqb by done. destruct (Z.eqb_spec k t) as [->|]; [by rewrite E|apply andb_false_r].
Qed.

Lemma testbit_u32 x t : 0 <= t -> Z.testbit (u32 x) t = (t <? 32) && Z.testbit x t.
Proof.
  intros Ht. unfold uwrap. destruct (Z.ltb_spec t 32).
  - by rewrite Z.mod_pow2_bits_low.
  - by rewrite Z.mod_pow2_bits_high by lia.
Qed.

Section ToeplitzFacts.
Context (keylen : nat) (key data : list Z).

Lemma window_next m :
  (let v := u32 (Z.shiftl (window keylen key m) 1) in
   if key_bit keylen key (m + 32) then Z.lor v 1 else v) = window keylen key (S m).
Proof.
  cbn zeta. apply Z.bits_inj'. intros t Ht. unfold window. rewrite testbit_word by done.
  assert (Z.testbit (if key_bit keylen key (m + 32)
      then Z.lor (u32 (Z.shiftl (word (fun j => key_bit keylen key (m + j)) 32) 1)) 1
      else u32 (Z.shiftl (word (fun j => key_bit keylen key (m + j)) 32) 1)) t =
    Z.testbit (u32 (Z.shiftl (word (fun j => key_bit keylen key (m + j)) 32) 1)) t
      || ((t =? 0) && key_bit keylen key (m + 32))) as ->.
  { destruct (key_bit keylen key (m + 32)).
    - rewrite Z.lor_spec. f_equal. exact (testbit_b2z true t).
    - by rewrite andb_false_r, orb_false_r. }
  rewrite testbit_u32, Z.shiftl_spec by done. destruct (Z.eqb_spec t 0) as [->|Hn].
  - rewrite Z.testbit_neg_r, andb_false_r by lia. cbn [orb andb].
    replace (0 <? Z.of_nat 32) with true by lia. cbn [andb]. f_equal. lia.
  - rewrite testbit_word by lia. cbn [andb]. rewrite orb_false_r.
    destruct (Z.ltb_spec t 32); cbn [andb]; [|by replace (t <? Z.of_nat 32) with false by lia].
    replace (t <? Z.of_nat 32) with true by lia. replace (t - 1 <? Z.of_nat 32) with true by lia.
    cbn [andb]. f_equal. lia.
Qed.

Lemma toeplitz_bit_spec i b hash : (b < 8)%nat ->
  toeplitz_bit keylen key data i b (hash, window keylen key (8 * i + b)) =
    (Z.lxor hash (if bit_of data (8 * i + b) then window keylen key (8 * i + b) else 0),
     window keylen key (S (8 * i + b))).
Proof.
  intros Hb. unfold toeplitz_bit. rewrite !land_bit by lia.
  assert ((8 * i + b) / 8 = i /\ (8 * i + b) mod 8 = b)%nat as [Ed Em].
  { split; [symmetry; apply (Nat.div_unique _ _ _ b)|symmetry; apply (Nat.mod_unique _ _ i)]; lia. }
  assert ((8 * i + b + 32) / 8 = i + 4 /\ (8 * i + b + 32) mod 8 = b)%nat as [Ed' Em'].
  { split; [symmetry; apply (Nat.div_unique _ _ _ b)|symmetry; apply (Nat.mod_unique _ _ (i + 4))]; lia. }
  rewrite <- window_next. unfold bit_of, key_bit, bit_of. rewrite Ed, Em, Ed', Em'.
  f_equal. destruct (Z.testbit _ _); [done|by rewrite Z.lxor_0_r].
Qed.

Lemma toeplitz_bits_spec i n b hash : (b + n <= 8)%nat ->
  foldl (fun hv b => toeplitz_bit keylen key data i b hv) (hash, window keylen key (8 * i + b)) (seq b n) =
    (Z.lxor hash (toeplitz_sum keylen key data (seq (8 * i + b) n)), window keylen key (8 * i + b + n)).
Proof.
  revert b hash. induction n as [|n IH]; intros b hash Hb.
  { cbn [seq foldl]. unfold toeplitz_sum. cbn [foldr]. by rewrite Z.lxor_0_r, Nat.add_0_r. }
  cbn [seq foldl]. rewrite toeplitz_bit_spec by lia.
  replace (S (8 * i + b)) with (8 * i + S b)%nat by lia. rewrite IH by lia.
  f_equal; [|f_equal; lia]. unfold toeplitz_sum. cbn [foldr]. rewrite Z.lxor_assoc. 
  replace (S (8 * i + b)) with (8 * i + S b)%nat by lia. done.
Qed.

Lemma toeplitz_sum_app ms1 ms2 :
  toeplitz_sum keylen key data (ms1 ++ ms2) =
    Z.lxor (toeplitz_sum keylen key data ms1) (toeplitz_sum keylen key data ms2).
Proof.
  induction ms1 as [|m ms1 IH]; [by rewrite Z.lxor_0_l|].
  unfold toeplitz_sum in *. cbn [app foldr]. by rewrite IH, Z.lxor_assoc.
Qed.

Lemma toeplitz_bytes_spec i n hash :
  toeplitz_bytes keylen key data i n (hash, window keylen key (8 * i)) =
    (Z.lxor hash (toeplitz_sum keylen key data (seq (8 * i) (8 * n))), window keylen key (8 * (i + n))).
Proof.
  revert i hash. induction n as [|n IH]; intros i hash.
  { unfold toeplitz_bytes. rewrite Nat.mul_0_r. cbn [seq foldl]. unfold toeplitz_sum. cbn [foldr].
    by rewrite Z.lxor_0_r, Nat.add_0_r. }
  unfold toeplitz_bytes in *. cbn [seq foldl]. unfold toeplitz_byte at 2.
  pose proof (toeplitz_bits_spec i 8 0 hash ltac:(lia)) as E. rewrite !Nat.add_0_r in E. rewrite E.
  replace (8 * i + 8)%nat with (8 * S i)%nat by lia. rewrite IH.
  f_equal; [|f_equal; lia]. rewrite Z.lxor_assoc, <- toeplitz_sum_app. do 2 f_equal.
  replace (8 * S n)%nat with (8 + 8 * n)%nat by lia. rewrite seq_app. do 2 f_equal. lia.
Qed.
End ToeplitzFacts.

Lemma word_S_add f n : word f (S n) = 2 * word f n + b2z (f n).
Proof.
  rewrite word_S, Z.shiftl_mul_pow2 by done. change (2 ^ 1) with 2.
  assert (Z.land (word f n * 2) (b2z (f n)) = 0) as E.
  { destruct (f n); cbn [b2z]; [|apply Z.land_0_r]. change 1 with (Z.ones 1).
    rewrite Z.land_ones by done. apply Z_mod_mult. }
  pose proof (Z.add_lor_land (word f n * 2) (b2z (f n))). lia.
Qed.

Lemma word_app f n k : word f (n + k) = word f n * 2 ^ Z.of_nat k + word (fun j => f (n + j)%nat) k.
Proof.
  induction k as [|k IH].
  { rewrite Nat.add_0_r. unfold word at 3. cbn. lia. }
  rewrite Nat.add_succ_r, !word_S_add, IH, Nat2Z.inj_succ, Z.pow_succ_r by lia. lia.
Qed.

Lemma word_ext f g n : (forall j, (j < n)%nat -> f j = g j) -> word f n = word g n.
Proof.
  induction n as [|n IH]; intros E; [done|]. rewrite !word_S, E, IH by (lia || (intros; apply E; lia)). done.
Qed.

Lemma word_byte x : 0 <= x < 256 -> word (fun j => Z.testbit x (7 - Z.of_nat j)) 8 = x.
Proof.
  intros Hx. apply Z.bits_inj'. intros t Ht. rewrite testbit_word by done.
  destruct (Z.ltb_spec t (Z.of_nat 8)); cbn [andb]; [f_equal; lia|].
  rewrite <- (Z.mod_small x (2 ^ 8)) by (change (2 ^ 8) with 256; lia).
  by rewrite Z.mod_pow2_bits_high by lia.
Qed.

Lemma word_key keylen key i :
  (i < keylen)%nat -> 0 <= at_ key i < 256 ->
  word (fun j => key_bit keylen key (8 * i + j)) 8 = at_ key i.
Proof.
  intros Hi Hk. rewrite <- (word_byte (at_ key i)) by done. apply word_ext. intros j Hj.
  unfold key_bit, bit_of.
  assert ((8 * i + j) / 8 = i /\ (8 * i + j) mod 8 = j)%nat as [-> ->].
  { split; [symmetry; apply (Nat.div_unique _ _ _ j)|symmetry; apply (Nat.mod_unique _ _ i)]; lia. }
  by replace (i <? keylen)%nat with true by lia.
Qed.

Lemma window_0 keylen key : (4 <= keylen)%nat -> (forall i, (i < 4)%nat -> 0 <= at_ key i < 256) ->
  u32 (Z.shiftl (at_ key 0) 24 + Z.shiftl (at_ key 1) 16 + Z.shiftl (at_ key 2) 8 + at_ key 3)
    = window keylen key 0.
Proof.
  intros Hl Hk. unfold window. cbn [Nat.add].
  change 32%nat with (8 + (8 + (8 + 8)))%nat. rewrite !word_app.
  pose proof (word_key keylen key 0 ltac:(lia) (Hk 0%nat ltac:(lia))) as E0.
  pose proof (word_key keylen key 1 ltac:(lia) (Hk 1%nat ltac:(lia))) as E1.
  pose proof (word_key keylen key 2 ltac:(lia) (Hk 2%nat ltac:(lia))) as E2.
  pose proof (word_key keylen key 3 ltac:(lia) (Hk 3%nat ltac:(lia))) as E3.
  cbn [Nat.mul Nat.add] in *. rewrite E0, E1, E2, E3.
  pose proof (Hk 0%nat ltac:(lia)). pose proof (Hk 1%nat ltac:(lia)). pose proof (Hk 2%nat ltac:(lia)).
  pose proof (Hk 3%nat ltac:(lia)). rewrite !Z.shiftl_mul_pow2 by lia.
  change (2 ^ 24) with 16777216. change (2 ^ 16) with 65536. change (2 ^ 8) with 256.
  change (2 ^ Z.of_nat 24) with 16777216. change (2 ^ Z.of_nat 16) with 65536.
  change (2 ^ Z.of_nat 8) with 256.
  rewrite u32_id by (unfold in_u32; lia). lia.
Qed.

Lemma toeplitz_hash_spec keylen key data :
  (4 <= keylen)%nat -> (forall i, (i < 4)%nat -> 0 <= at_ key i < 256) ->
  toeplitz_hash keylen key (length data) data = toeplitz_spec keylen key data.
Proof.
  intros Hl Hk. unfold toeplitz_hash. rewrite (window_0 keylen) by done.
  pose proof (toeplitz_bytes_spec keylen key data 0 (length data) 0) as E.
  rewrite Nat.mul_0_r in E. rewrite E. cbn [fst]. apply Z.lxor_0_l.
Qed.

(** ** The symmetric key *)

Lemma at_symmetric i : (i < 52)%nat -> at_ symmetric_rsskey i = if Nat.even i then 0x6d else 0x5a.
Proof. intros Hi. do 52 (destruct i as [|i]; [done|]). lia. Qed.

(** Its windows repeat every 16 bits. *)
Lemma window_symmetric keylen m : (40 <= keylen <= 52)%nat -> (m < 96)%nat ->
  window keylen symmetric_rsskey m = window 52 symmetric_rsskey (m mod 16).
Proof.
  intros Hl Hm. apply word_ext. intros j Hj. unfold key_bit, bit_of.
  pose proof (Nat.div_mod_eq m 16). pose proof (Nat.mod_upper_bound m 16 ltac:(lia)).
  set (q := (m / 16)%nat) in *. set (r := (m mod 16)%nat) in *.
  replace (m + j)%nat with (r + j + (2 * q) * 8)%nat by lia. rewrite Nat.div_add, Nat.Div0.mod_add by lia.
  assert ((r + j) / 8 < 7)%nat by (apply Nat.Div0.div_lt_upper_bound; lia).
  rewrite !at_symmetric by lia.
  replace (_ <? keylen)%nat with true by lia. replace (_ <? 52)%nat with true by lia.
  rewrite Nat.even_add_mul_2. done.
Qed.

(** The part of the byte [x] at an even ([p = 0]) or odd ([p = 1]) place. *)
Definition byte_sum (p : nat) (x : Z) : Z :=
  foldr (fun b h => Z.lxor (if Z.testbit x (7 - Z.of_nat b) then window 52 symmetric_rsskey (8 * p + b) else 0) h)
    0 (seq 0 8).

Lemma toeplitz_sum_byte keylen data i : (40 <= keylen <= 52)%nat -> (i < 12)%nat ->
  toeplitz_sum keylen symmetric_rsskey data (seq (8 * i) 8) = byte_sum (i mod 2) (at_ data i).
Proof.
  intros Hl Hi. unfold toeplitz_sum, byte_sum. rewrite <- (Nat.add_0_r (8 * i)) at 1.
  assert (forall n b, (b + n <= 8)%nat ->
    foldr (fun m h => Z.lxor (if bit_of data m then window keylen symmetric_rsskey m else 0) h) 0 (seq (8 * i + b) n) =
    foldr (fun b h => Z.lxor (if Z.testbit (at_ data i) (7 - Z.of_nat b)
      then window 52 symmetric_rsskey (8 * (i mod 2) + b) else 0) h) 0 (seq b n)) as E.
  { induction n as [|n IH]; intros b Hb; [done|]. cbn [seq foldr].
    rewrite <- Nat.add_succ_r, IH by lia. f_equal. unfold bit_of.
    assert ((8 * i + b) / 8 = i /\ (8 * i + b) mod 8 = b)%nat as [-> ->].
    { split; [symmetry; apply (Nat.div_unique _ _ _ b)|symmetry; apply (Nat.mod_unique _ _ i)]; lia. }
    rewrite window_symmetric by lia.
    assert ((8 * i + b) mod 16 = 8 * (i mod 2) + b)%nat as ->; [|done].
    pose proof (Nat.div_mod_eq i 2). pose proof (Nat.mod_upper_bound i 2 ltac:(lia)).
    symmetry. apply (Nat.mod_unique _ _ (i / 2)); lia. }
  apply (E 8%nat 0%nat). lia.
Qed.

(** The hash of twelve bytes is the sum of their parts. *)
Lemma toeplitz_symmetric_12 keylen data : (40 <= keylen <= 52)%nat -> length data = 12%nat ->
  toeplitz_spec keylen symmetric_rsskey data =
    foldr (fun i h => Z.lxor (byte_sum (i mod 2) (at_ data i)) h) 0 (seq 0 12).
Proof.
  intros Hl Hd. unfold toeplitz_spec. rewrite Hd.
  assert (forall n i, (i + n <= 12)%nat ->
    toeplitz_sum keylen symmetric_rsskey data (seq (8 * i) (8 * n)) =
    foldr (fun i h => Z.lxor (byte_sum (i mod 2) (at_ data i)) h) 0 (seq i n)) as E.
  { induction n as [|n IH]; intros i Hi; [done|].
    replace (8 * S n)%nat with (8 + 8 * n)%nat by lia.
    rewrite seq_app, toeplitz_sum_app, toeplitz_sum_byte by lia. cbn [seq foldr]. f_equal.
    replace (8 * i + 8)%nat with (8 * S i)%nat by lia. apply IH. lia. }
  apply (E 12%nat 0%nat). lia.
Qed.

Lemma symmetric_key_bytes i : (i < 4)%nat -> 0 <= at_ symmetric_rsskey i < 256.
Proof. intros Hi. rewrite at_symmetric by lia. destruct (Nat.even i); lia. Qed.

(** The symmetric key.  With it both directions of a connection have the same hash,
    so the NIC puts them on the same queue, whichever size the key of the NIC has. *)
Theorem rss_symmetric hash_key_size saddr daddr sport dport :
  let '(n, k) := select_rsskey hash_key_size true in
  toeplitz_hash n k 12 (rss_data saddr daddr sport dport) =
  toeplitz_hash n k 12 (rss_data daddr saddr dport sport).
Proof.
  assert (forall n, (40 <= n <= 52)%nat ->
    toeplitz_hash n symmetric_rsskey 12 (rss_data saddr daddr sport dport) =
    toeplitz_hash n symmetric_rsskey 12 (rss_data daddr saddr dport sport)) as E.
  { intros n Hn. set (l1 := rss_data saddr daddr sport dport). set (l2 := rss_data daddr saddr dport sport).
    assert (forall l, length l = 12%nat -> toeplitz_hash n symmetric_rsskey 12 l =
      foldr (fun i h => Z.lxor (byte_sum (i mod 2) (at_ l i)) h) 0 (seq 0 12)) as E.
    { intros l Hl. rewrite <- Hl at 1. rewrite toeplitz_hash_spec by (lia || apply symmetric_key_bytes).
      by apply toeplitz_symmetric_12. }
    rewrite !E by done. unfold l1, l2, rss_data. cbn [le_bytes app seq foldr at_ nth].
    change (0 mod 2)%nat with 0%nat. change (1 mod 2)%nat with 1%nat. change (2 mod 2)%nat with 0%nat.
    change (3 mod 2)%nat with 1%nat. change (4 mod 2)%nat with 0%nat. change (5 mod 2)%nat with 1%nat.
    change (6 mod 2)%nat with 0%nat. change (7 mod 2)%nat with 1%nat. change (8 mod 2)%nat with 0%nat.
    change (9 mod 2)%nat with 1%nat. change (10 mod 2)%nat with 0%nat. change (11 mod 2)%nat with 1%nat.
    generalize (byte_sum 0) (byte_sum 1). intros f g.
    apply Z.bits_inj'. intros t _. rewrite !Z.lxor_spec, Z.testbit_0_l. btauto. }
  unfold select_rsskey. destruct (hash_key_size =? 52); apply E; lia.
Qed.

(** C14. The hash the driver computes.  [toeplitz_hash] is the Toeplitz hash as it is
    defined: the sum of the windows of the key at the bits of the data that are set. *)
Theorem toeplitz_hash_correct keylen key data :
  (4 <= keylen)%nat -> (forall i, (i < 4)%nat -> 0 <= at_ key i < 256) ->
  toeplitz_hash keylen key (length data) data = toeplitz_spec keylen key data.
Proof. apply toeplitz_hash_spec. Qed.

(** C12. The queue of a connection.  For a table whose size is a power of two, the NIC
    finds for a packet a queue [q] in the table that [set_rss_table] has filled, and
    [lazybsd_rss_check] answers 1 in the process of the queue [q] and in no other: a
    connection belongs to exactly one process, the one that its packets come to. *)
Theorem rss_check_agrees group k g nb kl key saddr daddr sport dport :
  0 <= g -> group = 2 ^ g -> 0 <= k < 16 -> 1 < nb < 65536 ->
  let hash := toeplitz_hash kl key 12 (rss_data saddr daddr sport dport) in
  let index := Z.land hash (2 ^ k - 1) in
  exists table row q, set_rss_table group (2 ^ k) nb = Some table /\
    table !! Z.to_nat (index / group) = Some row /\ row !! Z.to_nat (index mod group) = Some q /\
    0 <= q < nb /\
    forall queueid, lazybsd_rss_check (RssConf nb (2 ^ k) queueid kl key) saddr daddr sport dport
      = b2z (q =? queueid).
Proof.
  intros Hg -> Hk Hnb hash index.
  assert (2 ^ k - 1 = Z.ones k) as Eo by (by rewrite Z.ones_equiv, Z.sub_1_r).
  assert (0 <= index < 2 ^ k) as Hi.
  { unfold index. rewrite Eo, Z.land_ones by lia. apply Z.mod_pos_bound. apply Z.pow_pos_nonneg; lia. }
  assert (2 ^ k < 2 ^ 16) as H16 by (apply Z.pow_lt_mono_r; lia). change (2 ^ 16) with 65536 in H16.
  assert (0 < 2 ^ g) as Hg0 by (apply Z.pow_pos_nonneg; lia).
  unfold set_rss_table. replace (2 ^ k =? 0) with false by lia.
  assert (0 <= index / 2 ^ g < Z.max 1 (2 ^ k / 2 ^ g)) as Hrow.
  { split; [apply Z.div_pos; lia|]. destruct (Z.leb_spec g k) as [Hle|Hgt].
    - rewrite Z.max_r.
      + apply Z.div_lt_upper_bound; [done|]. rewrite <- Z.pow_sub_r, <- Z.pow_add_r by lia.
        replace (g + (k - g)) with k by lia. lia.
      + rewrite <- Z.pow_sub_r by lia. assert (0 < 2 ^ (k - g)); [apply Z.pow_pos_nonneg; lia|lia].
    - assert (2 ^ k < 2 ^ g) by (apply Z.pow_lt_mono_r; lia). rewrite !Z.div_small by lia. lia. }
  pose proof (Z.mod_pos_bound index (2 ^ g) Hg0) as Hcol.
  eexists _, _, (u16 (u32 (index / 2 ^ g * 2 ^ g + index mod 2 ^ g) mod nb)). split; [done|].
  replace (index / 2 ^ g * 2 ^ g + index mod 2 ^ g) with index
    by (pose proof (Z.div_mod index (2 ^ g)); lia).
  rewrite !list_lookup_fmap. rewrite lookup_seqZ_lt by lia. cbn [fmap option_fmap option_map].
  split; [done|]. rewrite list_lookup_fmap, lookup_seqZ_lt by lia. cbn [fmap option_fmap option_map].
  rewrite !Z.add_0_l, !Z2Nat.id by lia.
  replace (index / 2 ^ g * 2 ^ g + index mod 2 ^ g) with index
    by (pose proof (Z.div_mod index (2 ^ g)); lia).
  split; [done|]. rewrite (u32_id index) by (unfold in_u32; lia).
  pose proof (Z.mod_pos_bound index nb ltac:(lia)) as Hq.
  assert (u16 (index mod nb) = index mod nb) as -> by (unfold uwrap; apply Z.mod_small; change (2 ^ 16) with 65536; lia).
  split; [done|]. intros queueid. unfold lazybsd_rss_check. cbn [nb_queues reta_size tx_queue_id rsskey_len rsskey].
  replace (nb <=? 1) with false by lia. change (length (rss_data saddr daddr sport dport)) with 12%nat.
  fold hash. rewrite (u32_id (2 ^ k - 1)) by (unfold in_u32; lia). fold index.
  by rewrite (u32_id (index mod nb)) by (unfold in_u32; lia).
Qed.

(** ** Examples *)

(** A published value: the hash of 66.9.149.187:2794 to 161.142.100.80:1766. *)
Example toeplitz_known :
  toeplitz_hash 40
    [0x6d; 0x5a; 0x56; 0xda; 0x25; 0x5b; 0x0e; 0xc2; 0x41; 0x67;
     0x25; 0x3d; 0x43; 0xa3; 0x8f; 0xb0; 0xd0; 0xca; 0x2b; 0xcb;
     0xae; 0x7b; 0x30; 0xb4; 0x77; 0xcb; 0x2d; 0xa3; 0x80; 0x30;
     0xf2; 0x0c; 0x6a; 0x42; 0xb7; 0x3b; 0xbe; 0xac; 0x01; 0xfa] 12
    [66; 9; 149; 187; 161; 142; 100; 80; 10; 234; 6; 230] = 0x51ccc178.
Proof. by vm_compute. Qed.

Lemma toeplitz_hash_correct_witness :
  toeplitz_hash 40 default_rsskey_40bytes 3 [1; 2; 3] =
    toeplitz_spec 40 default_rsskey_40bytes [1; 2; 3].
Proof.
  apply (toeplitz_hash_correct 40 default_rsskey_40bytes [1; 2; 3]); [lia|].
  intros i Hi. do 4 (destruct i as [|i]; [vm_compute; split; [discriminate|reflexivity]|]). lia.
Defined.

Lemma rss_check_agrees_witness :
  exists q, 0 <= q < 3 /\
    forall queueid, lazybsd_rss_check (RssConf 3 (2 ^ 7) queueid 40 default_rsskey_40bytes) 1 2 3 4
      = b2z (q =? queueid).
Proof.
  destruct (rss_check_agrees 64 7 6 3 40 default_rsskey_40bytes 1 2 3 4) as (table & row & q & _ & _ & _ & Hq & F);
    [lia|reflexivity|lia|lia|]. exists q. split; [exact Hq|exact F].
Defined.
