(* ===== verification/DpdkInit.v ===== *)
(** * DpdkInit: the set-up of a process and its ports ([src/lazybsd_dpdk.cc])

    Several processes share the ports of a machine.  Each runs on an lcore of its own and
    polls one queue of every port whose list of lcores names it ([init_lcore_conf]); the
    primary process makes the pools of packets ([init_mem_pool]), the rings
    ([init_dispatch_ring], [init_msg_ring]) and starts the ports with the offloads that the
    NIC and the configuration agree on ([init_port_start]).

    The library DPDK is the record [dpdk_env]: what it knows of lcores and ports, and its
    answers to requests, which are kept in a log.  [rte_exit], [rte_panic] and writes behind
    the end of an array are [Panic]. *)
From Stdlib Require Import ZifyBool.
From S2P Require Import Prelude Rss.

(** ** The configuration *)

(** [struct lazybsd_hw_features] *)
Record hw_features := HwFeatures { rx_csum : bool; rx_lro : bool; tx_csum_ip : bool; tx_csum_l4 : bool; tx_tso : bool }.

(** The fields of [struct lazybsd_port_cfg] that matter here; lists have the length that the
    count beside them has. *)
Record port_cfg := PortCfg { lcore_list : list Z; slave_portid_list : list Z }.
Definition nb_lcores (p : port_cfg) : Z := Z.of_nat (length (lcore_list p)).

Record global := Global {
  nb_procs : Z; numa_on : bool; tso : bool; tx_csum_offoad_skip : bool; vlan_strip : bool; symmetric_rss : bool;
  promiscuous : bool; proc_lcore : list Z; max_portid : Z; portid_list : list Z; port_cfgs : gmap Z port_cfg;
  pcap_enable : bool; kni_enable : bool; freebsd_hz : Z; idle_sleep_cfg : Z; pkt_tx_delay_cfg : Z }.

(** ** Which process polls which queue *)

Definition MAX_RX_QUEUE_PER_LCORE : nat := 16.
Definition RTE_MAX_ETHPORTS : nat := 32.

(** [struct lcore_conf]; the counts [nb_rx_queue] and [nb_tx_port] are the lengths of the
    lists. *)
Record lcore_conf := LcoreConf {
  lc_proc_id : Z; socket_id : Z; nb_queue_list : gmap Z Z;
  rx_queue_list : list (Z * Z); tx_port_id : list Z; tx_queue_id : gmap Z Z; pcap_files : nat }.

(** What DPDK knows. *)
Record dpdk_env := DpdkEnv {
  rte_eth_dev_count_avail : Z; rte_lcore_is_enabled : Z -> bool; rte_lcore_to_socket_id : Z -> Z }.

(** The last index [i] of [l] with [l[i] = lcore_id], from [i] on. *)
Fixpoint find_queue (lcore_id i : Z) (l : list Z) (queueid : Z) : Z :=
  match l with
  | [] => queueid
  | x :: l => find_queue lcore_id (i + 1) l (if x =? lcore_id then i else queueid)
  end.

(** A write to the next element of an array of [n]. *)
Definition push {A} (n : nat) (x : A) (l : list A) : outcome (list A) :=
  if (length l <? n)%nat then Ok (l ++ [x]) else Panic.

Section Lcore.
Context (e : dpdk_env) (g : global).

Definition port_of (port_id : Z) : port_cfg := default (PortCfg [] []) (port_cfgs g !! port_id).

Definition take_port (lcore_id port_id : Z) (c : lcore_conf) : outcome lcore_conf :=
  let pconf := port_of port_id in
  let queueid := find_queue lcore_id 0 (lcore_list pconf) (-1) in
  if queueid <? 0 then Ok c else
  rx ← push MAX_RX_QUEUE_PER_LCORE (port_id, u16 queueid) (rx_queue_list c);
  tx ← push RTE_MAX_ETHPORTS port_id (tx_port_id c);
  Ok (LcoreConf (lc_proc_id c) (socket_id c) (<[port_id := u16 (nb_lcores pconf)]> (nb_queue_list c)) rx tx
        (<[port_id := u16 queueid]> (tx_queue_id c)) (if pcap_enable g then S (pcap_files c) else pcap_files c)).

Fixpoint take_ports (lcore_id : Z) (ports : list Z) (c : lcore_conf) : outcome lcore_conf :=
  match ports with
  | [] => Ok c
  | port_id :: ports => c ← take_port lcore_id port_id c; take_ports lcore_id ports c
  end.

(** For the process [proc_id], which runs on the lcore [me]; [nb_dev_ports] is the global
    variable. *)
Definition init_lcore_conf (nb_dev_ports proc_id me : Z) : outcome (Z * lcore_conf) :=
  let nb_dev_ports := if nb_dev_ports =? 0 then rte_eth_dev_count_avail e else nb_dev_ports in
  if nb_dev_ports =? 0 then Panic else
  if nb_dev_ports <=? max_portid g then Panic else
  let socket_id := if numa_on g then u16 (rte_lcore_to_socket_id e me) else 0 in
  match proc_lcore g !! Z.to_nat proc_id with
  | None => Panic
  | Some lcore_id =>
      if negb (rte_lcore_is_enabled e lcore_id) then Panic else
      c ← take_ports lcore_id (portid_list g) (LcoreConf proc_id socket_id ∅ [] [] ∅ 0);
      if (length (rx_queue_list c) =? 0)%nat then Panic else Ok (nb_dev_ports, c)
  end.
End Lcore.

(** ** The pools of packets *)

Definition MEMPOOL_CACHE_SIZE : Z := 256.
Definition DISPATCH_RING_SIZE : Z := 2048.
Definition MSG_RING_SIZE : Z := 32.
Definition RX_QUEUE_SIZE : Z := 512.
Definition TX_QUEUE_SIZE : Z := 512.
Definition NB_SOCKETS : Z := 8.
Definition KNI_MBUF_MAX : Z := 2048.
Definition KNI_QUEUE_SIZE : Z := 2048.
Definition BURST : Z := 32.

(** [RTE_ALIGN_CEIL] for an [unsigned] and a power of two [2 ^ k]. *)
Definition align_ceil (v k : Z) : Z := Z.land (u32 (v + (2 ^ k - 1))) (u32 (Z.lnot (2 ^ k - 1))).

Section Pools.
Context (e : dpdk_env) (g : global) (with_kni : bool) (nb_rx_queues : Z).

Definition nb_ports : Z := u8 (Z.of_nat (length (portid_list g))).

(** [nb_mbuf] as it is first computed, and as the loop computes it for [lazybsd_init_ref_pool]. *)
Definition nb_mbuf : Z :=
  let nb_lcores := u32 (nb_procs g) in
  let nb_tx_queue := nb_lcores in
  let nb_rx_queue := u32 (nb_rx_queues * nb_lcores) in
  let p := max_portid g + 1 in
  align_ceil (u32 (nb_rx_queue * p * 2 * RX_QUEUE_SIZE + nb_ports * p * 2 * nb_lcores * BURST
    + nb_ports * p * 2 * nb_tx_queue * TX_QUEUE_SIZE + nb_lcores * MEMPOOL_CACHE_SIZE
    + (if with_kni then nb_ports * KNI_MBUF_MAX + nb_ports * KNI_QUEUE_SIZE else 0)
    + nb_lcores * nb_ports * DISPATCH_RING_SIZE)) 13.
Definition nb_refs : Z :=
  let nb_lcores := u32 (nb_procs g) in
  align_ceil (u32 (nb_ports * nb_lcores * BURST + nb_ports * nb_lcores * TX_QUEUE_SIZE + nb_lcores * MEMPOOL_CACHE_SIZE)) 12.

(** The pools by socket, with the number of elements asked for, and the sizes of the
    reference pools.  [has_pool] says whether DPDK has or can make the pool of a socket. *)
Context (primary : bool) (has_pool : Z -> bool).

Fixpoint init_pools (lcores : list Z) (n : Z) (pools : gmap Z Z) (refs : list (Z * Z)) : outcome (gmap Z Z * list (Z * Z)) :=
  match lcores with
  | [] => Ok (pools, refs)
  | lcore_id :: lcores =>
      let socketid := if numa_on g then rte_lcore_to_socket_id e lcore_id else 0 in
      if NB_SOCKETS <=? socketid then Panic else
      match pools !! socketid with
      | Some _ => init_pools lcores n pools refs
      | None =>
          if has_pool socketid then init_pools lcores nb_refs (<[socketid := if primary then n else 0]> pools) (refs ++ [(nb_refs, socketid)])
          else Panic
      end
  end.

Definition init_mem_pool : outcome (gmap Z Z * list (Z * Z)) :=
  init_pools (take (Z.to_nat (nb_procs g)) (proc_lcore g)) nb_mbuf ∅ [].
End Pools.

(** ** Requests to DPDK and the log of them *)

Inductive ring_name := DispatchRing (port queue : Z) | MsgRingIn (proc : Z) | MsgRingOut (proc type : Z).

(** The mode of a port: [rss_hf], the key, and the offloads for each direction. *)
Record eth_conf := EthConf { rss_hf : Z; rss_key : nat * list Z; rx_offloads : Z; tx_offloads : Z }.
Definition eth_conf0 : eth_conf := EthConf 0 (0%nat, []) 0 0.

Inductive request :=
| EalInit
| RingCreate (r : ring_name) (count : Z) | RingLookup (r : ring_name)
| MsgPoolCreate (n elt cache : Z) | MsgPoolLookup
| BondDedicatedQueues (port : Z) | DevInfoGet (port : Z) | MacaddrGet (port : Z)
| Configure (port queues : Z) (c : eth_conf) | AdjustDesc (port rxd txd : Z)
| TxQueueSetup (port queue n socket offloads : Z) | RxQueueSetup (port queue n socket offloads : Z)
| BondInfoGet (port : Z) | DevStart (port : Z) | RetaUpdate (port : Z) (t : list (list Z)) | PromiscuousEnable (port : Z)
| LinkGet (port : Z) | DelayMs (n : Z)
| TimerReset (tsc : Z).

(** What DPDK reports of a port. *)
Record dev_info := DevInfo {
  max_rx_queues : Z; max_tx_queues : Z; hash_key_size : Z; flow_type_rss_offloads : Z;
  tx_offload_capa : Z; rx_offload_capa : Z; dev_reta_size : Z; is_bond : bool }.

(** The offload bits of the headers of DPDK. *)
Class EthFlags := {
  RX_VLAN_STRIP : Z; RX_KEEP_CRC : Z; RX_IPV4_CKSUM : Z; RX_UDP_CKSUM : Z; RX_TCP_CKSUM : Z;
  TX_MBUF_FAST_FREE : Z; TX_IPV4_CKSUM : Z; TX_UDP_CKSUM : Z; TX_TCP_CKSUM : Z; TX_TCP_TSO : Z;
  RSS_PROTO_MASK : Z; RETA_GROUP_SIZE : Z }.
Definition RX_CHECKSUM `{EthFlags} : Z := Z.lor RX_IPV4_CKSUM (Z.lor RX_UDP_CKSUM RX_TCP_CKSUM).

(** The state of the set-up: the static variables [nb_rxd], [nb_txd], [rsskey] and
    [rss_reta_size], the features of the ports, and the log. *)
Record setup := Setup {
  nb_rxd : Z; nb_txd : Z; rsskey_ : nat * list Z; rss_reta_size : gmap Z Z; features_of : gmap Z hw_features;
  asked : list request }.
Definition set_log (l : list request) (s : setup) : setup :=
  Setup (nb_rxd s) (nb_txd s) (rsskey_ s) (rss_reta_size s) (features_of s) l.
Definition set_desc (rx tx : Z) (s : setup) : setup := Setup rx tx (rsskey_ s) (rss_reta_size s) (features_of s) (asked s).
Definition set_key (k : nat * list Z) (s : setup) : setup := Setup (nb_rxd s) (nb_txd s) k (rss_reta_size s) (features_of s) (asked s).
Definition set_reta (m : gmap Z Z) (s : setup) : setup := Setup (nb_rxd s) (nb_txd s) (rsskey_ s) m (features_of s) (asked s).
Definition set_features (m : gmap Z hw_features) (s : setup) : setup := Setup (nb_rxd s) (nb_txd s) (rsskey_ s) (rss_reta_size s) m (asked s).

(** A step gives a value, returns from the function with an error, or ends the process. *)
Inductive out (A : Type) := Val (a : A) | Return (r : Z) | Exit.
Arguments Val {A} _.
Arguments Return {A} _.
Arguments Exit {A}.
Definition P (A : Type) : Type := setup -> out A * setup.
#[export] Instance P_ret : MRet P := fun A a s => (Val a, s).
#[export] Instance P_bind : MBind P := fun A B f m s =>
  match m s with (Val a, s) => f a s | (Return r, s) => (Return r, s) | (Exit, s) => (Exit, s) end.
Definition leave {A} (r : Z) : P A := fun s => (Return r, s).
Definition rte_exit {A} : P A := fun s => (Exit, s).
Definition gets {A} (f : setup -> A) : P A := fun s => (Val (f s), s).
Definition puts (f : setup -> setup) : P unit := fun s => (Val (), f s).
Definition of_option {A} (o : option A) : P A := fun s => (match o with Some a => Val a | None => Exit end, s).
Fixpoint for_each {A} (l : list A) (f : A -> P unit) : P unit :=
  match l with [] => mret () | x :: l => _ ← f x; for_each l f end.

Section Dpdk.
Context `{EthFlags} (answer : list request -> request -> Z) (info_of : Z -> dev_info) (adjusted : Z -> Z -> Z * Z).
Context (e : dpdk_env) (g : global) (primary : bool).

Definition ask (r : request) : P Z := fun s => (Val (answer (asked s) r), set_log (asked s ++ [r]) s).

(** *** Rings *)

Definition create_ring (r : ring_name) (count : Z) : P Z :=
  p ← (if primary then ask (RingCreate r count) else ask (RingLookup r));
  if p =? 0 then rte_exit else mret p.

Definition init_dispatch_ring : P unit :=
  for_each (portid_list g) (fun portid =>
    for_each (seqZ 0 (nb_lcores (port_of g portid))) (fun queueid =>
      _ ← create_ring (DispatchRing portid queueid) DISPATCH_RING_SIZE; mret ())).

Definition MAX_MSG_BUF_SIZE : Z := 10240.
Definition LAZYBSD_MSG_NUM : Z := 10.
Definition init_msg_ring : P unit :=
  pool ← (if primary then ask (MsgPoolCreate (u32 (MSG_RING_SIZE * 2 * u16 (nb_procs g))) MAX_MSG_BUF_SIZE (MSG_RING_SIZE / 2)) else ask MsgPoolLookup);
  if pool =? 0 then rte_exit else
  for_each (seqZ 0 (u16 (nb_procs g))) (fun i =>
    _ ← create_ring (MsgRingIn i) MSG_RING_SIZE;
    for_each (seqZ 1 (LAZYBSD_MSG_NUM - 1)) (fun j => _ ← create_ring (MsgRingOut i j) MSG_RING_SIZE; mret ())).

(** *** The mode of a port *)

Definition has (capa bit : Z) : bool := negb (Z.land capa bit =? 0).
Definition update_rsskey (k : nat * list Z) (key_size : Z) : nat * list Z :=
  let k := if key_size =? 52 then (52%nat, default_rsskey_52bytes) else k in
  if symmetric_rss g then (k.1, symmetric_rsskey) else k.

Definition negotiate_tx (i : dev_info) (f : hw_features) : Z * hw_features :=
  let o := if has (tx_offload_capa i) TX_MBUF_FAST_FREE then TX_MBUF_FAST_FREE else 0 in
  let '(o, f) :=
    if tx_csum_offoad_skip g then (o, f) else
    let '(o, f) := if has (tx_offload_capa i) TX_IPV4_CKSUM
      then (Z.lor o TX_IPV4_CKSUM, HwFeatures (rx_csum f) (rx_lro f) true (tx_csum_l4 f) (tx_tso f)) else (o, f) in
    if has (tx_offload_capa i) TX_UDP_CKSUM && has (tx_offload_capa i) TX_TCP_CKSUM
      then (Z.lor o (Z.lor TX_UDP_CKSUM TX_TCP_CKSUM), HwFeatures (rx_csum f) (rx_lro f) (tx_csum_ip f) true (tx_tso f)) else (o, f) in
  if tso g && has (tx_offload_capa i) TX_TCP_TSO
    then (Z.lor o TX_TCP_TSO, HwFeatures (rx_csum f) (rx_lro f) (tx_csum_ip f) (tx_csum_l4 f) true) else (o, f).

Definition negotiate_rx (i : dev_info) (f : hw_features) : Z * hw_features :=
  let o := if vlan_strip g && has (rx_offload_capa i) RX_VLAN_STRIP then RX_VLAN_STRIP else 0 in
  let o := Z.land o (u64 (Z.lnot RX_KEEP_CRC)) in
  if has (rx_offload_capa i) RX_IPV4_CKSUM && has (rx_offload_capa i) RX_UDP_CKSUM && has (rx_offload_capa i) RX_TCP_CKSUM
    then (Z.lor o RX_CHECKSUM, HwFeatures true (rx_lro f) (tx_csum_ip f) (tx_csum_l4 f) (tx_tso f)) else (o, f).

(** The part of the loop under [if (pconf)], for the port [port_id] of the port [u_port_id]. *)
Definition configure_mode (u_port_id port_id : Z) (i : dev_info) : P eth_conf :=
  k ← gets (fun s => update_rsskey (rsskey_ s) (hash_key_size i));
  _ ← puts (set_key k);
  f ← gets (fun s => default (HwFeatures false false false false false) (features_of s !! u_port_id));
  let '(rx, f) := negotiate_rx i f in
  let '(tx, f) := negotiate_tx i f in
  _ ← puts (fun s => set_features (<[u_port_id := f]> (features_of s)) s);
  _ ← (if dev_reta_size i =? 0 then mret ()
       else if negb (Z.land (dev_reta_size i) (dev_reta_size i - 1) =? 0) then rte_exit
       else puts (fun s => set_reta (<[port_id := dev_reta_size i]> (rss_reta_size s)) s));
  mret (EthConf (Z.land RSS_PROTO_MASK (flow_type_rss_offloads i)) k rx tx).

(** *** Starting ports *)

Definition setup_queue (u_port_id port_id : Z) (c : eth_conf) (socketid q : Z) : P Z :=
  socketid ← (if numa_on g then
                lcores ← of_option (lcore_list <$> port_cfgs g !! u_port_id);
                lcore_id ← of_option (lcores !! Z.to_nat q);
                mret (rte_lcore_to_socket_id e lcore_id)
              else mret socketid);
  txd ← gets nb_txd;
  r ← ask (TxQueueSetup port_id q txd socketid (tx_offloads c));
  if r <? 0 then leave r else
  rxd ← gets nb_rxd;
  r ← ask (RxQueueSetup port_id q rxd socketid (rx_offloads c));
  if r <? 0 then leave r else mret socketid.

Fixpoint setup_queues (u_port_id port_id : Z) (c : eth_conf) (socketid : Z) (queues : list Z) : P Z :=
  match queues with
  | [] => mret socketid
  | q :: queues => socketid ← setup_queue u_port_id port_id c socketid q; setup_queues u_port_id port_id c socketid queues
  end.

(** The body of the inner loop; [is_dev] says that [pconf] is not NULL.  The value is
    [socketid], which lives on. *)
Definition start_port (is_dev : bool) (u_port_id nb_queues socketid port_id : Z) : P Z :=
  ret ← ask (DevInfoGet port_id);
  if negb (ret =? 0) then rte_exit else
  let i := info_of port_id in
  if max_rx_queues i <? nb_queues then rte_exit else
  if max_tx_queues i <? nb_queues then rte_exit else
  _ ← ask (MacaddrGet port_id);
  c ← (if is_dev then configure_mode u_port_id port_id i else mret eth_conf0);
  if negb primary then mret socketid else
  ret ← ask (Configure port_id nb_queues c);
  if negb (ret =? 0) then leave ret else
  rxd ← gets nb_rxd;
  txd ← gets nb_txd;
  _ ← ask (AdjustDesc port_id rxd txd);
  let '(rxd, txd) := adjusted rxd txd in
  _ ← puts (set_desc rxd txd);
  socketid ← setup_queues u_port_id port_id c socketid (seqZ 0 nb_queues);
  _ ← (if is_bond i then if is_dev then _ ← ask (MacaddrGet port_id); _ ← ask (BondInfoGet port_id); mret () else rte_exit else mret ());
  ret ← ask (DevStart port_id);
  if ret <? 0 then leave ret else
  _ ← (if 1 <? nb_queues then
         match set_rss_table RETA_GROUP_SIZE (dev_reta_size i) nb_queues with
         | None => mret ()
         | Some t => ret ← ask (RetaUpdate port_id t); if negb (ret =? 0) then rte_exit else mret ()
         end
       else mret ());
  _ ← (if promiscuous g then _ ← ask (PromiscuousEnable port_id); mret () else mret ());
  mret socketid.

Fixpoint start_ports (is_dev : bool) (u_port_id nb_queues socketid : Z) (ports : list Z) : P Z :=
  match ports with
  | [] => mret socketid
  | p :: ports => socketid ← start_port is_dev u_port_id nb_queues socketid p; start_ports is_dev u_port_id nb_queues socketid ports
  end.

(** The outer loop: the configured ports with their slaves, then a port of [virtio_user] for
    each of them, from [nb_dev_ports] on. *)
Fixpoint start_dev_ports (ports : list Z) (socketid : Z) : P Z :=
  match ports with
  | [] => mret socketid
  | p :: ports =>
      let pconf := port_of g p in
      _ ← (if (0 <? length (slave_portid_list pconf))%nat then _ ← ask (BondDedicatedQueues p); mret () else mret ());
      socketid ← start_ports true p (u16 (nb_lcores pconf)) socketid (slave_portid_list pconf ++ [p]);
      start_dev_ports ports socketid
  end.
Fixpoint start_virtio_ports (ports : list Z) (socketid : Z) : P Z :=
  match ports with
  | [] => mret socketid
  | p :: ports => socketid ← start_ports false p 1 socketid [p]; start_virtio_ports ports socketid
  end.

(** *** Waiting for the links *)

(** The ports in turn; the value is [all_ports_up]. *)
Fixpoint look_at_links (print_flag : bool) (ports : list Z) : P bool :=
  match ports with
  | [] => mret true
  | p :: ports =>
      up ← ask (LinkGet p);
      if print_flag then look_at_links print_flag ports
      else if up =? 0 then mret false else look_at_links print_flag ports
  end.

Definition CHECK_INTERVAL : Z := 100.
Definition MAX_CHECK_TIME : Z := 90.
(** [n] is what is left of the loop up to [MAX_CHECK_TIME]. *)
Fixpoint check_links (n : nat) (count : Z) (print_flag : bool) : P unit :=
  match n with
  | O => mret ()
  | S n =>
      all_ports_up ← look_at_links print_flag (portid_list g);
      if print_flag then mret () else
      _ ← (if negb all_ports_up then _ ← ask (DelayMs CHECK_INTERVAL); mret () else mret ());
      check_links n (count + 1) (all_ports_up || (count =? MAX_CHECK_TIME - 1))
  end.
Definition check_all_ports_link_status : P unit := check_links (S (Z.to_nat MAX_CHECK_TIME)) 0 false.

Definition init_port_start (nb_dev_ports : Z) : P Z :=
  socketid ← start_dev_ports (portid_list g) 0;
  let n := Z.of_nat (length (portid_list g)) in
  _ ← (if kni_enable g && primary then start_virtio_ports (seqZ nb_dev_ports n) socketid else mret socketid);
  _ ← (if primary then check_all_ports_link_status else mret ());
  mret 0.

(** *** The clock, and everything in order *)

Definition timer_period (hz_tsc hz : Z) : Z := u64 (u64 (hz_tsc + 1000000 - 1) / 1000000 * (1000000 / hz)).
Definition init_clock (hz_tsc : Z) : P unit :=
  if freebsd_hz g =? 0 then rte_exit else _ ← ask (TimerReset (timer_period hz_tsc (freebsd_hz g))); mret ().

Definition BURST_TX_DRAIN_US : Z := 100.

(** A function whose result is not looked at. *)
Definition ignore {A} (m : outcome A) : P A := fun s => (match m with Ok a => Val a | _ => Exit end, s).

(** The result of the set-up; [init_kni] and [lazybsd_mmap_init] are those of Kni.v and
    Pages.v. *)
Record process := Process { p_conf : lcore_conf; p_idle_sleep : Z; p_pkt_tx_delay : Z; p_pools : gmap Z Z }.

Definition lazybsd_dpdk_init (RTE_MAX_LCORE proc_id me hz_tsc : Z) (has_pool : Z -> bool) (init_kni lazybsd_mmap_init : P unit) : P process :=
  if (nb_procs g <? 1) || (RTE_MAX_LCORE <? nb_procs g) || (nb_procs g <=? proc_id) || (proc_id <? 0) then rte_exit else
  ret ← ask EalInit;
  if ret <? 0 then rte_exit else
  let delay := if BURST_TX_DRAIN_US <? pkt_tx_delay_cfg g then BURST_TX_DRAIN_US else pkt_tx_delay_cfg g in
  '(nb_dev_ports, c) ← ignore (init_lcore_conf e g 0 proc_id me);
  '(pools, _) ← ignore (init_mem_pool e g true (Z.of_nat (length (rx_queue_list c))) primary has_pool);
  _ ← init_dispatch_ring;
  _ ← init_msg_ring;
  _ ← (if kni_enable g then init_kni else mret ());
  _ ← lazybsd_mmap_init;
  _ ← (fun s => match init_port_start nb_dev_ports s with
        | (Val _, s) => (Val (), s)
        | (Return r, s) => (if r <? 0 then Exit else Val (), s)
        | (Exit, s) => (Exit, s)
        end);
  _ ← init_clock hz_tsc;
  mret (Process c (idle_sleep_cfg g) delay pools).
End Dpdk.

(** ** Every queue has one process *)

Lemma find_queue_absent x i l q0 : x ∉ l -> find_queue x i l q0 = q0.
Proof.
  revert i q0. induction l as [|y l IH]; intros i q0 Hx; cbn; [done|].
  rewrite (proj2 (Z.eqb_neq y x)) by set_solver. apply IH. set_solver.
Qed.
Lemma find_queue_at x i l q0 j : NoDup l -> l !! j = Some x -> find_queue x i l q0 = i + Z.of_nat j.
Proof.
  revert i q0 j. induction l as [|y l IH]; intros i q0 j; [done|]. intros [Hy Hnd]%NoDup_cons.
  destruct j as [|j]; cbn.
  - intros [= ->]. rewrite Z.eqb_refl, find_queue_absent by done. lia.
  - intros Hj. rewrite (IH (i + 1) _ j) by done. lia.
Qed.

(** The entry of the port [p] for the lcore [x], if it has one. *)
Definition entry (g : global) (x p : Z) : option (Z * Z) :=
  let q := find_queue x 0 (lcore_list (port_of g p)) (-1) in
  if q <? 0 then None else Some (p, u16 q).

Lemma take_ports_spec g x ports : forall c c', take_ports g x ports c = Ok c' ->
  rx_queue_list c' = rx_queue_list c ++ omap (entry g x) ports /\
  tx_port_id c' = tx_port_id c ++ (omap (entry g x) ports).*1 /\
  (forall p, p ∉ ports -> tx_queue_id c' !! p = tx_queue_id c !! p /\ nb_queue_list c' !! p = nb_queue_list c !! p) /\
  (forall p q, p ∈ ports -> entry g x p = Some (p, q) ->
    tx_queue_id c' !! p = Some q /\ nb_queue_list c' !! p = Some (u16 (nb_lcores (port_of g p)))).
Proof.
  induction ports as [|p ports IH]; intros c c'; cbn [take_ports].
  { intros [= <-]. cbn. rewrite !app_nil_r. split_and!; try done. intros p q Hp. by apply not_elem_of_nil in Hp. }
  unfold take_port. cbn [omap list_omap].
  assert (entry g x p = let q := find_queue x 0 (lcore_list (port_of g p)) (-1) in if q <? 0 then None else Some (p, u16 q)) as E by done.
  cbn zeta in E. set (queueid := find_queue x 0 (lcore_list (port_of g p)) (-1)) in *. clearbody queueid. destruct (queueid <? 0).
  - cbn [mbind outcome_bind]. intros (I1 & I2 & I3 & I4)%IH. rewrite E. split_and!; try done.
    + intros p' Hp'. apply I3. set_solver.
    + intros p' q' [->|Hp']%elem_of_cons Hq'; [by rewrite E in Hq'|by apply I4].
  - unfold push. destruct (length (rx_queue_list c) <? MAX_RX_QUEUE_PER_LCORE)%nat; [|done].
    cbn [mbind outcome_bind]. destruct (length (tx_port_id c) <? RTE_MAX_ETHPORTS)%nat; [|done].
    cbn [mbind outcome_bind]. intros (I1 & I2 & I3 & I4)%IH. rewrite E. cbn [rx_queue_list tx_port_id tx_queue_id nb_queue_list] in *.
    split_and!; [by rewrite I1, <- app_assoc|by rewrite I2, <- app_assoc| |].
    + intros p' Hp'. destruct (I3 p') as [-> ->]; [set_solver|]. by rewrite !lookup_insert_ne by set_solver.
    + intros p' q' Hp' Hq'. destruct (decide (p' ∈ ports)) as [Hin|Hin]; [by apply I4|].
      apply elem_of_cons in Hp' as [->|Hp']; [|done]. destruct (I3 p Hin) as [-> ->].
      rewrite E in Hq'. injection Hq' as <-. by rewrite !lookup_insert_eq.
Qed.

(** What the configuration of a process is. *)
Lemma init_lcore_conf_spec e g n0 k me nd c : init_lcore_conf e g n0 k me = Ok (nd, c) -> exists x,
  proc_lcore g !! Z.to_nat k = Some x /\ rx_queue_list c = omap (entry g x) (portid_list g) /\
  forall p q, p ∈ portid_list g -> entry g x p = Some (p, q) ->
    tx_queue_id c !! p = Some q /\ nb_queue_list c !! p = Some (u16 (nb_lcores (port_of g p))).
Proof.
  unfold init_lcore_conf. set (nd' := if n0 =? 0 then _ else _). destruct (nd' =? 0); [done|]. destruct (nd' <=? max_portid g); [done|].
  destruct (proc_lcore g !! Z.to_nat k) as [x|]; [|done]. destruct (negb (rte_lcore_is_enabled e x)); [done|].
  destruct (take_ports g x (portid_list g) _) as [c1| |] eqn:E; try done. cbn [mbind outcome_bind].
  destruct (length (rx_queue_list c1) =? 0)%nat; [done|]. intros [= _ <-]. exists x. split; [done|].
  apply take_ports_spec in E as (E1 & _ & _ & E4). done.
Qed.

Lemma entry_Some g x p q : NoDup (lcore_list (port_of g p)) -> nb_lcores (port_of g p) < 65536 ->
  entry g x p = Some (p, q) <-> 0 <= q /\ lcore_list (port_of g p) !! Z.to_nat q = Some x.
Proof.
  intros Hnd Hn. unfold entry. destruct (decide (x ∈ lcore_list (port_of g p))) as [Hin|Hin].
  - apply list_elem_of_lookup in Hin as [j Hj]. rewrite (find_queue_at x 0 _ _ j) by done. rewrite Z.add_0_l.
    apply lookup_lt_Some in Hj as Hlt. unfold nb_lcores in Hn.
    rewrite (proj2 (Z.ltb_ge _ 0)) by lia. unfold uwrap. rewrite Z.mod_small by lia. split.
    + intros [= <-]. split; [lia|]. by rewrite Nat2Z.id.
    + intros [H0 Hq]. do 2 f_equal. pose proof (NoDup_lookup _ _ _ _ Hnd Hj Hq). lia.
  - rewrite find_queue_absent by done. split; [done|]. intros [_ Hq]. destruct Hin. by eapply list_elem_of_lookup_2.
Qed.

(** C21. Every queue of a port is polled by exactly one process.  Let every process of a
    configuration be set up, on lcores of their own.  For a port whose list names lcores of
    processes, each once: each of its queues is in the list of one process and of no other;
    a process that polls a queue of the port sends through the queue of the same number, and
    knows the number of queues. *)
Theorem every_queue_has_one_process e g n0 nd (me : Z -> Z) (conf : Z -> lcore_conf) p :
  NoDup (proc_lcore g) -> Z.of_nat (length (proc_lcore g)) = nb_procs g ->
  (forall k, 0 <= k < nb_procs g -> init_lcore_conf e g n0 k (me k) = Ok (nd, conf k)) ->
  p ∈ portid_list g -> NoDup (lcore_list (port_of g p)) -> lcore_list (port_of g p) ⊆ proc_lcore g ->
  nb_lcores (port_of g p) < 65536 ->
  (forall q, 0 <= q < nb_lcores (port_of g p) -> exists k, 0 <= k < nb_procs g /\
    (p, q) ∈ rx_queue_list (conf k) /\ forall k', 0 <= k' < nb_procs g -> (p, q) ∈ rx_queue_list (conf k') -> k' = k) /\
  (forall k q, 0 <= k < nb_procs g -> (p, q) ∈ rx_queue_list (conf k) ->
    0 <= q < nb_lcores (port_of g p) /\ tx_queue_id (conf k) !! p = Some q /\
    nb_queue_list (conf k) !! p = Some (nb_lcores (port_of g p))).
Proof.
  intros Hprocs Hlen Hrun Hp Hnd Hsub Hn.
  assert (forall k q, 0 <= k < nb_procs g -> (p, q) ∈ rx_queue_list (conf k) <->
    exists x, proc_lcore g !! Z.to_nat k = Some x /\ entry g x p = Some (p, q)) as Hin.
  { intros k q Hk. destruct (init_lcore_conf_spec _ _ _ _ _ _ _ (Hrun k Hk)) as (x & Hx & -> & _). rewrite list_elem_of_omap. split.
    - intros (p' & Hp' & E). exists x. split; [done|]. assert (p' = p) as ->; [|done].
      unfold entry in E. destruct (_ <? 0); [done|]. by injection E.
    - intros (x' & Hx' & E). rewrite Hx in Hx'. injection Hx' as ->. by exists p. }
  split.
  - intros q Hq. unfold nb_lcores in Hq. destruct (lookup_lt_is_Some_2 (lcore_list (port_of g p)) (Z.to_nat q)) as [x Hx]; [lia|].
    assert (x ∈ proc_lcore g) as [k Hk]%list_elem_of_lookup by (apply Hsub; by eapply list_elem_of_lookup_2).
    apply lookup_lt_Some in Hk as Hlt. exists (Z.of_nat k). assert (0 <= Z.of_nat k < nb_procs g) as Hkb by lia. split; [done|]. split.
    + apply Hin; [done|]. exists x. rewrite Nat2Z.id. split; [done|]. apply entry_Some; [done|done|]. split; [lia|done].
    + intros k' Hk' Hq'. apply Hin in Hq' as (x' & Hx' & [_ E]%entry_Some); [|done..].
      rewrite Hx in E. injection E as <-. pose proof (NoDup_lookup _ _ _ _ Hprocs Hk Hx'). lia.
  - intros k q Hk Hq. apply Hin in Hq as (x & Hx & E); [|done].
    destruct (init_lcore_conf_spec _ _ _ _ _ _ _ (Hrun k Hk)) as (x' & Hx' & _ & T). rewrite Hx in Hx'. injection Hx' as <-.
    destruct (T p q Hp E) as [T1 T2]. apply entry_Some in E as [H0 E]; [|done..]. apply lookup_lt_Some in E.
    split; [unfold nb_lcores; lia|]. split; [done|]. rewrite T2. unfold uwrap. rewrite Z.mod_small; [done|]. unfold nb_lcores in *. lia.
Qed.

(** ** The second pool is small *)

(** Once a pool was made, the others are made with the size of the reference pools. *)
Lemma init_pools_later e g has_pool lcores pools refs pools' refs' :
  init_pools e g true has_pool lcores (nb_refs g) pools refs = Ok (pools', refs') ->
  forall s, pools' !! s = pools !! s \/ pools !! s = None /\ pools' !! s = Some (nb_refs g).
Proof.
  revert pools refs. induction lcores as [|x lcores IH]; intros pools refs; cbn [init_pools].
  { intros [= <- _] s. by left. }
  set (sk := if numa_on g then _ else _). destruct (NB_SOCKETS <=? sk); [done|].
  destruct (pools !! sk) as [w|] eqn:E; [apply IH|]. destruct (has_pool sk); [|done]. intros Hi s.
  destruct (decide (s = sk)) as [->|Hne].
  - right. split; [done|]. destruct (IH _ _ Hi sk) as [->|[Hn _]]; rewrite ?lookup_insert_eq in *; done.
  - destruct (IH _ _ Hi s) as [->|[Hn ->]]; rewrite lookup_insert_ne in * by done; [by left|by right].
Qed.

(** Only the first pool of packets has its size.  On a machine with several sockets
    the loop over the processes overwrites [nb_mbuf] when it makes the first pool, so the
    pool of every other socket is made with the number of elements of the pool of
    references, whatever the number of queues asks for. *)
Theorem first_pool_only e g with_kni nb_rx has_pool x lcores pools refs :
  take (Z.to_nat (nb_procs g)) (proc_lcore g) = x :: lcores ->
  init_mem_pool e g with_kni nb_rx true has_pool = Ok (pools, refs) ->
  let first := if numa_on g then rte_lcore_to_socket_id e x else 0 in
  pools !! first = Some (nb_mbuf g with_kni nb_rx) /\
  forall s v, s <> first -> pools !! s = Some v -> v = nb_refs g.
Proof.
  intros Hl. unfold init_mem_pool. rewrite Hl. cbn [init_pools]. set (first := if numa_on g then _ else _).
  destruct (NB_SOCKETS <=? first); [done|]. rewrite lookup_empty. destruct (has_pool first); [|done].
  intros Hi. pose proof (init_pools_later _ _ _ _ _ _ _ _ Hi) as Hv. cbn zeta. split.
  - destruct (Hv first) as [->|[Hn _]]; [by rewrite lookup_insert_eq|by rewrite lookup_insert_eq in Hn].
  - intros s v Hs Hsv. destruct (Hv s) as [E|[_ E]]; rewrite Hsv in E; [|by injection E].
    by rewrite lookup_insert_ne in E by (by apply not_eq_sym).
Qed.

(** ** Offloads *)
Section Offloads.
Context `{EthFlags} (g : global).

(** Every bit of [a] is one of [b]. *)
Definition subset (a b : Z) : Prop := forall n, Z.testbit a n = true -> Z.testbit b n = true.
Definition single (x : Z) : Prop := exists n, 0 <= n /\ x = 2 ^ n.

Lemma subset_0 b : subset 0 b.
Proof. intros n. by rewrite Z.testbit_0_l. Qed.
Lemma subset_lor a b c : subset a c -> subset b c -> subset (Z.lor a b) c.
Proof. intros Ha Hb n. rewrite Z.lor_spec. intros [?|?]%orb_true_iff; auto. Qed.
Lemma subset_land a b c : subset a c -> subset (Z.land a b) c.
Proof. intros Ha n. rewrite Z.land_spec. intros [? _]%andb_true_iff. auto. Qed.
Lemma has_subset capa x : single x -> has capa x = true -> subset x capa.
Proof.
  intros (n & Hn & ->) Hh m Hm. rewrite Z.pow2_bits_eqb in Hm by done. apply Z.eqb_eq in Hm as <-.
  unfold has in Hh. apply negb_true_iff, Z.eqb_neq in Hh. destruct (Z.testbit capa n) eqn:E; [done|]. destruct Hh.
  apply Z.bits_inj'. intros k Hk. rewrite Z.land_spec, Z.pow2_bits_eqb, Z.testbit_0_l by done.
  destruct (Z.eqb_spec n k) as [->|]; [by rewrite E|by rewrite andb_false_r].
Qed.

(** The headers of DPDK: the flags of offloads are single bits. *)
Context (doc_bits : Forall single [RX_VLAN_STRIP; RX_IPV4_CKSUM; RX_UDP_CKSUM; RX_TCP_CKSUM;
  TX_MBUF_FAST_FREE; TX_IPV4_CKSUM; TX_UDP_CKSUM; TX_TCP_CKSUM; TX_TCP_TSO]).

Ltac offload := 
  match goal with
  | |- subset 0 _ => apply subset_0
  | |- subset (Z.lor _ _) _ => apply subset_lor
  | |- subset (Z.land _ _) _ => apply subset_land
  | |- subset RX_CHECKSUM _ => unfold RX_CHECKSUM
  | Hh : has _ ?x = true |- subset ?x _ => apply has_subset; [|exact Hh]
  end.

Lemma negotiate_rx_subset i f : subset (negotiate_rx g i f).1 (rx_offload_capa i).
Proof.
  rewrite !Forall_cons in doc_bits. destruct doc_bits as (V & I4 & U & T & _). unfold negotiate_rx.
  destruct (vlan_strip g && has (rx_offload_capa i) RX_VLAN_STRIP) eqn:Ev;
  destruct (has _ RX_IPV4_CKSUM && _ && _) eqn:Ec; cbn [fst];
    rewrite ?andb_true_iff in *; destruct_and?; repeat offload; done.
Qed.
Lemma negotiate_tx_subset i f : subset (negotiate_tx g i f).1 (tx_offload_capa i).
Proof.
  rewrite !Forall_cons in doc_bits. destruct doc_bits as (_ & _ & _ & _ & F & I4 & U & T & S & _). unfold negotiate_tx.
  set (c := tx_offload_capa i). destruct (has c TX_MBUF_FAST_FREE) eqn:Ef, (tx_csum_offoad_skip g), (has c TX_IPV4_CKSUM) eqn:E4,
    (has c TX_UDP_CKSUM && has c TX_TCP_CKSUM) eqn:El, (tso g && has c TX_TCP_TSO) eqn:Et; cbn [fst];
    rewrite ?andb_true_iff in *; destruct_and?; repeat offload; done.
Qed.

(** The NIC is never asked for an offload it lacks, and the features that the stack sees
    are those that were turned on: with the features a port has before any, [negotiate_rx]
    and [negotiate_tx] give offloads among the capabilities of the NIC, checksums of received
    packets are trusted only if the NIC checks all three, the checksum and segmentation
    features are set only with their bits, and nothing is set that the configuration turned
    off. *)
Theorem offloads_supported i f1 f2 rx tx :
  negotiate_rx g i (HwFeatures false false false false false) = (rx, f1) -> negotiate_tx g i f1 = (tx, f2) ->
  subset rx (rx_offload_capa i) /\ subset tx (tx_offload_capa i) /\
  (DpdkInit.rx_csum f2 = true <-> has (rx_offload_capa i) RX_IPV4_CKSUM = true /\ has (rx_offload_capa i) RX_UDP_CKSUM = true /\
     has (rx_offload_capa i) RX_TCP_CKSUM = true) /\ (DpdkInit.rx_csum f2 = true -> subset RX_CHECKSUM rx) /\
  (tx_csum_ip f2 = true -> tx_csum_offoad_skip g = false /\ subset TX_IPV4_CKSUM tx) /\
  (tx_csum_l4 f2 = true -> tx_csum_offoad_skip g = false /\ subset (Z.lor TX_UDP_CKSUM TX_TCP_CKSUM) tx) /\
  (tx_tso f2 = true -> tso g = true /\ subset TX_TCP_TSO tx) /\ rx_lro f2 = false.
Proof.
  intros E1 E2. pose proof (negotiate_rx_subset i (HwFeatures false false false false false)) as S1.
  pose proof (negotiate_tx_subset i f1) as S2. rewrite E1 in S1. rewrite E2 in S2. cbn [fst] in S1, S2. do 2 (split; [done|]).
  clear S1 S2 doc_bits. revert E1 E2. unfold negotiate_rx, negotiate_tx.
  assert (forall a b, subset a (Z.lor b a)) as Hr by (intros a b n Hn; rewrite Z.lor_spec, Hn; apply orb_true_r).
  assert (forall a b c, subset a b -> subset a (Z.lor b c)) as Hl by (intros a b c Hs n Hn; rewrite Z.lor_spec, (Hs n Hn); done).
  destruct (has (rx_offload_capa i) RX_IPV4_CKSUM), (has (rx_offload_capa i) RX_UDP_CKSUM), (has (rx_offload_capa i) RX_TCP_CKSUM);
    cbn [andb]; intros [= <- <-]; cbn [DpdkInit.rx_csum rx_lro].
  all: destruct (tx_csum_offoad_skip g), (has (tx_offload_capa i) TX_IPV4_CKSUM),
      (has (tx_offload_capa i) TX_UDP_CKSUM && has (tx_offload_capa i) TX_TCP_CKSUM), (tso g), (has (tx_offload_capa i) TX_TCP_TSO);
    cbn [andb]; intros [= <- <-]; cbn [DpdkInit.rx_csum rx_lro tx_csum_ip tx_csum_l4 tx_tso].
  all: split_and!; try done; try naive_solver; intros _; try (split; [done|]); auto.
Qed.
End Offloads.

(** ** A port is started when its queues are ready *)
Section Order.
Context `{EthFlags} (answer : list request -> request -> Z) (info_of : Z -> dev_info) (adjusted : Z -> Z -> Z * Z).
Context (e : dpdk_env) (g : global) (primary : bool).
Notation ask := (ask answer).

(** Behind [l0] the log [l] has the request [r], and DPDK did not refuse it. *)
Definition accepted (r : request) (l0 l : list request) : Prop :=
  exists pre suf, l = l0 ++ pre ++ r :: suf /\ 0 <= answer (l0 ++ pre) r.
(** The queue [q] of the port [p] is set up in both directions. *)
Definition queue_ready (p q : Z) (l0 l : list request) : Prop :=
  (exists n so o, accepted (TxQueueSetup p q n so o) l0 l) /\ exists n so o, accepted (RxQueueSetup p q n so o) l0 l.
(** In the log [l] the port [p] is configured with [n] queues, with success, and behind this
    each of them is set up. *)
Definition ready (p : Z) (l : list request) : Prop :=
  exists n c l0, l0 ++ [Configure p n c] `prefix_of` l /\ answer l0 (Configure p n c) = 0 /\
    forall q, 0 <= q < n -> queue_ready p q (l0 ++ [Configure p n c]) l.
Definition ordered (l : list request) : Prop := forall p pre suf, l = pre ++ DevStart p :: suf -> ready p pre.

Definition mentions (l l' : list request) : Prop := l `prefix_of` l'.
Lemma accepted_mono r l0 l l' : accepted r l0 l -> mentions l l' -> accepted r l0 l'.
Proof. intros (pre & suf & -> & Ha) [k ->]. exists pre, (suf ++ k). split; [|done]. by rewrite <- !app_assoc. Qed.
Lemma queue_ready_mono p q l0 l l' : queue_ready p q l0 l -> mentions l l' -> queue_ready p q l0 l'.
Proof. intros [(a & b & c & T) (a' & b' & c' & R)] Hm. split; do 3 eexists; by eapply accepted_mono. Qed.
(** What was asked last. *)
Lemma accepted_last r l0 l : l0 `prefix_of` l -> 0 <= answer l r -> accepted r l0 (l ++ [r]).
Proof. intros [k ->] Ha. exists k, []. split; [|done]. by rewrite <- app_assoc. Qed.

Definition harmless (r : request) : bool := match r with DevStart _ => false | _ => true end.

Lemma ordered_snoc l r : ordered l -> (forall p, r = DevStart p -> ready p l) -> ordered (l ++ [r]).
Proof.
  intros Hl Hr p pre suf E. destruct (exists_last (l := DevStart p :: suf)) as (suf' & x & E2); [done|].
  rewrite E2, app_assoc in E. apply app_inj_tail in E as [-> ->]. destruct suf' as [|y suf'].
  - cbn in E2. injection E2 as <-. rewrite app_nil_r in Hr. by apply Hr.
  - cbn in E2. injection E2 as <- _. by eapply Hl.
Qed.

(** [m] run from [s] leaves the log in order, forgets nothing, and gives [Q]. *)
Definition safe {A} (m : P A) (s : setup) (Q : A -> setup -> Prop) : Prop :=
  let '(o, s') := m s in
  ordered (asked s') /\ mentions (asked s) (asked s') /\ match o with Val a => Q a s' | _ => True end.

Lemma safe_bind {A B} (m : P A) (f : A -> P B) s Q R :
  safe m s Q -> (forall a s', ordered (asked s') -> mentions (asked s) (asked s') -> Q a s' -> safe (f a) s' R) -> safe (m ≫= f) s R.
Proof.
  unfold safe, mbind, P_bind. destruct (m s) as [[a|r|] s1]; intros (O & M & HQ) Hf; [|done..].
  specialize (Hf a s1 O M HQ). destruct (f a s1) as [o s2]. destruct Hf as (O2 & M2 & HR).
  split; [done|]. split; [|done]. unfold mentions in *. by etrans.
Qed.
Lemma safe_weaken {A} (m : P A) s (Q R : A -> setup -> Prop) :
  safe m s Q -> (forall a s', mentions (asked s) (asked s') -> Q a s' -> R a s') -> safe m s R.
Proof.
  unfold safe. destruct (m s) as [[a|r|] s1]; intros (O & M & HQ) Hw; split_and!; try done. by apply Hw.
Qed.
Lemma safe_ret {A} (a : A) s : ordered (asked s) -> safe (mret a) s (fun b s' => b = a /\ s' = s).
Proof. by intros O. Qed.
Lemma safe_ask r s : ordered (asked s) -> (forall p, r = DevStart p -> ready p (asked s)) ->
  safe (ask r) s (fun a s' => a = answer (asked s) r /\ asked s' = asked s ++ [r]).
Proof. intros O Hr. split; [by apply ordered_snoc|]. split; [by exists [r]|done]. Qed.
Lemma safe_ask_harmless r s : ordered (asked s) -> harmless r = true -> safe (ask r) s (fun a s' => a = answer (asked s) r /\ asked s' = asked s ++ [r]).
Proof. intros O Hr. apply safe_ask; [done|]. by intros p ->. Qed.
Lemma safe_gets {A} (f : setup -> A) s : ordered (asked s) -> safe (gets f) s (fun _ _ => True).
Proof. by intros O. Qed.
Lemma safe_puts f s : ordered (asked s) -> asked (f s) = asked s -> safe (puts f) s (fun _ _ => True).
Proof. intros O E. unfold safe, mentions. cbn. rewrite E. by split_and!. Qed.
Lemma safe_leave {A} r s Q : ordered (asked s) -> safe (leave (A := A) r) s Q.
Proof. by intros O. Qed.
Lemma safe_exit {A} s Q : ordered (asked s) -> safe (rte_exit (A := A)) s Q.
Proof. by intros O. Qed.
Lemma safe_option {A} (o : option A) s : ordered (asked s) -> safe (of_option o) s (fun _ _ => True).
Proof. intros O. by destruct o. Qed.

(** [m] asks for nothing that matters. *)
Definition quiet {A} (m : P A) : Prop := forall s, ordered (asked s) -> safe m s (fun _ _ => True).
Lemma quiet_bind {A B} (m : P A) (f : A -> P B) : quiet m -> (forall a, quiet (f a)) -> quiet (m ≫= f).
Proof. intros Hm Hf s O. eapply safe_bind; [by apply Hm|]. intros a s' O' _ _. by apply Hf. Qed.
Lemma quiet_for_each {A} (l : list A) f : (forall x, quiet (f x)) -> quiet (for_each l f).
Proof. intros Hf. induction l as [|x l IH]; cbn; [by intros s O|]. by apply quiet_bind. Qed.
Ltac quiet_step :=
  match goal with
  | |- quiet (_ ≫= _) => apply quiet_bind; [|intros ?]
  | |- quiet (if ?b then _ else _) => destruct b
  | |- quiet (match ?x with _ => _ end) => destruct x
  | |- quiet (for_each _ _) => apply quiet_for_each; intros ?
  | |- quiet (mret _) => by intros ? ?
  | |- quiet (leave _) => by intros ? ?
  | |- quiet rte_exit => by intros ? ?
  | |- quiet (gets _) => by intros ? ?
  | |- quiet (puts _) => by intros ? ?; apply safe_puts
  | |- quiet (of_option _) => intros ? ?; by apply safe_option
  | |- quiet (ask _) => intros ? ?; eapply safe_weaken; [by apply safe_ask_harmless|done]
  end.
Ltac quiet := repeat quiet_step.

Ltac by_quiet := match goal with |- safe ?m _ _ => let Hq := fresh in assert (quiet m) as Hq by quiet; by apply Hq end.

Lemma quiet_configure u p i : quiet (configure_mode g u p i).
Proof. unfold configure_mode. quiet. Qed.

Lemma safe_setup_queue l0 u p c sk q s : ordered (asked s) -> l0 `prefix_of` asked s ->
  safe (setup_queue answer e g u p c sk q) s (fun _ s' => queue_ready p q l0 (asked s')).
Proof.
  intros O L. unfold setup_queue. eapply safe_bind; [by_quiet|]. intros sk' s1 O1 M1 _.
  eapply safe_bind; [by apply safe_gets|]. intros txd s2 O2 M2 _.
  eapply safe_bind; [by apply safe_ask_harmless|]. intros r s3 O3 M3 [-> T]. case_match eqn:Ht; [by apply safe_leave|]. apply Z.ltb_ge in Ht.
  eapply safe_bind; [by apply safe_gets|]. intros rxd s4 O4 M4 _.
  eapply safe_bind; [by apply safe_ask_harmless|]. intros r s5 O5 M5 [-> R]. case_match eqn:Hr; [by apply safe_leave|]. apply Z.ltb_ge in Hr.
  eapply safe_weaken; [by apply safe_ret|]. intros b s6 _ [_ ->]. unfold mentions in *.
  assert (l0 `prefix_of` asked s2) by (by do 2 etrans). assert (l0 `prefix_of` asked s4) by (by do 2 etrans).
  split; do 3 eexists.
  - apply (accepted_mono _ _ (asked s3)); [|by etrans]. rewrite T. by apply accepted_last.
  - rewrite R. by apply accepted_last.
Qed.

Lemma safe_setup_queues l0 u p c queues : forall sk s, ordered (asked s) -> l0 `prefix_of` asked s ->
  safe (setup_queues answer e g u p c sk queues) s (fun _ s' => forall q, q ∈ queues -> queue_ready p q l0 (asked s')).
Proof.
  induction queues as [|q queues IH]; intros sk s O L; cbn [setup_queues].
  { eapply safe_weaken; [by apply safe_ret|]. intros a s' _ _ q Hq. by apply not_elem_of_nil in Hq. }
  eapply safe_bind; [by apply safe_setup_queue|]. intros sk' s1 O1 M1 Hq.
  eapply safe_weaken; [by apply IH; [|by etrans]|]. intros a s2 M2 Hqs q' [->|Hq']%elem_of_cons; [exact (queue_ready_mono _ _ _ _ _ Hq M2)|by apply Hqs].
Qed.

Lemma quiet_start_port is_dev u n sk p : quiet (start_port answer info_of adjusted e g primary is_dev u n sk p).
Proof.
  intros s O. unfold start_port. eapply safe_bind; [by apply safe_ask_harmless|]. intros ret s1 O1 _ _.
  destruct (negb (ret =? 0)); [by apply safe_exit|]. do 2 (destruct (_ <? n); [by apply safe_exit|]).
  eapply safe_bind; [by apply safe_ask_harmless|]. intros mac s2 O2 _ _.
  eapply safe_bind; [destruct is_dev; [by apply quiet_configure|by eapply safe_weaken; [apply safe_ret|]]|]. intros c s3 O3 _ _.
  destruct (negb primary); [by eapply safe_weaken; [apply safe_ret|]|].
  eapply safe_bind; [by apply safe_ask_harmless|]. intros ret2 s4 O4 _ [-> Hc].
  destruct (Z.eqb_spec (answer (asked s3) (Configure p n c)) 0) as [Hret|]; cbn [negb]; [|by apply safe_leave].
  eapply safe_bind; [by apply safe_gets|]. intros rxd s5 O5 M5 _. eapply safe_bind; [by apply safe_gets|]. intros txd s6 O6 M6 _.
  eapply safe_bind; [by apply safe_ask_harmless|]. intros adj s7 O7 M7 _. destruct (adjusted rxd txd) as [rxd' txd'].
  eapply safe_bind; [by apply safe_puts|]. intros [] s8 O8 M8 _.
  assert (asked s3 ++ [Configure p n c] `prefix_of` asked s8) as L by (rewrite <- Hc; by do 3 etrans).
  eapply safe_bind; [by apply (safe_setup_queues (asked s3 ++ [Configure p n c]))|]. intros sk' s9 O9 M9 Hq.
  eapply safe_bind; [by_quiet|]. intros [] s10 O10 M10 _.
  eapply safe_bind; [apply safe_ask; [done|]|].
  { intros p' [= <-]. exists n, c, (asked s3). split; [by do 2 etrans|]. split; [done|].
    intros q Hqn. eapply queue_ready_mono; [apply Hq, elem_of_seqZ; lia|done]. }
  intros ret3 s11 O11 _ _. clear Hc Hq Hret L M5 M6 M7 M8 M9 M10. revert s11 O11.
  match goal with |- forall s, _ -> safe ?m s _ => assert (quiet m) as Hquiet; [|exact Hquiet] end. quiet.
Qed.

Lemma quiet_start_ports is_dev u n ports : forall sk, quiet (start_ports answer info_of adjusted e g primary is_dev u n sk ports).
Proof.
  induction ports as [|p ports IH]; intros sk; cbn [start_ports]; [quiet|].
  apply quiet_bind; [apply quiet_start_port|]. intros sk'. apply IH.
Qed.
Lemma quiet_start_dev_ports ports : forall sk, quiet (start_dev_ports answer info_of adjusted e g primary ports sk).
Proof.
  induction ports as [|p ports IH]; intros sk; cbn [start_dev_ports]; [quiet|].
  apply quiet_bind; [quiet|]. intros _. apply quiet_bind; [apply quiet_start_ports|]. intros sk'. apply IH.
Qed.
Lemma quiet_start_virtio_ports ports : forall sk, quiet (start_virtio_ports answer info_of adjusted e g primary ports sk).
Proof.
  induction ports as [|p ports IH]; intros sk; cbn [start_virtio_ports]; [quiet|].
  apply quiet_bind; [apply (quiet_start_ports false p 1 [p])|]. intros sk'. apply IH.
Qed.
Lemma quiet_look pf ports : quiet (look_at_links answer pf ports).
Proof. induction ports as [|p ports IH]; cbn [look_at_links]; quiet; done. Qed.
Lemma quiet_links n : forall count pf, quiet (check_links answer g n count pf).
Proof.
  induction n as [|n IH]; intros count pf; cbn [check_links]; [quiet|].
  apply quiet_bind; [apply quiet_look|]. intros up. destruct pf; [quiet|]. apply quiet_bind; [quiet|]. intros _. apply IH.
Qed.

(** C37. A port is started when its queues are ready.  Whatever DPDK answers, whether the
    set-up of the ports succeeds, fails or ends the process: every request that starts a
    port comes after a request that configured it with a number of queues, which DPDK granted
    with 0, and after that, for each of these queues, after a request to set it up for sending and
    one to set it up for receiving, neither of which DPDK refused with a negative answer. *)
Theorem ports_start_in_order nb_dev_ports s : ordered (asked s) ->
  let '(_, s') := init_port_start answer info_of adjusted e g primary nb_dev_ports s in ordered (asked s').
Proof.
  intros O. assert (quiet (init_port_start answer info_of adjusted e g primary nb_dev_ports)) as Hq.
  { unfold init_port_start. apply quiet_bind; [apply quiet_start_dev_ports|]. intros sk.
    apply quiet_bind; [destruct (kni_enable g && primary); [apply quiet_start_virtio_ports|quiet]|]. intros _.
    apply quiet_bind; [destruct primary; [apply quiet_links|quiet]|]. intros _. quiet. }
  specialize (Hq s O). unfold safe in Hq. destruct (init_port_start _ _ _ _ _ _ _ _) as [o s']. apply Hq.
Qed.
End Order.

(** ** Waiting for the links ends *)
Section Links.
Context (answer : list request -> request -> Z) (g : global).

Definition is_delay (r : request) : bool := match r with DelayMs _ => true | _ => false end.
(** How long a part of the log waits, in units of [CHECK_INTERVAL]. *)
Definition delays (l : list request) : nat := length (List.filter is_delay l).
Lemma delays_app l l' : delays (l ++ l') = (delays l + delays l')%nat.
Proof. unfold delays. by rewrite List.filter_app, length_app. Qed.

Lemma look_at_links_run pf ports s : exists b l, look_at_links answer pf ports s = (Val b, set_log (asked s ++ l) s) /\
  delays l = 0%nat /\ ((forall l r, answer l r <> 0) -> b = true).
Proof.
  revert s. induction ports as [|p ports IH]; intros s; cbn [look_at_links].
  { exists true, []. rewrite app_nil_r. by destruct s. }
  unfold mbind, P_bind, ask. destruct (IH (set_log (asked s ++ [LinkGet p]) s)) as (b & l & E & D & T).
  cbn [asked set_log] in E. rewrite <- app_assoc in E.
  assert (forall b0, (forall l r, answer l r <> 0) -> (if answer (asked s) (LinkGet p) =? 0 then b0 else b) = true) as Hb.
  { intros b0 Ha. rewrite (proj2 (Z.eqb_neq _ 0) (Ha _ _)). by apply T. }
  destruct pf; [by exists b, (LinkGet p :: l)|]. destruct (answer (asked s) (LinkGet p) =? 0).
  - exists false, [LinkGet p]. split_and!; [done|done|]. intros Ha. by apply (Hb false).
  - by exists b, (LinkGet p :: l).
Qed.

Lemma check_links_run n : forall count pf s, Z.of_nat n = 91 - count -> (n = 0%nat -> pf = true) -> (pf = false -> count <= 89) ->
  exists l, check_links answer g n count pf s = (Val (), set_log (asked s ++ l) s) /\
    Z.of_nat (delays l) <= (if pf then 0 else 90 - count) /\ ((forall l r, answer l r <> 0) -> delays l = 0%nat).
Proof.
  induction n as [|n IH]; intros count pf s Hn H0 Hpf; cbn [check_links].
  { exists []. rewrite app_nil_r. rewrite H0 by done. by destruct s. }
  unfold mbind at 1, P_bind at 1. destruct (look_at_links_run pf (portid_list g) s) as (b & l & -> & D & T).
  destruct pf; [exists l; split_and!; [done|lia|done]|]. specialize (Hpf eq_refl).
  set (pf' := b || (count =? MAX_CHECK_TIME - 1)).
  assert (pf' = false -> count + 1 <= 89) as Hpf'.
  { unfold pf', MAX_CHECK_TIME. intros [_ E]%orb_false_iff. lia. }
  assert (n = 0%nat -> pf' = true) as Hn0 by (intros ->; lia).
  unfold mbind, P_bind. destruct b; cbn [negb].
  - destruct (IH (count + 1) pf' (set_log (asked s ++ l) s)) as (l2 & E & D2 & T2); [lia|done|done|].
    exists (l ++ l2). rewrite app_assoc. split; [exact E|]. unfold pf' in D2. cbn [orb] in D2. rewrite delays_app. split; [lia|].
    intros Ha. by rewrite D, T2.
  - unfold ask. destruct (IH (count + 1) pf' (set_log ((asked s ++ l) ++ [DelayMs CHECK_INTERVAL]) s)) as (l2 & E & D2 & T2); [lia|done|done|].
    exists (l ++ DelayMs CHECK_INTERVAL :: l2). split; [etransitivity; [exact E|]; cbn [asked set_log]; by rewrite <- !app_assoc|].
    rewrite delays_app. change (delays (DelayMs CHECK_INTERVAL :: l2)) with (S (delays l2)). split.
    + destruct pf'; lia.
    + intros Ha. specialize (T Ha). done.
Qed.

(** Waiting for the links returns after nine seconds at the latest, whatever the links do,
    and at once when they are up. *)
Theorem link_wait_bounded s : exists l, check_all_ports_link_status answer g s = (Val (), set_log (asked s ++ l) s) /\
  Z.of_nat (delays l) * CHECK_INTERVAL <= 9000 /\ ((forall l r, answer l r <> 0) -> delays l = 0%nat).
Proof.
  destruct (check_links_run 91 0 false s) as (l & E & D & T); [done|done|lia|]. exists l. split; [exact E|].
  split; [unfold CHECK_INTERVAL; lia|done].
Qed.
End Links.

(** ** Examples

    Two processes on the lcores 2 and 5 of two sockets, two ports, the first with both lcores
    and the second with one. *)
Definition example_env : dpdk_env := DpdkEnv 2 (fun _ => true) (fun l => if l =? 5 then 1 else 0).
Definition example_global (bond : list Z) : global :=
  Global 2 true true false true false true [2; 5] 1 [0; 1]
    (<[0 := PortCfg [5; 2] bond]> (<[1 := PortCfg [2] []]> ∅)) false false 100 0 100.
Definition example_conf (k : Z) : lcore_conf :=
  match init_lcore_conf example_env (example_global []) 0 k (if k =? 0 then 2 else 5) with
  | Ok (_, c) => c | _ => LcoreConf 0 0 ∅ [] [] ∅ 0
  end.

Lemma every_queue_has_one_process_witness : exists k, 0 <= k < 2 /\ (0, 0) ∈ rx_queue_list (example_conf k) /\
  forall k', 0 <= k' < 2 -> (0, 0) ∈ rx_queue_list (example_conf k') -> k' = k.
Proof.
  refine (proj1 (every_queue_has_one_process example_env (example_global []) 0 2 (fun k => if k =? 0 then 2 else 5) example_conf 0 _ _ _ _ _ _ _) 0 _).
  - apply (bool_decide_unpack _). by vm_compute.
  - done.
  - intros k Hk. cbn in Hk. assert (k = 0 \/ k = 1) as [->| ->] by lia; by vm_compute.
  - cbn. set_solver.
  - apply (bool_decide_unpack _). by vm_compute.
  - cbn. set_solver.
  - done.
  - done.
Defined.

Lemma first_pool_only_witness : exists pools refs,
  init_mem_pool example_env (example_global []) false 2 true (fun _ => true) = Ok (pools, refs) /\
  pools !! 0 = Some 32768 /\ pools !! 1 = Some (nb_refs (example_global [])) /\ nb_refs (example_global []) = 4096.
Proof.
  destruct (init_mem_pool example_env (example_global []) false 2 true (fun _ => true)) as [[pools refs]| |] eqn:E; [|by vm_compute in E..].
  destruct (first_pool_only example_env (example_global []) false 2 (fun _ => true) 2 [5] pools refs eq_refl E) as [F G].
  exists pools, refs. split; [done|]. split; [exact F|]. split; [|done].
  destruct (pools !! 1) as [v|] eqn:E1; [by rewrite (G 1 v ltac:(done) E1)|].
  vm_compute in E. injection E as <- _. by vm_compute in E1.
Defined.

#[local] Instance example_flags : EthFlags := {
  RX_VLAN_STRIP := 1; RX_KEEP_CRC := 0x10000; RX_IPV4_CKSUM := 2; RX_UDP_CKSUM := 4; RX_TCP_CKSUM := 8;
  TX_MBUF_FAST_FREE := 0x10000; TX_IPV4_CKSUM := 2; TX_UDP_CKSUM := 4; TX_TCP_CKSUM := 8; TX_TCP_TSO := 32;
  RSS_PROTO_MASK := 0x3ff; RETA_GROUP_SIZE := 64 }.

Definition example_nic : dev_info := DevInfo 4 4 40 0x3ff 46 15 128 false.

Lemma offloads_supported_witness :
  let '(rx, f1) := negotiate_rx (example_global []) example_nic (HwFeatures false false false false false) in
  let '(tx, f2) := negotiate_tx (example_global []) example_nic f1 in
  tx_csum_l4 f2 = true /\ subset tx 46 /\ subset rx 15.
Proof.
  destruct (negotiate_rx (example_global []) example_nic (HwFeatures false false false false false)) as [rx f1] eqn:E1.
  destruct (negotiate_tx (example_global []) example_nic f1) as [tx f2] eqn:E2.
  destruct (offloads_supported (example_global []) ltac:(
    rewrite !Forall_cons; split_and!; [eexists 0|eexists 1|eexists 2|eexists 3|eexists 16|eexists 1|eexists 2|eexists 3|eexists 5|by apply Forall_nil]; by split)
    example_nic f1 f2 rx tx E1 E2) as (Hrx & Htx & _).
  split; [|by split]. vm_compute in E1. injection E1 as <- <-. vm_compute in E2. by injection E2 as <- <-.
Defined.

(** DPDK grants everything; port 7 can send with checksums and port 8 cannot. *)
Definition grant (l : list request) (r : request) : Z := match r with LinkGet _ => 1 | RingCreate _ _ | MsgPoolCreate _ _ _ => 1 | _ => 0 end.
Definition example_info (port : Z) : dev_info := DevInfo 4 4 40 0x3ff (if port =? 8 then 0 else 46) 15 128 false.
Definition example_setup : setup := Setup 512 512 (40%nat, []) ∅ ∅ [].

Lemma ports_start_in_order_witness :
  ordered grant (asked (init_port_start grant example_info (fun a b => (a, b)) example_env (example_global []) true 2 example_setup).2).
Proof.
  assert (ordered grant (asked example_setup)) as O by (intros p [|x pre] suf E; discriminate E).
  pose proof (ports_start_in_order grant example_info (fun a b => (a, b)) example_env (example_global []) true 2 example_setup O) as Ho.
  by destruct (init_port_start _ _ _ _ _ _ _ _).
Defined.

(** A port of two slaves, the first with checksums: the stack believes that the port has
    them, and the second sends packets without. *)
Example bond_features :
  let '(o, s) := init_port_start grant example_info (fun a b => (a, b)) example_env (example_global [7; 8]) true 2 example_setup in
  o = Val 0 /\ tx_csum_l4 <$> features_of s !! 0 = Some true /\
  existsb (fun r => match r with Configure 8 _ c => tx_offloads c =? 0 | _ => false end) (asked s) = true.
Proof. by vm_compute. Qed.

(** A NIC with a key of 52 bytes before one with 40: the second gets the long key. *)
Example key_of_the_port_before :
  let k := update_rsskey (example_global []) (40%nat, default_rsskey_40bytes) 52 in
  (update_rsskey (example_global []) k 40).1 = 52%nat.
Proof. done. Qed.
