(* ===== verification/Veth.v ===== *)
(** * Veth: the network interface of a port, [bsd/lib/lazybsd_veth.c]

    [lazybsd_dpdk_if_up] gives each port that the process sends on an interface of the
    stack: [lazybsd_veth_attach] makes its state, the [softc], reads the addresses of the
    configuration ([lazybsd_veth_config]), makes the interface, tells the stack what the NIC
    takes over ([lazybsd_veth_setup_interface]) and requests the addresses and the routes.

    What the stack, the allocator and DPDK are asked for is a log of requests, each with an
    answer that may depend on those before it.  [inet_pton] and the flags of the stack are
    interfaces.  Messages on the console are left out. *)
From stdpp Require Import strings pretty.
From S2P Require Import Prelude DpdkInit.

(** ** The configuration and the state *)

Definition VIP_MAX_NUM : nat := 64.
Definition IFNAMSIZ : nat := 16.

(** [struct lazybsd_port_cfg] without the lcores and slaves; the arrays of virtual addresses
    may be longer or shorter than the counts say. *)
Record if_cfg := IfCfg {
  c_ifname : option string; c_port_id : Z; c_mac : list Z; c_features : hw_features;
  c_addr : string; c_netmask : string; c_broadcast : string; c_gateway : string;
  vip_ifname : option string; vip_addr_array : list string; c_nb_vip : Z;
  addr6_str : option string; gateway6_str : option string; c_prefix_len : Z;
  vip_addr6_array : list string; c_nb_vip6 : Z; c_vip_prefix_len : Z }.

(** [struct lazybsd_veth_softc]; an IPv4 address is a word in memory, an IPv6 address its
    bytes. *)
Record softc := Softc {
  mac : list Z; host_ifname : string; ip : Z; netmask : Z; broadcast : Z; gateway : Z;
  nb_vip : Z; vip : list Z;
  ip6 : list Z; gateway6 : list Z; prefix_length : Z; nb_vip6 : Z; vip_prefix_length : Z; vip6 : list (list Z);
  host_ctx : Z }.

(** The fields of [struct ifnet] that the code names. *)
Record ifnet := Ifnet {
  if_softc : Z; if_dname : string; if_flags : Z; if_drv_flags : Z;
  if_capabilities : Z; if_capenable : Z; if_hwassist : Z }.

(** [struct lazybsd_dpdk_if_context] *)
Record if_context := IfContext { ctx_sc : Z; ctx_ifp : Z; ctx_port_id : Z; ctx_features : hw_features }.

(** The flags of the headers. *)
Class IfFlags := {
  IFF_UP : Z; IFF_BROADCAST : Z; IFF_SIMPLEX : Z; IFF_MULTICAST : Z; IFF_DRV_RUNNING : Z; IFF_DRV_OACTIVE : Z;
  IFCAP_RXCSUM : Z; IFCAP_TXCSUM : Z; IFCAP_TSO : Z; CSUM_IP : Z; CSUM_DELAY_DATA : Z; CSUM_TSO : Z;
  RTF_GATEWAY : Z; AF_INET : Z; AF_INET6 : Z; SIOCSIFFLAGS : Z }.

(** [inet_pton]: the value and the address it stores, if it stores one. *)
Class InetPton := { inet_pton4 : string -> Z * option Z; inet_pton6 : string -> Z * option (list Z) }.

(** ** Requests *)
Record sockaddr_in := SockaddrIn { sin_len : Z; sin_family : Z; sin_addr : Z }.
Record sockaddr_in6 := SockaddrIn6 { sin6_len : Z; sin6_family : Z; sin6_addr : list Z }.

(** [struct in_aliasreq] and [struct in6_aliasreq], whose lifetimes are unlimited. *)
Record aliasreq := AliasReq { ifra_name : string; ifra_addr : sockaddr_in; ifra_broadaddr : sockaddr_in; ifra_mask : sockaddr_in }.
Record aliasreq6 := AliasReq6 { ifra6_name : string; ifra6_addr : sockaddr_in6; ifra6_prefixmask : sockaddr_in6 }.

Inductive if_request :=
| Malloc | Free (p : Z) | Calloc | FreeCtx (p : Z)
| If_alloc | If_initname (ifp : Z) (name : string) | Ether_ifattach (ifp : Z) (mac : list Z)
| Register (ctx : if_context)
| Socreate (domain : Z) | Sofree (so : Z)
| Siocaifaddr (so : Z) (req : aliasreq) | Siocaifaddr_in6 (so : Z) (req : aliasreq6)
| Rib_add (flags : Z) (dst gateway netmask : sockaddr_in) | Rib_add6 (flags : Z) (dst gateway netmask : sockaddr_in6).

Definition IO (A : Type) : Type := list if_request -> outcome (A * list if_request).
#[export] Instance IO_ret : MRet IO := fun A a l => Ok (a, l).
#[export] Instance IO_bind : MBind IO := fun A B f m l =>
  match m l with Ok (a, l) => f a l | Panic => Panic | Diverge => Diverge end.
Definition pure {A} (m : outcome A) : IO A := fun l =>
  match m with Ok a => Ok (a, l) | Panic => Panic | Diverge => Diverge end.

(** ** Reading the configuration *)
Section Config.
Context `{InetPton}.

(** The loops over the virtual addresses, from the element [i] on: [l] is the array that is
    filled and [j] the number of addresses in it.  The last argument is how many of the
    [nb_vip] elements are left. *)
Fixpoint vip_loop {A} (inet_pton : string -> Z * option A) (array : list string) (l : list A) (j : nat) (n : nat)
    : outcome (nat * list A) :=
  match n with
  | O => Ok (j, l)
  | S n =>
      match array with
      | [] => Panic
      | s :: array =>
          let '(r, v) := inet_pton s in
          l ← match v with
              | Some v => if (j <? length l)%nat then Ok (<[j := v]> l) else Panic
              | None => Ok l
              end;
          vip_loop inet_pton array l (if negb (r =? 0) then S j else j) n
      end
  end.

Definition lazybsd_veth_config (sc : softc) (cfg : if_cfg) : outcome softc :=
  let '(mac, name) := (c_mac cfg, host_ifname sc) in
  let ip := default (ip sc) (inet_pton4 (c_addr cfg)).2 in
  let netmask := default (netmask sc) (inet_pton4 (c_netmask cfg)).2 in
  let broadcast := default (broadcast sc) (inet_pton4 (c_broadcast cfg)).2 in
  let gateway := default (gateway sc) (inet_pton4 (c_gateway cfg)).2 in
  '(n, v) ← (if negb (c_nb_vip cfg =? 0) then
               '(j, l) ← vip_loop inet_pton4 (vip_addr_array cfg) (vip sc) 0 (Z.to_nat (c_nb_vip cfg));
               Ok (u8 (Z.of_nat j), l)
             else Ok (nb_vip sc, vip sc));
  let '(ip6, gateway6, prefix) :=
    match addr6_str cfg with
    | Some s => (default (ip6 sc) (inet_pton6 s).2,
                 match gateway6_str cfg with Some s => default (gateway6 sc) (inet_pton6 s).2 | None => gateway6 sc end,
                 if c_prefix_len cfg =? 0 then 64 else c_prefix_len cfg)
    | None => (ip6 sc, gateway6 sc, prefix_length sc)
    end in
  '(n6, v6, prefix6) ← (if negb (c_nb_vip6 cfg =? 0) then
               '(j, l) ← vip_loop inet_pton6 (vip_addr6_array cfg) (vip6 sc) 0 (Z.to_nat (c_nb_vip6 cfg));
               Ok (u8 (Z.of_nat j), l, if c_vip_prefix_len cfg =? 0 then 64 else c_vip_prefix_len cfg)
             else Ok (nb_vip6 sc, vip6 sc, vip_prefix_length sc));
  Ok (Softc mac name ip netmask broadcast gateway n v ip6 gateway6 prefix n6 prefix6 v6 (host_ctx sc)).
End Config.

(** ** The state of the interface *)
Section Flags.
Context `{IfFlags}.

Definition set_drv_flags (v : Z) (ifp : ifnet) : ifnet :=
  Ifnet (if_softc ifp) (if_dname ifp) (if_flags ifp) v (if_capabilities ifp) (if_capenable ifp) (if_hwassist ifp).

Definition lazybsd_veth_init (ifp : ifnet) : ifnet :=
  let ifp := set_drv_flags (Z.lor (if_drv_flags ifp) IFF_DRV_RUNNING) ifp in
  set_drv_flags (Z.land (if_drv_flags ifp) (Z.lnot IFF_DRV_OACTIVE)) ifp.

Definition lazybsd_veth_stop (ifp : ifnet) : ifnet :=
  set_drv_flags (Z.land (if_drv_flags ifp) (Z.lnot (Z.lor IFF_DRV_RUNNING IFF_DRV_OACTIVE))) ifp.

(** [lazybsd_veth_start] and [lazybsd_veth_qflush] do nothing. *)
Definition lazybsd_veth_start (ifp : ifnet) : ifnet := ifp.
Definition lazybsd_veth_qflush (ifp : ifnet) : ifnet := ifp.

(** [ether_ioctl] is a function of the stack. *)
Definition lazybsd_veth_ioctl (ether_ioctl : ifnet -> Z -> Z -> Z * ifnet) (ifp : ifnet) (cmd data : Z) : Z * ifnet :=
  if cmd =? SIOCSIFFLAGS then
    (0, if negb (Z.land (if_flags ifp) IFF_UP =? 0) then lazybsd_veth_init ifp
        else if negb (Z.land (if_drv_flags ifp) IFF_DRV_RUNNING =? 0) then lazybsd_veth_stop ifp
        else ifp)
  else ether_ioctl ifp cmd data.
End Flags.

(** ** The requests for addresses and routes *)
Section Setup.
Context `{IfFlags} `{InetPton} (answer : list if_request -> if_request -> Z).

Definition ask (r : if_request) : IO Z := fun l => Ok (answer l r, l ++ [r]).

(** [strcpy] and [strlcpy] to [ifra_name]. *)
Definition strcpy_name (s : string) : outcome string := if (String.length s <? IFNAMSIZ)%nat then Ok s else Panic.
Definition strlcpy_name (s : string) : string := String.substring 0 (IFNAMSIZ - 1) s.

Definition sin (a : Z) : sockaddr_in := SockaddrIn 16 AF_INET a.
Definition sin6 (a : list Z) : sockaddr_in6 := SockaddrIn6 28 AF_INET6 a.

Definition lazybsd_veth_setaddr (sc : softc) (ifp : ifnet) : IO Z :=
  name ← pure (strcpy_name (if_dname ifp));
  so ← ask (Socreate AF_INET);
  ret ← ask (Siocaifaddr so (AliasReq name (sin (ip sc)) (sin (broadcast sc)) (sin (netmask sc))));
  _ ← ask (Sofree so);
  mret ret.

Definition lazybsd_veth_set_gateway (sc : softc) : IO Z := ask (Rib_add RTF_GATEWAY (sin 0) (sin (gateway sc)) (sin 0)).

(** The loop of [lazybsd_veth_setvaddr]; [ret] is the last answer. *)
Fixpoint vaddr_loop (so : Z) (name : string) (l : list Z) (ret : Z) : IO Z :=
  match l with
  | [] => mret ret
  | v :: l =>
      ret ← ask (Siocaifaddr so (AliasReq name (sin v) (sin (Z.lor v 0xFF000000)) (sin 0xFFFFFFFF)));
      if ret <? 0 then mret ret else vaddr_loop so name l ret
  end.

Definition vip_name (ifp : ifnet) (cfg : if_cfg) : string :=
  strlcpy_name (match vip_ifname cfg with Some n => n | None => if_dname ifp end).

(** [indet] is what the variable [ret] holds before the loop. *)
Definition lazybsd_veth_setvaddr (indet : Z) (sc : softc) (ifp : ifnet) (cfg : if_cfg) : IO Z :=
  so ← ask (Socreate AF_INET);
  ret ← (if (Z.to_nat (nb_vip sc) <=? length (vip sc))%nat then vaddr_loop so (vip_name ifp cfg) (take (Z.to_nat (nb_vip sc)) (vip sc)) indet
         else pure Panic);
  _ ← ask (Sofree so);
  mret ret.

(** The mask of [prefix_length]: a write behind the address is [Panic]. *)
Definition prefix_mask (prefix_length : Z) : outcome (list Z) :=
  let n := Z.to_nat (prefix_length / 8) in
  if (16 <? n)%nat then Panic else
  let m := replicate n 0xff ++ replicate (16 - n) 0 in
  let mask_size_mod := prefix_length mod 8 in
  if negb (mask_size_mod =? 0) then
    if (n <? 16)%nat then Ok (<[n := u8 (Z.shiftl (Z.shiftl 1 mask_size_mod - 1) (8 - mask_size_mod))]> m) else Panic
  else Ok m.

(** [ifra_prefixmask.sin6_family] stays zero. *)
Definition sin6_mask (m : list Z) : sockaddr_in6 := SockaddrIn6 28 0 m.

Definition lazybsd_veth_setaddr6 (sc : softc) (ifp : ifnet) : IO Z :=
  name ← pure (strcpy_name (if_dname ifp));
  mask ← pure (prefix_mask (prefix_length sc));
  so ← ask (Socreate AF_INET6);
  ret ← ask (Siocaifaddr_in6 so (AliasReq6 name (sin6 (ip6 sc)) (sin6_mask mask)));
  _ ← ask (Sofree so);
  mret ret.

Definition lazybsd_veth_set_gateway6 (sc : softc) : IO Z :=
  let zero := replicate 16 0 in ask (Rib_add6 RTF_GATEWAY (sin6 zero) (sin6 (gateway6 sc)) (sin6 zero)).

Fixpoint vaddr6_loop (so : Z) (name : string) (mask : list Z) (l : list (list Z)) (ret : Z) : IO Z :=
  match l with
  | [] => mret ret
  | v :: l =>
      ret ← ask (Siocaifaddr_in6 so (AliasReq6 name (sin6 v) (sin6_mask mask)));
      if ret <? 0 then mret ret else vaddr6_loop so name mask l ret
  end.

Definition lazybsd_veth_setvaddr6 (indet : Z) (sc : softc) (ifp : ifnet) (cfg : if_cfg) : IO Z :=
  mask ← pure (prefix_mask (prefix_length sc));
  so ← ask (Socreate AF_INET6);
  ret ← (if (Z.to_nat (nb_vip6 sc) <=? length (vip6 sc))%nat
         then vaddr6_loop so (vip_name ifp cfg) mask (take (Z.to_nat (nb_vip6 sc)) (vip6 sc)) indet else pure Panic);
  _ ← ask (Sofree so);
  mret ret.

(** ** Making the interface *)

(** The features of the NIC as capabilities of the interface. *)
Definition set_capabilities (f : hw_features) (ifp : ifnet) : ifnet :=
  let set caps hw (ifp : ifnet) := Ifnet (if_softc ifp) (if_dname ifp) (if_flags ifp) (if_drv_flags ifp)
    (Z.lor (if_capabilities ifp) caps) (if_capenable ifp) (Z.lor (if_hwassist ifp) hw) in
  let ifp := if rx_csum f then set IFCAP_RXCSUM 0 ifp else ifp in
  let ifp := if tx_csum_ip f then set IFCAP_TXCSUM CSUM_IP ifp else ifp in
  let ifp := if tx_csum_l4 f then set 0 CSUM_DELAY_DATA ifp else ifp in
  let ifp := if tx_tso f then set IFCAP_TSO CSUM_TSO ifp else ifp in
  Ifnet (if_softc ifp) (if_dname ifp) (if_flags ifp) (if_drv_flags ifp) (if_capabilities ifp) (if_capabilities ifp) (if_hwassist ifp).

(** [lazybsd_dpdk_register_if]: 0 if there is no memory. *)
Definition lazybsd_dpdk_register_if (sc ifp : Z) (cfg : if_cfg) : IO Z :=
  ctx ← ask Calloc;
  if ctx =? 0 then mret 0 else
  _ ← ask (Register (IfContext sc ifp (c_port_id cfg) (c_features cfg)));
  mret ctx.
Definition lazybsd_dpdk_deregister_if (ctx : Z) : IO unit := _ ← ask (FreeCtx ctx); mret ().

(** The interface that [ether_ifattach] of the stack leaves. *)
Context (ether_ifattach : ifnet -> ifnet).

(** The addresses and routes, after the interface is made. *)
Definition set_addresses (indet : Z) (sc : softc) (ifp : ifnet) (cfg : if_cfg) : IO unit :=
  _ ← lazybsd_veth_setaddr sc ifp;
  _ ← lazybsd_veth_set_gateway sc;
  _ ← (if negb (nb_vip sc =? 0) then lazybsd_veth_setvaddr indet sc ifp cfg else mret 0);
  _ ← (match addr6_str cfg with
       | Some _ =>
           _ ← lazybsd_veth_setaddr6 sc ifp;
           if gateway6_str cfg then lazybsd_veth_set_gateway6 sc else mret 0
       | None => mret 0
       end);
  _ ← (if negb (nb_vip6 sc =? 0) then lazybsd_veth_setvaddr6 indet sc ifp cfg else mret 0);
  mret ().

Definition lazybsd_veth_setup_interface (indet sc_addr : Z) (sc : softc) (cfg : if_cfg) : IO (Z * Z * ifnet) :=
  p ← ask If_alloc;
  if p =? 0 then pure Panic else
  _ ← ask (If_initname p (host_ifname sc));
  let ifp := Ifnet sc_addr (host_ifname sc) (Z.lor IFF_BROADCAST (Z.lor IFF_SIMPLEX IFF_MULTICAST)) 0 0 0 0 in
  _ ← ask (Ether_ifattach p (mac sc));
  let ifp := set_capabilities (c_features cfg) (ether_ifattach ifp) in
  ctx ← lazybsd_dpdk_register_if sc_addr p cfg;
  if ctx =? 0 then mret (-1, 0, ifp) else
  _ ← set_addresses indet sc ifp cfg;
  mret (0, ctx, ifp).

(** [snprintf] to [host_ifname], of 16 bytes. *)
Definition name_of (cfg : if_cfg) : string :=
  String.substring 0 15 (match c_ifname cfg with Some n => n | None => "lazybsd-" +:+ pretty (c_port_id cfg) end).

(** The [softc] after [memset]. *)
Definition softc0 (name : string) : softc :=
  Softc (replicate 6 0) name 0 0 0 0 0 (replicate VIP_MAX_NUM 0) (replicate 16 0) (replicate 16 0) 0 0 0
    (replicate VIP_MAX_NUM (replicate 16 0)) 0.

(** The value is [sc->host_ctx], 0 for NULL.  On [fail] a [host_ctx] is 0. *)
Definition lazybsd_veth_attach (indet : Z) (cfg : if_cfg) : IO (Z * option ifnet) :=
  p ← ask Malloc;
  if p =? 0 then mret (0, None) else
  sc ← pure (lazybsd_veth_config (softc0 (name_of cfg)) cfg);
  '(ret, ctx, ifp) ← lazybsd_veth_setup_interface indet p sc cfg;
  if negb (ret =? 0) then _ ← ask (Free p); mret (0, None) else mret (ctx, Some ifp).

Definition lazybsd_veth_detach (sc_addr host_ctx : Z) : IO Z :=
  if negb (sc_addr =? 0) then _ ← lazybsd_dpdk_deregister_if host_ctx; _ ← ask (Free sc_addr); mret 0 else mret 0.

Definition lazybsd_veth_softc_to_hostc (sc : softc) : Z := host_ctx sc.

(** [lazybsd_dpdk_if_up]: the contexts by port; [rte_exit] is [Panic]. *)
Fixpoint lazybsd_dpdk_if_up (indet : Z) (cfg_of : Z -> if_cfg) (tx_ports : list Z) (veth_ctx : gmap Z Z) : IO (gmap Z Z) :=
  match tx_ports with
  | [] => mret veth_ctx
  | port_id :: tx_ports =>
      '(ctx, _) ← lazybsd_veth_attach indet (cfg_of port_id);
      if ctx =? 0 then pure Panic else lazybsd_dpdk_if_up indet cfg_of tx_ports (<[port_id := ctx]> veth_ctx)
  end.

(** ** What an attached interface is asked for, from the configuration *)

Fixpoint ask_all (l : list if_request) : IO unit :=
  match l with [] => mret () | r :: l => _ ← ask r; ask_all l end.

(** Requests on a socket of their own. *)
Definition with_socket (domain : Z) (f : Z -> list if_request) : IO unit :=
  so ← ask (Socreate domain); _ ← ask_all (f so); _ ← ask (Sofree so); mret ().

Definition valid {A} (inet_pton : string -> Z * option A) (array : list string) (n : Z) : list A :=
  omap (fun s => (inet_pton s).2) (take (Z.to_nat n) array).
Definition addr4 (s : string) : Z := default 0 (inet_pton4 s).2.
Definition addr6 (s : string) : list Z := default (replicate 16 0) (inet_pton6 s).2.

(** The mask of an address for itself, and the address with 255 as its last byte. *)
Definition host_mask : Z := 0xFFFFFFFF.
Definition last_255 (v : Z) : Z := v mod 2 ^ 24 + 255 * 2 ^ 24.

(** The byte [i] of the mask of [n] ones. *)
Definition mask_byte (n i : Z) : Z := 256 - 2 ^ (8 - Z.max 0 (Z.min 8 (n - 8 * i))).
Definition mask6 (n : Z) : list Z := mask_byte n <$> seqZ 0 16.
Definition default_prefix (n : Z) : Z := if n =? 0 then 64 else n.

Definition prefix_of (cfg : if_cfg) : Z := match addr6_str cfg with Some _ => default_prefix (c_prefix_len cfg) | None => 0 end.

(** The prefix of the virtual addresses as the configuration has it. *)
Definition vip_prefix_of (cfg : if_cfg) : Z := default_prefix (c_vip_prefix_len cfg).

(** The requests of a configuration, with the prefix [vprefix] for the virtual IPv6
    addresses. *)
Definition addresses_spec (vprefix : if_cfg -> Z) (cfg : if_cfg) : IO unit :=
  let name := name_of cfg in
  let vname := strlcpy_name (default name (vip_ifname cfg)) in
  let prefix := prefix_of cfg in
  _ ← with_socket AF_INET (fun so =>
    [Siocaifaddr so (AliasReq name (sin (addr4 (c_addr cfg))) (sin (addr4 (c_broadcast cfg))) (sin (addr4 (c_netmask cfg))))]);
  _ ← ask_all [Rib_add RTF_GATEWAY (sin 0) (sin (addr4 (c_gateway cfg))) (sin 0)];
  _ ← match valid inet_pton4 (vip_addr_array cfg) (c_nb_vip cfg) with
      | [] => mret ()
      | vs => with_socket AF_INET (fun so => (fun v => Siocaifaddr so (AliasReq vname (sin v) (sin (last_255 v)) (sin host_mask))) <$> vs)
      end;
  _ ← match addr6_str cfg with
      | Some s =>
          _ ← with_socket AF_INET6 (fun so => [Siocaifaddr_in6 so (AliasReq6 name (sin6 (addr6 s)) (sin6_mask (mask6 prefix)))]);
          match gateway6_str cfg with
          | Some gw => ask_all [Rib_add6 RTF_GATEWAY (sin6 (replicate 16 0)) (sin6 (addr6 gw)) (sin6 (replicate 16 0))]
          | None => mret ()
          end
      | None => mret ()
      end;
  _ ← match valid inet_pton6 (vip_addr6_array cfg) (c_nb_vip6 cfg) with
      | [] => mret ()
      | vs => with_socket AF_INET6 (fun so => (fun v => Siocaifaddr_in6 so (AliasReq6 vname (sin6 v) (sin6_mask (mask6 (vprefix cfg))))) <$> vs)
      end;
  mret ().

(** ** Lemmas *)

Lemma prefix_mask_spec n : 0 <= n <= 128 -> prefix_mask n = Ok (mask6 n).
Proof.
  intros Hn. assert (forallb (fun n => match prefix_mask n with Ok m => bool_decide (m = mask6 n) | _ => false end) (seqZ 0 129) = true)
    as E by by vm_compute.
  rewrite forallb_forall in E. specialize (E n). rewrite <- list_elem_of_In, elem_of_seqZ in E. specialize (E ltac:(lia)).
  destruct (prefix_mask n); [|done..]. by apply bool_decide_eq_true in E as ->.
Qed.

(** Bit [j] of the byte [i], from the left, is one of the first [n] bits. *)
Lemma mask_byte_bits n i j : 0 <= n -> 0 <= i -> 0 <= j < 8 -> Z.testbit (mask_byte n i) (7 - j) = (8 * i + j <? n).
Proof.
  intros Hn Hi Hj. unfold mask_byte. set (k := Z.max 0 (Z.min 8 (n - 8 * i))).
  assert ((8 * i + j <? n) = (j <? k)) as -> by (apply eq_iff_eq_true; rewrite !Z.ltb_lt; lia).
  assert (0 <= k <= 8) as Hk by lia. clearbody k. clear - Hk Hj.
  assert (forallb (fun k => forallb (fun j => Bool.eqb (Z.testbit (256 - 2 ^ (8 - k)) (7 - j)) (j <? k)) (seqZ 0 8)) (seqZ 0 9) = true) as E by by vm_compute.
  rewrite forallb_forall in E. specialize (E k). rewrite <- list_elem_of_In, elem_of_seqZ in E. specialize (E ltac:(lia)).
  rewrite forallb_forall in E. specialize (E j). rewrite <- list_elem_of_In, elem_of_seqZ in E. specialize (E ltac:(lia)).
  by apply Bool.eqb_prop in E.
Qed.

Lemma lor_last_255 v : 0 <= v < 2 ^ 32 -> Z.lor v 0xFF000000 = last_255 v.
Proof.
  intros Hv. unfold last_255. rewrite <- (Z.land_ones v 24), <- (Z.shiftl_mul_pow2 255 24) by done.
  assert (Z.land (Z.land v (Z.ones 24)) (Z.shiftl 255 24) = 0) as E.
  { apply Z.bits_inj'. intros n Hn. rewrite !Z.land_spec, Z.shiftl_spec, Z.testbit_0_l by done.
    destruct (Z.lt_ge_cases n 24); [rewrite (Z.testbit_neg_r 255) by lia|rewrite Z.ones_spec_high by lia]; by rewrite ?andb_false_r. }
  rewrite Z.add_nocarry_lxor, Z.lxor_lor by done. change 0xFF000000 with (Z.shiftl 255 24).
  apply Z.bits_inj'. intros n Hn. rewrite !Z.lor_spec, Z.land_spec, Z.shiftl_spec by done.
  destruct (Z.lt_ge_cases n 24); [by rewrite Z.ones_spec_low, andb_true_r by lia|].
  rewrite Z.ones_spec_high, andb_false_r by lia. destruct (Z.lt_ge_cases n 32).
  - assert (Z.testbit 255 (n - 24) = true) as -> by (change 255 with (Z.ones 8); apply Z.ones_spec_low; lia). by rewrite orb_true_r.
  - rewrite (Z.bits_above_log2 v); [done|lia|].
    destruct (decide (v = 0)) as [->|]; [cbn; lia|]. apply Z.log2_lt_pow2; [lia|]. pose proof (Z.pow_le_mono_r 2 32 n). lia.
Qed.

(** The documented behaviour of [inet_pton]: the value is not zero exactly if an address is
    stored, which is a word. *)
Class InetPtonDoc : Prop := {
  doc_inet4 s : (inet_pton4 s).1 <> 0 <-> is_Some (inet_pton4 s).2;
  doc_inet6 s : (inet_pton6 s).1 <> 0 <-> is_Some (inet_pton6 s).2;
  doc_word s v : (inet_pton4 s).2 = Some v -> 0 <= v < 2 ^ 32 }.
Context `{InetPtonDoc}.

Lemma vip_loop_spec {A} (inet_pton : string -> Z * option A) array : forall (l : list A) j n,
  (forall s, (inet_pton s).1 <> 0 <-> is_Some (inet_pton s).2) -> (n <= length array)%nat ->
  let vs := omap (fun s => (inet_pton s).2) (take n array) in
  (j + length vs <= length l)%nat ->
  vip_loop inet_pton array l j n = Ok ((j + length vs)%nat, take j l ++ vs ++ drop (j + length vs) l).
Proof.
  induction array as [|s array IH]; intros l j [|n] Hd Hn vs Hl; subst vs; cbn in Hn;
    try (cbn [vip_loop take omap list_omap length]; rewrite Nat.add_0_r; cbn; by rewrite take_drop); [lia|].
  cbn [vip_loop take omap list_omap] in *. specialize (Hd s) as Hs. destruct (inet_pton s) as [r [v|]]; cbn [fst snd length] in *.
  - assert (r <> 0) as Hr by (apply Hs; by eexists). rewrite (proj2 (Nat.ltb_lt j _)) by lia. cbn [mbind outcome_bind].
    rewrite (proj2 (Z.eqb_neq r 0)) by done. cbn [negb].
    rewrite IH; [|done|lia|by rewrite length_insert; lia]. f_equal. f_equal; [lia|].
    rewrite drop_insert_lt by lia. replace (S j + _)%nat with (j + S (length (omap (fun s => (inet_pton s).2) (take n array))))%nat by lia.
    rewrite (take_S_r _ _ v) by (by rewrite list_lookup_insert_eq by lia).
    rewrite take_insert_ge by lia. by rewrite <- (assoc_L (++)).
  - assert (r = 0) as -> by (destruct (decide (r = 0)); [done|]; by destruct (proj1 Hs ltac:(done))).
    cbn [mbind outcome_bind Z.eqb negb]. by rewrite IH by (done || lia).
Qed.

(** A configuration that the arrays of the [softc] hold and whose prefix is one of IPv6. *)
Definition fits (cfg : if_cfg) : Prop :=
  (Z.to_nat (c_nb_vip cfg) <= length (vip_addr_array cfg))%nat /\
  (length (valid inet_pton4 (vip_addr_array cfg) (c_nb_vip cfg)) <= VIP_MAX_NUM)%nat /\
  (Z.to_nat (c_nb_vip6 cfg) <= length (vip_addr6_array cfg))%nat /\
  (length (valid inet_pton6 (vip_addr6_array cfg) (c_nb_vip6 cfg)) <= VIP_MAX_NUM)%nat /\
  0 <= c_prefix_len cfg <= 128.

Lemma vips_spec {A} (inet_pton : string -> Z * option A) array n (x : A) :
  (forall s, (inet_pton s).1 <> 0 <-> is_Some (inet_pton s).2) -> (Z.to_nat n <= length array)%nat ->
  (length (valid inet_pton array n) <= VIP_MAX_NUM)%nat ->
  (if negb (n =? 0) then
     '(j, l) ← vip_loop inet_pton array (replicate VIP_MAX_NUM x) 0 (Z.to_nat n); Ok (u8 (Z.of_nat j), l)
   else Ok (0, replicate VIP_MAX_NUM x)) =
  Ok (Z.of_nat (length (valid inet_pton array n)), valid inet_pton array n ++ replicate (VIP_MAX_NUM - length (valid inet_pton array n)) x).
Proof.
  intros Hd Hn Hl. destruct (Z.eqb_spec n 0) as [->|Hne]; [done|]. cbn [negb].
  rewrite vip_loop_spec by (done || by rewrite length_replicate). cbn [mbind outcome_bind take]. fold (valid inet_pton array n).
  rewrite drop_replicate, Nat.add_0_l. unfold VIP_MAX_NUM in Hl. do 2 f_equal. unfold uwrap. apply Z.mod_small. lia.
Qed.

Lemma prefix_mask_of cfg : fits cfg -> prefix_mask (prefix_of cfg) = Ok (mask6 (prefix_of cfg)).
Proof.
  intros (_ & _ & _ & _ & Hp). apply prefix_mask_spec. unfold prefix_of, default_prefix. destruct (addr6_str cfg); split_ifs; lia.
Qed.

Lemma config_spec name cfg : fits cfg ->
  exists sc, lazybsd_veth_config (softc0 name) cfg = Ok sc /\ mac sc = c_mac cfg /\ host_ifname sc = name /\
    ip sc = addr4 (c_addr cfg) /\ netmask sc = addr4 (c_netmask cfg) /\ broadcast sc = addr4 (c_broadcast cfg) /\
    gateway sc = addr4 (c_gateway cfg) /\
    nb_vip sc = Z.of_nat (length (valid inet_pton4 (vip_addr_array cfg) (c_nb_vip cfg))) /\
    (exists l, vip sc = valid inet_pton4 (vip_addr_array cfg) (c_nb_vip cfg) ++ l) /\
    (forall s, addr6_str cfg = Some s -> ip6 sc = addr6 s) /\
    (forall s s6, addr6_str cfg = Some s6 -> gateway6_str cfg = Some s -> gateway6 sc = addr6 s) /\
    prefix_length sc = prefix_of cfg /\
    nb_vip6 sc = Z.of_nat (length (valid inet_pton6 (vip_addr6_array cfg) (c_nb_vip6 cfg))) /\
    (exists l, vip6 sc = valid inet_pton6 (vip_addr6_array cfg) (c_nb_vip6 cfg) ++ l).
Proof.
  intros (F1 & F2 & F3 & F4 & F5).
  pose proof (vips_spec inet_pton4 _ _ 0 doc_inet4 F1 F2) as V4.
  pose proof (vips_spec inet_pton6 _ _ (replicate 16 0) doc_inet6 F3 F4) as V6.
  unfold lazybsd_veth_config. cbn [nb_vip vip softc0]. rewrite V4. cbn [mbind outcome_bind]. unfold prefix_of, default_prefix.
  destruct (addr6_str cfg) as [s|]; cbn [nb_vip6 vip6 softc0].
  all: destruct (negb (c_nb_vip6 cfg =? 0)); [destruct (vip_loop inet_pton6 _ _ _ _) as [[j l]| |]; try discriminate V6; cbn [mbind outcome_bind] in *|];
    injection V6 as E1 E2.
  all: eexists; split; [reflexivity|]; cbn [mac host_ifname ip netmask broadcast gateway nb_vip vip ip6 gateway6 prefix_length nb_vip6 vip6].
  all: split_and!; try done; try (by rewrite E1); try (eexists; exact E2).
  all: first [by eexists|by intros; simplify_eq; repeat case_match; simplify_eq].
Qed.

(** ** The same requests *)
Definition same_requests {A} (m : IO A) (m' : IO unit) : Prop := forall l, exists a l', m l = Ok (a, l') /\ m' l = Ok ((), l').

Lemma same_bind {A B} (m : IO A) m' (k : A -> IO B) k' :
  same_requests m m' -> (forall a, same_requests (k a) k') -> same_requests (x ← m; k x) (_ ← m'; k').
Proof.
  intros Hm Hk l. destruct (Hm l) as (a & l' & E & E'). unfold mbind, IO_bind. rewrite E, E'. apply Hk.
Qed.
Lemma same_ret {A} (a : A) : same_requests (mret a) (mret ()).
Proof. intros l. by exists a, l. Qed.
Lemma same_ask r : same_requests (ask r) (ask_all [r]).
Proof. intros l. by eexists _, _. Qed.

(** One request on a socket. *)
Lemma same_on_socket domain f :
  same_requests (so ← ask (Socreate domain); ret ← ask (f so); _ ← ask (Sofree so); mret ret) (with_socket domain (fun so => [f so])).
Proof. intros l. by eexists _, _. Qed.

(** The error numbers of [ifioctl] are not negative. *)
Context (doc_ifioctl : forall l so r, 0 <= answer l (Siocaifaddr so r)) (doc_ifioctl6 : forall l so r, 0 <= answer l (Siocaifaddr_in6 so r)).

Lemma same_vaddr so name vs : forall ret, Forall (fun v => 0 <= v < 2 ^ 32) vs ->
  same_requests (vaddr_loop so name vs ret)
    (ask_all ((fun v => Siocaifaddr so (AliasReq name (sin v) (sin (last_255 v)) (sin host_mask))) <$> vs)).
Proof.
  induction vs as [|v vs IH]; intros ret Hvs; [apply same_ret|]. apply Forall_cons in Hvs as [Hv Hvs].
  cbn [vaddr_loop fmap list_fmap ask_all]. rewrite lor_last_255 by done. intros l.
  unfold mbind, IO_bind, ask. rewrite (proj2 (Z.ltb_ge _ 0)) by apply doc_ifioctl. apply IH, Hvs.
Qed.

Lemma same_vaddr6 so name mask vs : forall ret,
  same_requests (vaddr6_loop so name mask vs ret) (ask_all ((fun v => Siocaifaddr_in6 so (AliasReq6 name (sin6 v) (sin6_mask mask))) <$> vs)).
Proof.
  induction vs as [|v vs IH]; intros ret; [apply same_ret|].
  cbn [vaddr6_loop fmap list_fmap ask_all]. intros l.
  unfold mbind, IO_bind, ask. rewrite (proj2 (Z.ltb_ge _ 0)) by apply doc_ifioctl6. apply IH.
Qed.

Lemma same_with_socket domain (k : Z -> IO Z) f :
  (forall so, same_requests (k so) (ask_all (f so))) ->
  same_requests (so ← ask (Socreate domain); ret ← k so; _ ← ask (Sofree so); mret ret) (with_socket domain f).
Proof.
  intros Hk l. unfold with_socket, mbind, IO_bind, ask at 1 3.
  destruct (Hk (answer l (Socreate domain)) (l ++ [Socreate domain])) as (a & l' & -> & ->). by eexists _, _.
Qed.

Lemma valid_words array n : Forall (fun v => 0 <= v < 2 ^ 32) (valid inet_pton4 array n).
Proof. apply Forall_forall. intros v (s & _ & Hs)%list_elem_of_omap. by eapply doc_word. Qed.

Lemma length_prefix n s : (String.length (String.substring 0 n s) <= n)%nat.
Proof. revert n. induction s as [|c s IH]; intros [|n]; cbn; try lia. specialize (IH n). lia. Qed.

Lemma same_addresses indet sc ifp cfg : fits cfg -> lazybsd_veth_config (softc0 (name_of cfg)) cfg = Ok sc ->
  if_dname ifp = name_of cfg -> same_requests (set_addresses indet sc ifp cfg) (addresses_spec prefix_of cfg).
Proof.
  intros Hf Hc Hname. destruct (config_spec (name_of cfg) cfg Hf) as (sc' & Hc' & _ & _ & I & N & B & G & V & (lv & Lv) & I6 & G6 & P6 & V6 & (lv6 & Lv6)).
  rewrite Hc in Hc'. injection Hc' as <-.
  assert (String.length (name_of cfg) <? IFNAMSIZ = true)%nat as Hn.
  { apply Nat.ltb_lt, Nat.lt_succ_r. apply length_prefix. }
  assert (strcpy_name (if_dname ifp) = Ok (name_of cfg)) as Hs by (unfold strcpy_name; by rewrite Hname, Hn).
  unfold set_addresses, addresses_spec. apply same_bind; [|intros _; apply same_bind; [|intros _; apply same_bind; [|intros _; apply same_bind; [|intros _; apply same_bind; [|intros _; apply same_ret]]]]].
  - unfold lazybsd_veth_setaddr. rewrite Hs, I, N, B. intros l. by eexists _, _.
  - unfold lazybsd_veth_set_gateway. rewrite G. apply same_ask.
  - rewrite V. destruct (valid inet_pton4 _ _) as [|v vs] eqn:E; [apply same_ret|]. rewrite <- E in *.
    replace (negb _) with true by (rewrite E; done). unfold lazybsd_veth_setvaddr, vip_name. rewrite V, Lv, Hname, Nat2Z.id.
    rewrite (proj2 (Nat.leb_le _ _)) by (rewrite length_app; lia). rewrite take_app_length.
    replace (match vip_ifname cfg with Some n => n | None => name_of cfg end) with (default (name_of cfg) (vip_ifname cfg)) by done.
    apply (same_with_socket AF_INET (fun so => vaddr_loop so _ _ indet)). intros so. apply same_vaddr, valid_words.
  - destruct (addr6_str cfg) as [s6|] eqn:E6; [|apply same_ret]. apply same_bind.
    + unfold lazybsd_veth_setaddr6. rewrite Hs, P6, (I6 s6) by done. rewrite prefix_mask_of by done. intros l. by eexists _, _.
    + intros _. destruct (gateway6_str cfg) as [gw|] eqn:Eg; [|apply same_ret].
      unfold lazybsd_veth_set_gateway6. rewrite (G6 gw s6) by done. apply same_ask.
  - rewrite V6. destruct (valid inet_pton6 _ _) as [|v vs] eqn:E; [apply same_ret|]. rewrite <- E in *.
    replace (negb _) with true by (rewrite E; done). unfold lazybsd_veth_setvaddr6, vip_name. rewrite P6, V6, Lv6, Hname, Nat2Z.id.
    rewrite prefix_mask_of by done. rewrite (proj2 (Nat.leb_le _ _)) by (rewrite length_app; lia). rewrite take_app_length.
    replace (match vip_ifname cfg with Some n => n | None => name_of cfg end) with (default (name_of cfg) (vip_ifname cfg)) by done.
    apply (same_with_socket AF_INET6 (fun so => vaddr6_loop so _ _ _ indet)). intros so. apply same_vaddr6.
Qed.

Definition attach_spec (vprefix : if_cfg -> Z) (cfg : if_cfg) : IO Z :=
  p ← ask Malloc;
  i ← ask If_alloc;
  _ ← ask_all [If_initname i (name_of cfg); Ether_ifattach i (c_mac cfg)];
  ctx ← ask Calloc;
  _ ← ask_all [Register (IfContext p i (c_port_id cfg) (c_features cfg))];
  _ ← addresses_spec vprefix cfg;
  mret ctx.

(** The stack keeps the name of an interface. *)
Context (doc_attach : forall ifp, if_dname (ether_ifattach ifp) = if_dname ifp).
Context (doc_malloc : forall l, answer l Malloc <> 0) (doc_if_alloc : forall l, answer l If_alloc <> 0).

Lemma set_capabilities_dname f ifp : if_dname (set_capabilities f ifp) = if_dname ifp.
Proof. by destruct f as [[] [] [] [] []]. Qed.

Lemma io_bind_ask {A} r (k : Z -> IO A) l : (x ← ask r; k x) l = k (answer l r) (l ++ [r]).
Proof. reflexivity. Qed.
Lemma io_bind_Ok {A B} (m : IO A) (k : A -> IO B) l a l' : m l = Ok (a, l') -> (x ← m; k x) l = k a l'.
Proof. intros E. unfold mbind, IO_bind. by rewrite E. Qed.

Lemma register_run sc ifp cfg l : answer l Calloc <> 0 ->
  lazybsd_dpdk_register_if sc ifp cfg l =
    Ok (answer l Calloc, (l ++ [Calloc]) ++ [Register (IfContext sc ifp (c_port_id cfg) (c_features cfg))]).
Proof.
  intros Hc. unfold lazybsd_dpdk_register_if. rewrite io_bind_ask. by rewrite (proj2 (Z.eqb_neq _ 0) Hc).
Qed.

Lemma attach_run indet cfg l : fits cfg -> (forall l, answer l Calloc <> 0) ->
  exists ctx ifp l', lazybsd_veth_attach indet cfg l = Ok ((ctx, Some ifp), l') /\ ctx <> 0 /\ attach_spec prefix_of cfg l = Ok (ctx, l').
Proof.
  intros Hf Hcalloc. destruct (config_spec (name_of cfg) cfg Hf) as (sc & Hc & Hm & Hn & _).
  unfold lazybsd_veth_attach, attach_spec. rewrite !io_bind_ask, (proj2 (Z.eqb_neq (answer l Malloc) 0)) by apply doc_malloc.
  rewrite (io_bind_Ok _ _ _ sc (l ++ [Malloc])) by (unfold pure; by rewrite Hc).
  unfold lazybsd_veth_setup_interface. set (l1 := l ++ [Malloc]). set (l2 := l1 ++ [If_alloc]).
  set (l4 := (l2 ++ [If_initname (answer l1 If_alloc) (name_of cfg)]) ++ [Ether_ifattach (answer l1 If_alloc) (c_mac cfg)]).
  set (l6 := (l4 ++ [Calloc]) ++ [Register (IfContext (answer l Malloc) (answer l1 If_alloc) (c_port_id cfg) (c_features cfg))]).
  set (ifp := set_capabilities (c_features cfg) (ether_ifattach
    (Ifnet (answer l Malloc) (host_ifname sc) (Z.lor IFF_BROADCAST (Z.lor IFF_SIMPLEX IFF_MULTICAST)) 0 0 0 0))).
  assert (if_dname ifp = name_of cfg) as Hd by (unfold ifp; by rewrite set_capabilities_dname, doc_attach).
  destruct (same_addresses indet sc ifp cfg Hf Hc Hd l6) as ([] & l' & E & E').
  exists (answer l4 Calloc), ifp, l'. split; [|split; [apply Hcalloc|]].
  - rewrite (io_bind_Ok _ _ _ (0, answer l4 Calloc, ifp) l'); [done|].
    rewrite io_bind_ask, (proj2 (Z.eqb_neq _ 0)) by apply doc_if_alloc. rewrite !io_bind_ask, Hn, Hm.
    rewrite (io_bind_Ok _ _ _ _ _ (register_run _ _ _ l4 (Hcalloc l4))), (proj2 (Z.eqb_neq _ 0)) by apply Hcalloc.
    by rewrite (io_bind_Ok _ _ _ _ _ E).
  - rewrite (io_bind_Ok _ _ _ () l4) by done. rewrite io_bind_ask, (io_bind_Ok _ _ _ () l6) by done. by rewrite (io_bind_Ok _ _ _ _ _ E').
Qed.

(** Without memory for the context nothing is configured; the state is freed, but the stack
    keeps the interface that points to it. *)
Lemma attach_without_memory indet cfg l : fits cfg -> (forall l, answer l Calloc = 0) ->
  let p := answer l Malloc in
  let i := answer (l ++ [Malloc]) If_alloc in
  lazybsd_veth_attach indet cfg l =
    Ok ((0, None), l ++ [Malloc; If_alloc; If_initname i (name_of cfg); Ether_ifattach i (c_mac cfg); Calloc; Free p]).
Proof.
  intros Hf Hcalloc p i. destruct (config_spec (name_of cfg) cfg Hf) as (sc & Hc & Hm & Hn & _).
  unfold lazybsd_veth_attach. rewrite io_bind_ask, (proj2 (Z.eqb_neq (answer l Malloc) 0)) by apply doc_malloc.
  rewrite (io_bind_Ok _ _ _ sc (l ++ [Malloc])) by (unfold pure; by rewrite Hc).
  unfold lazybsd_veth_setup_interface. unfold mbind at 1, IO_bind at 1.
  rewrite io_bind_ask, (proj2 (Z.eqb_neq _ 0)) by apply doc_if_alloc. rewrite !io_bind_ask, Hn, Hm.
  unfold lazybsd_dpdk_register_if. unfold mbind at 1, IO_bind at 1. rewrite io_bind_ask, Hcalloc.
  cbn [Z.eqb mret IO_ret negb]. rewrite io_bind_ask. unfold mret, IO_ret, p, i. by rewrite <- !(assoc_L (++)).
Qed.

(** Each port of a list in turn. *)
Fixpoint attach_all (vprefix : if_cfg -> Z) (cfg_of : Z -> if_cfg) (ports : list Z) (ctxs : gmap Z Z) : IO (gmap Z Z) :=
  match ports with
  | [] => mret ctxs
  | p :: ports => ctx ← attach_spec vprefix (cfg_of p); attach_all vprefix cfg_of ports (<[p := ctx]> ctxs)
  end.

(** The two prefixes of the virtual IPv6 addresses make no difference. *)
Definition same_vprefix (cfg : if_cfg) : Prop :=
  prefix_of cfg = vip_prefix_of cfg \/ valid inet_pton6 (vip_addr6_array cfg) (c_nb_vip6 cfg) = [].

Lemma attach_same_vprefix cfg : same_vprefix cfg -> attach_spec prefix_of cfg = attach_spec vip_prefix_of cfg.
Proof.
  intros Hs. unfold attach_spec, addresses_spec. by destruct Hs as [-> | ->].
Qed.

Lemma attach_all_same_vprefix cfg_of ports ctxs l : (forall p, p ∈ ports -> same_vprefix (cfg_of p)) ->
  attach_all prefix_of cfg_of ports ctxs l = attach_all vip_prefix_of cfg_of ports ctxs l.
Proof.
  revert ctxs l. induction ports as [|p ports IH]; intros ctxs l Hp; [done|]. cbn [attach_all].
  rewrite attach_same_vprefix by (apply Hp; set_solver). unfold mbind, IO_bind.
  destruct (attach_spec vip_prefix_of (cfg_of p) l) as [[ctx l']| |]; [|done..]. apply IH. intros q Hq. apply Hp. set_solver.
Qed.

End Setup.

(** ** What the stack leaves to the NIC *)
Section Capabilities.
Context `{IfFlags} `{EthFlags} (g : global).

Lemma caps_bits f ifp n : let ifp' := set_capabilities f ifp in
  (Z.testbit (if_capabilities ifp') n = Z.testbit (if_capabilities ifp) n || rx_csum f && Z.testbit IFCAP_RXCSUM n ||
     tx_csum_ip f && Z.testbit IFCAP_TXCSUM n || tx_tso f && Z.testbit IFCAP_TSO n) /\
  (Z.testbit (if_hwassist ifp') n = Z.testbit (if_hwassist ifp) n || tx_csum_ip f && Z.testbit CSUM_IP n ||
     tx_csum_l4 f && Z.testbit CSUM_DELAY_DATA n || tx_tso f && Z.testbit CSUM_TSO n).
Proof.
  destruct f as [[] lro [] [] []]; cbn -[Z.lor]; rewrite ?Z.lor_spec, ?Z.testbit_0_l; split; rewrite ?orb_false_r; done.
Qed.

(** The stack leaves no work to a NIC that does not do it.  With the features that the start
    of the port has negotiated, each bit of the work that the interface says the NIC takes over
    is work for which the port was configured with the offload, and each of its capabilities
    one of them. *)
Theorem capabilities_negotiated i rx f1 tx f2 ifp : 
  Forall single [RX_VLAN_STRIP; RX_IPV4_CKSUM; RX_UDP_CKSUM; RX_TCP_CKSUM;
    TX_MBUF_FAST_FREE; TX_IPV4_CKSUM; TX_UDP_CKSUM; TX_TCP_CKSUM; TX_TCP_TSO] ->
  negotiate_rx g i (HwFeatures false false false false false) = (rx, f1) -> negotiate_tx g i f1 = (tx, f2) ->
  if_capabilities ifp = 0 -> if_hwassist ifp = 0 ->
  let ifp' := set_capabilities f2 ifp in
  (forall n, Z.testbit (if_hwassist ifp') n = true ->
     Z.testbit CSUM_IP n = true /\ subset TX_IPV4_CKSUM tx \/
     Z.testbit CSUM_DELAY_DATA n = true /\ subset (Z.lor TX_UDP_CKSUM TX_TCP_CKSUM) tx \/
     Z.testbit CSUM_TSO n = true /\ subset TX_TCP_TSO tx) /\
  (forall n, Z.testbit (if_capabilities ifp') n = true ->
     Z.testbit IFCAP_RXCSUM n = true /\ subset RX_CHECKSUM rx \/
     Z.testbit IFCAP_TXCSUM n = true /\ subset TX_IPV4_CKSUM tx \/
     Z.testbit IFCAP_TSO n = true /\ subset TX_TCP_TSO tx) /\
  if_capenable ifp' = if_capabilities ifp'.
Proof.
  intros Hdoc E1 E2 Hc Hh ifp'. destruct (offloads_supported g Hdoc i f1 f2 rx tx E1 E2) as (_ & _ & _ & R & I & L & T & _).
  split_and!; [intros n Hn|intros n Hn|done]; destruct (caps_bits f2 ifp n) as [Bc Bh]; fold ifp' in Bc, Bh.
  - rewrite Bh, Hh, Z.testbit_0_l, !orb_true_iff, !andb_true_iff in Hn. naive_solver.
  - rewrite Bc, Hc, Z.testbit_0_l, !orb_true_iff, !andb_true_iff in Hn. naive_solver.
Qed.
End Capabilities.

(** ** Up and running *)
Section Running.
Context `{IfFlags} (ether_ioctl : ifnet -> Z -> Z -> Z * ifnet).

Definition has_flag (v f : Z) : bool := negb (Z.land v f =? 0).
Definition running_iff_up (ifp : ifnet) : Prop := has_flag (if_drv_flags ifp) IFF_DRV_RUNNING = has_flag (if_flags ifp) IFF_UP.

(** The stack changes the flags of the interface and tells it, or makes another request. *)
Inductive if_op := SetFlags (flags data : Z) | OtherIoctl (cmd data : Z).
Definition if_step (o : if_op) (ifp : ifnet) : ifnet :=
  match o with
  | SetFlags flags data =>
      (lazybsd_veth_ioctl ether_ioctl (Ifnet (if_softc ifp) (if_dname ifp) flags (if_drv_flags ifp) (if_capabilities ifp) (if_capenable ifp) (if_hwassist ifp))
        SIOCSIFFLAGS data).2
  | OtherIoctl cmd data => if cmd =? SIOCSIFFLAGS then ifp else (lazybsd_veth_ioctl ether_ioctl ifp cmd data).2
  end.

(** The headers: the flags are single bits and the two of the driver differ.  [ether_ioctl]
    leaves the flags alone, or brings the interface up and calls [if_init]. *)
Context (up_bit : single IFF_UP) (running_bit : single IFF_DRV_RUNNING) (oactive_bit : single IFF_DRV_OACTIVE)
  (bits_differ : IFF_DRV_RUNNING <> IFF_DRV_OACTIVE).
Context (doc_ether_ioctl : forall ifp cmd data, let ifp' := (ether_ioctl ifp cmd data).2 in
  if_flags ifp' = if_flags ifp /\ if_drv_flags ifp' = if_drv_flags ifp \/
  if_flags ifp' = Z.lor (if_flags ifp) IFF_UP /\ if_drv_flags ifp' = if_drv_flags (lazybsd_veth_init ifp)).

Lemma has_flag_single v f : single f -> exists n, 0 <= n /\ f = 2 ^ n /\ has_flag v f = Z.testbit v n.
Proof.
  intros (n & Hn & ->). exists n. do 2 (split; [done|]). apply eq_true_iff_eq. unfold has_flag.
  rewrite negb_true_iff, Z.eqb_neq. split.
  - intros Hne. destruct (Z.testbit v n) eqn:E; [done|]. destruct Hne. apply Z.bits_inj'. intros k Hk.
    rewrite Z.land_spec, Z.pow2_bits_eqb, Z.testbit_0_l by done. destruct (Z.eqb_spec n k) as [->|]; [by rewrite E|by rewrite andb_false_r].
  - intros E H0'. assert (Z.testbit (Z.land v (2 ^ n)) n = true) as E' by (rewrite Z.land_spec, E, Z.pow2_bits_eqb, Z.eqb_refl by done; done).
    by rewrite H0', Z.testbit_0_l in E'.
Qed.

Lemma init_running ifp : has_flag (if_drv_flags (lazybsd_veth_init ifp)) IFF_DRV_RUNNING = true.
Proof.
  destruct (has_flag_single (if_drv_flags (lazybsd_veth_init ifp)) _ running_bit) as (n & Hn & E & ->).
  destruct oactive_bit as (m & Hm & Eo). cbn. rewrite Z.land_spec, Z.lor_spec, Z.lnot_spec, E, Eo, !Z.pow2_bits_eqb, Z.eqb_refl by done.
  rewrite orb_true_r. destruct (Z.eqb_spec m n) as [->|]; [congruence|done].
Qed.

Lemma stop_not_running ifp : has_flag (if_drv_flags (lazybsd_veth_stop ifp)) IFF_DRV_RUNNING = false.
Proof.
  destruct (has_flag_single (if_drv_flags (lazybsd_veth_stop ifp)) _ running_bit) as (n & Hn & E & ->).
  cbn. rewrite Z.land_spec, Z.lnot_spec, Z.lor_spec, E, Z.pow2_bits_eqb, Z.eqb_refl by done. apply andb_false_r.
Qed.

(** An interface is running exactly while it is up, however its flags are changed and
    whatever else is asked of it. *)
Theorem running_while_up ops ifp : running_iff_up ifp -> running_iff_up (foldl (fun i o => if_step o i) ifp ops).
Proof.
  revert ifp. induction ops as [|o ops IH]; intros ifp Hr; [done|]. cbn [foldl]. apply IH. clear IH ops.
  assert (forall ifp data, running_iff_up (lazybsd_veth_ioctl ether_ioctl ifp SIOCSIFFLAGS data).2) as Hflags.
  { intros i data. unfold lazybsd_veth_ioctl. rewrite Z.eqb_refl. cbn [snd]. fold (has_flag (if_flags i) IFF_UP).
    fold (has_flag (if_drv_flags i) IFF_DRV_RUNNING). unfold running_iff_up.
    destruct (has_flag (if_flags i) IFF_UP) eqn:Eu; [rewrite init_running; exact (eq_sym Eu)|].
    destruct (has_flag (if_drv_flags i) _) eqn:Er; [rewrite stop_not_running; exact (eq_sym Eu)|congruence]. }
  destruct o as [flags data|cmd data]; cbn [if_step]; [apply Hflags|].
  destruct (Z.eqb_spec cmd SIOCSIFFLAGS) as [->|Hne]; [done|]. unfold lazybsd_veth_ioctl. rewrite (proj2 (Z.eqb_neq _ _) Hne).
  unfold running_iff_up in *. destruct (doc_ether_ioctl ifp cmd data) as [[-> ->]|[-> ->]]; [done|]. rewrite init_running.
  destruct (has_flag_single (Z.lor (if_flags ifp) IFF_UP) _ up_bit) as (n & Hn & E & ->).
  by rewrite Z.lor_spec, E, Z.pow2_bits_eqb, Z.eqb_refl, orb_true_r by done.
Qed.
End Running.

(** ** Examples: the flags of FreeBSD and two ports. *)
#[local] Instance example_if_flags : IfFlags := {
  IFF_UP := 1; IFF_BROADCAST := 2; IFF_SIMPLEX := 0x800; IFF_MULTICAST := 0x8000; IFF_DRV_RUNNING := 0x40; IFF_DRV_OACTIVE := 0x400;
  IFCAP_RXCSUM := 1; IFCAP_TXCSUM := 2; IFCAP_TSO := 0x300; CSUM_IP := 1; CSUM_DELAY_DATA := 6; CSUM_TSO := 0x10;
  RTF_GATEWAY := 2; AF_INET := 2; AF_INET6 := 28; SIOCSIFFLAGS := 0x80206910 }.

(** Some addresses: 192.168.1.2, its neighbours, 10.0.0.7 and fd00::2. *)
Definition example_addresses : list (string * Z) :=
  [("192.168.1.2"%string, 0x0201a8c0); ("192.168.1.255"%string, 0xff01a8c0); ("255.255.255.0"%string, 0xffffff);
   ("192.168.1.1"%string, 0x0101a8c0); ("10.0.0.7"%string, 0x0700000a)].
#[local] Instance example_inet : InetPton := {
  inet_pton4 s := match list_find (fun x => x.1 = s) example_addresses with Some (_, x) => (1, Some x.2) | None => (0, None) end;
  inet_pton6 s := if decide (s = "fd00::2"%string) then (1, Some (0xfd :: replicate 14 0 ++ [2])) else (0, None) }.

#[local] Instance example_inet_doc : InetPtonDoc.
Proof.
  split; intros s; cbn [inet_pton4 inet_pton6 example_inet].
  - destruct (list_find _ _) as [[i x]|]; cbn; (split; [|by intros [? ?]]); intros Hne; first [done|by eexists].
  - case_decide; cbn; (split; [|by intros [? ?]]); intros Hne; first [done|by eexists].
  - intros v. destruct (list_find _ _) as [[i x]|] eqn:E; cbn; [|done]. intros [= <-].
    apply list_find_Some in E as (Hx & _). apply list_elem_of_lookup_2 in Hx. unfold example_addresses in Hx.
    rewrite !elem_of_cons in Hx. destruct Hx as [->|[->|[->|[->|[->|[]%elem_of_nil]]]]]; done.
Qed.

Definition example_cfg (port_id : Z) : if_cfg :=
  IfCfg None port_id [2; 0; 0; 0; 0; port_id] (HwFeatures true false true true false)
    "192.168.1.2" "255.255.255.0" "192.168.1.255" "192.168.1.1"
    (Some "lo0") ["10.0.0.7"%string; "nonsense"%string] 2 (Some "fd00::2") None 61 [] 0 0.

Definition grant_if (l : list if_request) (r : if_request) : Z :=
  match r with Malloc | If_alloc | Calloc | Socreate _ => 1 + Z.of_nat (length l) | _ => 0 end.

Lemma example_fits p : fits (example_cfg p).
Proof. unfold fits. split_and!; try (apply Nat.leb_le; by vm_compute); cbn; lia. Qed.


Lemma capabilities_negotiated_witness :
  let '(rx, f1) := negotiate_rx (H := DpdkInit.example_flags) (example_global []) example_nic (HwFeatures false false false false false) in
  let '(tx, f2) := negotiate_tx (H := DpdkInit.example_flags) (example_global []) example_nic f1 in
  let ifp := set_capabilities f2 (Ifnet 0 "" 0 0 0 0 0) in
  if_hwassist ifp = 23 /\ if_capabilities ifp = 0x303 /\ if_capenable ifp = if_capabilities ifp.
Proof.
  destruct (negotiate_rx _ _ _) as [rx f1] eqn:E1. destruct (negotiate_tx _ _ _) as [tx f2] eqn:E2.
  destruct (capabilities_negotiated (H0 := DpdkInit.example_flags) (example_global []) example_nic rx f1 tx f2 (Ifnet 0 "" 0 0 0 0 0) ltac:(
    rewrite !Forall_cons; split_and!; [eexists 0|eexists 1|eexists 2|eexists 3|eexists 16|eexists 1|eexists 2|eexists 3|eexists 5|by apply Forall_nil]; by split)
    E1 E2 eq_refl eq_refl) as (_ & _ & Ee).
  split; [|split; [|exact Ee]]; vm_compute in E1; injection E1 as <- <-; vm_compute in E2; by injection E2 as <- <-.
Defined.

(** An address brings the interface up. *)
Definition example_ether_ioctl (ifp : ifnet) (cmd data : Z) : Z * ifnet :=
  if cmd =? 0x8020690c then
    (0, lazybsd_veth_init (Ifnet (if_softc ifp) (if_dname ifp) (Z.lor (if_flags ifp) IFF_UP) (if_drv_flags ifp) (if_capabilities ifp) (if_capenable ifp) (if_hwassist ifp)))
  else (22, ifp).

Lemma running_while_up_witness :
  let ifp := foldl (fun i o => if_step example_ether_ioctl o i) (Ifnet 0 "" 0x8802 0 0 0 0)
    [OtherIoctl 0x8020690c 0; SetFlags 0x8802 0; SetFlags 0x8803 0] in
  running_iff_up ifp /\ has_flag (if_drv_flags ifp) IFF_DRV_RUNNING = true.
Proof.
  split; [|by vm_compute].
  apply (running_while_up example_ether_ioctl); [by exists 0|by exists 6|by exists 10|done| |by vm_compute].
  intros ifp cmd data. unfold example_ether_ioctl. destruct (cmd =? 0x8020690c); [right|left]; by split.
Defined.

(** [lazybsd_veth_setvaddr6] with the prefix of the other address: without one the mask is empty,
    whatever [vip_prefix_length] is. *)
Example vaddr6_without_prefix :
  let cfg := IfCfg None 0 [] (HwFeatures false false false false false) "" "" "" "" None [] 0 None None 0 ["fd00::2"%string] 1 48 in
  match lazybsd_veth_attach grant_if (fun i => i) 0 cfg [] with
  | Ok (_, log) => existsb (fun r => match r with Siocaifaddr_in6 _ r => bool_decide (sin6_addr (ifra6_prefixmask r) = replicate 16 0)
      | _ => false end) log = true
  | _ => False
  end.
Proof. by vm_compute. Qed.

(** More than [VIP_MAX_NUM] virtual addresses are written behind the end of [sc->vip]. *)
Example too_many_vips :
  lazybsd_veth_attach grant_if (fun i => i) 0 (IfCfg None 0 [] (HwFeatures false false false false false) "" "" "" "" None
    (replicate 65 "10.0.0.7"%string) 65 None None 0 [] 0 0) [] = Panic.
Proof. by vm_compute. Qed.
