(* ===== verification/Boot.v ===== *)
(** * Boot: the start of the kernel, [bsd/lib/lazybsd_freebsd.c] and [bsd/lib/lazybsd_main.c]

    [lazybsd_freebsd_init] puts the configuration into the environment of the kernel, where the
    tasks of [mi_startup] ([SysInit]) look for it, gives the allocator its first pages and its
    table ([Kmem], [Uma]), runs [mi_startup], and then sets the variables of sysctl and the address of
    the loopback interface.  [proc0_init] is the task that makes the process and the thread that
    the stack runs as.

    What the kernel is asked for is a log of requests; its answers may depend on those before. *)
From stdpp Require Import strings pretty.
From S2P Require Import Prelude KernSubr Pages Kmem Env Limits DpdkInit Veth Uma.

(** [struct lazybsd_freebsd_cfg], and the part [freebsd] of the configuration. *)
Record fbsd_cfg := FbsdCfg { c_name : cstr; c_str : cstr; c_value : Z; c_vlen : Z }.
Record freebsd_cfg := FreebsdCfg { hz : Z; boot_list : list fbsd_cfg; sysctl_list : list fbsd_cfg; c_physmem : Z; fd_reserve : Z }.

(** What the kernel is asked for; [mi_startup] sees the environment and [physmem]. *)
Inductive request :=
| Pcpu_init (pcpu : Z) | Uma_startup1 (mem : Z) | Uma_startup2 | Mutex_init
| Mi_startup (env : hostenv) (physmem : Z) | Sx_init | Fdused_range (n : Z)
| Kernel_sysctlbyname (name : cstr) (value vlen : Z)
| Socreate (domain : Z) | Ifioctl (so : Z) (req : aliasreq) | Sofree (so : Z).

(** The variables: [pcurthread], [pcpup], [all_cpus], [physmem], and those of the table of pages. *)
Record vars := Vars {
  pcurthread : Z; pcpup : Z; all_cpus : Z; physmem : Z; page_slab_hash : Z; page_mask : Z }.
Record boot (H : Type) := Boot { env : hostenv; mm : kmem H; glob : vars; log : list request }.
Arguments Boot {H} _ _ _ _.
Arguments env {H} _.
Arguments mm {H} _.
Arguments glob {H} _.
Arguments log {H} _.

(** The kernel: the answer to a request, the socket [socreate] makes, the interfaces with their flags
    and names, and what the headers define. *)
Class BootKernel := {
  answer : list request -> request -> Z;
  new_socket : list request -> Z;
  V_ifnet : list request -> list (Z * string);
  IFF_LOOPBACK : Z; sizeof_pcpu : Z; thread0 : Z }.

Section Boot.
Context {H : Type} `{HostMemory H} `{HostFlags} `{Os} `{BootKernel} `{IfFlags} `{InetPton}.

Definition B (A : Type) : Type := boot H -> outcome (A * boot H).
#[local] Instance B_ret : MRet B := fun A a s => Ok (a, s).
#[local] Instance B_bind : MBind B := fun A X f m s =>
  match m s with Ok (a, s) => f a s | Panic => Panic | Diverge => Diverge end.

Definition ask (r : request) : B Z := fun s => Ok (answer (log s) r, Boot (env s) (mm s) (glob s) (log s ++ [r])).
Definition set_vars (f : vars -> vars) : B unit := fun s => Ok ((), Boot (env s) (mm s) (f (glob s)) (log s)).
Definition with_mm {A} (f : kmem H -> outcome (A * kmem H)) : B A := fun s =>
  match f (mm s) with Ok (a, m) => Ok (a, Boot (env s) m (glob s) (log s)) | Panic => Panic | Diverge => Diverge end.
Definition setenv (name value : cstr) : B Z := fun s =>
  let '(r, e) := kern_setenv (env s) name value in Ok (r, Boot e (mm s) (glob s) (log s)).

Definition stop {A} : B A := fun _ => Panic.

(** The bytes of a string. *)
Definition chars (s : string) : cstr := (fun a => Z.of_N (Ascii.N_of_ascii a)) <$> String.list_ascii_of_string s.
(** [snprintf(tmpbuf, sizeof(tmpbuf), "%u", n)] *)
Definition decimal (n : Z) : cstr := chars (pretty (Z.to_N (u32 n))).

(** ** [lazybsd_freebsd.c] *)

(** [CK_STAILQ_FOREACH] up to the first loopback interface. *)
Fixpoint find_loopback (l : list (Z * string)) : option string :=
  match l with
  | [] => None
  | (flags, xname) :: l => if negb (Z.land flags IFF_LOOPBACK =? 0) then Some xname else find_loopback l
  end.

Definition lo_set_defaultaddr : B Z := fun s =>
  match find_loopback (V_ifnet (log s)) with
  | None => Ok (-1, s)
  | Some xname =>
      (name ← (fun s => match strcpy_name xname with Ok n => Ok (n, s) | Panic => Panic | Diverge => Diverge end);
       let addr := default 0 (inet_pton4 "127.0.0.1").2 in
       let mask := default addr (inet_pton4 "255.0.0.0").2 in
       so ← (fun s => Ok (new_socket (log s), s));
       ret ← ask (Socreate AF_INET);
       if negb (ret =? 0) then mret ret else
       ret ← ask (Ifioctl so (AliasReq name (sin addr) (SockaddrIn 0 0 0) (sin mask)));
       _ ← ask (Sofree so);
       mret ret) s
  end.

Fixpoint boot_loop (cur : list fbsd_cfg) : B unit :=
  match cur with
  | [] => mret ()
  | c :: cur => _ ← setenv (c_name c) (c_str c); boot_loop cur
  end.

Fixpoint sysctl_loop (cur : list fbsd_cfg) : B unit :=
  match cur with
  | [] => mret ()
  | c :: cur => _ ← ask (Kernel_sysctlbyname (c_name c) (c_value c) (c_vlen c)); sysctl_loop cur
  end.

Definition boot_pages : Z := 16.
Definition sizeof_uma_page : Z := 40.

(** The messages for what fails are left out; a NULL [pcpup] is written through. *)
Definition lazybsd_freebsd_init (cfg : freebsd_cfg) : B Z :=
  error ← setenv (chars "kern.hz") (decimal (hz cfg));
  if negb (error =? 0) then stop else
  _ ← boot_loop (boot_list cfg);
  _ ← set_vars (fun v => Vars (pcurthread v) (pcpup v) (all_cpus v) (c_physmem cfg) (page_slab_hash v) (page_mask v));
  p ← with_mm (__malloc 1 sizeof_pcpu M_ZERO);
  _ ← set_vars (fun v => Vars (pcurthread v) p (all_cpus v) (physmem v) (page_slab_hash v) (page_mask v));
  if p =? 0 then stop else
  _ ← ask (Pcpu_init p);
  _ ← set_vars (fun v => Vars thread0 (pcpup v) (Z.lor (all_cpus v) 1) (physmem v) (page_slab_hash v) (page_mask v));
  bootmem ← with_mm (kmem_malloc (boot_pages * PAGE_SIZE) M_ZERO);
  _ ← ask (Uma_startup1 bootmem);
  _ ← ask Uma_startup2;
  hash ← with_mm (kmem_malloc (sizeof_uma_page * Z.of_nat num_hash_buckets) M_ZERO);
  _ ← set_vars (fun v => Vars (pcurthread v) (pcpup v) (all_cpus v) (physmem v) hash (i32 (Z.of_nat num_hash_buckets - 1)));
  _ ← ask Mutex_init;
  _ ← (fun s => ask (Mi_startup (env s) (physmem (glob s))) s);
  _ ← ask Sx_init;
  _ ← ask (Fdused_range (fd_reserve cfg));
  _ ← sysctl_loop (sysctl_list cfg);
  _ ← lo_set_defaultaddr;
  mret 0.

(** ** What the start does *)

Definition setting (e : hostenv) (c : fbsd_cfg) : hostenv := (kern_setenv e (c_name c) (c_str c)).2.
Definition sysctl_request (c : fbsd_cfg) : request := Kernel_sysctlbyname (c_name c) (c_value c) (c_vlen c).

(** The variables of the environment that can be set, and the last value the configuration has for one. *)
Definition settable (name : cstr) : bool := negb (bool_decide (name = []) || bool_decide (ch_eq ∈ name)).
Definition last_value (name : cstr) (l : list fbsd_cfg) : option cstr :=
  if settable name then c_str <$> last (filter (fun c => c_name c = name) l) else None.

(** The requests for the address of the loopback interface, when those in [l] were made. *)
Definition loopback_requests (l : list request) : list request :=
  match find_loopback (V_ifnet l) with
  | None => []
  | Some xname =>
      let addr := default 0 (inet_pton4 "127.0.0.1").2 in
      let mask := default addr (inet_pton4 "255.0.0.0").2 in
      Socreate AF_INET ::
      (if answer l (Socreate AF_INET) =? 0
       then [Ifioctl (new_socket l) (AliasReq xname (sin addr) (SockaddrIn 0 0 0) (sin mask)); Sofree (new_socket l)] else [])
  end.

Lemma boot_loop_run l : forall s, boot_loop l s = Ok ((), Boot (foldl setting (env s) l) (mm s) (glob s) (log s)).
Proof.
  induction l as [|c l IH]; intros s; [by destruct s|]. cbn [boot_loop]. unfold mbind, B_bind, setenv.
  assert (setting (env s) c = (kern_setenv (env s) (c_name c) (c_str c)).2) as Es by done.
  destruct (kern_setenv (env s) (c_name c) (c_str c)) as [r e]. rewrite IH. cbn [env mm glob log foldl]. by rewrite Es.
Qed.

Lemma sysctl_loop_run l : forall s, sysctl_loop l s = Ok ((), Boot (env s) (mm s) (glob s) (log s ++ (sysctl_request <$> l))).
Proof.
  induction l as [|c l IH]; intros s; [by destruct s; cbn; rewrite app_nil_r|]. cbn [sysctl_loop]. unfold mbind, B_bind, ask.
  rewrite IH. cbn [env mm glob log fmap list_fmap]. by rewrite <- (assoc_L (++)).
Qed.

Lemma lo_run s : (forall l xname, find_loopback (V_ifnet l) = Some xname -> (String.length xname < IFNAMSIZ)%nat) ->
  exists r, lo_set_defaultaddr s = Ok (r, Boot (env s) (mm s) (glob s) (log s ++ loopback_requests (log s))).
Proof.
  intros Hn. unfold lo_set_defaultaddr, loopback_requests. destruct (find_loopback (V_ifnet (log s))) as [x|] eqn:E.
  - unfold mbind, B_bind, strcpy_name. rewrite (proj2 (Nat.ltb_lt _ _) (Hn _ _ E)). unfold ask, mret, B_ret. cbn [env mm glob log].
    destruct (_ =? 0); cbn [negb]; eexists; cbn [env mm glob log]; rewrite <- ?(assoc_L (++)); reflexivity.
  - exists (-1). destruct s. cbn. by rewrite app_nil_r.
Qed.

Lemma setenv_lookup e c name : setting e c !! name =
  if decide (c_name c = name) then (if settable name then Some (c_str c) else e !! name) else e !! name.
Proof.
  unfold setting, kern_setenv, settable. case_decide as E.
  - rewrite E. destruct (_ || _); cbn [negb snd]; [done|apply lookup_insert_eq].
  - destruct (_ || _); cbn [snd]; [done|by apply lookup_insert_ne].
Qed.

Lemma settings_lookup l : forall e name,
  foldl setting e l !! name = match last_value name l with Some v => Some v | None => e !! name end.
Proof.
  unfold last_value. induction l as [|c l IH] using rev_ind; intros e name; [by destruct (settable name)|].
  rewrite foldl_snoc, setenv_lookup, IH, filter_app, filter_cons, filter_nil. case_decide as E.
  - rewrite last_snoc. by destruct (settable name).
  - by rewrite app_nil_r.
Qed.

Lemma pretty_no_nul n : forall s, no_nul (chars s) -> no_nul (chars (pretty_N_go n s)).
Proof.
  induction (N.lt_wf_0 n) as [n _ IH]. intros s Hs. destruct (decide (n = 0)%N) as [->|Hn]; [by rewrite pretty_N_go_0|].
  rewrite pretty_N_go_step by lia. apply IH; [apply N.div_lt; lia|]. unfold chars, no_nul in *. cbn. constructor; [|done].
  unfold pretty_N_char. repeat case_match; done.
Qed.

Lemma decimal_no_nul n : no_nul (decimal n).
Proof.
  unfold decimal, pretty, pretty_N. case_decide; [by repeat constructor|]. apply pretty_no_nul. constructor.
Qed.

Lemma pretty_N_go_ne n : forall s, s <> EmptyString -> pretty_N_go n s <> EmptyString.
Proof.
  induction (N.lt_wf_0 n) as [n _ IH]. intros s Hs. destruct (decide (n = 0)%N) as [->|Hn]; [by rewrite pretty_N_go_0|].
  rewrite pretty_N_go_step by lia. apply IH; [apply N.div_lt; lia|done].
Qed.

Lemma decimal_ne n : decimal n <> [].
Proof.
  unfold decimal, pretty, pretty_N. case_decide; [done|]. rewrite pretty_N_go_step by lia.
  match goal with |- context [pretty_N_go ?a ?b] => pose proof (pretty_N_go_ne a b ltac:(done)); by destruct (pretty_N_go a b) end.
Qed.

Context (names_fit : forall l xname, find_loopback (V_ifnet l) = Some xname -> (String.length xname < IFNAMSIZ)%nat).

(** C17. The kernel starts with its configuration.  When there is memory, [lazybsd_freebsd_init] returns 0, and has
    made exactly these requests, in this order: [mi_startup] runs with the allocator set up and an
    environment that has for every name the last value of the configuration; [kern.hz] reads back as
    the configured number unless the configuration sets it again; every variable of sysctl is asked for, whether
    or not others were refused; and the first loopback interface gets its address on a socket that is closed
    again.  The table of pages is zero. *)
Theorem boot_configures cfg s p m1 bootmem m2 hash m3 :
  __malloc 1 sizeof_pcpu M_ZERO (mm s) = Ok (p, m1) -> p <> 0 ->
  kmem_malloc (boot_pages * PAGE_SIZE) M_ZERO m1 = Ok (bootmem, m2) ->
  kmem_malloc (sizeof_uma_page * Z.of_nat num_hash_buckets) M_ZERO m2 = Ok (hash, m3) -> hash <> 0 -> M_ZERO <> 0 ->
  exists s' e,
    lazybsd_freebsd_init cfg s = Ok (0, s') /\ env s' = e /\ mm s' = m3 /\
    glob s' = Vars thread0 p (Z.lor (all_cpus (glob s)) 1) (c_physmem cfg) hash (i32 (Z.of_nat num_hash_buckets - 1)) /\
    (let l := log s ++ [Pcpu_init p; Uma_startup1 bootmem; Uma_startup2; Mutex_init; Mi_startup e (c_physmem cfg); Sx_init;
                        Fdused_range (fd_reserve cfg)] ++ (sysctl_request <$> sysctl_list cfg) in
     log s' = l ++ loopback_requests l) /\
    (forall name, name <> chars "kern.hz" -> e !! name = match last_value name (boot_list cfg) with Some v => Some v | None => env s !! name end) /\
    (last_value (chars "kern.hz") (boot_list cfg) = None -> forall strtoq d, strtoq_spec strtoq -> in_i32 (hz cfg) ->
       strtoq (decimal (hz cfg)) = (hz cfg, []) -> getenv_int strtoq e (chars "kern.hz") d = (1, hz cfg)) /\
    (forall a, hash <= a < hash + sizeof_uma_page * Z.of_nat num_hash_buckets -> rd (bytes (pg m3)) a = 0).
Proof.
  intros E1 Hp E2 E3 Hh Hz. unfold lazybsd_freebsd_init, mbind, B_bind.
  assert (setenv (chars "kern.hz") (decimal (hz cfg)) s = Ok (0, Boot (<[chars "kern.hz" := decimal (hz cfg)]> (env s)) (mm s) (glob s) (log s))) as -> by done.
  cbn [Z.eqb negb]. rewrite boot_loop_run. unfold set_vars, with_mm. cbn [env mm glob log]. rewrite E1.
  cbn [env mm glob log pcurthread pcpup all_cpus physmem page_slab_hash page_mask]. rewrite (proj2 (Z.eqb_neq _ _) Hp).
  unfold ask. cbn [env mm glob log]. rewrite E2. cbn [env mm glob log]. rewrite E3. cbn [env mm glob log].
  rewrite sysctl_loop_run. cbn [env mm glob log].
  match goal with |- context [lo_set_defaultaddr ?x] => destruct (lo_run x names_fit) as [r ->] end. unfold mret, B_ret.
  eexists _, _. split; [reflexivity|]. cbn [env mm glob log pcurthread pcpup all_cpus physmem page_slab_hash page_mask]. split_and!; try done.
  - rewrite <- !(assoc_L (++)). done.
  - intros name Hn. by rewrite settings_lookup, lookup_insert_ne.
  - intros Hl strtoq d Hs Hhz Eq. pose proof (decimal_ne (hz cfg)) as Hne. unfold getenv_int, getenv_cast. rewrite (getenv_quad_spec strtoq Hs _ _ (decimal (hz cfg))).
    + unfold quad_value. rewrite Eq, bool_decide_eq_false_2 by done. cbn [quad_power fmap option_fmap option_map negb Z.eqb].
      rewrite Z.pow_0_r, Z.mul_1_r. rewrite i64_id, i32_id by (unfold in_i32, in_i64 in *; lia). done.
    + rewrite settings_lookup, Hl. apply lookup_insert_eq.
    + apply decimal_no_nul.
    + intros iv end_. rewrite Eq. intros [= <- <-]. unfold in_i32, in_i64 in *. lia.
  - intros a Ha. eapply malloc_zero; [exact E3| |done|done]. unfold has_any. rewrite Z.land_diag. by destruct (Z.eqb_spec M_ZERO 0).
Qed.

(** A region that is not one page is a map of the host, cleared if that is asked for. *)
Lemma kmem_malloc_map size flags a h' (s : kmem H) : size <> 4096 ->
  h_mmap 0 size (host_prot (Z.lor lazybsd_PROT_READ lazybsd_PROT_WRITE)) (host_flags (Z.lor lazybsd_MAP_ANON lazybsd_MAP_PRIVATE)) (-1) 0 (host s) = (a, h') ->
  a <> u64 (-1) -> a <> 0 ->
  kmem_malloc size flags s = Ok (a, if has_any flags M_ZERO then bzero a size (Kmem h' (pg s)) else Kmem h' (pg s)).
Proof.
  intros Hs E Hf Hz. unfold kmem_malloc, lazybsd_mmap, mbind, K_bind. rewrite (proj2 (Z.eqb_neq _ _) Hs). unfold on_host. rewrite E.
  rewrite (proj2 (Z.eqb_neq _ _) Hf). unfold mret, K_ret. rewrite (proj2 (Z.eqb_neq _ _) Hz). by destruct (has_any flags M_ZERO).
Qed.
End Boot.

(** ** Example: 100 ticks a second, a setting that cannot be made, two of one name; the second interface is the loopback. *)
Module ExampleBoot.
#[local] Existing Instances ExampleHost.memory ExampleHost.flags Veth.example_if_flags.
#[export] Instance kernel : BootKernel := {|
  answer l r := match r with Kernel_sysctlbyname _ _ _ => 2 | _ => 0 end; new_socket l := 0x7000;
  V_ifnet l := [(1, "eth0"%string); (8, "lo0"%string)]; IFF_LOOPBACK := 8; sizeof_pcpu := 64; thread0 := 0x8000 |}.
#[export] Instance inet : InetPton := {|
  inet_pton4 s := if decide (s = "127.0.0.1"%string) then (1, Some 0x0100007f) else (1, Some 0xff); inet_pton6 s := (0, None) |}.
Definition entry (n v : string) : fbsd_cfg := FbsdCfg (chars n) (chars v) 0 0.
Definition cfg : freebsd_cfg := FreebsdCfg 100
  [entry "net.a" "1"; entry "x=y" "2"; entry "net.a" "3"] [entry "kern.b" "1"] 1048576 1024.
Definition s0 : boot ExampleHost.host_state := Boot ∅ (Kmem (ExampleHost.HostState [] 2) no_pages) (Vars 0 0 0 0 0 0) [].

Lemma names_fit : forall l xname, find_loopback (V_ifnet l) = Some xname -> (String.length xname < IFNAMSIZ)%nat.
Proof. intros l x. cbn. intros [= <-]. cbn. unfold IFNAMSIZ. lia. Qed.

Definition h1 : ExampleHost.host_state := ExampleHost.HostState [] 3.
Definition h2 : ExampleHost.host_state := ExampleHost.HostState [(4096, 65536)] 3.
Definition h3 : ExampleHost.host_state := ExampleHost.HostState [(69632, 327680); (4096, 65536)] 3.
Definition m1 := bzero 4294975488 64 (Kmem h1 no_pages).
Definition m2 := bzero 4096 65536 (Kmem h2 (pg m1)).
Definition m3 := bzero 69632 327680 (Kmem h3 (pg m2)).

Lemma start1 : __malloc 1 sizeof_pcpu M_ZERO (mm s0) = Ok (4294975488, m1).
Proof. by vm_compute. Qed.
Lemma start2 : kmem_malloc (boot_pages * PAGE_SIZE) M_ZERO m1 = Ok (4096, m2).
Proof. unfold m2. rewrite (kmem_malloc_map _ _ 4096 h2 m1) by (by vm_compute). reflexivity. Qed.
Lemma start3 : kmem_malloc (sizeof_uma_page * Z.of_nat num_hash_buckets) M_ZERO m2 = Ok (69632, m3).
Proof. unfold m3. rewrite (kmem_malloc_map _ _ 69632 h3 m2) by first [reflexivity|by vm_compute]. reflexivity. Qed.
End ExampleBoot.
#[local] Existing Instances ExampleHost.memory ExampleHost.flags Veth.example_if_flags ExampleBoot.kernel ExampleBoot.inet.

Lemma boot_configures_witness : exists s' e,
  lazybsd_freebsd_init ExampleBoot.cfg ExampleBoot.s0 = Ok (0, s') /\ env s' = e /\
  e !! chars "net.a" = Some (chars "3") /\ e !! chars "x=y" = None /\ getenv_int (strtoq_dec 0) e (chars "kern.hz") 0 = (1, 100) /\
  drop 7 (log s') = [Kernel_sysctlbyname (chars "kern.b") 0 0; Socreate 2;
    Ifioctl 0x7000 (AliasReq "lo0" (SockaddrIn 16 2 0x0100007f) (SockaddrIn 0 0 0) (SockaddrIn 16 2 0xff)); Sofree 0x7000].
Proof.
  destruct (boot_configures ExampleBoot.names_fit ExampleBoot.cfg ExampleBoot.s0 _ _ _ _ _ _ ExampleBoot.start1 ltac:(done) ExampleBoot.start2 ExampleBoot.start3
    ltac:(done) ltac:(done)) as (s' & e & E & Ee & _ & _ & El & He & Hhz & _).
  exists s', e. split; [exact E|]. split; [exact Ee|]. split; [|split; [|split]].
  - rewrite He by done. by vm_compute.
  - rewrite He by done. by vm_compute.
  - apply Hhz; [by vm_compute|exact strtoq_dec_spec|unfold in_i32; cbn; lia|by vm_compute].
  - rewrite El. reflexivity.
Defined.
