(* ===== verification/Filter.v ===== *)
(** * Filter: which packets go to the kernel ([src/lazybsd_dpdk.cc])

    Before a received packet goes to the stack the driver looks into it
    ([protocol_filter]): ARP packets and neighbour discovery go to every process, and
    packets to the ports that the configuration names ([kni_set_bitmap]) go to the
    kernel of the host.

    A packet is the list of its bytes; reading behind its end is [Panic]: in the
    program such a read gives whatever is in memory there. *)
From Stdlib Require Import ZifyBool.
From S2P Require Import Prelude.
#[local] Ltac Zify.zify_post_hook ::= Z.div_mod_to_equations.

(** ** Constants *)
Inductive FilterReturn := FILTER_UNKNOWN | FILTER_ARP | FILTER_KNI | FILTER_NDP.

#[export] Instance FilterReturn_eq_dec : EqDecision FilterReturn.
Proof. solve_decision. Defined.

Definition RTE_ETHER_TYPE_IPV4 : Z := 0x0800.
Definition RTE_ETHER_TYPE_IPV6 : Z := 0x86DD.
Definition RTE_ETHER_TYPE_ARP : Z := 0x0806.
Definition RTE_ETHER_TYPE_VLAN : Z := 0x8100.
Definition RTE_ETHER_ADDR_LEN : Z := 6.
Definition RTE_ETHER_HDR_LEN : Z := 14.
Definition IPPROTO_HOPOPTS : Z := 0.
Definition IPPROTO_IPIP : Z := 4.
Definition IPPROTO_TCP : Z := 6.
Definition IPPROTO_UDP : Z := 17.
Definition IPPROTO_IPV6 : Z := 41.
Definition IPPROTO_ROUTING : Z := 43.
Definition IPPROTO_FRAGMENT : Z := 44.
Definition IPPROTO_AH : Z := 51.
Definition IPPROTO_ICMPV6 : Z := 58.
Definition IPPROTO_DSTOPTS : Z := 60.
Definition IPPROTO_MH : Z := 135.
Definition IPPROTO_HIP : Z := 139.
Definition IPPROTO_SHIM6 : Z := 140.
Definition ND_ROUTER_SOLICIT : Z := 133.
Definition ND_REDIRECT : Z := 137.

(** ** The ports of the kernel *)

Definition magic_bits : list Z := [0x80; 0x40; 0x20; 0x10; 0x8; 0x4; 0x2; 0x1].

(** [htons] of a little-endian machine. *)
Definition htons (p : Z) : Z := Z.lor (Z.shiftr p 8) (Z.shiftl (Z.land p 255) 8).

(** A bitmap has a bit for every port, in network byte order. *)
Definition set_bitmap (port : Z) (bitmap : list Z) : list Z :=
  let port := htons port in
  let i := Z.to_nat (port / 8) in
  <[i := Z.lor (nth i bitmap 0) (nth (Z.to_nat (port mod 8)) magic_bits 0)]> bitmap.

Definition get_bitmap (port : Z) (bitmap : list Z) : Z :=
  if 0 <? Z.land (nth (Z.to_nat (port / 8)) bitmap 0) (nth (Z.to_nat (port mod 8)) magic_bits 0)
  then 1 else 0.

(** The options of the build and of the configuration, and the bitmaps. *)
Record kni_conf := KniConf {
  INET6 : bool; LAZYBSD_KNI : bool; enable_kni : bool;
  tcp_port_bitmap : list Z; udp_port_bitmap : list Z }.

Section Filter.
Context (c : kni_conf) (pkt : list Z).

(** The byte at [a], and the two bytes at [a] as they lie in memory and in network
    byte order. *)
Definition byte (a : Z) : outcome Z :=
  if a <? 0 then Panic else match pkt !! Z.to_nat a with Some b => Ok b | None => Panic end.
Definition half (a : Z) : outcome Z := b0 ← byte a; b1 ← byte (a + 1); Ok (b0 + 256 * b1).
Definition be16 (a : Z) : outcome Z := b0 ← byte a; b1 ← byte (a + 1); Ok (256 * b0 + b1).

Definition protocol_filter_l4 (port : Z) (bitmap : list Z) : FilterReturn :=
  if negb (get_bitmap port bitmap =? 0) then FILTER_KNI else FILTER_UNKNOWN.

Definition protocol_filter_tcp (data len : Z) : outcome FilterReturn :=
  if len <? 20 then Ok FILTER_UNKNOWN else
  port ← half (data + 2); Ok (protocol_filter_l4 port (tcp_port_bitmap c)).

Definition protocol_filter_udp (data len : Z) : outcome FilterReturn :=
  if len <? 8 then Ok FILTER_UNKNOWN else
  port ← half (data + 2); Ok (protocol_filter_l4 port (udp_port_bitmap c)).

Definition protocol_filter_icmp6 (data len : Z) : outcome FilterReturn :=
  if len <? 8 then Ok FILTER_UNKNOWN else
  t ← byte data;
  Ok (if (ND_ROUTER_SOLICIT <=? t) && (t <=? ND_REDIRECT) then FILTER_NDP else FILTER_UNKNOWN).

(** The length of one extension header; [None] for what is none. *)
Definition ext_hdr_len (proto data : Z) : outcome (option Z) :=
  if (proto =? IPPROTO_HOPOPTS) || (proto =? IPPROTO_ROUTING) || (proto =? IPPROTO_DSTOPTS)
     || (proto =? IPPROTO_MH) || (proto =? IPPROTO_HIP) || (proto =? IPPROTO_SHIM6) then
    b ← byte (data + 1); Ok (Some (b + 1))
  else if proto =? IPPROTO_FRAGMENT then Ok (Some 8)
  else if proto =? IPPROTO_AH then b ← byte (data + 1); Ok (Some ((b + 2) * 4))
  else Ok None.

(** The length and the protocol behind the extension headers. *)
Fixpoint get_ipv6_hdr_len (fuel : nat) (proto data len : Z) : outcome (Z * Z) :=
  match fuel with
  | O => Diverge
  | S fuel =>
      e ← ext_hdr_len proto data;
      match e with
      | None => Ok (0, proto)
      | Some n =>
          if len <=? n then Ok (len, proto) else
          proto ← byte data;
          '(l, proto) ← get_ipv6_hdr_len fuel proto (data + n) (u16 (len - n));
          Ok (n + l, proto)
      end
  end.

(** Behind the header of [hdr_len] bytes: what [protocol_filter_ip] does with the
    protocol [proto]; [filter_ip] is its recursive call. *)
Definition protocol_filter_next (filter_ip : Z -> Z -> Z -> outcome FilterReturn)
    (data len hdr_len proto : Z) : outcome FilterReturn :=
  if len <? hdr_len then Ok FILTER_UNKNOWN else
  let next := data + hdr_len in
  let next_len := u16 (len - hdr_len) in
  if proto =? IPPROTO_TCP then
    if LAZYBSD_KNI c && enable_kni c then protocol_filter_tcp next next_len else Ok FILTER_UNKNOWN
  else if proto =? IPPROTO_UDP then
    if LAZYBSD_KNI c && enable_kni c then protocol_filter_udp next next_len else Ok FILTER_UNKNOWN
  else if proto =? IPPROTO_IPIP then filter_ip next next_len RTE_ETHER_TYPE_IPV4
  else if INET6 c && (proto =? IPPROTO_IPV6) then filter_ip next next_len RTE_ETHER_TYPE_IPV6
  else if INET6 c && (proto =? IPPROTO_ICMPV6) then protocol_filter_icmp6 next next_len
  else Ok FILTER_UNKNOWN.

Fixpoint protocol_filter_ip (fuel : nat) (data len eth_frame_type : Z) : outcome FilterReturn :=
  match fuel with
  | O => Diverge
  | S fuel =>
      if eth_frame_type =? RTE_ETHER_TYPE_IPV4 then
        if len <? 20 then Ok FILTER_UNKNOWN else
        b ← byte data;
        let hdr_len := Z.shiftl (Z.land b 0x0f) 2 in
        if len <? hdr_len then Ok FILTER_UNKNOWN else
        proto ← byte (data + 9); protocol_filter_next (protocol_filter_ip fuel) data len hdr_len proto
      else if INET6 c && (eth_frame_type =? RTE_ETHER_TYPE_IPV6) then
        if len <? 40 then Ok FILTER_UNKNOWN else
        proto ← byte (data + 6);
        '(l, proto) ← get_ipv6_hdr_len (S (Z.to_nat len)) proto (data + 40) (u16 (len - 40));
        protocol_filter_next (protocol_filter_ip fuel) data len (40 + l) proto
      else Ok FILTER_UNKNOWN
  end.

Definition lazybsd_kni_proto_filter (fuel : nat) (data len eth_frame_type : Z) : outcome FilterReturn :=
  protocol_filter_ip fuel data len eth_frame_type.

Definition protocol_filter (fuel : nat) (data len : Z) : outcome FilterReturn :=
  if len <? RTE_ETHER_ADDR_LEN then Ok FILTER_UNKNOWN else
  ether_type ← be16 (data + 12);
  let data := data + RTE_ETHER_HDR_LEN in
  let len := u16 (len - RTE_ETHER_HDR_LEN) in
  '(ether_type, data, len) ←
    (if ether_type =? RTE_ETHER_TYPE_VLAN then
       t ← be16 (data + 2); Ok (t, data + 4, u16 (len - 4))
     else Ok (ether_type, data, len));
  if ether_type =? RTE_ETHER_TYPE_ARP then Ok FILTER_ARP
  else if INET6 c && (ether_type =? RTE_ETHER_TYPE_IPV6) then
    lazybsd_kni_proto_filter fuel data len ether_type
  else if negb (LAZYBSD_KNI c) then Ok FILTER_UNKNOWN
  else if negb (enable_kni c) then Ok FILTER_UNKNOWN
  else if negb (ether_type =? RTE_ETHER_TYPE_IPV4) then Ok FILTER_UNKNOWN
  else lazybsd_kni_proto_filter fuel data len ether_type.
End Filter.

(** ** The text of the configuration *)

(** [strstr] for a text of one character: the place, from the front. *)
Fixpoint strchr (ch : Z) (s : list Z) : option nat :=
  match s with
  | [] => None
  | x :: s => if x =? ch then Some O else S <$> strchr ch s
  end.

Definition is_digit (ch : Z) : bool := (48 <=? ch) && (ch <=? 57).
Definition is_space (ch : Z) : bool := (ch =? 32) || ((9 <=? ch) && (ch <=? 13)).

(** [atoi]: white space, a sign, digits. *)
Fixpoint digits_value (acc : Z) (s : list Z) : Z :=
  match s with
  | [] => acc
  | x :: s => if is_digit x then digits_value (10 * acc + (x - 48)) s else acc
  end.
Fixpoint skip_spaces (s : list Z) : list Z :=
  match s with [] => [] | x :: s' => if is_space x then skip_spaces s' else s end.
Definition atoi (s : list Z) : Z :=
  match skip_spaces s with
  | [] => 0
  | x :: s => if x =? 45 then - digits_value 0 s else if x =? 43 then digits_value 0 s
              else digits_value 0 (x :: s)
  end.

(** The loop of [kni_set_bitmap] from [head] on; an [int] given to [set_bitmap] becomes
    an [uint16_t]. *)
Fixpoint kni_set_loop (fuel : nat) (head : list Z) (bitmap : list Z) : outcome (list Z) :=
  match fuel with
  | O => Diverge
  | S fuel =>
      let tail := strchr 44 head in
      let tail_num := strchr 45 head in
      let range := match tail_num, tail with
        | Some n, None => Some n
        | Some n, Some t => if Z.of_nat n <? Z.of_nat t - 1 then Some n else None
        | None, _ => None
        end in
      let bitmap := match range with
        | Some n =>
            let first := atoi head in
            let last := atoi (drop (S n) head) in
            foldl (fun bm i => set_bitmap (u16 i) bm) bitmap (seqZ first (last - first + 1))
        | None => set_bitmap (u16 (atoi head)) bitmap
        end in
      match tail with
      | None => Ok bitmap
      | Some t => kni_set_loop fuel (drop (S t) head) bitmap
      end
  end.

(** [None] is NULL. *)
Definition kni_set_bitmap (p : option (list Z)) (port_bitmap : list Z) : outcome (list Z) :=
  match p with
  | None => Ok port_bitmap
  | Some p => kni_set_loop (S (length p)) p port_bitmap
  end.

(** ** The bitmaps *)

Lemma magic_bit m : 0 <= m < 8 -> nth (Z.to_nat m) magic_bits 0 = 2 ^ (7 - m).
Proof.
  intros Hm. assert (m = 0 \/ m = 1 \/ m = 2 \/ m = 3 \/ m = 4 \/ m = 5 \/ m = 6 \/ m = 7) as D by lia.
  repeat destruct D as [->|D]; [..|subst m]; done.
Qed.

Lemma land_pow2_pos a k : 0 <= k -> (0 <? Z.land a (2 ^ k)) = Z.testbit a k.
Proof.
  intros Hk. assert (Z.land a (2 ^ k) = if Z.testbit a k then 2 ^ k else 0) as ->.
  { apply Z.bits_inj'. intros t Ht. rewrite Z.land_spec, Z.pow2_bits_eqb by done.
    destruct (Z.eqb_spec k t) as [->|Hn].
    - destruct (Z.testbit a t); [by rewrite Z.pow2_bits_true|by rewrite Z.testbit_0_l].
    - rewrite andb_false_r. destruct (Z.testbit a k); [|by rewrite Z.testbit_0_l].
      rewrite Z.pow2_bits_false by done. done. }
  destruct (Z.testbit a k); [|done]. apply Z.ltb_lt. by apply Z.pow_pos_nonneg.
Qed.

Lemma htons_range p : 0 <= p < 65536 -> htons p = p / 256 + 256 * (p mod 256) /\ 0 <= htons p < 65536.
Proof.
  intros Hp. assert (htons p = p / 256 + 256 * (p mod 256)) as E.
  { unfold htons. change 255 with (Z.ones 8). rewrite Z.land_ones, Z.shiftr_div_pow2, Z.shiftl_mul_pow2 by lia.
    change (2 ^ 8) with 256.
    assert (Z.land (p / 256) (p mod 256 * 256) = 0) as E.
    { apply Z.bits_inj'. intros t Ht. rewrite Z.land_spec, Z.testbit_0_l.
      destruct (Z.ltb_spec t 8).
      - change (p mod 256 * 256) with (p mod 256 * 2 ^ 8).
        rewrite Z.mul_pow2_bits_low by lia. apply andb_false_r.
      - rewrite <- (Z.mod_small (p / 256) (2 ^ 8)) by (change (2 ^ 8) with 256; lia).
        by rewrite Z.mod_pow2_bits_high by lia. }
    pose proof (Z.add_lor_land (p / 256) (p mod 256 * 256)). lia. }
  split; [done|]. rewrite E. lia.
Qed.

Lemma htons_inj p q : 0 <= p < 65536 -> 0 <= q < 65536 -> htons p = htons q -> p = q.
Proof. intros Hp Hq E. destruct (htons_range p Hp) as [E1 _]. destruct (htons_range q Hq) as [E2 _]. lia. Qed.

(** [set_bitmap] sets one bit. *)
Lemma get_set_bitmap p q bm :
  0 <= p < 65536 -> 0 <= q < 65536 -> Z.of_nat (length bm) = 8192 ->
  get_bitmap (htons q) (set_bitmap p bm) = if q =? p then 1 else get_bitmap (htons q) bm.
Proof.
  intros Hp Hq Hl. destruct (htons_range p Hp) as [_ Rp]. destruct (htons_range q Hq) as [_ Rq].
  assert (htons q = htons p -> q = p) as Hinj by (by apply htons_inj).
  assert ((q =? p) = (htons q =? htons p)) as ->
    by (destruct (Z.eqb_spec q p); destruct (Z.eqb_spec (htons q) (htons p)); congruence || tauto).
  unfold get_bitmap, set_bitmap. set (x := htons q) in *. set (y := htons p) in *. clearbody x y.
  rewrite !magic_bit, !land_pow2_pos by (pose proof (Z.mod_pos_bound x 8); pose proof (Z.mod_pos_bound y 8); lia).
  assert ((Z.to_nat (y / 8) < length bm)%nat) by lia.
  destruct (Z.eqb_spec x y) as [->|Hne].
  - rewrite (nth_lookup_Some _ _ _ _ (list_lookup_insert_eq _ _ _ H)).
    rewrite Z.lor_spec, Z.pow2_bits_true, orb_true_r; [done|lia].
  - destruct (decide (x / 8 = y / 8)) as [E|E].
    + rewrite E, (nth_lookup_Some _ _ _ _ (list_lookup_insert_eq _ _ _ H)).
      rewrite Z.lor_spec, Z.pow2_bits_false, orb_false_r; [done|]. lia.
    + rewrite !nth_lookup, list_lookup_insert_ne by lia. done.
Qed.

Lemma length_set_bitmap p bm : length (set_bitmap p bm) = length bm.
Proof. apply length_insert. Qed.

Lemma get_bitmap_01 q bm : get_bitmap q bm = 0 \/ get_bitmap q bm = 1.
Proof. unfold get_bitmap. destruct (0 <? _); auto. Qed.

Lemma get_set_range a b q bm :
  0 <= a -> b < 65536 -> 0 <= q < 65536 -> Z.of_nat (length bm) = 8192 ->
  let bm' := foldl (fun bm i => set_bitmap (u16 i) bm) bm (seqZ a (b - a + 1)) in
  Z.of_nat (length bm') = 8192 /\
  get_bitmap (htons q) bm' = if (a <=? q) && (q <=? b) then 1 else get_bitmap (htons q) bm.
Proof.
  intros Ha Hb Hq. remember (Z.to_nat (b - a + 1)) as n eqn:Hn. revert a bm Ha Hn.
  induction n as [|n IH]; intros a bm Ha Hn Hl.
  { rewrite seqZ_nil by lia. cbn [foldl]. split; [done|].
    by replace ((a <=? q) && (q <=? b)) with false by lia. }
  rewrite seqZ_cons by lia. cbn [foldl].
  assert (u16 a = a) as -> by (unfold uwrap; change (2 ^ 16) with 65536; apply Z.mod_small; lia).
  replace (Z.pred (b - a + 1)) with (b - Z.succ a + 1) by lia.
  destruct (IH (Z.succ a) (set_bitmap a bm)) as [L E]; [lia|lia|by rewrite length_set_bitmap|].
  split; [exact L|]. rewrite E, get_set_bitmap by lia.
  destruct (Z.eqb_spec q a) as [->|].
  - replace ((a <=? a) && (a <=? b)) with true by lia. by destruct (_ && _).
  - replace ((Z.succ a <=? q) && (q <=? b)) with ((a <=? q) && (q <=? b)) by lia. done.
Qed.

(** ** The text *)

Definition numeral (s : list Z) (n : Z) : Prop :=
  s <> [] /\ (forall x, x ∈ s -> is_digit x = true) /\ digits_value 0 s = n.

(** A port, or a range of ports; a list of them with commas. *)
Inductive item : list Z -> Z -> Z -> Prop :=
| item_port s n : numeral s n -> item s n n
| item_range s1 s2 a b : numeral s1 a -> numeral s2 b -> item (s1 ++ 45 :: s2) a b.

Inductive port_list : list Z -> list (Z * Z) -> Prop :=
| port_list_one s a b : item s a b -> port_list s [(a, b)]
| port_list_cons s a b rest l :
    item s a b -> port_list rest l -> port_list (s ++ 44 :: rest) ((a, b) :: l).

(** What may follow a number. *)
Definition stops (s : list Z) : Prop := match s with [] => True | x :: _ => is_digit x = false end.

Lemma digits_value_app acc s r : (forall x, x ∈ s -> is_digit x = true) -> stops r ->
  digits_value acc (s ++ r) = digits_value acc s.
Proof.
  revert acc. induction s as [|x s IH]; intros acc Hs Hr; cbn.
  - destruct r as [|y r]; [done|]. cbn in *. by rewrite Hr.
  - rewrite Hs by set_solver. apply IH; [set_solver|done].
Qed.

Lemma atoi_numeral s n r : numeral s n -> stops r -> atoi (s ++ r) = n.
Proof.
  intros (Hne & Hs & <-) Hr. destruct s as [|x s]; [done|].
  assert (is_digit x = true) as Hx by (apply Hs; set_solver).
  unfold atoi. cbn [app skip_spaces]. unfold is_digit in Hx.
  replace (is_space x) with false by (unfold is_space; lia).
  replace (x =? 45) with false by lia. replace (x =? 43) with false by lia.
  exact (digits_value_app 0 (x :: s) r Hs Hr).
Qed.

Lemma strchr_app ch s r : ch ∉ s -> strchr ch (s ++ r) = (fun n => length s + n)%nat <$> strchr ch r.
Proof.
  induction s as [|x s IH]; intros Hs; cbn.
  - by destruct (strchr ch r).
  - replace (x =? ch) with false by (symmetry; apply Z.eqb_neq; set_solver).
    rewrite IH by set_solver. by destruct (strchr ch r).
Qed.

Lemma numeral_notin s n ch : numeral s n -> is_digit ch = false -> ch ∉ s.
Proof. intros (_ & Hs & _) Hch Hin. rewrite (Hs ch Hin) in Hch. done. Qed.

Lemma numeral_length s n : numeral s n -> (0 < length s)%nat.
Proof. intros (Hs & _). destruct s; [done|cbn; lia]. Qed.

(** An item at the front of the text. *)
Definition set_item (a b : Z) (bm : list Z) : list Z :=
  foldl (fun bm i => set_bitmap (u16 i) bm) bm (seqZ a (b - a + 1)).

Lemma set_item_one a bm : set_item a a bm = set_bitmap (u16 a) bm.
Proof. unfold set_item. by replace (a - a + 1) with 1 by lia. Qed.

Lemma kni_set_item fuel s a b r bm : item s a b -> r = [] \/ (exists r', r = 44 :: r') ->
  kni_set_loop (S fuel) (s ++ r) bm =
    match r with [] => Ok (set_item a b bm) | _ :: r' => kni_set_loop fuel r' (set_item a b bm) end.
Proof.
  intros Hi Hr. assert (stops r) as Hst by (destruct Hr as [->|[r' ->]]; done).
  assert (strchr 44 r = match r with [] => None | _ => Some O end) as H44
    by (destruct Hr as [->|[r' ->]]; done).
  assert (forall n, strchr 45 r = Some n -> (0 < n)%nat) as H45.
  { destruct Hr as [->|[r' ->]]; [done|]. cbn. destruct (strchr 45 r'); cbn; [intros k [= <-]; lia|done]. }
  cbn [kni_set_loop]. destruct Hi as [s n Hn|s1 s2 a b Ha Hb].
  - rewrite !strchr_app by (by eapply numeral_notin). rewrite H44, (atoi_numeral s n r Hn Hst).
    rewrite <- set_item_one. destruct r as [|x r']; cbn [fmap option_fmap option_map].
    + done.
    + rewrite Nat.add_0_r, drop_app_ge by lia. replace (S (length s) - length s)%nat with 1%nat by lia.
      destruct (strchr 45 (x :: r')) as [k|] eqn:Ek; cbn [fmap option_fmap option_map]; [|done].
      specialize (H45 k eq_refl). by replace (_ <? _) with false by lia.
  - assert (44 ∉ s1 ++ 45 :: s2) as Hn44.
    { pose proof (numeral_notin s1 a 44 Ha eq_refl). pose proof (numeral_notin s2 b 44 Hb eq_refl). set_solver. }
    rewrite strchr_app, H44 by done. rewrite <- app_assoc, (strchr_app 45) by (by eapply numeral_notin).
    cbn [app strchr]. rewrite Z.eqb_refl. cbn [fmap option_fmap option_map].
    rewrite (atoi_numeral s1 a (45 :: s2 ++ r)) by done.
    pose proof (numeral_length s2 b Hb).
    assert (drop (S (length s1 + 0)) (s1 ++ 45 :: s2 ++ r) = s2 ++ r) as Hd.
    { rewrite Nat.add_0_r, (drop_app_ge s1) by lia.
      by replace (S (length s1) - length s1)%nat with 1%nat by lia. }
    destruct r as [|x r']; cbn [fmap option_fmap option_map].
    { by rewrite Hd, (atoi_numeral s2 b []) by done. }
    rewrite length_app. cbn [length]. replace (_ <? _) with true by lia.
    rewrite Hd, (atoi_numeral s2 b (x :: r')) by done. f_equal.
    rewrite (drop_app_ge s1) by lia.
    replace (S (length s1 + S (length s2) + 0) - length s1)%nat with (S (S (length s2))) by lia. cbn [drop].
    rewrite drop_app_ge by lia. by replace (S (length s2) - length s2)%nat with 1%nat by lia.
Qed.

Lemma kni_set_loop_spec text items fuel bm q :
  port_list text items -> (length text < fuel)%nat ->
  (forall a b, (a, b) ∈ items -> 0 <= a /\ b < 65536) -> 0 <= q < 65536 -> Z.of_nat (length bm) = 8192 ->
  exists bm', kni_set_loop fuel text bm = Ok bm' /\ Z.of_nat (length bm') = 8192 /\
    (get_bitmap (htons q) bm' = 1 <->
       get_bitmap (htons q) bm = 1 \/ exists a b, (a, b) ∈ items /\ a <= q <= b).
Proof.
  intros Hp. revert fuel bm. induction Hp as [s a b Hi|s a b rest l Hi Hp IH]; intros fuel bm Hf Hab Hq Hl.
  all: destruct fuel as [|fuel]; [lia|].
  all: destruct (get_set_range a b q bm) as [L E]; [apply (Hab a b); set_solver..|done|done|].
  - rewrite <- (app_nil_r s), (kni_set_item fuel s a b []) by auto. eexists. split; [done|].
    split; [exact L|]. unfold set_item. rewrite E. split.
    + destruct (_ && _) eqn:Er; [|by left]. intros _. right. exists a, b. split; [set_solver|lia].
    + intros [Hg|(a' & b' & [= -> ->]%list_elem_of_singleton & Hr)]; [by destruct (_ && _)|].
      by replace ((a <=? q) && (q <=? b)) with true by lia.
  - rewrite (kni_set_item fuel s a b (44 :: rest)) by eauto.
    rewrite length_app in Hf. cbn [length] in Hf.
    destruct (IH fuel (set_item a b bm)) as (bm' & E' & L' & G); [lia| |done|done|].
    { intros a' b' Hin. apply Hab. set_solver. }
    exists bm'. split; [done|]. split; [done|]. rewrite G. unfold set_item. rewrite E. split.
    + intros [Hg|(a' & b' & Hin & Hr)].
      * destruct (_ && _) eqn:Er; [|by left]. right. exists a, b. split; [set_solver|lia].
      * right. exists a', b'. split; [set_solver|done].
    + intros [Hg|(a' & b' & [[= -> ->]|Hin]%elem_of_cons & Hr)].
      * left. by destruct (_ && _).
      * left. by replace ((a <=? q) && (q <=? b)) with true by lia.
      * right. eauto.
Qed.

(** The ports of the kernel.  For a text that lists ports and ranges of ports,
    [kni_set_bitmap] returns, and a packet to the port [q] (in network byte order, as
    it is in the packet) is then a packet for the kernel exactly if one of the ports
    or ranges of the text covers [q]. *)
Theorem kni_ports_selected text items q :
  port_list text items -> (forall a b, (a, b) ∈ items -> 0 <= a /\ b < 65536) -> 0 <= q < 65536 ->
  exists bm, kni_set_bitmap (Some text) (replicate (Z.to_nat 8192) 0) = Ok bm /\
    protocol_filter_l4 (htons q) bm =
      if decide (Exists (fun x => x.1 <= q <= x.2) items) then FILTER_KNI else FILTER_UNKNOWN.
Proof.
  intros Hp Hab Hq. unfold kni_set_bitmap.
  destruct (kni_set_loop_spec text items (S (length text)) (replicate (Z.to_nat 8192) 0) q)
    as (bm & E & _ & G); [done|lia|done|done|rewrite length_replicate; lia|].
  exists bm. split; [done|]. unfold protocol_filter_l4.
  assert (get_bitmap (htons q) (replicate (Z.to_nat 8192) 0) = 0) as E0.
  { unfold get_bitmap. destruct (htons_range q Hq) as [_ Rq]. rewrite nth_lookup, lookup_replicate_2 by lia. done. }
  rewrite E0 in G. destruct (decide _) as [Hex|Hn].
  - apply Exists_exists in Hex as ([a b] & Hin & Hr). rewrite (proj2 G); [done|]. right. eauto.
  - destruct (get_bitmap_01 (htons q) bm) as [-> | E1]; [done|]. exfalso. apply Hn.
    apply G in E1 as [?|(a & b & Hin & Hr)]; [done|]. apply Exists_exists. by exists (a, b).
Qed.

(** The configuration text [80,443-445]. *)
Theorem kni_ports_selected_witness :
  exists text items,
    (port_list text items /\ (forall a b, (a, b) ∈ items -> 0 <= a /\ b < 65536) /\ 0 <= 444 < 65536) /\
    exists bm, kni_set_bitmap (Some text) (replicate (Z.to_nat 8192) 0) = Ok bm /\
      protocol_filter_l4 (htons 444) bm = FILTER_KNI.
Proof.
  exists [56; 48; 44; 52; 52; 51; 45; 52; 52; 53], [(80, 80); (443, 445)].
  assert (port_list [56; 48; 44; 52; 52; 51; 45; 52; 52; 53] [(80, 80); (443, 445)]) as Hp.
  { apply (port_list_cons [56; 48] 80 80 [52; 52; 51; 45; 52; 52; 53]).
    - apply item_port. split; [done|]. split; [set_solver|done].
    - apply port_list_one, (item_range [52; 52; 51] [52; 52; 53]); (split; [done|]; split; [set_solver|done]). }
  assert (forall a b, (a, b) ∈ [(80, 80); (443, 445)] -> 0 <= a /\ b < 65536) as Hab.
  { intros a b Hin. apply elem_of_cons in Hin as [[= -> ->]|Hin]; [lia|].
    apply list_elem_of_singleton in Hin as [= -> ->]. lia. }
  split; [split; [done|]; split; [done|lia]|].
  destruct (kni_ports_selected _ _ 444 Hp Hab ltac:(lia)) as (bm & E1 & E2).
  exists bm. split; [done|]. refine (eq_trans E2 _). by vm_compute.
Defined.

(** ** Frames *)
Lemma u16_id z : 0 <= z < 65536 -> u16 z = z.
Proof. intros Hz. unfold uwrap. lia. Qed.

Section Frames.
Context (c : kni_conf) (pkt : list Z).
Context (bytes_ok : Forall (fun b => 0 <= b < 256) pkt).

Definition frame_end (data len : Z) : Prop :=
  0 <= data /\ 0 <= len < 65536 /\ data + len + 2 <= Z.of_nat (length pkt).

Lemma byte_ok a : 0 <= a < Z.of_nat (length pkt) -> exists b, byte pkt a = Ok b /\ 0 <= b < 256.
Proof.
  intros Ha. unfold byte. replace (a <? 0) with false by lia.
  destruct (pkt !! Z.to_nat a) as [b|] eqn:E.
  - exists b. split; [done|]. exact (Forall_lookup_1 _ _ _ _ bytes_ok E).
  - apply lookup_ge_None_1 in E. lia.
Qed.

Lemma half_ok a : 0 <= a -> a + 1 < Z.of_nat (length pkt) -> exists v, half pkt a = Ok v.
Proof.
  intros H0 H1. unfold half. destruct (byte_ok a) as (b & -> & _); [lia|].
  destruct (byte_ok (a + 1)) as (b' & -> & _); [lia|]. cbn. eauto.
Qed.

Lemma be16_ok a : 0 <= a -> a + 1 < Z.of_nat (length pkt) -> exists v, be16 pkt a = Ok v.
Proof.
  intros H0 H1. unfold be16. destruct (byte_ok a) as (b & -> & _); [lia|].
  destruct (byte_ok (a + 1)) as (b' & -> & _); [lia|]. cbn. eauto.
Qed.

Lemma transport_ok data len : frame_end data len ->
  (exists r, protocol_filter_tcp c pkt data len = Ok r) /\
  (exists r, protocol_filter_udp c pkt data len = Ok r) /\
  (exists r, protocol_filter_icmp6 pkt data len = Ok r).
Proof.
  intros (Hd & Hl & He). unfold protocol_filter_tcp, protocol_filter_udp, protocol_filter_icmp6.
  split; [|split].
  - destruct (len <? 20) eqn:?; [eauto|]. destruct (half_ok (data + 2)) as (v & ->); [lia..|]. cbn. eauto.
  - destruct (len <? 8) eqn:?; [eauto|]. destruct (half_ok (data + 2)) as (v & ->); [lia..|]. cbn. eauto.
  - destruct (len <? 8) eqn:?; [eauto|]. destruct (byte_ok data) as (v & -> & _); [lia|]. cbn. eauto.
Qed.

Lemma ext_hdr_len_ok proto data : 0 <= data -> data + 1 < Z.of_nat (length pkt) ->
  exists e, ext_hdr_len pkt proto data = Ok e /\ forall n, e = Some n -> 1 <= n.
Proof.
  intros H0 H1. unfold ext_hdr_len. destruct (byte_ok (data + 1)) as (b & -> & Hb); [lia|].
  cbn [mbind outcome_bind].
  destruct (_ || _ || _ || _ || _ || _); [|destruct (_ =? _); [|destruct (_ =? _)]].
  all: eexists; split; [done|]; intros n [= <-]; lia.
Qed.

Lemma get_ipv6_hdr_len_ok fuel proto data len : frame_end data len -> len < Z.of_nat fuel ->
  exists l p, get_ipv6_hdr_len pkt fuel proto data len = Ok (l, p) /\ 0 <= l <= len.
Proof.
  revert proto data len. induction fuel as [|fuel IH]; intros proto data len (Hd & Hl & He) Hf; [lia|].
  cbn [get_ipv6_hdr_len].
  destruct (ext_hdr_len_ok proto data) as (e & -> & Hn); [lia..|]. cbn [mbind outcome_bind].
  destruct e as [n|]; [|exists 0, proto; split; [done|lia]]. specialize (Hn n eq_refl).
  destruct (len <=? n) eqn:El; [exists len, proto; split; [done|lia]|].
  destruct (byte_ok data) as (p & -> & _); [lia|]. cbn [mbind outcome_bind].
  rewrite (u16_id (len - n)) by lia.
  destruct (IH p (data + n) (len - n)) as (l & p' & -> & Hr); [repeat split; lia|lia|].
  exists (n + l), p'. cbn. split; [done|lia].
Qed.

(** The IPv4 headers that are zero bytes long and hold an IPv4 packet. *)
Definition loops (data : Z) : Prop :=
  exists b, byte pkt data = Ok b /\ Z.land b 15 = 0 /\ byte pkt (data + 9) = Ok IPPROTO_IPIP.

(** Fuel for a packet: each step makes it shorter, or takes an IPv4 packet for an
    IPv6 packet. *)
Definition ip_measure (len ether_type : Z) : Z :=
  2 * len + if ether_type =? RTE_ETHER_TYPE_IPV4 then 1 else 0.

Lemma protocol_filter_ip_ok fuel data len et : frame_end data len -> (forall a, ~ loops a) ->
  ip_measure len et < Z.of_nat fuel -> exists r, protocol_filter_ip c pkt fuel data len et = Ok r.
Proof.
  revert data len et. induction fuel as [|fuel IH]; intros data len et (Hd & Hl & He) Hno Hf.
  { unfold ip_measure in Hf. destruct (_ =? _); lia. }
  cbn [protocol_filter_ip]. set (go := protocol_filter_next c pkt (protocol_filter_ip c pkt fuel) data len).
  assert (forall hdr_len proto, 0 <= hdr_len -> 
    (hdr_len = 0 -> et = RTE_ETHER_TYPE_IPV4 /\ proto <> IPPROTO_IPIP) ->
    exists r, go hdr_len proto = Ok r) as Hgo.
  { intros hl p Hh Hz. unfold go, protocol_filter_next. destruct (len <? hl) eqn:Elh; [eauto|].
    rewrite (u16_id (len - hl)) by lia.
    assert (frame_end (data + hl) (len - hl)) as Hfe by (repeat split; lia).
    destruct (transport_ok _ _ Hfe) as (Ht & Hu & Hi).
    assert (forall et', (et' = RTE_ETHER_TYPE_IPV4 -> p = IPPROTO_IPIP) ->
      exists r, protocol_filter_ip c pkt fuel (data + hl) (len - hl) et' = Ok r) as Hrec.
    { intros et' Het. apply IH; [done|done|]. unfold ip_measure in *.
      destruct (et' =? RTE_ETHER_TYPE_IPV4) eqn:E', (et =? RTE_ETHER_TYPE_IPV4) eqn:E; zbool; destruct (decide (hl = 0)) as [->|];
      try destruct (Hz eq_refl); try specialize (Het E'); try lia; try congruence. }
    destruct (p =? IPPROTO_TCP); [destruct (_ && _); eauto|].
    destruct (p =? IPPROTO_UDP); [destruct (_ && _); eauto|].
    destruct (p =? IPPROTO_IPIP) eqn:Ep; [apply Hrec; intros _; by apply Z.eqb_eq|].
    destruct (INET6 c && (p =? IPPROTO_IPV6)); [by apply Hrec|].
    destruct (INET6 c && (p =? IPPROTO_ICMPV6)); eauto. }
  clearbody go. destruct (et =? RTE_ETHER_TYPE_IPV4) eqn:Eet.
  - destruct (len <? 20) eqn:?; [eauto|]. destruct (byte_ok data) as (b & Eb & Hb); [lia|].
    rewrite Eb. cbn [mbind outcome_bind]. destruct (len <? Z.shiftl _ _); [eauto|].
    destruct (byte_ok (data + 9)) as (p & Ep & Hp); [lia|]. rewrite Ep. cbn [mbind outcome_bind].
    apply Hgo.
    + rewrite Z.shiftl_mul_pow2 by lia. assert (0 <= Z.land b 15) by (apply Z.land_nonneg; lia). lia.
    + intros Hz. split; [by apply Z.eqb_eq|]. intros ->. apply (Hno data). exists b.
      rewrite Z.shiftl_mul_pow2 in Hz by lia. repeat split; [done|lia|done].
  - destruct (INET6 c && _); [|eauto]. destruct (len <? 40) eqn:?; [eauto|].
    destruct (byte_ok (data + 6)) as (p & -> & Hp); [lia|]. cbn [mbind outcome_bind].
    rewrite (u16_id (len - 40)) by lia.
    destruct (get_ipv6_hdr_len_ok (S (Z.to_nat len)) p (data + 40) (len - 40)) as (l & p' & -> & Hr);
      [repeat split; lia|lia|]. cbn [mbind outcome_bind]. apply Hgo; lia.
Qed.

(** C11. The filter is safe and returns.  For a frame of at least 18 bytes with two
    bytes of room behind it, [protocol_filter] reads nothing else and returns,
    whatever the bytes are, if no place of the frame reads as an IPv4 header of zero
    bytes with an IPv4 packet in it; fuel of twice the length is enough. *)
Theorem protocol_filter_returns fuel len :
  18 <= len < 65536 -> len + 2 <= Z.of_nat (length pkt) -> (forall a, ~ loops a) ->
  2 * len < Z.of_nat fuel -> exists r, protocol_filter c pkt fuel 0 len = Ok r.
Proof.
  intros Hl He Hno Hf. unfold protocol_filter, RTE_ETHER_ADDR_LEN, RTE_ETHER_HDR_LEN.
  replace (len <? 6) with false by lia.
  destruct (be16_ok (0 + 12)) as (t & ->); [lia..|]. cbn [mbind outcome_bind].
  destruct (be16_ok (0 + 14 + 2)) as (t2 & ->); [lia..|].
  set (vlan := if t =? _ then _ else _).
  assert (exists t' data' len', vlan = Ok (t', data', len') /\ frame_end data' len' /\ len' <= len - 14)
    as (t' & data' & len' & -> & Hfe & Hlt).
  { unfold vlan. rewrite (u16_id (len - 14)) by lia.
    destruct (t =? _); cbn.
    - rewrite (u16_id (len - 14 - 4)) by lia.
      eexists _, _, _. split; [done|]. split; [repeat split; lia|lia].
    - eexists _, _, _. split; [done|]. split; [repeat split; lia|lia]. }
  cbn [mbind outcome_bind]. unfold lazybsd_kni_proto_filter.
  assert (exists r, protocol_filter_ip c pkt fuel data' len' t' = Ok r) as Hip.
  { apply protocol_filter_ip_ok; [done|done|]. unfold ip_measure. destruct (t' =? _); lia. }
  destruct (t' =? _); [eauto|]. destruct (INET6 c && _); [done|].
  destruct (negb _); [eauto|]. destruct (negb _); [eauto|]. destruct (negb _); [eauto|done].
Qed.
End Frames.

(** A frame of sixty zero bytes. *)
Theorem protocol_filter_returns_witness :
  exists c pkt, (Forall (fun b => 0 <= b < 256) pkt /\ (forall a, ~ loops pkt a)) /\
    exists r, protocol_filter c pkt 121 0 60 = Ok r.
Proof.
  set (pkt := replicate 62 0).
  assert (Forall (fun b => 0 <= b < 256) pkt) as Hb by (apply Forall_replicate; lia).
  assert (forall a, ~ loops pkt a) as Hno.
  { intros a (b & _ & _ & H9). unfold byte in H9. destruct (_ <? _); [done|].
    destruct (pkt !! _) as [x|] eqn:E; [|done]. apply lookup_replicate in E as [-> _]. done. }
  exists (KniConf true true true [] []), pkt. split; [done|].
  apply (protocol_filter_returns _ pkt Hb 121 60); [lia|cbn; lia|exact Hno|lia].
Defined.

(** ** An endless packet *)
Lemma protocol_filter_ip_loops c pkt fuel data len :
  20 <= len < 65536 -> loops pkt data -> protocol_filter_ip c pkt fuel data len RTE_ETHER_TYPE_IPV4 = Diverge.
Proof.
  intros Hl (b & Eb & Hb & Ep). induction fuel as [|fuel IH]; [done|]. cbn [protocol_filter_ip].
  rewrite Z.eqb_refl. replace (len <? 20) with false by lia. rewrite Eb. cbn [mbind outcome_bind].
  rewrite Hb. change (Z.shiftl 0 2) with 0. unfold protocol_filter_next. replace (len <? 0) with false by lia.
  rewrite Ep. cbn [mbind outcome_bind].
  change (IPPROTO_IPIP =? IPPROTO_TCP) with false. change (IPPROTO_IPIP =? IPPROTO_UDP) with false.
  rewrite Z.eqb_refl, Z.add_0_r, Z.sub_0_r.
  by rewrite (u16_id len) by lia.
Qed.

(** An endless packet.  An Ethernet frame with an IPv4 packet whose header length
    is zero and whose protocol is IP in IP sends [protocol_filter_ip] back to the same
    packet for ever, with the kernel interface on: no amount of fuel is enough. *)
Theorem protocol_filter_endless c pkt fuel len :
  LAZYBSD_KNI c = true -> enable_kni c = true -> 34 <= len < 65536 ->
  be16 pkt 12 = Ok RTE_ETHER_TYPE_IPV4 -> loops pkt 14 -> protocol_filter c pkt fuel 0 len = Diverge.
Proof.
  intros Hk He Hl Ht Hlp. unfold protocol_filter, RTE_ETHER_ADDR_LEN, RTE_ETHER_HDR_LEN.
  replace (len <? 6) with false by lia. change (0 + 12) with 12. rewrite Ht. cbn [mbind outcome_bind].
  change (RTE_ETHER_TYPE_IPV4 =? RTE_ETHER_TYPE_VLAN) with false. cbn [mbind outcome_bind].
  rewrite (u16_id (len - 14)) by lia.
  change (RTE_ETHER_TYPE_IPV4 =? RTE_ETHER_TYPE_ARP) with false.
  change (RTE_ETHER_TYPE_IPV4 =? RTE_ETHER_TYPE_IPV6) with false.
  rewrite andb_false_r, Hk, He, Z.eqb_refl. cbn [negb].
  apply protocol_filter_ip_loops; [lia|done].
Qed.

(** A frame of 34 bytes. *)
Definition endless_frame : list Z :=
  replicate 12 0 ++ [8; 0] ++ [64; 0; 0; 20; 0; 0; 0; 0; 64; 4] ++ replicate 10 0.

Theorem protocol_filter_endless_witness :
  (be16 endless_frame 12 = Ok RTE_ETHER_TYPE_IPV4 /\ loops endless_frame 14) /\
  forall fuel, protocol_filter (KniConf false true true [] []) endless_frame fuel 0 34 = Diverge.
Proof.
  assert (be16 endless_frame 12 = Ok RTE_ETHER_TYPE_IPV4 /\ loops endless_frame 14) as [H1 H2].
  { split; [done|]. exists 64. repeat split; done. }
  split; [done|]. intros fuel. apply protocol_filter_endless; [done|done|lia|done|done].
Defined.

(** A frame of six bytes: the type is behind its end. *)
Example protocol_filter_short_frame :
  protocol_filter (KniConf true true true [] []) (replicate 6 0) 10 0 6 = Panic.
Proof. reflexivity. Qed.
