(* ===== verification/Flow.v ===== *)
(** * Flow: rules that steer packets to queues ([src/lazybsd_dpdk.cc])

    A driver built with [LAZYBSD_FLOW_ISOLATE] takes from its port only the packets that rules of the NIC name: TCP over
    IPv4 to and from one port, spread over the queues, and ARP ([init_flow]).  With [LAZYBSD_FDIR] a rule moves the
    packets of a TCP port to one queue ([fdir_add_tcp_flow]).  A rule is a pattern, a list of items with values and
    masks in the byte order of the network, and an action.

    The file shows which packets go to which queue, and which failures nobody hears of.  Text that is printed
    is left out. *)
From S2P Require Import Prelude Filter Rss.

(** ** Rules *)

(** The ports of [struct rte_flow_item_tcp], in network order. *)
Record tcp_hdr := TcpHdr { src_port : Z; dst_port : Z }.
Inductive flow_item :=
| ITEM_END
| ITEM_ETH (type_mask : option (Z * Z))
| ITEM_IPV4
| ITEM_TCP (spec mask : tcp_hdr).
Inductive flow_action :=
| ACTION_END
| ACTION_QUEUE (index : Z)
| ACTION_RSS (types : Z) (key_len : nat) (key : list Z) (queue : list Z).
Record flow_attr := Attr { ingress : bool; egress : bool }.
Record flow := Flow { f_port : Z; attr : flow_attr; pattern : list flow_item; action : list flow_action }.

(** DPDK: the rules of the ports are in the order of their making; a rule is accepted or not (0 is yes), is made or
    not, and in the latter case there is an [rte_errno]; the ports exist or not. *)
Class FlowKernel := {
  rte_flow_validate : flow -> list flow -> Z;
  rte_flow_create : flow -> list flow -> bool;
  rte_flow_isolate : Z -> Z -> list flow -> Z;
  rte_errno : list flow -> Z;
  rte_eth_dev_info_get : Z -> Z;
  RTE_ETH_RSS_NONFRAG_IPV4_TCP : Z;
  RTE_MAX_QUEUES_PER_PORT : Z }.

Section Flow.
Context `{FlowKernel}.

Definition port_flow_complain (s : list flow) : Z := - rte_errno s.

Definition port_flow_isolate (port_id set : Z) (s : list flow) : Z :=
  if negb (rte_flow_isolate port_id set s =? 0) then port_flow_complain s else 0.

(** A rule that is accepted is made; the value to return, or the rules. *)
Definition validate_create (f : flow) (s : list flow) : Z + list flow :=
  if rte_flow_validate f s =? 0 then
    if rte_flow_create f s then inr (s ++ [f]) else inl (port_flow_complain s)
  else inr s.

(** [for (i = 0, j = 0; i < nb_queues; ++i) queue[j++] = i;] with an array on the stack. *)
Fixpoint queue_loop (n : nat) (i : Z) (queue : list Z) : outcome (list Z) :=
  match n with
  | O => Ok queue
  | S n => if Z.of_nat (length queue) <? RTE_MAX_QUEUES_PER_PORT then queue_loop n (i + 1) (queue ++ [u16 i]) else Panic
  end.

(** [nb_lcores] is in the configuration of the port. *)
Definition create_tcp_flow (nb_lcores : Z) (rsskey_len : nat) (rsskey : list Z) (port_id tcp_port : Z) (s : list flow) : outcome (Z * list flow) :=
  queue ← queue_loop (Z.to_nat nb_lcores) 0 [];
  if negb (rte_eth_dev_info_get port_id =? 0) then Panic else
  let act := [ACTION_RSS RTE_ETH_RSS_NONFRAG_IPV4_TCP rsskey_len rsskey queue; ACTION_END] in
  let rule item := Flow port_id (Attr true false) [ITEM_IPV4; item; ITEM_END] act in
  match validate_create (rule (ITEM_TCP (TcpHdr 0 (htons tcp_port)) (TcpHdr 0 (htons 0xffff)))) s with
  | inl e => Ok (e, s)
  | inr s =>
      match validate_create (rule (ITEM_TCP (TcpHdr (htons tcp_port) 0) (TcpHdr (htons 0xffff) 0))) s with
      | inl e => Ok (e, s)
      | inr s => Ok (1, s)
      end
  end.

(** [rte_exit] ends the process. *)
Definition init_flow (nb_lcores : Z) (rsskey_len : nat) (rsskey : list Z) (port_id tcp_port : Z) (s : list flow) : outcome (Z * list flow) :=
  '(r, s) ← create_tcp_flow nb_lcores rsskey_len rsskey port_id tcp_port s;
  if r =? 0 then Panic else
  match validate_create (Flow port_id (Attr true false) [ITEM_ETH (Some (htons 0x0806, htons 0xffff)); ITEM_END] [ACTION_QUEUE 0; ACTION_END]) s with
  | inl e => Ok (e, s)
  | inr s => Ok (1, s)
  end.

Definition LAZYBSD_FLOW_EGRESS : Z := 1.
Definition LAZYBSD_FLOW_INGRESS : Z := 2.

Definition fdir_add_tcp_flow (port_id queue dir tcp_sport tcp_dport : Z) (s : list flow) : Z * list flow :=
  let attr := Attr (0 <? Z.land dir LAZYBSD_FLOW_INGRESS) (0 <? Z.land dir LAZYBSD_FLOW_EGRESS) in
  let spec := TcpHdr (htons tcp_sport) (htons tcp_dport) in
  let mask := TcpHdr (if tcp_sport =? 0 then 0 else 0xffff) (if tcp_dport =? 0 then 0 else 0xffff) in
  let f := Flow port_id attr [ITEM_ETH None; ITEM_IPV4; ITEM_TCP spec mask; ITEM_END] [ACTION_QUEUE queue; ACTION_END] in
  if negb (rte_flow_validate f s =? 0) then (1, s)
  else if rte_flow_create f s then (0, s ++ [f]) else (port_flow_complain s, s).

(** What [lazybsd_dpdk_init] does about flows before and after the ports are started, with the queue of the process on the
    first port. *)
Definition flow_isolate_init (tx_queue_id : Z) (s : list flow) : outcome unit :=
  if tx_queue_id =? 0 then if port_flow_isolate 0 1 s <? 0 then Panic else Ok () else Ok ().
Definition flow_init (nb_lcores : Z) (rsskey_len : nat) (rsskey : list Z) (s : list flow) : outcome (list flow) :=
  '(r, s) ← init_flow nb_lcores rsskey_len rsskey 0 80 s; if r <? 0 then Panic else Ok s.
Definition fdir_init (s : list flow) : outcome (list flow) :=
  let '(r, s) := fdir_add_tcp_flow 0 0 LAZYBSD_FLOW_INGRESS 0 80 s in if negb (r =? 0) then Panic else Ok s.
End Flow.

(** ** Which packets a rule names *)

(** A packet on the wire: its Ethernet type, whether it is IPv4, and its TCP ports. *)
Record packet := Packet { ether_type : Z; is_ipv4 : bool; tcp : option (Z * Z) }.

(** A field agrees with a value on the bits of a mask. *)
Definition field (x spec mask : Z) : bool := Z.land (htons x) mask =? Z.land spec mask.
Definition item_matches (i : flow_item) (p : packet) : bool :=
  match i with
  | ITEM_END => true
  | ITEM_ETH None => true
  | ITEM_ETH (Some (spec, mask)) => field (ether_type p) spec mask
  | ITEM_IPV4 => is_ipv4 p
  | ITEM_TCP spec mask =>
      match tcp p with
      | None => false
      | Some (s, d) => field s (src_port spec) (src_port mask) && field d (dst_port spec) (dst_port mask)
      end
  end.
(** The items before the end. *)
Fixpoint matches (l : list flow_item) (p : packet) : bool :=
  match l with
  | [] | ITEM_END :: _ => true
  | i :: l => item_matches i p && matches l p
  end.

(** Received packets of a port go where the first rule that names them says. *)
Definition steer (s : list flow) (port_id : Z) (p : packet) : option flow_action :=
  match find (fun f => (f_port f =? port_id) && ingress (attr f) && matches (pattern f) p) s with
  | Some f => head (action f)
  | None => None
  end.

Definition packet_ok (p : packet) : Prop :=
  0 <= ether_type p < 65536 /\ forall s d, tcp p = Some (s, d) -> 0 <= s < 65536 /\ 0 <= d < 65536.
Definition tcp_over_ipv4 (p : packet) (P : Z -> Z -> bool) : bool :=
  is_ipv4 p && match tcp p with Some (s, d) => P s d | None => false end.

Lemma field_full x y m : m = 65535 -> 0 <= x < 65536 -> 0 <= y < 65536 -> field x (htons y) m = (x =? y).
Proof.
  intros -> Hx Hy. unfold field. change 65535 with (Z.ones 16). destruct (htons_range x Hx) as [_ Rx]. destruct (htons_range y Hy) as [_ Ry].
  rewrite !Z.land_ones, !Z.mod_small by (change (2 ^ 16) with 65536; lia).
  destruct (Z.eqb_spec x y) as [->|Hn]; [apply Z.eqb_refl|]. apply Z.eqb_neq. intros E. by apply Hn, htons_inj.
Qed.
Lemma field_any x y : field x y 0 = true.
Proof. unfold field. by rewrite !Z.land_0_r. Qed.

Lemma land_flag_bit z k : 0 <= k -> (0 <? Z.land z (2 ^ k)) = Z.testbit z k.
Proof.
  intros Hk. assert (Z.land z (2 ^ k) = if Z.testbit z k then 2 ^ k else 0) as ->.
  { apply Z.bits_inj'. intros n Hn. rewrite Z.land_spec, Z.pow2_bits_eqb by done. destruct (Z.eqb_spec k n) as [->|Hne].
    - rewrite andb_true_r. destruct (Z.testbit z n); [by rewrite Z.pow2_bits_true|by rewrite Z.bits_0].
    - rewrite andb_false_r. destruct (Z.testbit z k); [by rewrite Z.pow2_bits_false|by rewrite Z.bits_0]. }
  destruct (Z.testbit z k); [|done]. apply Z.ltb_lt. lia.
Qed.

Section FlowFacts.
Context `{FlowKernel}.

Lemma queue_loop_all n : forall i queue, 0 <= i -> i + Z.of_nat n <= 65536 -> Z.of_nat (length queue + n) <= RTE_MAX_QUEUES_PER_PORT ->
  queue_loop n i queue = Ok (queue ++ seqZ i (Z.of_nat n)).
Proof.
  induction n as [|n IH]; intros i queue Hi Hm Hl; cbn [queue_loop]; [by rewrite app_nil_r|].
  rewrite (proj2 (Z.ltb_lt _ _)) by lia. rewrite IH by (rewrite ?length_app; cbn [length]; lia).
  rewrite (seqZ_cons i (Z.of_nat (S n))) by lia. rewrite <- app_assoc. cbn [app]. unfold uwrap. rewrite Z.mod_small by (change (2 ^ 16) with 65536; lia).
  do 4 f_equal; lia.
Qed.

(** A rule for a TCP port is made whole or not at all; it names the packets of TCP over IPv4 with these ports, 0 standing for any, and
    nothing else, in the directions asked for, and moves them to the queue. *)
Lemma fdir_rule port_id queue dir sport dport s : 0 <= sport < 65536 -> 0 <= dport < 65536 ->
  let '(r, s') := fdir_add_tcp_flow port_id queue dir sport dport s in
  (s' = s /\ (r = 1 \/ r = - rte_errno s)) \/
  (r = 0 /\ exists f, s' = s ++ [f] /\ f_port f = port_id /\ head (action f) = Some (ACTION_QUEUE queue) /\
    ingress (attr f) = Z.testbit dir 1 /\ egress (attr f) = Z.testbit dir 0 /\
    forall p, packet_ok p -> matches (pattern f) p =
      tcp_over_ipv4 p (fun s d => ((sport =? 0) || (s =? sport)) && ((dport =? 0) || (d =? dport)))).
Proof.
  intros Hs Hd. unfold fdir_add_tcp_flow. set (f := Flow _ _ _ _). destruct (rte_flow_validate f s =? 0); cbn [negb]; [|left; auto].
  destruct (rte_flow_create f s); [|left; auto]. right. split; [done|]. exists f. split_and!; try done.
  - cbn [f attr ingress]. exact (land_flag_bit dir 1 ltac:(lia)).
  - cbn [f attr egress]. exact (land_flag_bit dir 0 ltac:(lia)).
  - intros p [_ Hp]. cbn [f pattern matches item_matches]. unfold tcp_over_ipv4. destruct (is_ipv4 p); [|done]. cbn [andb].
    destruct (tcp p) as [[sp dp]|]; [|done]. destruct (Hp sp dp eq_refl) as [Hsp Hdp]. cbn [src_port dst_port]. rewrite andb_true_r. f_equal.
    + destruct (Z.eqb_spec sport 0) as [E|E]; [by rewrite field_any|]. by apply field_full.
    + destruct (Z.eqb_spec dport 0) as [E|E]; [by rewrite field_any|]. by apply field_full.
Qed.

(** The three rules of [init_flow]. *)
Definition isolate_rules (nb_lcores : Z) (n : nat) (key : list Z) (port_id tcp_port : Z) : list flow * flow :=
  let act := [ACTION_RSS RTE_ETH_RSS_NONFRAG_IPV4_TCP n key (seqZ 0 nb_lcores); ACTION_END] in
  let rule item := Flow port_id (Attr true false) [ITEM_IPV4; item; ITEM_END] act in
  ([rule (ITEM_TCP (TcpHdr 0 (htons tcp_port)) (TcpHdr 0 (htons 0xffff))); rule (ITEM_TCP (TcpHdr (htons tcp_port) 0) (TcpHdr (htons 0xffff) 0))],
   Flow port_id (Attr true false) [ITEM_ETH (Some (htons 0x0806, htons 0xffff)); ITEM_END] [ACTION_QUEUE 0; ACTION_END]).

(** A NIC that accepts and makes all rules. *)
Definition all_accepted : Prop := (forall f s, rte_flow_validate f s = 0) /\ (forall f s, rte_flow_create f s = true).

Lemma validate_create_spec f s :
  (validate_create f s = inl (- rte_errno s) /\ ~ all_accepted) \/
  exists l, validate_create f s = inr (s ++ l) /\ l `sublist_of` [f] /\ (all_accepted -> l = [f]).
Proof.
  unfold validate_create, all_accepted. destruct (Z.eqb_spec (rte_flow_validate f s) 0) as [E|E].
  - destruct (rte_flow_create f s) eqn:Ec; [right; by exists [f]|]. left. split; [done|]. intros [_ Hc]. by rewrite Hc in Ec.
  - right. exists []. rewrite app_nil_r. split; [done|]. split; [apply sublist_nil_l|]. intros [Hv _]. by rewrite Hv in E.
Qed.

Context (doc_errno : forall s, 0 < rte_errno s) (doc_queues : RTE_MAX_QUEUES_PER_PORT <= 65536).

(** What [init_flow] returns is what comes of the rule for ARP. *)
Lemma init_flow_spec nb_lcores n key port_id tcp_port s :
  0 <= nb_lcores <= RTE_MAX_QUEUES_PER_PORT -> rte_eth_dev_info_get port_id = 0 ->
  let '(tcp_rules, arp) := isolate_rules nb_lcores n key port_id tcp_port in
  exists l, l `sublist_of` tcp_rules /\ (all_accepted -> l = tcp_rules) /\
    init_flow nb_lcores n key port_id tcp_port s =
      Ok (match validate_create arp (s ++ l) with inl e => (e, s ++ l) | inr s' => (1, s') end).
Proof.
  intros Hn Hd. unfold isolate_rules, init_flow, create_tcp_flow. rewrite queue_loop_all by (cbn [length]; lia).
  cbn [mbind outcome_bind app]. rewrite Hd, Z2Nat.id by lia. change (negb (0 =? 0)) with false. cbv iota zeta.
  set (r1 := Flow port_id _ [_; ITEM_TCP (TcpHdr 0 _) _; _] _). set (r2 := Flow port_id _ [_; ITEM_TCP (TcpHdr _ 0) _; _] _).
  set (arp := Flow port_id _ [ITEM_ETH _; _] _).
  assert (forall l e, e <> 0 -> @outcome_bind (Z * list flow)%type _ (fun '(r, s) => if r =? 0 then Panic else
      match validate_create arp s with inl e => Ok (e, s) | inr s => Ok (1, s) end) (Ok (e, s ++ l)) =
    Ok (match validate_create arp (s ++ l) with inl e => (e, s ++ l) | inr s' => (1, s') end)) as Hend.
  { intros l e He. cbn [outcome_bind]. rewrite (proj2 (Z.eqb_neq e 0) He). by destruct (validate_create arp (s ++ l)). }
  assert (forall l, - rte_errno (s ++ l) <> 0) as He by (intros l; pose proof (doc_errno (s ++ l)); lia).
  destruct (validate_create_spec r1 s) as [[-> Hno]|(l1 & -> & S1 & A1)].
  { exists []. split; [apply sublist_nil_l|]. split; [done|]. specialize (Hend [] _ (He [])). rewrite app_nil_r in Hend |- *. exact Hend. }
  destruct (validate_create_spec r2 (s ++ l1)) as [[-> Hno]|(l2 & -> & S2 & A2)].
  { exists l1. split; [by apply (sublist_inserts_r [r2]) in S1|]. split; [done|]. by apply Hend. }
  exists (l1 ++ l2). split; [exact (sublist_app _ _ _ _ S1 S2)|]. split; [intros Ha; by rewrite A1, A2|].
  rewrite <- app_assoc. by apply Hend.
Qed.

(** C26. An isolated port.  When the NIC takes all rules, [init_flow] returns 1 and from then on TCP over IPv4 from or to the
    port is spread over all queues of the process's port, ARP goes to queue 0, and nothing else is received.  And when it
    does not, the value is what comes of the rule for ARP alone: that the rules for TCP are refused or cannot be made is not
    noticed. *)
Theorem init_flow_steers nb_lcores n key port_id tcp_port s :
  0 <= nb_lcores <= RTE_MAX_QUEUES_PER_PORT -> rte_eth_dev_info_get port_id = 0 -> 0 <= tcp_port < 65536 ->
  let '(tcp_rules, arp) := isolate_rules nb_lcores n key port_id tcp_port in
  exists l, l `sublist_of` tcp_rules /\
    init_flow nb_lcores n key port_id tcp_port s =
      Ok (match validate_create arp (s ++ l) with inl e => (e, s ++ l) | inr s' => (1, s') end) /\
    (all_accepted -> init_flow nb_lcores n key port_id tcp_port s = Ok (1, s ++ tcp_rules ++ [arp]) /\
      forall p, packet_ok p -> steer (tcp_rules ++ [arp]) port_id p =
        if tcp_over_ipv4 p (fun src dst => (src =? tcp_port) || (dst =? tcp_port))
        then Some (ACTION_RSS RTE_ETH_RSS_NONFRAG_IPV4_TCP n key (seqZ 0 nb_lcores))
        else if ether_type p =? 0x0806 then Some (ACTION_QUEUE 0) else None).
Proof.
  intros Hn Hd Ht. pose proof (init_flow_spec nb_lcores n key port_id tcp_port s Hn Hd) as R.
  destruct (isolate_rules nb_lcores n key port_id tcp_port) as [tcp_rules arp] eqn:Er. destruct R as (l & Hl & Ha & R).
  exists l. split; [done|]. split; [done|]. intros [Hv Hc]. split.
  { rewrite R, (Ha (conj Hv Hc)). unfold validate_create. by rewrite Hv, Hc, <- app_assoc. }
  intros p [He Hp]. injection Er as <- <-. unfold steer. cbn [app find f_port ingress attr pattern matches item_matches action].
  rewrite Z.eqb_refl. cbn [andb]. unfold tcp_over_ipv4.
  rewrite (field_full (ether_type p) 0x0806 (htons 65535)) by (done || lia).
  destruct (is_ipv4 p); cbn [andb head]; [|by destruct (ether_type p =? 2054)].
  destruct (tcp p) as [[sp dp]|]; cbn [andb head]; [|by destruct (ether_type p =? 2054)].
  destruct (Hp sp dp eq_refl) as [Hsp Hdp]. cbn [src_port dst_port]. rewrite !field_any, !(field_full _ tcp_port (htons 65535)) by (done || lia).
  cbn [andb]. rewrite !andb_true_r. destruct (dp =? tcp_port); [by rewrite orb_true_r|]. destruct (sp =? tcp_port); cbn [orb andb]; [done|].
  by destruct (ether_type p =? 2054).
Qed.
End FlowFacts.

(** ** Example *)

(** A NIC that makes all rules, or none with [ACTION_RSS]. *)
Definition flow_kernel (rss : bool) : FlowKernel := {|
  rte_flow_validate f s := 0;
  rte_flow_create f s := match action f with ACTION_RSS _ _ _ _ :: _ => rss | _ => true end;
  rte_flow_isolate p b s := 0; rte_errno s := 95; rte_eth_dev_info_get p := 0;
  RTE_ETH_RSS_NONFRAG_IPV4_TCP := 16; RTE_MAX_QUEUES_PER_PORT := 1024 |}.

(** No TCP packet gets through, and the process starts. *)
Example tcp_rules_missing : flow_init (H := flow_kernel false) 4 40 default_rsskey_40bytes [] =
  Ok [(isolate_rules (H := flow_kernel false) 4 40 default_rsskey_40bytes 0 80).2].
Proof. by vm_compute. Qed.

(** The first port of a process that is the only one, isolated. *)
Lemma init_flow_steers_witness :
  exists s, init_flow (H := flow_kernel true) 4 40 default_rsskey_40bytes 0 80 [] = Ok (1, s) /\ length s = 3%nat /\
    steer s 0 (Packet 0x0800 true (Some (4321, 80))) = Some (ACTION_RSS 16 40 default_rsskey_40bytes [0; 1; 2; 3]) /\
    steer s 0 (Packet 0x0800 true (Some (4321, 81))) = None.
Proof.
  pose proof (init_flow_steers (H := flow_kernel true) (fun _ => eq_refl) ltac:(cbn; lia) 4 40 default_rsskey_40bytes 0 80 []
    ltac:(cbn; lia) eq_refl ltac:(lia)) as R.
  destruct (isolate_rules _ _ _ _ _) as [tcp_rules arp] eqn:Er. destruct R as (l & _ & _ & R).
  destruct R as [E S]; [by split; [|intros f; unfold rte_flow_create, flow_kernel; destruct (action f) as [|[] ?]]|].
  exists ([] ++ tcp_rules ++ [arp]). split; [exact E|].
  assert (forall s d, 0 <= s < 65536 -> 0 <= d < 65536 -> packet_ok (Packet 0x0800 true (Some (s, d)))) as Hp.
  { intros s d Hs Hd. split; [cbn; lia|]. cbn. by intros ?? [= <- <-]. }
  split; [by injection Er as <- <-|]. split; (cbn [app]; rewrite S by (apply Hp; lia); by vm_compute).
Defined.
