(* ===== verification/Dispatch.v ===== *)
(** * Dispatch: received packets between processes ([src/lazybsd_dpdk.cc])

    A received packet goes to the stack of this process, to the ring of another process
    that the dispatcher of the user names, back to the NIC, or to the kernel of the
    host; ARP packets and neighbour discovery go to every process as deep copies
    ([process_packets], [pktmbuf_deep_clone]).

    One port is modelled.  The rings of DPDK, the room in front of a packet and the
    dispatcher of the user are the class [DispatchKernel]. *)
From Stdlib Require Import ZifyBool.
From S2P Require Import Prelude Errno KernSubr SockConv Filter Pages Mbuf TxRing Send.

(** ** DPDK and the user *)
Class DispatchKernel := {
  rte_ring_enqueue : list Z -> Z -> Z * list Z;        (** negative if the ring is full *)
  rte_ring_dequeue_burst : list Z -> nat -> list Z * list Z;   (** at most so many, and the rest *)
  rte_pktmbuf_prepend : Z -> Z -> net -> Z * net;      (** NULL if there is no room *)
  rte_pktmbuf_tailroom : Z -> net -> Z;                (** the bytes behind the data *)
  packet_dispatcher : option (Z -> Z -> Z -> Z -> net -> Z * Z * Z * net) }.
    (** data, length, queue and number of queues give the answer, the new length, and the
        cycles that the call took *)

Definition LAZYBSD_DISPATCH_ERROR : Z := -1.
Definition LAZYBSD_DISPATCH_RESPONSE : Z := -2.
Inductive LAZYBSD_KNICTL_ACTION := KNICTL_DEFAULT | ALL_TO_KNI | ALL_TO_FF | KNICTL_MAX.

(** What does not change while packets are processed. *)
Record rx_conf := RxConf {
  rx_queue_id : Z; nb_queues : Z; rx_csum : Z; rx_ifp : Z;
  filter_conf : kni_conf; primary : bool; rx_pcap : bool;
  knictl_action : LAZYBSD_KNICTL_ACTION; kni_accept : bool }.

(** The packets to send, the packets, the rings [dispatch_ring[port]] and [kni_rp[port]],
    the traffic received, and the cycles in the dispatcher. *)
Record rx := Rx {
  rx_tx : tx_port; rx_net : net;
  dispatch_ring : gmap Z (list Z); kni_rp : list Z;
  rx_packets : Z; rx_bytes : Z; usr_cb_tsc : Z }.

Definition set_rx_net (s : net) (x : rx) : rx :=
  Rx (rx_tx x) s (dispatch_ring x) (kni_rp x) (rx_packets x) (rx_bytes x) (usr_cb_tsc x).
Definition set_rx_tx (q : tx_port) (x : rx) : rx :=
  Rx q (rx_net x) (dispatch_ring x) (kni_rp x) (rx_packets x) (rx_bytes x) (usr_cb_tsc x).
Definition set_dispatch (d : gmap Z (list Z)) (x : rx) : rx :=
  Rx (rx_tx x) (rx_net x) d (kni_rp x) (rx_packets x) (rx_bytes x) (usr_cb_tsc x).
Definition set_kni (l : list Z) (x : rx) : rx :=
  Rx (rx_tx x) (rx_net x) (dispatch_ring x) l (rx_packets x) (rx_bytes x) (usr_cb_tsc x).
Definition set_received (p b : Z) (x : rx) : rx :=
  Rx (rx_tx x) (rx_net x) (dispatch_ring x) (kni_rp x) p b (usr_cb_tsc x).
Definition set_usr_cb_tsc (v : Z) (x : rx) : rx :=
  Rx (rx_tx x) (rx_net x) (dispatch_ring x) (kni_rp x) (rx_packets x) (rx_bytes x) v.

(** A computation on the packets only. *)
Definition in_net {A} (f : net -> outcome (A * net)) (x : rx) : outcome (A * rx) :=
  '(a, s) ← f (rx_net x); Ok (a, set_rx_net s x).
Definition free_packet (p : Z) (x : rx) : rx := set_rx_net (do_call (rte_pktmbuf_free p) (rx_net x)) x.

Section Dispatch.
Context `{MbufKernel} `{TxKernel} `{DispatchKernel}.
Context (c : rx_conf).

(** ** Deep copies *)

(** The header fields and the data of one segment. *)
Definition attach (m r : rte_mbuf) : rte_mbuf :=
  RteMbuf (next r) (buf r) (data_len m) (pkt_len r) (nb_segs r) (ol_flags m) (vlan_tci m) (buf_iova r)
    (l2_len m) (l3_len m) (l4_len m) (rte_tso_segsz m).

Definition pktmbuf_deep_attach (mi m : Z) (s : net) : outcome net :=
  ri ← deref_rte s mi;
  rm ← deref_rte s m;
  s ← assign_rte mi (set_data_len (data_len rm)) s;
  let s := set_bytes (bcopy (buf rm) (buf ri) (data_len rm) (Mbuf.bytes s)) s in
  rm ← deref_rte s m;
  assign_rte mi (attach rm) s.

(** The loop; [prev] is the segment whose [next] is [*prev].  The value is the last
    [mi], the last [prev] and [nseg], an [uint8_t]. *)
Fixpoint deep_clone_loop (fuel : nat) (mi md prev nseg : Z) (s : net) : outcome (Z * Z * Z * net) :=
  match fuel with
  | O => Diverge
  | S fuel =>
      let nseg := u8 (nseg + 1) in
      s ← pktmbuf_deep_attach mi md s;
      s ← assign_rte prev (set_next mi) s;
      let prev := mi in
      r ← deref_rte s md;
      if next r =? 0 then Ok (mi, prev, nseg, s) else
      let '(mi, s) := rte_pktmbuf_alloc s in
      if mi =? 0 then Ok (mi, prev, nseg, s) else deep_clone_loop fuel mi (next r) prev nseg s
  end.

Definition pktmbuf_deep_clone (fuel : nat) (md : Z) (s : net) : outcome (Z * net) :=
  let '(mc, s) := rte_pktmbuf_alloc s in
  if mc =? 0 then Ok (0, s) else
  r ← deref_rte s md;
  let pktlen := pkt_len r in
  '(mi, prev, nseg, s) ← deep_clone_loop fuel mc md mc 0 s;
  s ← assign_rte prev (set_next 0) s;
  s ← assign_rte mc (set_nb_segs nseg) s;
  s ← assign_rte mc (set_pkt_len pktlen) s;
  if mi =? 0 then Ok (0, do_call (rte_pktmbuf_free mc) s) else Ok (mc, s).

(** ** The VLAN tag that the NIC took away *)

(** A 16-bit integer in network byte order. *)
Definition store_be16 (a v : Z) (m : memory) : memory := <[a + 1 := v mod 256]> (<[a := v / 256]> m).

Definition lazybsd_add_vlan_tag (rtem : Z) (s : net) : outcome net :=
  r ← deref_rte s rtem;
  if Z.land (ol_flags r) RTE_MBUF_F_RX_VLAN_STRIPPED =? 0 then Ok s else
  let '(data, s) := rte_pktmbuf_prepend rtem 4 s in
  if data =? 0 then Ok s else
  let m := bcopy (data + 4) data Filter.RTE_ETHER_HDR_LEN (Mbuf.bytes s) in
  let m := store_be16 (data + Filter.RTE_ETHER_HDR_LEN) (vlan_tci r) m in
  let m := bcopy (data + 12) (data + Filter.RTE_ETHER_HDR_LEN + 2) 2 m in
  let m := store_be16 (data + 12) RTE_ETHER_TYPE_VLAN m in
  Ok (set_bytes m s).

(** ** Rings *)

Definition lazybsd_kni_enqueue (pkt : Z) (x : rx) : rx :=
  let '(ret, l) := rte_ring_enqueue (kni_rp x) pkt in
  let x := set_kni l x in
  if ret <? 0 then free_packet pkt x else x.

(** [rte_ring_enqueue(dispatch_ring[port][j], p)], and what follows when it fails; an
    index without a ring faults. *)
Definition ring_or_free (j p : Z) (x : rx) : outcome rx :=
  match dispatch_ring x !! j with
  | None => Panic
  | Some l =>
      let '(ret, l) := rte_ring_enqueue l p in
      let x := set_dispatch (<[j := l]> (dispatch_ring x)) x in
      Ok (if ret <? 0 then free_packet p x else x)
  end.

(** A copy of the packet for every other queue, from [j] on, with [n] queues to go. *)
Fixpoint clone_to_queues (fuel n : nat) (j rtem : Z) (x : rx) : outcome rx :=
  match n with
  | O => Ok x
  | S n =>
      x ← (if j =? rx_queue_id c then Ok x else
           '(p, x) ← in_net (pktmbuf_deep_clone fuel rtem) x;
           if p =? 0 then Ok x else ring_or_free j p x);
      clone_to_queues fuel n (j + 1) rtem x
  end.

Definition to_stack (fuel : nat) (rtem : Z) (x : rx) : outcome rx :=
  s ← lazybsd_veth_input fuel (rx_csum c) (rx_ifp c) rtem (rx_net x); Ok (set_rx_net s x).

Definition to_kni (rtem : Z) (x : rx) : outcome rx :=
  s ← lazybsd_add_vlan_tag rtem (rx_net x); Ok (lazybsd_kni_enqueue rtem (set_rx_net s x)).

(** ** One packet *)

(** The bytes that the filter may look at. *)
Definition packet_bytes (rtem data len : Z) (s : net) : list Z :=
  bytes_of (Mbuf.bytes s) data (len + rte_pktmbuf_tailroom rtem s).

(** The packet behind the dispatcher. *)
Definition filter_packet (fuel : nat) (rtem data len : Z) (from_ring : bool) (x : rx) : outcome rx :=
  filter ← protocol_filter (filter_conf c) (packet_bytes rtem data len (rx_net x)) fuel 0 len;
  let kc := filter_conf c in
  if bool_decide (filter = FILTER_ARP) || (INET6 kc && bool_decide (filter = FILTER_NDP)) then
    x ← (if from_ring then Ok x else clone_to_queues fuel (Z.to_nat (nb_queues c)) 0 rtem x);
    x ← (if LAZYBSD_KNI kc && (enable_kni kc && primary c) then
           '(p, x) ← in_net (pktmbuf_deep_clone fuel rtem) x;
           if p =? 0 then Ok x else to_kni p x
         else Ok x);
    to_stack fuel rtem x
  else if LAZYBSD_KNI kc && enable_kni kc then
    match knictl_action c with
    | ALL_TO_KNI => to_kni rtem x
    | ALL_TO_FF => to_stack fuel rtem x
    | KNICTL_DEFAULT =>
        if enable_kni kc &&
           (bool_decide (filter = FILTER_KNI) && kni_accept c
            || bool_decide (filter = FILTER_UNKNOWN) && negb (kni_accept c))
        then to_kni rtem x else to_stack fuel rtem x
    | KNICTL_MAX => to_stack fuel rtem x
    end
  else to_stack fuel rtem x.

Definition process_packet (fuel : nat) (rtem : Z) (from_ring : bool) (x : rx) : outcome rx :=
  let x := if rx_pcap c && negb from_ring
           then set_rx_net (do_call (lazybsd_dump_packets rtem) (rx_net x)) x else x in
  r ← deref_rte (rx_net x) rtem;
  let data := buf r in
  let len := data_len r in
  let x := if from_ring then x
           else set_received (u64 (rx_packets x + nb_segs r)) (u64 (rx_bytes x + pkt_len r)) x in
  match packet_dispatcher with
  | Some dispatcher =>
      if from_ring then filter_packet fuel rtem data len from_ring x else
      let '(ret, len, cycles, s) := dispatcher data len (rx_queue_id c) (nb_queues c) (rx_net x) in
      let x := set_usr_cb_tsc (u64 (usr_cb_tsc x + cycles)) (set_rx_net s x) in
      if ret =? LAZYBSD_DISPATCH_RESPONSE then
        s ← assign_rte rtem (set_data_len len) (rx_net x);
        s ← assign_rte rtem (set_pkt_len len) s;
        s ← lazybsd_add_vlan_tag rtem s;
        '(q, s) ← send_single_packet (rx_pcap c) rtem (rx_tx x) s;
        Ok (set_rx_tx q (set_rx_net s x))
      else if (ret =? LAZYBSD_DISPATCH_ERROR) || (nb_queues c <=? ret) then Ok (free_packet rtem x)
      else if negb (ret =? rx_queue_id c) then ring_or_free ret rtem x
      else filter_packet fuel rtem data len from_ring x
  | None => filter_packet fuel rtem data len from_ring x
  end.

Fixpoint process_packets (fuel : nat) (bufs : list Z) (from_ring : bool) (x : rx) : outcome rx :=
  match bufs with
  | [] => Ok x
  | rtem :: bufs => x ← process_packet fuel rtem from_ring x; process_packets fuel bufs from_ring x
  end.

(** The packets other processes have put into the ring of this one, 32 at most. *)
Definition process_dispatch_ring (fuel : nat) (x : rx) : outcome (Z * rx) :=
  match dispatch_ring x !! rx_queue_id c with
  | None => Panic
  | Some l =>
      let '(pkts, l) := rte_ring_dequeue_burst l MAX_PKT_BURST in
      let x := set_dispatch (<[rx_queue_id c := l]> (dispatch_ring x)) x in
      x ← (if (0 <? length pkts)%nat then process_packets fuel pkts true x else Ok x);
      Ok (Z.of_nat (length pkts), x)
  end.
End Dispatch.

(** ** What a deep copy is *)
Section DeepClone.
Context `{MbufKernel}.
Context (room : Z).

(** DPDK: a pointer names one [rte_mbuf] from its allocation on, and a new one has a
    buffer of [room] bytes that holds nobody else's data. *)
Context (doc_rte_alloc : forall s p s', rte_pktmbuf_alloc s = (p, s') ->
  p = 0 /\ s' = s \/
  p <> 0 /\ rte s !! p = None /\ exists r, s' = set_rte (<[p := r]> (rte s)) s /\
    forall q r' a, rte s !! q = Some r' -> buf r <= a < buf r + room ->
      ~ (buf r' <= a < buf r' + data_len r')).

(** The bytes of the data of a segment. *)
Definition seg_data (s : net) (r : rte_mbuf) : list Z := bytes_of (Mbuf.bytes s) (buf r) (data_len r).

(** [r] in [s] is a copy of [x] in [s0]. *)
Definition copy_of (s0 : net) (x : rte_mbuf) (s : net) (r : rte_mbuf) : Prop :=
  data_len r = data_len x /\ seg_data s r = seg_data s0 x /\
  ol_flags r = ol_flags x /\ vlan_tci r = vlan_tci x.

(** The segments [ps], from [p] on and with [tl] behind them, are copies of [segs]. *)
Fixpoint copied (s0 s : net) (p : Z) (ps : list Z) (segs : list (Z * rte_mbuf)) (tl : Z) : Prop :=
  match ps, segs with
  | [], [] => p = tl
  | q :: ps, x :: segs =>
      p = q /\ p <> 0 /\ exists r, rte s !! p = Some r /\ copy_of s0 x.2 s r /\ copied s0 s (next r) ps segs tl
  | _, _ => False
  end.

Lemma copied_app s0 s p ps segs q ps' segs' tl :
  copied s0 s p ps segs q -> copied s0 s q ps' segs' tl -> copied s0 s p (ps ++ ps') (segs ++ segs') tl.
Proof.
  revert p segs. induction ps as [|q' ps IH]; intros p [|x segs]; cbn; try done; [by intros ->|].
  intros (-> & Hn & r & Hr & Hc & Hrest) Ht. split_and!; [done|done|]. exists r. split_and!; [done|done|].
  by apply IH.
Qed.

(** Other packets and other data do not matter; the last segment gets another tail. *)
Lemma copied_retail s0 s s' p ps prev segs rp tl v :
  copied s0 s p (ps ++ [prev]) segs tl -> NoDup (ps ++ [prev]) -> rte s !! prev = Some rp ->
  rte s' !! prev = Some (set_next v rp) -> (forall q, q ∈ ps -> rte s' !! q = rte s !! q) ->
  (forall q r, q ∈ ps ++ [prev] -> rte s !! q = Some r -> seg_data s' r = seg_data s r) ->
  copied s0 s' p (ps ++ [prev]) segs v.
Proof.
  intros Hc Hnd Hp Hp' Hps Hd. revert p segs Hc Hnd Hps Hd. induction ps as [|q ps IH]; intros p [|x segs] Hc Hnd Hps Hd; cbn in Hc |- *; try done.
  - destruct Hc as (-> & Hn & r & Hr & Hcp & Hrest). rewrite Hp in Hr. injection Hr as <-.
    split_and!; [done|done|]. exists (set_next v rp). destruct segs; [|done]. split_and!; try done.
    destruct Hcp as (C1 & C2 & C3 & C4). split_and!; try done. rewrite <- C2. exact (Hd prev rp ltac:(set_solver) Hp).
  - destruct Hc as (-> & Hn & r & Hr & Hcp & Hrest). apply NoDup_cons in Hnd as [Hq Hnd].
    split_and!; [done|done|]. exists r. rewrite Hps by set_solver. split_and!; [done| |].
    + destruct Hcp as (C1 & C2 & C3 & C4). split_and!; try done. rewrite <- C2. apply (Hd q); [set_solver|done].
    + apply IH; [done|done| |]; intros; [apply Hps|eapply Hd]; try done; set_solver.
Qed.

Lemma seg_data_ext s s' r :
  (forall a, buf r <= a < buf r + data_len r -> rd (Mbuf.bytes s') a = rd (Mbuf.bytes s) a) ->
  seg_data s' r = seg_data s r.
Proof.
  intros Ha. unfold seg_data, bytes_of. apply list_fmap_ext. intros i a Hi.
  apply lookup_seqZ in Hi as [-> Hi]. apply Ha. lia.
Qed.

Lemma attach_spec s mi md ri rm : rte s !! mi = Some ri -> rte s !! md = Some rm -> mi <> md ->
  pktmbuf_deep_attach mi md s =
    Ok (set_bytes (bcopy (buf rm) (buf ri) (data_len rm) (Mbuf.bytes s)) (set_rte (<[mi := attach rm ri]> (rte s)) s)).
Proof.
  intros Hi Hm Hne. unfold pktmbuf_deep_attach, deref_rte. rewrite Hi, Hm. cbn [mbind outcome_bind].
  rewrite (assign_rte_Ok s mi ri) by done. cbn [mbind outcome_bind rte set_rte set_bytes].
  rewrite lookup_insert_ne, Hm by done. cbn [mbind outcome_bind].
  erewrite assign_rte_Ok; [|cbn [rte set_rte set_bytes]; by rewrite lookup_insert_eq].
  cbn [rte set_rte set_bytes]. by rewrite insert_insert_eq.
Qed.

(** A new segment with the data of [rm]. *)
Lemma attach_copies s0 s mi ri rm n :
  0 <= data_len rm -> seg_data s rm = seg_data s0 rm ->
  let s' := set_bytes (bcopy (buf rm) (buf ri) (data_len rm) (Mbuf.bytes s))
              (set_rte (<[mi := attach rm ri]> (rte s)) s) in
  copy_of s0 rm s' (set_next n (attach rm ri)).
Proof.
  intros Hl Hd s'. split_and!; try done. rewrite <- Hd. unfold seg_data, bytes_of. cbn [buf data_len set_next attach].
  apply list_fmap_ext. intros i a Hi. apply lookup_seqZ in Hi as [-> Hi].
  unfold s'. cbn [Mbuf.bytes set_bytes set_rte]. rewrite rd_bcopy, decide_True by lia. f_equal. lia.
Qed.

(** What the state is while packets of [s0] are copied: they are as they were. *)
Definition undisturbed (s0 s : net) : Prop :=
  keeps (rte s0) (rte s) /\ mbufs s = mbufs s0 /\ calls s = calls s0 /\
  forall q r, rte s0 !! q = Some r -> seg_data s r = seg_data s0 r.

(** A segment is there, with a buffer nobody's data are in. *)
Definition fresh_seg (s0 s : net) (mi : Z) (ri : rte_mbuf) : Prop :=
  mi <> 0 /\ rte s !! mi = Some ri /\ rte s0 !! mi = None /\
  forall q r a, q <> mi -> rte s !! q = Some r -> buf ri <= a < buf ri + room ->
    ~ (buf r <= a < buf r + data_len r).

Lemma alloc_fresh s0 s p s' : undisturbed s0 s -> rte_pktmbuf_alloc s = (p, s') ->
  p = 0 /\ s' = s \/ exists r, fresh_seg s0 s' p r /\ undisturbed s0 s' /\ rte s !! p = None /\
    s' = set_rte (<[p := r]> (rte s)) s.
Proof.
  intros (U1 & U2 & U3 & U4) Ea. destruct (doc_rte_alloc _ _ _ Ea) as [?|(Hp & Hf & r & -> & Hd)]; [by left|].
  right. exists r. assert (forall q r', rte s0 !! q = Some r' -> q <> p) as Hne.
  { intros q r' Hq ->. apply U1 in Hq. by rewrite Hf in Hq. }
  split; [split_and!|split; [split_and!|done]]; try done.
  - cbn [rte set_rte]. by rewrite lookup_insert_eq.
  - destruct (rte s0 !! p) as [r'|] eqn:E; [|done]. by apply Hne in E.
  - intros q r' a Hq. cbn [rte set_rte]. rewrite lookup_insert_ne by done. apply Hd.
  - intros q r' Hq. cbn [rte set_rte]. rewrite lookup_insert_ne by (apply not_eq_sym; by eapply Hne). by apply U1.
Qed.

(** What the loop has made: the segments [ps], the last of them [prev], for [done_]. *)
Definition cloning (s0 s : net) (mc : Z) (ps : list Z) (prev : Z) (done_ : list (Z * rte_mbuf)) : Prop :=
  exists rp tl, copied s0 s mc (ps ++ [prev]) done_ tl /\ NoDup (ps ++ [prev]) /\
    rte s !! prev = Some rp /\ (forall q, q ∈ ps ++ [prev] -> rte s0 !! q = None).

Lemma copied_in s0 s p ps segs tl q : copied s0 s p ps segs tl -> q ∈ ps ->
  q <> 0 /\ exists r, rte s !! q = Some r.
Proof.
  revert p segs. induction ps as [|q' ps IH]; intros p [|x segs]; cbn; try done; [set_solver|].
  intros (-> & Hn & r & Hr & _ & Hc) [->|Hq]%elem_of_cons; [by eauto|]. by eapply IH.
Qed.

(** A write into the buffer of a fresh segment leaves the data of the others. *)
Lemma fresh_write s0 s mi ri x q r : fresh_seg s0 s mi ri -> 0 <= data_len x <= room ->
  rte s !! q = Some r -> q <> mi -> forall h,
  seg_data (set_bytes (bcopy (buf x) (buf ri) (data_len x) (Mbuf.bytes s)) h) r = seg_data s r.
Proof.
  intros (_ & _ & _ & Hd) Hx Hq Hne h. apply seg_data_ext. intros a Ha. cbn [Mbuf.bytes set_bytes].
  rewrite rd_bcopy by lia. case_decide as Hin; [|done]. exfalso. apply (Hd q r a Hne Hq); [lia|done].
Qed.

(** One round of the loop: the segment [md] is copied to [mi], which is put behind
    [prev], or is the first. *)
Lemma clone_round s0 s mi ri md x prev ps done_ mc :
  undisturbed s0 s -> fresh_seg s0 s mi ri -> rte s0 !! md = Some x -> 0 <= data_len x <= room ->
  (ps = [] /\ done_ = [] /\ prev = mi /\ mc = mi \/
   exists ps', ps = ps' ++ [prev] /\ cloning s0 s mc ps' prev done_ /\ mi ∉ ps) ->
  exists s2, (s1 ← pktmbuf_deep_attach mi md s; assign_rte prev (set_next mi) s1) = Ok s2 /\
    undisturbed s0 s2 /\ cloning s0 s2 mc ps mi (done_ ++ [(md, x)]).
Proof.
  intros U F Hx Hl Hcase. pose proof U as (U1 & U2 & U3 & U4). pose proof F as (Hn & Hmi & Hmi0 & Hd).
  assert (mi <> md) as Hne by (intros ->; by rewrite Hx in Hmi0).
  rewrite (attach_spec s mi md ri x) by (done || by apply U1). cbn [mbind outcome_bind].
  set (s1 := set_bytes _ _).
  pose proof (attach_copies s0 s mi ri x) as Hcopy. cbn zeta in Hcopy. fold s1 in Hcopy.
  assert (forall q r, rte s !! q = Some r -> q <> mi -> seg_data s1 r = seg_data s r) as Hw.
  { intros q r Hq Hqm. by eapply fresh_write. }
  assert (forall q, rte s0 !! q <> None -> q <> mi) as Hold by (intros q Hq ->; done).
  assert (forall q r, rte s0 !! q = Some r -> rte s !! q = Some r /\ q <> mi) as Hold'.
  { intros q r Hq. split; [by apply U1|]. apply Hold. by rewrite Hq. }
  destruct Hcase as [(-> & -> & -> & ->)|(ps' & -> & (rp & tl & C1 & C2 & C3 & C4) & Hmps)].
  - erewrite assign_rte_Ok; [|unfold s1; cbn [rte set_rte set_bytes]; by rewrite lookup_insert_eq].
    eexists. split; [done|]. unfold s1 in *. cbn [rte set_rte set_bytes]. rewrite insert_insert_eq. split.
    + split_and!; try done.
      * intros q r Hq. destruct (Hold' q r Hq) as [Hs Hqm]. cbn [rte set_rte].
        by rewrite lookup_insert_ne by (by apply not_eq_sym).
      * intros q r Hq. destruct (Hold' q r Hq) as [Hs Hqm]. rewrite <- (U4 q r Hq). exact (Hw q r Hs Hqm).
    + exists (set_next mi (attach x ri)), mi. cbn [app]. split_and!.
      * cbn [copied]. split_and!; [done|done|]. eexists. cbn [rte set_rte]. rewrite lookup_insert_eq.
        split_and!; [done| |done]. exact (Hcopy mi (proj1 Hl) (U4 md x Hx)).
      * apply NoDup_singleton.
      * cbn [rte set_rte]. by rewrite lookup_insert_eq.
      * by intros q ->%list_elem_of_singleton.
  - assert (prev <> mi) as Hpm by (intros ->; set_solver).
    erewrite assign_rte_Ok; [|unfold s1; cbn [rte set_rte set_bytes]; rewrite lookup_insert_ne by (by apply not_eq_sym); exact C3].
    eexists. split; [done|]. set (s2 := set_rte _ s1).
    assert (Hs2 : forall q, q <> mi -> q <> prev -> rte s2 !! q = rte s !! q).
    { intros q H1 H2. unfold s2, s1. cbn [rte set_rte set_bytes]. rewrite !lookup_insert_ne by (by apply not_eq_sym). done. }
    split.
    + split_and!; try done.
      * intros q r Hq. destruct (Hold' q r Hq) as [Hs Hqm]. rewrite Hs2; [done|done|].
        intros ->. rewrite C4 in Hq by set_solver. done.
      * intros q r Hq. destruct (Hold' q r Hq) as [Hs Hqm]. rewrite <- (U4 q r Hq). exact (Hw q r Hs Hqm).
    + exists (attach x ri), (next ri). split_and!.
      * rewrite <- app_assoc. cbn [app]. change [prev; mi] with ([prev] ++ [mi]). rewrite app_assoc.
        apply (copied_app _ _ _ _ _ mi).
        -- apply (copied_retail s0 s s2 mc ps' prev done_ rp tl mi); try done.
           ++ unfold s2. cbn [rte set_rte]. by rewrite lookup_insert_eq.
           ++ intros q Hq. apply Hs2; [set_solver|]. intros ->. apply NoDup_app in C2 as (_ & C2 & _).
              apply (C2 prev Hq). set_solver.
           ++ intros q r Hq Hr. apply (Hw q r Hr). set_solver.
        -- cbn [copied]. split_and!; [done|done|]. exists (attach x ri).
           unfold s2, s1. cbn [rte set_rte set_bytes]. rewrite lookup_insert_ne, lookup_insert_eq by done.
           split_and!; [done| |done]. exact (Hcopy (next ri) (proj1 Hl) (U4 md x Hx)).
      * apply NoDup_app. split_and!; [done| |apply NoDup_singleton]. intros q Hq ->%list_elem_of_singleton. done.
      * unfold s2, s1. cbn [rte set_rte set_bytes]. rewrite lookup_insert_ne, lookup_insert_eq by done. done.
      * intros q [Hq|Hq]%elem_of_app; [by apply C4|]. apply list_elem_of_singleton in Hq as ->. done.
Qed.

(** Nothing else of the segments matters. *)
Lemma copied_ext s0 s s' p ps segs tl : copied s0 s p ps segs tl ->
  (forall q r, q ∈ ps -> rte s !! q = Some r -> exists r', rte s' !! q = Some r' /\ next r' = next r /\
     data_len r' = data_len r /\ ol_flags r' = ol_flags r /\ vlan_tci r' = vlan_tci r /\
     seg_data s' r' = seg_data s r) ->
  copied s0 s' p ps segs tl.
Proof.
  revert p segs. induction ps as [|q ps IH]; intros p [|x segs]; cbn; try done.
  intros (-> & Hn & r & Hr & Hcp & Hrest) He. split_and!; [done|done|].
  destruct (He q r) as (r' & E1 & E2 & E3 & E4 & E5 & E6); [set_solver|done|].
  exists r'. split; [done|]. destruct Hcp as (C1 & C2 & C3 & C4). split.
  - split_and!; congruence.
  - rewrite E2. apply IH; [done|]. intros q' r1 Hq'. apply He. set_solver.
Qed.

Lemma u8_small z : 0 <= z < 256 -> u8 z = z.
Proof. intros Hz. unfold uwrap. by rewrite Z.mod_small. Qed.

Lemma deep_clone_loop_spec s0 mc rest fuel x md mi ri prev nseg s ps done_ :
  undisturbed s0 s -> fresh_seg s0 s mi ri -> linked next (rte s0) md ((md, x) :: rest) ->
  (length rest < fuel)%nat -> (forall y, y ∈ (md, x) :: rest -> 0 <= data_len y.2 <= room) ->
  nseg = Z.of_nat (length done_) -> Z.of_nat (length done_ + S (length rest)) < 256 ->
  (ps = [] /\ done_ = [] /\ prev = mi /\ mc = mi \/
   exists ps', ps = ps' ++ [prev] /\ cloning s0 s mc ps' prev done_ /\ mi ∉ ps) ->
  exists mi' prev' nseg' s' ps' done', deep_clone_loop fuel mi md prev nseg s = Ok (mi', prev', nseg', s') /\
    undisturbed s0 s' /\ cloning s0 s' mc ps' prev' done' /\
    (mi' = 0 /\ (rte_pktmbuf_alloc s').1 = 0 /\
       (exists y tail, done_ ++ (md, x) :: rest = done' ++ y :: tail) \/
     mi' <> 0 /\ done' = done_ ++ (md, x) :: rest /\ nseg' = Z.of_nat (length done')).
Proof.
  revert fuel x md mi ri prev nseg s ps done_.
  induction rest as [|y rest IH]; intros fuel x md mi ri prev nseg s ps done_ U F Hl Hf Hlen Hns Hb Hcase.
  all: destruct fuel as [|fuel]; [cbn in Hf; lia|]. all: destruct Hl as (_ & Hmd & Hx & Hl).
  all: cbn [fst snd] in *.
  all: destruct (clone_round s0 s mi ri md x prev ps done_ mc U F Hx) as (s2 & E & U2 & Cl);
    [apply (Hlen (md, x)); set_solver|done|].
  all: cbn [deep_clone_loop]; apply outcome_bind_Ok in E as (s1 & -> & E2); cbn [mbind outcome_bind]; rewrite E2;
    cbn [mbind outcome_bind]; unfold deref_rte; rewrite (proj1 U2 md x Hx); cbn [mbind outcome_bind].
  all: rewrite u8_small by (cbn in Hb; lia).
  - cbn in Hl. rewrite Hl, Z.eqb_refl. eexists _, _, _, s2, ps, _. split; [done|]. split; [done|]. split; [done|].
    right. split; [by apply F|]. split; [done|]. rewrite length_app, Hns. cbn. lia.
  - destruct y as [md' x']. destruct Hl as (Hy & Hnz & Hl). cbn [fst] in Hy. rewrite Hy.
    rewrite (proj2 (Z.eqb_neq _ 0)) by (by rewrite <- Hy).
    destruct (rte_pktmbuf_alloc s2) as [mi2 s3] eqn:Ea.
    destruct (alloc_fresh s0 s2 mi2 s3 U2 Ea) as [[-> ->]|(r & F3 & U3 & Hnew & Es3)].
    + rewrite Z.eqb_refl. eexists _, _, _, s2, ps, _. split; [done|]. split; [done|]. split; [exact Cl|].
      left. split; [done|]. split; [by rewrite Ea|]. exists (md', x'), rest. by rewrite <- app_assoc.
    + rewrite (proj2 (Z.eqb_neq mi2 0)) by (apply F3).
      destruct Cl as (rp & tl & C1 & C2 & C3 & C4).
      assert (mi2 ∉ ps ++ [mi]) as Hmi2.
      { intros Hin. destruct (copied_in _ _ _ _ _ _ _ C1 Hin) as (_ & r' & E). by rewrite Hnew in E. }
      destruct (IH fuel x' md' mi2 r mi (nseg + 1) s3 (ps ++ [mi]) (done_ ++ [(md, x)]))
        as (mi' & prev' & nseg' & s' & ps' & done' & E & U' & Cl' & D); try done.
      * split; [done|]. split; [by rewrite <- Hy|]. cbn [fst snd]. rewrite <- Hy. exact Hl.
      * cbn in Hf. lia.
      * intros z Hz. apply Hlen. set_solver.
      * rewrite length_app. cbn. lia.
      * rewrite length_app. cbn in Hb |- *. lia.
      * right. exists ps. split; [done|]. split; [|done]. subst s3. exists rp, tl. cbn [rte set_rte].
        rewrite lookup_insert_ne by set_solver. split_and!; try done.
        eapply copied_ext; [exact C1|]. intros q r' Hq Hr'. exists r'. cbn [rte set_rte].
        rewrite lookup_insert_ne by (intros ->; done). by split_and!.
      * exists mi', prev', nseg', s', ps', done'. split; [exact E|]. split; [done|]. split; [done|].
        destruct D as [(-> & D1 & D2)|(D1 & D2 & D3)]; [left|right].
        { split; [done|]. split; [done|]. by rewrite <- app_assoc in D2. } split; [done|]. split; [|done].
        rewrite D2, <- app_assoc. done.
Qed.

(** The allocator has no packet, in the state before [s'] that has the same packets and
    data. *)
Definition refused (s s' : net) : Prop :=
  exists s2, (rte_pktmbuf_alloc s2).1 = 0 /\ mbufs s2 = mbufs s' /\ Mbuf.bytes s2 = Mbuf.bytes s' /\
    dom (rte s2) = dom (rte s') /\ calls s2 = calls s.

(** What becomes of a copy without memory: nothing was made, or the copies of the first
    segments, which are freed once. *)
Definition cut_short (s s' : net) (segs : list (Z * rte_mbuf)) : Prop :=
  s' = s /\ (rte_pktmbuf_alloc s).1 = 0 \/
  exists p ps done_ y tail, segs = done_ ++ y :: tail /\ copied s s' p ps done_ 0 /\ p <> 0 /\
    (forall q, q ∈ ps -> rte s !! q = None) /\ refused s s' /\ calls s' = calls s ++ [rte_pktmbuf_free p].

(** A deep copy.  For a packet whose segments fit into a buffer, [pktmbuf_deep_clone]
    returns, and leaves all packets there were and their data as they were.  Either
    there is no memory, and what was made is freed; or it gives a new packet with a new
    segment for each segment of the packet, in order, with the same data, flags and
    VLAN tag, and with the length of the packet and the number of its segments. *)
Lemma deep_clone_spec fuel md x rest s :
  linked next (rte s) md ((md, x) :: rest) -> (S (length rest) <= fuel)%nat -> (length rest < 255)%nat ->
  (forall y, y ∈ (md, x) :: rest -> 0 <= data_len y.2 <= room) ->
  exists mc s', pktmbuf_deep_clone fuel md s = Ok (mc, s') /\
    keeps (rte s) (rte s') /\ mbufs s' = mbufs s /\
    (forall q r, rte s !! q = Some r -> seg_data s' r = seg_data s r) /\
    (mc = 0 /\ cut_short s s' ((md, x) :: rest) \/
     mc <> 0 /\ calls s' = calls s /\
       exists ps r, copied s s' mc ps ((md, x) :: rest) 0 /\ NoDup ps /\ (forall q, q ∈ ps -> rte s !! q = None) /\
         rte s' !! mc = Some r /\ pkt_len r = pkt_len x /\ nb_segs r = Z.of_nat (S (length rest))).
Proof.
  intros Hl Hf Hb Hlen. unfold pktmbuf_deep_clone.
  assert (undisturbed s s) as U0 by (split_and!; [by intros q r|done..]).
  destruct (rte_pktmbuf_alloc s) as [mc s1] eqn:Ea.
  destruct (alloc_fresh s s mc s1 U0 Ea) as [[-> ->]|(r & F & U & Hnew & Es1)].
  { exists 0, s. rewrite Z.eqb_refl. split; [done|]. split; [by intros q r|]. split; [done|]. split; [done|].
    left. split; [done|]. left. by rewrite Ea. }
  rewrite (proj2 (Z.eqb_neq mc 0)) by (apply F). pose proof Hl as (_ & _ & Hx & _). cbn [fst snd] in Hx.
  unfold deref_rte. rewrite (proj1 U md x Hx). cbn [mbind outcome_bind].
  destruct (deep_clone_loop_spec s mc rest fuel x md mc r mc 0 s1 [] [])
    as (mi & prev & nseg & s2 & ps & done_ & -> & U2 & (rp & tl & C1 & C2 & C3 & C4) & D); try done.
  { cbn. lia. }
  { by left. }
  cbn [mbind outcome_bind]. rewrite (assign_rte_Ok s2 prev rp) by done. cbn [mbind outcome_bind].
  set (s3 := set_rte _ s2).
  assert (copied s s3 mc (ps ++ [prev]) done_ 0) as C5.
  { apply (copied_retail s s2 s3 mc ps prev done_ rp tl 0); try done.
    - unfold s3. cbn [rte set_rte]. by rewrite lookup_insert_eq.
    - intros q Hq. unfold s3. cbn [rte set_rte]. rewrite lookup_insert_ne; [done|]. intros ->.
      apply NoDup_app in C2 as (_ & C2 & _). apply (C2 q Hq). set_solver. }
  assert (mc ∈ ps ++ [prev]) as Hmc.
  { destruct ps as [|q ps], done_; cbn in C5 |- *; try done; destruct C5 as (-> & _); set_solver. }
  destruct (copied_in _ _ _ _ _ _ _ C5 Hmc) as (Hmc0 & r3 & Hr3).
  do 2 (erewrite assign_rte_Ok; [|cbn [rte set_rte]; first [exact Hr3|by rewrite lookup_insert_eq]];
    cbn [mbind outcome_bind rte set_rte]). rewrite insert_insert_eq.
  set (r4 := set_pkt_len _ _). set (s4 := set_rte _ _).
  assert (forall q r', rte s !! q = Some r' -> rte s4 !! q = Some r') as K4.
  { intros q r' Hq. assert (q ∉ ps ++ [prev]) as Hn by (intros Hin; by rewrite (C4 q Hin) in Hq).
    unfold s4, s3. cbn [rte set_rte]. rewrite !lookup_insert_ne by (intros ->; set_solver). by apply U2. }
  assert (copied s s4 mc (ps ++ [prev]) done_ 0) as C6.
  { eapply copied_ext; [exact C5|]. intros q r' Hq Hr'. unfold s4. cbn [rte set_rte].
    destruct (decide (q = mc)) as [->|Hne].
    - rewrite Hr3 in Hr'. injection Hr' as <-. exists r4. rewrite lookup_insert_eq. by split_and!.
    - exists r'. rewrite lookup_insert_ne by done. by split_and!. }
  destruct U2 as (_ & V2 & V3 & V4). destruct D as [(-> & D1 & y & tail & D2)|(D1 & -> & D3)].
  - rewrite Z.eqb_refl. eexists _, _. split; [done|]. split; [exact K4|]. split; [exact V2|]. split; [exact V4|].
    left. split; [done|]. right. exists mc, (ps ++ [prev]), done_, y, tail. split; [done|].
    split; [eapply copied_ext; [exact C6|]; intros q r' _ Hr'; by exists r'|]. split_and!; try done.
    + exists s2. split_and!; try done. unfold s4, s3. cbn [do_call rte set_rte].
      rewrite !dom_insert_lookup_L; [done| |]; [by exists rp|by exists r3].
    + cbn. by rewrite V3.
  - rewrite (proj2 (Z.eqb_neq mi 0)) by done. eexists _, _. split; [done|]. split; [exact K4|]. split; [exact V2|].
    split; [exact V4|]. right. split; [done|]. split; [exact V3|]. exists (ps ++ [prev]), r4.
    split; [exact C6|]. split; [done|]. split; [exact C4|]. unfold s4. cbn [rte set_rte]. rewrite lookup_insert_eq.
    split_and!; [done|done|]. cbn. rewrite D3. cbn. done.
Qed.

(** ** A copy for every queue *)
Context `{DispatchKernel} (c : rx_conf).

(** DPDK: a ring takes the packet at its end, or is full and as it was. *)
Context (doc_ring : forall l p, let '(ret, l') := rte_ring_enqueue l p in
  ret < 0 /\ l' = l \/ 0 <= ret /\ l' = l ++ [p]).

(** What the copy for the ring [j] does to the packets and the rings.  Without memory the
    rings are as they were; a copy that a full ring does not take is freed once; and a
    copy that the ring takes is its last packet. *)
Inductive copy_round (segs : list (Z * rte_mbuf)) (j : Z) (s : net) (d : gmap Z (list Z)) : net -> gmap Z (list Z) -> Prop :=
| round_cut s' : cut_short s s' segs -> copy_round segs j s d s' d
| round_full l p ps s' :
    d !! j = Some l -> (rte_ring_enqueue l p).1 < 0 -> copied s s' p ps segs 0 -> rte s !! p = None ->
    calls s' = calls s ++ [rte_pktmbuf_free p] -> copy_round segs j s d s' d
| round_in l p ps s' :
    d !! j = Some l -> 0 <= (rte_ring_enqueue l p).1 -> copied s s' p ps segs 0 -> rte s !! p = None ->
    calls s' = calls s -> copy_round segs j s d s' (<[j := l ++ [p]]> d).

(** The packets there were, and their data, are as they were. *)
Definition kept (s s' : net) : Prop :=
  keeps (rte s) (rte s') /\ mbufs s' = mbufs s /\
  forall q r, rte s !! q = Some r -> seg_data s' r = seg_data s r.

(** The rounds for the [n] rings from [j] on, without that of this process. *)
Fixpoint rounds (segs : list (Z * rte_mbuf)) (n : nat) (j : Z) (s : net) (d : gmap Z (list Z)) (s' : net)
    (d' : gmap Z (list Z)) : Prop :=
  match n with
  | O => s' = s /\ d' = d
  | S n => exists s1 d1, kept s s1 /\ (if j =? rx_queue_id c then s1 = s /\ d1 = d else copy_round segs j s d s1 d1) /\
      rounds segs n (j + 1) s1 d1 s' d'
  end.

Lemma kept_trans s1 s2 s3 : kept s1 s2 -> kept s2 s3 -> kept s1 s3.
Proof.
  intros (K1 & K2 & K3) (L1 & L2 & L3). split_and!.
  - intros q r Hq. by apply L1, K1.
  - congruence.
  - intros q r Hq. rewrite (L3 q r (K1 q r Hq)). exact (K3 q r Hq).
Qed.

(** Copies stay copies, and copies of what was kept are copies of what there was. *)
Lemma copied_kept s0 s s' p ps segs : copied s0 s p ps segs 0 -> kept s s' -> copied s0 s' p ps segs 0.
Proof.
  intros Hc (K1 & _ & K3). eapply copied_ext; [exact Hc|]. intros q r _ Hr. exists r.
  split; [by apply K1|]. split_and!; try done. exact (K3 q r Hr).
Qed.

Lemma copied_source s0 s1 s p ps segs : kept s0 s1 -> (forall y, y ∈ segs -> rte s0 !! y.1 = Some y.2) ->
  copied s1 s p ps segs 0 -> copied s0 s p ps segs 0.
Proof.
  intros (_ & _ & K3) Hin. revert p segs Hin. induction ps as [|q ps IH]; intros p [|y segs] Hin; cbn; try done.
  intros (-> & Hn & r & Hr & (C1 & C2 & C3 & C4) & Hc). split_and!; [done|done|]. exists r. split_and!; try done.
  - split_and!; try done. rewrite C2. apply (K3 y.1 y.2), Hin. set_solver.
  - apply IH; [|done]. intros z Hz. apply Hin. set_solver.
Qed.

(** One copy for the ring [j]. *)
Lemma one_copy fuel j md y rest x :
  let segs := (md, y) :: rest in
  linked next (rte (rx_net x)) md segs -> (length segs <= fuel)%nat -> (length segs < 256)%nat ->
  (forall z, z ∈ segs -> 0 <= data_len z.2 <= room) -> is_Some (dispatch_ring x !! j) ->
  exists s' d', ('(p, x) ← in_net (pktmbuf_deep_clone fuel md) x;
      if p =? 0 then Ok x else ring_or_free j p x) = Ok (set_dispatch d' (set_rx_net s' x)) /\
    kept (rx_net x) s' /\ copy_round segs j (rx_net x) (dispatch_ring x) s' d'.
Proof.
  intros segs Hl Hf Hb Hlen [l Hj]. unfold in_net.
  destruct (deep_clone_spec fuel md y rest (rx_net x)) as (mc & s' & -> & K1 & K2 & K3 & D); [done|done|cbn in Hb; lia|done|].
  assert (kept (rx_net x) s') as K by done. cbn [mbind outcome_bind].
  destruct D as [[-> Hcut]|(Hn & Hcalls & ps & r & C1 & C2 & C3 & _)].
  { rewrite Z.eqb_refl. exists s', (dispatch_ring x). split_and!; [done|done|]. by apply round_cut. }
  rewrite (proj2 (Z.eqb_neq mc 0)) by done. unfold ring_or_free. cbn [dispatch_ring set_rx_net]. rewrite Hj.
  assert (rte (rx_net x) !! mc = None) as Hnew.
  { apply C3. destruct ps as [|q ps]; [by cbn in C1|]. destruct C1 as (-> & _). set_solver. }
  pose proof (doc_ring l mc) as Hr. destruct (rte_ring_enqueue l mc) as [ret l'] eqn:El.
  destruct Hr as [[Hret ->]|[Hret ->]].
  - replace (ret <? 0) with true by lia. eexists (do_call (rte_pktmbuf_free mc) s'), (dispatch_ring x).
    unfold free_packet. cbn [rx_net set_rx_net set_dispatch dispatch_ring]. rewrite insert_id by done.
    split_and!; [done|done|]. apply (round_full segs j _ _ l mc ps); try done; [by rewrite El| |cbn; by rewrite Hcalls].
    eapply copied_ext; [exact C1|]. intros q r' _ Hr'. by exists r'.
  - replace (ret <? 0) with false by lia. eexists s', _. split_and!; [done|done|].
    apply (round_in segs j _ _ l mc ps); try done. by rewrite El.
Qed.

Lemma kept_refl s : kept s s.
Proof. by split_and!; [intros q r|..]. Qed.

(** The ring of the round, and the others. *)
Lemma round_rings segs j s d s' d' : copy_round segs j s d s' d' ->
  (forall i, i <> j -> d' !! i = d !! i) /\
  (d' !! j = d !! j \/ exists l p ps, d !! j = Some l /\ d' !! j = Some (l ++ [p]) /\ rte s !! p = None /\ copied s s' p ps segs 0).
Proof.
  intros [s1 Hc|l p ps s1 Hl Hr Hc Hn He|l p ps s1 Hl Hr Hc Hn He].
  - split; [done|by left].
  - split; [done|by left].
  - split; [intros i Hi; by rewrite lookup_insert_ne|]. right. exists l, p, ps. by rewrite lookup_insert_eq.
Qed.

(** The round of the loop for the ring [k]. *)
Lemma queue_round fuel k md y rest x :
  let segs := (md, y) :: rest in
  linked next (rte (rx_net x)) md segs -> (length segs <= fuel)%nat -> (length segs < 256)%nat ->
  (forall z, z ∈ segs -> 0 <= data_len z.2 <= room) -> is_Some (dispatch_ring x !! k) ->
  exists s' d', (if k =? rx_queue_id c then Ok x else
      '(p, x) ← in_net (pktmbuf_deep_clone fuel md) x; if p =? 0 then Ok x else ring_or_free k p x) =
        Ok (set_dispatch d' (set_rx_net s' x)) /\
    kept (rx_net x) s' /\
    (if k =? rx_queue_id c then s' = rx_net x /\ d' = dispatch_ring x
     else copy_round segs k (rx_net x) (dispatch_ring x) s' d').
Proof.
  intros segs Hl Hf Hb Hlen Hk. destruct (Z.eqb_spec k (rx_queue_id c)) as [Hkq|Hkq]; [|by apply one_copy].
  exists (rx_net x), (dispatch_ring x). split; [by destruct x|]. split; [apply kept_refl|done].
Qed.

(** The rounds work on the packets as they were at the start. *)
Lemma clone_to_queues_spec fuel n k md y rest x :
  let segs := (md, y) :: rest in
  linked next (rte (rx_net x)) md segs -> (length segs <= fuel)%nat -> (length segs < 256)%nat ->
  (forall z, z ∈ segs -> 0 <= data_len z.2 <= room) ->
  (forall j, k <= j < k + Z.of_nat n -> is_Some (dispatch_ring x !! j)) ->
  exists s' d', clone_to_queues c fuel n k md x = Ok (set_dispatch d' (set_rx_net s' x)) /\
    kept (rx_net x) s' /\ rounds segs n k (rx_net x) (dispatch_ring x) s' d'.
Proof.
  intros segs Hl Hf Hb Hlen. revert k x Hl. induction n as [|n IH]; intros k x Hl Hrings.
  { exists (rx_net x), (dispatch_ring x). split; [by destruct x|]. split; [apply kept_refl|done]. }
  cbn [clone_to_queues].
  destruct (queue_round fuel k md y rest x) as (s2 & d2 & -> & K2 & G2); try done.
  { apply Hrings. lia. }
  cbn [mbind outcome_bind].
  assert (forall i, i <> k -> d2 !! i = dispatch_ring x !! i) as O2.
  { destruct (k =? rx_queue_id c); [by destruct G2 as [_ ->]|by apply round_rings in G2 as [? _]]. }
  destruct (IH (k + 1) (set_dispatch d2 (set_rx_net s2 x))) as (s3 & d3 & -> & K3 & G3).
  - eapply linked_ext; [|exact Hl]. intros z Hz. cbn [rx_net set_dispatch set_rx_net].
    assert (rte (rx_net x) !! z.1 = Some z.2) as E by (by eapply linked_in). rewrite E. by apply (proj1 K2).
  - intros j Hj. cbn [dispatch_ring set_dispatch]. rewrite O2 by lia. apply Hrings. lia.
  - exists s3, d3. split; [done|]. split; [by eapply kept_trans|]. cbn [rounds]. by exists s2, d2.
Qed.

(** The ring [j] got nothing, or a copy of the packet at its end. *)
Definition got_copy (segs : list (Z * rte_mbuf)) (s : net) (d : gmap Z (list Z)) (s' : net) (d' : gmap Z (list Z)) (j : Z) : Prop :=
  d' !! j = d !! j \/
  exists l p ps, d !! j = Some l /\ d' !! j = Some (l ++ [p]) /\ rte s !! p = None /\ copied s s' p ps segs 0.

(** What the rounds leave in the rings: the other rings are as they were, and each of the
    rings is, or has a copy of the packet there was at the start. *)
Lemma rounds_rings segs n k s d s' d' :
  (forall z, z ∈ segs -> rte s !! z.1 = Some z.2) -> rounds segs n k s d s' d' ->
  kept s s' /\ (forall j, ~ (k <= j < k + Z.of_nat n /\ j <> rx_queue_id c) -> d' !! j = d !! j) /\
  forall j, got_copy segs s d s' d' j.
Proof.
  revert k s d. induction n as [|n IH]; intros k s d Hin; cbn [rounds].
  { intros [-> ->]. split_and!; [apply kept_refl|done|]. intros j. by left. }
  intros (s1 & d1 & K & H1 & H2). destruct (IH (k + 1) s1 d1) as (K2 & O & G); [|done|].
  { intros z Hz. by apply (proj1 K), Hin. }
  assert ((forall j, ~ (j = k /\ k <> rx_queue_id c) -> d1 !! j = d !! j) /\ got_copy segs s d s1 d1 k) as [O1 G1].
  { destruct (Z.eqb_spec k (rx_queue_id c)); [destruct H1 as [_ ->]; split; [done|by left]|].
    apply round_rings in H1 as [O1 G1]. split; [|done]. intros j Hj. apply O1. intros ->. by apply Hj. }
  split; [by eapply kept_trans|]. split.
  - intros j Hj. rewrite O, O1 by lia. done.
  - intros j. destruct (decide (j = k)) as [->|Hjk].
    + assert (d' !! k = d1 !! k) as E by (apply O; lia).
      destruct G1 as [G1|(l & p & ps & E1 & E2 & E3 & E4)]; [left; by rewrite E|].
      right. exists l, p, ps. rewrite E. split_and!; try done. by eapply copied_kept.
    + assert (d1 !! j = d !! j) as E by (apply O1; lia).
      destruct (G j) as [Gj|(l & p & ps & E1 & E2 & E3 & E4)]; [left; by rewrite Gj|].
      right. exists l, p, ps. rewrite <- E. split_and!; try done.
      * destruct (rte s !! p) as [r|] eqn:Er; [|done]. apply (proj1 K) in Er. by rewrite Er in E3.
      * eapply copied_source; [exact K|done|exact E4].
Qed.

(** C9. Every process learns of an ARP packet.  For a packet whose segments fit into a
    buffer, [clone_to_queues] returns; the packets there were and their data, and all
    besides the packets and the rings, are as they were, and so is the ring of this
    process.  The ring of each other process has at its end a deep copy of the packet, a
    new segment for each segment with the same data, flags and VLAN tag, or is as it
    was.  [rounds] says when it is: if the allocator has no packet for a segment, and
    then the copies of the segments before are freed once; or if the ring does not take
    the copy, which is made in full and freed once.  Nothing else is freed, and a ring that
    takes the copy of a packet for which there is memory gets it. *)
Theorem every_queue_gets_a_copy fuel n md y rest x :
  let segs := (md, y) :: rest in
  linked next (rte (rx_net x)) md segs -> (length segs <= fuel)%nat -> (length segs < 256)%nat ->
  (forall z, z ∈ segs -> 0 <= data_len z.2 <= room) ->
  (forall j, 0 <= j < Z.of_nat n -> is_Some (dispatch_ring x !! j)) ->
  exists s' d', clone_to_queues c fuel n 0 md x = Ok (set_dispatch d' (set_rx_net s' x)) /\
    kept (rx_net x) s' /\ rounds segs n 0 (rx_net x) (dispatch_ring x) s' d' /\
    (forall j, got_copy segs (rx_net x) (dispatch_ring x) s' d' j) /\
    (forall j, ~ (0 <= j < Z.of_nat n /\ j <> rx_queue_id c) -> d' !! j = dispatch_ring x !! j).
Proof.
  intros segs Hl Hf Hb Hlen Hrings.
  destruct (clone_to_queues_spec fuel n 0 md y rest x) as (s' & d' & E & K & Rs); try done.
  exists s', d'. split; [done|]. split; [done|]. split; [done|].
  assert (forall z, z ∈ segs -> rte (rx_net x) !! z.1 = Some z.2) as Hin by (intros z Hz; by eapply linked_in).
  destruct (rounds_rings segs n 0 _ _ s' d' Hin Rs) as (_ & O & G). by split.
Qed.
End DeepClone.


(** ** Examples *)

(** Rings without end, a packet with room in front, and a packet of two segments. *)
#[export] Instance example_dispatch_kernel : DispatchKernel := {
  rte_ring_enqueue l p := (0, l ++ [p]);
  rte_ring_dequeue_burst l n := (take n l, drop n l);
  rte_pktmbuf_prepend p n s := (0, s);
  rte_pktmbuf_tailroom p s := 100;
  packet_dispatcher := None }.

(** New segments have their buffers far behind all data. *)
Definition far_alloc (s : net) : Z * net :=
  let p := fresh (dom (rte s) ∪ {[0]} : gset Z) in
  let b := map_fold (fun _ r a => Z.max a (buf r + Z.max 0 (data_len r))) 0 (rte s) in
  (p, set_rte (<[p := RteMbuf 0 b 0 0 1 0 0 0 0 0 0 0]> (rte s)) s).

Definition far_kernel : MbufKernel := 
  let k := example_mbuf_kernel 8 in {|
  M_EXT := @M_EXT k; M_VLANTAG := @M_VLANTAG k; EXT_DISPOSABLE := @EXT_DISPOSABLE k;
  CSUM_IP := @CSUM_IP k; CSUM_TCP := @CSUM_TCP k; CSUM_UDP := @CSUM_UDP k; CSUM_SCTP := @CSUM_SCTP k;
  CSUM_TSO := @CSUM_TSO k; CSUM_IP_CHECKED := @CSUM_IP_CHECKED k; CSUM_IP_VALID := @CSUM_IP_VALID k;
  CSUM_DATA_VALID := @CSUM_DATA_VALID k; CSUM_PSEUDO_HDR := @CSUM_PSEUDO_HDR k;
  RX_CKSUM_BAD := @RX_CKSUM_BAD k; RTE_MBUF_F_RX_VLAN_STRIPPED := @RTE_MBUF_F_RX_VLAN_STRIPPED k;
  M_TRAILINGSPACE := @M_TRAILINGSPACE k; m_gethdr := @m_gethdr k; m_get := @m_get k; m_getm2 := @m_getm2 k;
  m_pkthdr_init := @m_pkthdr_init k; m_extadd := @m_extadd k; m_copydata := @m_copydata k; m_freem := @m_freem k;
  rte_pktmbuf_alloc := far_alloc |}.

Lemma far_alloc_doc s p s' : rte_pktmbuf_alloc (MbufKernel := far_kernel) s = (p, s') ->
  p = 0 /\ s' = s \/
  p <> 0 /\ rte s !! p = None /\ exists r, s' = set_rte (<[p := r]> (rte s)) s /\
    forall q r' a, rte s !! q = Some r' -> buf r <= a < buf r + 2048 ->
      ~ (buf r' <= a < buf r' + data_len r').
Proof.
  cbn [rte_pktmbuf_alloc far_kernel]. unfold far_alloc.
  pose proof (is_fresh (dom (rte s) ∪ {[0]} : gset Z)) as Hf. set (q := fresh _) in *. clearbody q.
  intros [= <- <-]. right. split; [set_solver|]. split; [apply not_elem_of_dom; set_solver|].
  eexists. split; [done|]. intros q' r' a Hq. cbn [buf].
  assert (buf r' + Z.max 0 (data_len r') <=
    map_fold (fun _ r a => Z.max a (buf r + Z.max 0 (data_len r))) 0 (rte s)) as Hm; [|lia].
  clear Hf. revert q' r' Hq. apply (map_fold_weak_ind (fun acc m => forall q' r', m !! q' = Some r' ->
    buf r' + Z.max 0 (data_len r') <= acc)); [done|].
  intros i r0 m acc Hi IH q' r' Hq. destruct (decide (q' = i)) as [->|Hne].
  - rewrite lookup_insert_eq in Hq. injection Hq as <-. lia.
  - rewrite lookup_insert_ne in Hq by done. specialize (IH q' r' Hq). lia.
Qed.


(** Three queues; this process has the second. *)
Definition example_rx_conf : rx_conf :=
  RxConf 1 3 0 7 (KniConf true false false [] []) true false KNICTL_DEFAULT false.
Definition example_rx : rx :=
  Rx (tx_init 0 0) example_net (<[0 := []]> (<[1 := []]> (<[2 := [5]]> ∅))) [] 0 0 0.

Lemma example_ring_doc l p : let '(ret, l') := rte_ring_enqueue l p in
  ret < 0 /\ l' = l \/ 0 <= ret /\ l' = l ++ [p].
Proof. cbn. right. by split; [lia|]. Qed.

Lemma every_queue_gets_a_copy_witness :
  exists s' d', clone_to_queues (H := far_kernel) example_rx_conf 2 3 0 10 example_rx =
      Ok (set_dispatch d' (set_rx_net s' example_rx)) /\ d' !! 1 = Some [].
Proof.
  destruct (every_queue_gets_a_copy (H := far_kernel) (H0 := example_dispatch_kernel) 2048 far_alloc_doc example_rx_conf
    example_ring_doc 2 3 10 (RteMbuf 20 100 4 6 2 0 0 0 0 0 0 0)
    [(20, RteMbuf 0 200 2 0 0 0 0 0 0 0 0 0)] example_rx) as (s' & d' & E & _ & _ & _ & O).
  - by vm_compute.
  - cbn. lia.
  - cbn. lia.
  - intros y [->|[->|?%not_elem_of_nil]%elem_of_cons]%elem_of_cons; [| |done]; cbn; lia.
  - intros j Hj. assert (j = 0 \/ j = 1 \/ j = 2) as [->|[->| ->]] by lia; eexists; by vm_compute.
  - exists s', d'. split; [exact E|]. rewrite (O 1); [done|]. cbn. lia.
Defined.
