(* ===== verification/Kni.v ===== *)
(** * Kni: packets to and from the kernel of the host ([src/lazybsd_dpdk.cc])

    The filter of Filter.v leaves some packets to the kernel of the host.  They wait in the
    ring [kni_rp] of their port ([lazybsd_kni_enqueue]); the primary process sends them to a
    virtual port that the kernel of the host reads ([kni_process_tx]) and sends what the
    kernel writes there to the NIC ([kni_process_rx]).  What a port does not take is freed
    and counted.

    The virtual port is one of [virtio_user]: nothing in the repository defines
    [LAZYBSD_KNI_KNI].  One port is modelled; the calls of DPDK are [Send.TxKernel],
    [Dispatch.DispatchKernel] and [KniKernel]. *)
From Stdlib Require Import ZifyBool.
From S2P Require Import Prelude Errno KernSubr SockConv Filter Pages Mbuf TxRing Send Dispatch.

(** ** The state of a port *)

Class KniKernel := {
  rte_eth_rx_burst : Z -> Z -> nat -> net -> list Z * net   (** port, queue, at most so many packets *) }.

Record kni_interface_stats := KniStats {
  kni_port_id : Z; kni_rx_packets : Z; rx_dropped : Z; kni_tx_packets : Z; tx_dropped : Z }.
Definition count_rx (sent dropped : Z) (k : kni_interface_stats) : kni_interface_stats :=
  KniStats (kni_port_id k) (u64 (kni_rx_packets k + sent)) (u64 (rx_dropped k + dropped)) (kni_tx_packets k) (tx_dropped k).
Definition count_tx (sent dropped : Z) (k : kni_interface_stats) : kni_interface_stats :=
  KniStats (kni_port_id k) (kni_rx_packets k) (rx_dropped k) (u64 (kni_tx_packets k + sent)) (u64 (tx_dropped k + dropped)).

(** [rte_pktmbuf_free] for each packet. *)
Definition free_packets (l : list Z) (s : net) : net := foldl (fun s p => do_call (rte_pktmbuf_free p) s) s l.

(** ** The two directions *)
Section Kni.
Context `{TxKernel} `{DispatchKernel} `{KniKernel}.

(** Packets [l] to the port [p]: how many it took; the others are freed. *)
Definition burst_or_free (p queue : Z) (l : list Z) (s : net) : Z * net :=
  let '(n, s) := rte_eth_tx_burst p queue l s in
  (n, if n <? Z.of_nat (length l) then free_packets (drop (Z.to_nat n) l) s else s).

Definition kni_process_tx (count : nat) (k : kni_interface_stats) (x : rx) : kni_interface_stats * rx :=
  let '(pkts, l) := rte_ring_dequeue_burst (kni_rp x) count in
  let '(nb_kni_tx, s) := burst_or_free (kni_port_id k) 0 pkts (rx_net x) in
  (count_rx nb_kni_tx (Z.of_nat (length pkts) - nb_kni_tx) k, set_rx_net s (set_kni l x)).

Definition kni_process_rx (port queue : Z) (count : nat) (k : kni_interface_stats) (x : rx) : kni_interface_stats * rx :=
  let '(pkts, s) := rte_eth_rx_burst (kni_port_id k) 0 count (rx_net x) in
  if (0 <? length pkts)%nat then
    let '(nb_rx, s) := burst_or_free port queue pkts s in
    (count_tx nb_rx (Z.of_nat (length pkts) - nb_rx) k, set_rx_net s x)
  else (k, set_rx_net s x).

Definition lazybsd_kni_process (port queue : Z) (count : nat) (k : kni_interface_stats) (x : rx) : kni_interface_stats * rx :=
  let '(k, x) := kni_process_tx count k x in kni_process_rx port queue count k x.

(** ** Runs: packets for the kernel of the host come in, and the loop comes by. *)
Inductive kni_op :=
| Enqueue (pkt : Z)
| Process (port queue : Z).

Definition kni_step (o : kni_op) (k : kni_interface_stats) (x : rx) : kni_interface_stats * rx :=
  match o with
  | Enqueue pkt => (k, lazybsd_kni_enqueue pkt x)
  | Process port queue => lazybsd_kni_process port queue MAX_PKT_BURST k x
  end.
Fixpoint kni_run (l : list kni_op) (k : kni_interface_stats) (x : rx) : kni_interface_stats * rx :=
  match l with
  | [] => (k, x)
  | o :: l => let '(k, x) := kni_step o k x in kni_run l k x
  end.
End Kni.

(** ** Set-up *)

(** Strings are lists of characters; [strcasecmp(a, b) == 0]. *)
Definition tolower (c : Z) : Z := if (65 <=? c) && (c <=? 90) then c + 32 else c.
Definition strcaseeq (a b : list Z) : bool := bool_decide (tolower <$> a = tolower <$> b).
Definition chars (s : string) : list Z := Z.of_nat ∘ Ascii.nat_of_ascii <$> String.list_ascii_of_string s.

Definition get_kni_action (c : option (list Z)) : LAZYBSD_KNICTL_ACTION :=
  match c with
  | None => KNICTL_DEFAULT
  | Some c =>
      if strcaseeq c (chars "alltokni") then ALL_TO_KNI
      else if strcaseeq c (chars "alltoff") then ALL_TO_FF
      else KNICTL_DEFAULT
  end.

(** What the set-up asks of DPDK; a refusal ends the process. *)
Inductive kni_request :=
| ZmallocStats (n : Z) | ZmallocRings (n : Z) | ZmallocTcp | ZmallocUdp
| ZmallocStat (port : Z) | DevInfo (port : Z) | HotplugAdd (port : Z) | RingCreate (port : Z) | RingLookup (port : Z).

Record kni_state := KniState {
  kni_stat : gmap Z kni_interface_stats; kni_rings : gmap Z (list Z);
  tcp_port_bitmap : list Z; udp_port_bitmap : list Z;
  kni_accepts : bool; kni_act : LAZYBSD_KNICTL_ACTION }.

(** The section of the configuration, with what of [dpdk] it needs. *)
Record kni_cfg := KniCfg {
  kni_method : list Z; kni_action_cfg : option (list Z); kni_tcp_port : option (list Z); kni_udp_port : option (list Z);
  portid_list : list Z }.

Section Setup.
Context (grants : kni_request -> bool) (shared_ring : Z -> list Z) (is_primary : bool) (nb_dev_ports : Z).

Definition ask (r : kni_request) : outcome unit := if grants r then Ok () else Panic.

Definition lazybsd_kni_init (nb_ports : Z) (tcp_ports udp_ports : option (list Z)) : outcome (list Z * list Z) :=
  _ ← (if is_primary then ask (ZmallocStats nb_ports) else Ok ());
  _ ← ask (ZmallocRings nb_ports);
  _ ← ask ZmallocTcp;
  _ ← ask ZmallocUdp;
  t ← kni_set_bitmap tcp_ports (replicate 8192 0);
  u ← kni_set_bitmap udp_ports (replicate 8192 0);
  Ok (t, u).

Definition lazybsd_kni_alloc (port_id port_idx : Z) (k : kni_state) : outcome kni_state :=
  k ← (if is_primary then
         _ ← ask (ZmallocStat port_id);
         _ ← ask (DevInfo port_id);
         _ ← ask (HotplugAdd port_id);
         Ok (KniState (<[port_id := KniStats (u16 (port_idx + nb_dev_ports)) 0 0 0 0]> (kni_stat k)) (kni_rings k)
               (tcp_port_bitmap k) (udp_port_bitmap k) (kni_accepts k) (kni_act k))
       else Ok k);
  _ ← (if is_primary then _ ← ask (RingCreate port_id); ask (RingLookup port_id) else ask (RingLookup port_id));
  Ok (KniState (kni_stat k) (<[port_id := if is_primary then [] else shared_ring port_id]> (kni_rings k))
        (tcp_port_bitmap k) (udp_port_bitmap k) (kni_accepts k) (kni_act k)).

Fixpoint kni_alloc_loop (i : Z) (ports : list Z) (k : kni_state) : outcome kni_state :=
  match ports with
  | [] => Ok k
  | port_id :: ports => k ← lazybsd_kni_alloc port_id i k; kni_alloc_loop (i + 1) ports k
  end.

Definition init_kni (c : kni_cfg) : outcome kni_state :=
  let kni_accept := strcaseeq (kni_method c) (chars "accept") in
  '(t, u) ← lazybsd_kni_init nb_dev_ports (kni_tcp_port c) (kni_udp_port c);
  kni_alloc_loop 0 (portid_list c) (KniState ∅ ∅ t u kni_accept (get_kni_action (kni_action_cfg c))).
End Setup.

(** ** Specification: a queue for the kernel of the host

    [waiting] packets leave in order; each is [forwarded] or freed.  [to_nic] are those that
    the kernel wrote and the NIC took.  [released] are all that were freed, in order. *)
Record kniq := Kniq { waiting : list Z; forwarded : list Z; undelivered : list Z; to_nic : list Z; unsent : list Z; released : list Z }.
Definition kniq_init : kniq := Kniq [] [] [] [] [] [].

Inductive kniq_step : kni_op -> kniq -> kniq -> Prop :=
| q_accept pkt w f u t v r : kniq_step (Enqueue pkt) (Kniq w f u t v r) (Kniq (w ++ [pkt]) f u t v r)
| q_refuse pkt w f u t v r : kniq_step (Enqueue pkt) (Kniq w f u t v r) (Kniq w f u t v (r ++ [pkt]))
| q_process port queue sent lost w f u nsent nlost t v r :
    (length (sent ++ lost) <= MAX_PKT_BURST)%nat -> (length (nsent ++ nlost) <= MAX_PKT_BURST)%nat ->
    kniq_step (Process port queue) (Kniq (sent ++ lost ++ w) f u t v r)
      (Kniq w (f ++ sent) (u ++ lost) (t ++ nsent) (v ++ nlost) (r ++ lost ++ nlost)).

Inductive kniq_steps : list kni_op -> kniq -> kniq -> Prop :=
| q_done q : kniq_steps [] q q
| q_more o l q q1 q2 : kniq_step o q q1 -> kniq_steps l q1 q2 -> kniq_steps (o :: l) q q2.

(** The state of the port is the one of the queue: the ring has the packets that wait, the
    counters are the numbers of packets, and exactly the released ones were freed. *)
Definition counted {A} (n : Z) (l : list A) : Prop := n = u64 (Z.of_nat (length l)).
Definition kni_shows (calls0 : list call) (k : kni_interface_stats) (x : rx) (q : kniq) : Prop :=
  kni_rp x = waiting q /\
  counted (kni_rx_packets k) (forwarded q) /\ counted (rx_dropped k) (undelivered q) /\
  counted (kni_tx_packets k) (to_nic q) /\ counted (tx_dropped k) (unsent q) /\
  calls (rx_net x) = calls0 ++ (rte_pktmbuf_free <$> released q).

Section KniFacts.
Context `{TxKernel} `{DispatchKernel} `{KniKernel}.
Context (doc_tx_burst : forall p q l s, 0 <= (rte_eth_tx_burst p q l s).1 <= Z.of_nat (length l)).
Context (doc_tx_calls : forall p q l s, calls (rte_eth_tx_burst p q l s).2 = calls s).
Context (doc_rx_burst : forall p q n s, (length (rte_eth_rx_burst p q n s).1 <= n)%nat /\ calls (rte_eth_rx_burst p q n s).2 = calls s).
Context (doc_ring : forall l p, let '(ret, l') := rte_ring_enqueue l p in
  ret < 0 /\ l' = l \/ 0 <= ret /\ l' = l ++ [p]).
Context (doc_dequeue : forall l n, let '(pkts, l') := rte_ring_dequeue_burst l n in
  l = pkts ++ l' /\ (length pkts <= n)%nat).

Lemma calls_free_packets l s : calls (free_packets l s) = calls s ++ (rte_pktmbuf_free <$> l).
Proof.
  revert s. induction l as [|p l IH]; intros s; cbn; [by rewrite app_nil_r|].
  unfold free_packets in IH. rewrite IH. cbn [calls do_call]. by rewrite <- app_assoc.
Qed.

(** A burst splits the packets: the port took the first ones, the others are freed. *)
Lemma burst_splits p queue l s : exists sent lost s', l = sent ++ lost /\
  burst_or_free p queue l s = (Z.of_nat (length sent), s') /\
  calls s' = calls s ++ (rte_pktmbuf_free <$> lost).
Proof.
  unfold burst_or_free. pose proof (doc_tx_burst p queue l s) as Hn. pose proof (doc_tx_calls p queue l s) as Hc.
  destruct (rte_eth_tx_burst p queue l s) as [n s1]. cbn [fst snd] in *.
  exists (take (Z.to_nat n) l), (drop (Z.to_nat n) l). eexists. split; [by rewrite take_drop|].
  rewrite length_take. replace (Z.of_nat (Z.to_nat n `min` length l)) with n by lia. split; [reflexivity|].
  destruct (n <? Z.of_nat (length l)) eqn:E; [by rewrite calls_free_packets, Hc|].
  rewrite drop_ge by lia. by rewrite app_nil_r.
Qed.

Lemma counted_app {A} (n d : Z) (l l' : list A) : counted n l -> d = Z.of_nat (length l') -> counted (u64 (n + d)) (l ++ l').
Proof. unfold counted, uwrap. intros -> ->. rewrite length_app, Nat2Z.inj_add. by rewrite Zplus_mod_idemp_l. Qed.

Lemma kni_step_refines calls0 o k x q : kni_shows calls0 k x q ->
  exists q', kniq_step o q q' /\ let '(k', x') := kni_step o k x in kni_shows calls0 k' x' q'.
Proof.
  destruct q as [w f u t v r]. intros (Hw & Hf & Hu & Ht & Hv & Hr). cbn in *. destruct o as [pkt|port queue]; cbn [kni_step].
  - unfold lazybsd_kni_enqueue. pose proof (doc_ring (kni_rp x) pkt) as Hd.
    destruct (rte_ring_enqueue (kni_rp x) pkt) as [ret l]. destruct Hd as [[Hret ->]|[Hret ->]].
    + eexists. split; [apply q_refuse|]. rewrite (proj2 (Z.ltb_lt ret 0)) by done. split_and!; try done.
      cbn. by rewrite Hr, <- app_assoc, fmap_app.
    + eexists. split; [apply q_accept|]. rewrite (proj2 (Z.ltb_ge ret 0)) by done. split_and!; try done. cbn. by rewrite Hw.
  - unfold lazybsd_kni_process, kni_process_tx, kni_process_rx. pose proof (doc_dequeue (kni_rp x) MAX_PKT_BURST) as Hd.
    destruct (rte_ring_dequeue_burst (kni_rp x) MAX_PKT_BURST) as [pkts l]. destruct Hd as [Hl Hlen].
    destruct (burst_splits (kni_port_id k) 0 pkts (rx_net x)) as (sent & lost & s & -> & -> & Hc).
    cbn [rx_net set_rx_net kni_port_id count_rx]. destruct (doc_rx_burst (kni_port_id k) 0 MAX_PKT_BURST s) as [Hm Hc2].
    destruct (rte_eth_rx_burst (kni_port_id k) 0 MAX_PKT_BURST s) as [pkts s2]. cbn [fst snd] in *.
    assert (w = sent ++ lost ++ l) as -> by (by rewrite <- Hw, Hl, <- app_assoc).
    assert (Z.of_nat (length (sent ++ lost)) - Z.of_nat (length sent) = Z.of_nat (length lost)) as -> by (rewrite length_app; lia).
    destruct (0 <? length pkts)%nat eqn:E.
    + destruct (burst_splits port queue pkts s2) as (nsent & nlost & s3 & -> & -> & Hc3).
      eexists. split; [by apply (q_process port queue sent lost l f u nsent nlost)|].
      assert (Z.of_nat (length (nsent ++ nlost)) - Z.of_nat (length nsent) = Z.of_nat (length nlost)) as -> by (rewrite length_app; lia).
      split_and!; try (by apply counted_app); try done.
      cbn. by rewrite Hc3, Hc2, Hc, Hr, !fmap_app, !app_assoc.
    + eexists. split; [apply (q_process port queue sent lost l f u [] []); [done|cbn; lia]|].
      rewrite !app_nil_r. split_and!; try (by apply counted_app); try done.
      cbn. by rewrite Hc2, Hc, Hr, fmap_app, app_assoc.
Qed.

End KniFacts.

(** ** Set-up *)
Section SetupFacts.
Context (grants : kni_request -> bool) (shared_ring : Z -> list Z) (is_primary : bool) (nb_dev_ports : Z).

(** What the loop leaves: the bitmaps and what was configured, a ring for each port, and in
    the primary process counters for each, whose virtual port is the next one behind the
    physical ports. *)
Lemma kni_alloc_loop_spec ports i k k' :
  kni_alloc_loop grants shared_ring is_primary nb_dev_ports i ports k = Ok k' ->
  tcp_port_bitmap k' = tcp_port_bitmap k /\ udp_port_bitmap k' = udp_port_bitmap k /\
  kni_accepts k' = kni_accepts k /\ kni_act k' = kni_act k /\
  (forall p, p ∉ ports -> kni_stat k' !! p = kni_stat k !! p /\ kni_rings k' !! p = kni_rings k !! p) /\
  (NoDup ports -> forall j p, ports !! j = Some p ->
    kni_rings k' !! p = Some (if is_primary then [] else shared_ring p) /\
    kni_stat k' !! p = if is_primary then Some (KniStats (u16 (i + Z.of_nat j + nb_dev_ports)) 0 0 0 0) else kni_stat k !! p).
Proof.
  revert i k. induction ports as [|q ports IH]; intros i k; cbn [kni_alloc_loop].
  { intros [= <-]. split_and!; try done. }
  destruct (lazybsd_kni_alloc grants shared_ring is_primary nb_dev_ports q i k) as [k1| |] eqn:E; try done.
  cbn [mbind outcome_bind]. intros (T & U & A & C & O & P)%IH.
  assert (tcp_port_bitmap k1 = tcp_port_bitmap k /\ udp_port_bitmap k1 = udp_port_bitmap k /\ kni_accepts k1 = kni_accepts k /\
    kni_act k1 = kni_act k /\ kni_rings k1 = <[q := if is_primary then [] else shared_ring q]> (kni_rings k) /\
    kni_stat k1 = if is_primary then <[q := KniStats (u16 (i + nb_dev_ports)) 0 0 0 0]> (kni_stat k) else kni_stat k)
    as (T1 & U1 & A1 & C1 & R1 & S1).
  { revert E. unfold lazybsd_kni_alloc, ask. destruct is_primary.
    - destruct (grants (ZmallocStat q)), (grants (DevInfo q)), (grants (HotplugAdd q)), (grants (RingCreate q)), (grants (RingLookup q));
        cbn; try done. by intros [= <-].
    - destruct (grants (RingLookup q)); cbn; try done. by intros [= <-]. }
  split; [congruence|]. split; [congruence|]. split; [congruence|]. split; [congruence|]. split.
  - intros p Hp. destruct (O p) as [-> ->]; [set_solver|]. rewrite R1, S1. rewrite lookup_insert_ne by set_solver.
    split; [|done]. destruct is_primary; [|done]. by rewrite lookup_insert_ne by set_solver.
  - intros [Hq Hnd]%NoDup_cons [|j] p; cbn.
    + intros [= ->]. destruct (O p Hq) as [-> ->]. rewrite R1, S1. split; [by rewrite lookup_insert_eq|].
      destruct is_primary; [|done]. rewrite lookup_insert_eq. do 2 f_equal. f_equal. lia.
    + intros Hp. destruct (P Hnd j p Hp) as [-> Hs]. split; [done|]. rewrite Hs. destruct is_primary.
      * do 2 f_equal. f_equal. lia.
      * rewrite S1. done.
Qed.

(** The set-up either ends the process or is complete: every port has an empty ring, in the
    primary process zero counters and a virtual port of its own, behind the physical ones
    (with fewer than 65536 ports), and the action and the default are those configured. *)
Theorem init_kni_ready c k : is_primary = true -> NoDup (portid_list c) ->
  0 <= nb_dev_ports -> nb_dev_ports + Z.of_nat (length (portid_list c)) <= 65536 ->
  init_kni grants shared_ring is_primary nb_dev_ports c = Ok k ->
  kni_accepts k = strcaseeq (kni_method c) (chars "accept") /\ kni_act k = get_kni_action (kni_action_cfg c) /\
  forall i p, portid_list c !! i = Some p ->
    kni_rings k !! p = Some [] /\
    exists s, kni_stat k !! p = Some s /\ nb_dev_ports <= kni_port_id s /\
      kni_rx_packets s = 0 /\ rx_dropped s = 0 /\ kni_tx_packets s = 0 /\ tx_dropped s = 0 /\
      forall j q s', portid_list c !! j = Some q -> kni_stat k !! q = Some s' -> kni_port_id s' = kni_port_id s -> q = p.
Proof.
  intros Hprim Hnd H0 Hb. unfold init_kni.
  destruct (lazybsd_kni_init _ _ _ _ _) as [[t u]| |]; try done. cbn [mbind outcome_bind].
  intros (_ & _ & -> & -> & _ & P)%kni_alloc_loop_spec. specialize (P Hnd). rewrite Hprim in P.
  split; [done|]. split; [done|]. intros i p Hi. destruct (P i p Hi) as [-> Hs]. split; [done|].
  eexists. split; [exact Hs|]. cbn [kni_port_id kni_rx_packets rx_dropped kni_tx_packets tx_dropped].
  apply lookup_lt_Some in Hi as Hlt.
  assert (forall j, (j < length (portid_list c))%nat -> u16 (0 + Z.of_nat j + nb_dev_ports) = Z.of_nat j + nb_dev_ports) as Hu.
  { intros j Hj. unfold uwrap. rewrite Z.mod_small; lia. }
  split; [rewrite Hu by done; lia|]. split_and!; try done.
  intros j q s' Hj Hs'. destruct (P j q Hj) as [_ Hq]. rewrite Hq in Hs'. injection Hs' as <-.
  cbn [kni_port_id]. apply lookup_lt_Some in Hj as Hj'. rewrite !Hu by done. intros E.
  assert (j = i) as -> by lia. congruence.
Qed.
End SetupFacts.

(** ** Examples *)

(** A virtual port that takes two packets at a time and always has one to read, and a NIC
    that takes none. *)
#[local] Instance slow_tx : TxKernel := {
  RTE_MBUF_F_TX_TCP_CKSUM := 1; RTE_MBUF_F_TX_IPV4 := 2; RTE_MBUF_F_TX_TCP_SEG := 4;
  rte_ipv4_phdr_cksum _ _ _ := 0;
  rte_pktmbuf_clone _ s := (0, s);
  rte_eth_tx_burst p q l s := (if p =? 0 then 0 else Z.min 2 (Z.of_nat (length l)), s) }.
#[local] Instance one_rx : KniKernel := { rte_eth_rx_burst p q n s := (take n [99], s) }.

Definition kni_ops : list kni_op := [Enqueue 1; Enqueue 2; Enqueue 3; Process 0 0; Enqueue 4].


(** Two go to the kernel of the host, the third and the one it wrote are freed. *)
Example kni_run_counts :
  let '(k, x) := kni_run kni_ops (KniStats 5 0 0 0 0) example_rx in
  k = KniStats 5 2 1 0 1 /\ kni_rp x = [4] /\ calls (rx_net x) = [rte_pktmbuf_free 3; rte_pktmbuf_free 99].
Proof. by vm_compute. Qed.

Definition kni_example_cfg : kni_cfg := KniCfg (chars "Accept") (Some (chars "ALLTOFF")) (Some (chars "80,443")) None [2; 0].

Lemma init_kni_ready_witness : exists k,
  init_kni (fun _ => true) (fun _ => []) true 3 kni_example_cfg = Ok k /\ kni_accepts k = true /\ kni_act k = ALL_TO_FF.
Proof.
  destruct (init_kni (fun _ => true) (fun _ => []) true 3 kni_example_cfg) as [k| |] eqn:E; [|by vm_compute in E..].
  destruct (init_kni_ready (fun _ => true) (fun _ => []) true 3 kni_example_cfg k) as (A & B & _); [done| |lia|cbn; lia|done|].
  - apply (bool_decide_unpack _). by vm_compute.
  - exists k. by rewrite A, B.
Defined.
