(* ===== verification/Msg.v ===== *)
(** * Msg: messages of other processes ([src/lazybsd_dpdk.cc], [src/lazybsd_msg.h])

    The tools (sysctl, ifconfig, route, top, ...) run in other processes.  They take a
    message from a pool, fill it in, and put it into the ring 0 of the process of the
    stack; [process_msg_ring] takes the messages out of it, does what they ask for, and puts
    each one into the ring of its type, where the tool waits for it.

    A message is a packed structure in shared memory; its fields are read and written at
    their offsets.  The calls of the stack are those of SocketApi.v and RouteIoctl.v,
    whose monad is lifted.  [lazybsd_ngctl] is not in the repository: a parameter. *)
From S2P Require Import Prelude Errno KernSubr Dispatch SockConv SocketApi Route RouteClean RouteIoctl.

(** ** [enum LAZYBSD_MSG_TYPE] and the other constants *)
Definition LAZYBSD_UNKNOWN : Z := 0.
Definition LAZYBSD_SYSCTL : Z := 1.
Definition LAZYBSD_IOCTL : Z := 2.
Definition LAZYBSD_IOCTL6 : Z := 3.
Definition LAZYBSD_ROUTE : Z := 4.
Definition LAZYBSD_TOP : Z := 5.
Definition LAZYBSD_NGCTL : Z := 6.
Definition LAZYBSD_IPFW_CTL : Z := 7.
Definition LAZYBSD_TRAFFIC : Z := 8.
Definition LAZYBSD_KNICTL : Z := 9.
Definition LAZYBSD_MSG_NUM : Z := 10.

Definition LAZYBSD_IPFW_GET : Z := 0.
Definition LAZYBSD_IPFW_SET : Z := 1.
Definition LAZYBSD_KNICTL_CMD_GET : Z := 0.
Definition LAZYBSD_KNICTL_CMD_SET : Z := 1.
(** [LAZYBSD_KNICTL_ACTION] as the numbers that messages carry. *)
Definition action_of (n : Z) : option LAZYBSD_KNICTL_ACTION :=
  if n =? 0 then Some KNICTL_DEFAULT else if n =? 1 then Some ALL_TO_KNI else if n =? 2 then Some ALL_TO_FF else None.
Definition number_of (a : LAZYBSD_KNICTL_ACTION) : Z :=
  match a with KNICTL_DEFAULT => 0 | ALL_TO_KNI => 1 | ALL_TO_FF => 2 | KNICTL_MAX => 3 end.

(** The constants of the host that are used. *)
Definition HOST_AF_INET : Z := 2.
Definition HOST_SOCK_DGRAM : Z := 2.
Definition HOST_SOCK_RAW : Z := 3.
Definition HOST_IPPROTO_RAW : Z := 255.

(** ** [struct lazybsd_msg]: the offsets *)
Definition msg_type : Z := 0.
Definition result : Z := 4.
Definition buf_len : Z := 8.
Definition buf_addr : Z := 16.
Definition original_buf : Z := 24.
Definition original_buf_len : Z := 32.
Definition sysctl_name : Z := 40.
Definition sysctl_namelen : Z := 48.
Definition sysctl_oldp : Z := 56.
Definition sysctl_oldlenp : Z := 64.
Definition sysctl_newp : Z := 72.
Definition sysctl_newlen : Z := 80.
Definition ioctl_cmd : Z := 40.
Definition ioctl_data : Z := 48.
Definition route_fib : Z := 40.
Definition route_len : Z := 44.
Definition route_maxlen : Z := 48.
Definition route_data : Z := 56.
Definition top_args : Z := 40.
Definition ngctl_cmd : Z := 40.
Definition ngctl_ret : Z := 44.
Definition ngctl_data : Z := 48.
Definition ipfw_cmd : Z := 40.
Definition ipfw_level : Z := 44.
Definition ipfw_optname : Z := 48.
Definition ipfw_optval : Z := 56.
Definition ipfw_optlen : Z := 64.
Definition traffic_args : Z := 40.
Definition knictl_cmd : Z := 40.
Definition knictl_kni_action : Z := 44.

(** [struct lazybsd_top_args] and [struct lazybsd_traffic_args] *)
Record top_status := Top { loops : Z; idle_tsc : Z; work_tsc : Z; sys_tsc : Z; usr_tsc : Z }.
Record traffic := Traffic { t_rx_packets : Z; t_rx_bytes : Z; t_tx_packets : Z; t_tx_bytes : Z }.

(** What the program is compiled with. *)
Record features := Features { with_inet6 : bool; with_netgraph : bool; with_ipfw : bool; with_kni : bool }.

(** ** The state: the calls of the stack, [errno] of the host, the counters, the action for
    the kernel of the host, the rings [msg_ring[proc_id].ring], the pool of messages and the
    buffers given back with [rte_free]. *)
Record md (K : Type) := Md {
  md_sys : sys K; errno : Z; lazybsd_top_status : top_status; lazybsd_traffic : traffic;
  md_action : LAZYBSD_KNICTL_ACTION; msg_ring : list (list Z); message_pool : list Z; rte_freed : list Z }.
Arguments Md {K} _ _ _ _ _ _ _ _.
Arguments md_sys {K} _.
Arguments errno {K} _.
Arguments lazybsd_top_status {K} _.
Arguments lazybsd_traffic {K} _.
Arguments md_action {K} _.
Arguments msg_ring {K} _.
Arguments message_pool {K} _.
Arguments rte_freed {K} _.

Definition set_sys {K} (s : sys K) (d : md K) : md K :=
  Md s (errno d) (lazybsd_top_status d) (lazybsd_traffic d) (md_action d) (msg_ring d) (message_pool d) (rte_freed d).
Definition set_errno {K} (e : Z) (d : md K) : md K :=
  Md (md_sys d) e (lazybsd_top_status d) (lazybsd_traffic d) (md_action d) (msg_ring d) (message_pool d) (rte_freed d).
Definition set_action {K} (a : LAZYBSD_KNICTL_ACTION) (d : md K) : md K :=
  Md (md_sys d) (errno d) (lazybsd_top_status d) (lazybsd_traffic d) a (msg_ring d) (message_pool d) (rte_freed d).
Definition set_rings {K} (l : list (list Z)) (d : md K) : md K :=
  Md (md_sys d) (errno d) (lazybsd_top_status d) (lazybsd_traffic d) (md_action d) l (message_pool d) (rte_freed d).
Definition set_pool {K} (l : list Z) (d : md K) : md K :=
  Md (md_sys d) (errno d) (lazybsd_top_status d) (lazybsd_traffic d) (md_action d) (msg_ring d) l (rte_freed d).
Definition set_freed {K} (l : list Z) (d : md K) : md K :=
  Md (md_sys d) (errno d) (lazybsd_top_status d) (lazybsd_traffic d) (md_action d) (msg_ring d) (message_pool d) l.

(** The monad of the handlers. *)
Definition D (K A : Type) : Type := md K -> outcome (A * md K).
#[export] Instance D_ret K : MRet (D K) := fun A a d => Ok (a, d).
#[export] Instance D_bind K : MBind (D K) := fun A B f m d =>
  match m d with Ok (a, d') => f a d' | Panic => Panic | Diverge => Diverge end.

(** A call of the stack. *)
Definition lift {K A} (c : M K A) : D K A := fun d =>
  match c (md_sys d) with Ok (a, s) => Ok (a, set_sys s d) | Panic => Panic | Diverge => Diverge end.
Definition get {K A} (f : md K -> A) : D K A := fun d => Ok (f d, d).
Definition put {K} (f : md K -> md K) : D K unit := fun d => Ok ((), f d).
Definition fault {K A} : D K A := fun _ => Panic.

Section Msg.
Context {K : Type} `{Kernel K} `{RibKernel K} `{BsdHeaders} `{RouteHeaders} `{RtsockHeaders} `{DispatchKernel}.
Context (conf : features) (fr : frame).
Context (lazybsd_ngctl : Z -> Z -> M K Z).

(** A field of the message, an [int] field, and assignments. *)
Definition fld (n : nat) (a : Z) : D K Z := lift (read n a).
Definition ifld (a : Z) : D K Z := v ← lift (read 4 a); mret (i32 v).
Definition put_fld (n : nat) (a v : Z) : D K unit := lift (write n a v).

(** [msg->result = ret < 0 ? errno : 0] *)
Definition set_result (msg ret : Z) : D K unit :=
  if ret <? 0 then e ← get errno; put_fld 4 (msg + result) e else put_fld 4 (msg + result) 0.

(** ** The handlers *)

Definition handle_sysctl_msg (msg : Z) : D K unit :=
  name ← fld 8 (msg + sysctl_name);
  namelen ← fld 4 (msg + sysctl_namelen);
  oldp ← fld 8 (msg + sysctl_oldp);
  oldlenp ← fld 8 (msg + sysctl_oldlenp);
  newp ← fld 8 (msg + sysctl_newp);
  newlen ← fld 8 (msg + sysctl_newlen);
  ret ← lift (lazybsd_sysctl name namelen oldp oldlenp newp newlen);
  set_result msg ret.

Definition handle_ioctl_msg (msg : Z) : D K unit :=
  ty ← fld 4 (msg + msg_type);
  fd ← lift (lazybsd_socket (if with_inet6 conf && (ty =? LAZYBSD_IOCTL6) then LINUX_AF_INET6 else HOST_AF_INET) HOST_SOCK_DGRAM 0);
  if fd <? 0 then set_result msg (-1) else
  cmd ← fld 8 (msg + ioctl_cmd);
  data ← fld 8 (msg + ioctl_data);
  ret ← lift (lazybsd_ioctl_freebsd fd cmd data);
  _ ← lift (lazybsd_close fd);
  set_result msg ret.

Definition handle_route_msg (msg : Z) : D K unit :=
  fib ← ifld (msg + route_fib);
  data ← fld 8 (msg + route_data);
  len ← fld 4 (msg + route_len);
  maxlen ← fld 4 (msg + route_maxlen);
  '(ret, len) ← lift (lazybsd_rtioctl fr fib data len maxlen);
  _ ← put_fld 4 (msg + route_len) len;
  set_result msg ret.

Definition handle_top_msg (msg : Z) : D K unit :=
  t ← get lazybsd_top_status;
  _ ← put_fld 8 (msg + top_args) (loops t);
  _ ← put_fld 8 (msg + top_args + 8) (idle_tsc t);
  _ ← put_fld 8 (msg + top_args + 16) (work_tsc t);
  _ ← put_fld 8 (msg + top_args + 24) (sys_tsc t);
  _ ← put_fld 8 (msg + top_args + 32) (usr_tsc t);
  put_fld 4 (msg + result) 0.

Definition handle_ngctl_msg (msg : Z) : D K unit :=
  cmd ← ifld (msg + ngctl_cmd);
  data ← fld 8 (msg + ngctl_data);
  ret ← lift (lazybsd_ngctl cmd data);
  if ret <? 0 then e ← get errno; put_fld 4 (msg + result) e
  else _ ← put_fld 4 (msg + result) 0; put_fld 4 (msg + ngctl_ret) ret.

Definition handle_ipfw_msg (msg : Z) : D K unit :=
  fd ← lift (lazybsd_socket HOST_AF_INET HOST_SOCK_RAW HOST_IPPROTO_RAW);
  if fd <? 0 then set_result msg (-1) else
  cmd ← ifld (msg + ipfw_cmd);
  level ← ifld (msg + ipfw_level);
  optname ← ifld (msg + ipfw_optname);
  optval ← fld 8 (msg + ipfw_optval);
  optlen ← fld 8 (msg + ipfw_optlen);
  ret ← (if cmd =? LAZYBSD_IPFW_GET then lift (lazybsd_getsockopt_freebsd fd level optname optval optlen)
         else if cmd =? LAZYBSD_IPFW_SET then
           n ← (if optlen =? 0 then fault else fld 4 optlen); lift (lazybsd_setsockopt_freebsd fd level optname optval n)
         else _ ← put (set_errno Host.ENOTSUP); mret (-1));
  _ ← lift (lazybsd_close fd);
  set_result msg ret.

(** The four counters at [a]. *)
Definition put_traffic (a : Z) (t : traffic) : D K unit :=
  _ ← put_fld 8 a (t_rx_packets t);
  _ ← put_fld 8 (a + 8) (t_rx_bytes t);
  _ ← put_fld 8 (a + 16) (t_tx_packets t);
  put_fld 8 (a + 24) (t_tx_bytes t).
Definition handle_traffic_msg (msg : Z) : D K unit :=
  t ← get lazybsd_traffic; _ ← put_traffic (msg + traffic_args) t; put_fld 4 (msg + result) 0.
Definition lazybsd_get_traffic (buffer : Z) : D K unit := t ← get lazybsd_traffic; put_traffic buffer t.

Definition handle_knictl_msg (msg : Z) : D K unit :=
  cmd ← ifld (msg + knictl_cmd);
  if cmd =? LAZYBSD_KNICTL_CMD_SET then
    a ← ifld (msg + knictl_kni_action);
    match action_of a with
    | Some a => _ ← put (set_action a); put_fld 4 (msg + result) 0
    | None => put_fld 4 (msg + result) (-1)
    end
  else if cmd =? LAZYBSD_KNICTL_CMD_GET then
    a ← get md_action; put_fld 4 (msg + knictl_kni_action) (number_of a)
  else put_fld 4 (msg + result) (-2).

Definition handle_default_msg (msg : Z) : D K unit := put_fld 4 (msg + result) Host.ENOTSUP.

(** ** One message *)

Definition handler_of (ty : Z) : Z -> D K unit :=
  if ty =? LAZYBSD_SYSCTL then handle_sysctl_msg
  else if (ty =? LAZYBSD_IOCTL) || (with_inet6 conf && (ty =? LAZYBSD_IOCTL6)) then handle_ioctl_msg
  else if ty =? LAZYBSD_ROUTE then handle_route_msg
  else if ty =? LAZYBSD_TOP then handle_top_msg
  else if with_netgraph conf && (ty =? LAZYBSD_NGCTL) then handle_ngctl_msg
  else if with_ipfw conf && (ty =? LAZYBSD_IPFW_CTL) then handle_ipfw_msg
  else if ty =? LAZYBSD_TRAFFIC then handle_traffic_msg
  else if with_kni conf && (ty =? LAZYBSD_KNICTL) then handle_knictl_msg
  else handle_default_msg.

(** [rte_ring_enqueue(msg_ring[proc_id].ring[i], msg)]; an index without a ring faults. *)
Definition msg_enqueue (i msg : Z) : D K Z := fun d =>
  match (if i <? 0 then None else msg_ring d !! Z.to_nat i) with
  | None => Panic
  | Some l => let '(ret, l) := rte_ring_enqueue l msg in
              Ok (ret, set_rings (<[Z.to_nat i := l]> (msg_ring d)) d)
  end.

(** A message that nobody waits for goes back to the pool, with its own buffer. *)
Definition give_back (msg : Z) : D K unit :=
  ob ← fld 8 (msg + original_buf);
  _ ← (if negb (ob =? 0) then
         b ← fld 8 (msg + buf_addr);
         _ ← put (fun d => set_freed (rte_freed d ++ [b]) d);
         _ ← put_fld 8 (msg + buf_addr) ob;
         n ← fld 8 (msg + original_buf_len);
         _ ← put_fld 8 (msg + buf_len) n;
         put_fld 8 (msg + original_buf) 0
       else mret ());
  put (fun d => set_pool (message_pool d ++ [msg]) d).

Definition deliver (msg : Z) : D K unit :=
  ty ← fld 4 (msg + msg_type);
  r ← msg_enqueue ty msg;
  if r <? 0 then give_back msg else mret ().

Definition handle_msg (msg : Z) : D K unit :=
  ty ← fld 4 (msg + msg_type);
  _ ← handler_of ty msg;
  deliver msg.

Fixpoint handle_msgs (l : list Z) : D K unit :=
  match l with [] => mret () | msg :: l => _ ← handle_msg msg; handle_msgs l end.

Definition process_msg_ring : D K Z := fun d =>
  match msg_ring d with
  | [] => Panic
  | l :: rings =>
      let '(msgs, l) := rte_ring_dequeue_burst l 32 in
      match handle_msgs msgs (set_rings (l :: rings) d) with
      | Ok (_, d) => Ok (0, d) | Panic => Panic | Diverge => Diverge
      end
  end.

(** ** Where messages come from *)

(** [lazybsd_msg_init] for the element at [obj] of a pool with elements of [elt_size]. *)
Definition sizeof_lazybsd_msg : Z := 128.
Definition lazybsd_msg_init (elt_size obj : Z) : D K unit :=
  _ ← put_fld 4 (obj + msg_type) LAZYBSD_UNKNOWN;
  _ ← put_fld 8 (obj + buf_addr) (obj + sizeof_lazybsd_msg);
  _ ← put_fld 8 (obj + buf_len) (elt_size - sizeof_lazybsd_msg);
  _ ← put_fld 8 (obj + original_buf) 0;
  put_fld 8 (obj + original_buf_len) 0.
End Msg.

(** ** The calls of the stack return *)
Section Total.
Context {K : Type} `{Kernel K}.

Definition total {A} (c : M K A) : Prop := forall s, exists a s', c s = Ok (a, s').

Lemma total_ret {A} (a : A) : total (mret a).
Proof. intros s. by exists a, s. Qed.
Lemma total_bind {A B} (c : M K A) (f : A -> M K B) : total c -> (forall a, total (f a)) -> total (c ≫= f).
Proof. intros Hc Hf s. destruct (Hc s) as (a & s1 & E). destruct (Hf a s1) as (b & s2 & E2). exists b, s2. by rewrite run_bind, E. Qed.
Lemma total_call {R} (k : kcall R) : total (call k).
Proof. intros s. unfold call. destruct (kernel k (ks s)) as [[rc r] k']. by eexists _, _. Qed.
Lemma total_read n a : total (read n a).
Proof. intros s. by eexists _, _. Qed.
Lemma total_write n a v : total (write n a v).
Proof. intros s. by eexists _, _. Qed.
Lemma total_fail rc : total (kern_fail rc).
Proof. intros s. by eexists _, _. Qed.
Lemma total_retval : total retval.
Proof. intros s. by eexists _, _. Qed.
End Total.

Create HintDb total_db.
#[export] Hint Resolve total_ret total_call total_read total_write total_fail total_retval : total_db.
Ltac total_step :=
  match goal with
  | |- total (_ ≫= _) => apply total_bind; [|intros ?]
  | |- total (if ?b then _ else _) => destruct b
  | |- total (match ?x with _ => _ end) => destruct x
  | |- total _ => solve [auto with total_db]
  end.
Ltac total := unfold or_fail; repeat total_step.

Section Facts.
Context {K : Type} {heap : K -> gset Z} `{RibDoc K (heap := heap)} `{DispatchKernel}.
Context (conf : features) (fr : frame) (frame_ok : sa_dst fr <> 0).
Context (lazybsd_ngctl : Z -> Z -> M K Z) (doc_ngctl : forall c p, total (lazybsd_ngctl c p)).
Context (doc_socket : forall a t p k, let '(_, _, k') := kernel (sys_socket a t p) k in mem k' = mem k).

(** [c] returns in the state [d] and leaves the rings and the pool as they are. *)
Definition steady {A} (c : D K A) (d : md K) : Prop := exists a d', c d = Ok (a, d') /\
  msg_ring d' = msg_ring d /\ message_pool d' = message_pool d /\ rte_freed d' = rte_freed d.

Lemma drun_bind {A B} (c : D K A) (f : A -> D K B) d :
  (c ≫= f) d = match c d with Ok (a, d') => f a d' | Panic => Panic | Diverge => Diverge end.
Proof. done. Qed.

Lemma steady_bind {A B} (c : D K A) (f : A -> D K B) d :
  steady c d -> (forall a d', msg_ring d' = msg_ring d -> steady (f a) d') -> steady (c ≫= f) d.
Proof.
  intros (a & d1 & E1 & R1 & P1 & F1) Hf. destruct (Hf a d1 R1) as (b & d2 & E2 & R2 & P2 & F2). exists b, d2.
  rewrite drun_bind, E1. split_and!; congruence.
Qed.
Lemma steady_ret {A} (a : A) d : steady (mret a) d.
Proof. by exists a, d. Qed.
Lemma steady_lift {A} (c : M K A) d : total c -> steady (lift c) d.
Proof. intros Hc. destruct (Hc (md_sys d)) as (a & s & E). exists a, (set_sys s d). unfold lift. by rewrite E. Qed.
Lemma steady_fld n a d : steady (fld n a) d.
Proof. apply steady_lift, total_read. Qed.
Lemma steady_put_fld n a v d : steady (put_fld n a v) d.
Proof. apply steady_lift, total_write. Qed.
Lemma steady_get {A} (f : md K -> A) d : steady (get f) d.
Proof. by eexists _, _. Qed.
Lemma steady_errno e d : steady (put (set_errno e)) d.
Proof. by eexists _, _. Qed.
Lemma steady_action a d : steady (put (set_action a)) d.
Proof. by eexists _, _. Qed.

(** Reading a field leaves everything as it is. *)
Lemma run_fld n a (d : md K) : fld n a d = Ok (SockConv.load n (mem (ks (md_sys d))) a, d).
Proof. unfold fld, lift, read. destruct d as [s e t tr ac rg pl fd]. by destruct s. Qed.
Lemma run_ifld a (d : md K) : ifld a d = Ok (i32 (SockConv.load 4 (mem (ks (md_sys d))) a), d).
Proof. unfold ifld. rewrite drun_bind. fold (fld (K := K) 4 a). by rewrite run_fld. Qed.
Lemma steady_ifld a d : steady (ifld a) d.
Proof. unfold steady. rewrite run_ifld. by eexists _, _. Qed.

Lemma steady_fld_bind {B} n a (f : Z -> D K B) d :
  steady (f (SockConv.load n (mem (ks (md_sys d))) a)) d -> steady (fld n a ≫= f) d.
Proof. intros Hf. unfold steady. by rewrite drun_bind, run_fld. Qed.
Lemma steady_ifld_bind {B} a (f : Z -> D K B) d :
  steady (f (i32 (SockConv.load 4 (mem (ks (md_sys d))) a))) d -> steady (ifld a ≫= f) d.
Proof. intros Hf. unfold steady. by rewrite drun_bind, run_ifld. Qed.

Create HintDb steady_db.
#[local] Hint Resolve steady_ret steady_fld steady_put_fld steady_get steady_errno steady_action steady_ifld : steady_db.
Ltac steady_step :=
  match goal with
  | |- steady (_ ≫= _) _ => apply steady_bind; [|intros ? ? ?]
  | |- steady (if ?b then _ else _) _ => destruct b
  | |- steady (match ?x with _ => _ end) _ => destruct x
  | |- steady (lift ?c) _ => apply steady_lift; solve [auto|unfold lazybsd_sysctl, lazybsd_socket, lazybsd_ioctl_freebsd, lazybsd_close,
      lazybsd_getsockopt_freebsd, lazybsd_setsockopt_freebsd; total]
  | |- steady _ _ => solve [auto with steady_db]
  end.
Ltac steady := repeat steady_step.

Lemma steady_result msg r d : steady (set_result msg r) d.
Proof. unfold set_result. steady. Qed.
#[local] Hint Resolve steady_result : steady_db.

Lemma steady_ioctl msg d : steady (handle_ioctl_msg conf msg) d.
Proof. unfold handle_ioctl_msg. steady. Qed.
Lemma steady_sysctl msg d : steady (handle_sysctl_msg msg) d.
Proof. unfold handle_sysctl_msg. steady. Qed.

Lemma steady_route msg d : SockConv.load 4 (mem (ks (md_sys d))) (msg + route_len) < 2 ^ 31 ->
  steady (handle_route_msg fr msg) d.
Proof.
  intros Hl. unfold handle_route_msg. pose proof (load_range 4 (mem (ks (md_sys d))) (msg + route_len)) as Hl0.
  apply steady_ifld_bind. do 3 apply steady_fld_bind. apply steady_bind; [|intros [r n] d' _; steady].
  set (l := SockConv.load 4 _ _) in *. unfold steady, lift.
  match goal with |- context [lazybsd_rtioctl ?f ?a ?b ?c ?e ?s] => destruct (rtioctl_total f a b c e s) as (x & s' & ->); [done|lia|] end.
  by eexists _, _.
Qed.

Lemma socket_mem a t p (s : sys K) : exists fd s', lazybsd_socket a t p s = Ok (fd, s') /\ mem (ks s') = mem (ks s).
Proof.
  unfold lazybsd_socket. rewrite run_bind. set (a' := if _ =? _ then _ else _). unfold call.
  pose proof (doc_socket a' t p (ks s)) as Hm. destruct (kernel (sys_socket a' t p) (ks s)) as [[rc r] k'].
  unfold or_fail. destruct (negb (rc =? 0)); eexists _, _; (split; [reflexivity|]); done.
Qed.

Lemma steady_ipfw msg d : SockConv.load 8 (mem (ks (md_sys d))) (msg + ipfw_optlen) <> 0 -> steady (handle_ipfw_msg msg) d.
Proof.
  intros Ho. unfold handle_ipfw_msg. destruct (socket_mem HOST_AF_INET HOST_SOCK_RAW HOST_IPPROTO_RAW (md_sys d)) as (fd & s & E & Hm).
  unfold steady. rewrite drun_bind. unfold lift at 1. rewrite E. set (d1 := set_sys s d).
  change (msg_ring d) with (msg_ring d1). change (message_pool d) with (message_pool d1). change (rte_freed d) with (rte_freed d1).
  match goal with |- exists a d', ?c d1 = _ /\ _ => change (steady c d1) end.
  destruct (fd <? 0); [steady|]. do 3 apply steady_ifld_bind. do 2 apply steady_fld_bind.   change (md_sys d1) with s. rewrite !Hm, (proj2 (Z.eqb_neq _ _) Ho). steady.
Qed.

(** What a handler needs of the message: a length of the routing message that is an [int],
    and a length to read for an option. *)
Definition acceptable (ty msg : Z) (d : md K) : Prop :=
  (ty = LAZYBSD_ROUTE -> SockConv.load 4 (mem (ks (md_sys d))) (msg + route_len) < 2 ^ 31) /\
  (ty = LAZYBSD_IPFW_CTL -> SockConv.load 8 (mem (ks (md_sys d))) (msg + ipfw_optlen) <> 0).

Lemma steady_handler ty msg d : acceptable ty msg d -> steady (handler_of conf fr lazybsd_ngctl ty msg) d.
Proof.
  intros [Hr Hi]. unfold handler_of.
  destruct (ty =? LAZYBSD_SYSCTL); [apply steady_sysctl|].
  destruct ((ty =? LAZYBSD_IOCTL) || _); [apply steady_ioctl|].
  destruct (Z.eqb_spec ty LAZYBSD_ROUTE); [by apply steady_route, Hr|].
  destruct (ty =? LAZYBSD_TOP); [unfold handle_top_msg; steady|].
  destruct (with_netgraph conf && _); [unfold handle_ngctl_msg; steady|].
  destruct (with_ipfw conf && (ty =? LAZYBSD_IPFW_CTL)) eqn:E.
  { apply andb_true_iff in E as [_ E%Z.eqb_eq]. by apply steady_ipfw, Hi. }
  destruct (ty =? LAZYBSD_TRAFFIC); [unfold handle_traffic_msg, put_traffic; steady|].
  destruct (with_kni conf && _); [unfold handle_knictl_msg; steady|].
  unfold handle_default_msg. steady.
Qed.

(** ** A message ends in a ring or in the pool *)
Context (doc_ring : forall l p, let '(ret, l') := rte_ring_enqueue l p in
  ret < 0 /\ l' = l \/ 0 <= ret /\ l' = l ++ [p]).

Definition fields (d : md K) (n : nat) (a : Z) : Z := SockConv.load n (mem (ks (md_sys d))) a.

Definition set_mem (m : memory) (d : md K) : md K :=
  let s := md_sys d in set_sys (Sys (Kstate m (stack (ks s)) (td_retval (ks s))) (lazybsd_errno s) (current_ts s)) d.
Lemma run_put_fld n a v (d : md K) :
  put_fld n a v d = Ok ((), set_mem (SockConv.store n (mem (ks (md_sys d))) a v) d).
Proof. done. Qed.
Lemma run_put f (d : md K) : put f d = Ok ((), f d).
Proof. done. Qed.
Lemma mem_set_mem m d : mem (ks (md_sys (set_mem m d))) = m.
Proof. done. Qed.

Lemma give_back_run msg (d : md K) : exists d2, give_back msg d = Ok ((), d2) /\
  msg_ring d2 = msg_ring d /\ message_pool d2 = message_pool d ++ [msg] /\
  let ob := fields d 8 (msg + original_buf) in
  if ob =? 0 then md_sys d2 = md_sys d /\ rte_freed d2 = rte_freed d
  else rte_freed d2 = rte_freed d ++ [fields d 8 (msg + buf_addr)] /\
    fields d2 8 (msg + buf_addr) = ob /\ fields d2 8 (msg + buf_len) = fields d 8 (msg + original_buf_len) /\
    fields d2 8 (msg + original_buf) = 0.
Proof.
  unfold give_back. rewrite drun_bind, run_fld. fold (fields d 8 (msg + original_buf)). set (ob := fields d 8 (msg + original_buf)).
  rewrite drun_bind. destruct (Z.eqb_spec ob 0); cbn [negb].
  - eexists. split; [reflexivity|]. by split_and!.
  - rewrite drun_bind, run_fld, drun_bind, run_put, drun_bind, run_put_fld, drun_bind, run_fld, drun_bind, run_put_fld, run_put_fld, run_put.
    eexists. split; [reflexivity|]. split; [done|]. split; [done|]. split; [done|].
    unfold fields. cbn [set_pool md_sys]. rewrite !mem_set_mem. change (mem (ks (md_sys (set_freed _ d)))) with (mem (ks (md_sys d))).
    unfold buf_addr, buf_len, original_buf, original_buf_len. split_and!.
    + rewrite load_store_sep by (cbn; lia). rewrite load_store_sep by (cbn; lia). rewrite load_store. apply load_4_mod_8.
    + rewrite load_store_sep by (cbn; lia). rewrite load_store, load_4_mod_8. by rewrite load_store_sep by (cbn; lia).
    + by rewrite load_store.
Qed.

End Facts.

(** ** Examples

    The kernel of RouteIoctl.v, rings of two entries, a program with all features. *)
#[local] Existing Instances example_alloc example_rib example_rib_doc.
#[local] Instance small_rings : DispatchKernel := {
  rte_ring_enqueue l p := if (length l <? 2)%nat then (0, l ++ [p]) else (-1, l);
  rte_ring_dequeue_burst l n := (take n l, drop n l);
  rte_pktmbuf_prepend p n s := (0, s);
  rte_pktmbuf_tailroom p s := 100;
  packet_dispatcher := None }.

Lemma small_rings_doc l p : let '(ret, l') := rte_ring_enqueue l p in
  ret < 0 /\ l' = l \/ 0 <= ret /\ l' = l ++ [p].
Proof. unfold rte_ring_enqueue, small_rings. destruct (length l <? 2)%nat; [right|left]; (split; [lia|done]). Qed.

Definition example_features : features := Features true true true true.

(** A message at 1000 with its own buffer at 1128, in a ring of this process; [l] are the
    other bytes of its header. *)
Definition example_md (ty : Z) (l : list Z) (rings : list (list Z)) : md (list Z) :=
  Md (Sys (Kstate (store 4 (bytes_at 1040 l) 1000 ty) [] 0) 0 (0, 0)) 11 (Top 5 1 2 3 4) (Traffic 6 7 8 9)
    KNICTL_DEFAULT rings [] [].
Definition example_handle (ty : Z) (l : list Z) (rings : list (list Z)) : outcome (Z * md (list Z)) :=
  process_msg_ring example_features example_frame (fun _ _ => mret 0) (example_md ty l ([1000] :: rings)).


(** [top] gets the counters. *)
Example handle_top :
  match example_handle LAZYBSD_TOP [] (replicate 9 []) with
  | Ok (_, d) => (msg_ring d !! 5%nat, fields d 4 (1000 + result), fields d 8 (1000 + top_args), fields d 8 (1000 + top_args + 32)) =
      (Some [1000], 0, 5, 4)
  | _ => False
  end.
Proof. by vm_compute. Qed.

(** Nobody reads the ring: the message goes back to the pool. *)
Example handle_full :
  match example_handle LAZYBSD_TOP [] (replicate 9 [1; 2]) with
  | Ok (_, d) => (msg_ring d !! 5%nat, message_pool d) = (Some [1; 2], [1000])
  | _ => False
  end.
Proof. by vm_compute. Qed.

(** A message without a type is put back into the ring it came from. *)
Example handle_unknown :
  match example_handle LAZYBSD_UNKNOWN [] (replicate 9 []) with
  | Ok (_, d) => (msg_ring d !! 0%nat, fields d 4 (1000 + result)) = (Some [1000], Host.ENOTSUP)
  | _ => False
  end.
Proof. by vm_compute. Qed.

(** A type behind the last one: there is no ring for it. *)
Example handle_wild : example_handle 11 [] (replicate 9 []) = Panic.
Proof. by vm_compute. Qed.

(** A question for the action of the kernel interface leaves [result] as the tool wrote it. *)
Example handle_knictl_get :
  match example_handle LAZYBSD_KNICTL [0; 0; 0; 0; 2; 0; 0; 0] (replicate 9 []) with
  | Ok (_, d) => (fields d 4 (1000 + knictl_kni_action), fields d 4 (1000 + result)) = (0, 0)
  | _ => False
  end.
Proof. by vm_compute. Qed.

(** A route to nowhere is refused by the stack with [EINVAL] in [lazybsd_errno]; the tool
    reads [errno] of the host, which here is 11 from an earlier call. *)
Example handle_route_error :
  match example_handle LAZYBSD_ROUTE [0; 0; 0; 0; 16; 0; 0; 0; 0; 4; 0; 0; 0; 0; 0; 0; 208; 7; 0; 0; 0; 0; 0; 0] (replicate 9 []) with
  | Ok (_, d) => (fields d 4 (1000 + result), lazybsd_errno (md_sys d)) = (11, Host.EINVAL)
  | _ => False
  end.
Proof. by vm_compute. Qed.
