(* ===== verification/MainLoop.v ===== *)
(** * MainLoop: the loop of a process ([main_loop] of [src/lazybsd_dpdk.cc])

    Once the stack is set up, its process spends its life in [main_loop]: it ticks the
    timers, hands the waiting packets to the NIC, takes packets from the rings of other
    processes and from the NIC, answers messages, calls the loop of the user, sleeps if there
    was nothing to do, and adds up where the time went for the tool [top].

    The loop is written over an interface, the class [Driver]; its laws are [DriverDoc].  The
    theorems on the loop are proved for every driver with these laws.  [lazybsd_driver] is
    the driver made of the other files: the timers of Softclock.v, the ports of Send.v, the
    rings and packets of Dispatch.v, the kernel interface of Kni.v and the messages of
    Msg.v, which share the packets and the counters.  [lazybsd_driver_doc] shows the laws. *)
From Stdlib Require Import ZifyBool.
From S2P Require Import Prelude Errno Callout Softclock Wheel KernSubr Filter Pages Mbuf TxRing Send Dispatch Kni SockConv SocketApi Route RouteClean RouteIoctl Msg.

(** ** The interface *)
Class Driver (S : Type) := {
  rte_rdtsc : S -> Z * S;
  freebsd_clock_expire : S -> Z;
  rte_timer_manage : S -> outcome S;
  tx_mbufs_len : Z -> S -> Z;                    (** the packets that wait for a port *)
  flush_port : Z -> S -> outcome S;              (** [send_burst] of all of them, and [len = 0] *)
  kni_round : Z -> Z -> S -> outcome S;          (** port and queue *)
  dispatch_round : Z -> Z -> S -> outcome (Z * S);   (** how many packets there were *)
  rx_round : Z -> Z -> S -> outcome (list Z * S);    (** the packets from the NIC *)
  process_one : Z -> Z -> Z -> S -> outcome S;   (** port, queue, packet *)
  msg_round : S -> outcome S;
  lr_loop : option (S -> outcome S);             (** the loop of the user, or NULL *)
  usleep : Z -> S -> S;
  top_get : S -> top_status;
  top_set : top_status -> S -> S;
  usr_cb_get : S -> Z;
  usr_cb_reset : S -> S }.

(** The configuration of the process. *)
Record loop_conf := LoopConf {
  tsc_hz : Z; pkt_tx_delay : Z; idle_sleep : Z;
  tx_port_id : list Z;                           (** the first [nb_tx_port] of them *)
  rx_queue_list : list (Z * Z);                  (** port and queue, the first [nb_rx_queue] *)
  with_kni_primary : bool }.

Definition US_PER_S : Z := 1000000.
Definition PREFETCH_OFFSET : nat := 3.

Definition drain_tsc_of (c : loop_conf) : Z :=
  if pkt_tx_delay c =? 0 then 0 else u64 (u64 (tsc_hz c + US_PER_S - 1) / US_PER_S * pkt_tx_delay c).

(** ** One round of [while (1)] *)
Section Loop.
Context {S : Type} `{Driver S}.
Context (c : loop_conf).

Fixpoint drain_ports (ports : list Z) (idle : bool) (s : S) : outcome (bool * S) :=
  match ports with
  | [] => Ok (idle, s)
  | port_id :: ports =>
      if tx_mbufs_len port_id s =? 0 then drain_ports ports idle s else
      s ← flush_port port_id s; drain_ports ports false s
  end.

Fixpoint process_each (port_id queue_id : Z) (pkts : list Z) (s : S) : outcome S :=
  match pkts with
  | [] => Ok s
  | p :: pkts => s ← process_one port_id queue_id p s; process_each port_id queue_id pkts s
  end.

(** The two loops over the packets of a burst: those that are prefetched, and the rest. *)
Definition process_burst (port_id queue_id : Z) (pkts : list Z) (s : S) : outcome S :=
  let j := (length pkts - PREFETCH_OFFSET)%nat in
  s ← process_each port_id queue_id (take j pkts) s;
  process_each port_id queue_id (drop j pkts) s.

Definition read_queue (port_id queue_id : Z) (idle : bool) (s : S) : outcome (bool * S) :=
  s ← (if with_kni_primary c then kni_round port_id queue_id s else Ok s);
  '(n, s) ← dispatch_round port_id queue_id s;
  let idle := idle && (n =? 0) in
  '(pkts, s) ← rx_round port_id queue_id s;
  if (length pkts =? 0)%nat then Ok (idle, s) else
  s ← process_burst port_id queue_id pkts s;
  Ok (false, s).

Fixpoint read_queues (queues : list (Z * Z)) (idle : bool) (s : S) : outcome (bool * S) :=
  match queues with
  | [] => Ok (idle, s)
  | (port_id, queue_id) :: queues =>
      '(idle, s) ← read_queue port_id queue_id idle s; read_queues queues idle s
  end.

(** Where the time from [cur_tsc] to [end_tsc] went. *)
Definition account (idle : bool) (cur_tsc usch_tsc div_tsc idle_sleep_tsc end_tsc usr_cb : Z) (t : top_status) : top_status :=
  let usr := if usch_tsc =? cur_tsc then u64 (usr_cb + (idle_sleep_tsc - div_tsc)) else usr_cb in
  let sys := if idle then 0 else u64 (div_tsc - cur_tsc - usr_cb) in
  Top (u64 (loops t + 1)) (u64 (idle_tsc t + u64 (end_tsc - cur_tsc - usr - sys)))
    (u64 (work_tsc t + u64 (end_tsc - cur_tsc)))
    (if idle then sys_tsc t else u64 (sys_tsc t + sys)) (u64 (usr_tsc t + usr)).

(** The first half: until the messages are answered; [prev] is [prev_tsc]. *)
Definition work_half (cur_tsc prev : Z) (s : S) : outcome (bool * Z * S) :=
  s ← (if freebsd_clock_expire s <? cur_tsc then rte_timer_manage s else Ok s);
  let s := usr_cb_reset s in
  '(idle, prev, s) ← (if drain_tsc_of c <=? u64 (cur_tsc - prev) then
                        '(idle, s) ← drain_ports (tx_port_id c) true s; Ok (idle, cur_tsc, s)
                      else Ok (true, prev, s));
  '(idle, s) ← read_queues (rx_queue_list c) idle s;
  s ← msg_round s;
  Ok (idle, prev, s).

(** The second half: the user, the sleep and the sums. *)
Definition user_half (idle : bool) (cur_tsc usch : Z) (s : S) : outcome (Z * S) :=
  let '(div_tsc, s) := rte_rdtsc s in
  '(usch, s) ← match lr_loop with
    | Some loop => if negb idle || (drain_tsc_of c <=? u64 (cur_tsc - usch)) then s ← loop s; Ok (cur_tsc, s) else Ok (usch, s)
    | None => Ok (usch, s)
    end;
  let '(idle_sleep_tsc, s) := rte_rdtsc s in
  let '(end_tsc, s) := if idle && negb (idle_sleep c =? 0) then rte_rdtsc (usleep (idle_sleep c) s) else (idle_sleep_tsc, s) in
  Ok (usch, top_set (account idle cur_tsc usch div_tsc idle_sleep_tsc end_tsc (usr_cb_get s) (top_get s)) s).

(** [prev] and [usch] are [prev_tsc] and [usch_tsc]. *)
Definition round (prev usch : Z) (s : S) : outcome (Z * Z * S) :=
  let '(cur_tsc, s) := rte_rdtsc s in
  '(idle, prev, s) ← work_half cur_tsc prev s;
  '(usch, s) ← user_half idle cur_tsc usch s;
  Ok (prev, usch, s).

(** [n] rounds from the start of [main_loop]. *)
Fixpoint rounds (n : nat) (prev usch : Z) (s : S) : outcome (Z * Z * S) :=
  match n with
  | O => Ok (prev, usch, s)
  | Datatypes.S n => '(prev, usch, s) ← round prev usch s; rounds n prev usch s
  end.
Definition main_loop (n : nat) (s : S) : outcome (Z * Z * S) := rounds n 0 0 s.
End Loop.

(** ** What the loop needs of the driver *)

(** [f] leaves the sums of the loop alone. *)
Definition keeps_top {S} `{Driver S} (f : S -> outcome S) : Prop := forall s s', f s = Ok s' -> top_get s' = top_get s.

Class DriverDoc (S : Type) `{Driver S} : Prop := {
  doc_clock s : 0 <= (rte_rdtsc s).1 < 2 ^ 64;
  doc_set t s : top_get (top_set t s) = t;
  doc_flush p s s' : flush_port p s = Ok s' ->
    tx_mbufs_len p s' = 0 /\ forall q, q <> p -> tx_mbufs_len q s' = tx_mbufs_len q s;
  top_rdtsc s : top_get (rte_rdtsc s).2 = top_get s;
  top_usleep t s : top_get (usleep t s) = top_get s;
  top_reset s : top_get (usr_cb_reset s) = top_get s;
  top_timer : keeps_top rte_timer_manage;
  top_flush p : keeps_top (flush_port p);
  top_kni p q : keeps_top (kni_round p q);
  top_dispatch p q s n s' : dispatch_round p q s = Ok (n, s') -> top_get s' = top_get s;
  top_rx p q s l s' : rx_round p q s = Ok (l, s') -> top_get s' = top_get s;
  top_process p q b : keeps_top (process_one p q b);
  top_msg : keeps_top msg_round;
  top_user loop : lr_loop = Some loop -> keeps_top loop }.

Lemma bind_Ok {A B} (x : outcome A) (f : A -> outcome B) b : (x ≫= f) = Ok b -> exists a, x = Ok a /\ f a = Ok b.
Proof. destruct x; cbn; try done. by eexists. Qed.

(** Whether the user has a loop. *)
Definition has_loop {S} `{Driver S} : bool := if lr_loop (S := S) then true else false.

(** Splits an equation [x ≫= f = Ok b]. *)
Ltac split_bind H :=
  match type of H with
  | (_ ≫= _) = Ok _ => let E := fresh "E" in apply bind_Ok in H as (? & E & H); split_bind E; split_bind H
  | (let '(_, _) := ?p in _) = Ok _ => destruct p; split_bind H
  | Ok _ = Ok _ => first [injection H as <- <- <-|injection H as <- <-|injection H as <-]
  | _ => idtac
  end.

Section LoopFacts.
Context {S : Type} `{DriverDoc S}.
Context (c : loop_conf).

(** *** The sums *)

Lemma drain_ports_top ports : forall idle s idle' s', drain_ports ports idle s = Ok (idle', s') -> top_get s' = top_get s.
Proof.
  induction ports as [|p ports IH]; cbn; intros idle s idle' s' Hd; [by injection Hd as <- <-|].
  destruct (tx_mbufs_len p s =? 0); [by eapply IH|]. split_bind Hd. rewrite (IH _ _ _ _ Hd). by eapply top_flush.
Qed.

Lemma process_each_top p q l : keeps_top (process_each p q l).
Proof.
  induction l as [|b l IH]; intros s s'; cbn; [by intros [= ->]|]. intros Hd. split_bind Hd.
  rewrite (IH _ _ Hd). by eapply top_process.
Qed.

Lemma read_queue_top p q idle s idle' s' : read_queue c p q idle s = Ok (idle', s') -> top_get s' = top_get s.
Proof.
  unfold read_queue, process_burst. intros Hd. split_bind Hd.
  assert (top_get x = top_get s) as Q1 by (destruct (with_kni_primary c); [by eapply top_kni|by injection E as <-]).
  apply top_dispatch in E0. apply top_rx in E1. destruct (length l =? 0)%nat.
  - injection Hd as <- <-. congruence.
  - split_bind Hd. apply process_each_top in E2, E3. congruence.
Qed.

Lemma read_queues_top queues : forall idle s idle' s', read_queues c queues idle s = Ok (idle', s') -> top_get s' = top_get s.
Proof.
  induction queues as [|[p q] queues IH]; cbn; intros idle s idle' s' Hd; [by injection Hd as <- <-|].
  split_bind Hd. rewrite (IH _ _ _ _ Hd). by eapply read_queue_top.
Qed.

Lemma work_half_top cur prev s idle prev' s' : work_half c cur prev s = Ok (idle, prev', s') -> top_get s' = top_get s.
Proof.
  unfold work_half. intros Hd. split_bind Hd.
  assert (top_get x = top_get s) as Q1 by (destruct (freebsd_clock_expire s <? cur); [by eapply top_timer|by injection E as <-]).
  apply read_queues_top in E1. apply top_msg in E2. rewrite E2, E1, <- Q1.
  destruct (drain_tsc_of c <=? u64 (cur - prev)).
  - split_bind E0. apply drain_ports_top in E3. by rewrite E3, top_reset.
  - injection E0 as <- <- <-. apply top_reset.
Qed.

Lemma user_half_spec idle cur usch s usch' s' : user_half c idle cur usch s = Ok (usch', s') ->
  (usch' = if has_loop (S := S) && (negb idle || (drain_tsc_of c <=? u64 (cur - usch))) then cur else usch) /\
  exists div slp en cb, top_get s' = account idle cur usch' div slp en cb (top_get s).
Proof.
  unfold user_half. pose proof (top_rdtsc s) as T0. destruct (rte_rdtsc s) as [div s0]. cbn [snd] in T0. intros Hd.
  apply bind_Ok in Hd as ([u s1] & E & Hd).
  assert (top_get s1 = top_get s0 /\
    u = if has_loop (S := S) && (negb idle || (drain_tsc_of c <=? u64 (cur - usch))) then cur else usch) as [T1 ->].
  { unfold has_loop. destruct lr_loop as [loop|] eqn:El; cbn [andb]; [|by injection E as <- <-].
    destruct (negb idle || _); [|by injection E as <- <-]. split_bind E. split; [by eapply top_user|done]. }
  set (u := if _ && _ then cur else usch) in *. clearbody u. clear E.
  pose proof (top_rdtsc s1) as T2. destruct (rte_rdtsc s1) as [slp s2]. cbn [snd] in T2.
  destruct (if idle && negb (idle_sleep c =? 0) then _ else _) as [en s3] eqn:E.
  assert (top_get s3 = top_get s2) as T3.
  { destruct (idle && negb (idle_sleep c =? 0)); [|by injection E as <- <-].
    pose proof (top_rdtsc (usleep (idle_sleep c) s2)) as T. rewrite E in T. cbn [snd] in T. by rewrite T, top_usleep. }
  split_bind Hd. split; [done|]. exists div, slp, en, (usr_cb_get s3). rewrite doc_set. congruence.
Qed.

(** The time adds up. *)
Definition adds_up (t : top_status) : Prop := work_tsc t = u64 (idle_tsc t + usr_tsc t + sys_tsc t).

Lemma account_adds_up idle cur usch div slp en cb t : adds_up t -> adds_up (account idle cur usch div slp en cb t).
Proof.
  unfold adds_up, account. cbn [work_tsc idle_tsc usr_tsc sys_tsc]. intros ->.
  set (usr := if usch =? cur then u64 (cb + (slp - div)) else cb). clearbody usr. unfold uwrap.
  change (2 ^ 64) with 18446744073709551616. destruct idle; Z.div_mod_to_equations; lia.
Qed.

(** *** Rounds *)

(** The rounds of a run: when each began, whether it was idle, and [prev_tsc] and [usch_tsc]
    after it. *)
Inductive runs : Z -> Z -> S -> list (Z * bool * Z * Z) -> Z -> Z -> S -> Prop :=
| runs_end prev usch s : runs prev usch s [] prev usch s
| runs_round prev usch s cur idle prev1 usch1 s1 s2 l prev2 usch2 s3 :
    cur = (rte_rdtsc s).1 -> work_half c cur prev (rte_rdtsc s).2 = Ok (idle, prev1, s1) ->
    user_half c idle cur usch s1 = Ok (usch1, s2) ->
    runs prev1 usch1 s2 l prev2 usch2 s3 ->
    runs prev usch s ((cur, idle, prev1, usch1) :: l) prev2 usch2 s3.

Lemma rounds_runs n : forall prev usch s prev' usch' s', rounds c n prev usch s = Ok (prev', usch', s') ->
  exists l, runs prev usch s l prev' usch' s' /\ length l = n.
Proof.
  induction n as [|n IH]; intros prev usch s prev' usch' s'; cbn [rounds].
  { intros [= <- <- <-]. exists []. split; [constructor|done]. }
  intros Hd. apply bind_Ok in Hd as ([[p1 u1] s2] & E & Hd). unfold round in E.
  destruct (rte_rdtsc s) as [cur s0] eqn:Ec. apply bind_Ok in E as ([[idle p2] s1] & E1 & E).
  apply bind_Ok in E as ([u2 s3] & E2 & E). injection E as <- <- <-.
  destruct (IH _ _ _ _ _ _ Hd) as (l & Hl & Hn). exists ((cur, idle, p2, u2) :: l).
  split; [|cbn; by rewrite Hn]. eapply runs_round; [by rewrite Ec|by rewrite Ec|exact E2|exact Hl].
Qed.

(** C19. The sums of the main loop.  Whatever the parts of the driver do, and however
    often the loop goes round, the tool [top] finds that the time of the process is the sum
    of the time it was idle, the time of the user and the time of the stack, modulo 2^64,
    and that [loops] is the number of rounds. *)
Theorem loop_time_accounted n s prev usch s' : main_loop c n s = Ok (prev, usch, s') ->
  top_get s = Top 0 0 0 0 0 -> adds_up (top_get s') /\ loops (top_get s') = u64 (Z.of_nat n).
Proof.
  intros (l & Hr & <-)%rounds_runs Ht. assert (adds_up (top_get s) /\ loops (top_get s) = 0) as [Ha Hl] by (by rewrite Ht).
  clear Ht. revert Ha. replace (Z.of_nat (length l)) with (loops (top_get s) + Z.of_nat (length l)) by lia.
  assert (0 <= loops (top_get s) < 2 ^ 64) as Hb by lia. clear Hl. revert Hb.
  revert Hr. generalize 0 at 1 as prev0. generalize 0 at 1 as usch0. intros usch0 prev0 Hr.
  induction Hr as [prev usch s|prev usch s cur idle prev1 usch1 s1 s2 l prev2 usch2 s3 Hc Hw Hu Hr IH]; intros Hb Ha.
  - split; [done|]. cbn [length Z.of_nat]. rewrite Z.add_0_r. symmetry. apply Z.mod_small, Hb.
  - apply work_half_top in Hw. rewrite top_rdtsc in Hw. apply user_half_spec in Hu as (_ & div & slp & en & cb & Et).
    rewrite Hw in Et. assert (loops (top_get s2) = u64 (loops (top_get s) + 1)) as El by (by rewrite Et).
    destruct IH as [IHa IHl].
    + rewrite El. apply Z.mod_pos_bound. lia.
    + rewrite Et. by apply account_adds_up.
    + split; [done|]. rewrite IHl, El. unfold uwrap. rewrite Zplus_mod_idemp_l. f_equal. cbn [length]. lia.
Qed.

(** *** Deadlines *)

Lemma in_time cur last last' d (b : bool) : last' = (if b || (d <=? u64 (cur - last)) then cur else last) ->
  u64 (cur - last') < Z.max 1 d.
Proof. intros ->. destruct (b || _) eqn:E; [rewrite Z.sub_diag; change (u64 0) with 0; lia|]. apply orb_false_iff in E as [_ E]. lia. Qed.

Lemma drain_ports_empty ports : forall idle s idle' s', drain_ports ports idle s = Ok (idle', s') ->
  (forall p, p ∈ ports -> tx_mbufs_len p s' = 0) /\ (forall p, tx_mbufs_len p s = 0 -> tx_mbufs_len p s' = 0).
Proof.
  induction ports as [|p ports IH]; cbn [drain_ports]; intros idle s idle' s' Hd.
  { injection Hd as <- <-. split; [intros p Hp; by apply not_elem_of_nil in Hp|done]. }
  destruct (Z.eqb_spec (tx_mbufs_len p s) 0) as [Hz|Hz].
  - destruct (IH _ _ _ _ Hd) as [I1 I2]. split; [|done]. intros q [->|Hq]%elem_of_cons; [by apply I2|by apply I1].
  - split_bind Hd. apply doc_flush in E as [Ez Eo]. destruct (IH _ _ _ _ Hd) as [I1 I2].
    assert (forall q, tx_mbufs_len q s = 0 -> tx_mbufs_len q x = 0) as I3.
    { intros q Hq. destruct (decide (q = p)) as [->|Hne]; [done|]. by rewrite Eo. }
    split; [|intros q Hq; by apply I2, I3]. intros q [->|Hq]%elem_of_cons; [by apply I2|by apply I1].
Qed.

Lemma work_half_prev cur prev s idle prev' s' : work_half c cur prev s = Ok (idle, prev', s') ->
  prev' = if drain_tsc_of c <=? u64 (cur - prev) then cur else prev.
Proof.
  unfold work_half. intros Hd. split_bind Hd. destruct (drain_tsc_of c <=? u64 (cur - prev)); split_bind E0; done.
Qed.

(** [x] is the start of a round at or before [i] whose mark [f] is its own start; or it is
    the mark [x0] from before the run. *)
Definition round_info : Type := Z * bool * Z * Z.
Definition prev_of (r : round_info) : Z := r.1.2.
Definition usch_of (r : round_info) : Z := r.2.
Definition marked (f : round_info -> Z) (l : list round_info) (i : nat) (x x0 : Z) : Prop :=
  (exists j r, (j <= i)%nat /\ l !! j = Some r /\ f r = r.1.1.1 /\ x = r.1.1.1) \/ x = x0.

Lemma marked_first f (r : round_info) l x0 (b : bool) :
  f r = (if b then r.1.1.1 else x0) -> marked f (r :: l) 0 (f r) x0.
Proof. intros Hf. destruct b; [left; by exists 0%nat, r|by right]. Qed.
Lemma marked_later f (r : round_info) l i x x0 (b : bool) :
  f r = (if b then r.1.1.1 else x0) -> marked f l i x (f r) -> marked f (r :: l) (Datatypes.S i) x x0.
Proof.
  intros Hf [(j & r0 & Hj & Hl & Hr & Hx)| ->].
  - left. exists (Datatypes.S j), r0. split_and!; [lia|done..].
  - destruct b; [left; exists 0%nat, r; split_and!; [lia|done..]|by right].
Qed.

(** Nothing waits long in the main loop.  In every run, a round begins less than
    [drain_tsc] cycles after a round, this one or one before it, that sent the waiting
    packets of every port; and if the user has a loop, less than [drain_tsc] cycles after a
    round that called it (or after the start of the counter); and every round that sent or
    received a packet calls it. *)
Theorem loop_deadlines n s prev usch s' : main_loop c n s = Ok (prev, usch, s') ->
  (forall idle s0 idle' s1, drain_ports (tx_port_id c) idle s0 = Ok (idle', s1) ->
    forall p, p ∈ tx_port_id c -> tx_mbufs_len p s1 = 0) /\
  exists l, runs 0 0 s l prev usch s' /\ length l = n /\
  forall i cur idle prev1 usch1, l !! i = Some (cur, idle, prev1, usch1) ->
    u64 (cur - prev1) < Z.max 1 (drain_tsc_of c) /\ marked prev_of l i prev1 0 /\
    (has_loop (S := S) = true ->
       u64 (cur - usch1) < Z.max 1 (drain_tsc_of c) /\ marked usch_of l i usch1 0 /\
       (idle = false -> usch1 = cur)).
Proof.
  intros (l & Hr & <-)%rounds_runs. split; [intros idle s0 idle' s1 E; apply (drain_ports_empty _ _ _ _ _ E)|].
  exists l. split; [done|]. split; [done|].
  revert Hr. generalize 0 at 1 3 as prev0. generalize 0 at 1 2 as usch0. intros usch0 prev0 Hr.
  induction Hr as [prev0 usch0 s|prev0 usch0 s cur idle prev1 usch1 s1 s2 l prev2 usch2 s3 Hc Hw Hu Hr IH]; [done|].
  apply work_half_prev in Hw. apply user_half_spec in Hu as [Hu _].
  intros [|i] cur' idle' p1 u1; cbn [lookup list_lookup].
  - intros [= <- <- <- <-]. split_and!; [by apply (in_time _ prev0 _ _ false)|by eapply (marked_first prev_of)|].
    intros Hl. rewrite Hl in Hu. cbn [andb] in Hu.
    split_and!; [by apply (in_time _ usch0 _ _ (negb idle))|by eapply (marked_first usch_of)|]. intros ->. by rewrite Hu.
  - intros Hi. destruct (IH i cur' idle' p1 u1 Hi) as (I1 & I2 & I3). split_and!; [done|by eapply (marked_later prev_of)|].
    intros Hl. destruct (I3 Hl) as (J1 & J2 & J3). split_and!; [done|by eapply (marked_later usch_of)|done].
Qed.
End LoopFacts.

(** ** The driver made of the other files *)

(** A port: the packets to send, the rings of its queues, and the side of the kernel of the
    host. *)
Record port_state := PortState {
  p_tx : tx_port; p_rings : gmap Z (list Z); p_kni_rp : list Z; p_kni : kni_interface_stats }.

(** The process; [W] is the rest of the machine. *)
Record world (K W : Type) := World {
  w_host : W; w_timers : Callout.state; w_net : net; w_ports : gmap Z port_state; w_md : md K; w_usr_cb : Z }.
Arguments World {K W} _ _ _ _ _ _.
Arguments w_host {K W} _.
Arguments w_timers {K W} _.
Arguments w_net {K W} _.
Arguments w_ports {K W} _.
Arguments w_md {K W} _.
Arguments w_usr_cb {K W} _.

(** What the machine does: the clock, the timer of [freebsd_clock], and sleeping. *)
Class Machine (W : Type) := {
  read_tsc : W -> Z * W;
  clock_expire : W -> Z;
  ticks_due : W -> nat * W;            (** how often [rte_timer_manage] calls the job *)
  realtime : W -> Z * Z;
  sleep : Z -> W -> W }.

Section Driver.
Context {K W : Type} `{Machine W} `{MbufKernel} `{TxKernel} `{DispatchKernel} `{KniKernel}.
Context `{Kernel K} `{RibKernel K} `{BsdHeaders} `{RouteHeaders} `{RtsockHeaders}.
Context (MAXCPU : Z) (handler : fn -> Z -> Callout.state -> list Callout.api_call).
Context (conf : features) (fr : frame) (lazybsd_ngctl : Z -> Z -> M K Z).
Context (port_conf : Z -> rx_conf) (pcap : bool) (fuel : nat).
Context (user : option (world K W -> outcome (world K W))).
Notation world := (world K W).

Definition with_host (h : W) (w : world) : world := World h (w_timers w) (w_net w) (w_ports w) (w_md w) (w_usr_cb w).
Definition with_timers (t : Callout.state) (w : world) : world := World (w_host w) t (w_net w) (w_ports w) (w_md w) (w_usr_cb w).
Definition with_md (d : md K) (w : world) : world := World (w_host w) (w_timers w) (w_net w) (w_ports w) d (w_usr_cb w).
Definition with_usr_cb (v : Z) (w : world) : world := World (w_host w) (w_timers w) (w_net w) (w_ports w) (w_md w) v.

(** [lazybsd_hardclock_job], and [rte_timer_manage] when it is due. *)
Definition lazybsd_update_current_ts (now : Z * Z) (s : sys K) : sys K := Sys (ks s) (lazybsd_errno s) now.
Definition lazybsd_hardclock_job (w : world) : outcome world :=
  t ← lazybsd_hardclock MAXCPU handler fuel (w_timers w);
  Ok (with_md (set_sys (lazybsd_update_current_ts (realtime (w_host w)) (md_sys (w_md w))) (w_md w)) (with_timers t w)).
Definition run_timers (w : world) : outcome world :=
  let '(n, h) := ticks_due (w_host w) in
  Nat.iter n (fun o => w ← o; lazybsd_hardclock_job w) (Ok (with_host h w)).

(** The port as Dispatch.v sees it: the counters of the traffic are those of the messages. *)
Definition view (p : port_state) (w : world) : rx :=
  let t := lazybsd_traffic (w_md w) in
  Rx (set_traffic (t_tx_packets t) (t_tx_bytes t) (p_tx p)) (w_net w) (p_rings p) (p_kni_rp p)
    (t_rx_packets t) (t_rx_bytes t) (w_usr_cb w).
Definition set_md_traffic (t : traffic) (d : md K) : md K :=
  Md (md_sys d) (errno d) (lazybsd_top_status d) t (md_action d) (msg_ring d) (message_pool d) (rte_freed d).
Definition put_view (port : Z) (k : kni_interface_stats) (x : rx) (w : world) : world :=
  World (w_host w) (w_timers w) (rx_net x)
    (<[port := PortState (rx_tx x) (dispatch_ring x) (kni_rp x) k]> (w_ports w))
    (set_md_traffic (Traffic (rx_packets x) (rx_bytes x) (tx_packets (rx_tx x)) (tx_bytes (rx_tx x))) (w_md w))
    (usr_cb_tsc x).

(** An operation on a port. *)
Definition on_port {A} (port : Z) (f : kni_interface_stats -> rx -> outcome (A * kni_interface_stats * rx)) (w : world)
    : outcome (A * world) :=
  match w_ports w !! port with
  | None => Panic
  | Some p => '(a, k, x) ← f (p_kni p) (view p w); Ok (a, put_view port k x w)
  end.
Definition on_port_ (port : Z) (f : kni_interface_stats -> rx -> outcome (kni_interface_stats * rx)) (w : world) : outcome world :=
  '(_, w) ← on_port port (fun k x => '(k, x) ← f k x; Ok ((), k, x)) w; Ok w.

Definition conf_of (port queue : Z) (w : world) : rx_conf :=
  let b := port_conf port in
  RxConf queue (nb_queues b) (rx_csum b) (rx_ifp b) (filter_conf b) (primary b) pcap (md_action (w_md w)) (kni_accept b).

Definition drain_port (port : Z) : world -> outcome world :=
  on_port_ port (fun k x => '(q, s) ← tx_drain pcap (rx_tx x) (rx_net x); Ok (k, set_rx_tx q (set_rx_net s x))).
Definition receive (port queue : Z) : world -> outcome (list Z * world) :=
  on_port port (fun k x => let '(l, s) := rte_eth_rx_burst port queue MAX_PKT_BURST (rx_net x) in Ok (l, k, set_rx_net s x)).
Definition packet_round (port queue b : Z) (w : world) : outcome world :=
  on_port_ port (fun k x => x ← process_packets (conf_of port queue w) fuel [b] false x; Ok (k, x)) w.
Definition ring_round (port queue : Z) (w : world) : outcome (Z * world) :=
  on_port port (fun k x => '(n, x) ← process_dispatch_ring (conf_of port queue w) fuel x; Ok (n, k, x)) w.
Definition message_round (w : world) : outcome world :=
  match process_msg_ring conf fr lazybsd_ngctl (w_md w) with
  | Ok (_, d) => Ok (with_md d w) | Panic => Panic | Diverge => Diverge
  end.
Definition set_top (t : top_status) (d : md K) : md K :=
  Md (md_sys d) (errno d) t (lazybsd_traffic d) (md_action d) (msg_ring d) (message_pool d) (rte_freed d).

#[export] Instance lazybsd_driver : Driver world := {
  rte_rdtsc w := let '(t, h) := read_tsc (w_host w) in (t, with_host h w);
  freebsd_clock_expire w := clock_expire (w_host w);
  rte_timer_manage := run_timers;
  tx_mbufs_len port w := from_option (fun p => tx_len (p_tx p)) 0 (w_ports w !! port);
  flush_port := drain_port;
  kni_round port queue := on_port_ port (fun k x => Ok (lazybsd_kni_process port queue MAX_PKT_BURST k x));
  dispatch_round := ring_round;
  rx_round := receive;
  process_one := packet_round;
  msg_round := message_round;
  lr_loop := user;
  usleep t w := with_host (sleep t (w_host w)) w;
  top_get w := lazybsd_top_status (w_md w);
  top_set t w := with_md (set_top t (w_md w)) w;
  usr_cb_get := w_usr_cb;
  usr_cb_reset := with_usr_cb 0 }.
End Driver.

(** *** Messages leave the sums alone *)
Section Status.
Context {K : Type}.

Definition keeps_status {A} (m : D K A) : Prop := forall d a d', m d = Ok (a, d') -> lazybsd_top_status d' = lazybsd_top_status d.
Lemma status_ret {A} (a : A) : keeps_status (mret a).
Proof. by intros d b d' [= <- <-]. Qed.
Lemma status_bind {A B} (m : D K A) (f : A -> D K B) : keeps_status m -> (forall a, keeps_status (f a)) -> keeps_status (m ≫= f).
Proof.
  intros Hm Hf d b d'. rewrite drun_bind. destruct (m d) as [[a d1]| |] eqn:E; try done.
  intros E2. rewrite (Hf a _ _ _ E2). by eapply Hm.
Qed.
Lemma status_lift {A} (m : M K A) : keeps_status (lift m).
Proof. intros d a d'. unfold lift. destruct (m (md_sys d)) as [[b s]| |]; try done. by intros [= <- <-]. Qed.
Lemma status_get {A} (f : md K -> A) : keeps_status (get f).
Proof. by intros d a d' [= <- <-]. Qed.
Lemma status_put (f : md K -> md K) : (forall d, lazybsd_top_status (f d) = lazybsd_top_status d) -> keeps_status (put f).
Proof. intros Hf d a d' [= <- <-]. apply Hf. Qed.
Lemma status_fault {A} : keeps_status (A := A) fault.
Proof. by intros d a d'. Qed.
End Status.
Ltac status_step :=
  match goal with
  | |- keeps_status (_ ≫= _) => apply status_bind; [|intros ?]
  | |- keeps_status (if ?b then _ else _) => destruct b
  | |- keeps_status (match ?x with _ => _ end) => destruct x
  | |- keeps_status (mret _) => apply status_ret
  | |- keeps_status (lift _) => apply status_lift
  | |- keeps_status (get _) => apply status_get
  | |- keeps_status (put _) => apply status_put; done
  | |- keeps_status fault => apply status_fault
  | |- keeps_status (fld _ _) => apply status_lift
  | |- keeps_status (put_fld _ _ _) => apply status_lift
  | |- keeps_status (ifld _) => unfold ifld
  | |- keeps_status (set_result _ _) => unfold set_result
  end.
Ltac status := repeat status_step.

Section MsgStatus.
Context {K : Type} `{Kernel K} `{RibKernel K} `{BsdHeaders} `{RouteHeaders} `{RtsockHeaders} `{DispatchKernel}.
Context (conf : features) (fr : frame) (lazybsd_ngctl : Z -> Z -> M K Z).

Lemma handler_status ty msg : keeps_status (handler_of conf fr lazybsd_ngctl ty msg).
Proof.
  unfold handler_of. repeat match goal with |- keeps_status ((if ?b then _ else _) _) => destruct b end.
  all: unfold handle_sysctl_msg, handle_ioctl_msg, handle_route_msg, handle_top_msg, handle_ngctl_msg, handle_ipfw_msg,
    handle_traffic_msg, handle_knictl_msg, handle_default_msg, put_traffic; status.
Qed.
Lemma enqueue_status i msg : keeps_status (msg_enqueue (K := K) i msg).
Proof.
  intros d a d'. unfold msg_enqueue. destruct (if i <? 0 then None else _) as [l|]; [|done].
  destruct (rte_ring_enqueue l msg) as [ret l']. by intros [= <- <-].
Qed.
Lemma handle_msgs_status l : keeps_status (handle_msgs conf fr lazybsd_ngctl l).
Proof.
  induction l as [|msg l IH]; cbn [handle_msgs]; [apply status_ret|]. apply status_bind; [|done].
  unfold handle_msg, deliver, give_back. status; first [apply handler_status|apply enqueue_status|done].
Qed.
Lemma process_msg_ring_status : keeps_status (process_msg_ring conf fr lazybsd_ngctl).
Proof.
  intros d a d'. unfold process_msg_ring. destruct (msg_ring d) as [|l rings]; [done|].
  destruct (rte_ring_dequeue_burst l 32) as [msgs l'].
  destruct (handle_msgs _ _ _ msgs _) as [[[] d1]| |] eqn:E; try done. intros [= <- <-].
  by apply handle_msgs_status in E.
Qed.
End MsgStatus.

(** ** The laws hold *)
Section DriverLaws.
Context {K W : Type} `{Machine W} `{MbufKernel} `{TxKernel} `{DispatchKernel} `{KniKernel}.
Context `{Kernel K} `{RibKernel K} `{BsdHeaders} `{RouteHeaders} `{RtsockHeaders}.
Context (MAXCPU : Z) (handler : fn -> Z -> Callout.state -> list Callout.api_call).
Context (conf : features) (fr : frame) (lazybsd_ngctl : Z -> Z -> M K Z).
Context (port_conf : Z -> rx_conf) (pcap : bool) (fuel : nat).
Context (user : option (world K W -> outcome (world K W))).
Context (doc_tsc : forall h, 0 <= (read_tsc h).1 < 2 ^ 64).
Context (doc_user : forall loop w w', user = Some loop -> loop w = Ok w' ->
  lazybsd_top_status (w_md w') = lazybsd_top_status (w_md w)).
#[local] Instance driver : Driver (world K W) :=
  lazybsd_driver MAXCPU handler conf fr lazybsd_ngctl port_conf pcap fuel user.

Lemma on_port_top {A} port (f : kni_interface_stats -> rx -> outcome (A * kni_interface_stats * rx)) (w : world K W) a w' :
  on_port port f w = Ok (a, w') -> top_get w' = top_get w.
Proof.
  unfold on_port. destruct (w_ports w !! port) as [p|]; [|done]. intros Hd. split_bind Hd. done.
Qed.
Lemma on_port_top_ port f (w w' : world K W) : on_port_ port f w = Ok w' -> top_get w' = top_get w.
Proof. unfold on_port_. intros Hd. apply bind_Ok in Hd as ([[] w1] & E & Hd). injection Hd as <-. by apply on_port_top in E. Qed.
Lemma run_timers_top (w w' : world K W) : run_timers MAXCPU handler fuel w = Ok w' -> top_get w' = top_get w.
Proof.
  unfold run_timers. destruct (ticks_due (w_host w)) as [n h]. intros Hd. change (top_get w) with (top_get (with_host h w)).
  revert w' Hd. induction n as [|n IH]; intros w' Hd; [by injection Hd as <-|]. cbn in Hd. split_bind Hd.
  unfold lazybsd_hardclock_job in Hd. split_bind Hd. cbn. by apply (IH x).
Qed.

Lemma tx_drain_len q s q' s' : tx_drain pcap q s = Ok (q', s') -> tx_len q' = 0.
Proof. unfold tx_drain. destruct (Z.eqb_spec (tx_len q) 0); [by intros [= <- <-]|]. intros Hd. by split_bind Hd. Qed.

(** The ports that are not flushed keep their packets. *)
Lemma drain_port_len p (w w' : world K W) : drain_port pcap p w = Ok w' ->
  tx_mbufs_len p w' = 0 /\ forall q, q <> p -> tx_mbufs_len q w' = tx_mbufs_len q w.
Proof.
  unfold drain_port, on_port_, on_port. destruct (w_ports w !! p) as [st|]; [|done]. intros Hd. split_bind Hd.
  cbn [tx_mbufs_len driver lazybsd_driver put_view w_ports].
  split; [|intros q Hq; by rewrite lookup_insert_ne]. rewrite lookup_insert_eq. cbn.
  match goal with E : tx_drain _ _ _ = _ |- _ => by apply tx_drain_len in E end.
Qed.

#[export] Instance lazybsd_driver_doc : DriverDoc (world K W).
Proof using doc_tsc doc_user.
  constructor; cbn.
  - intros w. pose proof (doc_tsc (w_host w)). by destruct (read_tsc (w_host w)).
  - done.
  - apply drain_port_len.
  - intros w. by destruct (read_tsc (w_host w)).
  - done.
  - done.
  - intros w w'. apply run_timers_top.
  - intros p w w'. apply on_port_top_.
  - intros p q w w'. apply on_port_top_.
  - intros p q w n w'. apply on_port_top.
  - intros p q w l w'. apply on_port_top.
  - intros p q b w w'. apply on_port_top_.
  - intros w w'. unfold message_round. destruct (process_msg_ring _ _ _ _) as [[n d]| |] eqn:E; try done.
    intros [= <-]. by apply process_msg_ring_status in E.
  - intros loop Hl w w'. by apply doc_user.
Qed.

(** A frame that the filter never finishes. *)
Definition endless (c : kni_conf) (s : net) (r : rte_mbuf) (b : Z) : Prop :=
  let pkt := packet_bytes b (buf r) (data_len r) s in
  34 <= data_len r < 65536 /\ be16 pkt 12 = Ok RTE_ETHER_TYPE_IPV4 /\ Filter.loops pkt 14.

Lemma endless_packet rc n b rest r x : packet_dispatcher = None -> rx_pcap rc = false ->
  LAZYBSD_KNI (filter_conf rc) = true -> enable_kni (filter_conf rc) = true ->
  rte (rx_net x) !! b = Some r -> endless (filter_conf rc) (rx_net x) r b ->
  process_packets rc n (b :: rest) false x = Diverge.
Proof.
  intros Hp Hc Hk He Hr (Hl & Ht & Hlp). cbn [process_packets]. unfold process_packet. rewrite Hc. cbn [andb negb].
  unfold deref_rte. rewrite Hr. cbn [mbind outcome_bind]. rewrite Hp. unfold filter_packet.
  by rewrite protocol_filter_endless.
Qed.

(** C36. One frame stops the process.  The NIC hands over a frame that holds an IPv4
    packet with a header length of 0 and protocol IP in IP.  If the kernel interface is on
    and the user has no dispatcher, the main loop never gets past it, however long it runs:
    no timer fires any more, no message is answered, nothing is sent. *)
Theorem frame_stops_loop c p q idle w w1 n w2 b rest w3 st r :
  packet_dispatcher = None -> pcap = false ->
  LAZYBSD_KNI (filter_conf (port_conf p)) = true -> enable_kni (filter_conf (port_conf p)) = true ->
  (if with_kni_primary c then kni_round p q w else Ok w) = Ok w1 ->
  dispatch_round p q w1 = Ok (n, w2) -> rx_round p q w2 = Ok (b :: rest, w3) ->
  w_ports w3 !! p = Some st -> rte (w_net w3) !! b = Some r ->
  endless (filter_conf (port_conf p)) (w_net w3) r b ->
  read_queue c p q idle w = Diverge.
Proof.
  intros Hp Hc Hk He E1 E2 E3 Hst Hr Hb. unfold read_queue. rewrite E1. cbn [mbind outcome_bind]. rewrite E2. cbn [mbind outcome_bind].
  rewrite E3. cbn [mbind outcome_bind length Nat.eqb]. unfold process_burst.
  assert (forall l, process_each p q (b :: l) w3 = Diverge) as Hd.
  { intros l. cbn [process_each process_one driver lazybsd_driver]. unfold packet_round, on_port_, on_port. rewrite Hst.
    by rewrite (endless_packet (conf_of port_conf pcap p q w3) fuel b [] r (view st w3) Hp Hc Hk He Hr Hb). }
  destruct (_ - _)%nat as [|j]; cbn [take drop]; [|by rewrite Hd].
  change (process_each p q [] w3) with (Ok w3). cbn [mbind outcome_bind]. by rewrite Hd.
Qed.
End DriverLaws.

(** ** Examples

    A clock that advances by 10 with every look at it, a tick in every round, one port with a
    packet to send, and a NIC that hands over the frame [50] once or never. *)
#[local] Existing Instances example_alloc example_rib.
#[local] Instance example_machine : Machine Z := {
  read_tsc h := (h mod 2 ^ 64, h + 10);
  clock_expire _ := 0; ticks_due h := (1%nat, h); realtime h := (h, 0); sleep t h := h + 1000 * t }.
#[local] Instance quiet_nic : KniKernel := { rte_eth_rx_burst _ _ _ s := ([], s) }.
#[local] Instance endless_nic : KniKernel | 10 := { rte_eth_rx_burst _ _ _ s := ([50], s) }.

Definition example_port : port_state :=
  PortState (set_tables 1 (<[0%nat := 20]> (replicate 32 0)) (replicate 32 0) (tx_init 0 0)) (<[0 := []]> ∅) [] (KniStats 5 0 0 0 0).
Definition example_world : world (list Z) Z :=
  let d := example_md LAZYBSD_TOP [] ([1000] :: replicate 9 []) in
  World 1000 demo
    (Net ∅ (<[50 := RteMbuf 0 3000 34 34 1 0 0 0 0 0 0 0]> (rte example_net)) (bytes_at 3000 endless_frame ∪ Mbuf.bytes example_net) [])
    (<[0 := example_port]> ∅) (set_top (Top 0 0 0 0 0) d) 0.
Definition example_loop : loop_conf := LoopConf 1000000 100 7 [0] [(0, 0)] true.
Definition example_conf (port : Z) : rx_conf :=
  RxConf 0 1 0 7 (KniConf false true true [] []) true false KNICTL_DEFAULT false.
Definition example_driver (nic : KniKernel) : Driver (world (list Z) Z) :=
  lazybsd_driver 64 periodic example_features example_frame (fun _ _ => mret 0) example_conf false 20 (Some (fun w => Ok w)).

Definition show (w : outcome (Z * Z * world (list Z) Z)) : option (Z * Z * top_status * option (list Z) * Z * Z) :=
  match w with
  | Ok (prev, usch, w) => Some (prev, usch, lazybsd_top_status (w_md w), msg_ring (w_md w) !! 5%nat, t_tx_packets (lazybsd_traffic (w_md w)), ticks (w_timers w))
  | _ => None
  end.

(** Three rounds: one packet is sent, the message for [top] is answered, three ticks. *)
Example main_loop_example :
  show (main_loop (H := example_driver quiet_nic) example_loop 3 example_world) =
    Some (8070, 8070, Top 3 14050 14080 10 20, Some [1000], 9, 3).
Proof. by vm_compute. Qed.

Lemma example_driver_doc nic : DriverDoc (world (list Z) Z) (H := example_driver nic).
Proof.
  apply lazybsd_driver_doc; [intros h; apply Z.mod_pos_bound; lia|]. by intros loop w w' [= <-] [= <-].
Qed.

Lemma loop_time_accounted_witness : exists prev usch w',
  main_loop (H := example_driver quiet_nic) example_loop 3 example_world = Ok (prev, usch, w') /\
  adds_up (lazybsd_top_status (w_md w')) /\ loops (lazybsd_top_status (w_md w')) = 3.
Proof.
  destruct (main_loop (H := example_driver quiet_nic) example_loop 3 example_world) as [[[prev usch] w']| |] eqn:E; [|by vm_compute in E..].
  exists prev, usch, w'. split; [done|].
  exact (loop_time_accounted (H0 := example_driver_doc quiet_nic) example_loop 3 example_world prev usch w' E eq_refl).
Defined.

Lemma loop_deadlines_witness : exists prev usch w' l,
  main_loop (H := example_driver quiet_nic) example_loop 3 example_world = Ok (prev, usch, w') /\
  length l = 3%nat /\ forall i r, l !! i = Some r -> u64 (r.1.1.1 - usch_of r) < 100.
Proof.
  destruct (main_loop (H := example_driver quiet_nic) example_loop 3 example_world) as [[[prev usch] w']| |] eqn:E; [|by vm_compute in E..].
  destruct (loop_deadlines (H0 := example_driver_doc quiet_nic) example_loop 3 example_world prev usch w' E) as (_ & l & _ & Hl & Hd).
  exists prev, usch, w', l. split; [done|]. split; [done|]. intros i [[[cur idle] p] u] Hi.
  apply (Hd i cur idle p u Hi). reflexivity.
Defined.

Lemma frame_stops_loop_witness :
  read_queue (H := lazybsd_driver (H3 := endless_nic) 64 periodic example_features example_frame (fun _ _ => mret 0) example_conf false 1000 None)
    (LoopConf 0 0 0 [0] [(0, 0)] false) 0 0 true example_world = Diverge.
Proof.
  eapply (frame_stops_loop (H3 := endless_nic) 64 periodic example_features example_frame (fun _ _ => mret 0) example_conf false 1000 None);
    [reflexivity..| |].
  - by vm_compute.
  - split; [cbn; lia|]. split; [by vm_compute|]. exists 64. vm_compute. by repeat split.
Defined.
