(* ===== verification/Pcap.v ===== *)
(** * Pcap: packets to files, [src/lazybsd_pcap.c]

    A process that dumps packets writes them to files in the format of pcap: a header, and
    for each packet a header with the time and two lengths, and the bytes that are kept.  When
    a file has reached the configured size the next of [PCAP_FILE_NUM] is begun, and after the
    last one the first again.

    A file is its bytes once they are flushed; the file system is a map from paths.
    [parse_pcap] reads the format back as its documentation describes it. *)
From stdpp Require Import strings pretty.
From S2P Require Import Prelude.

Definition FILE_PATH_LEN : nat := 64.
Definition PCAP_FILE_NUM : Z := 10.

(** A packet: [pkt_len] and the data of its segments. *)
Record packet := Packet { pkt_len : Z; segments : list (list Z) }.

(** The static variables [g_pcap_fp] (the path of the open file), [seq] and [g_flen], and the
    files. *)
Record pcap := Pcap { g_pcap_fp : option string; seq : Z; g_flen : Z; files : gmap string (list Z) }.

(** The [n] bytes of a number in memory. *)
Fixpoint le (n : nat) (v : Z) : list Z := match n with O => [] | S n => v mod 256 :: le n (v / 256) end.

Section Pcap.
(** [fopen] succeeds; the lcore of the process. *)
Context (fopen_ok : string -> bool) (lcore : Z).

(** [snprintf] to [pcap_f_path]. *)
Definition full_path (dump_path : option string) (seq : Z) : string :=
  default "." dump_path +:+ "/cpu" +:+ pretty (i32 lcore) +:+ "_" +:+ pretty (i32 seq) +:+ ".pcap".
Definition pcap_f_path (dump_path : option string) (seq : Z) : string :=
  String.substring 0 (FILE_PATH_LEN - 1) (full_path dump_path seq).

Definition fwrite (l : list Z) (x : pcap) : pcap :=
  match g_pcap_fp x with
  | Some p => Pcap (Some p) (seq x) (g_flen x) (<[p := default [] (files x !! p) ++ l]> (files x))
  | None => x
  end.
Definition add_flen (n : Z) (x : pcap) : pcap := Pcap (g_pcap_fp x) (seq x) (u32 (g_flen x + n)) (files x).

(** [struct pcap_file_header] and [struct pcap_pkthdr] *)
Definition pcap_file_header (snaplen : Z) : list Z :=
  le 4 0xA1B2C3D4 ++ le 2 2 ++ le 2 4 ++ le 4 0 ++ le 4 0 ++ le 4 snaplen ++ le 4 1.
Definition pcap_pkthdr (sec usec caplen len : Z) : list Z := le 4 sec ++ le 4 usec ++ le 4 caplen ++ le 4 len.

Definition lazybsd_enable_pcap (dump_path : option string) (snap_len : Z) (x : pcap) : outcome pcap :=
  let p := pcap_f_path dump_path (seq x) in
  if negb (fopen_ok p) then Panic else
  let x := Pcap (Some p) (seq x) 0 (<[p := []]> (files x)) in
  Ok (add_flen 24 (fwrite (pcap_file_header snap_len) x)).

Fixpoint dump_loop (l : list (list Z)) (snap_len out_len : Z) (x : pcap) : Z * pcap :=
  match l with
  | [] => (out_len, x)
  | data :: l =>
      if out_len <=? snap_len then
        let wr_len := u32 (snap_len - out_len) in
        let wr_len := if Z.of_nat (length data) <? wr_len then Z.of_nat (length data) else wr_len in
        dump_loop l snap_len (u32 (out_len + wr_len)) (fwrite (take (Z.to_nat wr_len) data) x)
      else (out_len, x)
  end.

(** [now] is what [gettimeofday] gives. *)
Definition lazybsd_dump_packets (dump_path : option string) (now : Z * Z) (pkt : packet) (snap_len f_maxlen : Z) (x : pcap)
    : outcome (Z * pcap) :=
  match g_pcap_fp x with
  | None => Ok (-1, x)
  | Some _ =>
      let snap_len := if pkt_len pkt <? snap_len then pkt_len pkt else snap_len in
      let x := add_flen 16 (fwrite (pcap_pkthdr (u32 now.1) (u32 now.2) snap_len (pkt_len pkt)) x) in
      let '(out_len, x) := dump_loop (segments pkt) snap_len 0 x in
      let x := add_flen out_len x in
      if f_maxlen <=? g_flen x then
        let n := u32 (seq x + 1) in
        let x := Pcap (g_pcap_fp x) (if PCAP_FILE_NUM <=? n then 0 else n) (g_flen x) (files x) in
        x ← lazybsd_enable_pcap dump_path snap_len x; Ok (0, x)
      else Ok (0, x)
  end.

(** Packets one after the other, from the start of the process. *)
Fixpoint dump_all (dump_path : option string) (snap_len f_maxlen : Z) (l : list (Z * Z * packet)) (x : pcap) : outcome pcap :=
  match l with
  | [] => Ok x
  | (now, pkt) :: l => '(_, x) ← lazybsd_dump_packets dump_path now pkt snap_len f_maxlen x; dump_all dump_path snap_len f_maxlen l x
  end.

(** ** The format *)

(** A packet of a file: its time, its length, and the bytes that were kept. *)
Record record := Rec { r_sec : Z; r_usec : Z; r_len : Z; r_data : list Z }.

Fixpoint le_value (l : list Z) : Z := match l with [] => 0 | b :: l => b + 256 * le_value l end.
Definition field (l : list Z) (off n : nat) : Z := le_value (take n (drop off l)).

(** The first packet, and what is behind it. *)
Definition parse_record (l : list Z) : option (record * list Z) :=
  let caplen := Z.to_nat (field l 8 4) in
  if (16 + caplen <=? length l)%nat
  then Some (Rec (field l 0 4) (field l 4 4) (field l 12 4) (take caplen (drop 16 l)), drop (16 + caplen) l)
  else None.

Fixpoint parse_records (fuel : nat) (l : list Z) : option (list record) :=
  if (length l =? 0)%nat then Some [] else
  match fuel with
  | O => None
  | S fuel => '(r, l) ← parse_record l; rs ← parse_records fuel l; Some (r :: rs)
  end.

(** The [snaplen] of the header and the packets of a file with the magic number and the version 2.4
    for Ethernet. *)
Definition parse_pcap (l : list Z) : option (Z * list record) :=
  if (24 <=? length l)%nat && (field l 0 4 =? 0xA1B2C3D4) && (field l 4 2 =? 2) && (field l 6 2 =? 4) && (field l 20 4 =? 1)
  then rs ← parse_records (length l) (drop 24 l); Some (field l 16 4, rs)
  else None.

(** What is kept of a packet. *)
Definition record_of (snap_len : Z) (d : Z * Z * packet) : record :=
  Rec (u32 d.1.1) (u32 d.1.2) (pkt_len d.2) (take (Z.to_nat (Z.min snap_len (pkt_len d.2))) (concat (segments d.2))).

(** The packets a driver makes: [pkt_len] is the length of all the data. *)
Definition whole (p : packet) : Prop := pkt_len p = Z.of_nat (length (concat (segments p))) /\ pkt_len p < 2 ^ 32.

(** ** The format is read back *)

Definition encode (r : record) : list Z :=
  pcap_pkthdr (r_sec r) (r_usec r) (Z.of_nat (length (r_data r))) (r_len r) ++ r_data r.
Definition file_of (b : Z * list record) : list Z := pcap_file_header b.1 ++ concat (encode <$> b.2).
Definition word (v : Z) : Prop := 0 <= v < 2 ^ 32.
Definition fine (r : record) : Prop := word (r_sec r) /\ word (r_usec r) /\ word (r_len r) /\ word (Z.of_nat (length (r_data r))).

Lemma length_le n v : length (le n v) = n.
Proof. revert v. induction n as [|n IH]; intros v; cbn; [done|]. by rewrite IH. Qed.

Lemma le_value_le n v : 0 <= v < 256 ^ Z.of_nat n -> le_value (le n v) = v.
Proof.
  revert v. induction n as [|n IH]; intros v Hv; cbn [le le_value]; [cbn in Hv; lia|].
  rewrite Nat2Z.inj_succ, Z.pow_succ_r in Hv by lia. rewrite IH; [|split; [apply Z.div_pos; lia|apply Z.div_lt_upper_bound; lia]].
  pose proof (Z.div_mod v 256). lia.
Qed.

Lemma field_app l1 l2 l3 off n : length l1 = off -> length l2 = n -> field (l1 ++ l2 ++ l3) off n = le_value l2.
Proof. intros <- <-. unfold field. by rewrite drop_app_length, take_app_length. Qed.

Lemma le_4 v : word v -> le_value (le 4 v) = v.
Proof. intros Hv. apply le_value_le. unfold word in Hv. lia. Qed.

Lemma header_fields a b c d (e : list Z) : length a = 4%nat -> length b = 4%nat -> length c = 4%nat -> length d = 4%nat ->
  let x := (a ++ b ++ c ++ d) ++ e in
  field x 0 4 = le_value a /\ field x 4 4 = le_value b /\ field x 8 4 = le_value c /\ field x 12 4 = le_value d /\
  drop 16 x = e /\ length x = (16 + length e)%nat.
Proof.
  intros Ha Hb Hc Hd x. unfold x. rewrite <- !(assoc_L (++)). split_and!.
  - by apply (field_app []).
  - by apply (field_app a).
  - rewrite (assoc_L (++) a). apply field_app; [rewrite length_app; lia|done].
  - rewrite (assoc_L (++) b), (assoc_L (++) a). apply field_app; [rewrite !length_app; lia|done].
  - rewrite (assoc_L (++) c), (assoc_L (++) b), (assoc_L (++) a). apply drop_app_length'. rewrite !length_app. lia.
  - rewrite !length_app. lia.
Qed.

Lemma parse_record_encode r l : fine r -> parse_record (encode r ++ l) = Some (r, l).
Proof.
  intros (F1 & F2 & F3 & F4). unfold encode, pcap_pkthdr. rewrite <- (assoc_L (++) _ (r_data r)).
  destruct (header_fields (le 4 (r_sec r)) (le 4 (r_usec r)) (le 4 (Z.of_nat (length (r_data r)))) (le 4 (r_len r)) (r_data r ++ l)
    (length_le _ _) (length_le _ _) (length_le _ _) (length_le _ _)) as (E1 & E2 & E3 & E4 & E5 & E6).
  set (x := (_ ++ _) ++ _) in *. unfold parse_record. rewrite E1, E2, E3, E4, !le_4 by done. rewrite Nat2Z.id.
  rewrite (proj2 (Nat.leb_le _ _)) by (rewrite E6, length_app; lia). rewrite <- drop_drop, E5, take_app_length, drop_app_length.
  by destruct r.
Qed.

Lemma parse_records_encode rs : Forall fine rs -> forall fuel, (length (concat (encode <$> rs)) <= fuel)%nat ->
  parse_records fuel (concat (encode <$> rs)) = Some rs.
Proof.
  induction 1 as [|r rs Hr _ IH]; intros fuel Hf; [by destruct fuel|]. cbn [fmap list_fmap concat] in *.
  rewrite length_app in Hf. assert (16 <= length (encode r))%nat as Hl by (unfold encode, pcap_pkthdr; rewrite !length_app, !length_le; lia).
  destruct fuel as [|fuel]; [lia|]. cbn [parse_records].
  rewrite (proj2 (Nat.eqb_neq _ 0)) by (rewrite length_app; lia). rewrite parse_record_encode by done. cbn [mbind option_bind].
  by rewrite IH by lia.
Qed.

Lemma parse_file b : word b.1 -> Forall fine b.2 -> parse_pcap (file_of b) = Some b.
Proof.
  intros Hs Hr. unfold parse_pcap. assert (length (file_of b) = 24 + length (concat (encode <$> b.2)))%nat as Hl.
  { unfold file_of, pcap_file_header. rewrite !length_app, !length_le. lia. }
  rewrite (proj2 (Nat.leb_le _ _)) by lia.
  assert (drop 24 (file_of b) = concat (encode <$> b.2)) as -> by (unfold file_of; by apply drop_app_length').
  rewrite parse_records_encode by (done || lia).
  assert (field (file_of b) 16 4 = b.1) as ->.
  { unfold file_of, pcap_file_header. rewrite !(assoc_L (++)). rewrite <- (assoc_L (++) _ (le 4 1)), <- (assoc_L (++) _ (le 4 b.1)).
    rewrite field_app; [by apply le_4|by rewrite !length_app, !length_le|by rewrite length_le]. }
  by destruct b.
Qed.

(** ** Runs *)

Lemma fwrite_run p l x : g_pcap_fp x = Some p ->
  fwrite l x = Pcap (Some p) (seq x) (g_flen x) (<[p := default [] (files x !! p) ++ l]> (files x)).
Proof. intros E. unfold fwrite. by rewrite E. Qed.

(** The loop writes the first [snap_len] bytes. *)
Lemma kept_bytes_spec l : forall snap_len out_len x p, g_pcap_fp x = Some p -> 0 <= out_len <= snap_len -> snap_len < 2 ^ 16 ->
  let w := take (Z.to_nat (snap_len - out_len)) (concat l) in
  dump_loop l snap_len out_len x = (out_len + Z.of_nat (length w),
    Pcap (Some p) (seq x) (g_flen x) (if decide (l = []) then files x else <[p := default [] (files x !! p) ++ w]> (files x))).
Proof.
  induction l as [|data l IH]; intros snap_len out_len x p Hp Ho Hs w; subst w; cbn [dump_loop concat].
  - rewrite take_nil. cbn. rewrite Z.add_0_r. destruct x; cbn in *; by subst.
  - rewrite (proj2 (Z.leb_le _ _)) by lia. cbv zeta.
    assert (u32 (snap_len - out_len) = snap_len - out_len) as -> by (apply u32_id; unfold in_u32; lia).
    set (n := if _ <? _ then _ else _).
    assert (n = Z.min (Z.of_nat (length data)) (snap_len - out_len)) as Hn by (unfold n; destruct (Z.ltb_spec (Z.of_nat (length data)) (snap_len - out_len)); lia).
    rewrite (fwrite_run p) by done. rewrite (u32_id (out_len + n)) by (unfold in_u32; lia). clearbody n.
    rewrite (IH snap_len (out_len + n) _ p) by (done || lia). cbn [seq g_flen files].
    rewrite take_app. rewrite length_app, !length_take.
    assert (take (Z.to_nat n) data = take (Z.to_nat (snap_len - out_len)) data) as Et.
    { destruct (decide (Z.of_nat (length data) <= snap_len - out_len)); [rewrite !take_ge by lia; done|]. f_equal. lia. }
    assert (Z.to_nat (snap_len - (out_len + n)) = (Z.to_nat (snap_len - out_len) - length data)%nat) as -> by lia.
    rewrite (decide_False (P := data :: l = [])) by done. f_equal; [lia|]. f_equal.
    case_decide as El; [subst l; cbn [concat]; by rewrite take_nil, app_nil_r, Et|].
    by rewrite lookup_insert_eq, insert_insert_eq, Et, (assoc_L (++)).
Qed.

Context (dump_path : option string) (snap_len f_maxlen : Z).
Local Notation path := (pcap_f_path dump_path).

(** The paths are not cut, the files can be opened, and the lengths are those of a [u_short] and
    of less than half of a [uint32_t]. *)
Context (paths_fit : forall s, 0 <= s < PCAP_FILE_NUM -> (String.length (full_path dump_path s) < FILE_PATH_LEN)%nat).
Context (opens : forall s, 0 <= s < PCAP_FILE_NUM -> fopen_ok (path s) = true).
Context (Hsnap : 0 <= snap_len < 2 ^ 16) (Hmax : 0 <= f_maxlen < 2 ^ 31).

Lemma substring_all n s : (String.length s <= n)%nat -> String.substring 0 n s = s.
Proof.
  revert n. induction s as [|c s IH]; intros [|n]; cbn; intros Hn; try done; [lia|]. f_equal. apply IH. lia.
Qed.

Lemma path_inj s s' : 0 <= s < PCAP_FILE_NUM -> 0 <= s' < PCAP_FILE_NUM -> path s = path s' -> s = s'.
Proof.
  unfold pcap_f_path. intros Hs Hs'. pose proof (paths_fit s Hs). pose proof (paths_fit s' Hs').
  rewrite !substring_all by (unfold FILE_PATH_LEN in *; lia). unfold full_path, PCAP_FILE_NUM in *.
  intros E. repeat apply (inj (String.append _)) in E.
  assert (forallb (fun a => forallb (fun b => implb (bool_decide (pretty (i32 a) +:+ ".pcap" = pretty (i32 b) +:+ ".pcap")) (a =? b)) (seqZ 0 10)) (seqZ 0 10) = true)
    as D by by vm_compute.
  rewrite forallb_forall in D. specialize (D s). rewrite <- list_elem_of_In, elem_of_seqZ in D. specialize (D ltac:(lia)).
  rewrite forallb_forall in D. specialize (D s'). rewrite <- list_elem_of_In, elem_of_seqZ in D. specialize (D ltac:(lia)).
  rewrite (bool_decide_eq_true_2 _ E) in D. cbn in D. by apply Z.eqb_eq in D.
Qed.

(** The files of the batches [bs] and of the batch [cur] that is being written. *)
Definition shows (bs : list (Z * list record)) (cur : Z * list record) (x : pcap) : Prop :=
  let n := Z.of_nat (length bs) in
  seq x = n mod PCAP_FILE_NUM /\ g_pcap_fp x = Some (path (n mod PCAP_FILE_NUM)) /\
  g_flen x = Z.of_nat (length (file_of cur)) /\ (g_flen x < f_maxlen \/ cur.2 = []) /\
  (forall i b, (bs ++ [cur]) !! i = Some b -> (length bs < i + 10)%nat ->
     files x !! path (Z.of_nat i mod PCAP_FILE_NUM) = Some (file_of b)).

(** A batch fits a file. *)
Definition good_batch (b : Z * list record) : Prop :=
  0 <= b.1 <= snap_len /\ Forall fine b.2 /\ Z.of_nat (length (file_of b)) <= Z.max f_maxlen 24 + 16 + snap_len.

Lemma mod_range i : 0 <= Z.of_nat i mod PCAP_FILE_NUM < PCAP_FILE_NUM.
Proof. apply Z.mod_pos_bound. done. Qed.

Lemma length_file_of b : length (file_of b) = (24 + length (concat (encode <$> b.2)))%nat.
Proof. unfold file_of, pcap_file_header. rewrite !length_app, !length_le. lia. Qed.

Lemma file_of_snoc h rs r : file_of (h, rs ++ [r]) = file_of (h, rs) ++ encode r.
Proof. unfold file_of. cbn [fst snd]. rewrite fmap_app, concat_app. cbn [fmap list_fmap concat]. by rewrite app_nil_r, (assoc_L (++)). Qed.

Lemma length_encode r : length (encode r) = (16 + length (r_data r))%nat.
Proof. unfold encode, pcap_pkthdr. rewrite !length_app, !length_le. lia. Qed.

(** Opening the file of the number [n]. *)
Lemma enable_shows h bs x : 0 <= h <= snap_len -> seq x = Z.of_nat (length bs) mod PCAP_FILE_NUM ->
  (forall i b, bs !! i = Some b -> (length bs < i + 10)%nat -> files x !! path (Z.of_nat i mod PCAP_FILE_NUM) = Some (file_of b)) ->
  exists x', lazybsd_enable_pcap dump_path h x = Ok x' /\ shows bs (h, []) x'.
Proof.
  intros Hh Hs Hf. unfold lazybsd_enable_pcap. rewrite Hs, opens by apply mod_range. cbn [negb].
  eexists. split; [reflexivity|]. unfold shows. cbn [seq add_flen fwrite g_pcap_fp g_flen files].
  split_and!; [done|done| |by right|].
  - rewrite length_file_of. done.
  - rewrite lookup_insert_eq, insert_insert_eq. intros i b Hb Hi. destruct (decide (i = length bs)) as [->|Hne].
    + rewrite list_lookup_middle in Hb by done. injection Hb as <-. rewrite lookup_insert_eq. cbn [default].
      unfold file_of. by rewrite app_nil_r.
    + pose proof (lookup_lt_Some _ _ _ Hb) as Hl. rewrite length_app in Hl. cbn in Hl. rewrite lookup_app_l in Hb by lia.
      rewrite lookup_insert_ne; [by apply Hf|]. intros E. apply path_inj in E; [|apply mod_range..].
      unfold PCAP_FILE_NUM in E. Z.div_mod_to_equations. lia.
Qed.

Lemma record_data now pkt : whole pkt -> let r := record_of snap_len (now, pkt) in
  Z.of_nat (length (r_data r)) = Z.min snap_len (pkt_len pkt) /\ fine r.
Proof.
  intros [Hw Hw32] r. assert (Z.of_nat (length (r_data r)) = Z.min snap_len (pkt_len pkt)) as E by (cbn; rewrite length_take; lia).
  split; [done|]. unfold fine. rewrite E. unfold word. cbn. pose proof (u32_range now.1). pose proof (u32_range now.2).
  unfold in_u32 in *. split_and!; lia.
Qed.

(** The packet is in the file that is open. *)
Lemma write_packet P old now pkt x : whole pkt -> g_pcap_fp x = Some P -> files x !! P = Some old ->
  let r := record_of snap_len (now, pkt) in
  let k := Z.min snap_len (pkt_len pkt) in
  dump_loop (segments pkt) k 0 (add_flen 16 (fwrite (pcap_pkthdr (u32 now.1) (u32 now.2) k (pkt_len pkt)) x)) =
    (k, Pcap (Some P) (seq x) (u32 (g_flen x + 16)) (<[P := old ++ encode r]> (files x))).
Proof.
  intros Hwhole Hp Ho r k. pose proof Hwhole as [Hw Hw32]. destruct (record_data now pkt Hwhole) as [Hr _]. fold r in Hr.
  rewrite (fwrite_run P) by done. rewrite (kept_bytes_spec _ _ _ _ P) by (done || (unfold k; lia)).
  rewrite Ho. cbn [default add_flen seq g_flen files g_pcap_fp]. rewrite Z.sub_0_r.
  assert (take (Z.to_nat k) (concat (segments pkt)) = r_data r) as -> by done.
  f_equal; [unfold k; lia|]. f_equal. unfold encode. rewrite Hr. fold k.
  case_decide as El; [|rewrite lookup_insert_eq, insert_insert_eq; unfold default, from_option, id; by rewrite (assoc_L (++))].
  assert (r_data r = []) as -> by (unfold r, record_of; cbn [r_data snd]; rewrite El; apply take_nil). by rewrite app_nil_r.
Qed.

(** A file that is not the first has in its header the length that was kept of the last packet of
    the file before. *)
Definition chained (l : list (Z * list record)) : Prop :=
  forall i b b', l !! i = Some b -> l !! S i = Some b' ->
    exists r, last b.2 = Some r /\ b'.1 = Z.of_nat (length (r_data r)).

Lemma chained_replace bs cur cur' : chained (bs ++ [cur]) -> cur'.1 = cur.1 -> chained (bs ++ [cur']).
Proof.
  intros Hc E i b b' Hb Hb'. pose proof (lookup_lt_Some _ _ _ Hb') as Hl. rewrite length_app in Hl. cbn in Hl.
  rewrite lookup_app_l in Hb by lia. destruct (decide (S i = length bs)) as [Hi|Hi].
  - rewrite list_lookup_middle in Hb' by done. injection Hb' as <-. rewrite E.
    apply (Hc i); [by rewrite lookup_app_l by lia|by rewrite list_lookup_middle].
  - rewrite lookup_app_l in Hb' by lia. apply (Hc i); by rewrite lookup_app_l by lia.
Qed.

Lemma chained_snoc l b h r : chained (l ++ [b]) -> last b.2 = Some r -> h = Z.of_nat (length (r_data r)) ->
  chained ((l ++ [b]) ++ [(h, [])]).
Proof.
  intros Hc Hr -> i b0 b' Hb Hb'. pose proof (lookup_lt_Some _ _ _ Hb') as Hl. rewrite !length_app in Hl. cbn in Hl.
  rewrite lookup_app_l in Hb by (rewrite length_app; cbn; lia). destruct (decide (i = length l)) as [->|Hi].
  - rewrite list_lookup_middle in Hb by done. injection Hb as <-. rewrite list_lookup_middle in Hb' by (rewrite length_app; cbn; lia).
    injection Hb' as <-. by exists r.
  - rewrite lookup_app_l in Hb' by (rewrite length_app; cbn; lia). by apply (Hc i).
Qed.

(** One packet. *)
Lemma dump_shows bs cur x now pkt : whole pkt -> shows bs cur x -> Forall good_batch (bs ++ [cur]) -> chained (bs ++ [cur]) ->
  exists bs' cur' x', lazybsd_dump_packets dump_path now pkt snap_len f_maxlen x = Ok (0, x') /\ shows bs' cur' x' /\
    Forall good_batch (bs' ++ [cur']) /\ chained (bs' ++ [cur']) /\
    concat (snd <$> (bs' ++ [cur'])) = concat (snd <$> (bs ++ [cur])) ++ [record_of snap_len (now, pkt)] /\
    (forall b, head (bs ++ [cur]) = Some b -> exists b', head (bs' ++ [cur']) = Some b' /\ b'.1 = b.1).
Proof.
  intros Hw (Hseq & Hfp & Hflen & Hopen & Hfiles) Hgood Hch.
  set (n := Z.of_nat (length bs)) in *. set (P := path (n mod PCAP_FILE_NUM)) in *.
  set (r := record_of snap_len (now, pkt)). set (k := Z.min snap_len (pkt_len pkt)). set (cur' := (cur.1, cur.2 ++ [r])).
  destruct (record_data now pkt Hw) as [Hr Hfine]. fold r k in Hr, Hfine.
  apply Forall_app in Hgood as [Hbs Hcur]. apply Forall_singleton in Hcur as (C1 & C2 & C3).
  assert (file_of cur' = file_of cur ++ encode r) as Ecur' by (unfold cur'; rewrite file_of_snoc; by destruct cur).
  assert (files x !! P = Some (file_of cur)) as Hold by (apply (Hfiles (length bs)); [by rewrite list_lookup_middle|lia]).
  assert (Z.of_nat (length (file_of cur')) = g_flen x + 16 + k) as El by (rewrite Ecur', length_app, length_encode; lia).
  assert (g_flen x <= Z.max f_maxlen 24) as Hle.
  { destruct Hopen as [?|E]; [lia|]. rewrite Hflen, length_file_of, E. cbn. lia. }
  assert (good_batch cur') as Hcur'.
  { split; [done|]. split; [by apply Forall_app; split; [|apply Forall_singleton]|]. unfold k in El. lia. }
  unfold lazybsd_dump_packets. rewrite Hfp. replace (if pkt_len pkt <? snap_len then pkt_len pkt else snap_len) with k
    by (unfold k; destruct (Z.ltb_spec (pkt_len pkt) snap_len); lia).
  rewrite (write_packet P (file_of cur)) by done. fold r k. rewrite <- Ecur'. cbv zeta.
  set (x2 := Pcap (Some P) (seq x) (u32 (u32 (g_flen x + 16) + k)) (<[P := file_of cur']> (files x))).
  assert (g_flen x2 = Z.of_nat (length (file_of cur'))) as Hflen2.
  { unfold x2. cbn [g_flen]. rewrite El, (u32_id (g_flen x + 16)), u32_id by (unfold in_u32, k in *; pose proof (proj1 Hw); lia). done. }
  assert (forall i b, (bs ++ [cur']) !! i = Some b -> (length bs < i + 10)%nat ->
    files x2 !! path (Z.of_nat i mod PCAP_FILE_NUM) = Some (file_of b)) as Hfiles2.
  { intros i b Hb Hi. unfold x2. cbn [files]. destruct (decide (i = length bs)) as [->|Hne].
    - rewrite list_lookup_middle in Hb by done. injection Hb as <-. apply lookup_insert_eq.
    - pose proof (lookup_lt_Some _ _ _ Hb) as Hl. rewrite length_app in Hl. cbn in Hl. rewrite lookup_app_l in Hb by lia.
      rewrite lookup_insert_ne; [apply Hfiles; [by rewrite lookup_app_l by lia|done]|]. intros E. apply path_inj in E; [|apply mod_range..].
      unfold PCAP_FILE_NUM, n in E. Z.div_mod_to_equations. lia. }
  change (add_flen k _) with x2. cbv zeta. destruct (Z.leb_spec f_maxlen (g_flen x2)) as [Hfull|Hfits].
  - cbv zeta. match goal with |- context [lazybsd_enable_pcap _ _ ?y] => set (x3 := y) end. destruct (enable_shows k (bs ++ [cur']) x3) as (x' & E & Hx').
    + unfold k. destruct Hw. lia.
    + unfold x3, x2. cbn [seq]. rewrite length_app, Hseq. cbn [length]. replace (Z.of_nat (length bs + 1)) with (n + 1) by lia.
      unfold PCAP_FILE_NUM, uwrap. rewrite (Z.mod_small (n mod 10 + 1)) by (Z.div_mod_to_equations; lia).
      destruct (Z.leb_spec 10 (n mod 10 + 1)); Z.div_mod_to_equations; lia.
    + intros i b Hb Hi. rewrite length_app in Hi. apply Hfiles2; [done|cbn in Hi; lia].
    + exists (bs ++ [cur']), (k, []), x'. rewrite E. split; [reflexivity|]. split; [exact Hx'|]. split_and!.
      * apply Forall_app. split; [by apply Forall_app; split; [|apply Forall_singleton]|]. apply Forall_singleton.
        unfold good_batch. cbn [fst snd]. rewrite length_file_of. cbn. unfold k. destruct Hw. split_and!; [lia|lia|constructor|lia].
      * apply (chained_snoc _ _ _ r); [by apply (chained_replace bs cur)|unfold cur'; cbn [snd]; apply last_snoc|by rewrite Hr].
      * rewrite !fmap_app, !concat_app. cbn. by rewrite !app_nil_r, <- (assoc_L (++)).
      * intros b Hb. exists (if bs is [] then cur' else b). destruct bs; cbn in *; [by injection Hb as <-|done].
  - exists bs, cur', x2. split; [done|]. split; [|split_and!].
    + unfold shows. fold n P. rewrite Hflen2. split_and!; [done|done|done|left; lia|done].
    + apply Forall_app. split; [done|]. by apply Forall_singleton.
    + by apply (chained_replace bs cur).
    + rewrite !fmap_app, !concat_app. cbn. by rewrite !app_nil_r, <- (assoc_L (++)).
    + intros b Hb. exists (if bs is [] then cur' else b). destruct bs; cbn in *; [by injection Hb as <-|done].
Qed.

Lemma dump_all_shows l : forall bs cur x, Forall (fun d => whole d.2) l -> shows bs cur x -> Forall good_batch (bs ++ [cur]) -> chained (bs ++ [cur]) ->
  exists bs' cur' x', dump_all dump_path snap_len f_maxlen l x = Ok x' /\ shows bs' cur' x' /\ Forall good_batch (bs' ++ [cur']) /\
    chained (bs' ++ [cur']) /\
    concat (snd <$> (bs' ++ [cur'])) = concat (snd <$> (bs ++ [cur])) ++ (record_of snap_len <$> l) /\
    (forall b, head (bs ++ [cur]) = Some b -> exists b', head (bs' ++ [cur']) = Some b' /\ b'.1 = b.1).
Proof.
  induction l as [|[now pkt] l IH]; intros bs cur x Hl Hx Hg Hch.
  - exists bs, cur, x. rewrite app_nil_r. by eauto 10.
  - apply Forall_cons in Hl as [Hw Hl].
    destruct (dump_shows bs cur x now pkt Hw Hx Hg Hch) as (bs1 & cur1 & x1 & E1 & Hx1 & Hg1 & Hc1 & C1 & Hh1).
    destruct (IH bs1 cur1 x1 Hl Hx1 Hg1 Hc1) as (bs2 & cur2 & x2 & E2 & Hx2 & Hg2 & Hc2 & C2 & Hh2).
    exists bs2, cur2, x2. cbn [dump_all]. rewrite E1. cbn [mbind outcome_bind]. split; [done|]. split; [done|]. split; [done|]. split; [done|]. split.
    + rewrite C2, C1, <- (assoc_L (++)). done.
    + intros b Hb. destruct (Hh1 b Hb) as (b1 & Hb1 & E). destruct (Hh2 b1 Hb1) as (b2 & Hb2 & E'). exists b2. split; [done|congruence].
Qed.

(** C39. What is in the files can be read back.  After any packets there are the files of the last
    batches, at most ten with consecutive numbers, down to the one that is being written; read back as pcap files
    and put one behind the other in this order they are the last of the packets in order, each with its
    time, its length and its first [snap_len] bytes.  These are all the packets since the start unless files were
    overwritten, and then there are ten.  No file exceeds the configured size by more than one packet.  The [snaplen] in the
    header is the configured one in the first file of all; in each file after it is the length that was kept of the last packet of the file
    before, which may be less than what the file keeps of its packets: a reader must go by the lengths of the
    packets, as [parse_pcap] does. *)
Theorem pcap_readable l x0 : seq x0 = 0 -> Forall (fun d => whole d.2) l ->
  exists x1 x k s bs, lazybsd_enable_pcap dump_path snap_len x0 = Ok x1 /\ dump_all dump_path snap_len f_maxlen l x1 = Ok x /\
    concat (snd <$> bs) = record_of snap_len <$> drop k l /\
    (k = 0%nat /\ fst <$> head bs = Some snap_len \/ length bs = 10%nat) /\ (0 < length bs <= 10)%nat /\
    seq x = (s + Z.of_nat (length bs) - 1) mod PCAP_FILE_NUM /\
    (forall i b, bs !! i = Some b ->
      exists f, files x !! path ((s + Z.of_nat i) mod PCAP_FILE_NUM) = Some f /\ parse_pcap f = Some b /\
        Z.of_nat (length f) <= Z.max f_maxlen 24 + 16 + snap_len) /\
    chained bs.
Proof.
  intros Hs Hl. destruct (enable_shows snap_len [] x0) as (x1 & E1 & Hx1); [lia|done|done|].
  destruct (dump_all_shows l [] (snap_len, []) x1 Hl Hx1) as (bs & cur & x & E & Hx & Hg & Hc & C & Hh).
  { apply Forall_singleton. unfold good_batch. cbn [fst snd]. rewrite length_file_of. cbn. split_and!; [lia|lia|constructor|lia]. }
  { intros [|i] b b' _ Hb'; done. }
  set (all := bs ++ [cur]) in *. set (n := (length all - 10)%nat). assert (length all = S (length bs)) as Hla.
  { unfold all. rewrite length_app. cbn. lia. }
  exists x1, x, (length (concat (snd <$> take n all))), (Z.of_nat n), (drop n all). split; [done|]. split; [done|].
  assert (concat (snd <$> all) = record_of snap_len <$> l) as Call by (rewrite C; done).
  split; [|split; [|split; [|split; [|split]]]].
  - rewrite (fmap_drop (record_of snap_len)), <- Call. rewrite <- (take_drop n all) at 3. by rewrite fmap_app, concat_app, drop_app_length.
  - destruct (decide (length all <= 10)%nat) as [Hle|Hgt]; [left|right; rewrite length_drop; unfold n; lia].
    assert (n = 0%nat) as -> by (unfold n; lia). split; [done|]. rewrite drop_0.
    destruct (Hh (snap_len, []) eq_refl) as (b' & Hb' & Eb). fold all in Hb'. rewrite Hb'. cbn in *. by rewrite Eb.
  - rewrite length_drop. unfold n. lia.
  - destruct Hx as (-> & _). rewrite length_drop. f_equal. unfold n. lia.
  - intros i b Hb. rewrite lookup_drop in Hb. exists (file_of b).
    pose proof (Forall_lookup_1 _ _ _ _ Hg Hb) as (G1 & G2 & G3). destruct Hx as (_ & _ & _ & _ & Hf).
    rewrite <- Nat2Z.inj_add. split; [apply Hf; [done|unfold n; lia]|]. split; [|done]. apply parse_file; [unfold word; lia|done].
  - intros i b b' Hb Hb'. rewrite lookup_drop in Hb, Hb'. rewrite Nat.add_succ_r in Hb'. by apply (Hc (n + i)%nat).
Qed.
End Pcap.

(** ** Examples: a packet of three segments and one that is cut to 8 bytes. *)
Definition example_packets : list (Z * Z * packet) :=
  [(1700000000, 5, Packet 6 [[1; 2]; []; [3; 4; 5; 6]]); (1700000001, 7, Packet 4 [[1; 2; 3; 4]]); (1700000002, 9, Packet 12 [[7]; seqZ 0 11])].
Definition pcap0 : pcap := Pcap None 0 0 ∅.

Lemma example_paths s : 0 <= s < PCAP_FILE_NUM -> (String.length (full_path 3 (Some "/tmp") s) < FILE_PATH_LEN)%nat.
Proof.
  unfold PCAP_FILE_NUM. intros Hs.
  assert (s = 0 \/ s = 1 \/ s = 2 \/ s = 3 \/ s = 4 \/ s = 5 \/ s = 6 \/ s = 7 \/ s = 8 \/ s = 9) as Hc by lia.
  destruct_or!; subst s; apply Nat.ltb_lt; by vm_compute.
Qed.

Lemma pcap_readable_witness : exists x1 x,
  lazybsd_enable_pcap (fun _ => true) 3 (Some "/tmp") 8 pcap0 = Ok x1 /\
  dump_all (fun _ => true) 3 (Some "/tmp") 8 60 example_packets x1 = Ok x /\
  parse_pcap <$> (files x !! "/tmp/cpu3_1.pcap") = Some (Some (4, [Rec 1700000002 9 12 [7; 0; 1; 2; 3; 4; 5; 6]])).
Proof.
  destruct (pcap_readable (fun _ => true) 3 (Some "/tmp") 8 60 example_paths
    ltac:(done) ltac:(lia) ltac:(lia) example_packets pcap0 eq_refl ltac:(by repeat constructor))
    as (x1 & x & k & s & bs & E1 & E & _).
  exists x1, x. split; [done|]. split; [done|]. vm_compute in E1. injection E1 as <-. vm_compute in E. injection E as <-. by vm_compute.
Defined.

(** The file after the first says in its header that packets are cut to the length of the last packet
    of the file before, 4, and yet holds 8 bytes of one. *)
Example snaplen_of_the_last_packet :
  match lazybsd_enable_pcap (fun _ => true) 3 None 8 pcap0 with
  | Ok x => match dump_all (fun _ => true) 3 None 8 60 example_packets x with
            | Ok x => option_map (fun f => option_map (fun b => (b.1, length ∘ r_data <$> b.2)) (parse_pcap f)) (files x !! "./cpu3_1.pcap"%string) = Some (Some (4, [8%nat]))
            | _ => False
            end
  | _ => False
  end.
Proof. by vm_compute. Qed.
