(* ===== verification/Config.v ===== *)
(** * Config: the configuration and the command line, [src/lazybsd_cfg.cc] and [src/lazybsd_cmdline.cc]

    [config::loadFile] and [config::loadString] read an XML document into a tree of the Boost library and
    store what they find in the global structure ([ptree2struct]).  [cmdline::parse] reads the options
    of the program.  An exception ends a function and is passed on to its caller, and a write through NULL
    ends the process.

    The file shows what [ptree2struct] stores when it gets to the end, and how far it gets after the start. *)
From S2P Require Import Prelude.

(** ** Trees, options and exceptions *)

(** What the libraries throw. *)
Inductive exn := ptree_bad_path | ptree_bad_data | xml_parser_error | options_error.

(** Boost: the data at a path of a tree, if it has the path; the number in a text; the parser, which takes a text or
    the name of a file. *)
Class PropertyTree (T : Type) := {
  get_data : T -> string -> option string;
  stream_int : string -> option Z;
  read_xml : string -> option T;
  read_xml_file : string -> option T }.

(** A [const char *]: NULL, or the text of a string that no longer exists. *)
Inductive cptr := NULL | Dangling (was : string).

(** The members of [lazybsd_global] that are set: numbers, and texts. *)
Inductive int_field :=
| nb_channel | idle_sleep | nb_bond | nb_vdev | numa_on | pkt_tx_delay | promiscuous | symmetric_rss | tso | tx_csum_offoad_skip | vlan_strip
| hz | fd_reserve | pcap_enable | save_len | snap_len.
Inductive str_field := lcore_mask | save_path.
Inductive port_field := addr | broadcast | gateway | netmask.
#[export] Instance int_field_eq : EqDecision int_field.
Proof. solve_decision. Defined.
#[export] Instance str_field_eq : EqDecision str_field.
Proof. solve_decision. Defined.
#[export] Instance port_field_eq : EqDecision port_field.
Proof. solve_decision. Defined.

(** [portid_list] and [port_cfgs] are pointers; of the arrays only the first elements are used. *)
Record global := Global {
  ints : int_field -> Z; strs : str_field -> cptr; portid_list : option Z; port_cfgs : option (port_field -> cptr) }.

(** [lazybsd_global_default]: all zero. *)
Definition lazybsd_global_default : global := Global (fun _ => 0) (fun _ => NULL) None None.

(** The types of the members. *)
Definition conv (f : int_field) (z : Z) : Z :=
  match f with
  | idle_sleep | pkt_tx_delay | save_len => u32 z
  | pcap_enable | snap_len => u16 z
  | _ => z
  end.

(** ** The error monad *)
Definition X (A : Type) : Type := global -> outcome ((exn + A) * global).
#[export] Instance X_ret : MRet X := fun A a g => Ok (inr a, g).
#[export] Instance X_bind : MBind X := fun A B f m g =>
  match m g with Ok (inr a, g) => f a g | Ok (inl e, g) => Ok (inl e, g) | Panic => Panic | Diverge => Diverge end.
Definition throw {A} (e : exn) : X A := fun g => Ok (inl e, g).
(** [try { m } catch (const std::exception& e) { h }] *)
Definition try_catch {A} (m h : X A) : X A := fun g => match m g with Ok (inl _, g) => h g | r => r end.

Definition EXIT_SUCCESS : Z := 0.
Definition EXIT_FAILURE : Z := 1.

Section Config.
Context {T : Type} `{PropertyTree T}.

(** [cfg.get<int>(path)] and [cfg.get<string>(path)] *)
Definition get_int (cfg : T) (path : string) : X Z :=
  match get_data cfg path with
  | None => throw ptree_bad_path
  | Some d => match stream_int d with None => throw ptree_bad_data | Some z => mret z end
  end.
Definition get_string (cfg : T) (path : string) : X string :=
  match get_data cfg path with None => throw ptree_bad_path | Some d => mret d end.

(** The assignments; the right side is evaluated first. *)
Definition put_int (f : int_field) (z : Z) (g : global) : global :=
  Global (fun x => if decide (x = f) then conv f z else ints g x) (strs g) (portid_list g) (port_cfgs g).
Definition put_str (f : str_field) (s : string) (g : global) : global :=
  Global (ints g) (fun x => if decide (x = f) then Dangling s else strs g x) (portid_list g) (port_cfgs g).
Definition set_int (f : int_field) (z : Z) : X unit := fun g => Ok (inr (), put_int f z g).
Definition set_str (f : str_field) (s : string) : X unit := fun g => Ok (inr (), put_str f s g).
Definition set_portid (z : Z) : X unit := fun g =>
  match portid_list g with
  | None => Panic
  | Some _ => Ok (inr (), Global (ints g) (strs g) (Some (u16 z)) (port_cfgs g))
  end.
Definition set_port (f : port_field) (s : string) : X unit := fun g =>
  match port_cfgs g with
  | None => Panic
  | Some p => Ok (inr (), Global (ints g) (strs g) (portid_list g) (Some (fun x => if decide (x = f) then Dangling s else p x)))
  end.

Definition ptree2struct (cfg : T) : X Z :=
  _ ← get_int cfg "lazybsd.lazybsd_global_ptr()->dpdk.channel" ≫= set_int nb_channel;
  _ ← get_int cfg "lazybsd.lazybsd_global_ptr()->dpdk.idle_sleep" ≫= set_int idle_sleep;
  _ ← get_string cfg "lazybsd.lazybsd_global_ptr()->dpdk.lcore_mask" ≫= set_str lcore_mask;
  _ ← get_int cfg "lazybsd.lazybsd_global_ptr()->dpdk.nb_bond" ≫= set_int nb_bond;
  _ ← get_int cfg "lazybsd.lazybsd_global_ptr()->dpdk.nb_vdev" ≫= set_int nb_vdev;
  _ ← get_int cfg "lazybsd.lazybsd_global_ptr()->dpdk.numa_on" ≫= set_int numa_on;
  _ ← get_int cfg "lazybsd.lazybsd_global_ptr()->dpdk.pkt_tx_delay" ≫= set_int pkt_tx_delay;
  _ ← get_int cfg "lazybsd.lazybsd_global_ptr()->dpdk.port_list" ≫= set_portid;
  _ ← get_int cfg "lazybsd.lazybsd_global_ptr()->dpdk.promiscuous" ≫= set_int promiscuous;
  _ ← get_int cfg "lazybsd.lazybsd_global_ptr()->dpdk.symmetric_rss" ≫= set_int symmetric_rss;
  _ ← get_int cfg "lazybsd.lazybsd_global_ptr()->dpdk.tso" ≫= set_int tso;
  _ ← get_int cfg "lazybsd.lazybsd_global_ptr()->dpdk.tx_csum_offoad_skip" ≫= set_int tx_csum_offoad_skip;
  _ ← get_int cfg "lazybsd.lazybsd_global_ptr()->dpdk.vlan_strip" ≫= set_int vlan_strip;
  _ ← get_int cfg "lazybsd.freebsd.hz" ≫= set_int hz;
  _ ← get_int cfg "lazybsd.freebsd.fd_reserve" ≫= set_int fd_reserve;
  _ ← get_int cfg "lazybsd.pcap.enable" ≫= set_int pcap_enable;
  _ ← get_int cfg "lazybsd.pcap.savelen" ≫= set_int save_len;
  _ ← get_string cfg "lazybsd.pcap.savepath" ≫= set_str save_path;
  _ ← get_int cfg "lazybsd.pcap.snaplen" ≫= set_int snap_len;
  _ ← get_string cfg "lazybsd.port0.addr" ≫= set_port addr;
  _ ← get_string cfg "lazybsd.port0.broadcast" ≫= set_port broadcast;
  _ ← get_string cfg "lazybsd.port0.gateway" ≫= set_port gateway;
  _ ← get_string cfg "lazybsd.port0.netmask" ≫= set_port netmask;
  mret EXIT_SUCCESS.

(** [fileName.substr(fileName.rfind(".") + 1, fileName.length())]: what follows the last point, or all. *)
Fixpoint after_last_dot (s : string) : option string :=
  match s with
  | EmptyString => None
  | String c s =>
      match after_last_dot s with Some t => Some t | None => if decide (String c EmptyString = "."%string) then Some s else None end
  end.
Definition fileNameTag (fileName : string) : string := default fileName (after_last_dot fileName).

Definition parserFile (fileName : string) : X (Z * option T) :=
  if decide (fileNameTag fileName = "xml"%string) then
    match read_xml_file fileName with None => throw xml_parser_error | Some cfg => mret (EXIT_SUCCESS, Some cfg) end
  else mret (EXIT_FAILURE, None).

Definition parserString (stream : string) : X (Z * option T) :=
  try_catch (match read_xml stream with None => throw xml_parser_error | Some cfg => mret (EXIT_SUCCESS, Some cfg) end)
    (mret (EXIT_FAILURE, None)).

(** The tree is empty when it was not read. *)
Definition load (empty : T) (parser : X (Z * option T)) : X Z :=
  '(r, cfg) ← parser;
  if r =? EXIT_FAILURE then mret EXIT_FAILURE else
  r ← ptree2struct (default empty cfg);
  if r =? EXIT_FAILURE then mret EXIT_FAILURE else mret EXIT_SUCCESS.
Definition loadFile (empty : T) (cfg_file : string) : X Z := load empty (parserFile cfg_file).
Definition loadString (empty : T) (cfg_string : string) : X Z := load empty (parserString cfg_string).

(** ** What is stored *)

(** The paths of the members. *)
Definition path_of (f : int_field) : string :=
  match f with
  | nb_channel => "lazybsd.lazybsd_global_ptr()->dpdk.channel" | idle_sleep => "lazybsd.lazybsd_global_ptr()->dpdk.idle_sleep"
  | nb_bond => "lazybsd.lazybsd_global_ptr()->dpdk.nb_bond" | nb_vdev => "lazybsd.lazybsd_global_ptr()->dpdk.nb_vdev"
  | numa_on => "lazybsd.lazybsd_global_ptr()->dpdk.numa_on" | pkt_tx_delay => "lazybsd.lazybsd_global_ptr()->dpdk.pkt_tx_delay"
  | promiscuous => "lazybsd.lazybsd_global_ptr()->dpdk.promiscuous" | symmetric_rss => "lazybsd.lazybsd_global_ptr()->dpdk.symmetric_rss"
  | tso => "lazybsd.lazybsd_global_ptr()->dpdk.tso"
  | tx_csum_offoad_skip => "lazybsd.lazybsd_global_ptr()->dpdk.tx_csum_offoad_skip"
  | vlan_strip => "lazybsd.lazybsd_global_ptr()->dpdk.vlan_strip"
  | hz => "lazybsd.freebsd.hz" | fd_reserve => "lazybsd.freebsd.fd_reserve"
  | pcap_enable => "lazybsd.pcap.enable" | save_len => "lazybsd.pcap.savelen" | snap_len => "lazybsd.pcap.snaplen"
  end.
Definition str_path (f : str_field) : string :=
  match f with lcore_mask => "lazybsd.lazybsd_global_ptr()->dpdk.lcore_mask" | save_path => "lazybsd.pcap.savepath" end.
Definition port_path (f : port_field) : string :=
  match f with
  | addr => "lazybsd.port0.addr" | broadcast => "lazybsd.port0.broadcast" | gateway => "lazybsd.port0.gateway" | netmask => "lazybsd.port0.netmask"
  end.

(** The number and the text at a path. *)
Definition int_at (cfg : T) (path : string) : option Z := get_data cfg path ≫= stream_int.

Lemma then_int {B} cfg path z f (k : unit -> X B) g : int_at cfg path = Some z ->
  ((get_int cfg path ≫= set_int f) ≫= k) g = k () (put_int f z g).
Proof.
  unfold int_at, get_int, mbind, X_bind. cbn. destruct (get_data cfg path) as [d|]; [|done]. cbn. by intros ->.
Qed.
Lemma then_str {B} cfg path s f (k : unit -> X B) g : get_data cfg path = Some s ->
  ((get_string cfg path ≫= set_str f) ≫= k) g = k () (put_str f s g).
Proof. unfold get_string, mbind, X_bind. by intros ->. Qed.
Lemma then_portid {B} cfg path z p (k : unit -> X B) g : int_at cfg path = Some z -> portid_list g = Some p ->
  ((get_int cfg path ≫= set_portid) ≫= k) g = k () (Global (ints g) (strs g) (Some (u16 z)) (port_cfgs g)).
Proof.
  unfold int_at, get_int, mbind, X_bind. cbn. destruct (get_data cfg path) as [d|]; [|done]. cbn. intros -> E. cbn. unfold set_portid. by rewrite E.
Qed.
Lemma then_port {B} cfg path s f p (k : unit -> X B) g : get_data cfg path = Some s -> port_cfgs g = Some p ->
  ((get_string cfg path ≫= set_port f) ≫= k) g =
    k () (Global (ints g) (strs g) (portid_list g) (Some (fun x => if decide (x = f) then Dangling s else p x))).
Proof. unfold get_string, mbind, X_bind. intros -> E. cbn. unfold set_port. by rewrite E. Qed.

(** ** How far it gets *)

(** The members before the first that is written through a pointer. *)
Inductive member := Int (f : int_field) | Str (f : str_field).
Definition before_ports : list member :=
  [Int nb_channel; Int idle_sleep; Str lcore_mask; Int nb_bond; Int nb_vdev; Int numa_on; Int pkt_tx_delay].
Definition portid_path : string := "lazybsd.lazybsd_global_ptr()->dpdk.port_list".

(** The number at a path, or why there is none. *)
Definition number (cfg : T) (path : string) : exn + Z :=
  match get_data cfg path with
  | None => inl ptree_bad_path
  | Some d => match stream_int d with None => inl ptree_bad_data | Some z => inr z end
  end.

(** The members [l] of the document in turn, up to the first that it does not have. *)
Fixpoint store_members (l : list member) (cfg : T) (g : global) : option exn * global :=
  match l with
  | [] => (None, g)
  | Int f :: l => match number cfg (path_of f) with inl e => (Some e, g) | inr z => store_members l cfg (put_int f z g) end
  | Str f :: l =>
      match get_data cfg (str_path f) with None => (Some ptree_bad_path, g) | Some s => store_members l cfg (put_str f s g) end
  end.

(** What becomes of a document when there is no memory for the ports: the first member that it does not have is thrown,
    with those before it stored; and if it has all of them and a port, the process ends. *)
Definition first_missing {A} (cfg : T) (g : global) : outcome ((exn + A) * global) :=
  match store_members before_ports cfg g with
  | (Some e, g') => Ok (inl e, g')
  | (None, g') => match number cfg portid_path with inl e => Ok (inl e, g') | inr _ => Panic end
  end.

Lemma bind_int {B} cfg path f (k : unit -> X B) g : ((get_int cfg path ≫= set_int f) ≫= k) g =
  match number cfg path with inl e => Ok (inl e, g) | inr z => k () (put_int f z g) end.
Proof. unfold number, get_int, mbind, X_bind. destruct (get_data cfg path) as [d|]; [|done]. by destruct (stream_int d). Qed.
Lemma bind_str {B} cfg path f (k : unit -> X B) g : ((get_string cfg path ≫= set_str f) ≫= k) g =
  match get_data cfg path with None => Ok (inl ptree_bad_path, g) | Some s => k () (put_str f s g) end.
Proof. unfold get_string, mbind, X_bind. by destruct (get_data cfg path). Qed.
Lemma bind_portid {B} cfg path (k : unit -> X B) g : portid_list g = None -> ((get_int cfg path ≫= set_portid) ≫= k) g =
  match number cfg path with inl e => Ok (inl e, g) | inr z => Panic end.
Proof.
  intros Hg. unfold number, get_int, mbind, X_bind. destruct (get_data cfg path) as [d|]; [|done]. destruct (stream_int d); [|done].
  unfold mret, X_ret, set_portid. by rewrite Hg.
Qed.

(** The pointers stay as they are. *)
Lemma store_members_portid l cfg g : portid_list (store_members l cfg g).2 = portid_list g.
Proof.
  revert g. induction l as [|[f|f] l IH]; intros g; cbn; [done| |].
  - destruct (number cfg (path_of f)); [done|]. by rewrite IH.
  - destruct (get_data cfg (str_path f)); [|done]. by rewrite IH.
Qed.

Lemma ptree2struct_first_missing cfg g : portid_list g = None -> ptree2struct cfg g = first_missing cfg g.
Proof.
  intros Hg. unfold ptree2struct, first_missing, before_ports. cbn [store_members path_of str_path].
  rewrite bind_int. destruct (number cfg _) as [e|z1]; [done|]. rewrite bind_int. destruct (number cfg _) as [e|z2]; [done|].
  rewrite bind_str. destruct (get_data cfg _) as [s|]; [|done]. rewrite bind_int. destruct (number cfg _) as [e|z3]; [done|].
  rewrite bind_int. destruct (number cfg _) as [e|z4]; [done|]. rewrite bind_int. destruct (number cfg _) as [e|z5]; [done|].
  rewrite bind_int. destruct (number cfg _) as [e|z6]; [done|]. by rewrite bind_portid.
Qed.

(** With all paths, and with memory behind the pointers, every member gets its value; the texts are pointers to strings that
    no longer exist. *)
Lemma ptree2struct_stores cfg g vi vs p0 pc z :
  (forall f, int_at cfg (path_of f) = Some (vi f)) -> (forall f, get_data cfg (str_path f) = Some (vs f)) ->
  (forall f, exists s, get_data cfg (port_path f) = Some s) -> int_at cfg "lazybsd.lazybsd_global_ptr()->dpdk.port_list" = Some z ->
  portid_list g = Some p0 -> port_cfgs g = Some pc ->
  exists g', ptree2struct cfg g = Ok (inr EXIT_SUCCESS, g') /\ (forall f, ints g' f = conv f (vi f)) /\
    (forall f, strs g' f = Dangling (vs f)) /\ portid_list g' = Some (u16 z) /\
    (exists pc', port_cfgs g' = Some pc' /\ forall f, exists s, get_data cfg (port_path f) = Some s /\ pc' f = Dangling s).
Proof.
  intros Hi Hs Hp Hz Hl Hc. unfold ptree2struct.
  destruct (Hp addr) as [s1 E1], (Hp broadcast) as [s2 E2], (Hp gateway) as [s3 E3], (Hp netmask) as [s4 E4].
  pose proof (Hi nb_channel). pose proof (Hi idle_sleep). pose proof (Hs lcore_mask). pose proof (Hi nb_bond). pose proof (Hi nb_vdev).
  pose proof (Hi numa_on). pose proof (Hi pkt_tx_delay). pose proof (Hi promiscuous). pose proof (Hi symmetric_rss). pose proof (Hi tso).
  pose proof (Hi tx_csum_offoad_skip). pose proof (Hi vlan_strip). pose proof (Hi hz). pose proof (Hi fd_reserve). pose proof (Hi pcap_enable).
  pose proof (Hi save_len). pose proof (Hs save_path). pose proof (Hi snap_len). cbn [path_of str_path port_path] in *.
  repeat first
    [ erewrite then_int by eassumption | erewrite then_str by eassumption
    | erewrite then_portid by eassumption | erewrite then_port by (eassumption || reflexivity) ].
  eexists. split; [reflexivity|]. cbn [ints strs portid_list port_cfgs]. split_and!.
  - intros f. by destruct f.
  - intros f. by destruct f.
  - done.
  - eexists. split; [reflexivity|]. intros f. destruct f; eauto.
Qed.

(** A tree that was read goes to [ptree2struct], whose exceptions are passed on. *)
Lemma load_first_missing empty parser t g : parser g = Ok (inr (EXIT_SUCCESS, Some t), g) -> portid_list g = None ->
  load empty parser g = first_missing t g.
Proof.
  intros E Hg. pose proof (ptree2struct_first_missing t g Hg) as HP. unfold load, mbind, X_bind. rewrite E.
  cbv beta iota. change (EXIT_SUCCESS =? EXIT_FAILURE) with false. cbv iota. change (default empty (Some t)) with t. cbv beta. rewrite HP. unfold first_missing.
  destruct (store_members before_ports t g) as [[e|] g']; [done|]. by destruct (number t portid_path).
Qed.

(** C25. No configuration can be loaded.  While [portid_list] is NULL, as it is since the start, a text that is not XML gives
    [EXIT_FAILURE] and a file with another ending too, and a file that is not XML throws; what is read never gives
    [EXIT_SUCCESS]: the members are stored in the order of the code up to the first that the document does not have or
    whose data is no number, and that exception is thrown to the caller; if it has all up to [port_list], that number is written
    through NULL, which ends the process.  A function that returns or throws leaves [portid_list] NULL, for the
    calls after it. *)
Theorem config_never_loads empty g : portid_list g = None ->
  (forall s, loadString empty s g = match read_xml s with None => Ok (inr EXIT_FAILURE, g) | Some t => first_missing t g end) /\
  (forall f, loadFile empty f g =
     if decide (fileNameTag f = "xml"%string)
     then match read_xml_file f with None => Ok (inl xml_parser_error, g) | Some t => first_missing t g end
     else Ok (inr EXIT_FAILURE, g)) /\
  (forall r, (exists s, loadString empty s g = r) \/ (exists f, loadFile empty f g = r) ->
     match r with Ok (inr z, g') => z = EXIT_FAILURE /\ g' = g | Ok (inl _, g') => portid_list g' = None | Panic => True | Diverge => False end).
Proof.
  intros Hg.
  assert (forall s, loadString empty s g = match read_xml s with None => Ok (inr EXIT_FAILURE, g) | Some t => first_missing t g end) as HS.
  { intros s. unfold loadString. destruct (read_xml s) as [t|] eqn:E; [apply load_first_missing; [|done]|]; unfold load, parserString, try_catch; by rewrite E. }
  assert (forall f, loadFile empty f g = if decide (fileNameTag f = "xml"%string)
     then match read_xml_file f with None => Ok (inl xml_parser_error, g) | Some t => first_missing t g end
     else Ok (inr EXIT_FAILURE, g)) as HF.
  { intros f. unfold loadFile. case_decide as Hf; [|by unfold load, parserFile; rewrite decide_False].
    destruct (read_xml_file f) as [t|] eqn:E; [apply load_first_missing; [|done]|]; unfold load, parserFile; by rewrite decide_True, E. }
  split; [done|]. split; [done|].
  assert (forall t, match first_missing (A := Z) t g with Ok (inr z, g') => z = EXIT_FAILURE /\ g' = g | Ok (inl _, g') => portid_list g' = None
    | Panic => True | Diverge => False end) as Hfm.
  { intros t. unfold first_missing. pose proof (store_members_portid before_ports t g) as Hp.
    destruct (store_members before_ports t g) as [[e|] g']; cbn in Hp; [congruence|]. destruct (number t portid_path); [congruence|done]. }
  intros r [[s <-]|[f <-]]; [rewrite HS; destruct (read_xml s)|rewrite HF; case_decide; [|done]; destruct (read_xml_file f)]; done || apply Hfm.
Qed.
End Config.

(** ** The command line *)

(** [lazybsd_value] *)
Record lazybsd_value := Value { debug : bool; config_file : string; script_file : string; proc_id : Z; proc_type : string }.

(** Boost: the options of a command line, or an exception; an option is there or not, and has a value. *)
Class ProgramOptions (V : Type) := {
  parse_command_line : list string -> option V;
  count : V -> string -> bool;
  as_string : V -> string -> string;
  as_int32 : V -> string -> Z }.

Section Cmdline.
Context {V : Type} `{ProgramOptions V}.

(** The texts that are printed are left out. *)
Definition parse (argv : list string) : option lazybsd_value :=
  let value := Value false "" "" 0 "" in
  match parse_command_line argv with
  | None => None
  | Some m =>
      if (length argv =? 1)%nat then None else
      let value := if count m "config" then Value (debug value) (as_string m "config") (script_file value) (proc_id value) (proc_type value) else value in
      let value := if count m "script" then Value (debug value) (as_string m "script") (script_file value) (proc_id value) (proc_type value) else value in
      let value := if count m "proc_id" then Value (debug value) (config_file value) (script_file value) (as_int32 m "proc_id") (proc_type value) else value in
      let value := if count m "proc_type" then Value (debug value) (config_file value) (script_file value) (proc_id value) (as_string m "proc_type") else value in
      if count m "help" then None else
      if count m "version" then None else
      let value := if count m "debug" then Value true (config_file value) (script_file value) (proc_id value) (proc_type value) else value in
      Some value
  end.

(** What a program is told of its command line: the file of the script is given as that of the configuration. *)
Lemma parse_spec argv : match parse argv with
  | None => parse_command_line argv = None \/ length argv = 1%nat \/
      exists m, parse_command_line argv = Some m /\ (count m "help" = true \/ count m "version" = true)
  | Some v => exists m, parse_command_line argv = Some m /\ length argv <> 1%nat /\ count m "help" = false /\ count m "version" = false /\
      debug v = count m "debug" /\ script_file v = ""%string /\
      config_file v = (if count m "script" then as_string m "script" else if count m "config" then as_string m "config" else "") /\
      proc_id v = (if count m "proc_id" then as_int32 m "proc_id" else 0) /\
      proc_type v = (if count m "proc_type" then as_string m "proc_type" else "")
  end.
Proof.
  unfold parse. destruct (parse_command_line argv) as [m|]; [|by left]. destruct (Nat.eqb_spec (length argv) 1); [by right; left|].
  destruct (count m "help") eqn:E1; [right; right; eauto|]. destruct (count m "version") eqn:E2; [right; right; eauto|].
  exists m. destruct (count m "config"), (count m "script"), (count m "proc_id"), (count m "proc_type"), (count m "debug"); done.
Qed.
End Cmdline.

(** [lazybsd::init]: the parts have nothing to set up, and the kernel is not started. *)
Definition part_init : Z := EXIT_SUCCESS.
Definition init : Z := let _ := (part_init, part_init, part_init, part_init, part_init, part_init) in EXIT_SUCCESS.

(** ** Example: the file [config.xml] of the repository, cut to a few members *)
Module ExampleXml.
Inductive xml := Node (name data : string) (children : list xml).

(** The child of a name. *)
Definition child (n : string) (l : list xml) : option xml := find (fun t => match t with Node m _ _ => String.eqb n m end) l.
Fixpoint at_path (p : list string) (t : xml) : option string :=
  match p, t with
  | [], Node _ d _ => Some d
  | n :: p, Node _ _ l => match child n l with Some t => at_path p t | None => None end
  end.
(** The names of a path are separated by points. *)
Fixpoint split (s : string) : list string :=
  match s with
  | EmptyString => [EmptyString]
  | String c s =>
      if decide (String c EmptyString = "."%string) then EmptyString :: split s
      else match split s with n :: l => String c n :: l | [] => [String c EmptyString] end
  end.

Definition leaf (n d : string) : xml := Node n d [].
Definition config_xml : xml := Node "" "" [Node "lazybsd" "" [
  Node "dpdk" "" [leaf "channel" "4"; leaf "idle_sleep" "0"; leaf "lcore_mask" "1"; leaf "port_list" "0"];
  Node "freebsd" "" [leaf "fd_reserve" "1024"; leaf "hz" "100"];
  Node "port0" "" [leaf "addr" "192.168.1.2"]]].

(** A tree with the paths of the code. *)
Definition all_xml : xml := Node "" "" [Node "lazybsd" "" [Node "lazybsd_global_ptr()->dpdk" "" [
  leaf "channel" "4"; leaf "idle_sleep" "0"; leaf "lcore_mask" "1"; leaf "nb_bond" "0"; leaf "nb_vdev" "0"; leaf "numa_on" "1";
  leaf "pkt_tx_delay" "100"; leaf "port_list" "0"]]].

Definition digit (c : Ascii.ascii) : Z := Z.of_N (Ascii.N_of_ascii c) - 48.
#[export] Instance tree : PropertyTree xml := {|
  get_data t p := at_path (split p) t;
  stream_int s := Some (foldl (fun a c => a * 10 + digit c) 0 (String.list_ascii_of_string s));
  read_xml s := if decide (s = "<all>"%string) then Some all_xml else None;
  read_xml_file f := if decide (f = "config.xml"%string) then Some config_xml else None |}.

End ExampleXml.
#[local] Existing Instances ExampleXml.tree.

(** The document of the repository has the members under other paths: the first one is missing. *)
Lemma config_never_loads_witness :
  get_data ExampleXml.config_xml "lazybsd.dpdk.channel" = Some "4"%string /\
  loadFile ExampleXml.config_xml "config.xml" lazybsd_global_default = Ok (inl ptree_bad_path, lazybsd_global_default) /\
  loadFile ExampleXml.config_xml "config.json" lazybsd_global_default = Ok (inr EXIT_FAILURE, lazybsd_global_default) /\
  loadString ExampleXml.config_xml "<all>" lazybsd_global_default = Panic.
Proof.
  destruct (config_never_loads ExampleXml.config_xml lazybsd_global_default eq_refl) as (Hs & Hf & _).
  split; [by vm_compute|]. split; [by rewrite Hf|]. split; [by rewrite Hf|by rewrite Hs].
Defined.
