(* ===== verification/Hooks.v ===== *)
(** * Hooks: what a program and the start of the kernel set

    A program gives functions to the driver: one that picks the local address of a connection, asked in [lazybsd_in_pcbladdr], and
    one that dispatches packets (Dispatch.v), and hands its loop to [lazybsd_dpdk_run]
    ([src/lazybsd_dpdk.cc]).  The pools of packets without data are made once per socket
    ([lazybsd_init_ref_pool], [src/lazybsd_memory.cc]); the kernel of the host may set a port up or down ([kni_config_network_interface]).  Variables of the kernel are set from its
    environment as it starts ([tunable_int_init] and the others, [bsd/lib/lazybsd_kern_environment.c]). *)
From S2P Require Import Prelude Errno Env.

(** ** Functions of the program *)
Section Hooks.
(** What a function of the program does is a step on its own state. *)
Context {W : Type} (dispatcher : Type).

Record hooks := Hooks { pcblddr_fun : option (Z -> Z -> Z -> Z -> W -> Z * W); packet_dispatcher : option dispatcher }.

Definition lazybsd_regist_pcblddr_fun (func : option (Z -> Z -> Z -> Z -> W -> Z * W)) (h : hooks) : hooks := Hooks func (packet_dispatcher h).
Definition lazybsd_regist_packet_dispatcher (func : option dispatcher) (h : hooks) : hooks := Hooks (pcblddr_fun h) func.

Definition AF_INET : Z := 2.
Definition AF_INET6_LINUX : Z := 10.
Definition AF_INET6_FREEBSD : Z := 28.

Definition lazybsd_in_pcbladdr (h : hooks) (family faddr fport laddr : Z) (w : W) : Z * W :=
  match pcblddr_fun h with
  | None => (0, w)
  | Some func =>
      if family =? AF_INET then func AF_INET faddr fport laddr w
      else if family =? AF_INET6_FREEBSD then func AF_INET6_LINUX faddr fport laddr w
      else (Host.EADDRNOTAVAIL, w)
  end.

(** The program is asked with the family of the host, the last function registered, and never for another family. *)
Lemma in_pcbladdr_asks h func family faddr fport laddr w :
  lazybsd_in_pcbladdr (lazybsd_regist_pcblddr_fun (Some func) h) family faddr fport laddr w =
    match (if decide (family = 2) then Some 2 else if decide (family = 28) then Some 10 else None) with
    | Some fa => func fa faddr fport laddr w
    | None => (99, w)
    end.
Proof.
  unfold lazybsd_in_pcbladdr, AF_INET, AF_INET6_FREEBSD. cbn [pcblddr_fun lazybsd_regist_pcblddr_fun].
  destruct (Z.eqb_spec family 2), (Z.eqb_spec family 28); repeat case_decide; done || lia.
Qed.
End Hooks.

(** ** The loop of the program *)

(** The record that [main_loop] gets is on the heap while the loops of the cores run; no memory for it is not noticed. *)
Inductive launch := rte_malloc | rte_eal_mp_remote_launch (lr : Z) | rte_eal_mp_wait_lcore | rte_free (p : Z).
Definition lazybsd_dpdk_run (malloc : Z) : outcome (list launch) :=
  if malloc =? 0 then Panic
  else Ok [rte_malloc; rte_eal_mp_remote_launch malloc; rte_eal_mp_wait_lcore; rte_free malloc].

(** ** Call-backs of the kernel of the host

    A driver built with [LAZYBSD_KNI_KNI] lets that kernel change its interface. *)
Class KniPorts (W : Type) := {
  rte_eth_dev_is_valid_port : Z -> bool;
  rte_eth_dev_set_link_up : Z -> W -> Z * W;
  rte_eth_dev_set_link_down : Z -> W -> Z * W;
  rte_eth_dev_stop : Z -> W -> W;
  rte_eth_dev_start : Z -> W -> Z * W;
  rte_eth_dev_default_mac_addr_set : Z -> Z -> W -> Z * W }.

Section Callbacks.
Context {W : Type} `{KniPorts W}.

Definition kni_change_mtu (port_id new_mtu : Z) : Z := 0.

Definition kni_config_network_interface (port_id if_up : Z) (w : W) : Z * W :=
  if negb (rte_eth_dev_is_valid_port port_id) then (- Host.EINVAL, w) else
  let '(ret, w) := if negb (if_up =? 0) then rte_eth_dev_set_link_up port_id w else rte_eth_dev_set_link_down port_id w in
  if - Host.ENOTSUP =? ret then
    if negb (if_up =? 0) then rte_eth_dev_start port_id (rte_eth_dev_stop port_id w)
    else (0, rte_eth_dev_stop port_id w)
  else (ret, w).

Definition kni_config_mac_address (port_id mac_addr : Z) (w : W) : Z * W :=
  if negb (rte_eth_dev_is_valid_port port_id) then (- Host.EINVAL, w)
  else rte_eth_dev_default_mac_addr_set port_id mac_addr w.

(** A driver without a switch for its link is started anew, or stopped. *)
Lemma kni_config_restarts port_id if_up w w' : rte_eth_dev_is_valid_port port_id = true ->
  (rte_eth_dev_set_link_up port_id w = (- Host.ENOTSUP, w') /\ if_up <> 0 ->
   kni_config_network_interface port_id if_up w = rte_eth_dev_start port_id (rte_eth_dev_stop port_id w')) /\
  (rte_eth_dev_set_link_down port_id w = (- Host.ENOTSUP, w') /\ if_up = 0 ->
   kni_config_network_interface port_id if_up w = (0, rte_eth_dev_stop port_id w')).
Proof.
  intros Hv. unfold kni_config_network_interface. rewrite Hv. cbn [negb]. split.
  - intros [-> Hn]. rewrite (proj2 (Z.eqb_neq if_up 0) Hn). cbn [negb]. by rewrite Z.eqb_refl.
  - intros [-> ->]. cbn [Z.eqb negb]. by rewrite Z.eqb_refl.
Qed.
End Callbacks.

(** ** Pools *)
Section Pools.
(** A pool is made, or found by its name; NULL is [None]. *)
Context {P : Type} (rte_pktmbuf_pool_create : Z -> Z -> option P) (rte_mempool_lookup : Z -> option P).

(** The pools of the sockets; another socket is out of the array. *)
Definition lazybsd_init_ref_pool (primary : bool) (nb_mbuf socketid : Z) (pools : list (option P)) : outcome (list (option P)) :=
  if socketid <? 0 then Panic else
  match pools !! Z.to_nat socketid with
  | None => Panic
  | Some (Some _) => Ok pools
  | Some None => Ok (<[Z.to_nat socketid := if primary then rte_pktmbuf_pool_create socketid nb_mbuf else rte_mempool_lookup socketid]> pools)
  end.

(** A pool that is there stays, and a second call changes nothing once the first had memory. *)
Lemma init_ref_pool_once primary nb nb' socketid pools pools' p :
  lazybsd_init_ref_pool primary nb socketid pools = Ok pools' -> pools' !! Z.to_nat socketid = Some (Some p) ->
  lazybsd_init_ref_pool primary nb' socketid pools' = Ok pools' /\
  forall i q, pools !! i = Some (Some q) -> pools' !! i = Some (Some q).
Proof.
  unfold lazybsd_init_ref_pool. destruct (socketid <? 0); [done|]. destruct (pools !! Z.to_nat socketid) as [[q|]|] eqn:E; [| |done].
  - intros [= <-] Hp. by rewrite Hp.
  - intros [= <-] Hp. rewrite Hp. split; [done|]. intros i q Hi. rewrite list_lookup_insert_ne; [done|]. intros <-. by rewrite E in Hi.
Qed.
End Pools.

(** ** Variables from the environment *)
Section Tunables.
Context (strtoq : cstr -> Z * cstr) (strlcpy : cstr -> cstr -> Z -> cstr).

(** The variable [var] of the name [path]. *)
Definition tunable_int_init (env : hostenv) (path : cstr) (var : Z) : Z := (getenv_int strtoq env path var).2.
Definition tunable_long_init (env : hostenv) (path : cstr) (var : Z) : Z := (getenv_long strtoq env path var).2.
Definition tunable_ulong_init (env : hostenv) (path : cstr) (var : Z) : Z := (getenv_ulong strtoq env path var).2.
Definition tunable_quad_init (env : hostenv) (path : cstr) (var : Z) : Z := (getenv_quad strtoq env path var).2.
Definition tunable_str_init (env : hostenv) (path var : cstr) (size : Z) : cstr := (getenv_string strlcpy env path var size).2.

(** A variable that the environment does not name, or not with a number, keeps its value; another gets the number, cut to its
    type. *)
Lemma tunable_sets env path value var : strtoq_spec strtoq -> env !! path = Some value -> no_nul value ->
  (forall iv end_, strtoq value = (iv, end_) -> in_i64 iv) ->
  tunable_int_init env path var = match quad_value strtoq value with Some z => i32 z | None => var end /\
  tunable_quad_init env path var = match quad_value strtoq value with Some z => i64 z | None => var end.
Proof.
  intros Hok Hv Hn Hiv. unfold tunable_int_init, tunable_quad_init, getenv_int, getenv_cast.
  rewrite !(getenv_quad_spec strtoq Hok env path value) by done. destruct (quad_value strtoq value) as [z|]; [|done]. cbn.
  split; [apply (cast_i64 z)|done].
Qed.
Lemma tunable_absent env path var : env !! path = None ->
  tunable_int_init env path var = var /\ tunable_long_init env path var = var /\ tunable_ulong_init env path var = var /\
  tunable_quad_init env path var = var.
Proof.
  intros E. unfold tunable_int_init, tunable_long_init, tunable_ulong_init, tunable_quad_init, getenv_int, getenv_long, getenv_ulong, getenv_cast, getenv_quad, kern_getenv.
  by rewrite E.
Qed.
End Tunables.
