(* ===== verification/SysInit.v ===== *)
(** * SysInit: the start of the system, [bsd/lib/lazybsd_main.c]

    [sysinit_add] and [mi_startup]: the initialisation tasks are sorted by subsystem
    and order, run one after the other, and checked off; a task may register more
    tasks, which restarts the scan. *)
From Stdlib Require Import Sorted.
From S2P Require Import Prelude.

(** A [struct sysinit *]. *)
Abbreviation ptr := positive.

(** [struct sysinit]; what its function does is a parameter below. *)
Record sysinit_item : Type := { subsystem : Z; order : Z }.

(** The globals [sysinit] and [newsysinit] (NULL or an array), the items in memory,
    and the tasks run so far, first to last. *)
Record state : Type := {
  sysinit : option (list ptr);
  newsysinit : option (list ptr);
  items : gmap ptr sysinit_item;
  ran : list ptr
}.

Definition item_at (m : gmap ptr sysinit_item) (p : ptr) : sysinit_item :=
  default {| subsystem := 0; order := 0 |} (m !! p).

Section SysInit.
  (** [SI_SUB_DUMMY] and [SI_SUB_DONE] of [sys/kernel.h]; the elements of the linker
      set [sysinit_set]; whether a [malloc] with [M_NOWAIT] finds memory; the sets a
      task hands to [sysinit_add] when it runs. *)
  Context (SI_SUB_DUMMY SI_SUB_DONE : Z) (sysinit_set : list ptr).
  Context (malloc_ok : Z -> bool) (adds : ptr -> list (list ptr)).

Definition sysinit_add (set : list ptr) (st : state) : outcome state :=
  let old := match newsysinit st with
             | Some l => l
             | None => default [] (sysinit st)
             end in
  let newset := old ++ set in
  if negb (malloc_ok (Z.of_nat (length newset) * 8)) then Panic else
  Ok {| sysinit := sysinit st; newsysinit := Some newset; items := items st; ran := ran st |}.

(** The test of the sort: the objects are in order. *)
Definition in_order (m : gmap ptr sysinit_item) (a b : ptr) : bool :=
  (subsystem (item_at m a) <? subsystem (item_at m b)) ||
  ((subsystem (item_at m a) =? subsystem (item_at m b)) &&
   (order (item_at m a) <=? order (item_at m b))).

(** The inner loop: [x] is at the position of [sipp], [l] is what follows. *)
Fixpoint sort_pass (m : gmap ptr sysinit_item) (x : ptr) (l : list ptr) : ptr * list ptr :=
  match l with
  | [] => (x, [])
  | y :: l => if in_order m x y
              then let '(h, l) := sort_pass m x l in (h, y :: l)
              else let '(h, l) := sort_pass m y l in (h, x :: l)
  end.

Fixpoint bubble_sort (n : nat) (m : gmap ptr sysinit_item) (l : list ptr) : list ptr :=
  match n, l with
  | S n, x :: l => let '(h, l) := sort_pass m x l in h :: bubble_sort n m l
  | _, _ => l
  end.

Fixpoint add_all (sets : list (list ptr)) (st : state) : outcome state :=
  match sets with
  | [] => Ok st
  | set :: sets => st ← sysinit_add set st; add_all sets st
  end.

(** Call the function of a task and check it off. *)
Definition run_task (p : ptr) (st : state) : outcome state :=
  st ← add_all (adds p)
    {| sysinit := sysinit st; newsysinit := newsysinit st; items := items st;
       ran := ran st ++ [p] |};
  Ok {| sysinit := sysinit st; newsysinit := newsysinit st;
        items := <[p := {| subsystem := SI_SUB_DONE; order := order (item_at (items st) p) |}]>
                   (items st);
        ran := ran st |}.

(** The traversal; [true] is [goto restart]. *)
Fixpoint traverse (l : list ptr) (st : state) : outcome (bool * state) :=
  match l with
  | [] => Ok (false, st)
  | p :: l =>
      let sub := subsystem (item_at (items st) p) in
      if (sub =? SI_SUB_DUMMY) || (sub =? SI_SUB_DONE) then traverse l st else
      st ← run_task p st;
      match newsysinit st with
      | Some s => Ok (true, {| sysinit := Some s; newsysinit := None; items := items st;
                               ran := ran st |})
      | None => traverse l st
      end
  end.

(** From the label [restart]. *)
Fixpoint startup_loop (fuel : nat) (st : state) : outcome state :=
  match fuel with
  | O => Diverge
  | S fuel =>
      let l := default [] (sysinit st) in
      let l := bubble_sort (length l) (items st) l in
      r ← traverse l {| sysinit := Some l; newsysinit := newsysinit st; items := items st;
                        ran := ran st |};
      let '(restart, st) := r in
      if restart : bool then startup_loop fuel st else Ok st
  end.

Definition mi_startup (fuel : nat) (st : state) : outcome state :=
  startup_loop fuel
    {| sysinit := Some (default sysinit_set (sysinit st)); newsysinit := newsysinit st;
       items := items st; ran := ran st |}.

(** ** The sort *)

Lemma in_order_trans m a b c : in_order m a b = true -> in_order m b c = true ->
  in_order m a c = true.
Proof. unfold in_order. lia. Qed.

Lemma in_order_total m a b : in_order m a b = false -> in_order m b a = true.
Proof. unfold in_order. lia. Qed.

Lemma in_order_refl m a : in_order m a a = true.
Proof. unfold in_order. lia. Qed.

Lemma sort_pass_spec m l : forall x h l', sort_pass m x l = (h, l') ->
  h :: l' ≡ₚ x :: l /\ in_order m h x = true /\ Forall (fun y => in_order m h y = true) l'.
Proof.
  induction l as [|y l IH]; intros x h l' H; simpl in H.
  - injection H as <- <-. split_and!; [done|apply in_order_refl|constructor].
  - destruct (in_order m x y) eqn:Hxy.
    + destruct (sort_pass m x l) as [h0 l0] eqn:Hs. injection H as <- <-.
      destruct (IH x h0 l0 Hs) as (Hp & Hx & Hl). split_and!; [|done|].
      * by rewrite Permutation_swap, Hp, Permutation_swap.
      * constructor; [by eapply in_order_trans|done].
    + destruct (sort_pass m y l) as [h0 l0] eqn:Hs. injection H as <- <-.
      destruct (IH y h0 l0 Hs) as (Hp & Hy & Hl). apply in_order_total in Hxy.
      split_and!.
      * by rewrite Permutation_swap, Hp.
      * by eapply in_order_trans.
      * constructor; [by eapply in_order_trans|done].
Qed.

Lemma bubble_sort_spec m n : forall l, (length l <= n)%nat ->
  bubble_sort n m l ≡ₚ l /\ StronglySorted (fun a b => in_order m a b = true) (bubble_sort n m l).
Proof.
  induction n as [|n IH]; intros [|x l] Hl; simpl in *; try (split; [done|apply SSorted_nil]); [lia|].
  destruct (sort_pass m x l) as [h l'] eqn:Hs.
  destruct (sort_pass_spec m l x h l' Hs) as (Hp & Hx & Hall).
  pose proof (Permutation_length Hp) as Hlen. simpl in Hlen.
  destruct (IH l') as [Hp' Hsort]; [lia|]. split; [by rewrite Hp'|].
  constructor; [done|]. by rewrite Hp'.
Qed.

(** ** The whole start *)

Section Startup.
  (** The items as the program is loaded; memory is never short. *)
  Context (mem0 : gmap ptr sysinit_item) (malloc_always : forall n, malloc_ok n = true).

(** The tasks that are to be run. *)
Definition real (p : ptr) : Prop :=
  subsystem (item_at mem0 p) <> SI_SUB_DUMMY /\ subsystem (item_at mem0 p) <> SI_SUB_DONE.

(** The tasks registered once those of [log] have run. *)
Definition registered (log : list ptr) : list ptr :=
  sysinit_set ++ concat (concat (adds <$> log)).

(** Every task run came before (or with) every task that was registered when it was
    run and had not run yet. *)
Definition ordered (log : list ptr) : Prop :=
  forall pre p post q, log = pre ++ p :: post -> q ∈ registered pre -> real q ->
    q ∉ pre ++ [p] -> in_order mem0 p q = true.

(** The state between two tasks. *)
Record inv (st : state) : Prop := {
  iv_new : newsysinit st = None;
  iv_sysinit : exists l, sysinit st = Some l /\ l ≡ₚ registered (ran st);
  iv_items : forall p, item_at (items st) p =
    if decide (p ∈ ran st) then {| subsystem := SI_SUB_DONE; order := order (item_at mem0 p) |}
    else item_at mem0 p;
  iv_nodup : NoDup (ran st);
  iv_real : forall p, p ∈ ran st -> real p;
  iv_known : forall pre p post, ran st = pre ++ p :: post -> p ∈ registered pre;
  iv_ordered : ordered (ran st)
}.

Lemma registered_app log p : registered (log ++ [p]) = registered log ++ concat (adds p).
Proof.
  unfold registered. rewrite fmap_app, concat_app. cbn. rewrite app_nil_r, concat_app.
  by rewrite app_assoc.
Qed.

(** A prefix of a list to which an element has been added. *)
Lemma snoc_split (l : list ptr) x pre y post : l ++ [x] = pre ++ y :: post ->
  (pre = l /\ y = x /\ post = []) \/ exists post', l = pre ++ y :: post'.
Proof.
  intros Heq. destruct post as [|z post _] using rev_ind.
  - apply app_inj_tail in Heq as [-> ->]. by left.
  - rewrite app_comm_cons, app_assoc in Heq. apply app_inj_tail in Heq as [-> _]. right. by exists post.
Qed.

(** The tasks run are tasks of a set closed under registration. *)
Lemma known_in (U log : list ptr) : (forall p, p ∈ sysinit_set -> p ∈ U) ->
  (forall p q, p ∈ U -> q ∈ concat (adds p) -> q ∈ U) ->
  (forall pre p post, log = pre ++ p :: post -> p ∈ registered pre) ->
  (forall p, p ∈ log -> p ∈ U) /\ (forall p, p ∈ log -> p ∈ registered log).
Proof.
  intros Hinit Hclosed. induction log as [|x log IH] using rev_ind; intros Hk.
  { split; intros p Hp; by apply not_elem_of_nil in Hp. }
  assert (forall pre p post, log = pre ++ p :: post -> p ∈ registered pre) as Hk'.
  { intros pre p post ->. apply (Hk pre p (post ++ [x])). by rewrite <- app_assoc. }
  destruct (IH Hk') as [HU Hr].
  assert (x ∈ registered log) as Hx by (by apply (Hk log x [])).
  split; intros p [Hp| ->%list_elem_of_singleton]%elem_of_app.
  - by apply HU.
  - unfold registered in Hx. apply elem_of_app in Hx as [Hx|Hx]; [by apply Hinit|].
    assert (forall l, (forall p, p ∈ l -> p ∈ U) -> x ∈ concat (concat (adds <$> l)) -> x ∈ U) as H.
    { induction l as [|y l IHl]; cbn; intros Hl Hin; [by apply not_elem_of_nil in Hin|].
      rewrite concat_app in Hin. apply elem_of_app in Hin as [Hin|Hin].
      - apply (Hclosed y); [apply Hl; set_solver|done].
      - apply IHl; [set_solver|done]. }
    by apply (H log).
  - rewrite registered_app. apply elem_of_app. left. by apply Hr.
  - rewrite registered_app. apply elem_of_app. by left.
Qed.

Lemma add_all_ok sets : forall st,
  add_all sets st = Ok {| sysinit := sysinit st;
    newsysinit := match sets with
                  | [] => newsysinit st
                  | _ => Some (match newsysinit st with Some l => l | None => default [] (sysinit st) end
                               ++ concat sets)
                  end; items := items st; ran := ran st |}.
Proof.
  induction sets as [|set sets IH]; intros st; cbn [add_all]; [by destruct st|].
  unfold sysinit_add at 1. rewrite malloc_always. cbn [negb mbind outcome_bind].
  rewrite IH. cbn. destruct sets; cbn; by rewrite ?app_nil_r, ?app_assoc.
Qed.

(** One task. *)
Lemma run_task_ok p st l : inv st -> sysinit st = Some l -> real p -> p ∉ ran st ->
  p ∈ registered (ran st) ->
  (forall q, q ∈ registered (ran st) -> real q -> q ∉ ran st ++ [p] -> in_order mem0 p q = true) ->
  exists st', run_task p st = Ok st' /\ ran st' = ran st ++ [p] /\
    (newsysinit st' = None -> sysinit st' = Some l /\ inv st') /\
    (forall s, newsysinit st' = Some s ->
      inv {| sysinit := Some s; newsysinit := None; items := items st'; ran := ran st' |}).
Proof.
  intros I Hl Hp Hnr Hreg Hmin. destruct I as [In Is Ii Ind Ir Ik Io].
  destruct Is as (l0 & Hl0 & Hperm). rewrite Hl in Hl0. injection Hl0 as <-.
  unfold run_task. rewrite add_all_ok. cbn [mbind outcome_bind]. rewrite In, Hl. cbn [default].
  set (m' := <[p := {| subsystem := SI_SUB_DONE; order := order (item_at (items st) p) |}]>
    (items st)).
  assert (forall q, item_at m' q =
    if decide (q ∈ ran st ++ [p]) then {| subsystem := SI_SUB_DONE; order := order (item_at mem0 q) |}
    else item_at mem0 q) as Hm.
  { intros q. unfold item_at at 1. subst m'. rewrite lookup_insert. cbn.
    destruct (decide (p = q)) as [<-|Hne].
    - rewrite decide_True by set_solver. cbn. rewrite Ii, decide_False by done. done.
    - fold (item_at (items st) q). rewrite Ii.
      destruct (decide (q ∈ ran st)); [rewrite decide_True by set_solver; done|].
      rewrite decide_False by set_solver. done. }
  assert (forall s, s ≡ₚ registered (ran st ++ [p]) ->
    inv {| sysinit := Some s; newsysinit := None; items := m'; ran := ran st ++ [p] |}) as Hinv.
  { intros s Hs. constructor; cbn; try done.
    - by exists s.
    - apply NoDup_app. split_and!; [done|set_solver|apply NoDup_singleton].
    - intros q [Hq| ->%list_elem_of_singleton]%elem_of_app; [by apply Ir|done].
    - intros pre x post Heq. apply snoc_split in Heq as [(-> & -> & _)|(post' & Heq)]; [done|].
      by apply (Ik pre x post').
    - intros pre x post q Heq Hq Hrq Hnq.
      apply snoc_split in Heq as [(-> & -> & _)|(post' & Heq)]; [by apply Hmin|].
      by apply (Io pre x post' q). }
  eexists. split; [done|]. split; [done|]. split.
  - cbn. destruct (adds p) eqn:Ha; [|done]. intros _. split; [done|].
    apply Hinv. by rewrite registered_app, Ha, app_nil_r.
  - cbn. intros s Hs. apply Hinv. destruct (adds p) as [|a sets] eqn:Ha; [done|].
    injection Hs as <-. by rewrite registered_app, Ha, Hperm.
Qed.

(** A traversal from a point before which everything has run. *)
Lemma traverse_ok l : forall st before, inv st -> sysinit st = Some (before ++ l) ->
  (forall q, q ∈ before -> real q -> q ∈ ran st) ->
  StronglySorted (fun a b => a ∉ ran st -> b ∉ ran st -> in_order mem0 a b = true) l ->
  exists b st', traverse l st = Ok (b, st') /\ inv st' /\
    (b = false -> forall q, q ∈ registered (ran st') -> real q -> q ∈ ran st') /\
    (b = true -> (length (ran st) < length (ran st'))%nat).
Proof.
  induction l as [|p l IH]; intros st before I Hl Hbefore Hsort; cbn [traverse].
  - exists false, st. split_and!; try done. intros _ q Hq Hr.
    destruct (iv_sysinit st I) as (l0 & Hl0 & Hperm). rewrite Hl, app_nil_r in Hl0.
    injection Hl0 as <-. apply Hbefore; [by rewrite Hperm|done].
  - destruct (iv_sysinit st I) as (l0 & Hl0 & Hperm). rewrite Hl in Hl0. injection Hl0 as <-.
    rewrite (iv_items st I p). apply StronglySorted_inv in Hsort as [Hsort Hhd].
    destruct (decide (p ∈ ran st)) as [Hdone|Hnd]; cbn [subsystem].
    { rewrite Z.eqb_refl, orb_true_r. apply (IH st (before ++ [p])); try done.
      - by rewrite <- app_assoc.
      - intros q [Hq| ->%list_elem_of_singleton]%elem_of_app Hr; auto. }
    destruct ((subsystem (item_at mem0 p) =? SI_SUB_DUMMY) ||
              (subsystem (item_at mem0 p) =? SI_SUB_DONE)) eqn:Hskip.
    { apply (IH st (before ++ [p])); try done.
      - by rewrite <- app_assoc.
      - intros q [Hq| ->%list_elem_of_singleton]%elem_of_app Hr; [auto|]. unfold real in Hr. lia. }
    assert (real p) as Hreal by (unfold real; lia).
    assert (p ∈ registered (ran st)) as Hreg by (rewrite <- Hperm; set_solver).
    destruct (run_task_ok p st _ I Hl Hreal Hnd Hreg) as (st1 & -> & Hran & Hnone & Hsome).
    { intros q Hq Hrq Hnq. rewrite <- Hperm in Hq. rewrite Forall_forall in Hhd.
      apply elem_of_app in Hq as [Hq|Hq]; [set_solver|].
      apply elem_of_cons in Hq as [->|Hq]; [set_solver|].
      apply Hhd; [done|done|set_solver]. }
    cbn [mbind outcome_bind]. destruct (newsysinit st1) as [s|] eqn:Hnew.
    + eexists true, _. split; [done|]. split; [by apply Hsome|]. split; [done|]. intros _.
      cbn. rewrite Hran, length_app. simpl. lia.
    + destruct (Hnone eq_refl) as [Hl1 I1].
      destruct (IH st1 (before ++ [p])) as (b & st' & Hrun & I' & Hf & Ht); try done.
      * by rewrite <- app_assoc.
      * rewrite Hran. intros q [Hq| ->%list_elem_of_singleton]%elem_of_app Hr; [|set_solver].
        apply elem_of_app. left. by apply Hbefore.
      * rewrite Hran. clear -Hsort. induction Hsort as [|a l _ IHs Ha]; constructor; [done|].
        eapply Forall_impl; [exact Ha|]. intros b Hab H1 H2. apply Hab; set_solver.
      * exists b, st'. split_and!; try done. intros Hb. specialize (Ht Hb).
        rewrite Hran, length_app in Ht. lia.
Qed.

(** The restarts end: each runs a task of the finite set [U]. *)
Lemma startup_loop_ok (U : list ptr) n : (forall p, p ∈ sysinit_set -> p ∈ U) ->
  (forall p q, p ∈ U -> q ∈ concat (adds p) -> q ∈ U) -> forall st, inv st ->
  (length U < length (ran st) + n)%nat ->
  exists st', (forall m, (n <= m)%nat -> startup_loop m st = Ok st') /\ inv st' /\
    forall q, q ∈ registered (ran st') -> real q -> q ∈ ran st'.
Proof.
  intros Hinit Hclosed. induction n as [|n IH]; intros st I Hlen.
  { assert (length (ran st) <= length U)%nat; [|lia].
    apply submseteq_length, NoDup_submseteq; [apply I|].
    apply (known_in U (ran st) Hinit Hclosed), I. }
  destruct (iv_sysinit st I) as (l & Hl & Hperm).
  destruct (bubble_sort_spec (items st) (length l) l (Nat.le_refl _)) as [Hbp Hbs].
  set (st1 := {| sysinit := Some (bubble_sort (length l) (items st) l); newsysinit := newsysinit st;
                 items := items st; ran := ran st |}).
  assert (inv st1) as I1.
  { destruct I as [I1 I2 I3 I4 I5 I6 I7]. constructor; try done. eexists. split; [done|].
    cbn. by rewrite Hbp. }
  destruct (traverse_ok (bubble_sort (length l) (items st) l) st1 [] I1 eq_refl)
    as (b & st2 & Hrun & I2 & Hf & Ht); [set_solver| |].
  { clear -Hbs I. induction Hbs as [|a k _ IHs Ha]; constructor; [done|].
    eapply Forall_impl; [exact Ha|]. intros c Hc Hna Hnc. cbn in Hna, Hnc.
    unfold in_order in *. rewrite !(iv_items st I), !decide_False in Hc by done. done. }
  assert (forall m, (S n <= m)%nat -> startup_loop m st =
    if b then startup_loop (Nat.pred m) st2 else Ok st2) as Hstep.
  { intros [|m] Hm; [lia|]. cbn [startup_loop]. rewrite Hl. change (default [] (Some l)) with l. fold st1.
    rewrite Hrun. cbn [mbind outcome_bind]. by destruct b. }
  destruct b.
  - destruct (IH st2 I2) as (st' & Hrun' & I' & Hall).
    + specialize (Ht eq_refl). subst st1. cbn in Ht. lia.
    + exists st'. split; [|done]. intros m Hm. rewrite Hstep by done. apply Hrun'. lia.
  - exists st2. split; [|split; [done|by apply Hf]]. intros m Hm. by rewrite Hstep.
Qed.

(** The program as it is loaded. *)
Definition loaded : state :=
  {| sysinit := None; newsysinit := None; items := mem0; ran := [] |}.

(** C28. [mi_startup] returns (the tasks, those registered by tasks included, being
    finitely many), and the tasks it runs are exactly the ones registered that are
    neither dummies nor done, each once; whenever a task is run it comes first, by
    subsystem and order, of all the tasks registered by then that are still to
    run. *)
Theorem mi_startup_runs (U : list ptr) : (forall p, p ∈ sysinit_set -> p ∈ U) ->
  (forall p q, p ∈ U -> q ∈ concat (adds p) -> q ∈ U) ->
  exists st', returns (fun n => mi_startup n loaded) st' /\ NoDup (ran st') /\
    (forall p, p ∈ ran st' <-> p ∈ registered (ran st') /\ real p) /\
    forall pre p post q, ran st' = pre ++ p :: post -> q ∈ registered pre -> real q ->
      q ∉ pre ++ [p] -> in_order mem0 p q = true.
Proof.
  intros Hinit Hclosed.
  set (st0 := {| sysinit := Some sysinit_set; newsysinit := None; items := mem0; ran := [] |}).
  assert (inv st0) as I0.
  { constructor; try done.
    - eexists. split; [done|]. unfold registered. cbn. by rewrite app_nil_r.
    - constructor.
    - intros p Hp. by apply not_elem_of_nil in Hp.
    - intros pre p post Heq. by destruct pre.
    - intros pre p post q Heq. by destruct pre. }
  destruct (startup_loop_ok U (S (length U)) Hinit Hclosed st0 I0) as (st' & Hrun & I & Hall);
    [cbn; lia|].
  exists st'. split; [by exists (S (length U))|]. split; [apply I|]. split; [|apply I].
  intros p. split.
  - intros Hp. split; [|by apply I]. by apply (known_in U (ran st') Hinit Hclosed (iv_known st' I)).
  - intros [Hp Hr]. by apply Hall.
Qed.
End Startup.
End SysInit.

(** The sort of [mi_startup] gives the same tasks in the order of subsystem, then
    order within the subsystem. *)
Theorem bubble_sort_sorts m l :
  bubble_sort (length l) m l ≡ₚ l /\
  StronglySorted (fun a b =>
    subsystem (item_at m a) < subsystem (item_at m b) \/
    subsystem (item_at m a) = subsystem (item_at m b) /\ order (item_at m a) <= order (item_at m b))
    (bubble_sort (length l) m l).
Proof.
  destruct (bubble_sort_spec m (length l) l (Nat.le_refl _)) as [Hp Hs]. split; [done|]. clear Hp.
  induction Hs as [|a k _ IHs Ha]; constructor; [done|].
  eapply Forall_impl; [exact Ha|]. intros b. unfold in_order. lia.
Qed.

(** *** Witness: task 2 registers task 4; task 3 is a dummy. *)

Definition demo_items : gmap ptr sysinit_item :=
  <[1%positive := {| subsystem := 50; order := 0 |}]>
  (<[2%positive := {| subsystem := 20; order := 7 |}]>
  (<[3%positive := {| subsystem := 0; order := 0 |}]>
  (<[4%positive := {| subsystem := 30; order := 0 |}]> ∅))).

Definition demo_adds (p : ptr) : list (list ptr) :=
  if decide (p = 2%positive) then [[4%positive]] else [].

Lemma mi_startup_runs_witness :
  (exists st, mi_startup 0 1 [1; 2; 3]%positive (fun _ => true) demo_adds 6 (loaded demo_items) = Ok st /\
     ran st = [2; 4; 1]%positive) /\
  exists st', returns (fun n => mi_startup 0 1 [1; 2; 3]%positive (fun _ => true) demo_adds n
    (loaded demo_items)) st' /\ NoDup (ran st').
Proof.
  split; [eexists; split; vm_compute; reflexivity|].
  destruct (mi_startup_runs 0 1 [1; 2; 3]%positive (fun _ => true) demo_adds demo_items
    (fun _ => eq_refl) [1; 2; 3; 4]%positive) as (st' & Hret & Hnd & _).
  - intros p Hp. set_solver.
  - intros p q _ Hq. unfold demo_adds in Hq. destruct (decide (p = 2%positive)); cbn in Hq; set_solver.
  - exists st'. split; assumption.
Defined.
