(* ===== verification/SipHash.v ===== *)
(** * SipHash: keyed hashes ([bsd/lib/lazybsd_crypto.c])

    SipHash over a stream of bytes: the key goes into a state of four words
    ([SipHash_SetKey]), the bytes are gathered in a buffer of eight and compressed when it
    is full ([SipBuf]), and [SipHash_End] compresses what is left with the length.

    The theorems compare it with the definition of SipHash by its authors, which pads the
    whole message and compresses its words.  [SipHash_InitX] and [SipHash_Update] are code of
    FreeBSD (the first is here as a comment): the parameters of [SipHashX]. *)
From S2P Require Import Prelude.

(** ** The context *)

(** [v] of [SIPHASH_CTX]. *)
Record sip_v := V { v0 : Z; v1 : Z; v2 : Z; v3 : Z }.

(** [buf] as its bytes; [initialized] is 0, 1 or 2. *)
Record SIPHASH_CTX := Ctx {
  v : sip_v; b8 : list Z; bytes : Z; buflen : nat; rounds_compr : nat; rounds_final : nat; initialized : Z }.
Definition set_v (x : sip_v) (c : SIPHASH_CTX) : SIPHASH_CTX :=
  Ctx x (b8 c) (bytes c) (buflen c) (rounds_compr c) (rounds_final c) (initialized c).
Definition set_buf (l : list Z) (n : nat) (c : SIPHASH_CTX) : SIPHASH_CTX :=
  Ctx (v c) l (bytes c) n (rounds_compr c) (rounds_final c) (initialized c).
Definition set_bytes (n : Z) (c : SIPHASH_CTX) : SIPHASH_CTX :=
  Ctx (v c) (b8 c) n (buflen c) (rounds_compr c) (rounds_final c) (initialized c).
Definition set_initialized (n : Z) (c : SIPHASH_CTX) : SIPHASH_CTX :=
  Ctx (v c) (b8 c) (bytes c) (buflen c) (rounds_compr c) (rounds_final c) n.

(** [le64dec], [le64toh] of the bytes of a word. *)
Fixpoint le64 (l : list Z) : Z := match l with [] => 0 | b :: l => b + 256 * le64 l end.

(** ** The code *)

Definition SIP_ROTL (x b : Z) : Z := Z.lor (u64 (Z.shiftl x b)) (Z.shiftr x (64 - b)).

Definition SipRound (s : sip_v) : sip_v :=
  let '(V a b c d) := s in
  let a := u64 (a + b) in
  let c := u64 (c + d) in
  let b := SIP_ROTL b 13 in
  let d := SIP_ROTL d 16 in
  let b := Z.lxor b a in
  let d := Z.lxor d c in
  let a := SIP_ROTL a 32 in
  let c := u64 (c + b) in
  let a := u64 (a + d) in
  let b := SIP_ROTL b 17 in
  let d := SIP_ROTL d 21 in
  let b := Z.lxor b c in
  let d := Z.lxor d a in
  let c := SIP_ROTL c 32 in
  V a b c d.
Definition SipRounds (final : bool) (c : SIPHASH_CTX) : SIPHASH_CTX :=
  set_v (Nat.iter (if final then rounds_final c else rounds_compr c) SipRound (v c)) c.

Definition SipHash_SetKey (key : list Z) (c : SIPHASH_CTX) : SIPHASH_CTX :=
  let k0 := le64 (take 8 key) in
  let k1 := le64 (take 8 (drop 8 key)) in
  set_initialized 2 (set_v (V (Z.lxor (v0 (v c)) k0) (Z.lxor (v1 (v c)) k1) (Z.lxor (v2 (v c)) k0) (Z.lxor (v3 (v c)) k1)) c).

Definition xor_v0 (w : Z) (x : sip_v) : sip_v := V (Z.lxor (v0 x) w) (v1 x) (v2 x) (v3 x).
Definition xor_v2 (w : Z) (x : sip_v) : sip_v := V (v0 x) (v1 x) (Z.lxor (v2 x) w) (v3 x).
Definition xor_v3 (w : Z) (x : sip_v) : sip_v := V (v0 x) (v1 x) (v2 x) (Z.lxor (v3 x) w).

(** [b8[i..]] overwritten with [l]; it fits. *)
Definition overwrite (i : nat) (l b : list Z) : list Z := take i b ++ l ++ drop (i + length l) b.

(** The value is the number of bytes taken. *)
Definition SipBuf (src : list Z) (final : bool) (c : SIPHASH_CTX) : nat * SIPHASH_CTX :=
  let '(x, c) :=
    if final then (0%nat, set_buf (<[7%nat := u8 (bytes c)]> (b8 c)) (buflen c) c)
    else let x := Nat.min (length src) (8 - buflen c) in
         (x, set_buf (overwrite (buflen c) (take x src) (b8 c)) (buflen c + x) c) in
  if (buflen c =? 8)%nat || final then
    let c := set_v (xor_v3 (le64 (b8 c)) (v c)) c in
    let c := SipRounds false c in
    let c := set_v (xor_v0 (le64 (b8 c)) (v c)) c in
    (x, set_buf (replicate 8 0) 0 c)
  else (x, c).

(** The hash; the context is zeroed. *)
Definition ctx0 : SIPHASH_CTX := Ctx (V 0 0 0 0) (replicate 8 0) 0 0 0 0 0.
Definition SipHash_End (c : SIPHASH_CTX) : Z * SIPHASH_CTX :=
  let '(_, c) := SipBuf [] true c in
  let c := set_v (xor_v2 0xff (v c)) c in
  let c := SipRounds true c in
  (Z.lxor (Z.lxor (v0 (v c)) (v1 (v c))) (Z.lxor (v2 (v c)) (v3 (v c))), ctx0).

(** The rest of SipHash in FreeBSD. *)
Class SipHashKernel := {
  SipHash_InitX : nat -> nat -> SIPHASH_CTX -> SIPHASH_CTX;
  SipHash_Update : list Z -> SIPHASH_CTX -> SIPHASH_CTX }.

Definition SipHashX `{SipHashKernel} (rc rf : nat) (key src : list Z) (c : SIPHASH_CTX) : Z * SIPHASH_CTX :=
  SipHash_End (SipHash_Update src (SipHash_SetKey key (SipHash_InitX rc rf c))).

(** ** What FreeBSD documents *)

Definition sip_constants : sip_v := V 0x736f6d6570736575 0x646f72616e646f6d 0x6c7967656e657261 0x7465646279746573.
Definition init_ctx (rc rf : nat) : SIPHASH_CTX := Ctx sip_constants (replicate 8 0) 0 0 rc rf 1.

(** [SipBuf] until everything is taken. *)
Fixpoint feed (fuel : nat) (src : list Z) (c : SIPHASH_CTX) : SIPHASH_CTX :=
  match fuel, src with
  | O, _ | _, [] => c
  | S fuel, _ => let '(x, c) := SipBuf src false c in feed fuel (drop x src) c
  end.

Class SipHashDoc `{SipHashKernel} : Prop := {
  doc_init rc rf c : SipHash_InitX rc rf c = init_ctx rc rf;
  doc_update src c : SipHash_Update src c = feed (length src) src (set_bytes (u64 (bytes c + Z.of_nat (length src))) c) }.

(** ** SipHash as it is defined *)

Definition rotl (x b : Z) : Z := x * 2 ^ b mod 2 ^ 64 + x / 2 ^ (64 - b).
Definition add64 (x y : Z) : Z := (x + y) mod 2 ^ 64.

Definition sip_round (s : sip_v) : sip_v :=
  let '(V a b c d) := s in
  let a := add64 a b in let b := rotl b 13 in let b := Z.lxor b a in let a := rotl a 32 in
  let c := add64 c d in let d := rotl d 16 in let d := Z.lxor d c in
  let a := add64 a d in let d := rotl d 21 in let d := Z.lxor d a in
  let c := add64 c b in let b := rotl b 17 in let b := Z.lxor b c in let c := rotl c 32 in
  V a b c d.

(** The message with zeros and its length up to whole words. *)
Definition padded (m : list Z) : list Z :=
  m ++ replicate (7 - length m mod 8) 0 ++ [Z.of_nat (length m) mod 256].
Definition words (l : list Z) : list Z := (fun i => le64 (take 8 (drop (8 * i) l))) <$> seq 0 (length l / 8).

Definition compress (c : nat) (s : sip_v) (w : Z) : sip_v := xor_v0 w (Nat.iter c sip_round (xor_v3 w s)).
Definition siphash (c d : nat) (key m : list Z) : Z :=
  let k0 := le64 (take 8 key) in
  let k1 := le64 (take 8 (drop 8 key)) in
  let s := V (Z.lxor k0 0x736f6d6570736575) (Z.lxor k1 0x646f72616e646f6d) (Z.lxor k0 0x6c7967656e657261) (Z.lxor k1 0x7465646279746573) in
  let s := foldl (compress c) s (words (padded m)) in
  let s := Nat.iter d sip_round (xor_v2 0xff s) in
  Z.lxor (Z.lxor (v0 s) (v1 s)) (Z.lxor (v2 s) (v3 s)).

(** The test values of the authors: the key is 0, 1, ..., 15, the message 0, 1, ... *)
Example siphash_empty : siphash 2 4 (seqZ 0 16) [] = 0x726fdb47dd0e0e31.
Proof. by vm_compute. Qed.
Example siphash_15 : siphash 2 4 (seqZ 0 16) (seqZ 0 15) = 0xa129ca6149be45e5.
Proof. by vm_compute. Qed.

(** ** Words stay words *)

Definition word (x : Z) : Prop := 0 <= x < 2 ^ 64.
Definition words_of (s : sip_v) : Prop := word (v0 s) /\ word (v1 s) /\ word (v2 s) /\ word (v3 s).
Definition byte (x : Z) : Prop := 0 <= x < 256.

Lemma word_bits x : 0 <= x -> (forall n, 64 <= n -> Z.testbit x n = false) -> word x.
Proof.
  intros H0 Hb. split; [done|]. destruct (Z.eq_dec x 0) as [->|]; [done|]. apply Z.log2_lt_pow2; [lia|].
  destruct (Z.lt_ge_cases (Z.log2 x) 64) as [|Hl]; [done|]. pose proof (Z.bit_log2 x ltac:(lia)) as Ht. by rewrite Hb in Ht.
Qed.
Lemma testbit_bytes_word x n : word x -> 64 <= n -> Z.testbit x n = false.
Proof. intros [H0 Hx] Hn. apply Z.bits_above_log2; [done|]. destruct (Z.eq_dec x 0) as [->|]; [cbn; lia|]. apply Z.log2_lt_pow2 in Hx; lia. Qed.
Lemma word_lxor x y : word x -> word y -> word (Z.lxor x y).
Proof.
  intros Hx Hy. apply word_bits; [apply Z.lxor_nonneg; unfold word in *; lia|]. intros n Hn.
  by rewrite Z.lxor_spec, !testbit_bytes_word.
Qed.
Lemma word_u64 x : word (u64 x).
Proof. apply Z.mod_pos_bound. lia. Qed.

(** A rotation is a sum of what stays and what comes around. *)
Lemma SIP_ROTL_rotl x b : word x -> 0 < b < 64 -> SIP_ROTL x b = rotl x b /\ word (SIP_ROTL x b).
Proof.
  intros Hx Hb. assert (Z.land (u64 (Z.shiftl x b)) (Z.shiftr x (64 - b)) = 0) as Hl.
  { apply Z.bits_inj'. intros n Hn. rewrite Z.land_spec, Z.testbit_0_l, Z.shiftr_spec by done.
    destruct (Z.lt_ge_cases n b).
    - unfold uwrap. rewrite Z.mod_pow2_bits_low, Z.shiftl_spec_low by lia. done.
    - rewrite (testbit_bytes_word x) by (done || lia). apply andb_false_r. }
  assert (SIP_ROTL x b = rotl x b) as E.
  { unfold SIP_ROTL, rotl. rewrite <- (Z.shiftl_mul_pow2 x b), <- (Z.shiftr_div_pow2 x (64 - b)) by lia.
    fold (u64 (Z.shiftl x b)). pose proof (Z.add_lor_land (u64 (Z.shiftl x b)) (Z.shiftr x (64 - b))). lia. }
  split; [done|]. apply word_bits.
  - unfold SIP_ROTL. apply Z.lor_nonneg. split; [apply word_u64|]. apply Z.shiftr_nonneg, Hx.
  - intros n Hn. unfold SIP_ROTL. rewrite Z.lor_spec, Z.shiftr_spec, (testbit_bytes_word (u64 _)), (testbit_bytes_word x) by (apply word_u64 || done || lia). done.
Qed.

Lemma SipRound_sip_round s : words_of s -> SipRound s = sip_round s /\ words_of (SipRound s).
Proof.
  destruct s as [a b c d]. intros (A & B & C & D). cbn in *.
  unfold SipRound, sip_round. change (add64 a b) with (u64 (a + b)). change (add64 c d) with (u64 (c + d)).
  destruct (SIP_ROTL_rotl b 13 B ltac:(lia)) as [<- B1]. destruct (SIP_ROTL_rotl d 16 D ltac:(lia)) as [<- D1].
  set (a1 := u64 (a + b)). assert (word a1) as A1 by apply word_u64. set (c1 := u64 (c + d)). assert (word c1) as C1 by apply word_u64.
  set (b1 := SIP_ROTL b 13) in *. set (d1 := SIP_ROTL d 16) in *.
  set (b2 := Z.lxor b1 a1). assert (word b2) as B2 by (by apply word_lxor). set (d2 := Z.lxor d1 c1). assert (word d2) as D2 by (by apply word_lxor).
  change (add64 c1 b2) with (u64 (c1 + b2)).
  destruct (SIP_ROTL_rotl a1 32 A1 ltac:(lia)) as [<- A2]. set (a2 := SIP_ROTL a1 32) in *. change (add64 a2 d2) with (u64 (a2 + d2)).
  set (c2 := u64 (c1 + b2)). assert (word c2) as C2 by apply word_u64. set (a3 := u64 (a2 + d2)). assert (word a3) as A3 by apply word_u64.
  destruct (SIP_ROTL_rotl b2 17 B2 ltac:(lia)) as [<- B3]. destruct (SIP_ROTL_rotl d2 21 D2 ltac:(lia)) as [<- D3].
  destruct (SIP_ROTL_rotl c2 32 C2 ltac:(lia)) as [<- C3].
  split; [done|]. split_and!; cbn; try done; by apply word_lxor.
Qed.

Lemma rounds_words n s : words_of s -> Nat.iter n SipRound s = Nat.iter n sip_round s /\ words_of (Nat.iter n SipRound s).
Proof.
  intros Hs. induction n as [|n [IH1 IH2]]; [done|]. rewrite !Nat.iter_succ.
  destruct (SipRound_sip_round _ IH2) as [E W]. by rewrite <- IH1, <- E.
Qed.

Lemma le64_word l : (length l <= 8)%nat -> Forall byte l -> word (le64 l).
Proof.
  intros Hl Hb. assert (0 <= le64 l < 256 ^ Z.of_nat (length l)) as H; [|split; [lia|]; pose proof (Z.pow_le_mono_r 256 (Z.of_nat (length l)) 8); lia].
  clear Hl. induction Hb as [|b l Hb _ IH]; cbn [le64 length]; [cbn; lia|].
  rewrite Nat2Z.inj_succ, Z.pow_succ_r by lia. unfold byte in Hb. lia.
Qed.

(** A context with a key: four words, eight bytes of which those behind [buflen] are zero,
    and room in the buffer. *)
Record typed (c : SIPHASH_CTX) : Prop := {
  typed_v : words_of (v c);
  typed_b8 : exists rest, b8 c = rest ++ replicate (8 - length rest) 0 /\ length rest = buflen c /\ Forall byte rest;
  typed_buflen : (buflen c < 8)%nat;
  typed_bytes : word (bytes c) }.

Lemma words_xor_v0 w s : word w -> words_of s -> words_of (xor_v0 w s).
Proof. intros Hw (A & B & C & D). split_and!; try done. by apply word_lxor. Qed.
Lemma words_xor_v3 w s : word w -> words_of s -> words_of (xor_v3 w s).
Proof. intros Hw (A & B & C & D). split_and!; try done. by apply word_lxor. Qed.
Lemma words_xor_v2 w s : word w -> words_of s -> words_of (xor_v2 w s).
Proof. intros Hw (A & B & C & D). split_and!; try done. by apply word_lxor. Qed.

(** The word of the buffer compressed. *)
Lemma compress_spec n w s : word w -> words_of s ->
  xor_v0 w (Nat.iter n SipRound (xor_v3 w s)) = compress n s w /\ words_of (compress n s w).
Proof.
  intros Hw Hs. destruct (rounds_words n (xor_v3 w s)) as [E W]; [by apply words_xor_v3|].
  unfold compress. rewrite <- E. split; [done|]. by apply words_xor_v0.
Qed.

(** What [SipBuf] does with bytes that come, by the bytes [rest] in the buffer. *)
Lemma SipBuf_spec src c rest : typed c -> b8 c = rest ++ replicate (8 - length rest) 0 -> length rest = buflen c ->
  Forall byte rest -> Forall byte src ->
  let x := Nat.min (length src) (8 - buflen c) in
  SipBuf src false c = (x,
    if (buflen c + x =? 8)%nat
    then set_buf (replicate 8 0) 0 (set_v (compress (rounds_compr c) (v c) (le64 (rest ++ take x src))) c)
    else set_buf ((rest ++ take x src) ++ replicate (8 - length (rest ++ take x src)) 0) (buflen c + x) c) /\ typed (SipBuf src false c).2.
Proof.
  intros T Hb Hl Hr Hs x. pose proof (typed_buflen c T) as Hlt. unfold SipBuf. fold x.
  assert (length (take x src) = x) as Hx by (rewrite length_take; lia).
  assert (overwrite (buflen c) (take x src) (b8 c) = (rest ++ take x src) ++ replicate (8 - length (rest ++ take x src)) 0) as Eo.
  { unfold overwrite. rewrite Hb, <- Hl, take_app_length, length_app, Hx, drop_app, drop_ge by lia. cbn [app].
    rewrite drop_replicate, <- app_assoc. do 3 f_equal. lia. }
  rewrite Eo. cbn [buflen set_buf]. rewrite orb_false_r.
  assert (Forall byte (rest ++ take x src)) as Hf by (apply Forall_app; split; [done|by apply Forall_take]).
  destruct (Nat.eqb_spec (buflen c + x) 8) as [E8|E8].
  - assert (8 - length (rest ++ take x src) = 0)%nat as -> by (rewrite length_app; lia). rewrite app_nil_r.
    cbn [SipRounds b8 v set_v set_buf rounds_compr].
    destruct (compress_spec (rounds_compr c) (le64 (rest ++ take x src)) (v c)) as [-> W].
    { apply le64_word; [rewrite length_app; lia|done]. }
    { apply T. }
    split; [by destruct c|]. constructor; cbn; [done|by exists []|lia|apply T].
  - split; [done|]. constructor; cbn; [apply T| |lia|apply T].
    exists (rest ++ take x src). split_and!; [done|rewrite length_app; lia|done].
Qed.

(** ** A stream of bytes *)

(** The state that the key gives. *)
Definition keyed (key : list Z) : sip_v :=
  let k0 := le64 (take 8 key) in
  let k1 := le64 (take 8 (drop 8 key)) in
  V (Z.lxor k0 0x736f6d6570736575) (Z.lxor k1 0x646f72616e646f6d) (Z.lxor k0 0x6c7967656e657261) (Z.lxor k1 0x7465646279746573).

(** The bytes [m] have come: the whole words [bs] are compressed, [rest] is in the buffer. *)
Record fed (rc rf : nat) (key m : list Z) (c : SIPHASH_CTX) : Prop := {
  fed_typed : typed c;
  fed_rounds : rounds_compr c = rc /\ rounds_final c = rf;
  fed_split : exists bs rest, m = concat bs ++ rest /\ Forall (fun b => length b = 8%nat) bs /\
    b8 c = rest ++ replicate (8 - length rest) 0 /\ length rest = buflen c /\
    v c = foldl (compress rc) (keyed key) (le64 <$> bs) }.

Lemma fed_SipBuf rc rf key m c src : fed rc rf key m c -> Forall byte m -> Forall byte src ->
  let '(x, c') := SipBuf src false c in
  x = Nat.min (length src) (8 - buflen c) /\ fed rc rf key (m ++ take x src) c' /\ bytes c' = bytes c.
Proof.
  intros [T [R1 R2] (bs & rest & Em & Hbs & Hb & Hl & Hv)] Hm Hs. rewrite Em in Hm. apply Forall_app in Hm as [_ Hr].
  destruct (SipBuf_spec src c rest T Hb Hl Hr Hs) as [E T']. rewrite E in T' |- *.
  set (x := Nat.min (length src) (8 - buflen c)) in *. split; [done|]. cbn [snd] in T'.
  assert (length (take x src) = x) as Hx by (rewrite length_take; lia).
  destruct (Nat.eqb_spec (buflen c + x) 8) as [E8|E8]; (split; [|done]); (split; [done|by destruct c|]).
  - exists (bs ++ [rest ++ take x src]), []. split_and!; [| |done|done|].
    + rewrite Em, concat_app. cbn [concat]. by rewrite !app_nil_r, app_assoc.
    + apply Forall_app. split; [done|]. apply Forall_singleton. rewrite length_app. lia.
    + cbn. by rewrite fmap_app, foldl_app, <- Hv, <- R1.
  - exists bs, (rest ++ take x src). split_and!; [by rewrite Em, <- app_assoc|done|done|cbn; rewrite length_app; lia|done].
Qed.

Lemma fed_feed rc rf key fuel : forall src m c, (length src <= fuel)%nat -> fed rc rf key m c -> Forall byte m -> Forall byte src ->
  fed rc rf key (m ++ src) (feed fuel src c) /\ bytes (feed fuel src c) = bytes c.
Proof.
  induction fuel as [|fuel IH]; intros src m c Hf F Hm Hs.
  { destruct src; [|cbn in Hf; lia]. by rewrite app_nil_r. }
  destruct src as [|b src]; [by rewrite app_nil_r|]. cbn [feed].
  pose proof (fed_SipBuf rc rf key m c (b :: src) F Hm Hs) as Hb. destruct (SipBuf (b :: src) false c) as [x c']. destruct Hb as (Hx & F' & Eb).
  pose proof (typed_buflen c (fed_typed _ _ _ _ _ F)) as Hl. cbn [length] in Hx, Hf.
  destruct (IH (drop x (b :: src)) (m ++ take x (b :: src)) c') as [F2 E2]; [rewrite length_drop; cbn [length]; lia|done| |by apply Forall_drop|].
  { apply Forall_app. split; [done|by apply Forall_take]. }
  rewrite <- app_assoc, take_drop in F2. split; [done|]. by rewrite E2.
Qed.

(** Eight bytes at a time. *)
Lemma words_concat bs : Forall (fun b => length b = 8%nat) bs -> words (concat bs) = le64 <$> bs.
Proof.
  intros Hbs. assert (length (concat bs) = 8 * length bs)%nat as Hl.
  { induction Hbs as [|b bs Hb _ IH]; cbn; [done|]. rewrite length_app. lia. }
  unfold words. rewrite Hl, Nat.mul_comm, Nat.div_mul by lia. clear Hl.
  induction Hbs as [|b bs Hb _ IH]; [done|]. cbn [length seq fmap list_fmap concat]. f_equal.
  - rewrite Nat.mul_0_r, drop_0, take_app_le, take_ge by lia. done.
  - rewrite <- seq_shift, <- list_fmap_compose, <- IH. apply list_fmap_ext. intros _ i _. unfold compose.
    rewrite drop_app, drop_ge by lia. cbn [app]. do 3 f_equal. lia.
Qed.

Section Hash.
Context `{SipHashDoc}.

Lemma le64_key key : Forall byte key -> word (le64 (take 8 key)) /\ word (le64 (take 8 (drop 8 key))).
Proof. intros Hk. split; apply le64_word; rewrite ?length_take; try lia; repeat first [apply Forall_take|apply Forall_drop]; done. Qed.

Lemma fed_start rc rf key : Forall byte key -> fed rc rf key [] (SipHash_SetKey key (init_ctx rc rf)).
Proof.
  intros Hk. destruct (le64_key key Hk) as [K0 K1]. split; [|done|].
  - constructor; cbn; [|by exists []|lia|done]. split_and!; apply word_lxor; done.
  - exists [], []. split_and!; try done. cbn. unfold keyed. f_equal; apply Z.lxor_comm.
Qed.

(** The chunks of a message, one update each. *)
Lemma fed_updates rc rf key chunks : forall m c, fed rc rf key m c -> Forall byte m -> Forall (Forall byte) chunks ->
  bytes c = u64 (Z.of_nat (length m)) ->
  let c' := foldl (fun c src => SipHash_Update src c) c chunks in
  fed rc rf key (m ++ concat chunks) c' /\ bytes c' = u64 (Z.of_nat (length (m ++ concat chunks))).
Proof.
  induction chunks as [|src chunks IH]; intros m c F Hm Hs Hb; cbn [foldl concat]; [by rewrite app_nil_r|].
  apply Forall_cons in Hs as [Hs Hcs]. rewrite doc_update. set (c1 := set_bytes _ c).
  assert (fed rc rf key m c1) as F1.
  { destruct F as [[T1 T2 T3 T4] R S]. split; [|done|done]. constructor; try done. apply word_u64. }
  destruct (fed_feed rc rf key (length src) src m c1) as [F2 E2]; [done..|]. rewrite app_assoc. apply IH; [done| |done|].
  - by apply Forall_app.
  - rewrite E2. cbn. rewrite Hb, length_app, Nat2Z.inj_add. unfold uwrap. apply Zplus_mod_idemp_l.
Qed.

Lemma End_spec rc rf key m c : fed rc rf key m c -> Forall byte m -> bytes c = u64 (Z.of_nat (length m)) ->
  (SipHash_End c).1 = siphash rc rf key m.
Proof.
  intros [T [R1 R2] (bs & rest & Em & Hbs & Hb & Hl & Hv)] Hm Hn. pose proof (typed_buflen c T) as Hlt.
  assert (length (concat bs) = 8 * length bs)%nat as Hcl.
  { clear -Hbs. induction Hbs as [|b bs Hb _ IH]; cbn; [done|]. rewrite length_app. lia. }
  set (last := rest ++ replicate (7 - length rest) 0 ++ [Z.of_nat (length m) mod 256]).
  assert (<[7%nat := u8 (bytes c)]> (b8 c) = last) as Elast.
  { rewrite Hb, Hn. unfold uwrap. assert (Z.of_nat (length m) mod 2 ^ 64 mod 2 ^ 8 = Z.of_nat (length m) mod 256) as ->.
    { symmetry. apply Znumtheory.Zmod_div_mod; [lia|lia|]. by exists 72057594037927936. }
    replace (8 - length rest)%nat with (7 - length rest + 1)%nat by lia. rewrite replicate_add, app_assoc.
    rewrite insert_app_r_alt by (rewrite length_app, length_replicate; lia). rewrite length_app, length_replicate.
    replace (7 - (length rest + (7 - length rest)))%nat with 0%nat by lia. cbn. by rewrite <- app_assoc. }
  assert (words (padded m) = le64 <$> (bs ++ [last])) as Ew.
  { rewrite <- words_concat. 2:{ apply Forall_app. split; [done|]. apply Forall_singleton. unfold last. rewrite !length_app, length_replicate. cbn. lia. }
    f_equal. unfold padded. rewrite concat_app. cbn [concat]. rewrite app_nil_r. unfold last. 
    assert (length m mod 8 = length rest)%nat as ->.
    { rewrite Em, length_app, Hcl, Nat.add_comm, Nat.mul_comm, Nat.Div0.mod_add. apply Nat.mod_small. lia. }
    rewrite Em at 1. by rewrite <- app_assoc. }
  rewrite Em in Hm. apply Forall_app in Hm as [_ Hr].
  unfold siphash. fold (keyed key). rewrite Ew, fmap_app, foldl_app, <- Hv. cbn [fmap list_fmap foldl].
  unfold SipHash_End, SipBuf. rewrite Elast, orb_true_r. cbn [b8 v set_buf set_v SipRounds rounds_compr rounds_final].
  assert (word (le64 last)) as Hw.
  { apply le64_word.
    - unfold last. rewrite !length_app, length_replicate. cbn. lia.
    - unfold last. rewrite !Forall_app. split_and!; [done|apply Forall_replicate; split; lia|]. apply Forall_singleton. apply Z.mod_pos_bound. lia. }
  destruct (compress_spec (rounds_compr c) (le64 last) (v c) Hw (typed_v c T)) as [-> W].
  destruct (rounds_words (rounds_final c) (xor_v2 255 (compress (rounds_compr c) (v c) (le64 last)))) as [E _].
  { by apply words_xor_v2. }
  cbn [fst]. rewrite <- R1, <- R2, <- E. by destruct c.
Qed.

(** C23. The code computes SipHash.  However a message is cut into pieces for
    [SipHash_Update], empty ones too, [SipHash_End] gives what the definition of SipHash
    gives for the whole message, for any key and numbers of rounds; it leaves nothing of
    the key in the context. *)
Theorem siphash_correct rc rf key chunks c : Forall byte key -> Forall (Forall byte) chunks ->
  SipHash_End (foldl (fun c src => SipHash_Update src c) (SipHash_SetKey key (SipHash_InitX rc rf c)) chunks) =
    (siphash rc rf key (concat chunks), ctx0).
Proof.
  intros Hk Hc. rewrite doc_init. set (c1 := foldl _ _ _).
  destruct (fed_updates rc rf key chunks [] (SipHash_SetKey key (init_ctx rc rf))) as [F E]; [by apply fed_start|done|done|done|].
  rewrite (surjective_pairing (SipHash_End c1)). f_equal; [|by destruct (SipBuf [] true c1) eqn:Eb; unfold c1, SipHash_End; destruct (SipBuf _ _ _)].
  apply End_spec; [exact F| |exact E]. cbn. clear -Hc. induction Hc; cbn; [done|]. by apply Forall_app.
Qed.

(** C38. The words of a context stay words.  A context with a key has four 64-bit words, a
    buffer of eight bytes that are zero behind the first [buflen], fewer than eight, and a
    64-bit count; setting a key makes such a context, taking bytes keeps it one, and the
    hash is a 64-bit word. *)
Theorem siphash_typed rc rf key src c : Forall byte key -> Forall byte src -> typed c ->
  typed (SipHash_SetKey key (SipHash_InitX rc rf c)) /\ typed (SipBuf src false c).2 /\
  typed (SipHash_Update src c) /\ word (SipHash_End c).1.
Proof.
  intros Hk Hs T. rewrite doc_init. split; [apply (fed_typed _ _ _ _ _ (fed_start rc rf key Hk))|].
  assert (forall c, typed c -> typed (SipBuf src false c).2) as Hbuf.
  { intros c1 T1. destruct (typed_b8 c1 T1) as (rest & Hb & Hl & Hr). by apply (SipBuf_spec src c1 rest T1 Hb Hl Hr Hs). }
  split; [by apply Hbuf|]. destruct (typed_b8 c T) as (rest & Hb & Hl & Hr). pose proof (typed_buflen c T) as Hlt. split.
  - rewrite doc_update. assert (typed (set_bytes (u64 (bytes c + Z.of_nat (length src))) c)) as T1.
    { destruct T as [T1 T2 T3 T4]. constructor; try done. apply word_u64. }
    clear Hb Hl Hr Hlt Hbuf. revert T1. generalize (set_bytes (u64 (bytes c + Z.of_nat (length src))) c). generalize (length src) as fuel. clear T c rest.
    intros fuel. revert src Hs. induction fuel as [|fuel IH]; intros src Hs c1 T1; cbn [feed]; [done|]. destruct src as [|b src]; [done|].
    destruct (typed_b8 c1 T1) as (rest & Hb & Hl & Hr). destruct (SipBuf_spec (b :: src) c1 rest T1 Hb Hl Hr Hs) as [E T2].
    destruct (SipBuf (b :: src) false c1) as [x c2]. apply IH; [by apply Forall_drop|done].
  - unfold SipHash_End, SipBuf. rewrite orb_true_r. cbn [b8 v set_buf set_v SipRounds rounds_compr rounds_final].
    assert (word (le64 (<[7%nat := u8 (bytes c)]> (b8 c)))) as Hw.
    { apply le64_word; rewrite Hb; [rewrite length_insert, length_app, length_replicate; lia|].
      apply Forall_insert; [|apply Z.mod_pos_bound; lia]. apply Forall_app. split; [done|]. apply Forall_replicate. unfold byte. lia. }
    destruct (compress_spec (rounds_compr c) _ (v c) Hw (typed_v c T)) as [-> W].
    destruct (rounds_words (rounds_final c) (xor_v2 255 (compress (rounds_compr c) (v c) (le64 (<[7%nat := u8 (bytes c)]> (b8 c)))))) as [_ (A & B & C & D)].
    { by apply words_xor_v2. }
    apply word_lxor; apply word_lxor; done.
Qed.
End Hash.

(** ** Examples *)
#[export] Instance example_siphash : SipHashKernel := {
  SipHash_InitX rc rf _ := init_ctx rc rf;
  SipHash_Update src c := feed (length src) src (set_bytes (u64 (bytes c + Z.of_nat (length src))) c) }.
#[export] Instance example_siphash_doc : SipHashDoc.
Proof. by constructor. Qed.

Lemma bytes_seqZ n : (n <= 256)%nat -> Forall byte (seqZ 0 (Z.of_nat n)).
Proof. intros Hn. apply Forall_forall. intros x Hx%elem_of_seqZ. unfold byte. lia. Qed.

(** Fifteen bytes in three pieces. *)
Lemma siphash_correct_witness :
  (SipHash_End (foldl (fun c src => SipHash_Update src c) (SipHash_SetKey (seqZ 0 16) (SipHash_InitX 2 4 ctx0)) [seqZ 0 3; []; seqZ 3 12])).1 =
    0xa129ca6149be45e5.
Proof.
  rewrite siphash_correct; [by vm_compute|by apply (bytes_seqZ 16); lia|].
  apply Forall_cons_2; [by apply (bytes_seqZ 3); lia|]. apply Forall_cons_2; [done|]. apply Forall_cons_2; [|done].
  apply Forall_forall. intros x Hx%elem_of_seqZ. unfold byte. lia.
Defined.

Lemma siphash_typed_witness : typed ctx0 /\ typed (SipHash_Update [1; 2; 3] ctx0).
Proof.
  assert (typed ctx0) as T. { constructor; cbn; [done|by exists []|lia|done]. }
  split; [done|]. apply (siphash_typed 2 4 [] [1; 2; 3] ctx0); [done| |done].
  repeat apply Forall_cons_2; try (unfold byte; lia). done.
Defined.
